(* ===== verification/_CoqProject ===== *)
-Q . S2P
Prelude.v
PyStr.v
Sha256.v
PyFloat.v
Json.v
JsonFacts.v
Datetime.v
PyRe.v
PyText.v
Difflib.v
Facts.v
FactsFacts.v
Taxonomy.v
DocModels.v
Schemas.v
Compiler.v
ExecModels.v
Explainability.v
ExplainFacts.v
JsonLogic.v
CompilerFacts.v
CompilerWitness.v
Policies.v
PoliciesFacts.v
Governance.v
Ledger.v
LedgerFacts.v
LedgerConcurrency.v
LedgerWitness.v
Execution.v
Integration.v
ExecutionFacts.v
Negotiation.v
NegotiationFacts.v
Resilience.v
ResilienceFacts.v
Canary.v
CanaryFacts.v
Arbitration.v
ArbitrationFacts.v
Extractor.v
ExtractorFacts.v
Chunker.v
ChunkerFacts.v
DbModels.v
HitlService.v
HitlServiceFacts.v
Orchestrator.v
OrchestratorFacts.v
PipelineFacts.v
PipelineWitness.v
Provenance.v
ProvenanceFacts.v
Backtest.v
BacktestFacts.v
TenantRegistry.v
IngestFacts.v
OutputGuard.v
OutputGuardFacts.v
Providers.v
ProvidersFacts.v
AgentGraphFacts.v
Healing.v
HealingFacts.v
Incident.v
IncidentFacts.v
FilingReport.v
Filing.v
FilingFacts.v
Grievance.v
GrievanceFacts.v
Security.v
SecurityFacts.v
Mna.v
MnaFacts.v
Sandbox.v
Diffing.v
Cdc.v
