(* ===== verification/Prelude.v ===== *)
(** * RegEngine AI: a verification development

    RegEngine turns regulatory circulars into executable compliance policies
    and evaluates transactions against them.  Language models extract a rule
    from a clause and audit it; everything around that is deterministic Python
    under [src/app/], and that is what this library models and verifies.

    ** The program and its models

    [parsing/] reads a PDF through a cascade of extraction backends, numbers its
    elements and cuts it into clause chunks with digests.  [agents/] extracts a
    rule from a chunk: offline by patterns, with a crew of two language-model
    agents that revise each other, or along a graph that routes a clause by its
    complexity; [redteam/] cleans the text before a model sees it and rejects
    what the model says without evidence in the clause.
    An extracted rule names metrics in free text.  [regulatory/facts.py]
    resolves a metric to a canonical fact with an allowed unit and bounded
    values, [regulatory/taxonomy.py] finds the regulator, the document type and
    the policy namespace.  [compiler/] checks an audited rule with a list of
    review flags and, when none blocks, compiles it to a Rego module and to a
    JSON-Logic rule.  [execution/] registers compiled policies in Redis, caches
    and hot-reloads them, and evaluates a transaction by asking OPA about every
    applicable policy; what cannot be decided goes to a human review queue.
    [governance/] can halt all of this with a kill switch.  [ledger/] records
    every evaluation in a hash-chained table and verifies the chain.
    [backtest/] replays the transactions of the ledger against a candidate rule,
    [canary/] shadows live traffic with one, [healing/] repairs a policy that
    OPA rejects, [resilience/] parks failed work for an operator.
    [incident/] alerts officers about violations and escalates until one
    acknowledges, [regulatory_filing/] collects reports from the ledger and
    submits them, [grievance_escalation/] reports a broker that keeps failing a
    rule to the regulator's grievance system.
    [services/] is the document pipeline on the relational database: the
    orchestrator drives a circular from upload to review, the review service
    approves and activates rules, the reaper clears stalled circulars, and
    provenance traces a decision back to the regulator's document.
    [security/] decides who may do any of this: tokens, identity providers,
    sessions, roles, step-up and rate limits in front of the routes.
    [api/sandbox_routes.py] lets a tenant try a transaction without effect,
    [diffing/] tells what a new circular changes, [mna_due_diligence/] compares
    the rules of two entities, and [cdc/] feeds the rows of a broker's legacy
    database into the evaluation.

    - [Prelude] (this file): exceptions as values ([res]), Python truthiness,
      tactics, hint database and list lemmas that the components share.
    - [PyStr], [PyFloat], [Sha256], [Json]/[JsonFacts], [Datetime], [PyRe]:
      the parts of Python's strings, IEEE doubles, [hashlib], [json.dumps],
      [datetime] and [re] that the code uses, as executable functions.
      [JsonFacts] proves that the canonical text determines the value,
      [Datetime] that [isoformat] is injective, [PyRe] that the matcher
      decides the language of the pattern.  [PyText] counts and slices by
      code point, matches patterns with named groups, and finds and
      substitutes all matches; [Difflib] is the
      [SequenceMatcher] with its popularity heuristic.
    - [Facts], [FactsFacts]: [regulatory/facts.py] ([resolve_canonical_fact],
      [compute_canonical_facts_digest], the whole fact table).
    - [Taxonomy]: [regulatory/taxonomy.py].
    - [Schemas]: the validated records of [agents/schemas.py].
    - [Compiler]: [compiler/naming.py], [rego_compiler.py],
      [jsonlogic_compiler.py], [jsonlogic_validator.py], [hitl.py] and
      [pipeline.py]; [JsonLogic]: [backtest/jsonlogic_evaluator.py] and the
      JSON-Logic evaluator of [candidate_evaluator.py].
      [CompilerFacts], [CompilerWitness] hold their theorems.
    - [ExecModels], [Policies], [PoliciesFacts], [Execution], [ExecutionFacts]:
      [execution/models.py], [policy_registry.py], [policy_cache.py],
      [policy_events.py], [policy_publisher.py], [policy_hot_reload.py],
      [hitl_queue.py], [evaluator.py] and [tasks.py].  The class [PolicyLookup]
      is the protocol of [policy_cache.py]: the evaluator is verified against
      it, registry and cache are its instances.
    - [Governance]: [governance/kill_switch.py], [drills.py], [middleware.py].
    - [Explainability], [ExplainFacts]: [explainability/], the parser of
      violation messages and the sentences written from them.
    - [Ledger], [LedgerFacts], [LedgerConcurrency],
      [LedgerWitness]: [ledger/hash_chain.py], [models.py], [service.py] and
      [verifier.py]; [Integration]: [ledger/integration.py].
    - [Negotiation], [NegotiationFacts]: the domain agents, weighted votes,
      arbiter and transcript of [negotiation/agents.py], [consensus.py],
      [arbiter.py], [orchestrator.py] and [telemetry.py]; [Arbitration],
      [ArbitrationFacts]: the clause arbitration of [arbitration_engine.py],
      [arbitration_models.py], [arbitration_store.py], [security.py] and
      [hitl_bridge.py].
    - [Resilience], [ResilienceFacts]: [resilience/] and two endpoints of
      [api/dlq_routes.py].
    - [Canary], [CanaryFacts]: [canary/].
    - [TenantRegistry]: [execution/tenant_policy_registry.py].
    - [DocModels]: [parsing/hashing.py] and the records of [models.py]; [Extractor],
      [Chunker]: [parsing/hierarchy.py], [extractor.py], [exceptions.py] and
      [chunker.py], [services/pipeline.py] and the chunk builder of
      [localization/pipeline.py], with [ExtractorFacts] and [ChunkerFacts];
      [IngestFacts] composes them with the orchestrator and provenance.
    - [DbModels]: the tables of
      [db/models.py] that the pipeline uses, with their CHECK, UNIQUE and
      foreign-key constraints as the condition under which a statement raises.
    - [HitlService], [HitlServiceFacts]: [services/hitl_service.py].
    - [Orchestrator], [OrchestratorFacts]: [services/orchestrator.py] and
      [services/stale_state_reaper.py].  A function that commits several times
      returns the database after its last commit, also when it raises.
      [PipelineFacts] composes orchestrator, review service and reaper into one
      step relation ([pipeline_step]) and proves its invariants, and facts about
      the status queries and the reaper; [PipelineWitness] runs a
      circular through the whole pipeline.
    - [Provenance], [ProvenanceFacts]: [services/provenance.py], on the database
      and the ledger, composed with the events of [Integration].
    - [Backtest], [BacktestFacts]: [backtest/replay_engine.py], [reporting.py],
      [orchestrator.py] and [models.py], on the ledger that [Integration] fills.
    - [OutputGuard], [OutputGuardFacts]: [redteam/defense.py] and
      [redteam/output_guard.py]; [Providers], [ProvidersFacts]:
      [agents/providers.py] and [crew.py], composed with the guard and with the
      gate of [Compiler]; [AgentGraphFacts]: [agents/graph/].
    - [Healing], [HealingFacts]: [healing/], with the interpreter of [JsonLogic]
      for its test cases and the queue of [Resilience] for what it gives up.
    - [Incident], [IncidentFacts]: [incident/], the acknowledgment endpoint of
      [api/incident_routes.py] and the alerts of [ledger/integration.py].
    - [FilingReport]: the reports of
      [regulatory_filing/schemas.py] and [collateral_aggregator.py]; [Filing],
      [FilingFacts]: the queue, the channels and the worker of [submission.py] and
      [tasks.py], with the alerts of [Incident].
    - [Grievance]: [grievance_escalation/], and the hook in [log_evaluation];
      [GrievanceFacts] composes the trigger with [Ledger] and [Integration]
      and proves the life of a grievance.
    - [Security], [SecurityFacts]: [security/], [db/tenant_session.py], the
      handlers of [api/auth_routes.py] and [api/saml_routes.py], and the routes
      that approve and reject a review behind the middleware stack, composed
      with [HitlService].
    - [Sandbox]: [api/sandbox_routes.py] on the rows that the policies of
      [sql/rls_tenant_partitioning.sql] admit, compared with [Execution].
    - [Diffing]: [diffing/], which reads back what [Compiler] compiled.
    - [Mna], [MnaFacts]: [mna_due_diligence/] and [api/mna_routes.py], on the
      tables of [DbModels] and the rows of [Ledger].
    - [Cdc]: [cdc/], the normalizer, the dead-letter handler and the consumer.

    State is a record per component (a Redis hash or set is a [gmap] or [gset],
    a table a list of rows); an operation is a function from state to state and
    result; a raised exception is [Raise].  Definitions keep the names of the
    code.  Concurrency is a step relation: writers of the ledger
    ([LedgerConcurrency.step]), the operations of the dead-letter queue
    ([dlq_step]) and of the canary service ([canary_step]), breach events with
    their scheduled tasks and the sweep ([incident_step]), and the workers on
    filings ([filing_step]) and grievances ([grievance_step]), which begin with a
    read of the queue and end with a write, others coming between; a
    due-diligence job with its cancellation between the awaits ([job_step]), and
    the consumer of change events with interruptions ([cdc_step]).

    ** What the theorems show

    - Parsing: an extracted document has text; the section path of an element
      is its chain of open ancestors; grouping is a partition of the elements
      in order; splitting respects the size limit and loses no text; every
      group long enough becomes chunks with the right digests; and a clause
      parsed and stored by the pipeline passes the provenance check.
    - Explanations: the message of a failed comparison is read back exactly;
      every violation is explained, in order.
    - Ledger: an append keeps the chain well formed, also under any
      interleaving of writers and crashes; locked writers never conflict and
      never deadlock; an intact ledger verifies, in full and by range; and the
      last block hash determines the whole history unless SHA-256 collides.
    - Compiler: the gate opens only for approved, confident, fully resolved
      rules; compilation then succeeds; every compiled field is a canonical
      fact; the JSON-Logic means the rule on every transaction; in the Rego,
      condition and violations are complements and agree with the JSON-Logic.
    - Facts: resolution is sound for the taxonomy, units and bounds; the digest
      does not depend on extraction order.
    - Execution: an evaluation consults exactly the applicable policies and
      decides by the most restrictive outcome; the kill switch halts it; a
      flagged transaction has exactly one pending case, resolved at most once;
      evaluations turn into ledger rows and logging appends them.
    - Negotiation: with the configured agents a violation never ends in ALLOW
      and a clause-cited denial always in DENY, checked over all ballots up to
      an equivalence of verdicts; rounds after the second change nothing; the
      transcript and the review queue record what happened.
    - Arbitration: consensus means full agreement on verified quotes and
      canonical facts, everything else is escalated; transcripts go back to
      their tenant as sealed; untrusted text cannot close its boundary.
    - Policies: a lookup returns what was registered, and a cached lookup is
      never staler than the time to live.
    - Governance: switching affects the requested scope only and the status
      report is exact.
    - Dead-letter queue: indexes agree with entries, listing and totals are
      exact, closed entries stay closed; the retry classifier terminates and is
      correct on cyclic cause chains.
    - Canary: production is out of reach, a divergence spike is rolled back at
      once, the statistics are the counts of the comparisons.
    - Tenants: what one tenant registers, removes or clears does not change the
      policies of another; own entries shadow the baseline.
    - Pipeline: in every reachable database an active rule has reviews and all
      of them are approved, every table satisfies its constraints, and the
      transition log of a circular replays to its state; processing never
      activates a rule, every rule it adds waits for a review, a run follows
      the allowed transitions and a failed run leaves no partial compilation;
      approval activates exactly when the gate opens; the batch status query
      agrees with the single one; the reaper clears every stalled circular.
    - Provenance: a valid verification binds the decision to its ledger row,
      clause, policy, review and document unless SHA-256 collides; decisions
      recorded by the evaluator through the ledger verify; clause digests
      identify clauses.
    - Back-testing: a run compares the recorded decision of every transaction of
      the rule and tenant with that of the candidate, counts add up over
      categories and brokers, an evaluation that was logged is read back as the
      transaction it was, and the snapshot digest does not depend on the order
      of rows.
    - Extraction: whatever the language model answers, the result carries the
      provenance of its chunk and is approved only when every threshold, entity
      and directive is quoted from the clause; so is every rule that compiles; a
      failing provider gives a rule proved from the text or a rejected one; the
      graph always ends within its recursion limit.
    - Self-healing: at most the configured number of attempts, each recorded; a
      healed policy passed the checks and waits for review, an unhealed one is
      in the dead-letter queue; the two mechanical repairs remove the defect they
      are for.
    - Incidents: every violated or undecided outcome raises an event; an event
      that awaits acknowledgment always has a task scheduled for its next stage or
      is seen by the sweep; without the sweep nobody is paged early; once
      acknowledged nothing more is sent.
    - Filings: a report holds exactly the rows of its period, its digest identifies
      them, its per-broker counts add up to the rows of the day; a filing is
      accepted once, tried within its budget, and failed with an alert.
    - Grievances: a broker that fails a rule often enough gets one grievance per
      such failure, whose evidence is the new ledger row with a proof that
      matches; it is filed only after a confirmation, once, and closed as the
      regulator says.
    - Authentication: a principal comes from a token or key that verified; a
      review is approved only by an approver of the tenant with a fresh second
      factor; an issued token authenticates its client; an interval as long
      as a window sees fewer than twice the limit of requests of a caller.
    - Sandbox: what it answers is what production would decide on the same
      policies, and rows of other tenants do not influence it.
    - Diffing: the thresholds of a compiled rule are read back as they were; the
      report has a verdict for every approved rule, is as severe as the worst of
      them, and lists every clause of a superseded circular that nothing matches.
    - Due diligence: every rule of either entity has a finding unless both have
      it with equal digests or the model calls the versions equivalent;
      a snapshot reads only its entity; a cancelled job never completes.
    - Change data capture: no event is skipped, whatever interrupts the
      consumer: what lies before the committed offset was posted or
      dead-lettered.

    Some theorems state what the code does where it does not do what it means
    to (a denial next to an undefined policy is not logged, a template that
    cannot be rendered, a hung backend that starves the ones after it,
    translated text under the digest of the original, a seal that leaves out
    the rounds it seals, promotion that stops on an undefined name, a write that
    undoes a rollback, a decision without a broker that never verifies, an
    extraction graph without the guard, a repair marked healed without a test, a
    sweep that pages early, two workers that undo an acknowledgment or file twice,
    a transaction under two policies that never escalates); their comments say so.

    ** Bounds and fuel

    The regular-expression parser takes fuel three times the length of the
    pattern plus three, and every pattern of the code is parsed by
    computation.  Matching needs no fuel: it recurses on the expression, and a
    star iterates at most the length of the subject, which is enough because
    the matcher drops empty iterations ([rmatch_spec]); a lazy star likewise.
    The parser of grouped patterns takes one more than the length of the
    pattern, the hard wrap of a long sentence the length of the text.  [str.format] and
    [str.replace] take the length of the text.  The shortest decimal of a
    double tries at most seventeen digits.  [is_transient] takes the number of
    exceptions plus two, and [is_transient_correct] shows that it always
    answers.  The longest matching block searches for blocks at most as often as
    the shorter text is long.  A run of the agent graph takes its recursion
    limit, and [graph_run_ends] shows which limit is enough.

    ** What is not modelled

    Values of Redis keys are the decoded records, not their JSON text.  Clocks,
    uuids, random numbers and latencies are arguments.  OPA is a function from
    package and input to a reply; nothing is assumed about it.  Case folding,
    [strip] and [splitlines] are those of ASCII text, other bytes being left
    alone.  Flag ids, log lines, metrics and prose that no code reads are left
    out.  Unicode normalisation, the decoding of bytes, and what PDF, OCR, date
    and translation libraries return and how long they take are parameters.  A
    database transaction is atomic and isolated from others.  What a language
    model or a crew of them answers is a parameter; prompts are not modelled.
    The replies of mail, SMS, paging, SFTP and HTTP services are arguments; a
    handler of [incident/] is one step, so that two handlers of one event are not
    interleaved.  The signing of filings (PKCS#7, HSM) and their XML and JSON
    texts are left out.
    PyJWT, bcrypt and python3-saml are parameters, with the law that a token
    decodes to what was encoded where a theorem needs it.  Kafka and the HTTP
    endpoints of [cdc/] are the environment of a step; [fromisoformat] and
    [strptime] are parameters, as are pydantic's reading of numbers and times.
    Feed polling, HTTP routing, object storage, graph and vector stores,
    analytics and the layout of PDF reports are outside: they call services or
    format what other parts computed, and keep no state of their own.

    ** Plan

    What remains of the deterministic code: the feeds of [ingestion/], the FIX
    gateway, the parity checks of [translation_parity/], the tools of
    [agents/tools.py] and the aggregation of [analytics/]. *)
From stdpp Require Export base tactics list gmap strings pretty sorting.
From Stdlib Require Export ZArith Lia Ascii String.
From stdpp Require Export ssreflect.

#[global] Set Warnings "-rewrite-rw,-register-all,-clear-no-such-hyp".

Declare Scope py_scope.
Delimit Scope py_scope with py.

(** ** Exceptions as values

    A Python function that may raise returns [res E A]: [Ok] with the value
    it returns, or [Raise] with the exception. *)
Inductive res (E A : Type) : Type :=
| Ok (a : A)
| Raise (e : E).
Arguments Ok {E A} a.
Arguments Raise {E A} e.

Definition res_bind {E A B} (m : res E A) (k : A → res E B) : res E B :=
  match m with Ok a => k a | Raise e => Raise e end.

Notation "'let*' x ':=' e 'in' k" := (res_bind e (λ x, k))
  (at level 10, x name, e at level 100, k at level 200) : py_scope.
Notation "'let*' ' p ':=' e 'in' k" := (res_bind e (λ x, match x with p => k end))
  (at level 10, p strict pattern, e at level 100, k at level 200) : py_scope.

Definition is_ok {E A} (m : res E A) : bool :=
  match m with Ok _ => true | Raise _ => false end.

(** [for x in l: ys.append(f(x))] when [f] may raise. *)
Fixpoint res_mapM {E A B} (f : A → res E B) (l : list A) : res E (list B) :=
  match l with
  | [] => Ok []
  | x :: l' =>
      res_bind (f x) (λ y, res_bind (res_mapM f l') (λ ys, Ok (y :: ys)))
  end.

Lemma Ok_inj {E A} (a b : A) : Ok (E := E) a = Ok b → a = b.
Proof. congruence. Qed.

Lemma res_bind_Ok {E A B} (m : res E A) (k : A → res E B) b :
  res_bind m k = Ok b → ∃ a, m = Ok a ∧ k a = Ok b.
Proof. destruct m; simpl; [eauto | done]. Qed.

Lemma res_mapM_Ok {E A B} (f : A → res E B) l ys :
  res_mapM f l = Ok ys ↔ Forall2 (λ x y, f x = Ok y) l ys.
Proof.
  split.
  - revert ys. induction l as [|x l IH]; intros ys; simpl.
    + intros [= <-]. constructor.
    + intros (y & Hy & H)%res_bind_Ok.
      apply res_bind_Ok in H as (ys' & Hys & [= <-]). constructor; auto.
  - induction 1 as [|x y l ys Hx _ IH]; simpl; [done|].
    by rewrite Hx /= IH.
Qed.

Lemma res_mapM_total {E A B} (f : A → res E B) (g : A → B) l :
  (∀ x, x ∈ l → f x = Ok (g x)) → res_mapM f l = Ok (g <$> l).
Proof.
  induction l as [|x l IH]; intros H; simpl; [done|].
  rewrite (H x) /=; [|by left]. rewrite IH; [done|].
  intros y Hy. apply H. by right.
Qed.

(** ** Python truthiness of [str | None] and [or] *)
Definition truthy (o : option string) : bool :=
  match o with Some s => negb (String.eqb s "") | None => false end.

(** [o or d] *)
Definition str_or (o : option string) (d : string) : string :=
  match o with Some s => if String.eqb s "" then d else s | None => d end.

(** [o1 or o2] when both may be [None]. *)
Definition opt_or (o1 o2 : option string) : option string :=
  if truthy o1 then o1 else o2.

(** ** Tactics shared by the components *)

(** Turns every boolean test in the context into its proposition. *)
Ltac breflect :=
  repeat match goal with
  | H : andb _ _ = true |- _ => apply andb_prop in H as [? ?]
  | H : orb _ _ = false |- _ => apply orb_false_elim in H as [? ?]
  | H : negb _ = true |- _ => apply Bool.negb_true_iff in H
  | H : negb _ = false |- _ => apply Bool.negb_false_iff in H
  | H : String.eqb _ _ = true |- _ => apply String.eqb_eq in H
  | H : String.eqb _ _ = false |- _ => apply String.eqb_neq in H
  | H : Z.eqb _ _ = true |- _ => apply Z.eqb_eq in H
  | H : Z.eqb _ _ = false |- _ => apply Z.eqb_neq in H
  | H : Z.leb _ _ = true |- _ => apply Z.leb_le in H
  | H : Z.leb _ _ = false |- _ => apply Z.leb_gt in H
  | H : Z.ltb _ _ = true |- _ => apply Z.ltb_lt in H
  | H : Z.ltb _ _ = false |- _ => apply Z.ltb_ge in H
  | H : bool_decide _ = true |- _ => apply bool_decide_eq_true in H
  | H : bool_decide _ = false |- _ => apply bool_decide_eq_false in H
  end.

(** Case analysis on the innermost [match] or [if] of the goal, keeping the
    equation, until none is left. *)
Ltac split_matches :=
  repeat (case_match; simplify_eq/=).

(** [lia] on goals with [Z.div] and [Z.modulo]. *)
Ltac zlia := Z.div_mod_to_equations; lia.

Create HintDb regengine.

(** ** Lists *)
Lemma existsb_false_Forall {A} (f : A → bool) l :
  existsb f l = false ↔ Forall (λ x, f x = false) l.
Proof.
  induction l as [|x l IH]; simpl; [by split; [constructor|]|].
  rewrite orb_false_iff IH Forall_cons. done.
Qed.

Lemma existsb_true_elem {A} (f : A → bool) l :
  existsb f l = true ↔ ∃ x, x ∈ l ∧ f x = true.
Proof.
  rewrite existsb_exists. by setoid_rewrite list_elem_of_In.
Qed.

Lemma forallb_true_Forall {A} (f : A → bool) l :
  forallb f l = true ↔ Forall (λ x, f x = true) l.
Proof. rewrite forallb_forall Forall_forall. by setoid_rewrite list_elem_of_In. Qed.

Lemma existsb_eqb_elem (x : string) l : existsb (String.eqb x) l = true ↔ x ∈ l.
Proof.
  rewrite existsb_true_elem. split; [by intros (y & Hy & ->%String.eqb_eq)|].
  intros H. exists x. by rewrite String.eqb_refl.
Qed.

Lemma elem_of_snoc {A} (x : A) l : x ∈ (l ++ [x])%list.
Proof. apply elem_of_app. right. left. Qed.

Lemma Forall2_same {A} (R : A → A → Prop) l :
  (∀ x, x ∈ l → R x x) → Forall2 R l l.
Proof. induction l; constructor; set_solver. Qed.

Lemma filter_elem {A} (p : A → bool) l x : x ∈ List.filter p l ↔ x ∈ l ∧ p x = true.
Proof. by rewrite !list_elem_of_In filter_In. Qed.

Lemma filter_nil_Forall {A} (P : A → Prop) `{∀ x, Decision (P x)} l :
  filter P l = [] ↔ Forall (λ x, ¬ P x) l.
Proof.
  induction l as [|x l IH]; [by split; [constructor|]|].
  rewrite Forall_cons -IH filter_cons. case_decide; split; try done; intros; by destruct_and?.
Qed.

#[export] Hint Resolve list_elem_of_here list_elem_of_further : regengine.

Lemma StronglySorted_filter_sub {A} (R : A → A → Prop) (P : A → Prop) `{∀ x, Decision (P x)} l :
  StronglySorted R l → StronglySorted R (filter P l).
Proof.
  induction 1 as [|x l _ IH Hx]; [constructor|]. rewrite filter_cons.
  case_decide; [|done]. constructor; [done|]. apply Forall_forall.
  intros y [_ Hy]%list_elem_of_filter. by rewrite Forall_forall in Hx; apply Hx.
Qed.

(** A list strictly increasing in an integer key is left as it is by a merge
    sort on that key. *)
Section sort_key.
Context {A : Type} (key : A → Z).
Definition key_le (x y : A) : Prop := (key x <= key y)%Z.
#[global] Instance key_le_dec : RelDecision key_le.
Proof. intros x y. unfold key_le. apply _. Defined.
#[local] Instance key_le_trans : Transitive key_le.
Proof. unfold key_le. intros x y z. lia. Qed.
#[local] Instance key_le_total : Total key_le.
Proof. unfold key_le. intros x y. lia. Qed.

Lemma merge_sort_key_sorted l : StronglySorted key_le (merge_sort key_le l).
Proof. apply Sorted_StronglySorted, Sorted_merge_sort; apply _. Qed.

Lemma merge_sort_key_id l :
  StronglySorted (λ x y, key x < key y)%Z l → merge_sort key_le l = l.
Proof.
  intros Hs. apply (StronglySorted_unique_strong key_le).
  - intros x1 x2 Hx1 Hx2 H12 H21. rewrite merge_sort_Permutation in Hx1.
    clear - Hs Hx1 Hx2 H12 H21. unfold key_le in *.
    induction Hs as [|x l Hs IH Hx]; [by apply not_elem_of_nil in Hx1|].
    rewrite Forall_forall in Hx.
    apply elem_of_cons in Hx1 as [->|Hx1], Hx2 as [->|Hx2]; auto.
    + apply Hx in Hx2. lia.
    + apply Hx in Hx1. lia.
  - apply merge_sort_key_sorted.
  - induction Hs as [|x l Hs IH Hx]; constructor; [done|].
    eapply Forall_impl; [done|]. unfold key_le. lia.
  - apply merge_sort_Permutation.
Qed.
End sort_key.
