(* ===== verification/PyStr.v ===== *)
(** * Python strings

    A Python [str] is represented by the [string] of its UTF-8 code units, so
    [s.encode("utf-8")] is [s] itself, concatenation and equality are those of
    [string], and the code-point order of Python's [<] is the byte order.
    [lower] and the whitespace tests act on ASCII characters only. *)
From S2P Require Import Prelude.

Open Scope string_scope.
#[global] Arguments String.append : simpl nomatch.

Definition code (c : ascii) : Z := Z.of_N (N_of_ascii c).
Definition chr (n : Z) : ascii := ascii_of_N (Z.to_N n).

Definition code_between (lo hi : Z) (c : ascii) : bool :=
  (lo <=? code c)%Z && (code c <=? hi)%Z.

(** ASCII whitespace as [str.isspace] and [\s] see it. *)
Definition is_space (c : ascii) : bool :=
  code_between 9 13 c || code_between 28 32 c.
Definition is_digit (c : ascii) : bool := code_between 48 57 c.
Definition is_lower (c : ascii) : bool := code_between 97 122 c.
Definition is_upper (c : ascii) : bool := code_between 65 90 c.

Definition lower_char (c : ascii) : ascii :=
  if is_upper c then chr (code c + 32) else c.
Definition upper_char (c : ascii) : ascii :=
  if is_lower c then chr (code c - 32) else c.

Fixpoint str_map (f : ascii → ascii) (s : string) : string :=
  match s with "" => "" | String c s' => String (f c) (str_map f s') end.

(** [s.lower()], [s.upper()] *)
Definition lower : string → string := str_map lower_char.
Definition upper : string → string := str_map upper_char.

Fixpoint lstrip_by (p : ascii → bool) (s : string) : string :=
  match s with
  | "" => ""
  | String c s' => if p c then lstrip_by p s' else s
  end.

Fixpoint rstrip_by (p : ascii → bool) (s : string) : string :=
  match s with
  | "" => ""
  | String c s' =>
      match rstrip_by p s' with
      | "" => if p c then "" else String c ""
      | r => String c r
      end
  end.

(** [s.strip()] and [s.strip(chars)] *)
Definition strip_by (p : ascii → bool) (s : string) : string :=
  rstrip_by p (lstrip_by p s).
Definition strip : string → string := strip_by is_space.

(** [s.replace(a, b)] for one-character strings. *)
Definition replace_char (a b : ascii) : string → string :=
  str_map (λ c, if Ascii.eqb c a then b else c).

(** [s.split(sep)] for a one-character separator. *)
Fixpoint split_on (sep : ascii) (s : string) : list string :=
  match s with
  | "" => [""]
  | String c s' =>
      if Ascii.eqb c sep then "" :: split_on sep s'
      else match split_on sep s' with
           | w :: ws => String c w :: ws
           | [] => [String c ""]
           end
  end.

(** [s.split(sep, 1)[0]] *)
Fixpoint before (sep : ascii) (s : string) : string :=
  match s with
  | "" => ""
  | String c s' => if Ascii.eqb c sep then "" else String c (before sep s')
  end.

(** [sep.join(l)] *)
Fixpoint join (sep : string) (l : list string) : string :=
  match l with
  | [] => ""
  | [s] => s
  | s :: l' => s +:+ sep +:+ join sep l'
  end.

Definition startswith (p s : string) : bool := String.prefix p s.

Definition endswith (suffix s : string) : bool :=
  Nat.leb (String.length suffix) (String.length s)
  && String.eqb (String.substring (String.length s - String.length suffix) (String.length suffix) s) suffix.

(** [s.replace(sub, rep)] for a non-empty [sub]. *)
Fixpoint str_replace_fuel (fuel : nat) (sub rep s : string) : string :=
  match fuel with
  | O => s
  | S fuel' =>
      if String.prefix sub s
      then rep +:+ str_replace_fuel fuel' sub rep
             (String.substring (String.length sub) (String.length s - String.length sub) s)
      else match s with "" => "" | String c s' => String c (str_replace_fuel fuel' sub rep s') end
  end.
Definition str_replace (sub rep s : string) : string :=
  str_replace_fuel (S (String.length s)) sub rep s.

(** [str.splitlines()] on ASCII text: the line boundaries are LF, CR, CR LF,
    VT, FF and the separators 28 to 30. *)
Definition is_line_break (c : ascii) : bool := code_between 10 13 c || code_between 28 30 c.

Fixpoint splitlines_from (cur : string) (s : string) : list string :=
  match s with
  | "" => if String.eqb cur "" then [] else [cur]
  | String c s' =>
      if is_line_break c then
        match c, s' with
        | "013"%char, String "010" s'' => cur :: splitlines_from "" s''
        | _, _ => cur :: splitlines_from "" s'
        end
      else splitlines_from (cur +:+ String c "") s'
  end.
Definition splitlines : string → list string := splitlines_from "".

(** The text in double quotes, as an f-string writes it: nothing is escaped. *)
Definition dq (s : string) : string := String "034" (s +:+ String "034" "").
Definition newline : ascii := "010".

(** [sub in s] *)
Fixpoint contains (sub s : string) : bool :=
  String.prefix sub s || match s with "" => false | String _ s' => contains sub s' end.

Fixpoint all_chars (p : ascii → bool) (s : string) : bool :=
  match s with "" => true | String c s' => p c && all_chars p s' end.

(** Tuples of strings compare lexicographically. *)
Fixpoint key_leb (a b : list string) : bool :=
  match a, b with
  | [], _ => true
  | _ :: _, [] => false
  | x :: a', y :: b' =>
      match String.compare x y with Lt => true | Gt => false | Eq => key_leb a' b' end
  end.

(** [l.sort(key=key)]: stable. *)
Fixpoint insert_by {A} (key : A → list string) (x : A) (l : list A) : list A :=
  match l with
  | [] => [x]
  | y :: l' => if key_leb (key x) (key y) then x :: l else y :: insert_by key x l'
  end.
Definition sort_by {A} (key : A → list string) (l : list A) : list A := foldr (insert_by key) [] l.

(** [str(n)] for an int. *)
Definition str_of_Z (n : Z) : string := pretty n.

(** The last [w] decimal digits of [n], most significant first; for
    [0 <= n < 10^w] this is [f"{n:0{w}d}"]. *)
Fixpoint dig (w : nat) (n : Z) : string :=
  match w with
  | O => ""
  | S w' => dig w' (n / 10) +:+ String (chr (48 + n mod 10)) ""
  end.

(** ** Lemmas on concatenation *)
Lemma sapp_assoc (a b c : string) : (a +:+ b) +:+ c = a +:+ (b +:+ c).
Proof. induction a as [|x a IH]; simpl; [done|]. by rewrite IH. Qed.

Lemma sapp_nil_r (a : string) : a +:+ "" = a.
Proof. induction a as [|x a IH]; simpl; [done|]. by rewrite IH. Qed.

Lemma slength_app (a b : string) :
  String.length (a +:+ b) = (String.length a + String.length b)%nat.
Proof. induction a as [|x a IH]; simpl; [done|]. by rewrite IH. Qed.

Lemma sapp_inj_r (a b c : string) : a +:+ b = a +:+ c → b = c.
Proof. induction a as [|x a IH]; simpl; [done|]. intros [= H]. auto. Qed.

Lemma scons_inj c (a b : string) : String c a = String c b → a = b.
Proof. congruence. Qed.

(** Two concatenations whose first parts have the same length are equal only
    part by part: the workhorse of every fixed-width layout. *)
Lemma sapp_inj_len (a a' b b' : string) :
  String.length a = String.length a' →
  a +:+ b = a' +:+ b' → a = a' ∧ b = b'.
Proof.
  revert a'. induction a as [|x a IH]; intros [|x' a']; simpl; try done.
  intros [= Hl] [= -> H]. destruct (IH _ Hl H). by subst.
Qed.

(** Two concatenations whose first parts avoid a separator that starts both
    second parts are equal only part by part. *)
Lemma sapp_inj_sep (p : ascii → bool) (a a' : string) c c' (b b' : string) :
  all_chars p a = true → all_chars p a' = true →
  p c = false → p c' = false →
  a +:+ String c b = a' +:+ String c' b' → a = a' ∧ String c b = String c' b'.
Proof.
  revert a'. induction a as [|x a IH]; intros [|x' a']; simpl; intros Ha Ha' Hc Hc' H;
    try done; simplify_eq; try congruence.
  - apply andb_prop in Ha' as [? ?]. congruence.
  - apply andb_prop in Ha as [? ?]. congruence.
  - apply andb_prop in Ha as [? ?], Ha' as [? ?].
    destruct (IH a') as [-> ?]; by try injection H.
Qed.

Lemma all_chars_app p a b : all_chars p (a +:+ b) = all_chars p a && all_chars p b.
Proof. induction a as [|x a IH]; simpl; [done|]. by rewrite IH andb_assoc. Qed.

Lemma all_chars_impl (p q : ascii → bool) s :
  (∀ c, p c = true → q c = true) → all_chars p s = true → all_chars q s = true.
Proof.
  intros Hpq. induction s as [|c s IH]; simpl; [done|].
  intros [? ?]%andb_prop. apply andb_true_intro. auto.
Qed.

(** ** Characters and digits *)
Lemma code_range c : (0 <= code c < 256)%Z.
Proof. unfold code. pose proof (N_ascii_bounded c). lia. Qed.

Lemma chr_code c : chr (code c) = c.
Proof. unfold chr, code. by rewrite N2Z.id ascii_N_embedding. Qed.

Lemma code_chr n : (0 <= n < 256)%Z → code (chr n) = n.
Proof. intros. unfold chr, code. rewrite N_ascii_embedding; lia. Qed.

Lemma code_inj c c' : code c = code c' → c = c'.
Proof. intros H. by rewrite -(chr_code c) -(chr_code c') H. Qed.

Lemma chr_inj n m : (0 <= n < 256)%Z → (0 <= m < 256)%Z → chr n = chr m → n = m.
Proof. intros ? ? H. rewrite -(code_chr n) // -(code_chr m) // H //. Qed.

Lemma dig_length w n : String.length (dig w n) = w.
Proof. revert n. induction w as [|w IH]; intros n; simpl; [done|]. rewrite slength_app IH /=. lia. Qed.

Lemma dig_inj w n m :
  (0 <= n < 10 ^ Z.of_nat w)%Z → (0 <= m < 10 ^ Z.of_nat w)%Z →
  dig w n = dig w m → n = m.
Proof.
  revert n m. induction w as [|w IH]; intros n m Hn Hm.
  - intros _. simpl in *. lia.
  - cbn [dig]. rewrite Nat2Z.inj_succ Z.pow_succ_r in Hn, Hm; [|lia..].
    intros [Hd Hr]%sapp_inj_len; [|by rewrite !dig_length].
    injection Hr as Hr. apply IH in Hd; try zlia.
    apply chr_inj in Hr; zlia.
Qed.

(** * [repr] of strings and of lists of strings *)

Open Scope Z_scope.

(** [repr] of a string: single quotes unless only those occur in it. *)
Definition hex_digit (n : Z) : ascii :=
  match String.get (Z.to_nat n) "0123456789abcdef" with Some c => c | None => "0"%char end.
Definition repr_char (q : ascii) (c : ascii) : string :=
  if Ascii.eqb c "\" || Ascii.eqb c q then String "\" (String c "")
  else if code c =? 10 then "\n" else if code c =? 13 then "\r" else if code c =? 9 then "\t"
  else if (code c <? 32) || (code c =? 127) then
    "\x" +:+ String (hex_digit (code c / 16)) (String (hex_digit (code c mod 16)) "")
  else String c "".
Definition single_quote : ascii := "039".
Definition double_quote : ascii := "034".
Fixpoint repr_chars (q : ascii) (s : string) : string :=
  match s with "" => "" | String c s' => repr_char q c +:+ repr_chars q s' end.
Definition py_repr (s : string) : string :=
  let q := if contains (String single_quote "") s && negb (contains (String double_quote "") s)
           then double_quote else single_quote in
  String q (repr_chars q s +:+ String q "").
Definition repr_list (l : list string) : string := "[" +:+ join ", " (map py_repr l) +:+ "]".

Example repr_example : map py_repr ["it's"; "plain"; String newline "x"] = [dq "it's"; "'plain'"; "'\nx'"].
Proof. vm_compute. reflexivity. Qed.
