(* ===== verification/Sha256.v ===== *)
(** * SHA-256, as [hashlib.sha256(data).hexdigest()] computes it

    FIPS 180-4 over 32-bit words kept in [Z] with the wrap-around written out.
    The function is executable; the test vectors at the end are evaluated by
    the kernel.  Nothing is assumed about collisions here: a theorem that
    needs collision freedom states it for the finite list of messages it is
    about ([NoCollision]). *)
From S2P Require Import Prelude PyStr.

Open Scope string_scope.
Open Scope Z_scope.

Definition w32 (n : Z) : Z := n mod 2 ^ 32.
Definition rotr (k n : Z) : Z :=
  w32 (Z.lor (Z.shiftr n k) (Z.shiftl n (32 - k))).
Definition add32 (a b : Z) : Z := w32 (a + b).

Definition big_sigma0 (x : Z) := Z.lxor (rotr 2 x) (Z.lxor (rotr 13 x) (rotr 22 x)).
Definition big_sigma1 (x : Z) := Z.lxor (rotr 6 x) (Z.lxor (rotr 11 x) (rotr 25 x)).
Definition small_sigma0 (x : Z) := Z.lxor (rotr 7 x) (Z.lxor (rotr 18 x) (Z.shiftr x 3)).
Definition small_sigma1 (x : Z) := Z.lxor (rotr 17 x) (Z.lxor (rotr 19 x) (Z.shiftr x 10)).
Definition choose (x y z : Z) := Z.lxor (Z.land x y) (Z.land (Z.lxor x (2 ^ 32 - 1)) z).
Definition majority (x y z : Z) := Z.lxor (Z.land x y) (Z.lxor (Z.land x z) (Z.land y z)).

(** FIPS 180-4 takes its constants from the first primes: the round constants
    are the first 32 bits of the fractional parts of their cube roots, the
    initial state those of their square roots. *)
Definition is_prime (n : Z) : bool :=
  forallb (λ d, negb (n mod (2 + Z.of_nat d) =? 0)) (seq 0 (Z.to_nat (n - 2))).
Definition primes_below (n : nat) : list Z :=
  List.filter (λ p, (2 <=? p) && is_prime p) (map Z.of_nat (seq 0 n)).

(** The integer cube root of [n] in [[r, r + 2^b)], by bits. *)
Fixpoint cbrt_bits (b : nat) (n r : Z) : Z :=
  match b with
  | O => r
  | S b' =>
      let r' := r + 2 ^ Z.of_nat b' in
      cbrt_bits b' n (if r' * r' * r' <=? n then r' else r)
  end.

Definition round_constants : list Z := Eval vm_compute in
  map (λ p, w32 (cbrt_bits 36 (p * 2 ^ 96) 0)) (primes_below 312).

Record hstate := HState
  { ha : Z; hb : Z; hc : Z; hd : Z; he : Z; hf : Z; hg : Z; hh : Z }.

Definition initial_state : hstate := Eval vm_compute in
  match map (λ p, w32 (Z.sqrt (p * 2 ^ 64))) (primes_below 20) with
  | [a; b; c; d; e; f; g; h] => HState a b c d e f g h
  | _ => HState 0 0 0 0 0 0 0 0
  end.

(** The message schedule, newest word first. *)
Fixpoint extend_schedule (n : nat) (ws : list Z) : list Z :=
  match n with
  | O => ws
  | S n' =>
      let w := add32 (add32 (small_sigma1 (nth 1 ws 0)) (nth 6 ws 0))
                     (add32 (small_sigma0 (nth 14 ws 0)) (nth 15 ws 0)) in
      extend_schedule n' (w :: ws)
  end.

Definition sha_round (s : hstate) (kw : Z * Z) : hstate :=
  let t1 := add32 (add32 (hh s) (big_sigma1 (he s)))
                  (add32 (choose (he s) (hf s) (hg s)) (add32 kw.1 kw.2)) in
  let t2 := add32 (big_sigma0 (ha s)) (majority (ha s) (hb s) (hc s)) in
  HState (add32 t1 t2) (ha s) (hb s) (hc s) (add32 (hd s) t1) (he s) (hf s) (hg s).

Definition compress (s : hstate) (block : list Z) : hstate :=
  let ws := rev (extend_schedule 48 (rev block)) in
  let t := fold_left sha_round (zip round_constants ws) s in
  HState (add32 (ha s) (ha t)) (add32 (hb s) (hb t)) (add32 (hc s) (hc t)) (add32 (hd s) (hd t))
         (add32 (he s) (he t)) (add32 (hf s) (hf t)) (add32 (hg s) (hg t)) (add32 (hh s) (hh t)).

(** ** Padding and splitting *)
Fixpoint bytes_of (s : string) : list Z :=
  match s with "" => [] | String c s' => code c :: bytes_of s' end.

Fixpoint be_bytes (n : nat) (x : Z) : list Z :=
  match n with O => [] | S n' => (be_bytes n' (x / 256) ++ [x mod 256])%list end.

Definition pad (msg : list Z) : list Z :=
  let n := Z.of_nat (length msg) in
  let zeros := Z.to_nat ((55 - n) mod 64) in
  (msg ++ [0x80] ++ replicate zeros 0 ++ be_bytes 8 (8 * n))%list.

Fixpoint words_of (bs : list Z) : list Z :=
  match bs with
  | a :: b :: c :: d :: bs' => ((a * 256 + b) * 256 + c) * 256 + d :: words_of bs'
  | _ => []
  end.

Fixpoint process (fuel : nat) (s : hstate) (ws : list Z) : hstate :=
  match fuel, ws with
  | S fuel', _ :: _ => process fuel' (compress s (take 16 ws)) (drop 16 ws)
  | _, _ => s
  end.

Definition sha256_state (s : string) : hstate :=
  let ws := words_of (pad (bytes_of s)) in
  process (length ws) initial_state ws.

(** ** Hexadecimal *)
Definition hex_char (d : Z) : ascii := if d <? 10 then chr (48 + d) else chr (87 + d).

Fixpoint hex (w : nat) (n : Z) : string :=
  match w with
  | O => ""
  | S w' => hex w' (n / 16) +:+ String (hex_char (n mod 16)) ""
  end.

Definition hex_words (l : list Z) : string :=
  foldr (λ w acc, hex 8 w +:+ acc) "" l.

(** [hashlib.sha256(s.encode("utf-8")).hexdigest()] *)
Definition sha256_hex (s : string) : string :=
  let h := sha256_state s in
  hex_words [ha h; hb h; hc h; hd h; he h; hf h; hg h; hh h].

Definition is_hex (c : ascii) : bool := is_digit c || code_between 97 102 c.

(** No two different messages of the list have the same digest. *)
Definition NoCollision (msgs : list string) : Prop :=
  ∀ m m', m ∈ msgs → m' ∈ msgs → sha256_hex m = sha256_hex m' → m = m'.

(** ** Lemmas *)
Lemma hex_length w n : String.length (hex w n) = w.
Proof. revert n. induction w as [|w IH]; intros n; simpl; [done|]. rewrite slength_app IH /=. lia. Qed.

Lemma is_hex_hex_char d : 0 <= d < 16 → is_hex (hex_char d) = true.
Proof.
  intros Hd. unfold is_hex, is_digit, code_between, hex_char.
  destruct (Z.ltb_spec d 10); rewrite code_chr; [lia..|].
  repeat match goal with |- context [?a <=? ?b] => destruct (Z.leb_spec a b) end; simpl; lia.
Qed.

Lemma hex_is_hex w n : all_chars is_hex (hex w n) = true.
Proof.
  revert n. induction w as [|w IH]; intros n; simpl; [done|].
  rewrite all_chars_app IH /= is_hex_hex_char; [done|]. zlia.
Qed.

Lemma hex_words_length l : String.length (hex_words l) = (8 * length l)%nat.
Proof.
  induction l as [|w l IH]; [done|]. change (hex_words (w :: l)) with (hex 8 w +:+ hex_words l).
  rewrite slength_app hex_length IH. simpl. lia.
Qed.

Lemma hex_words_is_hex l : all_chars is_hex (hex_words l) = true.
Proof.
  induction l as [|w l IH]; [done|]. change (hex_words (w :: l)) with (hex 8 w +:+ hex_words l).
  by rewrite all_chars_app hex_is_hex IH.
Qed.

Lemma sha256_hex_length s : String.length (sha256_hex s) = 64%nat.
Proof. apply hex_words_length. Qed.

Lemma sha256_hex_is_hex s : all_chars is_hex (sha256_hex s) = true.
Proof. apply hex_words_is_hex. Qed.

Lemma hex_char_inj d d' : 0 <= d < 16 → 0 <= d' < 16 → hex_char d = hex_char d' → d = d'.
Proof.
  intros Hd Hd'. unfold hex_char.
  destruct (Z.ltb_spec d 10), (Z.ltb_spec d' 10); intros Heq%chr_inj; lia.
Qed.

Lemma hex_inj w n m :
  0 <= n < 16 ^ Z.of_nat w → 0 <= m < 16 ^ Z.of_nat w → hex w n = hex w m → n = m.
Proof.
  revert n m. induction w as [|w IH]; intros n m Hn Hm.
  - intros _. simpl in *. lia.
  - cbn [hex]. rewrite Nat2Z.inj_succ Z.pow_succ_r in Hn, Hm; [|lia..].
    intros [Hd Hr]%sapp_inj_len; [|by rewrite !hex_length].
    injection Hr as Hr. apply IH in Hd; try zlia.
    apply hex_char_inj in Hr; zlia.
Qed.

(** The padded message is a whole number of 64-byte blocks. *)
Lemma be_bytes_length n x : length (be_bytes n x) = n.
Proof. revert x. induction n as [|n IH]; intros x; [done|]. cbn [be_bytes]. rewrite length_app IH /=. lia. Qed.

Lemma pad_blocks msg : Z.of_nat (length (pad msg)) mod 64 = 0.
Proof.
  unfold pad. cbv zeta. rewrite 3!length_app length_replicate be_bytes_length.
  cbn [length]. zlia.
Qed.

Lemma NoCollision_sub msgs msgs' : msgs' ⊆ msgs → NoCollision msgs → NoCollision msgs'.
Proof. intros Hs H m m' ? ?. apply H; set_solver. Qed.

(** ** FIPS 180-4 test vectors *)
Example sha256_empty :
  sha256_hex "" = "e3b0c44298fc1c149afbf4c8996fb92427ae41e4649b934ca495991b7852b855".
Proof. vm_compute. reflexivity. Qed.

Example sha256_abc :
  sha256_hex "abc" = "ba7816bf8f01cfea414140de5dae2223b00361a396177a9cb410ff61f20015ad".
Proof. vm_compute. reflexivity. Qed.

Example sha256_two_blocks :
  sha256_hex "abcdbcdecdefdefgefghfghighijhijkijkljklmklmnlmnomnopnopq"
  = "248d6a61d20638b8e5c026930c3e6039a33ce45964ff2167f6ecedd419db06c1".
Proof. vm_compute. reflexivity. Qed.
