(* ===== verification/PyFloat.v ===== *)
(** * Python numbers

    A Python [float] is an IEEE-754 binary64 value in the standard library's
    [spec_float]; an [int] is a [Z].  Comparisons are exact, as Python's are,
    also between an int and a float.  [repr] is the shortest decimal string
    that rounds back to the float. *)
From Stdlib Require Export SpecFloat.
From S2P Require Import Prelude PyStr.

Open Scope string_scope.
Open Scope Z_scope.

Definition prec : Z := 53.
Definition emax : Z := 1024.

(** The float nearest to [m * 2^e]; exact for the constants of the code. *)
Definition flt (m e : Z) : spec_float := binary_normalize prec emax m e false.
(** [float(n)] for an int, [a / b] on floats. *)
Definition float_of_Z (n : Z) : spec_float := flt n 0.
Definition float_div : spec_float → spec_float → spec_float := SFdiv prec emax.
Definition float_add : spec_float → spec_float → spec_float := SFadd prec emax.
Definition float_mul : spec_float → spec_float → spec_float := SFmul prec emax.
Definition float_sub : spec_float → spec_float → spec_float := SFsub prec emax.

(** The float literal [n * 10^-k]: correctly rounded for [n < 2^53], [k <= 22]. *)
Definition decimal (n : Z) (k : Z) : spec_float :=
  float_div (float_of_Z n) (float_of_Z (10 ^ k)).

(** ** Exact values and comparison *)
Inductive xval :=
| XNaN
| XNegInf
| XFin (m e : Z)   (* m * 2^e *)
| XPosInf.

Definition float_val (f : spec_float) : xval :=
  match f with
  | S754_nan => XNaN
  | S754_infinity true => XNegInf
  | S754_infinity false => XPosInf
  | S754_zero _ => XFin 0 0
  | S754_finite s m e => XFin (if s then Z.neg m else Z.pos m) e
  end.

Definition dyadic_compare (m1 e1 m2 e2 : Z) : comparison :=
  let e := Z.min e1 e2 in
  Z.compare (m1 * 2 ^ (e1 - e)) (m2 * 2 ^ (e2 - e)).

Definition xcompare (a b : xval) : option comparison :=
  match a, b with
  | XNaN, _ | _, XNaN => None
  | XNegInf, XNegInf | XPosInf, XPosInf => Some Eq
  | XNegInf, _ | _, XPosInf => Some Lt
  | _, XNegInf | XPosInf, _ => Some Gt
  | XFin m1 e1, XFin m2 e2 => Some (dyadic_compare m1 e1 m2 e2)
  end.

Inductive pynum :=
| PInt (z : Z)
| PFlt (f : spec_float).

Definition num_val (n : pynum) : xval :=
  match n with PInt z => XFin z 0 | PFlt f => float_val f end.

Definition num_compare (a b : pynum) : option comparison :=
  xcompare (num_val a) (num_val b).

Definition num_eqb (a b : pynum) : bool :=
  match num_compare a b with Some Eq => true | _ => false end.
Definition num_ltb (a b : pynum) : bool :=
  match num_compare a b with Some Lt => true | _ => false end.
Definition num_leb (a b : pynum) : bool :=
  match num_compare a b with Some (Lt | Eq) => true | _ => false end.

Definition is_nan (n : pynum) : bool :=
  match num_val n with XNaN => true | _ => false end.

(** [a < b] and [a > b] on two floats, as the code writes them. *)
Definition flt_ltb (a b : spec_float) : bool := num_ltb (PFlt a) (PFlt b).
Definition flt_leb (a b : spec_float) : bool := num_leb (PFlt a) (PFlt b).
Definition flt_eqb (a b : spec_float) : bool := num_eqb (PFlt a) (PFlt b).

(** ** Order lemmas *)
Lemma dyadic_compare_scale k m1 e1 m2 e2 :
  k <= e1 → k <= e2 →
  dyadic_compare m1 e1 m2 e2 = Z.compare (m1 * 2 ^ (e1 - k)) (m2 * 2 ^ (e2 - k)).
Proof.
  intros H1 H2. unfold dyadic_compare. remember (Z.min e1 e2) as e eqn:He.
  replace (e1 - k) with ((e1 - e) + (e - k)) by lia.
  replace (e2 - k) with ((e2 - e) + (e - k)) by lia.
  rewrite (Z.pow_add_r 2 (e1 - e)) ?(Z.pow_add_r 2 (e2 - e)); [|lia..].
  assert (0 < 2 ^ (e - k)) by (apply Z.pow_pos_nonneg; lia).
  rewrite !Z.mul_assoc.
  destruct (Z.compare_spec (m1 * 2 ^ (e1 - e)) (m2 * 2 ^ (e2 - e))) as [E|E|E]; symmetry.
  - rewrite E. apply Z.compare_refl.
  - apply Z.compare_lt_iff. by apply Z.mul_lt_mono_pos_r.
  - apply Z.compare_gt_iff. by apply Z.mul_lt_mono_pos_r.
Qed.

Lemma dyadic_compare_antisym m1 e1 m2 e2 :
  dyadic_compare m2 e2 m1 e1 = CompOpp (dyadic_compare m1 e1 m2 e2).
Proof. unfold dyadic_compare. rewrite (Z.min_comm e2 e1). apply Z.compare_antisym. Qed.

Lemma xcompare_antisym a b :
  xcompare b a = CompOpp <$> xcompare a b.
Proof. destruct a, b; simpl; try done. by rewrite dyadic_compare_antisym. Qed.

Lemma xcompare_refl a : a ≠ XNaN → xcompare a a = Some Eq.
Proof. destruct a; simpl; try done. unfold dyadic_compare. by rewrite Z.compare_refl. Qed.

(** Two values that compare are ordered; only NaN does not compare. *)
Lemma xcompare_Some a b : a ≠ XNaN → b ≠ XNaN → ∃ c, xcompare a b = Some c.
Proof. destruct a, b; simpl; eauto; done. Qed.

Lemma xcompare_lt_trans a b c :
  xcompare a b = Some Lt → xcompare b c = Some Lt → xcompare a c = Some Lt.
Proof.
  destruct a as [| |m1 e1|], b as [| |m2 e2|], c as [| |m3 e3|]; simpl; try done.
  remember (Z.min e1 (Z.min e2 e3)) as k eqn:Hk.
  rewrite !(dyadic_compare_scale k); [|lia..].
  rewrite !(inj_iff Some) !Z.compare_lt_iff. lia.
Qed.

Lemma xcompare_le_lt_trans a b c :
  xcompare a b ≠ Some Gt → a ≠ XNaN → xcompare b c = Some Lt → xcompare a c = Some Lt.
Proof.
  destruct a as [| |m1 e1|], b as [| |m2 e2|], c as [| |m3 e3|]; simpl; try done.
  remember (Z.min e1 (Z.min e2 e3)) as k eqn:Hk.
  rewrite !(dyadic_compare_scale k); [|lia..].
  rewrite !(inj_iff Some) Z.compare_gt_iff !Z.compare_lt_iff. lia.
Qed.

Lemma num_ltb_leb a b :
  is_nan a = false → is_nan b = false → num_ltb a b = negb (num_leb b a).
Proof.
  unfold is_nan, num_ltb, num_leb, num_compare. intros Ha Hb.
  rewrite (xcompare_antisym (num_val a) (num_val b)).
  destruct (num_val a), (num_val b); simpl; try done.
  by destruct (dyadic_compare _ _ _ _).
Qed.

Lemma num_leb_le_trans a b c :
  num_leb a b = true → num_leb b c = true → num_leb a c = true.
Proof.
  unfold num_leb, num_compare.
  destruct (num_val a) as [| |m1 e1|], (num_val b) as [| |m2 e2|], (num_val c) as [| |m3 e3|];
    simpl; try done.
  remember (Z.min e1 (Z.min e2 e3)) as k eqn:Hk.
  rewrite !(dyadic_compare_scale k); [|lia..].
  repeat match goal with |- context [?x ?= ?y] => destruct (Z.compare_spec x y) end; try done; lia.
Qed.

(** ** [int(f)], [f.is_integer()] *)
Definition float_is_integer (f : spec_float) : bool :=
  match f with
  | S754_zero _ => true
  | S754_finite _ m e => (0 <=? e) || (Z.pos m mod 2 ^ (- e) =? 0)
  | _ => false
  end.

Definition int_of_float (f : spec_float) : Z :=
  match float_val f with
  | XFin m e => if 0 <=? e then m * 2 ^ e else Z.quot m (2 ^ (- e))
  | _ => 0
  end.

(** ** [repr(f)]: the shortest digits that round back *)

(** [a * 2^e] compared with [d * 10^q], exactly. *)
Definition cmp2_10 (a e d q : Z) : comparison :=
  Z.compare (a * 2 ^ Z.max 0 e * 10 ^ Z.max 0 (- q))
            (d * 10 ^ Z.max 0 q * 2 ^ Z.max 0 (- e)).

Definition le_cmp (c : comparison) : bool := match c with Gt => false | _ => true end.

(** Does [d * 10^q] round to the float [m * 2^e]?  The rounding interval is
    closed when the significand is even. *)
Definition rounds_to (m e d q : Z) : bool :=
  let lo := if (m =? 2 ^ 52) && (-1074 <? e) then 4 * m - 1 else 4 * m - 2 in
  let hi := 4 * m + 2 in
  match cmp2_10 lo (e - 2) d q, cmp2_10 hi (e - 2) d q with
  | Lt, Gt => true
  | Eq, _ | _, Eq => Z.even m
  | _, _ => false
  end.

(** The exponent [k] with [10^(k-1) <= m * 2^e < 10^k]. *)
Definition dec_exponent (m e : Z) : Z :=
  let k := (Z.log2 m + e) * 30103 / 100000 + 1 in
  if le_cmp (cmp2_10 m e 1 (k - 1)) && negb (match cmp2_10 m e 1 (k - 1) with Eq => true | _ => false end)
  then k - 1
  else match cmp2_10 m e 1 k with Lt => k | _ => k + 1 end.

(** [floor (m * 2^e / 10^q)] *)
Definition floor_dec (m e q : Z) : Z :=
  (m * 2 ^ Z.max 0 e * 10 ^ Z.max 0 (- q)) / (10 ^ Z.max 0 q * 2 ^ Z.max 0 (- e)).

(** The two candidates with [n] digits around the value; the nearer one
    that rounds back, if any. *)
Definition shortest_at (m e q : Z) : option Z :=
  let d := floor_dec m e q in
  let up := d + 1 in
  let nearer_up := match cmp2_10 (2 * m) e (d + up) q with
                   | Gt => true | Eq => Z.odd d | Lt => false end in
  match rounds_to m e d q, rounds_to m e up q with
  | true, true => Some (if nearer_up then up else d)
  | true, false => Some d
  | false, true => Some up
  | false, false => None
  end.

Fixpoint shortest (fuel : nat) (m e k n : Z) : Z * Z :=
  match fuel with
  | O => (floor_dec m e (k - 17), k - 17)
  | S fuel' =>
      match shortest_at m e (k - n) with
      | Some d => (d, k - n)
      | None => shortest fuel' m e k (n + 1)
      end
  end.

Fixpoint strip_zeros (fuel : nat) (d q : Z) : Z * Z :=
  match fuel with
  | O => (d, q)
  | S fuel' => if d mod 10 =? 0 then strip_zeros fuel' (d / 10) (q + 1) else (d, q)
  end.

Fixpoint zeros (n : nat) : string :=
  match n with O => "" | S n' => String "0" (zeros n') end.

Fixpoint stake (n : nat) (s : string) : string :=
  match n, s with S n', String c s' => String c (stake n' s') | _, _ => "" end.
Fixpoint sdrop (n : nat) (s : string) : string :=
  match n, s with S n', String _ s' => sdrop n' s' | _, _ => s end.

(** Digits [ds] with the decimal point after position [decpt], in scientific
    notation. *)
Definition exp_layout (ds : string) (decpt : Z) : string :=
  let n := Z.of_nat (String.length ds) in
  let x := decpt - 1 in
  let mant := if n =? 1 then ds else stake 1 ds +:+ "." +:+ sdrop 1 ds in
  let ax := Z.abs x in
  mant +:+ "e" +:+ (if x <? 0 then "-" else "+") +:+
  (if ax <? 10 then "0" else "") +:+ str_of_Z ax.

(** Layout of the digits [ds] with the decimal point after position [decpt]. *)
Definition layout (ds : string) (decpt : Z) : string :=
  let n := Z.of_nat (String.length ds) in
  if (-4 <? decpt) && (decpt <=? 16) then
    if decpt <=? 0 then "0." +:+ zeros (Z.to_nat (- decpt)) +:+ ds
    else if n <=? decpt then ds +:+ zeros (Z.to_nat (decpt - n)) +:+ ".0"
    else stake (Z.to_nat decpt) ds +:+ "." +:+ sdrop (Z.to_nat decpt) ds
  else exp_layout ds decpt.

Definition repr_pos (m e : Z) : string :=
  let k := dec_exponent m e in
  let '(d, q) := shortest 17 m e k 1 in
  let '(d, q) := strip_zeros 20 d q in
  let ds := str_of_Z d in
  layout ds (Z.of_nat (String.length ds) + q).

(** [repr(f)] *)
Definition float_repr (f : spec_float) : string :=
  match f with
  | S754_nan => "nan"
  | S754_infinity s => (if s then "-" else "") +:+ "inf"
  | S754_zero s => (if s then "-" else "") +:+ "0.0"
  | S754_finite s m e => (if s then "-" else "") +:+ repr_pos (Z.pos m) e
  end.

(** ** [f"{f:.2f}"] and the like: the exact value rounded half to even *)
Definition fmt_fixed (p : nat) (f : spec_float) : string :=
  match f with
  | S754_nan => "nan"
  | S754_infinity s => (if s then "-" else "") +:+ "inf"
  | S754_zero s => (if s then "-" else "") +:+ "0." +:+ zeros p
  | S754_finite s m e =>
      let num := Z.pos m * 2 ^ Z.max 0 e * 10 ^ Z.of_nat p in
      let den := 2 ^ Z.max 0 (- e) in
      let d := num / den in
      let r := num mod den in
      let d' := match 2 * r ?= den with
                | Gt => d + 1 | Eq => if Z.odd d then d + 1 else d | Lt => d end in
      (if s then "-" else "") +:+ str_of_Z (d' / 10 ^ Z.of_nat p) +:+ "." +:+ dig p d'
  end.

(** ** [f"{f:g}"]: six significant digits, trailing zeros dropped *)
Definition layout_g (ds : string) (decpt : Z) : string :=
  let n := Z.of_nat (String.length ds) in
  if (-4 <=? decpt - 1) && (decpt - 1 <? 6) then
    if decpt <=? 0 then "0." +:+ zeros (Z.to_nat (- decpt)) +:+ ds
    else if n <=? decpt then ds +:+ zeros (Z.to_nat (decpt - n))
    else stake (Z.to_nat decpt) ds +:+ "." +:+ sdrop (Z.to_nat decpt) ds
  else exp_layout ds decpt.

(** [m * 2^e / 10^q] rounded half to even *)
Definition round_dec (m e q : Z) : Z :=
  let d := floor_dec m e q in
  match cmp2_10 (2 * m) e (2 * d + 1) q with
  | Gt => d + 1 | Eq => if Z.odd d then d + 1 else d | Lt => d
  end.

Definition fmt_g (f : spec_float) : string :=
  match f with
  | S754_nan => "nan"
  | S754_infinity s => (if s then "-" else "") +:+ "inf"
  | S754_zero s => (if s then "-" else "") +:+ "0"
  | S754_finite s m e =>
      let k := dec_exponent (Z.pos m) e in
      let d := round_dec (Z.pos m) e (k - 6) in
      let '(d, q) := strip_zeros 6 d (k - 6) in
      let ds := str_of_Z d in
      (if s then "-" else "") +:+ layout_g ds (Z.of_nat (String.length ds) + q)
  end.

(** ** [float(s)] for the numerals [-?\d+(\.\d+)?]: correctly rounded *)

(** The float nearest to [n / d] for positive [n] and [d]: sixty bits of the
    quotient and one that says whether it is exact. *)
Definition ratio_float (n d : Z) : spec_float :=
  let shift := Z.max 0 (60 + Z.log2 d - Z.log2 n) in
  let q := (n * 2 ^ shift) / d in
  let sticky := if (n * 2 ^ shift) mod d =? 0 then 0 else 1 in
  flt (2 * q + sticky) (- shift - 1).

Fixpoint digits_value (acc : Z) (s : string) : Z :=
  match s with "" => acc | String c s' => digits_value (10 * acc + (code c - 48)) s' end.

Definition float_of_numeral (s : string) : spec_float :=
  let neg := startswith "-" s in
  let body := if neg then sdrop 1 s else s in
  let int_part := before "." body in
  let frac := sdrop (S (String.length int_part)) body in
  let n := digits_value (digits_value 0 int_part) frac in
  if n =? 0 then S754_zero neg
  else (if neg then SFopp else λ x, x) (ratio_float n (10 ^ Z.of_nat (String.length frac))).

(** ** Evaluated against CPython *)
Example repr_tenth : float_repr (decimal 1 1) = "0.1".
Proof. vm_compute. reflexivity. Qed.
Example repr_twenty : float_repr (float_of_Z 20) = "20.0".
Proof. vm_compute. reflexivity. Qed.
Example repr_18_5 : float_repr (decimal 185 1) = "18.5".
Proof. vm_compute. reflexivity. Qed.
Example repr_third : float_repr (float_div (float_of_Z 1) (float_of_Z 3)) = "0.3333333333333333".
Proof. vm_compute. reflexivity. Qed.
Example repr_1e22 : float_repr (float_of_Z (10 ^ 22)) = "1e+22".
Proof. vm_compute. reflexivity. Qed.
Example repr_1e16 : float_repr (float_of_Z (10 ^ 16)) = "1e+16".
Proof. vm_compute. reflexivity. Qed.
Example repr_small : float_repr (decimal 1 5) = "1e-05".
Proof. vm_compute. reflexivity. Qed.
Example repr_2_53 : float_repr (float_of_Z (2 ^ 53)) = "9007199254740992.0".
Proof. vm_compute. reflexivity. Qed.
Example repr_denorm : float_repr (S754_finite false 1 (-1074)) = "5e-324".
Proof. vm_compute. reflexivity. Qed.
Example repr_max : float_repr (flt (2 ^ 53 - 1) 971) = "1.7976931348623157e+308".
Proof. vm_compute. reflexivity. Qed.
Example repr_pow2 : float_repr (flt 1 (-44)) = "5.684341886080802e-14".
Proof. vm_compute. reflexivity. Qed.
Example repr_sum : float_repr (float_add (decimal 1 1) (decimal 2 1)) = "0.30000000000000004".
Proof. vm_compute. reflexivity. Qed.
Example fmt_075 : fmt_fixed 2 (decimal 75 2) = "0.75".
Proof. vm_compute. reflexivity. Qed.
Example fmt_half_even : fmt_fixed 2 (decimal 125 3) = "0.12".
Proof. vm_compute. reflexivity. Qed.
Example fmt_g_examples :
  map fmt_g [decimal 185 1; decimal 12345678 1; decimal 1 5; decimal 9999995 1; decimal 15 4; decimal 12345675 1]
  = ["18.5"; "1.23457e+06"; "1e-05"; "1e+06"; "0.0015"; "1.23457e+06"].
Proof. vm_compute. reflexivity. Qed.
Example numeral_examples :
  map (λ s, float_repr (float_of_numeral s)) ["0.1"; "-18.50"; "9007199254740993"; "123456789012345678901"; "0"; "0.30000000000000004"]
  = ["0.1"; "-18.5"; "9007199254740992.0"; "1.2345678901234568e+20"; "0.0"; "0.30000000000000004"].
Proof. vm_compute. reflexivity. Qed.
