(* ===== verification/JsonFacts.v ===== *)
(** * The text of a JSON document determines the document

    [print] is prefix-free: the text of a value followed by a delimiter can
    be read in one way only.  Hence [dumps] is injective up to the order of
    object keys, and insensitive to that order. *)
From S2P Require Import Prelude PyStr PyFloat Sha256 Json.

Open Scope string_scope.
Open Scope Z_scope.

(** ** Strings *)
Lemma chr_eq n c : n = code c → chr n = c.
Proof. intros ->. apply chr_code. Qed.

Ltac codes :=
  repeat match goal with
  | c : ascii |- _ =>
      lazymatch goal with
      | H : 0 <= code c < 256 |- _ => fail
      | _ => pose proof (code_range c)
      end
  end.

Ltac test_hyps :=
  unfold ok2, ok3, ok4, cont in *;
  repeat (match goal with
  | H : andb _ _ = true |- _ => apply andb_prop in H as [? ?]
  | H : negb _ = true |- _ => apply Bool.negb_true_iff in H
  | H : andb _ _ = false |- _ => apply andb_false_iff in H as [?|?]
  end); breflect.

Lemma of_units_units s fuel :
  (String.length s <= fuel)%nat → of_units fuel (units s) = s.
Proof.
  revert s. induction fuel as [fuel IH] using lt_wf_ind. intros s Hf.
  assert (Hrec : ∀ s', (String.length s' < String.length s)%nat →
            ∀ n, n = pred fuel → of_units n (units s') = s').
  { intros s' Hs n ->. apply IH; lia. }
  destruct fuel as [|fuel]; [destruct s; simpl in *; [done|lia]|].
  destruct s as [|b0 s0]; [done|]. codes.
  assert (Hbad : 128 <= code b0 →
            of_units (S fuel) (0xDC00 + code b0 :: units s0) = String b0 s0).
  { intros. cbn [of_units].
    rewrite (proj2 (Z.ltb_ge _ _)); [|lia]. rewrite (proj2 (Z.ltb_ge _ _)); [|lia].
    rewrite (proj2 (Z.leb_le _ _)); [|lia]. rewrite (proj2 (Z.ltb_lt _ _)); [|lia].
    cbn [andb]. f_equal; [apply chr_eq; lia | apply Hrec; simpl; lia]. }
  cbn [units]. destruct (Z.ltb_spec (code b0) 128) as [Hlt|Hge].
  { cbn [of_units]. rewrite (proj2 (Z.ltb_lt _ _)) //.
    f_equal; [apply chr_code | apply Hrec; simpl; lia]. }
  destruct s0 as [|b1 s1]; [by apply Hbad|]. codes.
  destruct (ok2 _ _) eqn:E2.
  { unfold cp2. test_hyps. cbn [of_units].
    rewrite (proj2 (Z.ltb_ge _ _)); [|lia]. rewrite (proj2 (Z.ltb_lt _ _)); [|lia].
    repeat f_equal; [apply chr_eq; zlia..|apply Hrec; simpl; lia]. }
  clear E2. destruct s1 as [|b2 s2]; [by apply Hbad|]. codes.
  destruct (ok3 _ _ _) eqn:E3.
  { unfold ok3 in E3. unfold cp3 in *.
    assert (code b0 < 240 ∧ 224 <= code b0 ∧ 128 <= code b1 < 192 ∧ 128 <= code b2 < 192) as Hr
      by (test_hyps; lia).
    cbn [of_units].
    rewrite (proj2 (Z.ltb_ge _ _)); [|test_hyps; lia].
    rewrite (proj2 (Z.ltb_ge _ _)); [|test_hyps; lia].
    destruct (Z.leb_spec 56320 (((code b0 - 224) * 64 + (code b1 - 128)) * 64 + (code b2 - 128))),
      (Z.ltb_spec (((code b0 - 224) * 64 + (code b1 - 128)) * 64 + (code b2 - 128)) 57344),
      (Z.leb_spec 55296 (((code b0 - 224) * 64 + (code b1 - 128)) * 64 + (code b2 - 128))),
      (Z.ltb_spec (((code b0 - 224) * 64 + (code b1 - 128)) * 64 + (code b2 - 128)) 56320);
      cbn [andb]; try (exfalso; test_hyps; lia);
      (repeat f_equal; [apply chr_eq; zlia..|apply Hrec; simpl; lia]). }
  clear E3. destruct s2 as [|b3 s3]; [by apply Hbad|]. codes.
  destruct (ok4 _ _ _ _) eqn:E4; [|by apply Hbad].
  set (cp := cp4 (code b0) (code b1) (code b2) (code b3)) in *.
  assert (240 <= code b0 < 245 ∧ 128 <= code b1 < 192 ∧ 128 <= code b2 < 192
          ∧ 128 <= code b3 < 192 ∧ 0x10000 <= cp < 0x110000) as (?&?&?&?&?)
    by (test_hyps; lia).
  cbn [of_units].
  rewrite (proj2 (Z.ltb_ge _ _)); [|zlia]. rewrite (proj2 (Z.ltb_ge _ _)); [|zlia].
  destruct (Z.leb_spec 56320 (55296 + (cp - 65536) / 1024)); [exfalso; zlia|].
  destruct (Z.leb_spec 55296 (55296 + (cp - 65536) / 1024)); [|exfalso; zlia].
  destruct (Z.ltb_spec (55296 + (cp - 65536) / 1024) 56320); [|exfalso; zlia].
  cbn [andb].
  replace (65536 + (55296 + (cp - 65536) / 1024 - 55296) * 1024
           + (56320 + (cp - 65536) mod 1024 - 56320)) with cp by zlia.
  unfold cp4 in cp. subst cp.
  clear E4 Hbad IH. repeat match goal with H : context [_ / 1024] |- _ => clear H end.
  repeat f_equal; [apply chr_eq; clear Hrec; zlia..|apply Hrec; simpl; lia].
Qed.

Lemma units_inj s s' : units s = units s' → s = s'.
Proof.
  intros H. apply (f_equal (of_units (String.length s + String.length s'))) in H.
  rewrite !of_units_units in H; [done|lia..].
Qed.

Lemma units_range s : Forall (λ u, 0 <= u < 65536) (units s).
Proof.
  remember (String.length s) as n eqn:Hn. revert s Hn.
  induction n as [n IH] using lt_wf_ind. intros s ->.
  destruct s as [|b0 s0]; [constructor|]. codes.
  assert (Hbad : Forall (λ u, 0 <= u < 65536) (0xDC00 + code b0 :: units s0)).
  { constructor; [lia|]. eapply IH; [|done]. simpl. lia. }
  cbn [units]. case_match.
  { constructor; [lia|]. eapply IH; [|done]. simpl. lia. }
  destruct s0 as [|b1 s1]; [done|]. codes. case_match.
  { constructor; [unfold cp2; test_hyps; lia|]. eapply IH; [|done]. simpl. lia. }
  destruct s1 as [|b2 s2]; [done|]. codes. case_match.
  { constructor; [unfold ok3, cp3 in *; test_hyps; lia|]. eapply IH; [|done]. simpl. lia. }
  destruct s2 as [|b3 s3]; [done|]. codes. case_match eqn:E4; [|done].
  assert (0x10000 <= cp4 (code b0) (code b1) (code b2) (code b3) < 0x110000)
    by (unfold ok4 in E4; breflect; lia).
  repeat constructor; try zlia. eapply IH; [|done]. simpl. lia.
Qed.

Lemma short_escape_spec u c :
  short_escape u = Some c →
  (u = 34 ∨ u = 92 ∨ u = 8 ∨ u = 9 ∨ u = 10 ∨ u = 12 ∨ u = 13) ∧ c ≠ "u"%char
  ∧ ∀ u', short_escape u' = Some c → u' = u.
Proof.
  unfold short_escape. intros H.
  repeat case_match; simplify_eq/=; breflect; subst; (split; [lia|split; [done|]]);
    intros u' H'; repeat case_match; simplify_eq/=; breflect; done.
Qed.

Lemma short_escape_none u : short_escape u = None → u ≠ 34 ∧ u ≠ 92.
Proof. unfold short_escape. intros H. repeat case_match; simplify_eq; breflect. done. Qed.

Lemma hex4_inj u u' r r' :
  0 <= u < 65536 → 0 <= u' < 65536 →
  hex 4 u +:+ r = hex 4 u' +:+ r' → u = u' ∧ r = r'.
Proof.
  intros Hu Hu' [H ->]%sapp_inj_len; [|by rewrite !hex_length].
  apply hex_inj in H; [done| simpl; lia..].
Qed.

Lemma esc_unit_inj u u' r r' :
  0 <= u < 65536 → 0 <= u' < 65536 →
  esc_unit u +:+ r = esc_unit u' +:+ r' → u = u' ∧ r = r'.
Proof.
  intros Hu Hu'. unfold esc_unit.
  destruct (short_escape u) as [c|] eqn:E, (short_escape u') as [c'|] eqn:E'.
  - cbn. intros [= -> ->]. split; [|done].
    apply short_escape_spec in E' as (_ & _ & E'). by apply E'.
  - apply short_escape_spec in E as (_ & Hc & _). apply short_escape_none in E' as [_ H92].
    case_match; cbn; intros [= Hch ?].
    + exfalso. apply H92. change backslash with (chr 92) in Hch. breflect. apply chr_inj in Hch; lia.
    + congruence.
  - apply short_escape_spec in E' as (_ & Hc & _). apply short_escape_none in E as [_ H92].
    case_match; cbn; intros [= Hch ?].
    + exfalso. apply H92. change backslash with (chr 92) in Hch. breflect. apply chr_inj in Hch; lia.
    + congruence.
  - apply short_escape_none in E as [_ H92], E' as [_ H92'].
    destruct ((32 <=? u) && (u <=? 126)) eqn:P, ((32 <=? u') && (u' <=? 126)) eqn:P'; breflect.
    + cbn. intros [= Hch ->]. apply chr_inj in Hch; [done|lia..].
    + cbn. intros [= Hch _]. change backslash with (chr 92) in Hch. apply chr_inj in Hch; lia.
    + cbn. intros [= Hch _]. change backslash with (chr 92) in Hch. apply chr_inj in Hch; lia.
    + pose proof (hex4_inj u u' r r' Hu Hu') as Hi. revert Hi.
      generalize (hex 4 u), (hex 4 u'). intros h h' Hi. cbn. intros [= Hch]. auto.
Qed.

Lemma esc_unit_head u r r' : 0 <= u < 65536 → esc_unit u +:+ r ≠ String dquote r'.
Proof.
  intros Hu. unfold esc_unit. destruct (short_escape u) eqn:E; [done|].
  apply short_escape_none in E as [E _]. case_match; [|done].
  cbn. intros [= Hch _]. change dquote with (chr 34) in Hch. breflect. apply chr_inj in Hch; lia.
Qed.

Lemma esc_units_inj l l' r r' :
  Forall (λ u, 0 <= u < 65536) l → Forall (λ u, 0 <= u < 65536) l' →
  esc_units l +:+ String dquote r = esc_units l' +:+ String dquote r' → l = l' ∧ r = r'.
Proof.
  revert l'. induction l as [|u l IH]; intros [|u' l'] Hl Hl'; cbn [esc_units]; rewrite ?sapp_assoc.
  - cbn. by intros [= ->].
  - apply Forall_cons in Hl' as [Hu' _]. intros H. symmetry in H.
    by apply esc_unit_head in H.
  - apply Forall_cons in Hl as [Hu _]. intros H. by apply esc_unit_head in H.
  - apply Forall_cons in Hl as [Hu Hl], Hl' as [Hu' Hl'].
    intros [-> H]%esc_unit_inj; [|done..]. destruct (IH l') as [-> ->]; done.
Qed.

(** A quoted string is read back in one way, whatever follows. *)
Lemma quote_inj s s' r r' : quote s +:+ r = quote s' +:+ r' → s = s' ∧ r = r'.
Proof.
  unfold quote. cbn. rewrite !sapp_assoc. intros [= H].
  apply esc_units_inj in H as [H ->]; [|apply units_range..].
  split; [by apply units_inj|done].
Qed.

(** ** Numbers: every lexeme is a run of number characters *)
Definition num_char (c : ascii) : bool :=
  is_digit c || existsb (Ascii.eqb c)
    ["-"; "+"; "."; "e"; "N"; "a"; "I"; "n"; "f"; "i"; "t"; "y"]%char.
Definition num_start (c : ascii) : bool :=
  is_digit c || existsb (Ascii.eqb c) ["-"; "N"; "I"]%char.

Definition starts (p : ascii → bool) (s : string) : bool :=
  match s with String c _ => p c | "" => false end.

Definition lex_ok (s : string) : bool := all_chars num_char s && starts num_start s.

Lemma starts_app p a b : starts p a = true → starts p (a +:+ b) = true.
Proof. by destruct a. Qed.

Lemma starts_all p s : s ≠ "" → all_chars p s = true → starts p s = true.
Proof. destruct s; [done|]. simpl. by intros _ [? ?]%andb_prop. Qed.

Lemma digit_num c : is_digit c = true → num_char c = true.
Proof. unfold num_char. by intros ->. Qed.
Lemma digit_start c : is_digit c = true → num_start c = true.
Proof. unfold num_start. by intros ->. Qed.

Lemma pretty_N_go_digits x s :
  all_chars is_digit s = true → all_chars is_digit (pretty_N_go x s) = true.
Proof.
  revert s. induction (N.lt_wf_0 x) as [x _ IH]; intros s Hs.
  assert (x = 0 ∨ 0 < x)%N as [->|?] by lia; [by rewrite pretty_N_go_0|].
  rewrite pretty_N_go_step //. apply IH; [by apply N.div_lt|].
  cbn [all_chars]. rewrite Hs andb_true_r. unfold pretty_N_char.
  by repeat case_match.
Qed.

Lemma pretty_N_go_ne x s : s ≠ "" → pretty_N_go x s ≠ "".
Proof.
  revert s. induction (N.lt_wf_0 x) as [x _ IH]; intros s Hs.
  assert (x = 0 ∨ 0 < x)%N as [->|?] by lia; [by rewrite pretty_N_go_0|].
  rewrite pretty_N_go_step //. apply IH; [by apply N.div_lt|done].
Qed.

Lemma pretty_N_digits (x : N) : all_chars is_digit (pretty x) = true ∧ pretty x ≠ "".
Proof.
  unfold pretty, pretty_N. case_decide as E; [done|]. split.
  - by apply pretty_N_go_digits.
  - rewrite pretty_N_go_step; [|lia]. by apply pretty_N_go_ne.
Qed.

Lemma str_of_Z_nonneg z :
  0 <= z → all_chars is_digit (str_of_Z z) = true ∧ str_of_Z z ≠ "".
Proof. destruct z as [|p|p]; [done| intros _; apply (pretty_N_digits (Npos p)) |lia]. Qed.

Lemma str_of_Z_neg p : str_of_Z (Z.neg p) = String "-" (str_of_Z (Z.pos p)).
Proof. done. Qed.

Lemma digits_lex s r :
  all_chars is_digit s = true → s ≠ "" → all_chars num_char r = true → lex_ok (s +:+ r) = true.
Proof.
  intros Hs Hne Hr. unfold lex_ok. rewrite all_chars_app Hr (all_chars_impl is_digit) //;
    [|apply digit_num].
  simpl. apply starts_app. apply starts_all; [done|].
  by apply (all_chars_impl is_digit); [apply digit_start|].
Qed.

Lemma minus_lex s : lex_ok s = true → lex_ok (String "-" s) = true.
Proof. unfold lex_ok. intros [Hs _]%andb_prop. cbn. by rewrite Hs. Qed.

Lemma str_of_Z_lex z : lex_ok (str_of_Z z) = true.
Proof.
  destruct z as [|p|p]; [done| |rewrite str_of_Z_neg; apply minus_lex];
    rewrite -(sapp_nil_r (str_of_Z (Z.pos p)));
    destruct (str_of_Z_nonneg (Z.pos p)) as [? ?]; try lia; by apply digits_lex.
Qed.

Lemma zeros_digits n : all_chars is_digit (zeros n) = true.
Proof. by induction n. Qed.

Lemma dig_digits w n : all_chars is_digit (dig w n) = true.
Proof.
  revert n. induction w as [|w IH]; intros n; simpl; [done|]. rewrite all_chars_app IH /=.
  assert (0 <= n mod 10 < 10) by (apply Z.mod_pos_bound; lia).
  unfold is_digit, code_between. rewrite code_chr; [|lia]. rewrite andb_true_r. apply andb_true_intro. split; lia.
Qed.

Lemma stake_chars p n s : all_chars p s = true → all_chars p (stake n s) = true.
Proof.
  revert s. induction n as [|n IH]; intros [|c s]; try done. cbn.
  intros [-> ?]%andb_prop. simpl. auto.
Qed.
Lemma sdrop_chars p n s : all_chars p s = true → all_chars p (sdrop n s) = true.
Proof.
  revert s. induction n as [|n IH]; intros [|c s]; try done. cbn.
  intros [_ ?]%andb_prop. auto.
Qed.

Lemma digits_num s : all_chars is_digit s = true → all_chars num_char s = true.
Proof. apply all_chars_impl, digit_num. Qed.

Lemma app_chars p a b :
  all_chars p a = true → all_chars p b = true → all_chars p (a +:+ b) = true.
Proof. intros Ha Hb. by rewrite all_chars_app Ha Hb. Qed.

Create HintDb lex.
#[local] Hint Resolve app_chars digits_num zeros_digits stake_chars sdrop_chars : lex.

Lemma exponent_num x : all_chars num_char
  ("e" +:+ (if x <? 0 then "-" else "+") +:+ (if Z.abs x <? 10 then "0" else "") +:+ str_of_Z (Z.abs x)) = true.
Proof.
  destruct (str_of_Z_nonneg (Z.abs x)) as [H _]; [lia|].
  repeat apply app_chars; [done|by case_match..|by apply digits_num].
Qed.

Lemma layout_lex ds decpt :
  all_chars is_digit ds = true → ds ≠ "" → lex_ok (layout ds decpt) = true.
Proof.
  intros Hd Hne. unfold layout, exp_layout; cbv zeta.
  case_match eqn:Ef; [case_match eqn:Eneg; [|case_match]|].
  - apply (digits_lex "0"); [done..|]. apply (app_chars _ "."); auto with lex.
  - apply digits_lex; auto with lex.
  - breflect. apply digits_lex; auto with lex.
    destruct (Z.to_nat decpt) eqn:E; [lia|]. by destruct ds.
  - pose proof (exponent_num (decpt - 1)) as Hx. revert Hx.
    generalize ("e" +:+ (if decpt - 1 <? 0 then "-" else "+")
      +:+ (if Z.abs (decpt - 1) <? 10 then "0" else "") +:+ str_of_Z (Z.abs (decpt - 1))).
    intros x Hx. case_match; [by apply digits_lex|].
    rewrite !sapp_assoc. destruct ds as [|c ds]; [done|].
    apply (digits_lex (String c "")); [|done|].
    + cbn in Hd |- *. by apply andb_prop in Hd as [-> _].
    + apply app_chars; [done|]. auto with lex.
Qed.

Lemma strip_zeros_nonneg fuel d q : 0 <= d → 0 <= (strip_zeros fuel d q).1.
Proof.
  revert d q. induction fuel as [|fuel IH]; intros d q Hd; [done|].
  cbn. case_match; [apply IH; zlia|done].
Qed.

Lemma floor_dec_nonneg m e q : 0 <= m → 0 <= floor_dec m e q.
Proof.
  intros Hm. unfold floor_dec. apply Z.div_pos.
  - repeat apply Z.mul_nonneg_nonneg; [done|apply Z.pow_nonneg; lia..].
  - apply Z.mul_pos_pos; apply Z.pow_pos_nonneg; lia.
Qed.

Lemma shortest_nonneg fuel m e k n : 0 <= m → 0 <= (shortest fuel m e k n).1.
Proof.
  intros Hm. revert n. induction fuel as [|fuel IH]; intros n; cbn [shortest].
  - by apply floor_dec_nonneg.
  - unfold shortest_at. pose proof (floor_dec_nonneg m e (k - n) Hm).
    destruct (rounds_to m e (floor_dec m e (k - n)) (k - n)),
      (rounds_to m e (floor_dec m e (k - n) + 1) (k - n)); cbn; try lia; [|apply IH].
    repeat case_match; lia.
Qed.

Lemma repr_pos_lex m e : 0 <= m → lex_ok (repr_pos m e) = true.
Proof.
  intros Hm. unfold repr_pos; cbv zeta.
  pose proof (shortest_nonneg 17 m e (dec_exponent m e) 1 Hm) as Hs.
  destruct (shortest 17 m e (dec_exponent m e) 1) as [d q]. cbn [fst] in Hs.
  pose proof (strip_zeros_nonneg 20 d q Hs) as Hz.
  destruct (strip_zeros 20 d q) as [d' q']. cbn [fst] in Hz.
  apply layout_lex; by apply str_of_Z_nonneg.
Qed.

Lemma json_float_lex f : lex_ok (json_float f) = true.
Proof.
  destruct f as [s|s| |s m e]; [by destruct s..|done|].
  cbn [json_float float_repr]. destruct s; cbn [String.append].
  - apply minus_lex, repr_pos_lex. lia.
  - apply repr_pos_lex. lia.
Qed.

(** ** Canonical documents *)
Section cjson_ind.
Context (P : cjson → Prop).
Context (Hnull : P CNull) (Hbool : ∀ b, P (CBool b)) (Hnum : ∀ z, P (CNum z))
        (Hstr : ∀ s, P (CStr s)) (Hlist : ∀ l, Forall P l → P (CList l))
        (Hobj : ∀ l, Forall (λ kv : string * cjson, P kv.2) l → P (CObj l)).

Fixpoint cjson_ind' (j : cjson) : P j :=
  match j with
  | CNull => Hnull
  | CBool b => Hbool b
  | CNum z => Hnum z
  | CStr s => Hstr s
  | CList l =>
      Hlist l ((fix go l : Forall P l :=
        match l with
        | [] => Forall_nil_2 P
        | x :: l' => Forall_cons_2 P x l' (cjson_ind' x) (go l')
        end) l)
  | CObj l =>
      Hobj l ((fix go l : Forall (λ kv : string * cjson, P kv.2) l :=
        match l with
        | [] => Forall_nil_2 _
        | x :: l' => Forall_cons_2 _ x l' (cjson_ind' x.2) (go l')
        end) l)
  end.
End cjson_ind.

(** Every number of the document is a number lexeme. *)
Inductive cwf : cjson → Prop :=
| cwf_null : cwf CNull
| cwf_bool b : cwf (CBool b)
| cwf_num z : lex_ok z = true → cwf (CNum z)
| cwf_str s : cwf (CStr s)
| cwf_list l : Forall cwf l → cwf (CList l)
| cwf_obj l : Forall (λ kv : string * cjson, cwf kv.2) l → cwf (CObj l).

Lemma cwf_list_inv l : cwf (CList l) → Forall cwf l.
Proof. by inversion 1. Qed.
Lemma cwf_obj_inv l : cwf (CObj l) → Forall (λ kv : string * cjson, cwf kv.2) l.
Proof. by inversion 1. Qed.

(** What may follow a value inside a document, or at its end. *)
Definition delim (r : string) : Prop :=
  match r with "" => True | String c _ => c = ","%char ∨ c = "]"%char ∨ c = "}"%char end.

Fixpoint list_tail (l : list cjson) : string :=
  match l with
  | [] => "]"
  | y :: l' => String "," (print y +:+ list_tail l')
  end.
Fixpoint obj_tail (l : list (string * cjson)) : string :=
  match l with
  | [] => "}"
  | (k, y) :: l' => String "," (quote k +:+ String ":" (print y +:+ obj_tail l'))
  end.

Lemma print_list l : print (CList l) =
  String "[" match l with [] => "]" | x :: l' => print x +:+ list_tail l' end.
Proof. by destruct l. Qed.
Lemma print_obj l : print (CObj l) =
  String "{" match l with [] => "}"
             | (k, x) :: l' => quote k +:+ String ":" (print x +:+ obj_tail l') end.
Proof. by destruct l as [|[k x] l]. Qed.

Lemma list_tail_delim l r : delim (list_tail l +:+ r).
Proof. destruct l; cbn; auto. Qed.
Lemma obj_tail_delim l r : delim (obj_tail l +:+ r).
Proof. destruct l as [|[k x] l]; cbn; auto. Qed.

Lemma delim_num c r : delim (String c r) → num_char c = false.
Proof. by intros [->|[->| ->]]. Qed.

Lemma lex_inj a a' r r' :
  all_chars num_char a = true → all_chars num_char a' = true → delim r → delim r' →
  a +:+ r = a' +:+ r' → a = a' ∧ r = r'.
Proof.
  revert a'. induction a as [|x a IH]; intros [|x' a']; cbn; intros Ha Ha' Hr Hr' H; try done.
  - subst r. apply andb_prop in Ha' as [Hx _]. apply delim_num in Hr. congruence.
  - subst r'. apply andb_prop in Ha as [Hx _]. apply delim_num in Hr'. congruence.
  - apply andb_prop in Ha as [? ?], Ha' as [? ?]. injection H as -> H.
    by destruct (IH a') as [-> ->].
Qed.

(** The first character tells the kind of value. *)
Definition kind (c : cjson) : Z :=
  match c with
  | CNull => 0 | CBool true => 1 | CBool false => 2 | CNum _ => 3 | CStr _ => 4
  | CList _ => 5 | CObj _ => 6
  end.
Definition kind_of_char (c : ascii) : Z :=
  if num_start c then 3
  else if Ascii.eqb c "n" then 0 else if Ascii.eqb c "t" then 1 else if Ascii.eqb c "f" then 2
  else if Ascii.eqb c dquote then 4 else if Ascii.eqb c "[" then 5 else 6.

Lemma print_kind c r :
  cwf c → ∃ x s, print c +:+ r = String x s ∧ kind c = kind_of_char x ∧ x ≠ "]"%char ∧ x ≠ "}"%char.
Proof.
  destruct 1 as [|b|z Hz|s|l _|l _]; cbn; try (by eexists _, _; split_and!; try done).
  - destruct b; by eexists _, _.
  - apply andb_prop in Hz as [_ Hz]. destruct z as [|x z]; [done|]. cbn in Hz |- *.
    eexists _, _. split; [done|]. unfold kind_of_char. rewrite Hz. split; [done|].
    split; intros ->; done.
Qed.

Lemma print_same_kind c c' r r' :
  cwf c → cwf c' → print c +:+ r = print c' +:+ r' → kind c = kind c'.
Proof.
  intros Hc Hc' H. destruct (print_kind c r Hc) as (x & s & E & -> & _).
  destruct (print_kind c' r' Hc') as (x' & s' & E' & -> & _). congruence.
Qed.

(** The text of a value, followed by a delimiter, is read in one way. *)
Definition prefix_free (c : cjson) : Prop := ∀ c' r r',
  cwf c → cwf c' → delim r → delim r' →
  print c +:+ r = print c' +:+ r' → c = c' ∧ r = r'.

Lemma list_tail_inj l l' r r' :
  Forall prefix_free l → Forall cwf l → Forall cwf l' → delim r → delim r' →
  list_tail l +:+ r = list_tail l' +:+ r' → l = l' ∧ r = r'.
Proof.
  revert l'. induction l as [|x l IH]; intros [|x' l'] Hp Hl Hl' Hr Hr'; cbn; try done.
  - by intros [= ->].
  - apply Forall_cons in Hp as [Hp Hps], Hl as [Hx Hl], Hl' as [Hx' Hl'].
    rewrite !sapp_assoc. intros [= H].
    apply Hp in H as [-> H]; [|done..|apply list_tail_delim|apply list_tail_delim].
    by destruct (IH l') as [-> ->].
Qed.

Lemma obj_tail_inj l l' r r' :
  Forall (λ kv : string * cjson, prefix_free kv.2) l →
  Forall (λ kv : string * cjson, cwf kv.2) l → Forall (λ kv : string * cjson, cwf kv.2) l' →
  delim r → delim r' →
  obj_tail l +:+ r = obj_tail l' +:+ r' → l = l' ∧ r = r'.
Proof.
  revert l'. induction l as [|[k x] l IH]; intros [|[k' x'] l'] Hp Hl Hl' Hr Hr';
    cbn [obj_tail]; try done.
  - cbn. by intros [= ->].
  - apply Forall_cons in Hp as [Hp Hps], Hl as [Hx Hl], Hl' as [Hx' Hl']. cbn [snd] in *.
    cbn [String.append]. rewrite !sapp_assoc. intros H%scons_inj.
    apply quote_inj in H as [-> H]. cbn [String.append] in H. rewrite !sapp_assoc in H.
    apply scons_inj, Hp in H as [-> H]; [|done..|apply obj_tail_delim|apply obj_tail_delim].
    by destruct (IH l') as [-> ->].
Qed.

Lemma print_prefix_free c : prefix_free c.
Proof.
  induction c as [|b|z|s|l IH|l IH] using cjson_ind'; intros c' r r' Hc Hc' Hr Hr' H;
    pose proof (print_same_kind _ _ _ _ Hc Hc' H) as Hk;
    destruct c' as [|b'|z'|s'|l'|l']; try discriminate Hk;
    try (exfalso; clear H; by destruct b); try (exfalso; clear H; by destruct b').
  - cbn in H. by injection H.
  - destruct b, b'; cbn in *; simplify_eq; done.
  - inv Hc. inv Hc'. unfold lex_ok in *. breflect.
    apply lex_inj in H as [Hz Hrr]; [|done..]. cbn in Hz. by subst.
  - by apply quote_inj in H as [-> ->].
  - apply cwf_list_inv in Hc, Hc'. rewrite !print_list in H. cbn [String.append] in H. apply scons_inj in H.
    destruct l as [|x l], l' as [|x' l'].
    + by injection H.
    + apply Forall_cons in Hc' as [Hx' _]. rewrite sapp_assoc in H.
      destruct (print_kind x' (list_tail l' +:+ r') Hx') as (y & t & E & _ & ? & _).
      rewrite E in H. by injection H.
    + apply Forall_cons in Hc as [Hx _]. rewrite sapp_assoc in H.
      destruct (print_kind x (list_tail l +:+ r) Hx) as (y & t & E & _ & ? & _).
      rewrite E in H. by injection H.
    + rewrite !sapp_assoc in H.
      apply Forall_cons in IH as [Hp Hps], Hc as [Hx Hl], Hc' as [Hx' Hl'].
      apply Hp in H as [-> H]; [|done..|apply list_tail_delim|apply list_tail_delim].
      by apply list_tail_inj in H as [-> ->].
  - apply cwf_obj_inv in Hc, Hc'. rewrite !print_obj in H. cbn [String.append] in H. apply scons_inj in H.
    destruct l as [|[k x] l], l' as [|[k' x'] l']; try done.
    + by injection H.
    + apply Forall_cons in IH as [Hp Hps], Hc as [Hx Hl], Hc' as [Hx' Hl']. cbn [snd] in *.
      rewrite !sapp_assoc in H. apply quote_inj in H as [-> H].
      cbn [String.append] in H. rewrite !sapp_assoc in H.
      apply scons_inj, Hp in H as [-> H]; [|done..|apply obj_tail_delim|apply obj_tail_delim].
      by apply obj_tail_inj in H as [-> ->].
Qed.

Lemma insert_item_perm {A} (x : string * A) l : insert_item x l ≡ₚ x :: l.
Proof.
  induction l as [|y l IH]; cbn; [done|]. case_match; [done|]. rewrite IH. constructor.
Qed.

Lemma sort_items_perm {A} (l : list (string * A)) : sort_items l ≡ₚ l.
Proof.
  induction l as [|x l IH]; [done|]. change (sort_items (x :: l)) with (insert_item x (sort_items l)).
  by rewrite insert_item_perm IH.
Qed.

Lemma canon_cwf j : cwf (canon j).
Proof.
  induction j as [|b|z|f|s|l IH|l IH] using json_ind'; cbn; constructor.
  - apply str_of_Z_lex.
  - apply json_float_lex.
  - by apply Forall_fmap.
  - rewrite sort_items_perm. by apply Forall_fmap.
Qed.

(** Equal texts come from the same document. *)
Theorem dumps_inj j j' : dumps j = dumps j' → jeq j j'.
Proof.
  unfold dumps, jeq. intros H.
  destruct (print_prefix_free (canon j) (canon j') "" "") as [? _];
    [apply canon_cwf..|done|done| |done].
  by rewrite !sapp_nil_r.
Qed.

Lemma jeq_dumps j j' : jeq j j' → dumps j = dumps j'.
Proof. unfold dumps, jeq. by intros ->. Qed.

#[export] Instance jeq_equivalence : Equivalence jeq.
Proof. split; unfold jeq; [done|by intros ? ? ->|by intros ? ? ? -> ->]. Qed.
#[export] Instance dumps_proper : Proper (jeq ==> (=)) dumps.
Proof. intros j j'. apply jeq_dumps. Qed.

(** ** The order of the keys does not matter *)
Lemma skey_leb_trans a b c : skey_leb a b = true → skey_leb b c = true → skey_leb a c = true.
Proof.
  intros Hab Hbc. apply Is_true_true. apply Is_true_true in Hab, Hbc.
  change (String.le a c). by trans b.
Qed.

Lemma insert_item_comm {A} (x y : string * A) l :
  x.1 ≠ y.1 → insert_item x (insert_item y l) = insert_item y (insert_item x l).
Proof.
  intros Hne. induction l as [|z l IH].
  - cbn. destruct (skey_leb x.1 y.1) eqn:E, (skey_leb y.1 x.1) eqn:E'; try done.
    + by destruct Hne; apply String.leb_antisym.
    + by destruct (String.leb_total x.1 y.1); unfold skey_leb in *; congruence.
  - cbn. destruct (skey_leb y.1 z.1) eqn:Eyz, (skey_leb x.1 z.1) eqn:Exz; cbn;
      rewrite ?Eyz ?Exz.
    + destruct (skey_leb x.1 y.1) eqn:E, (skey_leb y.1 x.1) eqn:E'; try done.
      * by destruct Hne; apply String.leb_antisym.
      * by destruct (String.leb_total x.1 y.1); unfold skey_leb in *; congruence.
    + destruct (skey_leb x.1 y.1) eqn:E; [|done].
      rewrite (skey_leb_trans _ _ _ E Eyz) in Exz. done.
    + destruct (skey_leb y.1 x.1) eqn:E; [|done].
      rewrite (skey_leb_trans _ _ _ E Exz) in Eyz. done.
    + by rewrite IH.
Qed.

Lemma sort_items_perm_eq {A} (l l' : list (string * A)) :
  l ≡ₚ l' → NoDup (l.*1) → sort_items l = sort_items l'.
Proof.
  induction 1 as [|x l l' Hp IH|x y l|l l' l'' Hp IH Hp' IH']; intros Hnd.
  - done.
  - rewrite fmap_cons in Hnd. apply NoDup_cons in Hnd as [_ Hnd].
    unfold sort_items in *. cbn. by rewrite IH.
  - rewrite !fmap_cons in Hnd. apply NoDup_cons in Hnd as [Hx _].
    unfold sort_items. cbn. apply insert_item_comm. intros E. apply Hx. rewrite E. left.
  - rewrite IH // IH' //. by rewrite -Hp.
Qed.

(** A dict serializes to the same text whatever the insertion order. *)
Theorem dumps_key_order l l' :
  l ≡ₚ l' → NoDup (l.*1) → dumps (JObj l) = dumps (JObj l').
Proof.
  intros Hp Hnd. unfold dumps. cbn [canon]. do 2 f_equal.
  apply sort_items_perm_eq; [by apply (fmap_Permutation (λ kv : string * json, (kv.1, canon kv.2)))|].
  rewrite -list_fmap_compose. done.
Qed.

(** Two objects with the same keys in the same order are the same document
    only if their values are. *)
Lemma jeq_str s s' : jeq (JStr s) (JStr s') → s = s'.
Proof. by intros [= ->]. Qed.

Lemma obj_get_elem {A} k (v : A) l :
  NoDup (l.*1) → obj_get k l = Some v ↔ (k, v) ∈ l.
Proof.
  induction l as [|[k' v'] l IH]; cbn.
  - intros _. split; [done|]. by intros H%not_elem_of_nil.
  - intros [Hk Hnd]%NoDup_cons. rewrite elem_of_cons. destruct (String.eqb_spec k k') as [->|Hne].
    + split; [intros [= ->]; by left|]. intros [[= ->]|Hin]; [done|].
      destruct Hk. apply list_elem_of_fmap. by exists (k', v).
    + rewrite IH //. split; [by right|]. intros [[= -> ->]|?]; [done|done].
Qed.

Lemma obj_get_perm {A} (l l' : list (string * A)) k :
  l ≡ₚ l' → NoDup (l.*1) → obj_get k l = obj_get k l'.
Proof.
  intros Hp Hnd. assert (NoDup (l'.*1)) as Hnd' by by rewrite -Hp.
  apply option_eq. intros v. rewrite !obj_get_elem //. by rewrite Hp.
Qed.

Lemma obj_get_canon k l :
  obj_get k (map (λ kv : string * json, (kv.1, canon kv.2)) l) = canon <$> obj_get k l.
Proof. induction l as [|[k' v] l IH]; cbn; [done|]. by case_match. Qed.

(** The same object has the same value under every key. *)
Lemma jeq_obj_get l l' k :
  NoDup (l.*1) → NoDup (l'.*1) → jeq (JObj l) (JObj l') →
  canon <$> obj_get k l = canon <$> obj_get k l'.
Proof.
  unfold jeq. cbn [canon]. intros Hnd Hnd' [= H].
  rewrite -!obj_get_canon.
  assert (∀ l : list (string * json),
    (map (λ kv : string * json, (kv.1, canon kv.2)) l).*1 = l.*1) as Hk.
  { intros m. induction m as [|[? ?] m IH]; cbn; [done|]. by f_equal. }
  rewrite -(obj_get_perm (sort_items (map (λ kv, (kv.1, canon kv.2)) l))).
  - rewrite H. apply obj_get_perm; [apply sort_items_perm|].
    by rewrite sort_items_perm Hk.
  - apply sort_items_perm.
  - by rewrite sort_items_perm Hk.
Qed.
