(* ===== verification/Datetime.v ===== *)
(** * [datetime.datetime] values and their ISO-8601 text

    A datetime is the microsecond count of its wall clock since
    0001-01-01T00:00:00 in the proleptic Gregorian calendar, with the UTC
    offset of its [tzinfo] when it has one.  Python admits years 1 to 9999
    ([in_calendar]); [isoformat] is injective on that range. *)
From S2P Require Import Prelude PyStr.

Open Scope string_scope.
Open Scope Z_scope.

Record datetime := Datetime
  { dt_wall : Z            (* wall-clock microseconds since 0001-01-01 *)
  ; dt_offset : option Z   (* utcoffset in microseconds; None = naive *) }.

#[export] Instance datetime_eq_dec : EqDecision datetime.
Proof. solve_decision. Defined.

Definition us_per_day : Z := 86400000000.

(** The instant on the UTC clock, a naive datetime being read as UTC. *)
Definition utc_us (d : datetime) : Z := dt_wall d - default 0 (dt_offset d).

(** [d.replace(tzinfo=utc)], [d.astimezone(utc)] *)
Definition replace_utc (d : datetime) : datetime := Datetime (dt_wall d) (Some 0).
Definition astimezone_utc (d : datetime) : datetime := Datetime (utc_us d) (Some 0).

(** ** Civil calendar, in 400-year eras starting on March 1st *)
Definition days_per_era : Z := 146097.

Definition year_of_era (doe : Z) : Z :=
  (doe - doe / 1460 + doe / 36524 - doe / 146096) / 365.
Definition day_of_year (doe : Z) : Z :=
  let yoe := year_of_era doe in doe - (365 * yoe + yoe / 4 - yoe / 100).
Definition month_index (doe : Z) : Z := (5 * day_of_year doe + 2) / 153.
Definition day_of_month (doe : Z) : Z :=
  day_of_year doe - (153 * month_index doe + 2) / 5 + 1.

Definition doe_of (yoe mp d : Z) : Z :=
  yoe * 365 + yoe / 4 - yoe / 100 + (153 * mp + 2) / 5 + d - 1.

(** (year, month, day) of the [n]-th day since 0001-01-01. *)
Definition civil (n : Z) : Z * Z * Z :=
  let z := n + 306 in
  let era := z / days_per_era in
  let doe := z mod days_per_era in
  let mp := month_index doe in
  let m := if mp <? 10 then mp + 3 else mp - 9 in
  let y := year_of_era doe + era * 400 + (if m <=? 2 then 1 else 0) in
  (y, m, day_of_month doe).

(** ** ISO-8601 *)
Definition iso_time (us : Z) (r : string) : string :=
  let s := us / 1000000 in
  dig 2 (s / 3600) +:+ ":" +:+ dig 2 (s / 60 mod 60) +:+ ":" +:+ dig 2 (s mod 60) +:+
  (if us mod 1000000 =? 0 then r else "." +:+ dig 6 (us mod 1000000) +:+ r).

(** [d.isoformat()] of a UTC datetime. *)
Definition iso_utc (us : Z) : string :=
  let '(y, m, d) := civil (us / us_per_day) in
  dig 4 y +:+ "-" +:+ dig 2 m +:+ "-" +:+ dig 2 d +:+ "T" +:+
  iso_time (us mod us_per_day) "+00:00".

(** The instant lies in Python's calendar (the year has four digits). *)
Definition in_calendar (us : Z) : Prop := 0 <= us < 3652059 * us_per_day.

(** ** Lemmas *)
Lemma year_of_era_range doe :
  0 <= doe < days_per_era → 0 <= year_of_era doe < 400.
Proof. unfold year_of_era, days_per_era. zlia. Qed.

Lemma day_of_year_range doe :
  0 <= doe < days_per_era → 0 <= day_of_year doe <= 365.
Proof. unfold day_of_year, year_of_era, days_per_era. cbv zeta. zlia. Qed.

Lemma calendar_spec doe :
  0 <= doe < days_per_era →
  0 <= year_of_era doe < 400 ∧ 0 <= month_index doe < 12 ∧ 1 <= day_of_month doe <= 31
  ∧ doe_of (year_of_era doe) (month_index doe) (day_of_month doe) = doe.
Proof.
  intros H. pose proof (day_of_year_range doe H) as Hd.
  split; [by apply year_of_era_range|].
  split; [unfold month_index; zlia|]. split; [unfold day_of_month, month_index; zlia|].
  unfold doe_of, day_of_month, day_of_year. cbv zeta. lia.
Qed.

Lemma civil_inj n n' : civil n = civil n' → n = n'.
Proof.
  unfold civil. cbv zeta. intros H.
  pose proof (Z.mod_pos_bound (n + 306) days_per_era ltac:(done)) as Hb.
  pose proof (Z.mod_pos_bound (n' + 306) days_per_era ltac:(done)) as Hb'.
  pose proof (calendar_spec _ Hb) as (Hy & Hm & Hd & E).
  pose proof (calendar_spec _ Hb') as (Hy' & Hm' & Hd' & E').
  pose proof (Z.div_mod (n + 306) days_per_era ltac:(done)) as Hdm.
  pose proof (Z.div_mod (n' + 306) days_per_era ltac:(done)) as Hdm'.
  remember ((n + 306) mod days_per_era) as doe eqn:Hdoe. clear Hdoe.
  remember ((n' + 306) mod days_per_era) as doe' eqn:Hdoe'. clear Hdoe'.
  remember ((n + 306) / days_per_era) as era eqn:He. clear He.
  remember ((n' + 306) / days_per_era) as era' eqn:He'. clear He'.
  injection H as Heqy Heqm Heqd.
  assert (month_index doe = month_index doe') as Hmi
    by (destruct (Z.ltb_spec (month_index doe) 10), (Z.ltb_spec (month_index doe') 10); lia).
  assert (year_of_era doe = year_of_era doe' ∧ era = era') as [Hyi ->].
  { rewrite Hmi in Heqy. destruct (month_index doe' <? 10);
      repeat case_match; lia. }
  assert (doe = doe') by (rewrite -E -E' Hmi Hyi Heqd; done). lia.
Qed.

Lemma civil_md n : 0 <= (civil n).1.2 < 100 ∧ 0 <= (civil n).2 < 100.
Proof.
  unfold civil. cbv zeta. cbn [fst snd].
  pose proof (Z.mod_pos_bound (n + 306) days_per_era ltac:(done)) as Hb.
  pose proof (calendar_spec _ Hb) as (Hy & Hm & Hd & E).
  case_match; lia.
Qed.

Lemma civil_year n : 0 <= n < 3652059 → 0 <= (civil n).1.1 < 10000.
Proof.
  intros Hn. unfold civil. cbv zeta. cbn [fst].
  pose proof (Z.mod_pos_bound (n + 306) days_per_era ltac:(done)) as Hb.
  pose proof (calendar_spec _ Hb) as (Hy & Hm & Hd & E).
  pose proof (Z.div_mod (n + 306) days_per_era ltac:(done)) as Hdm.
  remember ((n + 306) mod days_per_era) as doe eqn:Hdoe. clear Hdoe.
  remember ((n + 306) / days_per_era) as era eqn:He. clear He.
  unfold days_per_era in *.
  assert (era = 24 → year_of_era doe = 399 → month_index doe < 10) as Hlast.
  { intros -> Hy399. rewrite Hy399 in E. unfold doe_of in E. zlia. }
  assert (0 <= era <= 24) as He by lia.
  destruct (Z.ltb_spec (month_index doe) 10);
    match goal with |- context [?m <=? 2] => destruct (Z.leb_spec m 2) end; lia.
Qed.

Lemma sapp_self (a r : string) : r = a +:+ r → a = "".
Proof. intros H. apply (f_equal String.length) in H. rewrite slength_app in H. destruct a; cbn in *; [done|lia]. Qed.

Lemma iso_time_inj us us' r :
  0 <= us < us_per_day → 0 <= us' < us_per_day →
  iso_time us r = iso_time us' r → us = us'.
Proof.
  unfold us_per_day. intros Hu Hu'. unfold iso_time; cbv zeta.
  intros [Hh H]%sapp_inj_len; [|by rewrite !dig_length]. cbn [String.append] in H. apply scons_inj in H.
  apply sapp_inj_len in H as [Hm H]; [|by rewrite !dig_length]. cbn [String.append] in H. apply scons_inj in H.
  apply sapp_inj_len in H as [Hs H]; [|by rewrite !dig_length].
  apply dig_inj in Hh; [|cbn; zlia..]. apply dig_inj in Hm; [|cbn; zlia..].
  apply dig_inj in Hs; [|cbn; zlia..].
  assert (us mod 1000000 = us' mod 1000000) as Hf.
  { destruct (Z.eqb_spec (us mod 1000000) 0), (Z.eqb_spec (us' mod 1000000) 0).
    - congruence.
    - by apply (sapp_self (String "." (dig 6 (us' mod 1000000)))) in H.
    - by symmetry in H; apply (sapp_self (String "." (dig 6 (us mod 1000000)))) in H.
    - cbn [String.append] in H. apply scons_inj in H.
      apply sapp_inj_len in H as [H _]; [|by rewrite !dig_length].
      apply dig_inj in H; [done|cbn; zlia..]. }
  zlia.
Qed.

(** Two instants of Python's calendar have the same text only if equal. *)
Theorem iso_utc_inj us us' :
  in_calendar us → in_calendar us' → iso_utc us = iso_utc us' → us = us'.
Proof.
  unfold in_calendar. intros Hu Hu'. unfold iso_utc.
  assert (0 <= us / us_per_day < 3652059) as Hd by (unfold us_per_day in *; zlia).
  assert (0 <= us' / us_per_day < 3652059) as Hd' by (unfold us_per_day in *; zlia).
  pose proof (civil_year _ Hd) as Hy. pose proof (civil_year _ Hd') as Hy'.
  pose proof (civil_md (us / us_per_day)) as Hmd. pose proof (civil_md (us' / us_per_day)) as Hmd'.
  pose proof (civil_inj (us / us_per_day) (us' / us_per_day)) as Hinj.
  destruct (civil (us / us_per_day)) as [[y m] d]. destruct (civil (us' / us_per_day)) as [[y' m'] d'].
  cbn [fst snd] in *.
  intros [Ey H]%sapp_inj_len; [|by rewrite !dig_length]. cbn [String.append] in H. apply scons_inj in H.
  apply sapp_inj_len in H as [Em H]; [|by rewrite !dig_length]. cbn [String.append] in H. apply scons_inj in H.
  apply sapp_inj_len in H as [Ed H]; [|by rewrite !dig_length]. cbn [String.append] in H. apply scons_inj in H.
  apply iso_time_inj in H; [|unfold us_per_day; zlia..].
  apply dig_inj in Ey; [|cbn; lia..]. apply dig_inj in Em; [|cbn; lia..].
  apply dig_inj in Ed; [|cbn; lia..].
  rewrite Ey Em Ed in Hinj. specialize (Hinj eq_refl). unfold us_per_day in *. zlia.
Qed.

Example iso_epoch : iso_utc (62135596800 * 1000000) = "1970-01-01T00:00:00+00:00".
Proof. vm_compute. reflexivity. Qed.
Example iso_leap : iso_utc ((62135596800 + 1709210096) * 1000000 + 120) = "2024-02-29T12:34:56.000120+00:00".
Proof. vm_compute. reflexivity. Qed.
