(* ===== verification/PyRe.v ===== *)
(** * Regular expressions as the module [re] matches them

    The fragment of Python's [re] that the sources use: character classes,
    concatenation, alternation, greedy repetition, word boundaries and the
    anchors.  [rmatch] returns the positions where a match can end, in the
    order a backtracking matcher tries them, so that its first element is the
    match that Python reports; [matches] is the declarative meaning, and
    [rmatch_spec] says that the two agree. *)
From S2P Require Import Prelude PyStr.

Open Scope string_scope.

Inductive regex :=
| REps                          (* the empty pattern *)
| RChr (p : ascii → bool)       (* a literal character or a class *)
| RSeq (r1 r2 : regex)          (* r1 r2 *)
| RAlt (r1 r2 : regex)          (* r1|r2 *)
| RStar (r : regex)             (* r*, greedy *)
| RLazy (r : regex)             (* r*?, lazy *)
| RWordB                        (* \b *)
| RStart                        (* ^ *)
| REnd                          (* $ *).

(** A position in the subject: the character before it and the text after. *)
Definition pos : Type := option ascii * string.

Definition is_word (c : ascii) : bool :=
  is_digit c || is_lower c || is_upper c || Ascii.eqb c "_".

Definition at_word_boundary (q : pos) : bool :=
  let before := match q.1 with Some c => is_word c | None => false end in
  let after := match q.2 with String c _ => is_word c | "" => false end in
  xorb before after.

(** [$] without [re.MULTILINE]: at the end, or before a final newline. *)
Definition at_end (q : pos) : bool :=
  match q.2 with "" => true | String c "" => (code c =? 10)%Z | _ => false end.

(** [^] without [re.MULTILINE]. *)
Definition at_start (q : pos) : bool := match q.1 with None => true | Some _ => false end.

Section star.
Context (step : pos → list pos).
(** Greedy repetition: an iteration that consumes nothing is not repeated. *)
Fixpoint star_ends (fuel : nat) (q : pos) : list pos :=
  match fuel with
  | O => [q]
  | S fuel' =>
      (List.flat_map
         (λ q', if Nat.ltb (String.length q'.2) (String.length q.2)
                then star_ends fuel' q' else []) (step q)
       ++ [q])%list
  end.
(** Lazy repetition tries to stop before it goes on. *)
Fixpoint lazy_ends (fuel : nat) (q : pos) : list pos :=
  match fuel with
  | O => [q]
  | S fuel' =>
      q :: List.flat_map
             (λ q', if Nat.ltb (String.length q'.2) (String.length q.2)
                    then lazy_ends fuel' q' else []) (step q)
  end.
End star.

Fixpoint rmatch (r : regex) (q : pos) : list pos :=
  match r with
  | REps => [q]
  | RChr p => match q.2 with String c s => if p c then [(Some c, s)] else [] | "" => [] end
  | RSeq r1 r2 => List.flat_map (rmatch r2) (rmatch r1 q)
  | RAlt r1 r2 => (rmatch r1 q ++ rmatch r2 q)%list
  | RStar r => star_ends (rmatch r) (String.length q.2) q
  | RLazy r => lazy_ends (rmatch r) (String.length q.2) q
  | RWordB => if at_word_boundary q then [q] else []
  | RStart => if at_start q then [q] else []
  | REnd => if at_end q then [q] else []
  end.

(** ** Pattern syntax *)
Definition ci_char (ci : bool) (c : ascii) : regex :=
  RChr (λ x, if ci then Ascii.eqb (lower_char c) (lower_char x) else Ascii.eqb c x).
Definition ci_class (ci : bool) (p : ascii → bool) : regex :=
  RChr (λ x, if ci then p x || p (lower_char x) || p (upper_char x) else p x).

Definition ROpt (r : regex) : regex := RAlt r REps.
Fixpoint RRep (n : nat) (r : regex) : regex :=
  match n with O => REps | S n' => RSeq r (RRep n' r) end.
Fixpoint RUpto (k : nat) (r : regex) : regex :=
  match k with O => REps | S k' => ROpt (RSeq r (RUpto k' r)) end.
Fixpoint RLazyUpto (k : nat) (r : regex) : regex :=
  match k with O => REps | S k' => RAlt REps (RSeq r (RLazyUpto k' r)) end.

(** [\s], [\d], [\w] and the escaped punctuation *)
Definition escape_class (c : ascii) : ascii → bool :=
  if Ascii.eqb c "s" then is_space
  else if Ascii.eqb c "d" then is_digit
  else if Ascii.eqb c "w" then is_word
  else if Ascii.eqb c "S" then λ x, negb (is_space x)
  else Ascii.eqb c.

(** The items of a class up to its closing bracket. *)
Fixpoint p_class (fuel : nat) (s : string) : option ((ascii → bool) * string) :=
  match fuel with
  | O => None
  | S fuel' =>
      match s with
      | "" => None
      | String "]" s' => Some (λ _, false, s')
      | String "\" (String c s') =>
          match p_class fuel' s' with
          | Some (p, r) => Some (λ x, escape_class c x || p x, r) | None => None end
      | String a (String "-" (String b s')) =>
          if Ascii.eqb b "]" then Some (λ x, Ascii.eqb a x || Ascii.eqb "-" x, s')
          else match p_class fuel' s' with
               | Some (p, r) => Some (λ x, code_between (code a) (code b) x || p x, r)
               | None => None end
      | String a s' =>
          match p_class fuel' s' with
          | Some (p, r) => Some (λ x, Ascii.eqb a x || p x, r) | None => None end
      end
  end.

Fixpoint p_nat (acc : nat) (s : string) : nat * string :=
  match s with
  | String c s' => if is_digit c then p_nat (10 * acc + Z.to_nat (code c - 48)) s' else (acc, s)
  | "" => (acc, s)
  end.

(** The repetition operator after an atom, if there is one. *)
Definition p_post (r : regex) (s : string) : regex * string :=
  match s with
  | String "*" (String "?" s') => (RLazy r, s')
  | String "+" (String "?" s') => (RSeq r (RLazy r), s')
  | String "*" s' => (RStar r, s')
  | String "+" s' => (RSeq r (RStar r), s')
  | String "?" s' => (ROpt r, s')
  | String "{" s' =>
      let (n, s1) := p_nat 0 s' in
      match s1 with
      | String "}" s2 => (RRep n r, s2)
      | String "," (String "}" s2) => (RSeq (RRep n r) (RStar r), s2)
      | String "," s2 =>
          let (m, s3) := p_nat 0 s2 in
          match s3 with
          | String "}" (String "?" s4) => (RSeq (RRep n r) (RLazyUpto (m - n) r), s4)
          | String "}" s4 => (RSeq (RRep n r) (RUpto (m - n) r), s4)
          | _ => (r, s)
          end
      | _ => (r, s)
      end
  | _ => (r, s)
  end.

Fixpoint p_alt (fuel : nat) (ci : bool) (s : string) : option (regex * string) :=
  match fuel with
  | O => None
  | S fuel' =>
      match p_seq fuel' ci s with
      | Some (r, String "|" s') =>
          match p_alt fuel' ci s' with
          | Some (r', s'') => Some (RAlt r r', s'') | None => None end
      | x => x
      end
  end
with p_seq (fuel : nat) (ci : bool) (s : string) : option (regex * string) :=
  match fuel with
  | O => None
  | S fuel' =>
      match s with
      | "" | String ")" _ | String "|" _ => Some (REps, s)
      | _ =>
          match p_atom fuel' ci s with
          | Some (a, s1) =>
              let (a', s2) := p_post a s1 in
              match p_seq fuel' ci s2 with
              | Some (r, s3) => Some (RSeq a' r, s3) | None => None end
          | None => None
          end
      end
  end
with p_atom (fuel : nat) (ci : bool) (s : string) : option (regex * string) :=
  match fuel with
  | O => None
  | S fuel' =>
      match s with
      | String "(" (String "?" (String ":" s')) | String "(" s' =>
          match p_alt fuel' ci s' with Some (r, String ")" s'') => Some (r, s'') | _ => None end
      | String "^" s' => Some (RStart, s')
      | String "$" s' => Some (REnd, s')
      | String "." s' => Some (RChr (λ x, negb (code x =? 10)%Z), s')
      | String "[" (String "^" s') =>
          match p_class fuel' s' with
          | Some (p, r) => Some (ci_class ci (λ x, negb (p x)), r) | None => None end
      | String "[" s' =>
          match p_class fuel' s' with
          | Some (p, r) => Some (ci_class ci p, r) | None => None end
      | String "\" (String "b" s') => Some (RWordB, s')
      | String "\" (String c s') => Some (ci_class ci (escape_class c), s')
      | String c s' => Some (ci_char ci c, s')
      | "" => None
      end
  end.

(** [re.compile(pat)], or [re.compile(pat, re.IGNORECASE)] when [ci]; a
    pattern outside the fragment matches nothing ([re_supported] is false). *)
Definition parse_pattern (ci : bool) (pat : string) : option regex :=
  match p_alt (3 * String.length pat + 3) ci pat with Some (r, "") => Some r | _ => None end.
Definition re_supported (pat : string) : bool :=
  match parse_pattern false pat with Some _ => true | None => false end.
Definition re_compile (ci : bool) (pat : string) : regex :=
  default (RChr (λ _, false)) (parse_pattern ci pat).

(** [pattern.match(s) is not None] *)
Definition re_match (r : regex) (s : string) : bool :=
  match rmatch r (None, s) with [] => false | _ => true end.

(** The text consumed between two positions. *)
Definition consumed (s rest : string) : string :=
  String.substring 0 (String.length s - String.length rest) s.

(** [pattern.search(s)]: the leftmost match, [m.group(0)]. *)
Fixpoint search_from (r : regex) (prev : option ascii) (s : string) : option string :=
  match rmatch r (prev, s) with
  | q :: _ => Some (consumed s q.2)
  | [] => match s with "" => None | String c s' => search_from r (Some c) s' end
  end.
Definition re_search (r : regex) (s : string) : option string := search_from r None s.

Example re_group :
  map (re_match (re_compile false "^(?:minimum\s+|mandatory\s+)?up\s*front\s+margin(?:\s+rate)?$"))
    ["minimum upfront margin"; "up front  margin rate"; "upfront margins"; "mandatory upfront"]
  = [true; true; false; false].
Proof. vm_compute. reflexivity. Qed.
Example re_number :
  re_search (re_compile true "SEBI/[A-Z\-]+(?:/[A-Z\-]+)*/\d{4}(?:[-/]\d{2,4})?/\d+")
    "Ref: sebi/HO/MIRSD-PoD/P/CIR/2024/100 dated" = Some "sebi/HO/MIRSD-PoD/P/CIR/2024/100".
Proof. vm_compute. reflexivity. Qed.

(** [re.sub(r"[...]+", sep, s)] for a class given by [p]. *)
Fixpoint sub_runs_from (p : ascii → bool) (sep : string) (in_run : bool) (s : string) : string :=
  match s with
  | "" => ""
  | String c s' =>
      if p c then (if in_run then "" else sep) +:+ sub_runs_from p sep true s'
      else String c (sub_runs_from p sep false s')
  end.
Definition sub_runs (p : ascii → bool) (sep : string) : string → string := sub_runs_from p sep false.

(** ** Declarative meaning *)
Inductive matches : regex → pos → pos → Prop :=
| m_eps q : matches REps q q
| m_chr p c s x : p c = true → matches (RChr p) (x, String c s) (Some c, s)
| m_seq r1 r2 q1 q2 q3 : matches r1 q1 q2 → matches r2 q2 q3 → matches (RSeq r1 r2) q1 q3
| m_altl r1 r2 q q' : matches r1 q q' → matches (RAlt r1 r2) q q'
| m_altr r1 r2 q q' : matches r2 q q' → matches (RAlt r1 r2) q q'
| m_star0 r q : matches (RStar r) q q
| m_star1 r q1 q2 q3 : matches r q1 q2 → matches (RStar r) q2 q3 → matches (RStar r) q1 q3
| m_lazy r q q' : matches (RStar r) q q' → matches (RLazy r) q q'
| m_wordb q : at_word_boundary q = true → matches RWordB q q
| m_start q : at_start q = true → matches RStart q q
| m_end q : at_end q = true → matches REnd q q.

(** A match consumes a prefix of the subject; one that consumes nothing ends
    where it began. *)
Lemma matches_length r q q' :
  matches r q q' → (String.length q'.2 <= String.length q.2)%nat
    ∧ (String.length q'.2 = String.length q.2 → q' = q).
Proof.
  induction 1 as [q|p c s x Hp|r1 r2 q1 q2 q3 _ [L1 E1] _ [L2 E2]|r1 r2 q q' _ IH|r1 r2 q q' _ IH
    |r q|r q1 q2 q3 _ [L1 E1] _ [L2 E2]|r q q' _ IH|q Hq|q Hq|q Hq]; cbn; try done; try lia.
  - split; [lia|]. intros E. rewrite E2; [apply E1|]; lia.
  - split; [lia|]. intros E. rewrite E2; [apply E1|]; lia.
Qed.

Lemma star_ends_spec r (IH : ∀ q q', q' ∈ rmatch r q ↔ matches r q q') fuel q q' :
  (String.length q.2 <= fuel)%nat → q' ∈ star_ends (rmatch r) fuel q ↔ matches (RStar r) q q'.
Proof.
  revert q. induction fuel as [|fuel IHf]; intros q Hlen; cbn [star_ends].
  - rewrite list_elem_of_singleton. split; [intros ->; apply m_star0|].
    intros H. apply matches_length in H as [Hl He]. apply He. lia.
  - rewrite elem_of_app list_elem_of_singleton. split.
    + intros [H| ->]; [|apply m_star0].
      apply list_elem_of_In, in_flat_map in H as (q2 & Hq2 & H).
      apply list_elem_of_In, IH in Hq2. case_match eqn:E; [|done]. apply Nat.ltb_lt in E.
      apply list_elem_of_In, IHf in H; [|lia]. by eapply m_star1.
    + intros H. remember (RStar r) as rs eqn:Ers.
      induction H as [| | | | |r0 q0|r0 q1 q2 q3 H12 _ H23 IH23| | | |]; try done.
      { injection Ers as ->. by right. }
      injection Ers as ->. destruct (matches_length _ _ _ H12) as [Hl He].
      destruct (decide (String.length q2.2 = String.length q1.2)) as [Eq|Ne].
      { rewrite (He Eq) in IH23. by apply IH23. }
      left. apply list_elem_of_In, in_flat_map. exists q2. rewrite -list_elem_of_In IH. split; [done|].
      replace (_ <? _)%nat with true by (symmetry; apply Nat.ltb_lt; lia).
      apply list_elem_of_In, IHf; [lia|done].
Qed.

Lemma lazy_ends_elem step fuel q q' : q' ∈ lazy_ends step fuel q ↔ q' ∈ star_ends step fuel q.
Proof.
  revert q. induction fuel as [|fuel IH]; intros q; cbn [lazy_ends star_ends]; [done|].
  rewrite elem_of_cons elem_of_app list_elem_of_singleton or_comm.
  rewrite !list_elem_of_In !in_flat_map. apply or_iff_compat_r.
  split; intros (q2 & Hin & H); exists q2; (split; [done|]); case_match; try done;
    by apply list_elem_of_In, IH, list_elem_of_In.
Qed.

Lemma guard_spec (b : bool) (q q' : pos) (P : Prop) :
  (P ↔ b = true ∧ q' = q) → q' ∈ (if b then [q] else []) ↔ P.
Proof.
  intros ->. destruct b; [rewrite list_elem_of_singleton; naive_solver|].
  split; [by intros ?%not_elem_of_nil|naive_solver].
Qed.

Theorem rmatch_spec r q q' : q' ∈ rmatch r q ↔ matches r q q'.
Proof.
  revert q q'. induction r as [|p|r1 IH1 r2 IH2|r1 IH1 r2 IH2|r IH|r IH| | |]; intros q q'; cbn [rmatch].
  - rewrite list_elem_of_singleton. split; [intros ->; constructor|by inversion 1].
  - destruct q as [x [|c s]]; cbn; [split; [by intros ?%not_elem_of_nil|inversion 1]|].
    destruct (p c) eqn:E; [rewrite list_elem_of_singleton|]; split.
    + intros ->. by constructor.
    + by inversion 1.
    + by intros ?%not_elem_of_nil.
    + inversion 1. congruence.
  - rewrite list_elem_of_In in_flat_map. setoid_rewrite <-list_elem_of_In. split.
    + intros (q2 & H1 & H2). apply IH1 in H1. apply IH2 in H2. by eapply m_seq.
    + inversion 1; subst. exists q2. by rewrite IH1 IH2.
  - rewrite elem_of_app IH1 IH2. split; [intros [?|?]; [by apply m_altl|by apply m_altr]|].
    inversion 1; auto.
  - by apply star_ends_spec.
  - rewrite lazy_ends_elem star_ends_spec //. split; [by constructor|by inversion 1].
  - apply guard_spec. split; [by inversion 1|intros [? ->]; by constructor].
  - apply guard_spec. split; [by inversion 1|intros [? ->]; by constructor].
  - apply guard_spec. split; [by inversion 1|intros [? ->]; by constructor].
Qed.

(** ** Ends and texts *)
Lemma matches_suffix r q q' : matches r q q' → ∃ t, q.2 = t +:+ q'.2.
Proof.
  induction 1 as [q|p c s x Hp|r1 r2 q1 q2 q3 _ [t1 E1] _ [t2 E2]|r1 r2 q q' _ IH|r1 r2 q q' _ IH
    |r q|r q1 q2 q3 _ [t1 E1] _ [t2 E2]|r q q' _ IH|q Hq|q Hq|q Hq]; try done; try by exists "".
  - by exists (String c "").
  - exists (t1 +:+ t2). by rewrite E1 E2 sapp_assoc.
  - exists (t1 +:+ t2). by rewrite E1 E2 sapp_assoc.
Qed.

Lemma consumed_app a rest : consumed (a +:+ rest) rest = a.
Proof.
  unfold consumed. rewrite slength_app. replace (_ + _ - _)%nat with (String.length a) by lia.
  induction a as [|c a IH]; cbn; [by destruct rest|]. by rewrite IH.
Qed.

Lemma rmatch_consumed r q q' : q' ∈ rmatch r q → q.2 = consumed q.2 q'.2 +:+ q'.2.
Proof. intros H%rmatch_spec%matches_suffix. destruct H as [t ->]. by rewrite consumed_app. Qed.
