(* ===== verification/PyText.v ===== *)
(** * Lengths, slices and capturing groups of Python text

    [len] and slicing count code points: a byte of the UTF-8 representation
    that is not a continuation byte starts one.  [ink] is what is left of a
    text without its blanks.  A pattern with named groups is a sequence of
    parts, matched in the order of the backtracking matcher of [PyRe].  At the
    end, [finditer], [findall] and [sub]: all matches of a pattern in a text. *)
From S2P Require Import Prelude PyStr PyFloat PyRe.

Open Scope string_scope.

(** ** Code points *)
Definition is_lead (c : ascii) : bool := negb (code_between 128 191 c).

Fixpoint ulen (s : string) : nat :=
  match s with "" => 0 | String c s' => (if is_lead c then 1 else 0) + ulen s' end%nat.

(** [s[:n]] and [s[n:]] for [n >= 0] *)
Fixpoint utake (n : nat) (s : string) : string :=
  match s with
  | "" => ""
  | String c s' =>
      if is_lead c then match n with O => "" | S n' => String c (utake n' s') end
      else String c (utake n s')
  end.
Fixpoint udrop (n : nat) (s : string) : string :=
  match s with
  | "" => ""
  | String c s' =>
      if is_lead c then match n with O => s | S n' => udrop n' s' end else udrop n s'
  end.

(** [len(s)] *)
Definition py_len (s : string) : Z := Z.of_nat (ulen s).

(** [s[i:]]; a negative index counts from the end. *)
Definition slice_from (i : Z) (s : string) : string :=
  udrop (Z.to_nat (if (i <? 0)%Z then (py_len s + i)%Z else i)) s.

Lemma ulen_app a b : ulen (a +:+ b) = (ulen a + ulen b)%nat.
Proof. induction a as [|c a IH]; simpl; [done|]. rewrite IH. lia. Qed.

Lemma utake_udrop n s : utake n s +:+ udrop n s = s.
Proof.
  revert n. induction s as [|c s IH]; intros n; simpl; [done|].
  destruct (is_lead c); [|by rewrite /= IH]. destruct n; [done|]. by rewrite /= IH.
Qed.

Lemma ulen_utake n s : (ulen (utake n s) <= n)%nat.
Proof.
  revert n. induction s as [|c s IH]; intros n; simpl; [lia|].
  destruct (is_lead c) eqn:E; [destruct n; simpl|simpl]; rewrite ?E; [lia|pose proof (IH n); lia|apply IH].
Qed.

Lemma ulen_udrop n s : ulen (udrop n s) = (ulen s - n)%nat.
Proof.
  revert n. induction s as [|c s IH]; intros n; simpl; [done|].
  destruct (is_lead c) eqn:E; [|by rewrite IH].
  destruct n; simpl; [by rewrite E|]. rewrite IH. lia.
Qed.

Lemma py_len_nonneg s : (0 <= py_len s)%Z.
Proof. unfold py_len. lia. Qed.

Lemma py_len_app a b : py_len (a +:+ b) = (py_len a + py_len b)%Z.
Proof. unfold py_len. rewrite ulen_app. lia. Qed.

(** ** Blanks *)
Fixpoint ink (s : string) : list ascii :=
  match s with "" => [] | String c s' => if is_space c then ink s' else c :: ink s' end.

Lemma ink_app a b : ink (a +:+ b) = (ink a ++ ink b)%list.
Proof. induction a as [|c a IH]; simpl; [done|]. destruct (is_space c); by rewrite /= IH. Qed.

Lemma ink_strip s : ink (strip s) = ink s.
Proof.
  unfold strip, strip_by. transitivity (ink (lstrip_by is_space s)).
  - induction (lstrip_by is_space s) as [|c t IH]; simpl; [done|].
    destruct (rstrip_by is_space t) as [|d r]; simpl in *; destruct (is_space c) eqn:E; simpl;
      rewrite ?E; simpl; by rewrite -IH.
  - induction s as [|c s IH]; simpl; [done|]. destruct (is_space c) eqn:E; simpl; [done|]. by rewrite E.
Qed.

Lemma ulen_strip s : (ulen (strip s) <= ulen s)%nat.
Proof.
  unfold strip, strip_by. transitivity (ulen (lstrip_by is_space s)).
  - induction (lstrip_by is_space s) as [|c t IH]; simpl; [done|].
    destruct (rstrip_by is_space t) as [|d r]; simpl in *; [|lia].
    destruct (is_space c); simpl; lia.
  - induction s as [|c s IH]; simpl; [done|]. destruct (is_space c); simpl; lia.
Qed.

Lemma strip_empty s : strip s = "" ↔ ink s = [].
Proof.
  rewrite -ink_strip. split; [by intros ->|].
  unfold strip, strip_by. induction (lstrip_by is_space s) as [|c t IH]; simpl; [done|].
  destruct (rstrip_by is_space t) as [|d r]; simpl in *.
  - destruct (is_space c) eqn:E; simpl; [done|]. by rewrite E.
  - destruct (is_space c); [|done]. intros H. by apply IH in H.
Qed.

(** ** Named groups

    A pattern with groups is a sequence of plain parts, groups [(?P<name>...)]
    and optional sequences [(?:...)?] that hold groups themselves. *)
Inductive part :=
| Plain (r : regex)
| Named (name : string) (r : regex)
| Optional (l : list part).

(** The parts up to the end of the pattern or a closing parenthesis. *)
Fixpoint p_parts (fuel : nat) (ci : bool) (s : string) : option (list part * string) :=
  match fuel with
  | O => None
  | S fuel' =>
      let inner := (3 * String.length s + 3)%nat in
      if String.eqb s "" || startswith ")" s then Some ([], s)
      else if startswith "(?P<" s then
        let name := before ">" (sdrop 4 s) in
        match p_alt inner ci (sdrop (5 + String.length name) s) with
        | Some (r, String ")" s') =>
            match p_parts fuel' ci s' with
            | Some (l, rest) => Some (Named name r :: l, rest)
            | None => None
            end
        | _ => None
        end
      else if startswith "(?:" s && contains "(?P<" (before ")" s) then
        match p_parts fuel' ci (sdrop 3 s) with
        | Some (opt, String ")" (String "?" s')) =>
            match p_parts fuel' ci s' with
            | Some (l, rest) => Some (Optional opt :: l, rest)
            | None => None
            end
        | _ => None
        end
      else
        match p_atom inner ci s with
        | Some (a, s1) =>
            let (a', s2) := p_post a s1 in
            match p_parts fuel' ci s2 with
            | Some (l, rest) => Some (Plain a' :: l, rest)
            | None => None
            end
        | None => None
        end
  end.
Definition re_parts (ci : bool) (pat : string) : option (list part) :=
  match p_parts (S (String.length pat)) ci pat with Some (l, "") => Some l | _ => None end.

Definition groups : Type := list (string * string).

(** The ends of the matches with the texts of the groups, in matching order. *)
Fixpoint part_match (p : part) (q : pos) (g : groups) : list (pos * groups) :=
  match p with
  | Plain r => map (λ q', (q', g)) (rmatch r q)
  | Named name r => map (λ q', (q', (g ++ [(name, consumed q.2 q'.2)])%list)) (rmatch r q)
  | Optional l =>
      ((fix go l q g :=
          match l with
          | [] => [(q, g)]
          | p :: l' => List.flat_map (λ x, go l' x.1 x.2) (part_match p q g)
          end) l q g ++ [(q, g)])%list
  end.
Fixpoint parts_match (l : list part) (q : pos) (g : groups) : list (pos * groups) :=
  match l with
  | [] => [(q, g)]
  | p :: l' => List.flat_map (λ x, parts_match l' x.1 x.2) (part_match p q g)
  end.

(** [pattern.match(s)]: the text after the match and its groups. *)
Definition match_groups (l : list part) (s : string) : option (string * groups) :=
  match parts_match l (None, s) [] with
  | (q, g) :: _ => Some (q.2, g)
  | [] => None
  end.

(** The regular expression without its groups. *)
Fixpoint plain_part (p : part) : regex :=
  match p with
  | Plain r | Named _ r => r
  | Optional l => ROpt ((fix go l := match l with [] => REps | p :: l' => RSeq (plain_part p) (go l') end) l)
  end.
Fixpoint plain_parts (l : list part) : regex :=
  match l with [] => REps | p :: l' => RSeq (plain_part p) (plain_parts l') end.

Lemma optional_match l q g : part_match (Optional l) q g = (parts_match l q g ++ [(q, g)])%list.
Proof. done. Qed.

Lemma optional_plain l : plain_part (Optional l) = ROpt (plain_parts l).
Proof. done. Qed.

Lemma flat_map_first {B C} (h : B → list B) (k : B → C → list (B * C)) (l : list (B * C)) :
  (∀ b c, map fst (k b c) = h b) →
  map fst (List.flat_map (λ x, k x.1 x.2) l) = List.flat_map h (map fst l).
Proof.
  intros H. induction l as [|[b c] l IH]; [done|]. cbn [List.flat_map map fst snd].
  by rewrite map_app H IH.
Qed.

Lemma part_match_plain : ∀ p q g, map fst (part_match p q g) = rmatch (plain_part p) q.
Proof.
  fix IH 1. intros [r|n r|l] q g.
  - cbn [part_match plain_part]. rewrite map_map. apply map_id.
  - cbn [part_match plain_part]. rewrite map_map. apply map_id.
  - rewrite optional_match optional_plain map_app. cbn [ROpt rmatch map fst]. f_equal. revert q g.
    induction l as [|p l IHl]; intros q g; [done|]. cbn [parts_match plain_parts rmatch].
    rewrite (flat_map_first (rmatch (plain_parts l)) (λ q g, parts_match l q g)); [|apply IHl]. by rewrite IH.
Qed.

(** Groups do not change what is matched: the ends are those of the plain
    expression, in the same order. *)
Lemma parts_match_plain l q g : map fst (parts_match l q g) = rmatch (plain_parts l) q.
Proof.
  revert q g. induction l as [|p l IHl]; intros q g; [done|]. cbn [parts_match plain_parts rmatch].
  rewrite (flat_map_first (rmatch (plain_parts l)) (λ q g, parts_match l q g)); [|apply IHl].
  by rewrite part_match_plain.
Qed.

(** * [finditer], [sub] and searches with groups of the module [re]

    For patterns that match no empty text. *)

Open Scope string_scope.

(** ** [finditer] and [sub] *)
Inductive piece := Kept (c : ascii) | Match (m : string).

(** The first end of a match that consumes something. *)
Definition first_match (r : regex) (prev : option ascii) (s : string) : option pos :=
  List.find (λ q, Nat.ltb (String.length q.2) (String.length s)) (rmatch r (prev, s)).

(** The subject cut into matches and the characters between them. *)
Fixpoint pieces (fuel : nat) (r : regex) (prev : option ascii) (s : string) : list piece :=
  match fuel, s with
  | S fuel', String c s' =>
      match first_match r prev s with
      | Some q => Match (consumed s q.2) :: pieces fuel' r q.1 q.2
      | None => Kept c :: pieces fuel' r (Some c) s'
      end
  | _, _ => []
  end.

Definition piece_match (p : piece) : option string := match p with Match m => Some m | Kept _ => None end.
Definition piece_text (f : string → string) (p : piece) : string :=
  match p with Match m => f m | Kept c => String c "" end.

(** [[m.group(0) for m in r.finditer(s)]] and [r.sub(f, s)] *)
Definition findall (r : regex) (s : string) : list string :=
  omap piece_match (pieces (String.length s) r None s).
Definition re_sub (r : regex) (f : string → string) (s : string) : string :=
  join "" (map (piece_text f) (pieces (String.length s) r None s)).

(** [r.search(s)] of a pattern with groups: the text of the leftmost match, its
    groups and the text before it. *)
Fixpoint search_groups_from (l : list part) (prev : option ascii) (s : string) : option (string * groups * string) :=
  match parts_match l (prev, s) [] with
  | (q, g) :: _ => Some (consumed s q.2, g, "")
  | [] =>
      match s with
      | "" => None
      | String c s' => (λ '(m, g, pre), (m, g, String c pre)) <$> search_groups_from l (Some c) s'
      end
  end.
Definition search_groups (l : list part) (s : string) : option (string * groups * string) := search_groups_from l None s.

(** ** The pieces are the text *)
Lemma first_match_spec r prev s q :
  first_match r prev s = Some q → s = consumed s q.2 +:+ q.2 ∧ (String.length q.2 < String.length s)%nat.
Proof.
  intros [H1 H2%Nat.ltb_lt]%find_some. split; [|done]. apply list_elem_of_In in H1. by apply rmatch_consumed in H1.
Qed.

Lemma join_empty_cons x l : join "" (x :: l) = x +:+ join "" l.
Proof. destruct l; cbn; [by rewrite sapp_nil_r|done]. Qed.

Lemma pieces_text fuel r prev s :
  (String.length s <= fuel)%nat → join "" (map (piece_text (λ m, m)) (pieces fuel r prev s)) = s.
Proof.
  revert prev s. induction fuel as [|fuel IH]; intros prev [|c s] Hf; cbn [String.length] in Hf; try done; [lia|].
  cbn [pieces]. destruct (first_match r prev (String c s)) as [q|] eqn:E; cbn [map piece_text]; rewrite join_empty_cons.
  - apply first_match_spec in E as [E Hl]. cbn [String.length] in Hl. rewrite IH; [by rewrite -E|lia].
  - rewrite IH; [done|lia].
Qed.

(** What [sub] keeps when the replacement contains what it replaces. *)
Fixpoint chars (s : string) : list ascii := match s with "" => [] | String c s' => c :: chars s' end.
Lemma chars_app a b : chars (a +:+ b) = (chars a ++ chars b)%list.
Proof. induction a as [|c a IH]; cbn; [done|]. by rewrite IH. Qed.

Lemma re_sub_keeps r f s :
  (∀ m, sublist (chars m) (chars (f m))) → sublist (chars s) (chars (re_sub r f s)).
Proof.
  intros Hf. unfold re_sub. rewrite -{1}(pieces_text (String.length s) r None s); [|done].
  induction (pieces _ _ _ s) as [|p l IH]; [done|]. cbn [map]. rewrite !join_empty_cons !chars_app.
  apply sublist_app; [|done]. by destruct p as [c|m]; cbn; [|apply Hf].
Qed.

(** Without a match [sub] changes nothing. *)
Lemma re_sub_none r f s : findall r s = [] → re_sub r f s = s.
Proof.
  intros H. transitivity (join "" (map (piece_text (λ m, m)) (pieces (String.length s) r None s))); [|by apply pieces_text].
  revert H. unfold re_sub, findall. generalize (pieces (String.length s) r None s). intros l.
  induction l as [|[c|m] l IH]; [done| |done]. intros H. cbn [map piece_text]. rewrite !join_empty_cons. by rewrite IH.
Qed.
