(* ===== verification/Difflib.v ===== *)
(** * [difflib.SequenceMatcher] of the standard library

    The block matcher behind the quote checks, on texts as lists of code
    points: [find_longest_match] with the autojunk heuristic (in a text of 200
    or more characters, one that makes up more than one percent of it starts no
    match), and [ratio] by recursion on both sides of the longest block. *)
From S2P Require Import Prelude PyStr PyFloat PyText.
From Stdlib Require Import SpecFloat.

Open Scope string_scope.

(** The code points of a text, each as a text. *)
Fixpoint code_points_from (fuel : nat) (s : string) : list string :=
  match fuel, s with
  | S fuel', String _ _ => utake 1 s :: code_points_from fuel' (udrop 1 s)
  | _, _ => []
  end.
Definition code_points (s : string) : list string := code_points_from (String.length s) s.

Section matcher.
Context {A : Type} `{EqDecision A}.
Implicit Types (a b : list A) (popular : A → bool).

Definition occurrences (x : A) b : nat := length (List.filter (λ y, bool_decide (x = y)) b).

(** [bpopular] *)
Definition popular_in b (x : A) : bool :=
  Nat.leb 200 (length b) && Nat.ltb (length b / 100 + 1) (occurrences x b).

(** The lengths of the blocks that end at one character of [a] and each of [b]. *)
Definition row_step popular (x : A) (prev : list nat) b : list nat :=
  zip_with (λ p y, if bool_decide (x = y) && negb (popular y) then S p else O) (O :: prev) b.

(** The best block so far, by its last positions and its size; ties keep the first. *)
Fixpoint best_in_row (i j : nat) (row : list nat) (best : nat * nat * nat) : nat * nat * nat :=
  match row with
  | [] => best
  | k :: row' => best_in_row i (S j) row' (if Nat.ltb best.2 k then (i, j, k) else best)
  end.
Fixpoint best_from popular (i : nat) a b (prev : list nat) (best : nat * nat * nat) : nat * nat * nat :=
  match a with
  | [] => best
  | x :: a' => let row := row_step popular x prev b in best_from popular (S i) a' b row (best_in_row i 0 row best)
  end.

(** How far two lists agree from their heads. *)
Fixpoint agree a b : nat :=
  match a, b with
  | x :: a', y :: b' => if bool_decide (x = y) then S (agree a' b') else O
  | _, _ => O
  end.

(** [find_longest_match]: where the block starts in [a] and in [b], and its size. *)
Definition find_longest_match popular a b : nat * nat * nat :=
  let '(ei, ej, k) := best_from popular 0 a b (replicate (length b) O) (O, O, O) in
  let i := (S ei - k)%nat in
  let j := (S ej - k)%nat in
  let '(i, j) := if Nat.eqb k 0 then (O, O) else (i, j) in
  let back := agree (rev (take i a)) (rev (take j b)) in
  let '(i, j, k) := ((i - back)%nat, (j - back)%nat, (k + back)%nat) in
  (i, j, (k + agree (drop (i + k) a) (drop (j + k) b))%nat).

(** The size of all matching blocks: the longest one and those on either side. *)
Fixpoint matched (fuel : nat) popular a b : nat :=
  match fuel with
  | O => O
  | S fuel' =>
      let '(i, j, k) := find_longest_match popular a b in
      match k with
      | O => O
      | _ => (k + matched fuel' popular (take i a) (take j b)
              + matched fuel' popular (drop (i + k) a) (drop (j + k) b))%nat
      end
  end.

(** [SequenceMatcher(None, a, b).ratio()] *)
Definition seq_ratio a b : spec_float :=
  let m := Z.of_nat (matched (S (length a)) (popular_in b) a b) in
  let n := Z.of_nat (length a + length b) in
  if (n =? 0)%Z then float_of_Z 1
  else float_div (float_mul (float_of_Z 2) (float_of_Z m)) (float_of_Z n).

(** A common block: [k] equal characters at [i] of [a] and [j] of [b]. *)
Definition block a b (i j k : nat) : Prop :=
  (i + k <= length a)%nat ∧ (j + k <= length b)%nat ∧ take k (drop i a) = take k (drop j b).

Lemma block_nil a b i j : (i <= length a)%nat → (j <= length b)%nat → block a b i j 0.
Proof. intros. split_and!; [lia|lia|done]. Qed.

(** [k] equal characters that end at [i] and [j]. *)
Definition ends a b (i j k : nat) : Prop :=
  (k <= S i)%nat ∧ (k <= S j)%nat ∧ ∀ t, (t < k)%nat → ∃ x, a !! (i - t)%nat = Some x ∧ b !! (j - t)%nat = Some x.

Lemma ends_block a b i j k : ends a b i j (S k) → block a b (i - k) (j - k) (S k).
Proof.
  intros (Hi & Hj & H). destruct (H O ltac:(lia)) as (x0 & Ha & Hb).
  rewrite ->Nat.sub_0_r in Ha, Hb. apply lookup_lt_Some in Ha, Hb. split_and!; [lia|lia|].
  apply list_eq. intros n. destruct (decide (n < S k)%nat) as [Hn|Hn].
  - rewrite !lookup_take_lt ?lookup_drop; [|lia..]. destruct (H (k - n)%nat ltac:(lia)) as (x & E1 & E2).
    replace (i - k + n)%nat with (i - (k - n))%nat by lia. replace (j - k + n)%nat with (j - (k - n))%nat by lia. congruence.
  - rewrite !lookup_take_ge; [done|lia..].
Qed.

Definition good_row a b (i : nat) (row : list nat) : Prop := ∀ j k, row !! j = Some (S k) → ends a b i j (S k).
Definition good_best a b (best : nat * nat * nat) : Prop :=
  match best with (i, j, k) => k = O ∨ ends a b i j k end.

Lemma row_step_good popular a b i x prev :
  a !! i = Some x → (∀ i', i = S i' → good_row a b i' prev) → (i = O → ∀ j k, prev !! j ≠ Some (S k)) →
  good_row a b i (row_step popular x prev b).
Proof.
  intros Hx Hprev H0 j k Hk. unfold row_step in Hk. apply lookup_zip_with_Some in Hk as (p & y & Hk & Hp & Hy).
  destruct (bool_decide (x = y) && _) eqn:E; [|done]. apply andb_prop in E as [->%bool_decide_eq_true _]. injection Hk as ->.
  assert (∃ x, a !! i = Some x ∧ b !! j = Some x) as Hhead by by exists y.
  destruct p as [|p]; [split_and!; [lia|lia|]; intros t Ht; replace t with O by lia; by rewrite !Nat.sub_0_r|].
  destruct j as [|j]; [done|]. cbn in Hp. destruct i as [|i']; [by destruct (H0 eq_refl j p)|].
  destruct (Hprev i' eq_refl j p Hp) as (Hi & Hj & H). split_and!; [lia|lia|]. intros [|t] Ht; [by rewrite !Nat.sub_0_r|].
  apply (H t). lia.
Qed.

Lemma best_in_row_good a b i row best :
  (∀ j k, row !! j = Some (S k) → ends a b i j (S k)) → good_best a b best → good_best a b (best_in_row i 0 row best).
Proof.
  intros Hrow. assert (∀ j0 row' best, (∀ j k, row' !! j = Some (S k) → ends a b i (j0 + j) (S k)) →
    good_best a b best → good_best a b (best_in_row i j0 row' best)) as H; [|by apply (H O row)].
  intros j0 row'. revert j0. induction row' as [|k row' IH]; intros j0 best0 Hr Hb; cbn [best_in_row]; [done|].
  apply IH.
  - intros j k' Hk. replace (S j0 + j)%nat with (j0 + S j)%nat by lia. by apply Hr.
  - destruct (Nat.ltb best0.2 k) eqn:E; [|done]. apply Nat.ltb_lt in E. destruct k as [|k]; [lia|].
    right. rewrite -(Nat.add_0_r j0). by apply (Hr O k).
Qed.

Lemma best_from_good popular a b : ∀ rest i prev best,
  (∀ n, rest !! n = a !! (i + n)%nat) →
  (∀ i', i = S i' → good_row a b i' prev) → (i = O → ∀ j k, prev !! j ≠ Some (S k)) →
  good_best a b best → good_best a b (best_from popular i rest b prev best).
Proof.
  induction rest as [|x rest IH]; intros i prev best Hrest Hprev H0 Hb; cbn [best_from]; [done|].
  assert (good_row a b i (row_step popular x prev b)) as Hrow.
  { apply row_step_good; [|done..]. by rewrite -(Nat.add_0_r i) -Hrest. }
  apply IH.
  - intros n. replace (S i + n)%nat with (i + S n)%nat by lia. by rewrite -Hrest.
  - by intros i' [= ->].
  - done.
  - by apply best_in_row_good.
Qed.

Lemma agree_spec a b : take (agree a b) a = take (agree a b) b ∧ (agree a b <= length a)%nat ∧ (agree a b <= length b)%nat.
Proof.
  revert b. induction a as [|x a IH]; intros [|y b]; cbn; try done; try lia; [split_and!; lia || done..|].
  case_bool_decide as E; [|cbn; split_and!; lia || done]. subst y. destruct (IH b) as (H1 & H2 & H3). cbn. rewrite H1.
  split_and!; [done|lia|lia].
Qed.

Lemma block_right a b i j k :
  block a b i j k → block a b i j (k + agree (drop (i + k) a) (drop (j + k) b)).
Proof.
  intros (Hi & Hj & H). destruct (agree_spec (drop (i + k) a) (drop (j + k) b)) as (E & La & Lb).
  rewrite ->length_drop in La, Lb. split_and!; [lia|lia|].
  rewrite -!take_take_drop H !drop_drop. by rewrite E.
Qed.

Lemma block_left a b i j k :
  block a b i j k →
  let back := agree (rev (take i a)) (rev (take j b)) in block a b (i - back) (j - back) (k + back).
Proof.
  intros (Hi & Hj & H) back. destruct (agree_spec (rev (take i a)) (rev (take j b))) as (E & La & Lb).
  fold back in E, La, Lb. rewrite ->length_rev, length_take in La, Lb. split_and!; [lia|lia|].
  rewrite (Nat.add_comm k). rewrite -!take_take_drop !drop_drop.
  replace (i - back + back)%nat with i by lia. replace (j - back + back)%nat with j by lia. f_equal; [|done].
  rewrite !take_drop_commute. replace (i - back + back)%nat with i by lia. replace (j - back + back)%nat with j by lia.
  rewrite ->!firstn_rev in E. apply (f_equal (@rev A)) in E. rewrite !rev_involutive in E.
  rewrite ->!length_take, ->!Nat.min_l in E by lia. exact E.
Qed.

(** The block that is reported is a common block of the two texts. *)
Lemma longest_match_block popular a b i j k :
  find_longest_match popular a b = (i, j, k) → block a b i j k.
Proof.
  unfold find_longest_match.
  assert (good_best a b (best_from popular 0 a b (replicate (length b) O) (O, O, O))) as Hb.
  { apply best_from_good; [done|done| |by left]. intros _ j' k' [? _]%lookup_replicate. done. }
  destruct (best_from popular 0 a b (replicate (length b) O) (O, O, O)) as [[ei ej] k0]. cbn in Hb.
  assert (∃ i0 j0, (if Nat.eqb k0 0 then (O, O) else ((S ei - k0)%nat, (S ej - k0)%nat)) = (i0, j0) ∧ block a b i0 j0 k0)
    as (i0 & j0 & -> & H0).
  { destruct k0 as [|k0]; [exists O, O; split; [done|apply block_nil; lia]|].
    destruct Hb as [?|Hb]; [done|]. do 2 eexists. split; [done|].
    replace (S ei - S k0)%nat with (ei - k0)%nat by lia. replace (S ej - S k0)%nat with (ej - k0)%nat by lia.
    by apply ends_block. }
  intros [= <- <- <-]. apply block_right. exact (block_left _ _ _ _ _ H0).
Qed.

(** No more matches than the shorter text has characters. *)
Lemma matched_bound fuel popular a b : (matched fuel popular a b <= length a `min` length b)%nat.
Proof.
  revert a b. induction fuel as [|fuel IH]; intros a b; cbn [matched]; [lia|].
  destruct (find_longest_match popular a b) as [[i j] k] eqn:E. apply longest_match_block in E as (Hi & Hj & _).
  destruct k as [|k]; [lia|]. pose proof (IH (take i a) (take j b)) as H1.
  pose proof (IH (drop (i + S k) a) (drop (j + S k) b)) as H2. rewrite ->!length_take in H1. rewrite ->!length_drop in H2. lia.
Qed.
End matcher.

Example ratio_examples :
  map float_repr [seq_ratio (code_points "abcd") (code_points "bcde"); seq_ratio (code_points "") (code_points "");
                  seq_ratio (code_points "margin of 20%") (code_points "margins of 20 %")]
  = ["0.75"; "1.0"; "0.9285714285714286"]
  ∧ find_longest_match (λ _, false) (code_points "xxmargin") (code_points "a margin") = (2%nat, 2%nat, 6%nat).
Proof. vm_compute. done. Qed.

Example autojunk_examples :
  let b := code_points (join "" (replicate 70 "ab ") +:+ "margin of 20%") in
  map (λ a, (find_longest_match (popular_in b) (code_points a) b, float_repr (seq_ratio (code_points a) b)))
    ["ab margin of 20%"; "ab ab"; "b margin 20%"]
  = [((0, 207, 16)%nat, "0.13389121338912133"); ((0, 0, 5)%nat, "0.043859649122807015");
     ((0, 208, 9)%nat, "0.10212765957446808")].
Proof. vm_compute. done. Qed.
