(* ===== verification/Facts.v ===== *)
(** * The canonical fact taxonomy

    [src/app/regulatory/facts.py]: the controlled vocabulary of executable
    fact identifiers, the normalisation of metric names and units, the
    resolution of a metric to a canonical fact and the digest of a rule's
    thresholds. *)
From S2P Require Import Prelude PyStr PyFloat Sha256 Json PyRe.

Open Scope string_scope.

Inductive FactDataType :=
| PERCENTAGE | CURRENCY | NUMBER | DURATION_DAYS | DURATION_HOURS | BOOLEAN | RATIO.

Inductive FactValidationStatus := VALID | MISSING_MAPPING | WRONG_UNIT | WRONG_THRESHOLD.

#[export] Instance FactValidationStatus_eq_dec : EqDecision FactValidationStatus.
Proof. solve_decision. Defined.

Record CanonicalFact := Canonical
  { identifier : string
  ; display_name : string
  ; description : string
  ; data_type : FactDataType
  ; allowed_units : list string
  ; synonyms : list string
  ; min_value : option spec_float
  ; max_value : option spec_float
  ; regex_patterns : list string }.

(** ** Normalisation *)
Definition alnum (c : ascii) : bool := is_lower c || is_digit c.

Definition normalize_metric_text (text : string) : string :=
  if String.eqb text "" then ""
  else
    let cleaned := lower (strip text) in
    let cleaned := replace_char "/" " " (replace_char "_" " " (replace_char "-" " " cleaned)) in
    let cleaned := sub_runs (λ c, negb (alnum c || is_space c)) " " cleaned in
    strip (sub_runs is_space " " cleaned).

(** [x in (...)] *)
Definition str_in (x : string) (l : list string) : bool := existsb (String.eqb x) l.

Definition normalize_unit (unit_ : string) : string :=
  if String.eqb unit_ "" then ""
  else
    let u := lower (strip unit_) in
    if str_in u ["%"; "pct"; "percent"; "per cent"; "percentage"] then "%"
    else if str_in u ["day"; "days"] then "days"
    else if str_in u ["hour"; "hours"; "hr"; "hrs"] then "hours"
    else if str_in u ["month"; "months"] then "months"
    else if str_in u ["week"; "weeks"] then "weeks"
    else if str_in u ["inr"; "rs"; "rs."; "₹"; "rupees"] then "inr"
    else if str_in u ["inr crore"; "crore"; "crores"; "cr"] then "inr crore"
    else if str_in u ["inr lakh"; "lakh"; "lakhs"] then "inr lakh"
    else u.

(** ** The canonical facts *)
Definition upfront_margin_pct : CanonicalFact :=
  {| identifier := "upfront_margin_pct";
     display_name := "Upfront Margin Percentage";
     description :=
       "Minimum upfront margin percentage required to be collected from clients prior to order execution.";
     data_type := PERCENTAGE;
     allowed_units :=
       ["%"; "pct"; "percent"; "per cent"; "percentage"];
     min_value := Some (float_of_Z 0);
     max_value := Some (float_of_Z 100);
     synonyms :=
       ["upfront margin"; "minimum upfront margin"; "upfront margin percentage";
        "up front margin"; "initial margin"; "minimum initial margin";
        "upfront margin requirement"; "margin upfront"; "mandatory upfront margin";
        "minimum upfront margin required"; "upfront margin rate"; "margin";
        "minimum margin"; "upfront margin collection"; "client upfront margin"];
     regex_patterns :=
       ["^(?:minimum\s+|mandatory\s+|client\s+)?up\s*front\s+margin(?:\s+percentage|\s+pct|\s+requirement|\s+rate|\s+collection|\s+required)?$";
        "^(?:minimum\s+|mandatory\s+)?initial\s+margin(?:\s+requirement|\s+percentage)?$"] |}.

Definition client_collateral : CanonicalFact :=
  {| identifier := "client_collateral";
     display_name := "Client Collateral";
     description :=
       "Total eligible collateral or minimum collateral value deposited by a client.";
     data_type := CURRENCY;
     allowed_units :=
       ["inr"; "inr crore"; "inr lakh"; "crore"; "lakh"; "rs"; "rs."; "₹"; "rupees"; "%";
        "pct"];
     min_value := Some (float_of_Z 0);
     max_value := None;
     synonyms :=
       ["client collateral"; "minimum client collateral"; "client collateral collection";
        "client margin collateral"; "collateral from clients";
        "client collateral requirement"; "collateral of client";
        "client collateral amount"; "minimum collateral"; "client collateral balance";
        "collateral requirement"; "client collateral deposit"];
     regex_patterns :=
       ["^(?:minimum\s+|mandatory\s+)?(?:client\s+)?collateral(?:\s+from\s+clients|\s+collection|\s+balance|\s+amount|\s+deposit)?(?:\s+requirement)?$";
        "^(?:minimum\s+|mandatory\s+)?collateral\s+of\s+client$"] |}.

Definition peak_margin : CanonicalFact :=
  {| identifier := "peak_margin";
     display_name := "Peak Margin";
     description :=
       "Intraday peak margin obligation across snapshots during the trading day.";
     data_type := PERCENTAGE;
     allowed_units :=
       ["%"; "pct"; "percent"; "per cent"; "percentage"; "inr"; "inr crore"; "inr lakh";
        "crore"; "lakh"];
     min_value := Some (float_of_Z 0);
     max_value := Some (float_of_Z 100);
     synonyms :=
       ["peak margin"; "minimum peak margin"; "peak margin requirement";
        "peak margin collection"; "intraday peak margin"; "intra day peak margin";
        "peak intraday margin"; "peak margin percentage"; "peak margin pct";
        "peak margin obligation"; "peak margin collection requirement"];
     regex_patterns :=
       ["^(?:minimum\s+|mandatory\s+)?(?:intraday\s+|intra\s*day\s+)?peak\s+margin(?:\s+percentage|\s+pct|\s+requirement|\s+collection|\s+obligation)?$"] |}.

Definition collateral_reporting : CanonicalFact :=
  {| identifier := "collateral_reporting";
     display_name := "Collateral Reporting";
     description :=
       "Cadence, frequency, or timeframe for reporting client collateral to clearing corporations or exchanges.";
     data_type := DURATION_DAYS;
     allowed_units :=
       ["days"; "day"; "hours"; "hour"; "months"; "month"; "times"; "t+1"; "t+2"; "daily"];
     min_value := Some (float_of_Z 0);
     max_value := None;
     synonyms :=
       ["collateral reporting"; "client collateral reporting"; "margin reporting";
        "collateral reporting frequency"; "reporting of collateral";
        "collateral report cadence"; "collateral reporting timeline";
        "daily collateral reporting"; "reporting of client collateral";
        "margin reporting timeline"; "collateral reporting schedule"];
     regex_patterns :=
       ["^(?:client\s+|daily\s+)?(?:collateral|margin)\s+reporting(?:\s+frequency|\s+timeline|\s+cadence|\s+schedule)?$";
        "^reporting\s+of\s+(?:client\s+)?collateral$"] |}.

Definition reporting_deadline : CanonicalFact :=
  {| identifier := "reporting_deadline";
     display_name := "Reporting Deadline";
     description :=
       "Maximum permissible timeframe or statutory deadline for regulatory or compliance reporting.";
     data_type := DURATION_DAYS;
     allowed_units :=
       ["days"; "day"; "hours"; "hour"; "months"; "month"; "weeks"; "week"];
     min_value := Some (float_of_Z 0);
     max_value := None;
     synonyms :=
       ["reporting deadline"; "deadline for reporting"; "reporting timeline";
        "submission deadline"; "compliance reporting deadline"; "filing deadline";
        "reporting timeframe"; "time limit for reporting"; "report submission deadline";
        "statutory reporting deadline"; "regulatory reporting deadline";
        "deadline for submission"];
     regex_patterns :=
       ["^(?:compliance\s+|statutory\s+|regulatory\s+|report\s+)?(?:reporting\s+deadline|filing\s+deadline|submission\s+deadline)$";
        "^(?:deadline|timeline|timeframe)\s+for\s+(?:reporting|submission|filing)$"] |}.

Definition net_worth_inr_crore : CanonicalFact :=
  {| identifier := "net_worth_inr_crore";
     display_name := "Net Worth (INR Crore)";
     description :=
       "Minimum net worth requirement in INR crore.";
     data_type := CURRENCY;
     allowed_units :=
       ["inr crore"; "crore"; "crores"; "inr lakh"; "lakh"; "inr"; "rs"];
     min_value := Some (float_of_Z 0);
     max_value := None;
     synonyms :=
       ["net worth"; "minimum net worth"; "net worth requirement"; "networth";
        "minimum networth"];
     regex_patterns :=
       ["^(?:minimum\s+)?net\s*worth(?:\s+requirement)?$"] |}.

Definition settlement_window_days : CanonicalFact :=
  {| identifier := "settlement_window_days";
     display_name := "Settlement Window (Days)";
     description :=
       "Rolling trade settlement window in days (e.g. T+1, T+2).";
     data_type := DURATION_DAYS;
     allowed_units :=
       ["days"; "day"; "hours"];
     min_value := Some (float_of_Z 0);
     max_value := None;
     synonyms :=
       ["settlement window"; "settlement cycle"; "settlement period";
        "trade settlement window"];
     regex_patterns :=
       ["^(?:trade\s+)?settlement\s+(?:window|cycle|period)$"] |}.

Definition crar_pct : CanonicalFact :=
  {| identifier := "crar_pct";
     display_name := "Capital to Risk-Weighted Assets Ratio";
     description :=
       "CRAR percentage for regulated entities.";
     data_type := PERCENTAGE;
     allowed_units :=
       ["%"; "pct"; "percent"; "per cent"];
     min_value := Some (float_of_Z 0);
     max_value := Some (float_of_Z 100);
     synonyms :=
       ["crar"; "capital adequacy ratio"; "capital to risk weighted assets ratio"];
     regex_patterns :=
       [] |}.

Definition single_borrower_exposure_pct : CanonicalFact :=
  {| identifier := "single_borrower_exposure_pct";
     display_name := "Single Borrower Exposure Percentage";
     description :=
       "Maximum exposure limit to a single borrower as percentage of capital.";
     data_type := PERCENTAGE;
     allowed_units :=
       ["%"; "pct"; "percent"; "per cent"];
     min_value := Some (float_of_Z 0);
     max_value := Some (float_of_Z 100);
     synonyms :=
       ["single borrower exposure"; "single borrower limit";
        "single borrower exposure limit"];
     regex_patterns :=
       [] |}.

Definition solvency_ratio : CanonicalFact :=
  {| identifier := "solvency_ratio";
     display_name := "Solvency Ratio";
     description :=
       "Solvency margin ratio for insurance/regulated entities.";
     data_type := RATIO;
     allowed_units :=
       ["ratio"; "times"; "%"; "pct"];
     min_value := Some (float_of_Z 0);
     max_value := None;
     synonyms :=
       ["solvency ratio"; "solvency margin"; "minimum solvency ratio"];
     regex_patterns :=
       [] |}.

Definition equity_exposure_pct : CanonicalFact :=
  {| identifier := "equity_exposure_pct";
     display_name := "Equity Exposure Percentage";
     description :=
       "Maximum equity exposure limit percentage.";
     data_type := PERCENTAGE;
     allowed_units :=
       ["%"; "pct"; "percent"; "per cent"];
     min_value := Some (float_of_Z 0);
     max_value := Some (float_of_Z 100);
     synonyms :=
       ["equity exposure"; "maximum equity exposure"; "equity exposure limit"];
     regex_patterns :=
       [] |}.

Definition _CANONICAL_FACTS : list (string * CanonicalFact) :=
  [ ("upfront_margin_pct", upfront_margin_pct);
    ("client_collateral", client_collateral);
    ("peak_margin", peak_margin);
    ("collateral_reporting", collateral_reporting);
    ("reporting_deadline", reporting_deadline);
    ("net_worth_inr_crore", net_worth_inr_crore);
    ("settlement_window_days", settlement_window_days);
    ("crar_pct", crar_pct);
    ("single_borrower_exposure_pct", single_borrower_exposure_pct);
    ("solvency_ratio", solvency_ratio);
    ("equity_exposure_pct", equity_exposure_pct) ].

(** ** Resolution *)
Record FactResolutionResult := Resolution
  { status : FactValidationStatus
  ; canonical_identifier : option string
  ; resolved_fact : option CanonicalFact
  ; error_message : option string }.

Definition is_valid (r : FactResolutionResult) : bool :=
  bool_decide (status r = VALID)
  && match canonical_identifier r with Some _ => true | None => false end.

Definition get_canonical_fact (identifier : string) : option CanonicalFact :=
  obj_get identifier _CANONICAL_FACTS.

(** [clean_metric in fact.synonyms] or a pattern matches *)
Definition fact_matches (clean_metric : string) (fact : CanonicalFact) : bool :=
  str_in clean_metric (synonyms fact)
  || existsb (λ pattern, re_match (re_compile false pattern) clean_metric) (regex_patterns fact).

(** Steps 1 and 2: the identifier itself, then synonyms and patterns. *)
Definition match_fact (metric : string) : option CanonicalFact :=
  let clean_metric := normalize_metric_text metric in
  let metric_str := strip metric in
  match obj_get metric_str _CANONICAL_FACTS with
  | Some f => Some f
  | None =>
      match obj_get clean_metric _CANONICAL_FACTS with
      | Some f => Some f
      | None => find (fact_matches clean_metric) (map snd _CANONICAL_FACTS)
      end
  end.

(** [str(value)] *)
Definition num_str (n : pynum) : string :=
  match n with PInt z => str_of_Z z | PFlt f => float_repr f end.

(** [repr] of a list of strings without quotes or escapes. *)
Definition str_list_repr (l : list string) : string :=
  "[" +:+ join ", " (map (λ s, "'" +:+ s +:+ "'") l) +:+ "]".

Definition sorted_strs (l : list string) : list string :=
  map fst (sort_items (map (λ s, (s, tt)) l)).

Definition unit_ok (unit_ : string) (f : CanonicalFact) : bool :=
  str_in (normalize_unit unit_) (allowed_units f) || str_in (lower (strip unit_)) (allowed_units f).

(** The two bound checks of step 4 on one value. *)
Definition check_bounds (label : string) (value : option pynum) (f : CanonicalFact)
  : option string :=
  match value with
  | None => None
  | Some v =>
      match min_value f with
      | Some lo =>
          if num_ltb v (PFlt lo)
          then Some (label +:+ " " +:+ num_str v +:+ " is below minimum permissible value "
                     +:+ float_repr lo +:+ " for '" +:+ identifier f +:+ "'.")
          else None
      | None => None
      end ∪
      match max_value f with
      | Some hi =>
          if num_ltb (PFlt hi) v
          then Some (label +:+ " " +:+ num_str v +:+ " exceeds maximum permissible value "
                     +:+ float_repr hi +:+ " for '" +:+ identifier f +:+ "'.")
          else None
      | None => None
      end
  end.

Definition failure (st : FactValidationStatus) (f : CanonicalFact) (msg : string)
  : FactResolutionResult := Resolution st (Some (identifier f)) (Some f) (Some msg).

Definition resolve_canonical_fact (metric : string) (unit_ : option string)
    (value value_upper : option pynum) : FactResolutionResult :=
  if String.eqb metric "" || String.eqb (strip metric) "" then
    Resolution MISSING_MAPPING None None (Some "Metric name is empty or missing.")
  else
    match match_fact metric with
    | None =>
        Resolution MISSING_MAPPING None None
          (Some ("Metric '" +:+ metric +:+ "' does not map to any canonical regulatory fact. "
                 +:+ "Arbitrary field name invention is prohibited."))
    | Some f =>
        let bad_unit :=
          match unit_ with
          | Some u => negb (String.eqb (strip u) "") && negb (unit_ok u f)
          | None => false
          end in
        if bad_unit then
          failure WRONG_UNIT f
            ("Unit '" +:+ str_or unit_ "" +:+ "' is invalid for canonical fact '" +:+ identifier f
             +:+ "'. Allowed units: " +:+ str_list_repr (sorted_strs (allowed_units f)) +:+ ".")
        else
          match check_bounds "Threshold value" value f
                ∪ check_bounds "Upper threshold value" value_upper f with
          | Some msg => failure WRONG_THRESHOLD f msg
          | None => Resolution VALID (Some (identifier f)) (Some f) None
          end
    end.

(** ** The digest of a rule's thresholds *)

(** What the digest reads from one threshold (by [getattr] or [dict.get]). *)
Record fact_item := FactItem
  { fi_metric : string
  ; fi_canonical_fact : option string
  ; fi_operator : string              (* str(item.operator) *)
  ; fi_value : option spec_float
  ; fi_value_upper : option spec_float
  ; fi_unit : string }.

Definition opt_float (o : option spec_float) : json :=
  match o with Some f => JFloat f | None => JNull end.

Definition fact_record (item : fact_item) : json :=
  JObj [ ("metric", JStr (fi_metric item));
         ("canonical_fact", JStr (str_or (fi_canonical_fact item) ""));
         ("operator", JStr (fi_operator item));
         ("value", opt_float (fi_value item));
         ("value_upper", opt_float (fi_value_upper item));
         ("unit", JStr (normalize_unit (fi_unit item))) ].

(** [(r["canonical_fact"], r["metric"], r["operator"], str(r["value"]))] *)
Definition fact_key (item : fact_item) : list string :=
  [ str_or (fi_canonical_fact item) ""; fi_metric item; fi_operator item;
    match fi_value item with Some f => float_repr f | None => "None" end ].

Definition compute_canonical_facts_digest (thresholds_or_facts : list fact_item) : string :=
  match thresholds_or_facts with
  | [] => sha256_hex "[]"
  | _ => sha256_hex (dumps (JList (map fact_record (sort_by fact_key thresholds_or_facts))))
  end.
