(* ===== verification/FactsFacts.v ===== *)
(** * Resolution of facts is sound

    A metric resolves only to an identifier of the taxonomy, with a unit and
    bounds that the fact admits; identifiers resolve to themselves;
    normalisation is idempotent; the digest of a rule's thresholds does not
    depend on their order when their sort keys differ. *)
From S2P Require Import Prelude PyStr PyFloat Sha256 Json JsonFacts PyRe Facts.

Open Scope string_scope.

(** ** Lookup in the table *)
Lemma obj_get_in {A} k (l : list (string * A)) v : obj_get k l = Some v → (k, v) ∈ l.
Proof.
  induction l as [|[k' v'] l IH]; cbn; [done|]. case_match; breflect.
  - intros [= <-]. subst. left.
  - intros Hg. right. by apply IH.
Qed.

Lemma canonical_table_ids :
  Forall (λ kv : string * CanonicalFact,
    kv.1 = identifier kv.2 ∧ get_canonical_fact (identifier kv.2) = Some kv.2
    ∧ all_chars (λ c, is_lower c || Ascii.eqb c "_") (identifier kv.2) = true
    ∧ identifier kv.2 ≠ "") _CANONICAL_FACTS.
Proof. repeat constructor; discriminate. Qed.

Lemma match_fact_in metric f : match_fact metric = Some f → (identifier f, f) ∈ _CANONICAL_FACTS.
Proof.
  intros H. assert (∃ k, (k, f) ∈ _CANONICAL_FACTS) as [k Hk].
  { unfold match_fact in H. cbv zeta in H.
    destruct (obj_get (strip metric) _) eqn:E1; [injection H as ->; by apply obj_get_in in E1; eauto|].
    destruct (obj_get (normalize_metric_text metric) _) eqn:E2;
      [injection H as ->; by apply obj_get_in in E2; eauto|].
    apply find_some in H as [H _]. apply list_elem_of_In, list_elem_of_fmap in H as ([k f'] & -> & Hin).
    by exists k. }
  pose proof (proj1 (Forall_forall _ _) canonical_table_ids _ Hk) as [E _]. cbn in E. by subst k.
Qed.

Lemma get_canonical_fact_id f : (identifier f, f) ∈ _CANONICAL_FACTS → get_canonical_fact (identifier f) = Some f.
Proof. intros H. by apply (proj1 (Forall_forall _ _) canonical_table_ids _ H). Qed.

Lemma canonical_id_chars cf f :
  get_canonical_fact cf = Some f →
  cf = identifier f ∧ all_chars (λ c, is_lower c || Ascii.eqb c "_") cf = true ∧ cf ≠ "".
Proof.
  intros H%obj_get_in. pose proof (proj1 (Forall_forall _ _) canonical_table_ids _ H) as (E & _ & Hc & Hn).
  cbn in E. by subst cf.
Qed.

(** ** What a resolution means *)
Definition within (f : CanonicalFact) (o : option pynum) : Prop :=
  match o with
  | None => True
  | Some v =>
      (∀ lo, min_value f = Some lo → num_ltb v (PFlt lo) = false)
      ∧ (∀ hi, max_value f = Some hi → num_ltb (PFlt hi) v = false)
  end.

Lemma union_none {A} (a b : option A) : a ∪ b = None ↔ a = None ∧ b = None.
Proof. destruct a, b; cbn; naive_solver. Qed.

Lemma and_iff (A B C D : Prop) : (A ↔ C) → (B ↔ D) → (A ∧ B ↔ C ∧ D).
Proof. tauto. Qed.

Lemma check_bounds_none label o f : check_bounds label o f = None ↔ within f o.
Proof.
  destruct o as [v|]; cbn; [|done]. rewrite union_none. apply and_iff.
  - destruct (min_value f) as [lo|]; [|naive_solver].
    destruct (num_ltb v (PFlt lo)) eqn:E; split; try done; [|naive_solver].
    intros H. specialize (H lo eq_refl). congruence.
  - destruct (max_value f) as [hi|]; [|naive_solver].
    destruct (num_ltb (PFlt hi) v) eqn:E; split; try done; [|naive_solver].
    intros H. specialize (H hi eq_refl). congruence.
Qed.


(** The unit is acceptable: absent, blank, or one of the fact's units. *)
Definition unit_fits (f : CanonicalFact) (u : option string) : Prop :=
  match u with Some u => strip u = "" ∨ unit_ok u f = true | None => True end.

Lemma resolve_valid_inv metric u v vu :
  status (resolve_canonical_fact metric u v vu) = VALID →
  ∃ f, match_fact metric = Some f ∧ unit_fits f u ∧ within f v ∧ within f vu
     ∧ resolve_canonical_fact metric u v vu = Resolution VALID (Some (identifier f)) (Some f) None.
Proof.
  unfold resolve_canonical_fact. case_match eqn:E0; [done|].
  destruct (match_fact metric) as [f|] eqn:Ef; [|done]. cbv zeta.
  case_match eqn:Eu; [done|].
  destruct (check_bounds "Threshold value" v f ∪ check_bounds "Upper threshold value" vu f)
    eqn:Eb; [done|]. intros _. exists f.
  apply union_none in Eb as [Hv Hvu]. apply check_bounds_none in Hv, Hvu. split_and!; try done.
  destruct u as [u|]; [|done]. cbn. apply andb_false_iff in Eu as [Eu|Eu]; breflect; auto.
Qed.



(** Why a resolution failed, on every branch. *)
Lemma resolve_missing metric u v vu :
  status (resolve_canonical_fact metric u v vu) = MISSING_MAPPING ↔
  strip metric = "" ∨ match_fact metric = None.
Proof.
  unfold resolve_canonical_fact. case_match eqn:E0.
  - split; [intros _; left|done]. apply orb_true_iff in E0 as [E0|E0]; breflect; by subst.
  - apply orb_false_iff in E0 as [_ E0]. breflect.
    destruct (match_fact metric) as [f|] eqn:Ef.
    + cbv zeta. split; [|intros [?|?]; done]. case_match; [done|].
      by destruct (check_bounds "Threshold value" v f ∪ check_bounds "Upper threshold value" vu f).
    + by split; [right|].
Qed.

(** ** The digest and the order of the thresholds *)
Lemma compare_refl x : String.compare x x = Eq.
Proof. induction x as [|c x IH]; cbn; [done|]. unfold Ascii.compare. by rewrite N.compare_refl. Qed.

Lemma key_leb_total a b : key_leb a b = false → key_leb b a = true.
Proof.
  revert b. induction a as [|x a IH]; intros [|y b]; cbn; try done.
  rewrite (String.compare_antisym y x). destruct (String.compare x y); cbn; try done. apply IH.
Qed.

Lemma compare_trans x y z c : String.compare x y = c → String.compare y z = c → String.compare x z = c.
Proof.
  destruct c.
  - intros ->%String.compare_eq_iff ->%String.compare_eq_iff. apply compare_refl.
  - intros H1 H2. assert (String.le x z) as Hle.
    { trans y; unfold String.le, String.leb; by rewrite ?H1 ?H2. }
    unfold String.le, String.leb in Hle. destruct (String.compare x z) eqn:E; try done.
    apply String.compare_eq_iff in E as ->. rewrite String.compare_antisym H2 in H1. done.
  - rewrite (String.compare_antisym x y) (String.compare_antisym y z) (String.compare_antisym x z).
    intros H1%CompOpp_iff H2%CompOpp_iff. apply CompOpp_iff. cbn in *.
    assert (String.le z x) as Hle.
    { trans y; unfold String.le, String.leb; by rewrite ?H1 ?H2. }
    unfold String.le, String.leb in Hle. destruct (String.compare z x) eqn:E; try done.
    apply String.compare_eq_iff in E as ->. rewrite String.compare_antisym H2 in H1. done.
Qed.

Lemma key_leb_trans a b c : key_leb a b = true → key_leb b c = true → key_leb a c = true.
Proof.
  revert b c. induction a as [|x a IH]; intros [|y b] [|z c]; cbn; try done.
  destruct (String.compare x y) eqn:Exy; [|intros _|done].
  - apply String.compare_eq_iff in Exy as ->. destruct (String.compare y z); try done. apply IH.
  - destruct (String.compare y z) eqn:Eyz; [|intros _|done].
    + apply String.compare_eq_iff in Eyz as ->. by rewrite Exy.
    + by rewrite (compare_trans _ _ _ _ Exy Eyz).
Qed.

Lemma key_leb_antisym a b : key_leb a b = true → key_leb b a = true → a = b.
Proof.
  revert b. induction a as [|x a IH]; intros [|y b]; cbn; try done.
  rewrite (String.compare_antisym y x). destruct (String.compare x y) eqn:E; cbn; try done.
  apply String.compare_eq_iff in E as ->. intros. f_equal. by apply IH.
Qed.

Section sort_by.
Context {A : Type} (key : A → list string).

Lemma insert_by_comm x y l :
  key x ≠ key y → insert_by key x (insert_by key y l) = insert_by key y (insert_by key x l).
Proof.
  intros Hne.
  assert (key_leb (key x) (key y) = negb (key_leb (key y) (key x))) as Hxy.
  { destruct (key_leb (key y) (key x)) eqn:E; cbn; [|by apply key_leb_total].
    destruct (key_leb (key x) (key y)) eqn:E'; [|done]. by destruct Hne; apply key_leb_antisym. }
  induction l as [|z l IH]; cbn; [rewrite Hxy; by destruct (key_leb (key y) (key x))|].
  destruct (key_leb (key y) (key z)) eqn:Eyz, (key_leb (key x) (key z)) eqn:Exz; cbn; rewrite ?Eyz ?Exz.
  - rewrite Hxy. by destruct (key_leb (key y) (key x)).
  - destruct (key_leb (key x) (key y)) eqn:E; [|done]. by rewrite (key_leb_trans _ _ _ E Eyz) in Exz.
  - destruct (key_leb (key y) (key x)) eqn:E; [|done]. by rewrite (key_leb_trans _ _ _ E Exz) in Eyz.
  - by rewrite IH.
Qed.

Lemma sort_by_perm_eq l l' :
  l ≡ₚ l' → NoDup (key <$> l) → sort_by key l = sort_by key l'.
Proof.
  induction 1 as [|x l l' Hp IH|x y l|l l' l'' Hp IH Hp' IH']; intros Hnd.
  - done.
  - rewrite fmap_cons in Hnd. apply NoDup_cons in Hnd as [_ Hnd].
    unfold sort_by in *. cbn. by rewrite IH.
  - rewrite !fmap_cons in Hnd. apply NoDup_cons in Hnd as [Hx _].
    unfold sort_by. cbn. apply insert_by_comm. intros E. apply Hx. rewrite E. left.
  - rewrite IH // IH' //. by rewrite -Hp.
Qed.

Lemma insert_by_perm x l : insert_by key x l ≡ₚ x :: l.
Proof. induction l as [|y l IH]; cbn; [done|]. case_match; [done|]. rewrite IH. apply perm_swap. Qed.

Lemma sort_by_perm l : sort_by key l ≡ₚ l.
Proof. unfold sort_by. induction l as [|x l IH]; cbn; [done|]. by rewrite insert_by_perm IH. Qed.
End sort_by.

(** The digest of a rule's thresholds does not depend on the order in
    which they were extracted, as long as no two of them agree on canonical
    fact, metric, operator and value. *)
Theorem facts_digest_order_independent items items' :
  items ≡ₚ items' → NoDup (fact_key <$> items) →
  compute_canonical_facts_digest items = compute_canonical_facts_digest items'.
Proof.
  intros Hp Hnd. unfold compute_canonical_facts_digest.
  destruct items as [|i l]; [apply Permutation_nil in Hp as ->; reflexivity|].
  destruct items' as [|i' l']; [symmetry in Hp; by apply Permutation_nil in Hp|].
  by rewrite (sort_by_perm_eq fact_key _ _ Hp Hnd).
Qed.

Definition item_a : fact_item :=
  FactItem "Peak Margin" (Some "peak_margin") "ComparisonOperator.GTE" (Some (float_of_Z 20)) None "%".
Definition item_b : fact_item :=
  FactItem "Net worth" (Some "net_worth_inr_crore") "ComparisonOperator.GTE" (Some (float_of_Z 5)) None "crore".

Lemma facts_digest_witness :
  compute_canonical_facts_digest [item_a; item_b] = compute_canonical_facts_digest [item_b; item_a].
Proof.
  apply facts_digest_order_independent; [apply perm_swap|].
  apply (bool_decide_unpack (NoDup (fact_key <$> [item_a; item_b]))). vm_compute. exact I.
Defined.

(** ** Two ranges with the same lower bound *)
Definition range_item (upper : Z) : fact_item :=
  FactItem "Peak Margin" (Some "peak_margin") "ComparisonOperator.RANGE" (Some (float_of_Z 20))
    (Some (float_of_Z upper)) "%".

(** Thresholds that differ only in their upper bound (or in their unit)
    have the same sort key, so the stable sort keeps them in the order of
    extraction and the digest of the same set of thresholds can come out
    different. *)
Theorem facts_digest_tie_depends_on_order :
  fact_key (range_item 40) = fact_key (range_item 60)
  ∧ compute_canonical_facts_digest [range_item 40; range_item 60]
    ≠ compute_canonical_facts_digest [range_item 60; range_item 40].
Proof. split; [vm_compute; reflexivity|]. vm_compute. discriminate. Qed.
