(* ===== verification/Taxonomy.v ===== *)
(** * The multi-regulator taxonomy

    [src/app/regulatory/taxonomy.py]: the regulators, their profiles, the
    detection of regulator and document type from a document's first page,
    and the policy namespace of an entity type. *)
From S2P Require Import Prelude PyStr PyFloat Json PyRe Facts.

Open Scope string_scope.

Inductive Regulator := SEBI | RBI | IRDAI | PFRDA.

#[export] Instance Regulator_eq_dec : EqDecision Regulator.
Proof. solve_decision. Defined.

Definition regulator_value (r : Regulator) : string :=
  match r with SEBI => "sebi" | RBI => "rbi" | IRDAI => "irdai" | PFRDA => "pfrda" end.

Inductive DocumentType :=
| CIRCULAR | MASTER_CIRCULAR | NOTIFICATION | GAZETTE_NOTIFICATION | MASTER_DIRECTION
| GUIDELINE | REGULATION | DIRECTION | FAQ.

#[export] Instance DocumentType_eq_dec : EqDecision DocumentType.
Proof. solve_decision. Defined.

Definition document_type_value (d : DocumentType) : string :=
  match d with
  | CIRCULAR => "circular" | MASTER_CIRCULAR => "master_circular" | NOTIFICATION => "notification"
  | GAZETTE_NOTIFICATION => "gazette_notification" | MASTER_DIRECTION => "master_direction"
  | GUIDELINE => "guideline" | REGULATION => "regulation" | DIRECTION => "direction" | FAQ => "faq"
  end.

Record RegulatorProfile := Profile
  { pf_regulator : Regulator
  ; pf_display_name : string
  ; document_types : list DocumentType
  ; entity_types : list string
  ; domains : list string
  ; default_domain : string
  ; document_number_patterns : list string   (* re.IGNORECASE *)
  ; source_tag_patterns : list string        (* re.IGNORECASE *)
  ; agent_persona_hint : string }.

Definition opa_namespace (p : RegulatorProfile) : string := regulator_value (pf_regulator p).

Definition _SEBI_DOC_NUMBER : string :=
  "SEBI/[A-Z\-]+(?:/[A-Z\-]+)*/\d{4}(?:[-/]\d{2,4})?/\d+".
Definition _RBI_DOC_NUMBER : string :=
  "RBI/\d{4}-\d{2}/\d+" +:+
  "|DOR\.[A-Z.]+\.\w*No\.\s*\d+/\d{2}\.\d{2}\.\d{3}/\d{4}-\d{2}".
Definition _IRDAI_DOC_NUMBER : string := "IRDAI?/[A-Z]+/(?:CIR|GDL|REG|NTF)/\d+/\d{4}".
Definition _PFRDA_DOC_NUMBER : string := "PFRDA/\d{4}/\d+/[A-Z\-]+/\d+".

Definition sebi_profile : RegulatorProfile :=
  {| pf_regulator := SEBI;
     pf_display_name := "Securities and Exchange Board of India";
     document_types := [CIRCULAR; MASTER_CIRCULAR; GUIDELINE; REGULATION];
     entity_types :=
       ["Stockbroker"; "InvestmentAdviser"; "PortfolioManager"; "DepositoryParticipant";
        "AssetManagementCompany"; "MutualFund"; "ResearchAnalyst"];
     domains := ["broking"; "amc"; "depository"; "portfolio_management"; "research"];
     default_domain := "broking";
     document_number_patterns := [_SEBI_DOC_NUMBER];
     source_tag_patterns := ["\bSEBI\b"; "securities and exchange board of india"];
     agent_persona_hint :=
       "This clause is from a SEBI (securities markets) circular. Typical entities are "
       +:+ "stockbrokers, AMCs, depository participants, and portfolio managers; typical "
       +:+ "obligations involve margin, client fund segregation, disclosure, and reporting "
       +:+ "timelines." |}.

Definition rbi_profile : RegulatorProfile :=
  {| pf_regulator := RBI;
     pf_display_name := "Reserve Bank of India";
     document_types := [MASTER_DIRECTION; CIRCULAR; NOTIFICATION; GUIDELINE];
     entity_types :=
       ["ScheduledCommercialBank"; "NBFC"; "PaymentBank"; "SmallFinanceBank";
        "CooperativeBank"; "PrimaryDealer"; "PaymentSystemOperator"];
     domains := ["banking"; "nbfc"; "lending"; "payments"; "cooperative_banking"];
     default_domain := "banking";
     document_number_patterns := [_RBI_DOC_NUMBER];
     source_tag_patterns := ["\bRBI\b"; "reserve bank of india"];
     agent_persona_hint :=
       "This clause is from an RBI (banking/NBFC) Master Direction, circular, or "
       +:+ "notification. Typical entities are scheduled commercial banks, NBFCs, and "
       +:+ "payment system operators; typical obligations involve capital adequacy, "
       +:+ "provisioning, exposure limits, and KYC/AML timelines." |}.

Definition irdai_profile : RegulatorProfile :=
  {| pf_regulator := IRDAI;
     pf_display_name := "Insurance Regulatory and Development Authority of India";
     document_types := [REGULATION; CIRCULAR; GUIDELINE; NOTIFICATION];
     entity_types :=
       ["LifeInsurer"; "GeneralInsurer"; "HealthInsurer"; "Reinsurer";
        "InsuranceIntermediary"; "TPA"; "InsuranceBroker"];
     domains := ["underwriting"; "distribution"; "claims"; "solvency"; "reinsurance"];
     default_domain := "underwriting";
     document_number_patterns := [_IRDAI_DOC_NUMBER];
     source_tag_patterns := ["\bIRDAI?\b"; "insurance regulatory and development authority"];
     agent_persona_hint :=
       "This clause is from an IRDAI (insurance) regulation, circular, or guideline. "
       +:+ "Typical entities are life/general/health insurers, TPAs, and insurance "
       +:+ "intermediaries; typical obligations involve solvency margin, underwriting "
       +:+ "limits, claim settlement timelines, and commission caps." |}.

Definition pfrda_profile : RegulatorProfile :=
  {| pf_regulator := PFRDA;
     pf_display_name := "Pension Fund Regulatory and Development Authority";
     document_types := [CIRCULAR; GUIDELINE; REGULATION; MASTER_DIRECTION];
     entity_types :=
       ["PensionFundManager"; "PointOfPresence"; "CentralRecordkeepingAgency"; "NPSTrust";
        "Custodian"];
     domains := ["pension"];
     default_domain := "pension";
     document_number_patterns := [_PFRDA_DOC_NUMBER];
     source_tag_patterns := ["\bPFRDA\b"; "pension fund regulatory and development authority"];
     agent_persona_hint :=
       "This clause is from a PFRDA (pension) circular or regulation governing the "
       +:+ "National Pension System. Typical entities are pension fund managers, points of "
       +:+ "presence, and the central recordkeeping agency; typical obligations involve "
       +:+ "investment exposure limits, fund switching rules, and subscriber disclosure "
       +:+ "requirements." |}.

Definition REGULATOR_PROFILES : list RegulatorProfile :=
  [sebi_profile; rbi_profile; irdai_profile; pfrda_profile].

Definition profile_of (r : Regulator) : RegulatorProfile :=
  match r with
  | SEBI => sebi_profile | RBI => rbi_profile | IRDAI => irdai_profile | PFRDA => pfrda_profile
  end.

(** [doc_type.value.replace("_", " ") in lowered] *)
Definition names_type (lowered : string) (d : DocumentType) : bool :=
  contains (replace_char "_" " " (document_type_value d)) lowered.

Definition _match_document (profile : RegulatorProfile) (head_text : string)
  : DocumentType * option string :=
  let lowered := lower head_text in
  match find (names_type lowered) (document_types profile) with
  | Some doc_type => (doc_type, None)
  | None => (nth 0 (document_types profile) CIRCULAR, None)
  end.

(** The first pattern of the list found in the text. *)
Fixpoint search_any (patterns : list string) (text : string) : option string :=
  match patterns with
  | [] => None
  | p :: ps =>
      match re_search (re_compile true p) text with
      | Some m => Some m
      | None => search_any ps text
      end
  end.

(** The first profile for which [f] finds something. *)
Fixpoint first_profile {A} (f : RegulatorProfile → option A) (ps : list RegulatorProfile)
  : option (RegulatorProfile * A) :=
  match ps with
  | [] => None
  | p :: ps' => match f p with Some a => Some (p, a) | None => first_profile f ps' end
  end.

Definition detect_regulator_and_document (head_text : string) (source_tag : option string)
  : Regulator * DocumentType * option string :=
  let by_tag :=
    if truthy source_tag
    then find (λ p, String.eqb (lower (regulator_value (pf_regulator p)))
                      (lower (strip (str_or source_tag "")))) REGULATOR_PROFILES
    else None in
  match by_tag with
  | Some profile =>
      let (doc_type, doc_number) := _match_document profile head_text in
      (pf_regulator profile, doc_type, doc_number)
  | None =>
      match first_profile (λ p, search_any (document_number_patterns p) head_text)
              REGULATOR_PROFILES with
      | Some (profile, m) =>
          (pf_regulator profile, (_match_document profile head_text).1, Some (strip m))
      | None =>
          match first_profile (λ p, search_any (source_tag_patterns p) head_text)
                  REGULATOR_PROFILES with
          | Some (profile, _) =>
              let (doc_type, doc_number) := _match_document profile head_text in
              (pf_regulator profile, doc_type, doc_number)
          | None => (SEBI, CIRCULAR, None)
          end
      end
  end.

Definition entity_domain_hints : list (string * string) :=
  [ ("Stockbroker", "broking"); ("DepositoryParticipant", "depository");
    ("AssetManagementCompany", "amc"); ("MutualFund", "amc");
    ("PortfolioManager", "portfolio_management"); ("ResearchAnalyst", "research");
    ("ScheduledCommercialBank", "banking"); ("CooperativeBank", "cooperative_banking");
    ("SmallFinanceBank", "banking"); ("PaymentBank", "payments"); ("NBFC", "nbfc");
    ("PaymentSystemOperator", "payments"); ("PrimaryDealer", "banking");
    ("LifeInsurer", "underwriting"); ("GeneralInsurer", "underwriting");
    ("HealthInsurer", "underwriting"); ("Reinsurer", "reinsurance");
    ("InsuranceIntermediary", "distribution"); ("InsuranceBroker", "distribution");
    ("TPA", "claims"); ("PensionFundManager", "pension"); ("PointOfPresence", "pension");
    ("CentralRecordkeepingAgency", "pension"); ("NPSTrust", "pension"); ("Custodian", "pension") ].

Definition resolve_domain (regulator : Regulator) (entity_type : option string) : string :=
  let profile := profile_of regulator in
  if negb (truthy entity_type) then default_domain profile
  else
    match obj_get (str_or entity_type "") entity_domain_hints with
    | Some domain =>
        if negb (String.eqb domain "") && str_in domain (domains profile) then domain
        else default_domain profile
    | None => default_domain profile
    end.

(** Every pattern of the two taxonomies is in the fragment that is modelled. *)
Example patterns_supported :
  forallb re_supported
    (flat_map (λ p, document_number_patterns p ++ source_tag_patterns p)%list REGULATOR_PROFILES
     ++ flat_map (λ kv, regex_patterns kv.2) _CANONICAL_FACTS)%list = true.
Proof. vm_compute. reflexivity. Qed.

Example detect_rbi :
  detect_regulator_and_document
    "RBI Master Direction DOR.CRE.REC.No.45/03.10.001/2024-25 April 1, 2024" None
  = (RBI, MASTER_DIRECTION, Some "DOR.CRE.REC.No.45/03.10.001/2024-25").
Proof. vm_compute. reflexivity. Qed.

(** * Properties of the regulator taxonomy *)

(** The namespace domain of a compiled policy always belongs to its
    regulator: whatever the entity type, [resolve_domain] returns one of the
    regulator's own domains. *)
Theorem resolve_domain_closed r e : str_in (resolve_domain r e) (domains (profile_of r)) = true.
Proof.
  unfold resolve_domain. cbv zeta.
  assert (str_in (default_domain (profile_of r)) (domains (profile_of r)) = true) as Hd by by destruct r.
  case_match; [done|]. destruct (obj_get _ _) as [d|]; [|done].
  destruct (negb (String.eqb d "") && str_in d (domains (profile_of r))) eqn:E; [|done].
  by apply andb_prop in E as [_ E].
Qed.

(** Every entity type of a regulator's taxonomy has a domain hint in that
    regulator's domains, except the investment adviser. *)
Example entity_hints :
  map (λ r, List.filter (λ e, match obj_get e entity_domain_hints with
                              | Some d => negb (str_in d (domains (profile_of r))) | None => true end)
              (entity_types (profile_of r))) [SEBI; RBI; IRDAI; PFRDA]
  = [["InvestmentAdviser"]; []; []; []].
Proof. vm_compute. reflexivity. Qed.

(** ** Document types *)
Lemma contains_app a b s : contains (a +:+ b) s = true → contains b s = true.
Proof.
  revert a. induction s as [|c s IH]; intros a; cbn [contains].
  - destruct a as [|x a]; [done|]. by cbn.
  - destruct a as [|x a]; [done|]. intros H. apply orb_true_iff. right.
    apply orb_true_iff in H as [H|H]; [|by eapply IH].
    cbn in H. destruct (Ascii.ascii_dec x c); [|done]. apply (IH a).
    destruct s; cbn [contains]; by rewrite H.
Qed.

(** A SEBI document is never classified as a master circular: the type
    [circular] is tested first, and every text that names a master circular
    also contains the word circular. *)
Theorem sebi_master_circular_unreachable head_text :
  (_match_document sebi_profile head_text).1 ≠ MASTER_CIRCULAR.
Proof.
  unfold _match_document. cbv zeta. cbn [document_types sebi_profile find nth].
  destruct (names_type (lower head_text) CIRCULAR) eqn:Ec; [done|].
  destruct (names_type (lower head_text) MASTER_CIRCULAR) eqn:Em.
  - exfalso. unfold names_type in *. change (replace_char "_" " " (document_type_value MASTER_CIRCULAR))
      with ("master " +:+ "circular") in Em. apply contains_app in Em.
    change (replace_char "_" " " (document_type_value CIRCULAR)) with "circular" in Ec. congruence.
  - destruct (names_type _ GUIDELINE); [done|]. by destruct (names_type _ REGULATION).
Qed.

(** An ingestion tag that names a regulator decides the regulator whatever
    the text of the document says, and then no document number is reported. *)
Theorem source_tag_decides r head_text tag :
  lower (strip tag) = regulator_value r →
  (detect_regulator_and_document head_text (Some tag)).1.1 = r
  ∧ (detect_regulator_and_document head_text (Some tag)).2 = None.
Proof.
  intros H. unfold detect_regulator_and_document. cbv zeta.
  assert (String.eqb tag "" = false) as Ht.
  { apply String.eqb_neq. intros ->. by destruct r. }
  cbn [truthy str_or]. rewrite Ht H. cbn [negb].
  assert (∀ p, (_match_document p head_text).2 = None) as Hn.
  { intros p. unfold _match_document. cbv zeta. by case_match. }
  assert (find (λ p, String.eqb (lower (regulator_value (pf_regulator p))) (regulator_value r))
    REGULATOR_PROFILES = Some (profile_of r)) as -> by by destruct r.
  specialize (Hn (profile_of r)). destruct (_match_document (profile_of r) head_text) as [d n].
  cbn in Hn |- *. subst n. by destruct r.
Qed.

Lemma source_tag_witness :
  (detect_regulator_and_document "SEBI/HO/MIRSD/2024/100" (Some " RBI ")).1.1 = RBI
  ∧ (detect_regulator_and_document "SEBI/HO/MIRSD/2024/100" (Some " RBI ")).2 = None.
Proof. apply source_tag_decides. vm_compute. reflexivity. Defined.
