(* ===== verification/DocModels.v ===== *)
(** * Parsed documents: [src/app/models.py] and [src/app/parsing/hashing.py]

    The digests of documents and clauses.  Then the elements a PDF is read into, the header of a document, the chunks the
    pipeline works on, and the result of a parse.  A date is its ordinal. *)
From S2P Require Import Sha256 JsonFacts Prelude PyStr PyFloat Json Datetime Taxonomy.

(** * Document and clause digests: [src/app/parsing/hashing.py] *)

Open Scope string_scope.
Open Scope Z_scope.

(** [str.split()]: the maximal runs of non-blank characters. *)
Fixpoint split_ws_from (cur s : string) : list string :=
  match s with
  | "" => if String.eqb cur "" then [] else [cur]
  | String c s' =>
      if is_space c then
        if String.eqb cur "" then split_ws_from "" s' else cur :: split_ws_from "" s'
      else split_ws_from (cur +:+ String c "") s'
  end.
Definition split_ws : string → list string := split_ws_from "".

(** [unicodedata.normalize("NFKC", ...)] is a parameter. *)
Section hashing.
Context (nfkc : string → string).

Definition sha256_of_bytes (data : string) : string := sha256_hex data.

Definition _canonicalize (text : string) : string := join " " (split_ws (nfkc text)).

Definition sha256_of_text (text : string) : string := sha256_hex (_canonicalize text).
Definition sha256_of_extracted_text (text : string) : string := sha256_of_text text.

Definition unit_separator : ascii := "031"%char.

Definition clause_payload (circular_number clause_number : option string) (text : string) : string :=
  join (String unit_separator "")
    [str_or circular_number ""; str_or clause_number ""; _canonicalize text].

Definition sha256_of_clause (circular_number clause_number : option string) (text : string) : string :=
  sha256_hex (clause_payload circular_number clause_number text).
End hashing.

Open Scope string_scope.
Open Scope Z_scope.

Inductive ElementKind :=
| TITLE | SECTION_HEADER | CLAUSE | NARRATIVE_TEXT | TABLE | FOOTNOTE | LIST_ITEM | UNCATEGORIZED.

#[export] Instance ElementKind_eq_dec : EqDecision ElementKind.
Proof. solve_decision. Defined.

Definition point : Type := spec_float * spec_float.

Record BoundingBox := BBox { bb_page_number : option Z; bb_coordinates : option (list point) }.

Record DocumentElement := Element
  { el_element_id : string
  ; el_kind : ElementKind
  ; el_text : string
  ; el_clause_number : option string
  ; el_section_path : list string
  ; el_page_number : option Z
  ; el_bbox : option BoundingBox
  ; el_is_footnote_ref : bool }.

Record CircularMetadata := Metadata
  { me_circular_number : option string
  ; me_issue_date : option Z
  ; me_title : option string
  ; me_source_url : option string
  ; me_source_filename : option string
  ; me_source_retrieved_at : option datetime
  ; me_department : option string
  ; me_regulator : Regulator
  ; me_document_type : DocumentType
  ; me_source_document_sha256 : option string
  ; me_extracted_text_sha256 : option string }.

Record ClauseChunk := Chunk
  { ck_chunk_id : string
  ; ck_sha256 : string
  ; ck_text : string
  ; ck_clause_number : option string
  ; ck_section_path : list string
  ; ck_section_title : option string
  ; ck_page_start : option Z
  ; ck_page_end : option Z
  ; ck_footnotes : list string
  ; ck_contains_table : bool
  ; ck_circular_number : option string
  ; ck_issue_date : option Z
  ; ck_source_url : option string
  ; ck_source_filename : option string
  ; ck_source_retrieved_at : option datetime
  ; ck_source_document_sha256 : option string
  ; ck_regulator : Regulator
  ; ck_document_type : DocumentType
  ; ck_extra : list (string * json) }.

Record ParseResult := Parsed
  { pr_metadata : CircularMetadata
  ; pr_chunks : list ClauseChunk
  ; pr_element_count : Z
  ; pr_warnings : list string
  ; pr_source_url : option string
  ; pr_source_filename : option string
  ; pr_source_retrieved_at : option datetime
  ; pr_source_document_sha256 : option string
  ; pr_extracted_text_sha256 : option string }.

(** A chunk with the defaults of the fields that are not given. *)
Definition bare_chunk (chunk_id sha256 text : string) (clause_number : option string)
    (section_path : list string) (section_title : option string) (page_start page_end : option Z)
    (contains_table : bool) : ClauseChunk :=
  Chunk chunk_id sha256 text clause_number section_path section_title page_start page_end []
    contains_table None None None None None None SEBI CIRCULAR [].
