(* ===== verification/Schemas.v ===== *)
(** * The rule schema

    [src/app/agents/schemas.py]: what the Extraction Agent and the Logic
    Auditor Agent exchange, with the validators pydantic runs when a threshold
    or a rule is built. *)
From S2P Require Import Prelude PyStr PyFloat Json Facts Taxonomy.

Open Scope string_scope.

Inductive ObligationType := MANDATORY | PROHIBITED | CONDITIONAL | RECOMMENDED.

#[export] Instance ObligationType_eq_dec : EqDecision ObligationType.
Proof. solve_decision. Defined.

Definition obligation_value (o : ObligationType) : string :=
  match o with
  | MANDATORY => "mandatory" | PROHIBITED => "prohibited"
  | CONDITIONAL => "conditional" | RECOMMENDED => "recommended"
  end.

Inductive ComparisonOperator := GTE | GT | LTE | LT | EQ | RANGE.

#[export] Instance ComparisonOperator_eq_dec : EqDecision ComparisonOperator.
Proof. solve_decision. Defined.

(** [op.value] and [str(op)] *)
Definition op_value (op : ComparisonOperator) : string :=
  match op with
  | GTE => ">=" | GT => ">" | LTE => "<=" | LT => "<" | EQ => "==" | RANGE => "range"
  end.
Definition op_str (op : ComparisonOperator) : string :=
  "ComparisonOperator." +:+
  match op with
  | GTE => "GTE" | GT => "GT" | LTE => "LTE" | LT => "LT" | EQ => "EQ" | RANGE => "RANGE"
  end.

Record TargetEntity := Target
  { raw_text : string; normalized_entity : option string; te_evidence : string }.

Record TriggerCondition := Trigger
  { tc_description : string; frequency : option string; tc_evidence : string }.

Record NumericalThreshold := Threshold
  { metric : string
  ; canonical_fact : option string
  ; operator : ComparisonOperator
  ; value : spec_float
  ; value_upper : option spec_float
  ; unit_ : string
  ; applies_to : option string
  ; nt_evidence : string }.

(** The dict a threshold is validated from, numbers as JSON has them. *)
Record threshold_data := ThresholdData
  { d_metric : string
  ; d_canonical_fact : option string
  ; d_operator : ComparisonOperator
  ; d_value : pynum
  ; d_value_upper : option pynum
  ; d_unit : string
  ; d_applies_to : option string
  ; d_evidence : string }.

Inductive schema_error :=
| UpperRequiresRange      (* "value_upper may only be set when operator is RANGE" *)
| ConfidenceOutOfRange    (* Field(ge=0.0, le=1.0) *).

(** [float(n)] *)
Definition num_float (n : pynum) : spec_float :=
  match n with PInt z => float_of_Z z | PFlt f => f end.

(** The "before" validator: fill in [canonical_fact] when it is missing. *)
Definition _resolve_canonical_fact (data : threshold_data) : option string :=
  if negb (truthy (d_canonical_fact data)) && negb (String.eqb (d_metric data) "") then
    let res := resolve_canonical_fact (d_metric data) (Some (d_unit data))
                 (Some (d_value data)) (d_value_upper data) in
    if is_valid res && truthy (canonical_identifier res)
    then canonical_identifier res else d_canonical_fact data
  else d_canonical_fact data.

Definition _upper_requires_range (op : ComparisonOperator) (v : option spec_float) : bool :=
  match v with Some _ => bool_decide (op = RANGE) | None => true end.

(** Validation of a threshold dict. *)
Definition validate_threshold (data : threshold_data) : res schema_error NumericalThreshold :=
  let upper := num_float <$> d_value_upper data in
  if _upper_requires_range (d_operator data) upper then
    Ok {| metric := d_metric data; canonical_fact := _resolve_canonical_fact data;
          operator := d_operator data; value := num_float (d_value data); value_upper := upper;
          unit_ := d_unit data; applies_to := d_applies_to data; nt_evidence := d_evidence data |}
  else Raise UpperRequiresRange.

Record QualitativeDirective := Directive { directive_text : string; qd_evidence : string }.

Record ExtractedComplianceRule := Rule
  { rule_id : string
  ; source_chunk_id : string
  ; source_sha256 : string
  ; source_document_sha256 : option string
  ; extracted_text_sha256 : option string
  ; circular_number : option string
  ; clause_number : option string
  ; section_path : list string
  ; regulator : Regulator
  ; regulatory_domain : option string
  ; target_entities : list TargetEntity
  ; trigger_conditions : list TriggerCondition
  ; deterministic_logic : list NumericalThreshold
  ; qualitative_directives : list QualitativeDirective
  ; obligation_type : ObligationType
  ; extraction_confidence : spec_float
  ; ambiguous_spans : list string
  ; extraction_notes : option string
  ; canonical_facts_digest : option string }.

(** A threshold as the digest reads it. *)
Definition digest_item (t : NumericalThreshold) : fact_item :=
  {| fi_metric := metric t; fi_canonical_fact := canonical_fact t;
     fi_operator := op_str (operator t); fi_value := Some (value t);
     fi_value_upper := value_upper t; fi_unit := unit_ t |}.

Definition _ensure_canonical_facts_digest (r : ExtractedComplianceRule) : option string :=
  match canonical_facts_digest r with
  | Some d => Some d
  | None => Some (compute_canonical_facts_digest (map digest_item (deterministic_logic r)))
  end.

(** [ExtractedComplianceRule(...)] *)
Definition validate_rule (r : ExtractedComplianceRule) : res schema_error ExtractedComplianceRule :=
  if flt_leb (float_of_Z 0) (extraction_confidence r)
     && flt_leb (extraction_confidence r) (float_of_Z 1) then
    Ok {| rule_id := rule_id r; source_chunk_id := source_chunk_id r;
          source_sha256 := source_sha256 r; source_document_sha256 := source_document_sha256 r;
          extracted_text_sha256 := extracted_text_sha256 r; circular_number := circular_number r;
          clause_number := clause_number r; section_path := section_path r;
          regulator := regulator r; regulatory_domain := regulatory_domain r;
          target_entities := target_entities r; trigger_conditions := trigger_conditions r;
          deterministic_logic := deterministic_logic r;
          qualitative_directives := qualitative_directives r;
          obligation_type := obligation_type r; extraction_confidence := extraction_confidence r;
          ambiguous_spans := ambiguous_spans r; extraction_notes := extraction_notes r;
          canonical_facts_digest := _ensure_canonical_facts_digest r |}
  else Raise ConfidenceOutOfRange.

(** ** The auditor's output *)
Inductive FindingType :=
| HALLUCINATED_THRESHOLD | HALLUCINATED_ENTITY | INCORRECT_ENTITY_ASSIGNMENT | MISSING_CONTEXT
| UNSUPPORTED_CLAIM | MISCLASSIFIED_OBLIGATION | SCOPE_OVERREACH | UNIT_OR_VALUE_MISMATCH
| FINDING_OK.

Definition finding_value (f : FindingType) : string :=
  match f with
  | HALLUCINATED_THRESHOLD => "hallucinated_threshold"
  | HALLUCINATED_ENTITY => "hallucinated_entity"
  | INCORRECT_ENTITY_ASSIGNMENT => "incorrect_entity_assignment"
  | MISSING_CONTEXT => "missing_context"
  | UNSUPPORTED_CLAIM => "unsupported_claim"
  | MISCLASSIFIED_OBLIGATION => "misclassified_obligation"
  | SCOPE_OVERREACH => "scope_overreach"
  | UNIT_OR_VALUE_MISMATCH => "unit_or_value_mismatch"
  | FINDING_OK => "ok"
  end.

Inductive Severity := BLOCKER | MAJOR | MINOR | INFO.

Definition severity_value (s : Severity) : string :=
  match s with BLOCKER => "blocker" | MAJOR => "major" | MINOR => "minor" | INFO => "info" end.

Record AuditFinding := Finding
  { finding_type : FindingType; severity : Severity; af_field_path : string;
    af_description : string; af_source_excerpt : option string;
    suggested_correction : option string }.

Inductive AuditVerdict := APPROVED | NEEDS_REVISION | REJECTED.

#[export] Instance AuditVerdict_eq_dec : EqDecision AuditVerdict.
Proof. solve_decision. Defined.

Definition verdict_value (v : AuditVerdict) : string :=
  match v with
  | APPROVED => "approved" | NEEDS_REVISION => "needs_revision" | REJECTED => "rejected"
  end.

Record ComplianceRuleAudit := Audit
  { au_rule_id : string; verdict : AuditVerdict; fidelity_score : spec_float;
    findings : list AuditFinding; verified_quote_count : Z; unverified_quote_count : Z }.

Record AuditedComplianceRule := Audited
  { au_rule : ExtractedComplianceRule; au_audit : ComplianceRuleAudit; revision_round : Z }.
