(* ===== verification/Compiler.v ===== *)
(** * The policy compiler

    [src/app/compiler/jsonlogic_compiler.py], [jsonlogic_validator.py],
    [rego_compiler.py], [hitl.py] and [pipeline.py]: the flags that route a
    rule to human review, the two code generators and the gate in front of
    them; before them the names of [naming.py] and the results of [models.py]. *)
From S2P Require Import Prelude PyStr PyFloat Sha256 Json Datetime PyRe Facts Taxonomy Schemas.

Open Scope string_scope.

(** What compilation can raise. *)
Inductive compile_error :=
| UndefinedFactError (msg : string)
| ValueError (msg : string)
| AssertionError
| MalformedASTError (msg : string).

Definition _UNIT_SUFFIX : list (string * string) :=
  [ ("%", "pct"); ("percent", "pct"); ("per cent", "pct"); ("bps", "bps"); ("basis points", "bps");
    ("days", "days"); ("day", "days"); ("months", "months"); ("month", "months");
    ("years", "years"); ("year", "years"); ("hours", "hours"); ("hour", "hours");
    ("inr crore", "inr_crore"); ("inr lakh", "inr_lakh"); ("crore", "inr_crore");
    ("lakh", "inr_lakh"); ("inr", "inr"); ("rs", "inr"); ("rs.", "inr"); ("₹", "inr") ].

(** [slugify(text)] with the default separator. *)
Definition slugify (text : string) : string :=
  let slug := strip_by (Ascii.eqb "_") (sub_runs (λ c, negb (alnum c)) "_" (lower (strip text))) in
  if String.eqb slug "" then "unnamed" else slug.

Definition clause_slug (clause_number : option string) : string :=
  if truthy clause_number then slugify (str_or clause_number "") else "unscoped".

Definition circular_slug (circular_number : option string) : string :=
  if truthy circular_number then slugify (str_or circular_number "") else "uncategorized_circular".

Definition metric_field_name (metric unit_ : string) (allow_unmapped : bool)
  : res compile_error string :=
  let res := resolve_canonical_fact metric (Some unit_) None None in
  if is_valid res && truthy (canonical_identifier res)
  then Ok (str_or (canonical_identifier res) "")
  else if negb allow_unmapped then
    Raise (UndefinedFactError
      ("Metric '" +:+ metric +:+ "' (unit: '" +:+ unit_
       +:+ "') cannot be mapped to a canonical regulatory fact: "
       +:+ match error_message res with Some m => m | None => "None" end))
  else
    let base := slugify metric in
    match obj_get (lower (strip unit_)) _UNIT_SUFFIX with
    | Some suffix =>
        if negb (String.eqb suffix "") && negb (endswith suffix base)
        then Ok (base +:+ "_" +:+ suffix) else Ok base
    | None => Ok base
    end.

Definition rego_package_name (regulator : Regulator) (domain : string)
    (circular_number clause_number : option string) : string :=
  regulator_value regulator +:+ "." +:+ domain +:+ ".circulars." +:+ circular_slug circular_number
  +:+ ".clause_" +:+ clause_slug clause_number.

(** ** Result models *)
Record CompiledRego := Rego
  { rg_rule_id : string
  ; package : string
  ; rego_code : string
  ; entrypoints : list string
  ; rg_thresholds_compiled : Z
  ; rule_version : Z
  ; policy_sha256 : string
  ; rg_canonical_facts_digest : string
  ; compiler_version : string }.

Record JsonLogicRule := JLRule
  { jl_rule_id : string
  ; logic : json
  ; data_schema : list (string * string)
  ; violation_message_template : string
  ; jl_thresholds_compiled : Z }.

Inductive HITLReasonCode :=
| QUALITATIVE_DIRECTIVE | AMBIGUOUS_SPAN | LOW_EXTRACTION_CONFIDENCE | AUDIT_NOT_APPROVED
| NO_DETERMINISTIC_LOGIC | CONFLICTING_THRESHOLDS | UNRESOLVED_ENTITY
| SELF_HEALED_REQUIRES_REVIEW | UNKNOWN_FACT_METRIC | INVALID_METRIC_UNIT
| INVALID_THRESHOLD_VALUE.

#[export] Instance HITLReasonCode_eq_dec : EqDecision HITLReasonCode.
Proof. solve_decision. Defined.

Definition reason_value (r : HITLReasonCode) : string :=
  match r with
  | QUALITATIVE_DIRECTIVE => "qualitative_directive"
  | AMBIGUOUS_SPAN => "ambiguous_span"
  | LOW_EXTRACTION_CONFIDENCE => "low_extraction_confidence"
  | AUDIT_NOT_APPROVED => "audit_not_approved"
  | NO_DETERMINISTIC_LOGIC => "no_deterministic_logic"
  | CONFLICTING_THRESHOLDS => "conflicting_thresholds"
  | UNRESOLVED_ENTITY => "unresolved_entity"
  | SELF_HEALED_REQUIRES_REVIEW => "self_healed_requires_review"
  | UNKNOWN_FACT_METRIC => "unknown_fact_metric"
  | INVALID_METRIC_UNIT => "invalid_metric_unit"
  | INVALID_THRESHOLD_VALUE => "invalid_threshold_value"
  end.

Inductive HITLSeverity := BLOCKING | ADVISORY.

#[export] Instance HITLSeverity_eq_dec : EqDecision HITLSeverity.
Proof. solve_decision. Defined.

(** A flag, without the random id and the time it is stamped with. *)
Record HITLFlag := Flag
  { hf_rule_id : string
  ; reason_code : HITLReasonCode
  ; hf_severity : HITLSeverity
  ; hf_description : string
  ; source_excerpt : option string
  ; field_path : option string }.

Record CompilationResult := Compilation
  { cr_rule_id : string
  ; compiled : bool
  ; rego : option CompiledRego
  ; json_logic : option JsonLogicRule
  ; hitl_flags : list HITLFlag }.

Open Scope string_scope.

(** ** JSON-Logic generation *)
Definition _var (path : string) : json := JObj [("var", JStr path)].

Definition _threshold_var_path (threshold : NumericalThreshold) : res compile_error string :=
  if truthy (canonical_fact threshold)
  then Ok ("facts." +:+ str_or (canonical_fact threshold) "")
  else res_bind (metric_field_name (metric threshold) (unit_ threshold) false)
         (λ f, Ok ("facts." +:+ f)).

Definition _threshold_to_logic (threshold : NumericalThreshold) : res compile_error json :=
  res_bind (_threshold_var_path threshold) (λ path,
  match operator threshold with
  | RANGE =>
      match value_upper threshold with
      | None => Raise AssertionError
      | Some upper =>
          Ok (JObj [("and",
            JList [ JObj [(">=", JList [_var path; JFloat (value threshold)])];
                    JObj [("<=", JList [_var path; JFloat upper])] ])])
      end
  | op => Ok (JObj [(op_value op, JList [_var path; JFloat (value threshold)])])
  end).

(** [e.normalized_entity or e.raw_text] *)
Definition entity_name (e : TargetEntity) : string := str_or (normalized_entity e) (raw_text e).

(** The sorted set of the rule's non-empty entity names. *)
Definition rule_entities (rule : ExtractedComplianceRule) : list string :=
  sorted_strs (remove_dups
    (List.filter (λ s, negb (String.eqb s "")) (map entity_name (target_entities rule)))).

Definition _entity_logic (rule : ExtractedComplianceRule) : option json :=
  match rule_entities rule with
  | [] => None
  | [e] => Some (JObj [("==", JList [_var "entity_type"; JStr e])])
  | es => Some (JObj [("in", JList [_var "entity_type"; JList (map JStr es)])])
  end.

(** [schema[k] = v] *)
Fixpoint dict_set {A} (k : string) (v : A) (d : list (string * A)) : list (string * A) :=
  match d with
  | [] => [(k, v)]
  | (k', v') :: d' => if String.eqb k k' then (k, v) :: d' else (k', v') :: dict_set k v d'
  end.

Lemma dict_set_keys {A} k (v : A) d x : x ∈ map fst (dict_set k v d) ↔ x = k ∨ x ∈ map fst d.
Proof.
  induction d as [|[k' v'] d IH]; cbn [dict_set map fst]; [set_solver|].
  destruct (String.eqb_spec k k') as [->|]; cbn [map fst]; [set_solver|]. rewrite !elem_of_cons IH. naive_solver.
Qed.

Lemma dict_set_elem {A} k (v : A) d x : x ∈ dict_set k v d → x = (k, v) ∨ x ∈ d.
Proof.
  induction d as [|[k' v'] d IH]; cbn [dict_set]; [set_solver|].
  destruct (String.eqb_spec k k') as [->|]; [set_solver|]. rewrite !elem_of_cons. naive_solver.
Qed.

Definition _data_schema (rule : ExtractedComplianceRule)
  : res compile_error (list (string * string)) :=
  fold_left (λ acc t, res_bind acc (λ schema,
               res_bind (_threshold_var_path t) (λ path, Ok (dict_set path "number" schema))))
    (deterministic_logic rule) (Ok [("entity_type", "string")]).

Definition opt_float_str (o : option spec_float) : string :=
  match o with Some f => float_repr f | None => "None" end.

Definition _message_part (clause : string) (t : NumericalThreshold) : res compile_error string :=
  res_bind (_threshold_var_path t) (λ path,
  let placeholder := "{" +:+ path +:+ "}" in
  let scope := if truthy (applies_to t) then " for " +:+ str_or (applies_to t) "" else "" in
  Ok match operator t with
     | RANGE =>
         metric t +:+ " is " +:+ placeholder +:+ " " +:+ unit_ t +:+ ", required to be between "
         +:+ float_repr (value t) +:+ " and " +:+ opt_float_str (value_upper t) +:+ " " +:+ unit_ t
         +:+ scope +:+ " (clause " +:+ clause +:+ ")"
     | op =>
         metric t +:+ " is " +:+ placeholder +:+ " " +:+ unit_ t +:+ ", required to be "
         +:+ op_value op +:+ " " +:+ float_repr (value t) +:+ " " +:+ unit_ t
         +:+ scope +:+ " (clause " +:+ clause +:+ ")"
     end).

Definition _message_template (rule : ExtractedComplianceRule) : res compile_error string :=
  let clause := str_or (clause_number rule) "unscoped" in
  res_bind (res_mapM (_message_part clause) (deterministic_logic rule)) (λ parts,
  Ok (join " AND " parts)).

Definition compile_rule_to_jsonlogic (rule : ExtractedComplianceRule)
  : res compile_error JsonLogicRule :=
  match deterministic_logic rule with
  | [] => Raise (ValueError ("Rule " +:+ rule_id rule +:+ " has no deterministic_logic to compile."))
  | _ =>
      res_bind (res_mapM _threshold_to_logic (deterministic_logic rule)) (λ threshold_clauses,
      let all_clauses :=
        (match _entity_logic rule with Some c => [c] | None => [] end ++ threshold_clauses)%list in
      let logic := match all_clauses with [c] => c | cs => JObj [("and", JList cs)] end in
      res_bind (_data_schema rule) (λ schema,
      res_bind (_message_template rule) (λ template,
      Ok {| jl_rule_id := rule_id rule; logic := logic; data_schema := schema;
            violation_message_template := template;
            jl_thresholds_compiled := Z.of_nat (length (deterministic_logic rule)) |})))
  end.

(** ** Validation of the generated AST *)
Fixpoint validate_json_logic_ast (node : json) (path : string) : res compile_error unit :=
  match node with
  | JNull | JBool _ | JInt _ | JFloat _ | JStr _ => Ok tt
  | JList l =>
      (fix go (i : Z) (l : list json) : res compile_error unit :=
         match l with
         | [] => Ok tt
         | item :: l' =>
             res_bind (validate_json_logic_ast item (path +:+ "[" +:+ str_of_Z i +:+ "]"))
               (λ _, go (i + 1)%Z l')
         end) 0%Z l
  | JObj [(op, operand)] =>
      if String.eqb op "" then
        Raise (MalformedASTError
          ("Invalid JSON-Logic node at " +:+ path
           +:+ ": operator key must be a non-empty string, got ''."))
      else validate_json_logic_ast operand (path +:+ "." +:+ op)
  | JObj kvs =>
      Raise (MalformedASTError
        ("Invalid JSON-Logic node at " +:+ path
         +:+ ": operator objects must have exactly one key, got "
         +:+ str_of_Z (Z.of_nat (length kvs)) +:+ " (" +:+ str_list_repr (sorted_strs (map fst kvs))
         +:+ ")."))
  end.

Definition finite_float (f : spec_float) : bool :=
  match f with S754_nan | S754_infinity _ => false | _ => true end.

(** [json.dumps(node, allow_nan=False)] succeeds *)
Fixpoint json_finite (node : json) : bool :=
  match node with
  | JFloat f => finite_float f
  | JList l => forallb json_finite l
  | JObj kvs => forallb (λ kv, json_finite kv.2) kvs
  | _ => true
  end.

Definition validate_json_serializable (node : json) (context : string) : res compile_error unit :=
  if json_finite node then Ok tt
  else Raise (MalformedASTError
    (context +:+ " is not valid JSON: Out of range float values are not JSON compliant")).

(** ** Rego generation *)
Definition _INDENT : string := "    ".

Definition _OPERATOR_NEGATION (op : ComparisonOperator) : option string :=
  match op with
  | GTE => Some "<" | GT => Some "<=" | LTE => Some ">" | LT => Some ">=" | EQ => Some "!="
  | RANGE => None
  end.

Definition _rego_scalar (value : spec_float) : string :=
  if float_is_integer value then str_of_Z (int_of_float value) else float_repr value.

Definition _entity_guard (rule : ExtractedComplianceRule) : option string :=
  match rule_entities rule with
  | [] => None
  | [e] => Some ("input.entity_type == " +:+ dq e)
  | es => Some ("input.entity_type in {" +:+ join ", " (map dq es) +:+ "}")
  end.

Definition _threshold_field (threshold : NumericalThreshold) : res compile_error string :=
  if truthy (canonical_fact threshold) then
    let cf := str_or (canonical_fact threshold) "" in
    match get_canonical_fact cf with
    | None =>
        Raise (UndefinedFactError ("Threshold specifies undefined canonical fact '" +:+ cf +:+ "'"))
    | Some _ => Ok cf
    end
  else metric_field_name (metric threshold) (unit_ threshold) false.

(** A comparison [field op scalar] of the generated module. *)
Record rego_cmp := RegoCmp { rc_field : string; rc_op : string; rc_value : spec_float }.

Definition render_cmp (c : rego_cmp) : string :=
  rc_field c +:+ " " +:+ rc_op c +:+ " " +:+ _rego_scalar (rc_value c).

(** The conjuncts of [cond_i]. *)
Definition pass_cmps (threshold : NumericalThreshold) : res compile_error (list rego_cmp) :=
  res_bind (_threshold_field threshold) (λ f,
  let field := "input.facts." +:+ f in
  match operator threshold with
  | RANGE =>
      match value_upper threshold with
      | None => Raise AssertionError
      | Some upper =>
          Ok [RegoCmp field ">=" (value threshold); RegoCmp field "<=" upper]
      end
  | op => Ok [RegoCmp field (op_value op) (value threshold)]
  end).

Definition _pass_condition (threshold : NumericalThreshold) : res compile_error string :=
  res_bind (pass_cmps threshold) (λ cs,
  Ok (join (String newline _INDENT) (map render_cmp cs))).

Definition list_expr (l : list string) : string := "[" +:+ join ", " l +:+ "]".

Definition _violation_clauses (threshold : NumericalThreshold)
  : res compile_error (list (rego_cmp * string)) :=
  res_bind (_threshold_field threshold) (λ f,
  let field := "input.facts." +:+ f in
  let scope :=
    if truthy (applies_to threshold) then " for " +:+ str_or (applies_to threshold) "" else "" in
  let m := dq (metric threshold) in
  let u := dq (unit_ threshold) in
  match operator threshold with
  | RANGE =>
      match value_upper threshold with
      | None => Raise AssertionError
      | Some upper =>
          let low_msg :=
            "sprintf(" +:+ dq ("%s is %v %s, below the required minimum of %v %s" +:+ scope
                               +:+ " (clause {clause})") +:+ ", "
            +:+ list_expr [m; field; u; _rego_scalar (value threshold); u] +:+ ")" in
          let high_msg :=
            "sprintf(" +:+ dq ("%s is %v %s, above the allowed maximum of %v %s" +:+ scope
                               +:+ " (clause {clause})") +:+ ", "
            +:+ list_expr [m; field; u; _rego_scalar upper; u] +:+ ")" in
          Ok [(RegoCmp field "<" (value threshold), low_msg); (RegoCmp field ">" upper, high_msg)]
      end
  | op =>
      match _OPERATOR_NEGATION op with
      | None => Raise AssertionError
      | Some fail_op =>
          let msg :=
            "sprintf(" +:+ dq ("%s is %v %s, which fails the required condition (%s %v %s" +:+ scope
                               +:+ ", clause {clause})") +:+ ", "
            +:+ list_expr [m; field; u; dq (op_value op); _rego_scalar (value threshold); u]
            +:+ ")" in
          Ok [(RegoCmp field fail_op (value threshold), msg)]
      end
  end).

Definition metadata_lines (rule : ExtractedComplianceRule) (rule_version : Z)
    (package clause cf_digest : string) (now : datetime) : list string :=
  let title :=
    match deterministic_logic rule with
    | [t] => metric t +:+ " Compliance Rule"
    | ts => "Multi-Condition Compliance Rule (" +:+ join ", " (map metric ts) +:+ ")"
    end in
  ( [ "# METADATA";
      "# title: " +:+ title;
      "# description: Auto-compiled from SEBI clause " +:+ clause;
      "# custom:";
      "#   rule_id: " +:+ rule_id rule;
      "#   rule_version: " +:+ str_of_Z rule_version;
      "#   clause_number: " +:+ clause;
      "#   circular_number: " +:+ str_or (circular_number rule) "unknown";
      "#   source_sha256: " +:+ source_sha256 rule ]
    ++ (if truthy (source_document_sha256 rule)
        then ["#   source_document_sha256: " +:+ str_or (source_document_sha256 rule) ""] else [])
    ++ (if truthy (extracted_text_sha256 rule)
        then ["#   extracted_text_sha256: " +:+ str_or (extracted_text_sha256 rule) ""] else [])
    ++ [ "#   canonical_facts_digest: " +:+ cf_digest;
         "#   obligation_type: " +:+ obligation_value (obligation_type rule);
         "#   generated_at: " +:+ iso_utc (utc_us now) +:+ "Z";
         "#   compiler: sebi-rego-compiler/1.0.0";
         "package " +:+ package; ""; "import rego.v1"; ""; "default allow := false"; "" ])%list.

(** The block [cond_i if { ... }]. *)
Definition cond_lines (i : Z) (threshold : NumericalThreshold) : res compile_error (list string) :=
  res_bind (_pass_condition threshold) (λ cond,
  Ok ([ "# " +:+ metric threshold +:+ " " +:+ op_value (operator threshold) +:+ " "
        +:+ float_repr (value threshold) +:+ unit_ threshold;
        "cond_" +:+ str_of_Z i +:+ " if {" ]
      ++ map (λ l, _INDENT +:+ l) (split_on newline cond) ++ ["}"; ""])%list).

(** The blocks [violation contains msg if { ... }]. *)
Definition violation_lines (clause : string) (entity_guard : option string)
    (threshold : NumericalThreshold) : res compile_error (list string) :=
  res_bind (_violation_clauses threshold) (λ cs,
  Ok (flat_map (λ c,
        [ "violation contains msg if {" ]
        ++ (if entity_guard is Some _ then [_INDENT +:+ "entity_matches"] else [])
        ++ [ _INDENT +:+ render_cmp c.1;
             _INDENT +:+ "msg := " +:+ str_replace "{clause}" clause c.2; "}"; "" ])%list cs)).

Fixpoint indexed_mapM {A B E} (f : Z → A → res E B) (i : Z) (l : list A) : res E (list B) :=
  match l with
  | [] => Ok []
  | x :: l' => res_bind (f i x) (λ y, res_bind (indexed_mapM f (i + 1) l') (λ ys, Ok (y :: ys)))
  end.

Definition decision_lines (rule : ExtractedComplianceRule) (rule_version : Z)
    (clause cf_digest : string) : list string :=
  let field (k v : string) := _INDENT +:+ dq k +:+ ": " +:+ v +:+ "," in
  [ "deny := violation"; ""; "decision := {";
    field "allow" "allow"; field "violations" "violation"; field "rule_id" (dq (rule_id rule));
    field "rule_version" (str_of_Z rule_version); field "clause_number" (dq clause);
    field "circular_number" (dumps match circular_number rule with Some s => JStr s | None => JNull end);
    field "obligation_type" (dq (obligation_value (obligation_type rule)));
    field "source_sha256" (dq (source_sha256 rule));
    field "source_document_sha256"
      (dumps match source_document_sha256 rule with Some s => JStr s | None => JNull end);
    field "extracted_text_sha256"
      (dumps match extracted_text_sha256 rule with Some s => JStr s | None => JNull end);
    field "canonical_facts_digest" (dq cf_digest); "}"; "" ].

Definition compile_rule_to_rego (rule : ExtractedComplianceRule) (rule_version : Z) (now : datetime)
  : res compile_error CompiledRego :=
  match deterministic_logic rule with
  | [] => Raise (ValueError ("Rule " +:+ rule_id rule +:+ " has no deterministic_logic to compile."))
  | ts =>
      let primary_entity :=
        match target_entities rule with e :: _ => normalized_entity e | [] => None end in
      let domain := str_or (regulatory_domain rule) (resolve_domain (regulator rule) primary_entity) in
      let package :=
        rego_package_name (regulator rule) domain (circular_number rule) (clause_number rule) in
      let clause := str_or (clause_number rule) "unscoped" in
      let entity_guard := _entity_guard rule in
      let cf_digest :=
        str_or (canonical_facts_digest rule) (compute_canonical_facts_digest (map digest_item ts)) in
      res_bind (indexed_mapM cond_lines 0 ts) (λ conds,
      res_bind (res_mapM (violation_lines clause entity_guard) ts) (λ violations,
      let cond_names := map (λ i, "cond_" +:+ str_of_Z (Z.of_nat i)) (seq 0 (length ts)) in
      let lines :=
        (metadata_lines rule rule_version package clause cf_digest now
         ++ match entity_guard with
            | Some g => ["entity_matches if { " +:+ g +:+ " }"; ""]
            | None => []
            end
         ++ concat conds
         ++ ["allow if {"]
         ++ (if entity_guard is Some _ then [_INDENT +:+ "entity_matches"] else [])
         ++ map (λ c, _INDENT +:+ c) cond_names ++ ["}"; ""]
         ++ concat violations
         ++ decision_lines rule rule_version clause cf_digest)%list in
      let code := join (String newline "") lines in
      Ok {| rg_rule_id := rule_id rule; package := package; rego_code := code;
            entrypoints := ["allow"; "deny"; "decision"];
            rg_thresholds_compiled := Z.of_nat (length ts); rule_version := rule_version;
            policy_sha256 := sha256_hex code; rg_canonical_facts_digest := cf_digest;
            compiler_version := "1.0.0" |}))
  end.

(** ** Flags for human review *)

(** 0.75 *)
Definition LOW_CONFIDENCE_THRESHOLD : spec_float := decimal 75 2.

Fixpoint enumerate {A} (i : Z) (l : list A) : list (Z * A) :=
  match l with [] => [] | x :: l' => (i, x) :: enumerate (i + 1) l' end.

Definition indexed (name : string) (i : Z) : string := name +:+ "[" +:+ str_of_Z i +:+ "]".

Definition flag_qualitative_directives (rule : ExtractedComplianceRule) : list HITLFlag :=
  map (λ iq,
    {| hf_rule_id := rule_id rule; reason_code := QUALITATIVE_DIRECTIVE; hf_severity := ADVISORY;
       hf_description :=
         "Qualitative directive cannot be programmatically enforced: " +:+ dq (directive_text iq.2)
         +:+ ". Requires a human-authored control (policy "
         +:+ "attestation, manual checklist, or narrative audit procedure).";
       source_excerpt := Some (qd_evidence iq.2);
       field_path := Some (indexed "qualitative_directives" iq.1) |})
    (enumerate 0 (qualitative_directives rule)).

Definition flag_ambiguous_spans (rule : ExtractedComplianceRule) : list HITLFlag :=
  map (λ isp,
    {| hf_rule_id := rule_id rule; reason_code := AMBIGUOUS_SPAN; hf_severity := ADVISORY;
       hf_description :=
         "Extraction agent flagged this span as too ambiguous to structure "
         +:+ "automatically. Review the source clause to determine whether it "
         +:+ "encodes an additional obligation, exception, or is non-normative.";
       source_excerpt := Some isp.2; field_path := Some (indexed "ambiguous_spans" isp.1) |})
    (enumerate 0 (ambiguous_spans rule)).

Definition flag_low_confidence (rule : ExtractedComplianceRule) : list HITLFlag :=
  if flt_leb LOW_CONFIDENCE_THRESHOLD (extraction_confidence rule) then []
  else
    [{| hf_rule_id := rule_id rule; reason_code := LOW_EXTRACTION_CONFIDENCE;
        hf_severity := BLOCKING;
        hf_description :=
          "Extraction confidence (" +:+ fmt_fixed 2 (extraction_confidence rule)
          +:+ ") is below the " +:+ fmt_fixed 2 LOW_CONFIDENCE_THRESHOLD
          +:+ " threshold required for automated compilation. "
          +:+ "A human must confirm the extraction before any Rego/JSON-Logic output is trusted.";
        source_excerpt := None; field_path := Some "extraction_confidence" |}].

Definition flag_unresolved_entities (rule : ExtractedComplianceRule) : list HITLFlag :=
  flat_map (λ ie,
    match normalized_entity ie.2 with
    | Some _ => []
    | None =>
        [{| hf_rule_id := rule_id rule; reason_code := UNRESOLVED_ENTITY; hf_severity := ADVISORY;
            hf_description :=
              "Entity phrase " +:+ dq (raw_text ie.2)
              +:+ " could not be normalized against the SEBI entity "
              +:+ "taxonomy. The compiled policy will match on this raw entity string, which may "
              +:+ "not align with how entity_type is populated in production input payloads.";
            source_excerpt := Some (te_evidence ie.2);
            field_path := Some (indexed "target_entities" ie.1) |}]
    end) (enumerate 0 (target_entities rule)).

Definition flag_no_deterministic_logic (rule : ExtractedComplianceRule) : list HITLFlag :=
  match deterministic_logic rule, obligation_type rule with
  | _ :: _, _ => []
  | [], RECOMMENDED => []
  | [], o =>
      [{| hf_rule_id := rule_id rule; reason_code := NO_DETERMINISTIC_LOGIC; hf_severity := BLOCKING;
          hf_description :=
            "Obligation is classified '" +:+ obligation_value o +:+ "' but no numerical "
            +:+ "thresholds were extracted. Manual authoring of the enforcement rule is required.";
          source_excerpt := None; field_path := Some "deterministic_logic" |}]
  end.

(** [d.setdefault(k, []).append(x)] *)
Fixpoint dict_append {A} (k : string) (x : A) (d : list (string * list A)) : list (string * list A) :=
  match d with
  | [] => [(k, [x])]
  | (k', xs) :: d' =>
      if String.eqb k k' then (k', xs ++ [x])%list :: d' else (k', xs) :: dict_append k x d'
  end.

Definition field_key (t : NumericalThreshold) : string := metric t +:+ "|" +:+ unit_ t.

Definition by_field (ts : list NumericalThreshold) : list (string * list NumericalThreshold) :=
  fold_left (λ d t, dict_append (field_key t) t d) ts [].

(** [min(l)] and [max(l)] of a non-empty list, the first being [x]. *)
Definition py_min (x : spec_float) (l : list spec_float) : spec_float :=
  fold_left (λ m y, if flt_ltb y m then y else m) l x.
Definition py_max (x : spec_float) (l : list spec_float) : spec_float :=
  fold_left (λ m y, if flt_ltb m y then y else m) l x.

Definition is_lower_bound (t : NumericalThreshold) : bool :=
  match operator t with GTE | GT => true | _ => false end.
Definition is_upper_bound (t : NumericalThreshold) : bool :=
  match operator t with LTE | LT => true | _ => false end.

Definition lower_bounds (ts : list NumericalThreshold) : list spec_float :=
  map value (List.filter is_lower_bound ts).
Definition upper_bounds (ts : list NumericalThreshold) : list spec_float :=
  map value (List.filter is_upper_bound ts).

Definition conflicting (ts : list NumericalThreshold) : bool :=
  match lower_bounds ts, upper_bounds ts with
  | l :: ls, u :: us => flt_ltb (py_max u us) (py_min l ls)
  | _, _ => false
  end.

Definition float_list_repr (l : list spec_float) : string :=
  "[" +:+ join ", " (map float_repr l) +:+ "]".

Definition flag_conflicting_thresholds (rule : ExtractedComplianceRule) : list HITLFlag :=
  flat_map (λ kts,
    if Nat.ltb (length kts.2) 2 then []
    else if conflicting kts.2 then
      [{| hf_rule_id := rule_id rule; reason_code := CONFLICTING_THRESHOLDS; hf_severity := BLOCKING;
          hf_description :=
            "Conflicting thresholds extracted for '" +:+ kts.1 +:+ "': lower bound(s) "
            +:+ float_list_repr (lower_bounds kts.2) +:+ " exceed upper bound(s) "
            +:+ float_list_repr (upper_bounds kts.2) +:+ ". This combination "
            +:+ "can never be satisfied and likely indicates an extraction error.";
          source_excerpt := None; field_path := Some "deterministic_logic" |}]
    else []) (by_field (deterministic_logic rule)).

Definition flag_audit_not_approved (audited : AuditedComplianceRule) : list HITLFlag :=
  match verdict (au_audit audited) with
  | APPROVED => []
  | v =>
      let summary := join "; "
        (map (λ f, "[" +:+ severity_value (severity f) +:+ "] " +:+ finding_value (finding_type f)
                   +:+ ": " +:+ af_description f) (findings (au_audit audited))) in
      let findings_summary := if String.eqb summary "" then "no findings listed" else summary in
      [{| hf_rule_id := rule_id (au_rule audited); reason_code := AUDIT_NOT_APPROVED;
          hf_severity := BLOCKING;
          hf_description :=
            "Logic Auditor Agent verdict was '" +:+ verdict_value v +:+ "' "
            +:+ "(fidelity_score=" +:+ fmt_fixed 2 (fidelity_score (au_audit audited))
            +:+ "). Findings: " +:+ findings_summary;
          source_excerpt := None; field_path := None |}]
  end.

(** The flag for the [i]-th threshold, if any. *)
Definition flag_fact (rule : ExtractedComplianceRule) (it : Z * NumericalThreshold)
  : list HITLFlag :=
  let (i, t) := it in
  let res := resolve_canonical_fact (metric t) (Some (unit_ t)) (Some (PFlt (value t)))
               (PFlt <$> value_upper t) in
  let mk reason descr part :=
    [{| hf_rule_id := rule_id rule; reason_code := reason; hf_severity := BLOCKING;
        hf_description := descr; source_excerpt := Some (nt_evidence t);
        field_path := Some (indexed "deterministic_logic" i +:+ part) |}] in
  match status res with
  | VALID => []
  | MISSING_MAPPING =>
      mk UNKNOWN_FACT_METRIC
        ("Metric '" +:+ metric t +:+ "' cannot be mapped to any canonical regulatory fact "
         +:+ "in the taxonomy. Silent field name invention is prohibited. "
         +:+ "Human review is required to establish a canonical mapping.") ".metric"
  | WRONG_UNIT =>
      mk INVALID_METRIC_UNIT
        (str_or (error_message res) ("Unit '" +:+ unit_ t +:+ "' is invalid for fact.")) ".unit"
  | WRONG_THRESHOLD =>
      mk INVALID_THRESHOLD_VALUE
        (str_or (error_message res)
           ("Threshold value " +:+ float_repr (value t) +:+ " is out of bounds.")) ".value"
  end.

Definition flag_unmapped_or_invalid_facts (rule : ExtractedComplianceRule) : list HITLFlag :=
  flat_map (flag_fact rule) (enumerate 0 (deterministic_logic rule)).

Definition collect_hitl_flags (audited : AuditedComplianceRule) : list HITLFlag :=
  let rule := au_rule audited in
  (flag_audit_not_approved audited ++ flag_low_confidence rule
   ++ flag_unmapped_or_invalid_facts rule ++ flag_conflicting_thresholds rule
   ++ flag_no_deterministic_logic rule ++ flag_qualitative_directives rule
   ++ flag_ambiguous_spans rule ++ flag_unresolved_entities rule)%list.

Definition has_blocking_flags (flags : list HITLFlag) : bool :=
  existsb (λ f, bool_decide (hf_severity f = BLOCKING)) flags.

(** ** The pipeline *)
Definition compile_audited_rule (audited : AuditedComplianceRule) (rule_version : Z)
    (now : datetime) : res compile_error CompilationResult :=
  let rule := au_rule audited in
  let flags := collect_hitl_flags audited in
  if has_blocking_flags flags || match deterministic_logic rule with [] => true | _ => false end then
    Ok {| cr_rule_id := rule_id rule; compiled := false; rego := None; json_logic := None;
          hitl_flags := flags |}
  else
    res_bind (compile_rule_to_rego rule rule_version now) (λ rego,
    res_bind (compile_rule_to_jsonlogic rule) (λ json_logic,
    res_bind (validate_json_logic_ast (logic json_logic) "$") (λ _,
    res_bind (validate_json_serializable (logic json_logic)
                ("JsonLogicRule.logic for rule_id='" +:+ rule_id rule +:+ "'")) (λ _,
    Ok {| cr_rule_id := rule_id rule; compiled := true; rego := Some rego;
          json_logic := Some json_logic; hitl_flags := flags |})))).

Definition compile_audited_rules (audited_rules : list AuditedComplianceRule) (now : datetime)
  : res compile_error (list CompilationResult) :=
  res_mapM (λ a, compile_audited_rule a 1 now) audited_rules.
