(* ===== verification/ExecModels.v ===== *)
(** * Models of the execution service

    [src/app/execution/models.py]. *)
From S2P Require Import Prelude PyStr PyFloat Json Datetime.

Open Scope string_scope.

Inductive Decision := ALLOW | DENY | FLAGGED.

#[export] Instance Decision_eq_dec : EqDecision Decision.
Proof. solve_decision. Defined.

Definition decision_value (d : Decision) : string :=
  match d with ALLOW => "allow" | DENY => "deny" | FLAGGED => "flagged" end.

Inductive SourceChannel := REST_SYNC | SFTP_BATCH | DB_CDC | HITL_RESOLUTION.

Record TransactionPayload := Transaction
  { tx_transaction_id : string
  ; entity_type : string
  ; facts : list (string * json)
  ; source_channel : SourceChannel
  ; tx_broker_id : option string
  ; callback_url : option string
  ; received_at : datetime
  ; metadata : list (string * json) }.

Record PolicyOutcome := Outcome
  { po_rule_id : string
  ; po_package : string
  ; allow : option bool
  ; violations : list string
  ; po_circular_number : option string
  ; po_clause_number : option string
  ; po_rule_version : option Z
  ; po_policy_sha256 : option string
  ; po_canonical_facts_digest : option string
  ; po_source_document_sha256 : option string
  ; po_extracted_text_sha256 : option string
  ; po_clause_sha256 : option string }.

Record EvaluationResult := EvalResult
  { er_transaction_id : string
  ; decision : Decision
  ; matched_policies : list PolicyOutcome
  ; reasons : list string
  ; hitl_case_id : option string
  ; er_evaluated_at : datetime }.

Inductive BatchJobStatus := QUEUED | RUNNING | COMPLETED | FAILED.

Record BatchJobResult := BatchResult
  { batch_id : string
  ; batch_status : BatchJobStatus
  ; total : Z
  ; allowed : Z
  ; denied : Z
  ; flagged : Z
  ; results : list EvaluationResult
  ; batch_error : option string }.

Inductive HITLStatus := PENDING | HITL_APPROVED | HITL_REJECTED.

#[export] Instance HITLStatus_eq_dec : EqDecision HITLStatus.
Proof. solve_decision. Defined.

Definition hitl_status_value (s : HITLStatus) : string :=
  match s with PENDING => "pending" | HITL_APPROVED => "approved" | HITL_REJECTED => "rejected" end.

Record HITLCase := Case
  { case_id : string
  ; case_transaction : TransactionPayload
  ; case_reason : string
  ; case_matched_policies : list PolicyOutcome
  ; case_status : HITLStatus
  ; case_created_at : datetime
  ; resolved_at : option datetime
  ; resolved_by : option string
  ; resolution_notes : option string }.
