(* ===== verification/Explainability.v ===== *)
(** * Explanations of decisions: [src/app/explainability/]

    The violation messages of the compiled policies are parsed back into
    structured facts ([trace_parser.py]) and turned into a sentence with a
    citation ([nlg_deterministic.py]); [explainer.py] does so for a whole
    evaluation.  The language model behind the on-demand path is a parameter. *)
From S2P Require Import Prelude PyStr PyFloat PyRe PyText Json Datetime Taxonomy ExecModels.
From Stdlib Require Import SpecFloat.

Open Scope string_scope.
Open Scope Z_scope.

Inductive ExplanationSource := DETERMINISTIC | LLM | UNPARSEABLE.

#[export] Instance ExplanationSource_eq_dec : EqDecision ExplanationSource.
Proof. solve_decision. Defined.

Record StructuredViolation := Violation
  { sv_rule_id : string
  ; sv_circular_number : option string
  ; sv_clause_number : option string
  ; sv_regulator : string
  ; sv_metric : string
  ; sv_observed_value : spec_float
  ; sv_unit : string
  ; sv_operator : string
  ; sv_required_value : spec_float
  ; sv_applies_to : option string
  ; sv_raw_violation_text : string }.

Record LegalExplanation := Explanation
  { le_rule_id : string
  ; le_circular_number : option string
  ; le_clause_number : option string
  ; le_headline : string
  ; le_citation : string
  ; le_structured_violation : option StructuredViolation
  ; le_source : ExplanationSource
  ; le_confidence : spec_float }.

Record DecisionExplanationBundle := Bundle
  { eb_transaction_id : string
  ; eb_decision : string
  ; eb_evaluated_at : datetime
  ; eb_overall_summary : string
  ; eb_explanations : list LegalExplanation
  ; eb_generated_at : datetime }.

(** ** [trace_parser.py] *)
Definition _NUM : string := "-?\d+(?:\.\d+)?".
Definition condition_fail_pattern : string :=
  "^(?P<metric>.+?) is (?P<value>" +:+ _NUM +:+ ") (?P<unit>.+?), "
  +:+ "which fails the required condition \("
  +:+ "(?P<operator>>=|<=|==|>|<) (?P<required>" +:+ _NUM +:+ ") (?P<req_unit>.+?)"
  +:+ "(?: for (?P<applies_to>.+?))?"
  +:+ ", clause (?P<clause>.+?)\)$".
Definition range_low_pattern : string :=
  "^(?P<metric>.+?) is (?P<value>" +:+ _NUM +:+ ") (?P<unit>.+?), "
  +:+ "below the required minimum of (?P<required>" +:+ _NUM +:+ ") (?P<req_unit>.+?)"
  +:+ "(?: for (?P<applies_to>.+?))?"
  +:+ " \(clause (?P<clause>.+?)\)$".
Definition range_high_pattern : string :=
  "^(?P<metric>.+?) is (?P<value>" +:+ _NUM +:+ ") (?P<unit>.+?), "
  +:+ "above the allowed maximum of (?P<required>" +:+ _NUM +:+ ") (?P<req_unit>.+?)"
  +:+ "(?: for (?P<applies_to>.+?))?"
  +:+ " \(clause (?P<clause>.+?)\)$".

Definition parts_of (pat : string) : list part := default [] (re_parts false pat).
Definition _RE_CONDITION_FAIL : list part := parts_of condition_fail_pattern.
Definition _RE_RANGE_LOW : list part := parts_of range_low_pattern.
Definition _RE_RANGE_HIGH : list part := parts_of range_high_pattern.

Example violation_patterns_parsed :
  forallb (λ p, bool_decide (is_Some (re_parts false p)))
    [condition_fail_pattern; range_low_pattern; range_high_pattern] = true.
Proof. vm_compute. reflexivity. Qed.

(** The patterns with the operator that the two range shapes stand for. *)
Definition _PATTERNS : list (list part * option string) :=
  [(_RE_CONDITION_FAIL, None); (_RE_RANGE_LOW, Some "range_low"); (_RE_RANGE_HIGH, Some "range_high")].

Section parse.
Context (raw_text rule_id : string) (circular_number clause_number : option string) (regulator : string).

Definition violation_of (kind : option string) (g : groups) : StructuredViolation :=
  let group name := default "" (obj_get name g) in
  Violation rule_id circular_number (opt_or clause_number (obj_get "clause" g)) regulator
    (strip (group "metric")) (float_of_numeral (group "value")) (strip (group "unit"))
    (default (group "operator") kind) (float_of_numeral (group "required")) (obj_get "applies_to" g) raw_text.

Fixpoint first_shape (patterns : list (list part * option string)) (text : string) : option StructuredViolation :=
  match patterns with
  | [] => None
  | (p, kind) :: patterns' =>
      match match_groups p text with
      | Some (_, g) => Some (violation_of kind g)
      | None => first_shape patterns' text
      end
  end.

Definition parse_violation : option StructuredViolation := first_shape _PATTERNS (strip raw_text).
End parse.

(** ** [nlg_deterministic.py] *)
Definition _CITATION_DOC_LABEL (r : Regulator) : string :=
  match r with
  | SEBI => "Master Circular" | RBI => "Master Direction" | IRDAI => "Regulation" | PFRDA => "Circular"
  end.

Definition _METRIC_PHRASING : list (string * string) :=
  [ ("Upfront Margin", "Margin collected"); ("Peak Margin", "Peak margin collected");
    ("Net Worth", "Net worth"); ("Settlement Window", "Settlement timeline");
    ("CRAR", "Capital to Risk-Weighted Assets Ratio (CRAR)");
    ("Single Borrower Exposure", "Single-borrower exposure"); ("Solvency Ratio", "Solvency ratio");
    ("Equity Exposure", "Equity exposure"); ("Leverage", "Leverage");
    ("Portfolio Leverage", "Portfolio leverage") ].

(** The phrases with the regulator's acronym filled in. *)
Definition _OPERATOR_PHRASING (acronym : string) : list (string * (string * string)) :=
  [ (">=", ("is below the mandatory " +:+ acronym +:+ " threshold", "required by"));
    (">", ("does not exceed the mandatory " +:+ acronym +:+ " threshold", "required by"));
    ("<=", ("exceeds the maximum permitted " +:+ acronym +:+ " threshold", "permitted by"));
    ("<", ("is not below the required " +:+ acronym +:+ " threshold", "required by"));
    ("==", ("does not match the mandatory " +:+ acronym +:+ " requirement", "required by"));
    ("range_low", ("is below the minimum permitted " +:+ acronym +:+ " threshold", "permitted by"));
    ("range_high", ("exceeds the maximum permitted " +:+ acronym +:+ " threshold", "permitted by")) ].

Definition _format_number (value : spec_float) : string :=
  if float_is_integer value then str_of_Z (int_of_float value) else fmt_g value.

(** [Regulator(value)], SEBI when it is none of them *)
Definition regulator_or_sebi (value : string) : Regulator :=
  default SEBI (find (λ r, String.eqb (regulator_value r) value) [SEBI; RBI; IRDAI; PFRDA]).

Definition _document_type_label (r : Regulator) : string :=
  upper (regulator_value r) +:+ " " +:+ _CITATION_DOC_LABEL r.

Definition build_citation (v : StructuredViolation) : string :=
  let doc_label := _document_type_label (regulator_or_sebi (sv_regulator v)) in
  let clause_part :=
    if truthy (sv_clause_number v) then "Clause " +:+ str_or (sv_clause_number v) ""
    else "clause unspecified" in
  if truthy (sv_circular_number v)
  then doc_label +:+ " " +:+ clause_part +:+ " (" +:+ str_or (sv_circular_number v) "" +:+ ")"
  else doc_label +:+ " " +:+ clause_part.

Definition build_headline (v : StructuredViolation) : string :=
  let acronym := upper (regulator_value (regulator_or_sebi (sv_regulator v))) in
  let metric_phrase := default (sv_metric v) (obj_get (sv_metric v) _METRIC_PHRASING) in
  let '(violation_phrase, requirement_verb) :=
    default ("does not satisfy the mandatory " +:+ acronym +:+ " requirement", "required by")
      (obj_get (sv_operator v) (_OPERATOR_PHRASING acronym)) in
  let observed := _format_number (sv_observed_value v) in
  let required := _format_number (sv_required_value v) in
  let scope := if truthy (sv_applies_to v) then " for " +:+ str_or (sv_applies_to v) "" else "" in
  "Trade rejected: " +:+ metric_phrase +:+ " (" +:+ observed +:+ sv_unit v +:+ ")" +:+ scope +:+ " "
  +:+ violation_phrase +:+ " (" +:+ required +:+ sv_unit v +:+ ") " +:+ requirement_verb +:+ " "
  +:+ build_citation v +:+ ".".

Definition build_legal_explanation (v : StructuredViolation) : LegalExplanation :=
  Explanation (sv_rule_id v) (sv_circular_number v) (sv_clause_number v) (build_headline v)
    (build_citation v) (Some v) DETERMINISTIC (float_of_Z 1).

(** ** [explainer.py] *)

(** The text of a violation that no shape fits, passed through. *)
Definition raw_explanation (o : PolicyOutcome) (raw_text : string) (confidence : spec_float) : LegalExplanation :=
  Explanation (po_rule_id o) (po_circular_number o) (po_clause_number o)
    ("Trade rejected: " +:+ raw_text)
    ("Clause " +:+ str_or (po_clause_number o) "unscoped" +:+ " ("
     +:+ str_or (po_circular_number o) "circular unknown" +:+ ")")
    None UNPARSEABLE confidence.

Definition explain_policy_outcome_deterministic (o : PolicyOutcome) (regulator : string)
  : list LegalExplanation :=
  map (λ raw_text,
         match parse_violation raw_text (po_rule_id o) (po_circular_number o) (po_clause_number o) regulator with
         | Some v => build_legal_explanation v
         | None => raw_explanation o raw_text (decimal 5 1)
         end) (violations o).

Definition _overall_summary (result : EvaluationResult) (explanation_count : Z) : string :=
  match decision result with
  | ALLOW => "Trade allowed: all applicable compliance policies were satisfied."
  | FLAGGED =>
      "Trade flagged for human review: " +:+ str_of_Z explanation_count +:+ " polic"
      +:+ (if explanation_count =? 1 then "y" else "ies") +:+ " returned an undefined/ambiguous result."
  | DENY =>
      "Trade rejected: " +:+ str_of_Z explanation_count +:+ " compliance "
      +:+ (if explanation_count =? 1 then "violation" else "violations") +:+ " found."
  end.

Definition explain_evaluation_result (result : EvaluationResult) (regulator : string) (now : datetime)
  : DecisionExplanationBundle :=
  let explanations :=
    List.flat_map (λ o,
      match violations o with [] => [] | _ => explain_policy_outcome_deterministic o regulator end)
      (matched_policies result) in
  Bundle (er_transaction_id result) (decision_value (decision result)) (er_evaluated_at result)
    (_overall_summary result (Z.of_nat (length explanations))) explanations now.

(** [dict.get] of the outcomes by rule id: the last one of an id counts. *)
Definition outcome_by_rule (result : EvaluationResult) (rule_id : string) : option PolicyOutcome :=
  find (λ o, String.eqb (po_rule_id o) rule_id) (rev (matched_policies result)).

(** What the language model answers: headline, citation and confidence, or a
    failure.  A confidence outside the unit interval does not validate. *)
Definition explain_violation_with_llm (llm : PolicyOutcome → string → option (string * string * spec_float))
    (o : PolicyOutcome) (raw_text : string) : LegalExplanation :=
  match llm o raw_text with
  | Some (headline, citation, confidence) =>
      if flt_leb (float_of_Z 0) confidence && flt_leb confidence (float_of_Z 1) then
        Explanation (po_rule_id o) (po_circular_number o) (po_clause_number o) headline citation None LLM confidence
      else raw_explanation o raw_text (float_of_Z 0)
  | None => raw_explanation o raw_text (float_of_Z 0)
  end.

(** [s.removeprefix(p)] *)
Definition removeprefix (p s : string) : string :=
  if startswith p s then sdrop (String.length p) s else s.

Definition explain_evaluation_result_full (llm : PolicyOutcome → string → option (string * string * spec_float))
    (result : EvaluationResult) (regulator : string) (now : datetime) : DecisionExplanationBundle :=
  let b := explain_evaluation_result result regulator now in
  Bundle (eb_transaction_id b) (eb_decision b) (eb_evaluated_at b) (eb_overall_summary b)
    (map (λ e,
       if bool_decide (le_source e = UNPARSEABLE) then
         match outcome_by_rule result (le_rule_id e) with
         | Some o => explain_violation_with_llm llm o (removeprefix "Trade rejected: " (le_headline e))
         | None => e
         end
       else e) (eb_explanations b)) (eb_generated_at b).

Example headline_example :
  option_map build_headline
    (parse_violation "Upfront Margin is 15 %, which fails the required condition (>= 20 % for Stockbroker, clause 4.2.b)"
       "r" (Some "SEBI/2024/100") (Some "4.2.b") "sebi")
  = Some "Trade rejected: Margin collected (15%) for Stockbroker is below the mandatory SEBI threshold (20%) required by SEBI Master Circular Clause 4.2.b (SEBI/2024/100).".
Proof. vm_compute. reflexivity. Qed.
