(* ===== verification/ExplainFacts.v ===== *)
(** * Violation messages can be read back

    The parser of [trace_parser.py] inverts the message template of the
    compiled policies, and the explanation of an evaluation covers every
    violation in order. *)
From S2P Require Import Prelude PyStr PyFloat PyRe PyText Json Datetime Taxonomy ExecModels Explainability.

Open Scope string_scope.
Open Scope Z_scope.

(** ** First matches *)

(** Whatever came before, the parts do not match the text. *)
Definition fails (l : list part) (s : string) : Prop := ∀ x g, parts_match l (x, s) g = [].

(** The first match leaves [out.1] and has the groups [out.2]. *)
Definition finds (l : list part) (s : string) (g : groups) (out : string * groups) : Prop :=
  ∀ x, ∃ y rest, parts_match l (x, s) g = (y, out.1, out.2) :: rest.

Lemma finds_nil s g : finds [] s g (s, g).
Proof. intros x. by eexists _, _. Qed.

Lemma finds_same l s g s' g1 g2 : finds l s g (s', g1) → g1 = g2 → finds l s g (s', g2).
Proof. by intros H ->. Qed.

Lemma finds_chr p l c s g out :
  p c = true → finds l s g out → finds (Plain (RChr p) :: l) (String c s) g out.
Proof.
  intros Hp H x. cbn [parts_match part_match rmatch snd]. rewrite Hp. cbn [map List.flat_map fst snd].
  rewrite app_nil_r. apply H.
Qed.

Lemma fails_chr p l c s : (p c = true → fails l s) → fails (Plain (RChr p) :: l) (String c s).
Proof.
  intros H x g. cbn [parts_match part_match rmatch snd]. destruct (p c); [|done].
  cbn [map List.flat_map fst snd]. by rewrite app_nil_r H.
Qed.

Lemma fails_end p l : fails (Plain (RChr p) :: l) "".
Proof. by intros x g. Qed.

Lemma finds_first name r l s s' g out :
  (∀ x, ∃ y qs, rmatch r (x, s) = (y, s') :: qs) →
  finds l s' (g ++ [(name, consumed s s')])%list out → finds (Named name r :: l) s g out.
Proof.
  intros Hr H x. destruct (Hr x) as (y & qs & E). destruct (H y) as (z & rest & E2).
  cbn [parts_match part_match]. rewrite E. cbn [map List.flat_map fst snd]. rewrite E2.
  by eexists _, _.
Qed.

Lemma finds_skip_optional o l s g out : fails o s → finds l s g out → finds (Optional o :: l) s g out.
Proof.
  intros Ho H x. cbn [parts_match]. rewrite optional_match Ho. cbn [app List.flat_map fst snd].
  rewrite app_nil_r. apply H.
Qed.

Lemma parts_match_app a b q g :
  parts_match (a ++ b) q g = List.flat_map (λ x, parts_match b x.1 x.2) (parts_match a q g).
Proof.
  revert q g. induction a as [|p a IH]; intros q g; cbn [app parts_match List.flat_map fst snd].
  { by rewrite app_nil_r. }
  generalize (part_match p q g) as l. induction l as [|x l IHl]; cbn [List.flat_map]; [done|].
  by rewrite IH IHl flat_map_app.
Qed.

(** An optional sequence is tried before it is skipped. *)
Lemma finds_take_optional o l s g out : finds (o ++ l) s g out → finds (Optional o :: l) s g out.
Proof.
  intros H x. destruct (H x) as (y & rest & E). rewrite parts_match_app in E.
  cbn [parts_match]. rewrite optional_match flat_map_app E. by eexists _, _.
Qed.

Lemma fails_optional o l s : fails o s → fails l s → fails (Optional o :: l) s.
Proof. intros Ho Hl x g. cbn [parts_match]. rewrite optional_match Ho. cbn. by rewrite Hl. Qed.

(** ** Lazy groups *)
Definition dot : ascii → bool := λ x, negb (code x =? 10)%Z.
Definition lazy_dots : regex := RSeq (RSeq (RChr dot) (RLazy (RChr dot))) REps.

(** The ends of a lazy run: one more character each time. *)
Fixpoint dot_ends (x : option ascii) (s : string) : list pos :=
  (x, s) :: match s with String c s' => if dot c then dot_ends (Some c) s' else [] | "" => [] end.

Lemma lazy_dots_ends fuel x s :
  (String.length s <= fuel)%nat → lazy_ends (rmatch (RChr dot)) fuel (x, s) = dot_ends x s.
Proof.
  revert x s. induction fuel as [|fuel IH]; intros x [|c s] Hf; cbn [lazy_ends dot_ends rmatch snd List.flat_map];
    try done; [cbn in Hf; lia|].
  destruct (dot c); [|done]. cbn [List.flat_map snd]. rewrite app_nil_r.
  replace (Nat.ltb _ _) with true; [|symmetry; apply Nat.ltb_lt; cbn; lia]. rewrite IH; [done|cbn in Hf; lia].
Qed.

Lemma finds_lazy name l a rest g out :
  a ≠ "" → all_chars dot a = true →
  (∀ a1 a2, a = a1 +:+ a2 → a1 ≠ "" → a2 ≠ "" → fails l (a2 +:+ rest)) →
  finds l rest (g ++ [(name, a)])%list out →
  finds (Named name lazy_dots :: l) (a +:+ rest) g out.
Proof.
  intros Ha Hd Hf H x. destruct a as [|c a]; [done|]. cbn in Hd. apply andb_prop in Hd as [Hc Hd].
  cbn [parts_match part_match lazy_dots rmatch String.append snd]. rewrite Hc.
  cbn [List.flat_map map snd]. rewrite !app_nil_r lazy_dots_ends; [|done].
  replace (List.flat_map (λ q, [q]) (dot_ends (Some c) (a +:+ rest))) with (dot_ends (Some c) (a +:+ rest)).
  2:{ induction (dot_ends (Some c) (a +:+ rest)) as [|q l' IH]; [done|]. cbn. by rewrite -IH. }
  assert (∀ pre b y, String c a = pre +:+ b → pre ≠ "" →
            ∃ z rest', List.flat_map (λ x, parts_match l x.1 x.2)
              (map (λ q', (q', (g ++ [(name, consumed (String c (a +:+ rest)) q'.2)])%list))
                 (dot_ends y (b +:+ rest))) = (z, out.1, out.2) :: rest') as Hgo.
  2:{ destruct (Hgo (String c "") a (Some c)) as (z & rest' & E); [done|done|]. rewrite E. by eexists _, _. }
  intros pre b. revert pre. induction b as [|d b IH]; intros pre y Hp Hne.
  - rewrite sapp_nil_r in Hp. cbn [String.append].
    assert (∃ tl, dot_ends y rest = (y, rest) :: tl) as [tl ->] by (destruct rest; by eexists).
    cbn [map List.flat_map fst snd]. change (String c (a +:+ rest)) with (String c a +:+ rest).
    rewrite consumed_app. destruct (H y) as (z & r & ->). by eexists _, _.
  - cbn [String.append dot_ends map List.flat_map fst snd].
    assert (dot d = true) as ->.
    { assert (all_chars dot (String c a) = true) as Hall by (cbn; by rewrite Hc Hd).
      rewrite Hp all_chars_app in Hall. apply andb_prop in Hall as [_ Hall]. cbn in Hall.
      by apply andb_prop in Hall as [? _]. }
    rewrite (Hf pre (String d b) Hp Hne ltac:(done)). cbn [app].
    apply (IH (pre +:+ String d "")); [by rewrite sapp_assoc|by destruct pre].
Qed.

(** ** Literals and numerals *)
Definition lits (w : string) : list part := map (λ c, Plain (ci_char false c)) (list_ascii_of_string w).

Lemma finds_lits w l s g out : finds l s g out → finds (lits w ++ l) (w +:+ s) g out.
Proof.
  intros H. induction w as [|c w IH]; [done|]. cbn [lits list_ascii_of_string map app String.append].
  apply finds_chr; [apply Ascii.eqb_refl|exact IH].
Qed.

Lemma fails_lits w l s : startswith w s = false → fails (lits w ++ l) s.
Proof.
  revert s. unfold startswith. induction w as [|c w IH]; intros s Hs; [by destruct s|]. cbn [lits list_ascii_of_string map app].
  destruct s as [|d s]; [apply fails_end|]. apply fails_chr. intros E%Ascii.eqb_eq. subst d. apply IH.
  cbn in Hs. by destruct (Ascii.ascii_dec c c).
Qed.

(** The first match of an expression ends before [s']. *)
Definition first_end (r : regex) (s s' : string) : Prop := ∀ x, ∃ y qs, rmatch r (x, s) = (y, s') :: qs.

Lemma first_seq r1 r2 s s1 s2 : first_end r1 s s1 → first_end r2 s1 s2 → first_end (RSeq r1 r2) s s2.
Proof.
  intros H1 H2 x. destruct (H1 x) as (y & qs & E). destruct (H2 y) as (z & qs' & E').
  cbn [rmatch]. rewrite E. cbn [List.flat_map]. rewrite E'. by eexists _, _.
Qed.
Lemma first_eps s : first_end REps s s.
Proof. intros x. by eexists _, _. Qed.
Lemma first_chr p c s : p c = true → first_end (RChr p) (String c s) s.
Proof. intros H x. cbn. rewrite H. by eexists _, _. Qed.
Lemma first_opt_take r s s' : first_end r s s' → first_end (ROpt r) s s'.
Proof. intros H x. destruct (H x) as (y & qs & E). cbn [ROpt rmatch]. rewrite E. by eexists _, _. Qed.
Lemma first_opt_skip r s : (∀ x, rmatch r (x, s) = []) → first_end (ROpt r) s s.
Proof. intros H x. cbn [ROpt rmatch]. rewrite H. by eexists _, _. Qed.

(** The text does not go on with a character of the class. *)
Definition stops (p : ascii → bool) (s : string) : bool := match s with "" => true | String c _ => negb (p c) end.

Lemma first_star p i rest :
  all_chars p i = true → stops p rest = true → first_end (RStar (RChr p)) (i +:+ rest) rest.
Proof.
  intros Hi Hr x. cbn [rmatch snd].
  cut (∀ fuel y, (String.length (i +:+ rest) <= fuel)%nat →
         ∃ z qs, star_ends (rmatch (RChr p)) fuel (y, i +:+ rest) = (z, rest) :: qs); [by intros H; apply H|].
  induction i as [|c i IH]; intros fuel y Hf.
  - destruct fuel; cbn [star_ends String.append]; [by eexists _, _|].
    destruct rest as [|c rest]; cbn [rmatch snd List.flat_map app]; [by eexists _, _|].
    cbn in Hr. apply negb_true_iff in Hr. rewrite Hr. by eexists _, _.
  - cbn in Hi. apply andb_prop in Hi as [Hc Hi]. destruct fuel as [|fuel]; [cbn in Hf; lia|].
    assert (rmatch (RChr p) (y, String c (i +:+ rest)) = [(Some c, i +:+ rest)]) as Hstep.
    { cbn. by rewrite Hc. }
    cbn [star_ends String.append]. rewrite Hstep. cbn [List.flat_map snd].
    replace (Nat.ltb _ _) with true; [|symmetry; apply Nat.ltb_lt; cbn; lia].
    destruct (IH Hi fuel (Some c)) as (z & qs & ->); [cbn in Hf |- *; lia|]. by eexists _, _.
Qed.

Lemma first_plus p i rest :
  i ≠ "" → all_chars p i = true → stops p rest = true →
  first_end (RSeq (RChr p) (RStar (RChr p))) (i +:+ rest) rest.
Proof.
  intros Hne Hi Hr. destruct i as [|c i]; [done|]. cbn in Hi. apply andb_prop in Hi as [Hc Hi].
  eapply first_seq; [by apply first_chr|by apply first_star].
Qed.

(** What [_NUM] matches. *)
Definition is_numeral (v : string) : Prop :=
  ∃ neg i f, v = neg +:+ i +:+ f ∧ (neg = "" ∨ neg = "-") ∧ i ≠ "" ∧ all_chars is_digit i = true
    ∧ (f = "" ∨ ∃ d, f = "." +:+ d ∧ d ≠ "" ∧ all_chars is_digit d = true).

Definition digit_re : regex := ci_class false (escape_class "d").
Definition num_re : regex :=
  RSeq (ROpt (ci_char false "-"))
    (RSeq (RSeq digit_re (RStar digit_re))
       (RSeq (ROpt (RSeq (ci_class false (escape_class "."))
                      (RSeq (RSeq digit_re (RStar digit_re)) REps))) REps)).

Lemma first_numeral v rest : is_numeral v → first_end num_re (v +:+ String " " rest) (String " " rest).
Proof.
  intros (neg & i & f & -> & Hneg & Hi & Hd & Hf). rewrite !sapp_assoc.
  eapply first_seq; [|eapply first_seq; [apply (first_plus is_digit i)|]]; try done.
  - destruct Hneg as [->| ->]; [|by apply first_opt_take, first_chr].
    destruct i as [|c i]; [done|]. apply first_opt_skip. intros x. cbn in Hd.
    cbn [ci_char rmatch snd String.append]. apply andb_prop in Hd as [Hc _]. destruct (Ascii.eqb_spec "-" c) as [<-|]; [discriminate Hc|done].
  - destruct Hf as [->|(d & -> & _)]; done.
  - eapply first_seq; [|apply first_eps]. destruct Hf as [->|(d & -> & Hne & Hdd)].
    + apply first_opt_skip. intros x. done.
    + apply first_opt_take. eapply first_seq; [by apply first_chr|].
      eapply first_seq; [by apply (first_plus is_digit d)|apply first_eps].
Qed.

Lemma finds_numeral name l v rest g out :
  is_numeral v → finds l (String " " rest) (g ++ [(name, v)])%list out →
  finds (Named name num_re :: l) (v +:+ String " " rest) g out.
Proof.
  intros Hv H. apply (finds_first _ _ _ _ (String " " rest)); [by apply first_numeral|]. by rewrite consumed_app.
Qed.

(** ** The round trip *)
Definition scope_text (applies_to : option string) : string :=
  match applies_to with Some who => " for " +:+ who | None => "" end.

(** The message of a compiled comparison, as its [sprintf] writes it. *)
Definition condition_message (metric value unit op required : string) (applies_to : option string)
    (clause : string) : string :=
  metric +:+ (" is " +:+ (value +:+ String " " (unit +:+ (", which fails the required condition "
  +:+ String "(" (op +:+ String " " (required +:+ String " " (unit +:+ (scope_text applies_to
  +:+ (", clause " +:+ (clause +:+ ")")))))))))).

Definition op_re : regex := re_compile false ">=|<=|==|>|<".

Definition tail_parts : list part :=
  (lits ", clause " ++ Named "clause" lazy_dots :: Plain (ci_class false (escape_class ")")) :: [Plain REnd])%list.
Definition for_parts : list part := (lits " for " ++ [Named "applies_to" lazy_dots])%list.

Lemma condition_fail_parts :
  _RE_CONDITION_FAIL =
  (Plain RStart :: Named "metric" lazy_dots :: lits " is " ++ Named "value" num_re :: lits " "
   ++ Named "unit" lazy_dots :: lits ", which fails the required condition "
   ++ Plain (ci_class false (escape_class "(")) :: Named "operator" op_re :: lits " "
   ++ Named "required" num_re :: lits " " ++ Named "req_unit" lazy_dots :: Optional for_parts :: tail_parts)%list.
Proof. vm_compute. reflexivity. Qed.

Lemma contains_suffix w a b : contains w (a +:+ b) = false → contains w b = false.
Proof.
  induction a as [|c a IH]; [done|]. cbn [String.append contains]. intros [_ H]%orb_false_iff. auto.
Qed.

Lemma prefix_inside w a b : (String.length w <= String.length a)%nat → startswith w (a +:+ b) = startswith w a.
Proof.
  unfold startswith. revert a. induction w as [|c w IH]; intros a H; [by destruct a, b|].
  destruct a as [|d a]; cbn in H |- *; [lia|]. destruct (Ascii.ascii_dec c d); [|done]. apply IH. lia.
Qed.

Lemma contains_startswith w a : contains w a = false → startswith w a = false.
Proof. destruct a; cbn [contains]; by intros [? _]%orb_false_iff. Qed.

(** A word that is not inside a text does not start in it either, when the
    character after the text is not one of its own. *)
Lemma not_started w c a t rest :
  a ≠ "" → contains (String c w) a = false → contains (String t "") w = false →
  startswith (String c w) (a +:+ String t rest) = false.
Proof.
  intros Ha Hn Ht. destruct (decide (String.length (String c w) <= String.length a)%nat) as [Hl|Hl].
  { rewrite prefix_inside; [by apply contains_startswith|lia]. }
  destruct a as [|d a]; [done|]. unfold startswith. cbn in Hl |- *. destruct (Ascii.ascii_dec c d) as [_|]; [|done].
  clear Hn Ha. assert (String.length a < String.length w)%nat as Hlt by lia. clear Hl. revert a Hlt.
  induction w as [|e w IH]; intros a Hlt; [cbn in Hlt; lia|].
  cbn [contains] in Ht. apply orb_false_iff in Ht as [He Ht]. destruct a as [|d' a]; cbn.
  - destruct (Ascii.ascii_dec e t) as [->|]; [|done]. cbn in He. by destruct (Ascii.ascii_dec t t), w.
  - destruct (Ascii.ascii_dec e d'); [|done]. apply IH; [done|]. cbn in Hlt. lia.
Qed.

Lemma fails_lits_more w w' l s : startswith w s = false → fails (lits (w +:+ w') ++ l) s.
Proof.
  intros H. replace (lits (w +:+ w') ++ l)%list with (lits w ++ (lits w' ++ l))%list.
  - by apply fails_lits.
  - rewrite app_assoc. f_equal. unfold lits. rewrite -map_app. f_equal.
    clear H. induction w as [|c w IH]; [done|]. cbn. by rewrite IH.
Qed.

Definition no_comma : string → bool := all_chars (λ c, negb (Ascii.eqb c ",")).

Lemma fails_comma w l a1 a2 rest :
  no_comma (a1 +:+ a2) = true → a2 ≠ "" → fails (lits (String "," w) ++ l) (a2 +:+ rest).
Proof.
  unfold no_comma. rewrite all_chars_app. intros [_ H]%andb_prop Hne. apply fails_lits.
  destruct a2 as [|c a2]; [done|]. cbn in H. apply andb_prop in H as [H _]. unfold startswith.
  cbn [String.append String.prefix]. destruct (Ascii.ascii_dec "," c) as [<-|]; [discriminate H|done].
Qed.

Lemma finds_start l s g y qs : parts_match l (None, s) g = y :: qs →
  parts_match (Plain RStart :: l) (None, s) g = y :: qs.
Proof. intros H. cbn [parts_match part_match rmatch at_start fst map List.flat_map]. cbn. by rewrite H app_nil_r. Qed.

Lemma finds_operator l op rest g out :
  op ∈ [">="; "<="; "=="; ">"; "<"] →
  finds l (String " " rest) (g ++ [("operator", op)])%list out →
  finds (Named "operator" op_re :: l) (op +:+ String " " rest) g out.
Proof.
  intros Hop H. apply (finds_first _ _ _ _ (String " " rest)); [|by rewrite consumed_app].
  intros x. repeat (apply elem_of_cons in Hop as [->|Hop]; [by eexists _, _|]). by apply not_elem_of_nil in Hop.
Qed.

Lemma finds_tail clause g :
  clause ≠ "" → all_chars dot clause = true →
  finds tail_parts (", clause " +:+ (clause +:+ ")")) g ("", (g ++ [("clause", clause)])%list).
Proof.
  intros Hne Hd. unfold tail_parts. apply finds_lits, finds_lazy; [done|done| |].
  - intros a1 a2 -> _ H2. destruct a2 as [|c a2]; [done|]. cbn [String.append]. apply fails_chr. intros _ x g'.
    cbn [parts_match part_match rmatch]. unfold at_end. cbn [snd].
    destruct a2 as [|d [|e a2]]; cbn [String.append]; [done| |done].
    done.
  - apply finds_chr; [done|]. intros x. by eexists _, _.
Qed.

(** A text the template can carry: not empty, on one line, without blanks at
    its ends. *)
Definition clean (s : string) : Prop := s ≠ "" ∧ all_chars dot s = true ∧ strip s = s.

Lemma strip_cons_shorter c s : is_space c = true → strip (String c s) ≠ String c s.
Proof.
  intros Hc H. unfold strip, strip_by in H. cbn [lstrip_by] in H. rewrite Hc in H.
  assert (String.length (rstrip_by is_space (lstrip_by is_space s)) <= String.length s)%nat as Hl.
  { clear. transitivity (String.length (lstrip_by is_space s)).
    - induction (lstrip_by is_space s) as [|d t IH]; [done|]. cbn.
      destruct (rstrip_by is_space t); [destruct (is_space d)|]; cbn in *; lia.
    - induction s as [|d s IH]; [done|]. cbn. destruct (is_space d); cbn; lia. }
  rewrite H in Hl. cbn in Hl. lia.
Qed.

Lemma rstrip_keeps a c : is_space c = false → rstrip_by is_space (a +:+ String c "") = a +:+ String c "".
Proof.
  intros Hc. induction a as [|d a IH]; cbn; [by rewrite Hc|]. rewrite IH. by destruct a.
Qed.

(** Text between a clean text and a closing parenthesis is not stripped. *)
Lemma strip_message a b : clean a → strip (a +:+ (b +:+ ")")) = a +:+ (b +:+ ")").
Proof.
  intros (Hne & _ & Hs). destruct a as [|c a]; [done|]. unfold strip, strip_by.
  cbn [lstrip_by String.append]. destruct (is_space c) eqn:E; [by apply strip_cons_shorter in Hs|].
  change (String c (a +:+ (b +:+ ")"))) with (String c a +:+ (b +:+ ")")). rewrite -sapp_assoc.
  by apply rstrip_keeps.
Qed.

Lemma condition_message_stripped metric value unit op required applies_to clause :
  clean metric →
  strip (condition_message metric value unit op required applies_to clause)
  = condition_message metric value unit op required applies_to clause.
Proof.
  intros Hm.
  assert (condition_message metric value unit op required applies_to clause
          = metric +:+ ((" is " +:+ (value +:+ String " " (unit +:+ (", which fails the required condition "
            +:+ String "(" (op +:+ String " " (required +:+ String " " (unit +:+ (scope_text applies_to
            +:+ (", clause " +:+ clause))))))))) +:+ ")")) as E.
  { unfold condition_message. f_equal. repeat (cbn [String.append]; rewrite sapp_assoc). done. }
  rewrite E. by apply strip_message.
Qed.

Lemma finds_condition metric value unit op required applies_to clause g :
  clean metric → contains " is" metric = false →
  is_numeral value → is_numeral required →
  clean unit → no_comma unit = true → contains " for" unit = false →
  op ∈ [">="; "<="; "=="; ">"; "<"] →
  (∀ who, applies_to = Some who → who ≠ "" ∧ all_chars dot who = true ∧ no_comma who = true) →
  clause ≠ "" → all_chars dot clause = true →
  ∃ y rest,
    parts_match _RE_CONDITION_FAIL (None, condition_message metric value unit op required applies_to clause) g
    = (y, "", (g ++ [("metric", metric); ("value", value); ("unit", unit); ("operator", op); ("required", required);
                     ("req_unit", unit)]
               ++ match applies_to with Some who => [("applies_to", who)] | None => [] end
               ++ [("clause", clause)])%list) :: rest.
Proof.
  intros (Hm & Hmd & _) His Hv Hr (Hu & Hud & _) Huc Huf Hop Hwho Hc Hcd. rewrite condition_fail_parts.
  cut (finds (Named "metric" lazy_dots :: lits " is " ++ Named "value" num_re :: lits " "
     ++ Named "unit" lazy_dots :: lits ", which fails the required condition "
     ++ Plain (ci_class false (escape_class "(")) :: Named "operator" op_re :: lits " "
     ++ Named "required" num_re :: lits " " ++ Named "req_unit" lazy_dots :: Optional for_parts :: tail_parts)%list
     (condition_message metric value unit op required applies_to clause) g
     ("", (g ++ [("metric", metric); ("value", value); ("unit", unit); ("operator", op); ("required", required);
                 ("req_unit", unit)]
           ++ match applies_to with Some who => [("applies_to", who)] | None => [] end
           ++ [("clause", clause)])%list)).
  { intros H. destruct (H None) as (y & rest & E). exists y, rest. by apply finds_start. }
  unfold condition_message. apply finds_lazy; [done|done| |].
  { intros a1 a2 -> _ H2. apply contains_suffix in His. change " is " with (" is" +:+ " ").
    apply fails_lits_more. rewrite sapp_assoc. cbn [String.append]. by apply not_started. }
  apply finds_lits. apply finds_numeral; [done|].
  apply (finds_lits " "). apply finds_lazy; [done|done| |].
  { intros a1 a2 -> _ H2. by eapply fails_comma. }
  apply finds_lits, finds_chr; [done|]. apply finds_operator; [done|].
  apply (finds_lits " "). apply finds_numeral; [done|].
  apply (finds_lits " "). apply finds_lazy; [done|done| |].
  { intros a1 a2 -> _ H2. apply fails_optional; [|by eapply fails_comma].
    apply contains_suffix in Huf. unfold for_parts. change (lits " for ") with (lits (" for" +:+ " ")).
    apply fails_lits_more. destruct applies_to as [who|]; cbn [scope_text String.append]; by apply not_started. }
  destruct applies_to as [who|]; cbn [scope_text].
  - destruct (Hwho who eq_refl) as (Hw & Hwd & Hwc). apply finds_take_optional. unfold for_parts.
    rewrite -app_assoc sapp_assoc. apply finds_lits. cbn [app]. apply finds_lazy; [done|done| |].
    { intros a1 a2 -> _ H2. by eapply fails_comma. }
    eapply finds_same; [by apply finds_tail|]. by rewrite -!app_assoc.
  - apply finds_skip_optional; [by apply fails_lits|].
    eapply finds_same; [by apply finds_tail|]. by rewrite -!app_assoc.
Qed.

(** The groups read off a message, as a violation. *)
Lemma violation_of_condition raw rid circ clause_no reg metric value unit op required applies_to clause :
  clean metric → clean unit →
  violation_of raw rid circ clause_no reg None
    ([("metric", metric); ("value", value); ("unit", unit); ("operator", op); ("required", required);
      ("req_unit", unit)]
     ++ match applies_to with Some who => [("applies_to", who)] | None => [] end ++ [("clause", clause)])%list
  = Violation rid circ (opt_or clause_no (Some clause)) reg metric (float_of_numeral value) unit op
      (float_of_numeral required) applies_to raw.
Proof. intros (_ & _ & Hm) (_ & _ & Hu). destruct applies_to; unfold violation_of; cbn -[strip float_of_numeral]; by rewrite Hm Hu. Qed.



(** ** Coverage of an evaluation *)


Lemma find_some_key (l : list PolicyOutcome) rid o :
  find (λ o, String.eqb (po_rule_id o) rid) l = Some o → po_rule_id o = rid.
Proof. intros [_ H]%find_some. by apply String.eqb_eq. Qed.

Lemma explanation_rule_ids o reg :
  map le_rule_id (explain_policy_outcome_deterministic o reg) = map (λ _, po_rule_id o) (violations o).
Proof.
  unfold explain_policy_outcome_deterministic. rewrite map_map. apply List.map_ext. intros t.
  unfold parse_violation. set (text := strip t). clearbody text.
  assert (∀ pats v, first_shape t (po_rule_id o) (po_circular_number o) (po_clause_number o) reg pats text = Some v →
                    sv_rule_id v = po_rule_id o) as H.
  { induction pats as [|[p k] pats IH]; intros v E; [done|]. cbn [first_shape] in E.
    destruct (match_groups p text) as [[? ?]|]; [by injection E as <-|by apply IH]. }
  destruct (first_shape _ _ _ _ _ _ _) as [v|] eqn:E; [|done]. by eapply H.
Qed.

(** Every violation of an evaluation has its explanation, under its own rule
    and in order, whatever the language model does; what the deterministic
    path explained is kept. *)
Lemma every_violation_explained llm result reg now :
  let full := eb_explanations (explain_evaluation_result_full llm result reg now) in
  map le_rule_id full = List.flat_map (λ o, map (λ _, po_rule_id o) (violations o)) (matched_policies result)
  ∧ Forall2 (λ e e', le_source e = DETERMINISTIC → e' = e)
      (eb_explanations (explain_evaluation_result result reg now)) full.
Proof.
  cbn [explain_evaluation_result_full eb_explanations]. split.
  - transitivity (map le_rule_id (eb_explanations (explain_evaluation_result result reg now))).
    + rewrite map_map. apply List.map_ext. intros e. case_bool_decide; [|done].
      destruct (outcome_by_rule result (le_rule_id e)) as [o|] eqn:E; [|done]. unfold explain_violation_with_llm.
      apply find_some_key in E. destruct (llm o _) as [[[? ?] ?]|]; [|exact E]. by destruct (_ && _).
    + cbn [explain_evaluation_result eb_explanations]. induction (matched_policies result) as [|o l IH]; [done|].
      cbn [List.flat_map]. rewrite map_app IH -(explanation_rule_ids o reg).
      by destruct (violations o) eqn:Ev; [unfold explain_policy_outcome_deterministic; rewrite Ev|].
  - induction (eb_explanations (explain_evaluation_result result reg now)) as [|e l IH]; constructor; [|exact IH].
    intros H. by rewrite bool_decide_eq_false_2 ?H.
Qed.

(** [%g] keeps six significant digits: an amount of seven digits with a
    fraction is shown rounded, in exponent notation. *)
Lemma headline_number_rounded : _format_number (float_of_numeral "1234567.5") = "1.23457e+06".
Proof. vm_compute. reflexivity. Qed.
