(* ===== verification/JsonLogic.v ===== *)
(** * Evaluation of JSON-Logic candidates

    [src/app/backtest/jsonlogic_evaluator.py] and the JSON-Logic strategy of
    [candidate_evaluator.py], with the Python operators they apply to JSON
    values: truthiness, [==], the order comparisons, [in] and [str.format]. *)
From S2P Require Import Prelude PyStr PyFloat Json ExecModels.

Open Scope string_scope.

(** ** Python operators on JSON values *)

(** The number a value is in arithmetic comparisons: [bool] is an [int]. *)
Definition as_num (j : json) : option pynum :=
  match j with
  | JBool b => Some (PInt (if b then 1 else 0))
  | JInt z => Some (PInt z)
  | JFloat f => Some (PFlt f)
  | _ => None
  end.

(** [bool(v)] *)
Definition py_truthy (j : json) : bool :=
  match j with
  | JNull => false
  | JBool b => b
  | JInt z => negb (z =? 0)%Z
  | JFloat f => negb (num_eqb (PFlt f) (PInt 0))
  | JStr s => negb (String.eqb s "")
  | JList l => match l with [] => false | _ => true end
  | JObj l => match l with [] => false | _ => true end
  end.

(** [a == b] *)
Fixpoint py_eqb (a b : json) : bool :=
  match as_num a, as_num b with
  | Some x, Some y => num_eqb x y
  | _, _ =>
      match a, b with
      | JNull, JNull => true
      | JStr s, JStr s' => String.eqb s s'
      | JList l, JList l' =>
          (fix go l l' :=
             match l, l' with
             | [], [] => true
             | x :: l1, y :: l2 => py_eqb x y && go l1 l2
             | _, _ => false
             end) l l'
      | JObj kvs, JObj kvs' =>
          Nat.eqb (length kvs) (length kvs')
          && (fix go kvs :=
                match kvs with
                | [] => true
                | (k, x) :: kvs1 =>
                    match obj_get k kvs' with Some y => py_eqb x y | None => false end && go kvs1
                end) kvs
      | _, _ => false
      end
  end.

Inductive order_op := OpGe | OpGt | OpLe | OpLt.

Definition num_order (o : order_op) (x y : pynum) : bool :=
  match o with
  | OpGe => num_leb y x | OpGt => num_ltb y x | OpLe => num_leb x y | OpLt => num_ltb x y
  end.

Definition str_order (o : order_op) (x y : string) : bool :=
  match o, String.compare x y with
  | OpGe, Lt => false | OpGe, _ => true
  | OpGt, Gt => true | OpGt, _ => false
  | OpLe, Gt => false | OpLe, _ => true
  | OpLt, Lt => true | OpLt, _ => false
  end.

Definition len_order (o : order_op) (n m : nat) : bool :=
  match o with OpGe => Nat.leb m n | OpGt => Nat.ltb m n | OpLe => Nat.leb n m | OpLt => Nat.ltb n m end.

(** [a >= b] and the like; [None] stands for the [TypeError] that Python
    raises on values without an order.  Lists compare at the first position
    where they differ. *)
Fixpoint py_order (o : order_op) (a b : json) : option bool :=
  match as_num a, as_num b with
  | Some x, Some y => Some (num_order o x y)
  | _, _ =>
      match a, b with
      | JStr s, JStr s' => Some (str_order o s s')
      | JList l, JList l' =>
          (fix go l l' :=
             match l, l' with
             | x :: l1, y :: l2 => if py_eqb x y then go l1 l2 else py_order o x y
             | _, _ => Some (len_order o (length l) (length l'))
             end) l l'
      | _, _ => None
      end
  end.

(** [needle in haystack] *)
Definition py_in (needle haystack : json) : option bool :=
  match haystack, needle with
  | JList l, _ => Some (existsb (λ x, py_eqb x needle) l)
  | JStr s, JStr sub => Some (contains sub s)
  | JObj kvs, JStr k => Some (match obj_get k kvs with Some _ => true | None => false end)
  | JObj _, (JNull | JBool _ | JInt _ | JFloat _) => Some false
  | _, _ => None
  end.

(** ** The evaluator *)
Inductive eval_error :=
| MissingFactError (path : string)
| UnsupportedJsonLogicNodeError
| TypeError.

Fixpoint resolve_parts (full : string) (parts : list string) (node : json) : res eval_error json :=
  match parts with
  | [] => Ok node
  | part :: parts' =>
      match node with
      | JObj kvs =>
          match obj_get part kvs with
          | Some x => resolve_parts full parts' x
          | None => Raise (MissingFactError full)
          end
      | _ => Raise (MissingFactError full)
      end
  end.

Definition _resolve_var (path : string) (data : json) : res eval_error json :=
  resolve_parts path (split_on "." path) data.

Definition or_type_error (o : option bool) : res eval_error json :=
  match o with Some b => Ok (JBool b) | None => Raise TypeError end.

Definition _COMPARISON_OPS (op : string) : option (json → json → option bool) :=
  if String.eqb op "==" then Some (λ a b, Some (py_eqb a b))
  else if String.eqb op ">=" then Some (py_order OpGe)
  else if String.eqb op ">" then Some (py_order OpGt)
  else if String.eqb op "<=" then Some (py_order OpLe)
  else if String.eqb op "<" then Some (py_order OpLt)
  else None.

Fixpoint evaluate_jsonlogic (node data : json) : res eval_error json :=
  match node with
  | JNull | JBool _ | JInt _ | JFloat _ | JStr _ => Ok node
  | JList l =>
      res_bind ((fix go l : res eval_error (list json) :=
                   match l with
                   | [] => Ok []
                   | x :: l' =>
                       res_bind (evaluate_jsonlogic x data) (λ y,
                       res_bind (go l') (λ ys, Ok (y :: ys)))
                   end) l) (λ ys, Ok (JList ys))
  | JObj [(operator, operands)] =>
      if String.eqb operator "var" then
        match operands with JStr path => _resolve_var path data | _ => Raise TypeError end
      else if String.eqb operator "and" then
        match operands with
        | JList cs =>
            (* all(...): stops at the first falsy conjunct *)
            (fix all cs : res eval_error json :=
               match cs with
               | [] => Ok (JBool true)
               | c :: cs' =>
                   res_bind (evaluate_jsonlogic c data) (λ v,
                   if py_truthy v then all cs' else Ok (JBool false))
               end) cs
        | _ => Raise UnsupportedJsonLogicNodeError
        end
      else if String.eqb operator "in" then
        match operands with
        | JList [a; b] =>
            res_bind (evaluate_jsonlogic a data) (λ needle,
            res_bind (evaluate_jsonlogic b data) (λ haystack,
            or_type_error (py_in needle haystack)))
        | _ => Raise UnsupportedJsonLogicNodeError
        end
      else
        match _COMPARISON_OPS operator with
        | Some f =>
            match operands with
            | JList [a; b] =>
                res_bind (evaluate_jsonlogic a data) (λ left,
                res_bind (evaluate_jsonlogic b data) (λ right, or_type_error (f left right)))
            | _ => Raise UnsupportedJsonLogicNodeError
            end
        | None => Raise UnsupportedJsonLogicNodeError
        end
  | JObj _ => Raise UnsupportedJsonLogicNodeError
  end.

(** ** [str.format] *)
Inductive format_error := FmtKeyError (name : string) | FmtAttributeError | FmtValueError.

(** [str(v)] of a fact; containers print as [repr], which no caller relies on. *)
Definition fact_str (j : json) : option string :=
  match j with
  | JNull => Some "None"
  | JBool b => Some (if b then "True" else "False")
  | JInt z => Some (str_of_Z z)
  | JFloat f => Some (float_repr f)
  | JStr s => Some s
  | _ => None
  end.

(** The text up to the closing brace, and the rest. *)
Fixpoint field_name (s : string) : option (string * string) :=
  match s with
  | "" => None
  | String "}" s' => Some ("", s')
  | String c s' => match field_name s' with Some (n, r) => Some (String c n, r) | None => None end
  end.

(** One replacement field: the first dotted part names the argument, the
    following ones are attributes, which JSON values do not have. *)
Definition format_field (kwargs : list (string * json)) (name : string) : res format_error string :=
  match split_on "." name with
  | [k] =>
      match obj_get k kwargs with
      | Some v => match fact_str v with Some t => Ok t | None => Raise FmtValueError end
      | None => Raise (FmtKeyError k)
      end
  | k :: _ => match obj_get k kwargs with Some _ => Raise FmtAttributeError | None => Raise (FmtKeyError k) end
  | [] => Raise FmtValueError
  end.

Fixpoint str_format (fuel : nat) (template : string) (kwargs : list (string * json))
  : res format_error string :=
  match fuel with
  | O => Raise FmtValueError
  | S fuel' =>
      match template with
      | "" => Ok ""
      | String "{" (String "{" s) => res_bind (str_format fuel' s kwargs) (λ r, Ok (String "{" r))
      | String "}" (String "}" s) => res_bind (str_format fuel' s kwargs) (λ r, Ok (String "}" r))
      | String "}" _ => Raise FmtValueError
      | String "{" s =>
          match field_name s with
          | None => Raise FmtValueError
          | Some (name, rest) =>
              res_bind (format_field kwargs name) (λ t,
              res_bind (str_format fuel' rest kwargs) (λ r, Ok (t +:+ r)))
          end
      | String c s => res_bind (str_format fuel' s kwargs) (λ r, Ok (String c r))
      end
  end.
Definition py_format (template : string) (kwargs : list (string * json)) : res format_error string :=
  str_format (S (String.length template)) template kwargs.

(** ** The candidate evaluator *)
Inductive candidate_error := CandFormat (e : format_error) | CandTypeError.

Definition input_doc (entity_type : string) (facts : list (string * json)) : json :=
  JObj [("entity_type", JStr entity_type); ("facts", JObj facts)].

(** [JsonLogicCandidateEvaluator.evaluate] *)
Definition candidate_evaluate (logic : json) (violation_message_template : option string)
    (entity_type : string) (facts : list (string * json))
  : res candidate_error (Decision * list string) :=
  match evaluate_jsonlogic logic (input_doc entity_type facts) with
  | Raise (MissingFactError missing_path) =>
      Ok (FLAGGED, ["Candidate policy could not be evaluated: historical transaction has no '"
                    +:+ missing_path +:+ "' fact."])
  | Raise UnsupportedJsonLogicNodeError =>
      Ok (FLAGGED, ["Candidate policy AST contains a node shape this backtest evaluator does not support."])
  | Raise TypeError => Raise CandTypeError
  | Ok result =>
      if py_truthy result then Ok (ALLOW, [])
      else if truthy violation_message_template then
        match py_format (str_or violation_message_template "") facts with
        | Ok violation => Ok (DENY, [violation])
        | Raise e => Raise (CandFormat e)
        end
      else Ok (DENY, ["Candidate policy condition not satisfied."])
  end.

Example eval_and_example :
  evaluate_jsonlogic
    (JObj [("and", JList [ JObj [("==", JList [JObj [("var", JStr "entity_type")]; JStr "Stockbroker"])];
                           JObj [(">=", JList [JObj [("var", JStr "facts.m")]; JFloat (float_of_Z 20)])]])])
    (input_doc "Stockbroker" [("m", JInt 25)]) = Ok (JBool true).
Proof. vm_compute. reflexivity. Qed.
