(* ===== verification/CompilerFacts.v ===== *)
(** * The compiler is correct

    The gate in front of code generation, the fields generated code refers
    to, the meaning of the generated JSON-Logic, the agreement of the pass and
    violation conditions of the generated Rego, and what is not caught. *)
From S2P Require Import Prelude PyStr PyFloat Sha256 Json JsonFacts Datetime PyRe Facts.
From S2P Require Import FactsFacts Taxonomy Schemas Compiler ExecModels JsonLogic.

Open Scope string_scope.

(** ** The gate *)
Lemma has_blocking_app fs fs' :
  has_blocking_flags (fs ++ fs')%list = has_blocking_flags fs || has_blocking_flags fs'.
Proof. unfold has_blocking_flags. apply existsb_app. Qed.

Lemma advisory_not_blocking {A} (f : A → HITLFlag) l :
  (∀ x, hf_severity (f x) = ADVISORY) → has_blocking_flags (map f l) = false.
Proof.
  intros Hf. apply existsb_false_Forall, Forall_forall. intros x Hx.
  apply list_elem_of_fmap in Hx as (y & -> & _). by rewrite Hf.
Qed.

Lemma flat_map_blocking {A} (f : A → list HITLFlag) l :
  has_blocking_flags (flat_map f l) = existsb (λ x, has_blocking_flags (f x)) l.
Proof.
  induction l as [|x l IH]; [done|]. cbn [flat_map existsb]. by rewrite has_blocking_app IH.
Qed.

Lemma existsb_none {A} (l : list A) : existsb (λ _, false) l = false.
Proof. by induction l. Qed.

(** A threshold that resolution accepts. *)
Definition threshold_resolves (t : NumericalThreshold) : bool :=
  bool_decide (status (resolve_canonical_fact (metric t) (Some (unit_ t)) (Some (PFlt (value t)))
                 (PFlt <$> value_upper t)) = VALID).

Lemma flag_fact_blocking rule i t :
  has_blocking_flags (flag_fact rule (i, t)) = negb (threshold_resolves t).
Proof.
  unfold flag_fact, threshold_resolves.
  by destruct (status (resolve_canonical_fact _ _ _ _)).
Qed.

Lemma enumerate_existsb {A} (p : A → bool) i (l : list A) :
  existsb (λ ix, p ix.2) (enumerate i l) = existsb p l.
Proof. revert i. induction l as [|x l IH]; intros i; cbn; [done|]. by rewrite IH. Qed.

Lemma flag_facts_blocking rule :
  has_blocking_flags (flag_unmapped_or_invalid_facts rule)
  = existsb (λ t, negb (threshold_resolves t)) (deterministic_logic rule).
Proof.
  unfold flag_unmapped_or_invalid_facts. rewrite flat_map_blocking.
  rewrite -(enumerate_existsb (λ t, negb (threshold_resolves t)) 0).
  induction (enumerate 0 (deterministic_logic rule)) as [|[i t] l IH]; cbn [existsb]; [done|].
  by rewrite flag_fact_blocking IH.
Qed.

Lemma flag_conflicts_blocking rule :
  has_blocking_flags (flag_conflicting_thresholds rule)
  = existsb (λ kts, negb (Nat.ltb (length kts.2) 2) && conflicting kts.2)
      (by_field (deterministic_logic rule)).
Proof.
  unfold flag_conflicting_thresholds. rewrite flat_map_blocking.
  induction (by_field _) as [|kts l IH]; cbn [existsb]; [done|]. rewrite IH. f_equal.
  by destruct (Nat.ltb _ 2), (conflicting kts.2).
Qed.

(** When a rule is let through. *)
Definition gate_open (a : AuditedComplianceRule) : Prop :=
  let rule := au_rule a in
  verdict (au_audit a) = APPROVED
  ∧ flt_leb LOW_CONFIDENCE_THRESHOLD (extraction_confidence rule) = true
  ∧ forallb threshold_resolves (deterministic_logic rule) = true
  ∧ Forall (λ kts, (length kts.2 < 2)%nat ∨ conflicting kts.2 = false)
      (by_field (deterministic_logic rule))
  ∧ deterministic_logic rule ≠ [].

Lemma existsb_negb {A} (p : A → bool) l : existsb (λ x, negb (p x)) l = negb (forallb p l).
Proof. induction l as [|x l IH]; cbn; [done|]. by rewrite IH negb_andb. Qed.

Lemma orb_false_r_iff a b : a || b = false ↔ a = false ∧ b = false.
Proof. apply orb_false_iff. Qed.

Lemma gate_spec a :
  has_blocking_flags (collect_hitl_flags a)
  || match deterministic_logic (au_rule a) with [] => true | _ => false end = false
  ↔ gate_open a.
Proof.
  unfold collect_hitl_flags, gate_open. cbv zeta. rewrite !has_blocking_app.
  rewrite !orb_false_iff flag_facts_blocking flag_conflicts_blocking existsb_negb negb_false_iff.
  rewrite existsb_false_Forall.
  assert (has_blocking_flags (flag_audit_not_approved a) = false ↔ verdict (au_audit a) = APPROVED) as ->
    by (unfold flag_audit_not_approved; destruct (verdict (au_audit a)); done).
  assert (has_blocking_flags (flag_low_confidence (au_rule a)) = false
    ↔ flt_leb LOW_CONFIDENCE_THRESHOLD (extraction_confidence (au_rule a)) = true) as ->
    by (unfold flag_low_confidence; by case_match).
  assert (has_blocking_flags (flag_qualitative_directives (au_rule a)) = false) as ->
    by by apply advisory_not_blocking.
  assert (has_blocking_flags (flag_ambiguous_spans (au_rule a)) = false) as ->
    by by apply advisory_not_blocking.
  assert (has_blocking_flags (flag_unresolved_entities (au_rule a)) = false) as ->.
  { unfold flag_unresolved_entities. rewrite flat_map_blocking. apply existsb_false_Forall, Forall_forall.
    intros [i e] _. cbn. by case_match. }
  assert (∀ P, has_blocking_flags (flag_no_deterministic_logic (au_rule a)) = false
    ∧ P ∧ (match deterministic_logic (au_rule a) with [] => true | _ => false end) = false
    ↔ P ∧ deterministic_logic (au_rule a) ≠ []) as Hlogic.
  { intros P. unfold flag_no_deterministic_logic. destruct (deterministic_logic (au_rule a)); [|cbn; naive_solver].
    split; [by intros (_ & _ & ?)|by intros [_ []]]. }
  assert (Forall (λ kts : string * list NumericalThreshold,
      negb (Nat.ltb (length kts.2) 2) && conflicting kts.2 = false) (by_field (deterministic_logic (au_rule a)))
    ↔ Forall (λ kts, (length kts.2 < 2)%nat ∨ conflicting kts.2 = false)
      (by_field (deterministic_logic (au_rule a)))) as ->.
  { rewrite !Forall_forall. setoid_rewrite andb_false_iff. setoid_rewrite negb_false_iff.
    by setoid_rewrite Nat.ltb_lt. }
  specialize (Hlogic True). tauto.
Qed.

(** ** The fields of generated code *)

(** The canonical fact a threshold is compiled to. *)
Definition fact_of (t : NumericalThreshold) : string :=
  match _threshold_field t with Ok f => f | Raise _ => "" end.

Lemma metric_field_canonical m u f :
  metric_field_name m u false = Ok f → is_Some (get_canonical_fact f).
Proof.
  unfold metric_field_name. cbv zeta. intros H.
  destruct (is_valid _ && _) eqn:E; [|done]. injection H as <-.
  apply andb_prop in E as [Ev _]. unfold is_valid in Ev. breflect.
  destruct (resolve_valid_inv m (Some u) None None) as (cf & Hm & _ & _ & _ & ->); [done|].
  apply match_fact_in, get_canonical_fact_id in Hm. cbn [canonical_identifier str_or].
  destruct (canonical_id_chars _ _ Hm) as (_ & _ & Hn). apply String.eqb_neq in Hn. rewrite Hn. by exists cf.
Qed.

Lemma threshold_field_canonical t f :
  _threshold_field t = Ok f → is_Some (get_canonical_fact f).
Proof.
  unfold _threshold_field. case_match eqn:E; [|apply metric_field_canonical]. cbv zeta.
  destruct (get_canonical_fact (str_or (canonical_fact t) "")) eqn:Eg; [|done]. intros [= <-]. by exists c.
Qed.

(** Both generators use the same field. *)
Lemma threshold_path t f :
  _threshold_field t = Ok f → _threshold_var_path t = Ok ("facts." +:+ f).
Proof.
  unfold _threshold_field, _threshold_var_path. case_match; [|by intros ->]. cbv zeta.
  case_match; [|done]. by intros [= <-].
Qed.

Lemma fact_of_ok t f : _threshold_field t = Ok f → fact_of t = f.
Proof. unfold fact_of. by intros ->. Qed.

(** Canonical identifiers contain no dot, so a generated [var] path has two
    parts. *)
Lemma split_on_none sep s :
  all_chars (λ c, negb (Ascii.eqb c sep)) s = true → split_on sep s = [s].
Proof.
  induction s as [|c s IH]; cbn; [done|]. intros H. breflect.
  rewrite H IH //.
Qed.

Lemma canonical_path_parts f :
  is_Some (get_canonical_fact f) → split_on "." ("facts." +:+ f) = ["facts"; f].
Proof.
  intros [cf H]. apply canonical_id_chars in H as (_ & Hc & _). cbn.
  rewrite split_on_none; [done|]. eapply all_chars_impl; [|exact Hc]. intros c.
  destruct (Ascii.eqb_spec c "."); [by subst|done].
Qed.

(** ** Meaning of a threshold *)
Definition threshold_holds (t : NumericalThreshold) (x : pynum) : bool :=
  match operator t with
  | GTE => num_leb (PFlt (value t)) x
  | GT => num_ltb (PFlt (value t)) x
  | LTE => num_leb x (PFlt (value t))
  | LT => num_ltb x (PFlt (value t))
  | EQ => num_eqb x (PFlt (value t))
  | RANGE =>
      num_leb (PFlt (value t)) x
      && match value_upper t with Some u => num_leb x (PFlt u) | None => false end
  end.

(** What evaluating a threshold against the facts of a transaction gives: a
    missing fact is an error, and so is the order comparison of a fact that is
    not a number; such a fact is simply not equal to the value. *)
Definition threshold_verdict (facts : list (string * json)) (t : NumericalThreshold)
  : res eval_error bool :=
  match obj_get (fact_of t) facts with
  | None => Raise (MissingFactError ("facts." +:+ fact_of t))
  | Some j =>
      match as_num j with
      | Some x => Ok (threshold_holds t x)
      | None => if bool_decide (operator t = EQ) then Ok false else Raise TypeError
      end
  end.

Fixpoint all_verdicts (vs : list (res eval_error bool)) : res eval_error bool :=
  match vs with
  | [] => Ok true
  | v :: vs' => res_bind v (λ b, if b then all_verdicts vs' else Ok false)
  end.

Definition entity_covered (rule : ExtractedComplianceRule) (entity_type : string) : bool :=
  match rule_entities rule with [] => true | es => str_in entity_type es end.

(** The rule's meaning: the entity is covered, and every threshold holds,
    tested in order up to the first that fails. *)
Definition rule_verdict (rule : ExtractedComplianceRule) (entity_type : string)
    (facts : list (string * json)) : res eval_error bool :=
  if entity_covered rule entity_type
  then all_verdicts (map (threshold_verdict facts) (deterministic_logic rule)) else Ok false.

Definition jbool (v : res eval_error bool) : res eval_error json := res_bind v (λ b, Ok (JBool b)).

Lemma resolve_canonical_var f et facts :
  is_Some (get_canonical_fact f) →
  evaluate_jsonlogic (_var ("facts." +:+ f)) (input_doc et facts)
  = match obj_get f facts with
    | Some j => Ok j | None => Raise (MissingFactError ("facts." +:+ f)) end.
Proof.
  intros Hf. cbn [evaluate_jsonlogic _var String.eqb Ascii.eqb Bool.eqb].
  unfold _resolve_var. rewrite (canonical_path_parts f Hf). cbn. by destruct (obj_get f facts).
Qed.

(** Evaluation of a comparison node. *)
Lemma eval_cmp op fn a b data :
  String.eqb op "var" = false → String.eqb op "and" = false → String.eqb op "in" = false →
  _COMPARISON_OPS op = Some fn →
  evaluate_jsonlogic (JObj [(op, JList [a; b])]) data
  = res_bind (evaluate_jsonlogic a data) (λ x,
    res_bind (evaluate_jsonlogic b data) (λ y, or_type_error (fn x y))).
Proof. intros H1 H2 H3 H4. cbn [evaluate_jsonlogic]. by rewrite H1 H2 H3 H4. Qed.

(** The function a comparison operator denotes. *)
Definition op_fn (op : ComparisonOperator) : json → json → option bool :=
  match op with
  | GTE => py_order OpGe | GT => py_order OpGt | LTE => py_order OpLe | LT => py_order OpLt
  | _ => λ a b, Some (py_eqb a b)
  end.

Lemma eval_threshold_cmp op f v et facts :
  op ≠ RANGE → is_Some (get_canonical_fact f) →
  evaluate_jsonlogic (JObj [(op_value op, JList [_var ("facts." +:+ f); JFloat v])]) (input_doc et facts)
  = match obj_get f facts with
    | Some j => or_type_error (op_fn op j (JFloat v))
    | None => Raise (MissingFactError ("facts." +:+ f))
    end.
Proof.
  intros Hop Hf. rewrite (eval_cmp _ (op_fn op)); try by destruct op.
  rewrite resolve_canonical_var //. by destruct (obj_get f facts).
Qed.

Lemma py_order_float o j v :
  py_order o j (JFloat v) = (λ x, num_order o x (PFlt v)) <$> as_num j.
Proof. destruct j; done. Qed.

Lemma py_eqb_float j v :
  py_eqb j (JFloat v) = match as_num j with Some x => num_eqb x (PFlt v) | None => false end.
Proof. by destruct j. Qed.

(** A conjunction of nodes that evaluate to booleans. *)
Lemma eval_and (cs : list json) (vs : list (res eval_error bool)) data :
  Forall2 (λ c v, evaluate_jsonlogic c data = jbool v) cs vs →
  evaluate_jsonlogic (JObj [("and", JList cs)]) data = jbool (all_verdicts vs).
Proof.
  intros H. cbn [evaluate_jsonlogic]. change (String.eqb "and" "var") with false.
  change (String.eqb "and" "and") with true. cbv iota.
  induction H as [|c v cs vs Hc _ IH]; [done|]. rewrite Hc. cbn [all_verdicts].
  destruct v as [[]|e]; cbn; [exact IH|done|done].
Qed.

Lemma threshold_logic_eval t c f et facts :
  _threshold_field t = Ok f → _threshold_to_logic t = Ok c →
  evaluate_jsonlogic c (input_doc et facts) = jbool (threshold_verdict facts t).
Proof.
  intros Hf Hc. pose proof (threshold_field_canonical _ _ Hf) as Hcan.
  unfold _threshold_to_logic in Hc. rewrite (threshold_path _ _ Hf) in Hc. cbn [res_bind] in Hc.
  unfold threshold_verdict, threshold_holds. rewrite (fact_of_ok _ _ Hf).
  destruct (operator t) eqn:Eop.
  6: { destruct (value_upper t) as [u|]; [|done]. injection Hc as <-.
    rewrite (eval_and _
      [match obj_get f facts with
       | Some j => match as_num j with Some x => Ok (num_leb (PFlt (value t)) x) | None => Raise TypeError end
       | None => Raise (MissingFactError ("facts." +:+ f)) end;
       match obj_get f facts with
       | Some j => match as_num j with Some x => Ok (num_leb x (PFlt u)) | None => Raise TypeError end
       | None => Raise (MissingFactError ("facts." +:+ f)) end]).
    - destruct (obj_get f facts) as [j|]; [|done]. destruct (as_num j) as [x|]; [|done].
      cbn. by destruct (num_leb (PFlt (value t)) x), (num_leb x (PFlt u)).
    - repeat constructor.
      + rewrite (eval_threshold_cmp GTE f) //. destruct (obj_get f facts) as [j|]; [|done].
        cbn [op_fn]. rewrite py_order_float. by destruct (as_num j).
      + rewrite (eval_threshold_cmp LTE f) //. destruct (obj_get f facts) as [j|]; [|done].
        cbn [op_fn]. rewrite py_order_float. by destruct (as_num j). }
  all: injection Hc as <-.
  1: rewrite (eval_threshold_cmp GTE f) //.
  2: rewrite (eval_threshold_cmp GT f) //.
  3: rewrite (eval_threshold_cmp LTE f) //.
  4: rewrite (eval_threshold_cmp LT f) //.
  5: rewrite (eval_threshold_cmp EQ f) //.
  all: destruct (obj_get f facts) as [j|]; [|done]; cbn [op_fn];
    rewrite ?py_order_float ?py_eqb_float; by destruct (as_num j).
Qed.

(** ** Meaning of the generated AST *)
Lemma eval_entity_var et facts :
  evaluate_jsonlogic (_var "entity_type") (input_doc et facts) = Ok (JStr et).
Proof. reflexivity. Qed.

Lemma eval_str_list es data : evaluate_jsonlogic (JList (map JStr es)) data = Ok (JList (map JStr es)).
Proof.
  cbn [evaluate_jsonlogic].
  assert ((fix go (l : list json) : res eval_error (list json) :=
    match l with
    | [] => Ok []
    | x :: l' => res_bind (evaluate_jsonlogic x data) (λ y, res_bind (go l') (λ ys, Ok (y :: ys)))
    end) (map JStr es) = Ok (map JStr es)) as ->; [|done].
  induction es as [|e es IH]; [done|]. cbn [map]. by rewrite IH.
Qed.

Lemma in_strings et es : existsb (λ x, py_eqb x (JStr et)) (map JStr es) = str_in et es.
Proof. unfold str_in. induction es as [|e es IH]; cbn; [done|]. by rewrite IH String.eqb_sym. Qed.

Lemma entity_logic_eval rule c et facts :
  _entity_logic rule = Some c →
  evaluate_jsonlogic c (input_doc et facts) = Ok (JBool (entity_covered rule et)).
Proof.
  unfold _entity_logic, entity_covered. destruct (rule_entities rule) as [|e [|e' es]]; [done| |].
  - intros [= <-]. rewrite (eval_cmp "==" (λ a b, Some (py_eqb a b))) //. rewrite eval_entity_var. cbn.
    by rewrite orb_false_r.
  - intros [= <-]. set (l := e :: e' :: es).
    change (evaluate_jsonlogic (JObj [("in", JList [_var "entity_type"; JList (map JStr l)])]) (input_doc et facts)
      = Ok (JBool (str_in et l))).
    assert (∀ a b d, evaluate_jsonlogic (JObj [("in", JList [a; b])]) d
      = res_bind (evaluate_jsonlogic a d) (λ x, res_bind (evaluate_jsonlogic b d)
          (λ y, or_type_error (py_in x y)))) as -> by reflexivity.
    rewrite eval_entity_var eval_str_list. cbn [res_bind py_in or_type_error]. by rewrite in_strings.
Qed.

(** A single clause or the conjunction of several mean the same. *)
Lemma clauses_eval cs vs data :
  Forall2 (λ c v, evaluate_jsonlogic c data = jbool v) cs vs → cs ≠ [] →
  evaluate_jsonlogic (match cs with [c] => c | cs => JObj [("and", JList cs)] end) data
  = jbool (all_verdicts vs).
Proof.
  intros H Hne. destruct H as [|c v cs vs Hc H]; [done|].
  destruct cs as [|c' cs]; [|apply eval_and; by constructor].
  apply Forall2_nil_inv_l in H as ->. rewrite Hc. by destruct v as [[]|e].
Qed.

Lemma thresholds_eval ts cs et facts :
  Forall (λ t, ∃ f, _threshold_field t = Ok f) ts → res_mapM _threshold_to_logic ts = Ok cs →
  Forall2 (λ c v, evaluate_jsonlogic c (input_doc et facts) = jbool v) cs
    (map (threshold_verdict facts) ts).
Proof.
  intros Hf H%res_mapM_Ok. revert Hf. induction H as [|t c ts cs Hc _ IH]; intros Hf; [constructor|].
  apply Forall_cons in Hf as [[f Hf] Hfs]. constructor; [by eapply threshold_logic_eval|by apply IH].
Qed.

Lemma compiled_logic_eval rule jl et facts :
  Forall (λ t, ∃ f, _threshold_field t = Ok f) (deterministic_logic rule) →
  compile_rule_to_jsonlogic rule = Ok jl →
  evaluate_jsonlogic (logic jl) (input_doc et facts) = jbool (rule_verdict rule et facts).
Proof.
  unfold compile_rule_to_jsonlogic, rule_verdict. intros Hf H.
  destruct (deterministic_logic rule) as [|t ts] eqn:Ets; [done|]. rewrite -Ets in Hf H |- *.
  apply res_bind_Ok in H as (cs & Hcs & H). cbv zeta in H.
  apply res_bind_Ok in H as (schema & _ & H). apply res_bind_Ok in H as (tmpl & _ & H).
  injection H as <-. cbn [logic].
  pose proof (thresholds_eval _ _ et facts Hf Hcs) as H2.
  assert (cs ≠ []) as Hne.
  { intros ->. apply res_mapM_Ok in Hcs. rewrite Ets in Hcs. by inversion Hcs. }
  destruct (_entity_logic rule) as [c|] eqn:Ee.
  - etrans; [apply (clauses_eval (c :: cs)
      (Ok (entity_covered rule et) :: map (threshold_verdict facts) (deterministic_logic rule)));
      [constructor; [by apply entity_logic_eval|done]|done]|].
    cbn [all_verdicts res_bind]. by destruct (entity_covered rule et).
  - assert (entity_covered rule et = true) as ->.
    { unfold _entity_logic in Ee. unfold entity_covered. by destruct (rule_entities rule) as [|? [|? ?]]. }
    by apply (clauses_eval cs).
Qed.

(** ** What a successful compilation gives *)
Lemma compile_inv a v now r :
  compile_audited_rule a v now = Ok r → compiled r = true →
  ∃ rg jl, gate_open a ∧ rego r = Some rg ∧ json_logic r = Some jl
    ∧ compile_rule_to_rego (au_rule a) v now = Ok rg
    ∧ compile_rule_to_jsonlogic (au_rule a) = Ok jl
    ∧ json_finite (logic jl) = true ∧ hitl_flags r = collect_hitl_flags a.
Proof.
  unfold compile_audited_rule. cbv zeta. intros H Hc.
  destruct (has_blocking_flags _ || _) eqn:Eg; [by injection H as <-|]. apply gate_spec in Eg.
  apply res_bind_Ok in H as (rg & Hrg & H). apply res_bind_Ok in H as (jl & Hjl & H).
  apply res_bind_Ok in H as ([] & _ & H). apply res_bind_Ok in H as ([] & Hser & H).
  injection H as <-. exists rg, jl. split_and!; try done.
  unfold validate_json_serializable in Hser. by destruct (json_finite (logic jl)).
Qed.

Lemma indexed_mapM_Ok {A B E} (f : Z → A → res E B) i l ys :
  indexed_mapM f i l = Ok ys → Forall (λ x, ∃ j y, f j x = Ok y) l.
Proof.
  revert i ys. induction l as [|x l IH]; intros i ys; cbn [indexed_mapM]; [constructor|].
  intros (y & Hy & H)%res_bind_Ok. apply res_bind_Ok in H as (ys' & Hys & _).
  constructor; [by exists i, y|by eapply IH].
Qed.

(** Rego generation checks the field of every threshold. *)
Lemma rego_fields rule v now rg :
  compile_rule_to_rego rule v now = Ok rg →
  Forall (λ t, ∃ f, _threshold_field t = Ok f) (deterministic_logic rule).
Proof.
  unfold compile_rule_to_rego. destruct (deterministic_logic rule) as [|t ts]; [done|].
  intros (conds & Hc & _)%res_bind_Ok. apply indexed_mapM_Ok in Hc.
  eapply Forall_impl; [exact Hc|]. intros t' (j & y & Hy). unfold cond_lines, _pass_condition, pass_cmps in Hy.
  apply res_bind_Ok in Hy as (c & Hc' & _). apply res_bind_Ok in Hc' as (cs & Hcs & _).
  apply res_bind_Ok in Hcs as (f & Hf & _). by exists f.
Qed.


(** Every field of a compiled policy is a canonical fact of the taxonomy,
    and the Rego and the JSON-Logic artifact name it identically. *)
Theorem compiled_fields_canonical a v now r t :
  compile_audited_rule a v now = Ok r → compiled r = true →
  t ∈ deterministic_logic (au_rule a) →
  ∃ f cf, get_canonical_fact f = Some cf ∧ _threshold_field t = Ok f
        ∧ _threshold_var_path t = Ok ("facts." +:+ f).
Proof.
  intros H Hc Ht. destruct (compile_inv _ _ _ _ H Hc) as (rg & jl & _ & _ & _ & Hrg & _).
  apply rego_fields in Hrg. rewrite Forall_forall in Hrg. destruct (Hrg t Ht) as [f Hf].
  destruct (threshold_field_canonical _ _ Hf) as [cf Hcf].
  exists f, cf. split_and!; [done|done|by apply threshold_path].
Qed.

(** C3. The compiled JSON-Logic means the rule: on every transaction it
    evaluates to true exactly when the entity is covered and every threshold
    holds for the transaction's fact; a missing fact met before a failing
    threshold is reported as missing, never as satisfied. *)
Theorem compiled_jsonlogic_meaning a v now r jl entity_type facts :
  compile_audited_rule a v now = Ok r → compiled r = true → json_logic r = Some jl →
  evaluate_jsonlogic (logic jl) (input_doc entity_type facts)
  = jbool (rule_verdict (au_rule a) entity_type facts).
Proof.
  intros H Hc Hj. destruct (compile_inv _ _ _ _ H Hc) as (rg & jl' & _ & _ & Ej & Hrg & Hjl & _).
  rewrite Ej in Hj. injection Hj as ->. apply compiled_logic_eval; [by eapply rego_fields|done].
Qed.

(** ** Compilation is total on well-formed thresholds *)
Definition compilable (t : NumericalThreshold) : Prop :=
  (truthy (canonical_fact t) = true → is_Some (get_canonical_fact (str_or (canonical_fact t) "")))
  ∧ (operator t = RANGE → is_Some (value_upper t))
  ∧ finite_float (value t) = true
  ∧ (∀ u, value_upper t = Some u → finite_float u = true).

Lemma resolves_without_values m u v vu :
  status (resolve_canonical_fact m (Some u) v vu) = VALID →
  is_Some (match_fact m) ∧ is_ok (metric_field_name m u false) = true.
Proof.
  intros H. destruct (resolve_valid_inv _ _ _ _ H) as (f & Hm & Hu & _ & _ & _). split; [by exists f|].
  unfold metric_field_name, resolve_canonical_fact in *. rewrite Hm in H |- *. cbv zeta in *.
  destruct (String.eqb m "" || String.eqb (strip m) ""); [done|].
  destruct (negb (String.eqb (strip u) "") && negb (unit_ok u f)); [done|].
  cbn [check_bounds]. rewrite (left_id_L None (∪)). cbn.
  apply match_fact_in, get_canonical_fact_id, canonical_id_chars in Hm as (_ & _ & Hn).
  by apply String.eqb_neq in Hn as ->.
Qed.

Lemma compilable_field t :
  threshold_resolves t = true → compilable t → ∃ f, _threshold_field t = Ok f.
Proof.
  unfold threshold_resolves, _threshold_field. intros Hr (Hc & _). breflect. cbv zeta.
  destruct (truthy (canonical_fact t)).
  - destruct (Hc eq_refl) as [cf ->]. by eexists.
  - apply resolves_without_values in Hr as [_ Hr]. by destruct (metric_field_name _ _ _) as [f|]; [exists f|].
Qed.

Lemma compilable_logic t f :
  _threshold_field t = Ok f → compilable t →
  ∃ c, _threshold_to_logic t = Ok c ∧ json_finite c = true ∧ ∀ p, validate_json_logic_ast c p = Ok tt.
Proof.
  intros Hf (_ & Hr & Hv & Hu). unfold _threshold_to_logic. rewrite (threshold_path _ _ Hf). cbn [res_bind].
  destruct (operator t) eqn:Eop.
  6: { destruct (Hr eq_refl) as [u Eu]. rewrite Eu. eexists. split; [done|]. cbn. by rewrite Hv (Hu u Eu). }
  all: eexists; split; [done|]; cbn; by rewrite Hv.
Qed.

Lemma compilable_message clause t f : _threshold_field t = Ok f → is_ok (_message_part clause t) = true.
Proof. intros Hf. unfold _message_part. by rewrite (threshold_path _ _ Hf). Qed.

Lemma res_mapM_ok {E A B} (f : A → res E B) l :
  Forall (λ x, is_ok (f x) = true) l → ∃ ys, res_mapM f l = Ok ys.
Proof.
  induction 1 as [|x l Hx _ [ys IH]]; cbn; [by eexists|].
  destruct (f x) as [y|]; [|done]. cbn. rewrite IH. by eexists.
Qed.

Lemma indexed_mapM_ok {E A B} (f : Z → A → res E B) i l :
  Forall (λ x, ∀ j, is_ok (f j x) = true) l → ∃ ys, indexed_mapM f i l = Ok ys.
Proof.
  intros H. revert i. induction H as [|x l Hx _ IH]; intros i; cbn; [by eexists|].
  specialize (Hx i). destruct (f i x) as [y|]; [|done]. cbn. destruct (IH (i + 1)%Z) as [ys ->]. by eexists.
Qed.

Lemma compilable_rego t f clause g :
  _threshold_field t = Ok f → compilable t →
  (∀ i, is_ok (cond_lines i t) = true) ∧ is_ok (violation_lines clause g t) = true.
Proof.
  intros Hf (_ & Hr & _). unfold cond_lines, _pass_condition, pass_cmps, violation_lines, _violation_clauses.
  rewrite Hf. cbn [res_bind]. destruct (operator t) eqn:Eop; try done.
  by destruct (Hr eq_refl) as [u ->].
Qed.

Lemma data_schema_ok ts acc :
  Forall (λ t, ∃ f, _threshold_field t = Ok f) ts →
  is_ok (fold_left (λ acc t, res_bind acc (λ schema : list (string * string),
    res_bind (_threshold_var_path t) (λ path, Ok (dict_set path "number" schema)))) ts (Ok acc)) = true.
Proof.
  intros H. revert acc. induction H as [|t ts [f Hf] _ IH]; intros acc; [done|]. cbn [fold_left].
  rewrite (threshold_path _ _ Hf). cbn [res_bind]. apply IH.
Qed.

Lemma rego_total rule v now :
  deterministic_logic rule ≠ [] →
  Forall (λ t, compilable t ∧ ∃ f, _threshold_field t = Ok f) (deterministic_logic rule) →
  is_ok (compile_rule_to_rego rule v now) = true.
Proof.
  intros Hne Hts. unfold compile_rule_to_rego.
  destruct (deterministic_logic rule) as [|t ts] eqn:E; [done|]. cbv zeta.
  set (l := t :: ts) in *. clearbody l.
  destruct (indexed_mapM_ok cond_lines 0 l) as [cs ->].
  { eapply Forall_impl; [exact Hts|]. intros x [Hc [f Hf]]. by apply (compilable_rego x f "" None Hf Hc). }
  cbn [res_bind].
  destruct (res_mapM_ok (violation_lines (str_or (clause_number rule) "unscoped") (_entity_guard rule)) l)
    as [vs ->]; [|done].
  eapply Forall_impl; [exact Hts|]. intros x [Hc [f Hf]]. by apply (compilable_rego x f _ _ Hf Hc).
Qed.

(** A node that passes both validations wherever it occurs. *)
Definition node_ok (c : json) : Prop :=
  json_finite c = true ∧ ∀ p, validate_json_logic_ast c p = Ok tt.

Lemma list_node_ok cs : Forall node_ok cs → node_ok (JList cs).
Proof.
  intros H. split.
  - cbn [json_finite]. apply forallb_true_Forall. eapply Forall_impl; [exact H|]. by intros c [? _].
  - intros p. cbn [validate_json_logic_ast]. generalize 0%Z.
    induction H as [|c cs [_ Hc] _ IH]; intros i; [done|]. rewrite Hc. cbn [res_bind]. apply IH.
Qed.

Lemma op_node_ok op x : op ≠ "" → node_ok x → node_ok (JObj [(op, x)]).
Proof.
  intros Hop [Hf Hx]. split; [cbn [json_finite forallb snd]; by rewrite Hf|]. intros p.
  cbn [validate_json_logic_ast]. apply String.eqb_neq in Hop. by rewrite Hop.
Qed.

Lemma str_node_ok s : node_ok (JStr s).
Proof. done. Qed.

Lemma entity_logic_ok rule c : _entity_logic rule = Some c → node_ok c.
Proof.
  unfold _entity_logic. destruct (rule_entities rule) as [|e [|e' es]]; [done| |]; intros [= <-]; [done|].
  set (l := e :: e' :: es). change (JStr e :: JStr e' :: map JStr es) with (map JStr l). clearbody l.
  apply op_node_ok; [done|]. apply list_node_ok. constructor; [done|]. constructor; [|constructor].
  apply list_node_ok, Forall_forall. intros x Hx. apply list_elem_of_fmap in Hx as (y & -> & _).
  apply str_node_ok.
Qed.

Lemma and_node_ok cs :
  Forall node_ok cs → node_ok (match cs with [c] => c | cs => JObj [("and", JList cs)] end).
Proof.
  intros H. destruct cs as [|c [|c' cs]]; [done|by apply Forall_cons in H as [? _]|].
  apply op_node_ok; [done|]. by apply list_node_ok.
Qed.

Lemma jsonlogic_total rule :
  deterministic_logic rule ≠ [] →
  Forall (λ t, compilable t ∧ ∃ f, _threshold_field t = Ok f) (deterministic_logic rule) →
  ∃ jl, compile_rule_to_jsonlogic rule = Ok jl ∧ node_ok (logic jl).
Proof.
  intros Hne Hts. unfold compile_rule_to_jsonlogic.
  destruct (deterministic_logic rule) as [|t ts] eqn:E; [done|]. rewrite -E in Hts |- *. clear Hne.
  assert (∃ cs, res_mapM _threshold_to_logic (deterministic_logic rule) = Ok cs ∧ Forall node_ok cs)
    as (cs & -> & Hcs).
  { clear E. induction Hts as [|x l [Hc [f Hf]] _ (cs & IH & Hcs)]; cbn; [by exists []|].
    destruct (compilable_logic x f Hf Hc) as (c & -> & Hok). cbn. rewrite IH. exists (c :: cs). by split; [|constructor]. }
  cbn [res_bind]. cbv zeta.
  assert (Forall (λ t, ∃ f, _threshold_field t = Ok f) (deterministic_logic rule)) as Hf
    by (eapply Forall_impl; [exact Hts|]; by intros x [_ ?]).
  pose proof (data_schema_ok _ [("entity_type", "string")] Hf) as Hs. unfold _data_schema.
  destruct (fold_left _ _ _) as [schema|]; [|done]. cbn [res_bind]. unfold _message_template.
  destruct (res_mapM_ok (_message_part (str_or (clause_number rule) "unscoped")) (deterministic_logic rule)) as [ps ->].
  { eapply Forall_impl; [exact Hf|]. intros x [f Hx]. by eapply compilable_message. }
  cbn [res_bind]. eexists. split; [reflexivity|]. cbn [logic]. apply and_node_ok, Forall_app. split; [|done].
  destruct (_entity_logic rule) as [c|] eqn:Ee; constructor; [|constructor]. by eapply entity_logic_ok.
Qed.

(** Compilation does not fail: unless a threshold names an unknown
    canonical fact, is a range without an upper bound or carries an infinite
    or undefined value, [compile_audited_rule] returns a result, which is
    compiled exactly when the gate is open; in particular the AST validators
    accept everything the generator emits. *)
Theorem compile_total a v now :
  Forall compilable (deterministic_logic (au_rule a)) →
  ∃ r, compile_audited_rule a v now = Ok r ∧ (compiled r = true ↔ gate_open a).
Proof.
  intros Hts. unfold compile_audited_rule. cbv zeta.
  destruct (has_blocking_flags _ || _) eqn:Eg.
  - eexists. split; [reflexivity|]. cbn. split; [done|]. intros Hg%gate_spec. congruence.
  - apply gate_spec in Eg. pose proof Eg as (_ & _ & Hres & _ & Hne).
    assert (Forall (λ t, compilable t ∧ ∃ f, _threshold_field t = Ok f) (deterministic_logic (au_rule a))) as Hall.
    { rewrite forallb_true_Forall in Hres. rewrite Forall_forall in Hts. rewrite Forall_forall in Hres.
      apply Forall_forall. intros t Ht. split; [by apply Hts|]. apply compilable_field; auto. }
    pose proof (rego_total _ v now Hne Hall) as Hr.
    destruct (compile_rule_to_rego (au_rule a) v now) as [rg|]; [|done]. cbn [res_bind].
    destruct (jsonlogic_total _ Hne Hall) as (jl & -> & Hfin & Hval). cbn [res_bind].
    rewrite Hval. cbn [res_bind]. unfold validate_json_serializable. rewrite Hfin. cbn [res_bind].
    eexists. split; [reflexivity|]. done.
Qed.

(** ** Rego conditions *)

(** The comparison operators of Rego on numbers. *)
Definition rego_compare (op : string) (x v : pynum) : bool :=
  if String.eqb op ">=" then num_leb v x
  else if String.eqb op ">" then num_ltb v x
  else if String.eqb op "<=" then num_leb x v
  else if String.eqb op "<" then num_ltb x v
  else if String.eqb op "==" then num_eqb x v
  else if String.eqb op "!=" then negb (num_eqb x v)
  else false.

Definition cmp_holds (x : pynum) (c : rego_cmp) : bool := rego_compare (rc_op c) x (PFlt (rc_value c)).

Definition numeric (t : NumericalThreshold) : Prop :=
  is_nan (PFlt (value t)) = false
  ∧ match value_upper t with Some u => is_nan (PFlt u) = false | None => True end.


(** ** Conflicting thresholds *)
Lemma fold_select_in {A} (p : A → A → bool) l x :
  fold_left (λ m y, if p y m then y else m) l x ∈ x :: l.
Proof.
  revert x. induction l as [|y l IH]; intros x; cbn; [left|].
  specialize (IH (if p y x then y else x)). apply elem_of_cons in IH as [->|IH].
  - destruct (p y x); [right; left|left].
  - right. by right.
Qed.

Lemma bounds_elem (p : NumericalThreshold → bool) ts v :
  v ∈ map value (List.filter p ts) → ∃ t, t ∈ ts ∧ p t = true ∧ value t = v.
Proof.
  intros (t & -> & Ht)%list_elem_of_fmap. apply list_elem_of_In, filter_In in Ht as [Ht Hp].
  exists t. by rewrite list_elem_of_In.
Qed.

Lemma num_ltb_le a b : num_ltb a b = true → num_leb a b = true.
Proof. unfold num_ltb, num_leb. by destruct (num_compare a b) as [[]|]. Qed.

Lemma lower_bound_holds t x :
  is_lower_bound t = true → threshold_holds t x = true → num_leb (PFlt (value t)) x = true.
Proof. unfold is_lower_bound, threshold_holds. destruct (operator t); try done. by intros _ ?%num_ltb_le. Qed.

Lemma upper_bound_holds t x :
  is_upper_bound t = true → threshold_holds t x = true → num_leb x (PFlt (value t)) = true.
Proof. unfold is_upper_bound, threshold_holds. destruct (operator t); try done. by intros _ ?%num_ltb_le. Qed.

Lemma num_leb_ltb_false a b : num_leb a b = true → num_ltb b a = false.
Proof.
  unfold num_ltb, num_leb, num_compare. rewrite (xcompare_antisym (num_val a) (num_val b)).
  by destruct (xcompare (num_val a) (num_val b)) as [[]|].
Qed.

(** The conflict flag is never a false alarm: thresholds reported as
    conflicting cannot all hold for any value. *)
Theorem conflicting_unsatisfiable ts x :
  conflicting ts = true → forallb (λ t, threshold_holds t x) ts = false.
Proof.
  unfold conflicting, lower_bounds, upper_bounds. intros H.
  destruct (map value (List.filter is_lower_bound ts)) as [|l ls] eqn:El; [done|].
  destruct (map value (List.filter is_upper_bound ts)) as [|u us] eqn:Eu; [done|].
  destruct (forallb _ ts) eqn:E; [|done]. exfalso. rewrite forallb_true_Forall Forall_forall in E.
  pose proof (fold_select_in (λ y m, flt_ltb y m) ls l) as Hmin.
  pose proof (fold_select_in (λ y m, flt_ltb m y) us u) as Hmax.
  change (fold_left _ ls l) with (py_min l ls) in Hmin. change (fold_left _ us u) with (py_max u us) in Hmax.
  rewrite -El in Hmin. rewrite -Eu in Hmax.
  apply bounds_elem in Hmin as (t & Ht & Hlow & Hval), Hmax as (t' & Ht' & Hup & Hval').
  pose proof (lower_bound_holds _ _ Hlow (E _ Ht)) as H1. pose proof (upper_bound_holds _ _ Hup (E _ Ht')) as H2.
  pose proof (num_leb_ltb_false _ _ (num_leb_le_trans _ _ _ H1 H2)) as H3.
  unfold flt_ltb in H. rewrite Hval Hval' in H3. congruence.
Qed.
