(* ===== verification/CompilerWitness.v ===== *)
(** * Concrete rules

    Rules on which the theorems about the compiler are applied, and rules that
    show what the compiler does not catch. *)
From S2P Require Import Prelude PyStr PyFloat Sha256 Json JsonFacts Datetime PyRe Facts.
From S2P Require Import FactsFacts Taxonomy Schemas Compiler ExecModels JsonLogic.
From S2P Require Import CompilerFacts.

Open Scope string_scope.

Definition mk_threshold (m : string) (op : ComparisonOperator) (v : Z) (u : option Z) (un : string)
  : NumericalThreshold :=
  Threshold m None op (float_of_Z v) (float_of_Z <$> u) un None "evidence".

Definition mk_rule (es : list TargetEntity) (ts : list NumericalThreshold) : ExtractedComplianceRule :=
  {| rule_id := "ab12:4.1"; source_chunk_id := "c1"; source_sha256 := "ab12";
     source_document_sha256 := None; extracted_text_sha256 := None;
     circular_number := Some "SEBI/HO/2024/1"; clause_number := Some "4.1"; section_path := [];
     regulator := SEBI; regulatory_domain := None; target_entities := es; trigger_conditions := [];
     deterministic_logic := ts; qualitative_directives := [];
     obligation_type := MANDATORY; extraction_confidence := decimal 9 1; ambiguous_spans := [];
     extraction_notes := None; canonical_facts_digest := None |}.

Definition approve (r : ExtractedComplianceRule) : AuditedComplianceRule :=
  Audited r (Audit (rule_id r) APPROVED (decimal 95 2) [] 1 0) 0.

Definition stockbroker : TargetEntity := Target "stock broker" (Some "Stockbroker") "evidence".

Definition margin_rule : ExtractedComplianceRule :=
  mk_rule [stockbroker]
    [mk_threshold "Upfront Margin" GTE 20 None "%"; mk_threshold "Peak margin" RANGE 10 (Some 50) "%"].

Definition some_time : datetime := Datetime 63000000000000000 (Some 0).

(** The result of compiling a rule, with a default that is not compiled. *)
Definition compile_of (a : AuditedComplianceRule) : CompilationResult :=
  match compile_audited_rule a 1 some_time with
  | Ok r => r | Raise _ => Compilation "" false None None [] end.

Lemma margin_compiles : compile_audited_rule (approve margin_rule) 1 some_time = Ok (compile_of (approve margin_rule)).
Proof. vm_compute. reflexivity. Qed.
Lemma margin_compiled : compiled (compile_of (approve margin_rule)) = true.
Proof. vm_compute. reflexivity. Qed.


Lemma compiled_fields_witness :
  ∃ f cf, get_canonical_fact f = Some cf
    ∧ _threshold_field (mk_threshold "Upfront Margin" GTE 20 None "%") = Ok f
    ∧ _threshold_var_path (mk_threshold "Upfront Margin" GTE 20 None "%") = Ok ("facts." +:+ f).
Proof.
  apply (compiled_fields_canonical (approve margin_rule) 1 some_time _ _ margin_compiles margin_compiled).
  left.
Defined.

Definition margin_logic : JsonLogicRule :=
  default (JLRule "" JNull [] "" 0) (json_logic (compile_of (approve margin_rule))).

Lemma jsonlogic_meaning_witness :
  evaluate_jsonlogic (logic margin_logic)
    (input_doc "Stockbroker" [("upfront_margin_pct", JFloat (decimal 205 1)); ("peak_margin", JInt 50)])
  = jbool (rule_verdict margin_rule "Stockbroker"
      [("upfront_margin_pct", JFloat (decimal 205 1)); ("peak_margin", JInt 50)]).
Proof.
  apply (compiled_jsonlogic_meaning (approve margin_rule) 1 some_time _ margin_logic _ _ margin_compiles margin_compiled).
  vm_compute. reflexivity.
Defined.

Lemma margin_compilable : Forall compilable (deterministic_logic margin_rule).
Proof.
  repeat constructor; try (vm_compute; reflexivity); try discriminate; try (vm_compute; congruence).
  - intros _. by eexists.
  - intros u [= <-]. vm_compute. reflexivity.
Qed.

Lemma compile_total_witness :
  ∃ r, compile_audited_rule (approve margin_rule) 1 some_time = Ok r
     ∧ (compiled r = true ↔ gate_open (approve margin_rule)).
Proof. exact (compile_total (approve margin_rule) 1 some_time margin_compilable). Defined.

Definition peak_range : NumericalThreshold := mk_threshold "Peak margin" RANGE 10 (Some 50) "%".
Definition peak_pass : list rego_cmp := match pass_cmps peak_range with Ok l => l | _ => [] end.
Definition peak_fail : list (rego_cmp * string) :=
  match _violation_clauses peak_range with Ok l => l | _ => [] end.


Definition margin_conflict : list NumericalThreshold :=
  [mk_threshold "Margin" GTE 20 None "%"; mk_threshold "Margin" LT 15 None "%"].

Lemma conflicting_witness : forallb (λ t, threshold_holds t (PInt 17)) margin_conflict = false.
Proof. apply conflicting_unsatisfiable. vm_compute. reflexivity. Defined.

(** ** What is not caught *)

(** Lower bounds 10 and 30, upper bound 20. *)
Definition hidden_conflict : list NumericalThreshold :=
  [ mk_threshold "Margin" GTE 10 None "%"; mk_threshold "Margin" GTE 30 None "%";
    mk_threshold "Margin" LTE 20 None "%" ].

Lemma bounds_30_20 x :
  num_leb (PFlt (float_of_Z 30)) x = true → num_leb x (PFlt (float_of_Z 20)) = true → False.
Proof. intros H1 H2. pose proof (num_leb_le_trans _ _ _ H1 H2) as H. by vm_compute in H. Qed.

(** The conflict check compares the least lower bound with the greatest
    upper bound, so it misses contradictions: a rule that demands at least 10,
    at least 30 and at most 20 is compiled without a conflict flag although no
    value satisfies it. *)
Theorem conflict_check_incomplete :
  compiled (compile_of (approve (mk_rule [stockbroker] hidden_conflict))) = true
  ∧ flag_conflicting_thresholds (mk_rule [stockbroker] hidden_conflict) = []
  ∧ ∀ x, forallb (λ t, threshold_holds t x) hidden_conflict = false.
Proof.
  split; [vm_compute; reflexivity|]. split; [vm_compute; reflexivity|].
  intros x. destruct (forallb _ _) eqn:E; [exfalso|done]. cbn [hidden_conflict forallb] in E. breflect.
  unfold threshold_holds in *. cbn in *. by eapply bounds_30_20.
Qed.

(** A net-worth requirement of 500 lakh, that is 5 crore. *)
Definition lakh_rule : ExtractedComplianceRule :=
  mk_rule [stockbroker] [mk_threshold "Net worth" GTE 500 None "lakh"].
Definition lakh_logic : json :=
  default JNull (logic <$> json_logic (compile_of (approve lakh_rule))).

(** Units are checked but not converted: a threshold of 500 lakh (5 crore)
    on net worth is compiled as 500 on the fact [net_worth_inr_crore], so a
    broker with a net worth of 6 crore fails the compiled rule. *)
Theorem unit_not_converted :
  compiled (compile_of (approve lakh_rule)) = true
  ∧ lakh_logic = JObj [("and", JList
      [ JObj [("==", JList [_var "entity_type"; JStr "Stockbroker"])];
        JObj [(">=", JList [_var "facts.net_worth_inr_crore"; JFloat (float_of_Z 500)])] ])]
  ∧ evaluate_jsonlogic lakh_logic (input_doc "Stockbroker" [("net_worth_inr_crore", JInt 6)])
    = Ok (JBool false).
Proof. split_and!; vm_compute; reflexivity. Qed.

(** A range without an upper bound passes the schema and every flag of the
    gate, and then makes the compiler raise [AssertionError] instead of being
    routed to review. *)
Theorem range_without_upper_raises :
  ∃ t, validate_threshold (ThresholdData "Peak margin" None RANGE (PInt 10) None "%" None "e") = Ok t
     ∧ has_blocking_flags (collect_hitl_flags (approve (mk_rule [stockbroker] [t]))) = false
     ∧ compile_audited_rule (approve (mk_rule [stockbroker] [t])) 1 some_time = Raise AssertionError.
Proof. eexists. split; [reflexivity|]. split; vm_compute; reflexivity. Qed.

(** A [canonical_fact] supplied with the extraction is trusted even when it
    is not the fact the metric maps to: a net-worth threshold is compiled to a
    condition on the upfront margin, with no flag raised. *)
Theorem supplied_fact_not_checked :
  let t := Threshold "Net worth" (Some "upfront_margin_pct") GTE (float_of_Z 5) None "crore" None "e" in
  hitl_flags (compile_of (approve (mk_rule [stockbroker] [t]))) = []
  ∧ compiled (compile_of (approve (mk_rule [stockbroker] [t]))) = true
  ∧ _threshold_var_path t = Ok "facts.upfront_margin_pct"
  ∧ canonical_identifier (resolve_canonical_fact "Net worth" (Some "crore") None None)
    = Some "net_worth_inr_crore".
Proof. cbv zeta. split_and!; vm_compute; reflexivity. Qed.

(** An entity phrase that closes the guard and adds a rule of its own. *)
Definition hostile_entity : TargetEntity :=
  Target ("broker" +:+ String "034" (" }" +:+ String newline ("allow if { true }"
          +:+ String newline ("other if { input.x == " +:+ String "034" "")))) None "evidence".

(** Entity names are pasted into the Rego module between quotes without
    escaping: an unresolved entity phrase (only an advisory flag) can close
    its quotes and add [allow if { true }] as a rule of the module. *)
Theorem rego_entity_injection :
  ∃ rg, rego (compile_of (approve (mk_rule [hostile_entity] [mk_threshold "Margin" GTE 20 None "%"])))
        = Some rg
     ∧ "allow if { true }" ∈ split_on newline (rego_code rg).
Proof.
  eexists. split; [vm_compute; reflexivity|]. apply list_elem_of_In. vm_compute.
  repeat (first [left; reflexivity|right]).
Qed.

(** * Backtesting a compiled candidate

    The in-process evaluation of a compiled rule against historical facts. *)

(** Replaying a compiled rule (without a message template) decides as the
    rule says: allow when it is satisfied, deny when it is violated, flagged
    when a needed fact is missing from the historical transaction. *)
Theorem candidate_decides_rule a v now r jl entity_type facts :
  compile_audited_rule a v now = Ok r → compiled r = true → json_logic r = Some jl →
  fst <$> (match candidate_evaluate (logic jl) None entity_type facts with
           | Ok d => Some d | Raise _ => None end)
  = match rule_verdict (au_rule a) entity_type facts with
    | Ok true => Some ALLOW
    | Ok false => Some DENY
    | Raise (MissingFactError _) => Some FLAGGED
    | Raise UnsupportedJsonLogicNodeError => Some FLAGGED
    | Raise TypeError => None
    end.
Proof.
  intros H Hc Hj. destruct (compile_inv _ _ _ _ H Hc) as (rg & jl' & _ & _ & Ej & Hrg & Hjl & _).
  rewrite Ej in Hj. injection Hj as ->. unfold candidate_evaluate.
  rewrite (compiled_logic_eval _ _ entity_type facts (rego_fields _ _ _ _ Hrg) Hjl).
  by destruct (rule_verdict (au_rule a) entity_type facts) as [[]|[]].
Qed.

Lemma candidate_decides_witness :
  fst <$> (match candidate_evaluate (logic margin_logic) None "Stockbroker"
                   [("upfront_margin_pct", JInt 25)] with
           | Ok d => Some d | Raise _ => None end)
  = match rule_verdict margin_rule "Stockbroker" [("upfront_margin_pct", JInt 25)] with
    | Ok true => Some ALLOW
    | Ok false => Some DENY
    | Raise (MissingFactError _) => Some FLAGGED
    | Raise UnsupportedJsonLogicNodeError => Some FLAGGED
    | Raise TypeError => None
    end.
Proof.
  apply (candidate_decides_rule (approve margin_rule) 1 some_time _ margin_logic _ _
    margin_compiles margin_compiled). vm_compute. reflexivity.
Defined.

(** ** The message template *)
Definition no_braces (c : ascii) : bool := negb (Ascii.eqb c "{") && negb (Ascii.eqb c "}").

Lemma format_plain_prefix m s fuel kwargs e :
  all_chars no_braces m = true → (String.length m + String.length s < fuel)%nat →
  (∀ fuel', (String.length s < fuel')%nat → str_format fuel' s kwargs = Raise e) →
  str_format fuel (m +:+ s) kwargs = Raise e.
Proof.
  revert fuel. induction m as [|c m IH]; intros fuel Hm Hlen Hs; cbn in Hm, Hlen |- *; [apply Hs; lia|].
  apply andb_prop in Hm as [Hc Hm]. destruct fuel as [|fuel]; [lia|].
  specialize (IH fuel Hm ltac:(lia) Hs). unfold no_braces in Hc. apply andb_prop in Hc as [Hc1 Hc2].
  destruct c as [[] [] [] [] [] [] [] []]; try discriminate Hc1; try discriminate Hc2;
    cbn [str_format]; rewrite IH; reflexivity.
Qed.

Lemma field_name_close f s :
  all_chars (λ c, negb (Ascii.eqb c "}")) f = true → field_name (f +:+ String "}" s) = Some (f, s).
Proof.
  induction f as [|c f IH]; cbn; [done|]. intros [Hc Hf]%andb_prop. specialize (IH Hf).
  destruct c as [[] [] [] [] [] [] [] []]; try discriminate Hc; rewrite IH; reflexivity.
Qed.

Lemma format_placeholder f s fuel kwargs :
  is_Some (get_canonical_fact f) → obj_get "facts" kwargs = None → (0 < fuel)%nat →
  str_format fuel (String "{" (("facts." +:+ f) +:+ String "}" s)) kwargs = Raise (FmtKeyError "facts").
Proof.
  intros Hf Hk Hfuel. destruct fuel as [|fuel]; [lia|].
  assert (all_chars (λ c, negb (Ascii.eqb c "}")) ("facts." +:+ f) = true) as Hc.
  { cbn. destruct Hf as [cf H]. apply canonical_id_chars in H as (_ & Hc & _).
    eapply all_chars_impl; [|exact Hc]. intros c. destruct (Ascii.eqb_spec c "}"); [by subst|done]. }
  pose proof (field_name_close _ s Hc) as Hn.
  change (("facts." +:+ f) +:+ String "}" s) with (String "f" (("acts." +:+ f) +:+ String "}" s)) in *.
  cbn [str_format]. rewrite Hn. unfold format_field. rewrite (canonical_path_parts f Hf). by rewrite Hk.
Qed.

Lemma placeholder_app path x : ("{" +:+ path +:+ "}") +:+ x = String "{" (path +:+ String "}" x).
Proof. cbn. by rewrite sapp_assoc. Qed.

(** The template starts with the first metric and its placeholder. *)
Lemma template_head rule jl t ts f :
  compile_rule_to_jsonlogic rule = Ok jl → deterministic_logic rule = t :: ts →
  _threshold_field t = Ok f →
  ∃ s, violation_message_template jl = metric t +:+ (" is " +:+ String "{" (("facts." +:+ f) +:+ String "}" s)).
Proof.
  intros H Ets Hf. unfold compile_rule_to_jsonlogic in H. rewrite Ets in H. rewrite -Ets in H.
  apply res_bind_Ok in H as (cs & _ & H). cbv zeta in H. apply res_bind_Ok in H as (sch & _ & H).
  apply res_bind_Ok in H as (tmpl & Ht & H). injection H as <-. cbn [violation_message_template].
  unfold _message_template in Ht. cbv zeta in Ht. apply res_bind_Ok in Ht as (parts & Hp & [= <-]).
  rewrite Ets in Hp. cbn [res_mapM] in Hp. apply res_bind_Ok in Hp as (p & Hp & H).
  apply res_bind_Ok in H as (ps & _ & [= <-]).
  unfold _message_part in Hp. rewrite (threshold_path _ _ Hf) in Hp. cbn [res_bind] in Hp. cbv zeta in Hp.
  assert (∃ s, p = metric t +:+ (" is " +:+ String "{" (("facts." +:+ f) +:+ String "}" s))) as [s ->].
  { destruct (operator t); apply Ok_inj in Hp as <-; rewrite placeholder_app; by eexists. }
  destruct ps as [|q ps]; [by exists s|]. exists (s +:+ (" AND " +:+ join " AND " (q :: ps))).
  cbn [join]. fold (join " AND " (q :: ps)).
  generalize (" AND " +:+ join " AND " (q :: ps)). intros x. rewrite sapp_assoc. f_equal. cbn. by rewrite sapp_assoc.
Qed.

(** The message template of a compiled rule cannot be rendered: its
    placeholders are written [{facts.x}], which [str.format] looks up as an
    argument named [facts], while the evaluator passes the facts themselves as
    arguments.  Every violation of a compiled rule evaluated with its template
    therefore raises [KeyError('facts')] instead of returning a denial (for a
    metric without braces and facts without a key of that name). *)
Theorem candidate_template_raises a v now r jl entity_type facts t ts :
  compile_audited_rule a v now = Ok r → compiled r = true → json_logic r = Some jl →
  deterministic_logic (au_rule a) = t :: ts → all_chars no_braces (metric t) = true →
  obj_get "facts" facts = None →
  rule_verdict (au_rule a) entity_type facts = Ok false →
  candidate_evaluate (logic jl) (Some (violation_message_template jl)) entity_type facts
  = Raise (CandFormat (FmtKeyError "facts")).
Proof.
  intros H Hc Hj Ets Hm Hk Hv. destruct (compile_inv _ _ _ _ H Hc) as (rg & jl' & _ & _ & Ej & Hrg & Hjl & _).
  rewrite Ej in Hj. injection Hj as ->. pose proof (rego_fields _ _ _ _ Hrg) as Hfs.
  pose proof Hfs as Hfs'. rewrite Ets in Hfs'. apply Forall_cons in Hfs' as [[f Hf] _].
  destruct (template_head _ _ _ _ _ Hjl Ets Hf) as [s Hs].
  unfold candidate_evaluate. rewrite (compiled_logic_eval _ _ entity_type facts Hfs Hjl) Hv. cbn [jbool res_bind py_truthy].
  assert (violation_message_template jl ≠ "") as Hne.
  { rewrite Hs. destruct (metric t); discriminate. }
  apply String.eqb_neq in Hne. cbn [truthy str_or]. rewrite Hne. cbn [negb].
  unfold py_format. rewrite Hs.
  rewrite (format_plain_prefix _ _ _ _ (FmtKeyError "facts")); [done|done|rewrite (slength_app (metric t)); lia|].
  intros fuel Hfuel. apply (format_plain_prefix " is "); [done|cbn in *; lia|].
  intros fuel' Hfuel'. apply format_placeholder; [by eapply threshold_field_canonical|done|lia].
Qed.

Lemma candidate_template_witness :
  candidate_evaluate (logic margin_logic) (Some (violation_message_template margin_logic)) "Stockbroker"
    [("upfront_margin_pct", JInt 5)] = Raise (CandFormat (FmtKeyError "facts")).
Proof.
  apply (candidate_template_raises (approve margin_rule) 1 some_time _ margin_logic _ _ _ _
    margin_compiles margin_compiled ltac:(vm_compute; reflexivity) eq_refl);
    vm_compute; reflexivity.
Defined.
