(* ===== verification/Policies.v ===== *)
(** * The policy registry, its cache and hot reload

    [src/app/execution/policy_registry.py], [policy_cache.py],
    [policy_events.py], [policy_publisher.py] and [policy_hot_reload.py].  The
    Redis hash of the registry is a finite map from entity type to the list of
    its entries; the JSON text in which Redis holds them is left out.  OPA's
    policy store is the map from rule id to Rego source that its Policy API
    maintains. *)
From S2P Require Import Prelude PyStr PyFloat Json Compiler.

Open Scope string_scope.
Open Scope Z_scope.

(** One entry of the registry. *)
Record policy_entry := PolicyEntry
  { pe_rule_id : string
  ; pe_package : string
  ; pe_rule_version : Z
  ; pe_policy_sha256 : option string
  ; pe_canonical_facts_digest : option string }.

Abbreviation registry := (gmap string (list policy_entry)).

(** What [register] reads from a compiled policy; the hot-reload path builds
    a [CompiledRego] with the defaults for the last three. *)
Definition entry_of (c : CompiledRego) : policy_entry :=
  PolicyEntry (rg_rule_id c) (package c) (rule_version c) (Some (policy_sha256 c))
    (Some (rg_canonical_facts_digest c)).

(** [entity_types or ["*"]] *)
Definition or_star (entity_types : list string) : list string :=
  match entity_types with [] => ["*"] | l => l end.

Definition entries_at (r : registry) (k : string) : list policy_entry := default [] (r !! k).

Definition without (rule_id : string) (l : list policy_entry) : list policy_entry :=
  List.filter (λ e, negb (String.eqb (pe_rule_id e) rule_id)) l.

Definition register (r : registry) (entry : policy_entry) (entity_types : list string) : registry :=
  fold_left (λ r entity_type,
    <[entity_type := (without (pe_rule_id entry) (entries_at r entity_type) ++ [entry])%list]> r)
    (or_star entity_types) r.

Definition unregister (r : registry) (rule_id : string) : registry :=
  omap (λ entries, match without rule_id entries with [] => None | l => Some l end) r.

(** First occurrence of each rule id. *)
Fixpoint dedupe (seen : list string) (l : list policy_entry) : list policy_entry :=
  match l with
  | [] => []
  | e :: l' =>
      if existsb (String.eqb (pe_rule_id e)) seen then dedupe seen l'
      else e :: dedupe (pe_rule_id e :: seen) l'
  end.

Definition registry_policies_for (r : registry) (entity_type : string) : list policy_entry :=
  dedupe [] (entries_at r entity_type ++ entries_at r "*")%list.

(** ** The interface the evaluator depends on

    A lookup may change the state of the component (a cache fills) and reads
    the clock. *)
Class PolicyLookup (S : Type) := policies_for : Z → string → S → S * list policy_entry.

#[export] Instance registry_lookup : PolicyLookup registry :=
  λ _ entity_type r, (r, registry_policies_for r entity_type).

(** ** The L1 cache *)
Record cache_entry := CacheEntry { ce_policies : list policy_entry; cached_at : Z }.

Record PolicyCache (S : Type) := Cache
  { backing : S
  ; cache_entries : gmap string cache_entry
  ; ttl : Z
  ; hits : Z
  ; misses : Z }.
Arguments Cache {S}.
Arguments backing {S}.
Arguments cache_entries {S}.
Arguments ttl {S}.
Arguments hits {S}.
Arguments misses {S}.

(** [entry is not None and (now - entry.cached_at) < self._ttl] *)
Definition fresh_entry {S} (c : PolicyCache S) (now : Z) (entity_type : string) : option cache_entry :=
  match cache_entries c !! entity_type with
  | Some e => if now - cached_at e <? ttl c then Some e else None
  | None => None
  end.

Definition cache_policies_for {S} `{PolicyLookup S} (now : Z) (entity_type : string)
    (c : PolicyCache S) : PolicyCache S * list policy_entry :=
  match fresh_entry c now entity_type with
  | Some e =>
      (Cache (backing c) (cache_entries c) (ttl c) (hits c + 1) (misses c), ce_policies e)
  | None =>
      let '(b, policies) := policies_for now entity_type (backing c) in
      (Cache b (<[entity_type := CacheEntry policies now]> (cache_entries c)) (ttl c)
         (hits c) (misses c + 1), policies)
  end.

#[export] Instance cache_lookup {S} `{PolicyLookup S} : PolicyLookup (PolicyCache S) :=
  cache_policies_for.

Definition invalidate {S} (c : PolicyCache S) (entity_type : string) : PolicyCache S :=
  Cache (backing c) (delete entity_type (cache_entries c)) (ttl c) (hits c) (misses c).

Definition invalidate_all {S} (c : PolicyCache S) : PolicyCache S :=
  Cache (backing c) ∅ (ttl c) (hits c) (misses c).

(** ** Lifecycle events *)
Inductive PolicyEventType := EV_APPROVED | EV_AMENDED | EV_REVOKED.

Record PolicyEvent := PEvent
  { event_type : PolicyEventType
  ; pev_rule_id : string
  ; pev_rule_version : Z
  ; pev_package : string
  ; entity_types : list string
  ; pev_rego_code : option string
  ; compiled_rule_id : Z
  ; approved_by : option string }.

(** One process: the shared OPA store and registry, and its own cache. *)
Record process := Process
  { opa_policies : gmap string string
  ; l1 : PolicyCache registry }.

Definition registry_of (p : process) : registry := backing (l1 p).
Definition set_registry (p : process) (r : registry) : process :=
  Process (opa_policies p)
    (Cache r (cache_entries (l1 p)) (ttl (l1 p)) (hits (l1 p)) (misses (l1 p))).
Definition set_opa (p : process) (o : gmap string string) : process := Process o (l1 p).

Inductive reload_error := OPAEngineError.

(** The [CompiledRego] that the event carries enough to build: version 1, no
    digests. *)
Definition event_entry (e : PolicyEvent) : policy_entry :=
  PolicyEntry (pev_rule_id e) (pev_package e) 1 None None.

(** [opa_ok] says whether OPA accepts the request. *)
Definition _apply_active (p : process) (e : PolicyEvent) (opa_ok : bool) : res reload_error process :=
  match pev_rego_code e with
  | None => Ok p
  | Some code =>
      if String.eqb code "" then Ok p
      else if opa_ok then
        Ok (set_registry (set_opa p (<[pev_rule_id e := code]> (opa_policies p)))
              (register (registry_of p) (event_entry e) (entity_types e)))
      else Raise OPAEngineError
  end.

Definition _apply_revoked (p : process) (e : PolicyEvent) (opa_ok : bool) : res reload_error process :=
  if opa_ok then
    Ok (set_registry (set_opa p (delete (pev_rule_id e) (opa_policies p)))
          (unregister (registry_of p) (pev_rule_id e)))
  else Raise OPAEngineError.

(** [PolicyHotReloadSubscriber.apply] *)
Definition apply_event (p : process) (e : PolicyEvent) (opa_ok : bool) : res reload_error process :=
  res_bind (match event_type e with
            | EV_APPROVED | EV_AMENDED => _apply_active p e opa_ok
            | EV_REVOKED => _apply_revoked p e opa_ok
            end)
    (λ p', Ok (Process (opa_policies p') (fold_left invalidate (entity_types e) (l1 p')))).

(** [_handle_raw_message]: an event that fails is logged and dropped, leaving
    what it had changed. *)
Definition handle_event (p : process) (e : PolicyEvent) (opa_ok : bool) : process :=
  match apply_event p e opa_ok with Ok p' => p' | Raise _ => p end.

(** ** Publishing *)

(** A row of [compiled_rules] as the publisher reads it. *)
Record published_rule := PublishedRule
  { pr_id : Z
  ; pr_rule_id : string
  ; pr_rule_version : Z
  ; opa_package_name : option string
  ; rego_policy : option string }.

Inductive publish_error := NothingToPublish (* "... has no compiled Rego/package to publish." *).

Definition _publish_active (p : process) (ty : PolicyEventType) (rule : published_rule)
    (types : list string) (approved_by : option string) (opa_ok : bool)
  : res publish_error (process * PolicyEvent) :=
  if negb (truthy (rego_policy rule)) || negb (truthy (opa_package_name rule)) then
    Raise NothingToPublish
  else
    let code := str_or (rego_policy rule) "" in
    let pkg := str_or (opa_package_name rule) "" in
    let event :=
      {| event_type := ty; pev_rule_id := pr_rule_id rule; pev_rule_version := pr_rule_version rule;
         pev_package := pkg; entity_types := or_star types; pev_rego_code := Some code;
         compiled_rule_id := pr_id rule; approved_by := approved_by |} in
    let p1 := if opa_ok then set_opa p (<[pr_rule_id rule := code]> (opa_policies p)) else p in
    let p2 := set_registry p1 (register (registry_of p1)
                (PolicyEntry (pr_rule_id rule) pkg 1 None None) (or_star types)) in
    Ok (Process (opa_policies p2) (fold_left invalidate (or_star types) (l1 p2)), event).

Definition publish_approved (p : process) (rule : published_rule) (by_ : string)
    (types : list string) (opa_ok : bool) : res publish_error (process * PolicyEvent) :=
  _publish_active p EV_APPROVED rule types (Some by_) opa_ok.

Definition publish_amended (p : process) (rule : published_rule) (types : list string)
    (opa_ok : bool) : res publish_error (process * PolicyEvent) :=
  _publish_active p EV_AMENDED rule types None opa_ok.

Definition publish_revoked (p : process) (rule : published_rule) (types : list string)
    (opa_ok : bool) : process * PolicyEvent :=
  let event :=
    {| event_type := EV_REVOKED; pev_rule_id := pr_rule_id rule; pev_rule_version := pr_rule_version rule;
       pev_package := str_or (opa_package_name rule) ""; entity_types := or_star types;
       pev_rego_code := None; compiled_rule_id := pr_id rule; approved_by := None |} in
  let p1 := if opa_ok then set_opa p (delete (pr_rule_id rule) (opa_policies p)) else p in
  let p2 := set_registry p1 (unregister (registry_of p1) (pr_rule_id rule)) in
  (Process (opa_policies p2) (fold_left invalidate (or_star types) (l1 p2)), event).

(** [_reconcile_active_policies] over the active compiled rows; [opa_ok] says
    for which rules OPA accepts the policy. *)
Definition _reconcile_active_policies (p : process) (rows : list published_rule)
    (opa_ok : string → bool) : process :=
  fold_left (λ p row,
    if negb (truthy (rego_policy row)) || negb (truthy (opa_package_name row)) then p
    else if opa_ok (pr_rule_id row) then
      set_registry (set_opa p (<[pr_rule_id row := str_or (rego_policy row) ""]> (opa_policies p)))
        (register (registry_of p)
           (PolicyEntry (pr_rule_id row) (str_or (opa_package_name row) "") 1 None None) ["*"])
    else p) rows p.
