(* ===== verification/PoliciesFacts.v ===== *)
(** * Policy lookup sees what was published

    The registry returns every policy registered for an entity type or for all
    of them, once; a revoked rule disappears; the cache is never staler than
    its time to live; and where event-driven invalidation falls short. *)
From S2P Require Import Prelude PyStr PyFloat Json Compiler Policies.

Open Scope string_scope.
Open Scope Z_scope.

(** ** The registry *)
Lemma without_spec rid l e : e ∈ without rid l ↔ e ∈ l ∧ pe_rule_id e ≠ rid.
Proof.
  unfold without. rewrite list_elem_of_In filter_In -list_elem_of_In negb_true_iff String.eqb_neq. done.
Qed.

(** [dedupe] keeps the first entry of every rule. *)
Lemma dedupe_spec seen l e :
  (e ∈ dedupe seen l) ↔
  (pe_rule_id e ∉ seen) ∧ ∃ l1 l2, l = (l1 ++ e :: l2)%list ∧ pe_rule_id e ∉ (pe_rule_id <$> l1).
Proof.
  revert seen. induction l as [|x l IH]; intros seen; cbn [dedupe].
  - split; [by intros ?%not_elem_of_nil|]. intros (_ & l1 & l2 & E & _). by destruct l1.
  - destruct (existsb _ seen) eqn:Ex.
    + apply existsb_eqb_elem in Ex. rewrite IH. split.
      * intros (Hs & l1 & l2 & -> & Hl). split; [done|]. exists (x :: l1), l2. split; [done|].
        cbn. apply not_elem_of_cons. split; [congruence|done].
      * intros (Hs & l1 & l2 & E & Hl). split; [done|]. destruct l1 as [|y l1]; [by injection E as -> ->|].
        injection E as -> ->. exists l1, l2. split; [done|]. by apply not_elem_of_cons in Hl as [_ ?].
    + assert (pe_rule_id x ∉ seen) as Hx by (intros ?%existsb_eqb_elem; congruence).
      rewrite elem_of_cons IH. split.
      * intros [->|(Hs & l1 & l2 & -> & Hl)].
        { split; [done|]. exists [], l. split; [done|]. apply not_elem_of_nil. }
        apply not_elem_of_cons in Hs as [Hne Hs]. split; [done|]. exists (x :: l1), l2.
        split; [done|]. by apply not_elem_of_cons.
      * intros (Hs & l1 & l2 & E & Hl). destruct l1 as [|y l1]; [injection E as -> ->; by left|].
        injection E as -> ->. apply not_elem_of_cons in Hl as [Hne Hl]. right.
        split; [by apply not_elem_of_cons|by exists l1, l2].
Qed.

Lemma dedupe_nodup seen l : NoDup (pe_rule_id <$> dedupe seen l).
Proof.
  revert seen. induction l as [|x l IH]; intros seen; cbn [dedupe]; [constructor|].
  destruct (existsb _ seen); [apply IH|]. rewrite fmap_cons. constructor; [|apply IH].
  intros (e & He & Hin)%list_elem_of_fmap. apply dedupe_spec in Hin as [Hin _].
  apply Hin. rewrite He. left.
Qed.

(** The entries of a key after [register]. *)
Lemma register_at r entry types k :
  entries_at (register r entry types) k =
  if decide (k ∈ or_star types) then (without (pe_rule_id entry) (entries_at r k) ++ [entry])%list
  else entries_at r k.
Proof.
  unfold register. revert r. induction (or_star types) as [|t ts IH]; intros r; cbn [fold_left].
  - case_decide as H; [by apply not_elem_of_nil in H|done].
  - rewrite IH. set (r' := <[t:=_]> r).
    assert (entries_at r' k = if decide (k = t) then (without (pe_rule_id entry) (entries_at r k) ++ [entry])%list
      else entries_at r k) as ->.
    { unfold entries_at. subst r'. destruct (decide (k = t)) as [->|Hne].
      - by rewrite lookup_insert_eq.
      - by rewrite lookup_insert_ne. }
    destruct (decide (k = t)) as [->|Hne].
    + rewrite (decide_True (P := t ∈ t :: ts)); [|left]. case_decide; [|done].
      unfold without. rewrite List.filter_app. cbn [List.filter]. rewrite String.eqb_refl. cbn [negb].
      rewrite app_nil_r. f_equal. induction (entries_at r t) as [|x l IHl]; cbn; [done|].
      destruct (negb _) eqn:E; cbn; [rewrite E; by rewrite IHl|done].
    + case_decide as H1; case_decide as H2; try done; exfalso.
      * apply H2. by right.
      * by apply elem_of_cons in H2 as [?|?].
Qed.

(** A policy registered for an entity type is what lookups for that type
    return under its rule id, and lookups return at most one entry per rule:
    an earlier version of the rule is replaced. *)
Theorem register_then_lookup r entry types entity_type :
  entity_type ∈ or_star types →
  entry ∈ registry_policies_for (register r entry types) entity_type
  ∧ (∀ e, e ∈ registry_policies_for (register r entry types) entity_type →
       pe_rule_id e = pe_rule_id entry → e = entry)
  ∧ NoDup (pe_rule_id <$> registry_policies_for (register r entry types) entity_type).
Proof.
  intros Ht. unfold registry_policies_for. split; [|split; [|apply dedupe_nodup]].
  - apply dedupe_spec. split; [apply not_elem_of_nil|]. rewrite register_at decide_True //.
    exists (without (pe_rule_id entry) (entries_at r entity_type)).
    eexists. rewrite -app_assoc. cbn. split; [done|].
    intros (e & He & Hin)%list_elem_of_fmap. apply without_spec in Hin as [_ Hin]. congruence.
  - intros e He Hid. apply dedupe_spec in He as (_ & l1 & l2 & E & Hl).
    rewrite (register_at r entry types entity_type) decide_True // -app_assoc in E. cbn in E.
    set (w := without _ _) in E. assert (Hw : ∀ x, x ∈ w → pe_rule_id x ≠ pe_rule_id entry)
      by (intros x Hx; by apply without_spec in Hx as [_ ?]).
    clearbody w. clear Ht. revert l1 E Hl. induction w as [|x w IH]; intros l1 E Hl.
    + destruct l1 as [|y l1]; [by injection E as -> _|]. injection E as -> _. exfalso. apply Hl.
      rewrite Hid. left.
    + destruct l1 as [|y l1]; injection E as -> E.
      * exfalso. apply (Hw e); [left|done].
      * apply (IH (λ x Hx, Hw x (list_elem_of_further _ _ _ Hx)) l1 E). by apply not_elem_of_cons in Hl as [_ ?].
Qed.

Lemma unregister_at r rid k : entries_at (unregister r rid) k = without rid (entries_at r k).
Proof.
  unfold entries_at, unregister. rewrite lookup_omap. destruct (r !! k) as [l|]; cbn; [|done].
  change (default [] (match without rid l with [] => None | l0 => Some l0 end) = without rid l). by destruct (without rid l).
Qed.

(** After [unregister] no lookup, for any entity type, returns the rule,
    and every other policy is still returned as before. *)
Theorem unregister_removes r rid entity_type e :
  (e ∈ registry_policies_for (unregister r rid) entity_type → pe_rule_id e ≠ rid)
  ∧ (pe_rule_id e ≠ rid →
     e ∈ registry_policies_for (unregister r rid) entity_type
     ↔ e ∈ registry_policies_for r entity_type).
Proof.
  unfold registry_policies_for. rewrite !unregister_at.
  assert (∀ a b, without rid a ++ without rid b = without rid (a ++ b))%list as ->
    by (intros a b; unfold without; by rewrite List.filter_app).
  set (l := (entries_at r entity_type ++ entries_at r "*")%list). clearbody l. split.
  - intros (_ & l1 & l2 & E & _)%dedupe_spec.
    assert (e ∈ without rid l) as He by (rewrite E; apply elem_of_app; right; left).
    by apply without_spec in He as [_ ?].
  - intros Hne. rewrite !dedupe_spec. apply and_iff_compat_l. revert e Hne.
    induction l as [|x l IH]; intros e Hne; cbn [without List.filter].
    + split; intros (l1 & l2 & E & _); by destruct l1.
    + fold (without rid l). destruct (String.eqb_spec (pe_rule_id x) rid) as [Ex|Ex]; cbn [negb].
      * rewrite IH //. split.
        { intros (l1 & l2 & -> & Hl). exists (x :: l1), l2. split; [done|].
          apply not_elem_of_cons. split; [congruence|done]. }
        { intros ([|y l1] & l2 & E & Hl); injection E as -> ->; [congruence|].
          exists l1, l2. split; [done|]. by apply not_elem_of_cons in Hl as [_ ?]. }
      * specialize (IH e Hne). split; intros ([|y l1] & l2 & E & Hl); injection E as -> E.
        { exists [], l. split; [done|apply not_elem_of_nil]. }
        { apply not_elem_of_cons in Hl as [Hn Hl]. destruct (proj1 IH) as (m1 & m2 & -> & Hm); [by exists l1, l2|].
          exists (y :: m1), m2. split; [done|]. by apply not_elem_of_cons. }
        { exists [], (without rid l). split; [done|apply not_elem_of_nil]. }
        { apply not_elem_of_cons in Hl as [Hn Hl]. destruct (proj2 IH) as (m1 & m2 & E' & Hm); [by exists l1, l2|].
          exists (y :: m1), m2. rewrite E'. split; [done|]. by apply not_elem_of_cons. }
Qed.

(** ** The cache *)

(** A run of one process's cache while other processes change the registry
    behind it.  The history records at which instants the registry had which
    contents. *)
Inductive cache_run (ttl0 : Z) : list (Z * registry) → Z → PolicyCache registry → Prop :=
| run_start r t0 : cache_run ttl0 [(t0, r)] t0 (Cache r ∅ ttl0 0 0)
| run_tick h now c now' :
    cache_run ttl0 h now c → now <= now' → cache_run ttl0 ((now', backing c) :: h) now' c
| run_update h now c r' :
    cache_run ttl0 h now c →
    cache_run ttl0 ((now, r') :: h) now (Cache r' (cache_entries c) (ttl c) (hits c) (misses c))
| run_lookup h now c k :
    cache_run ttl0 h now c → cache_run ttl0 h now (policies_for now k c).1
| run_invalidate h now c k :
    cache_run ttl0 h now c → cache_run ttl0 h now (invalidate c k).

Record cache_inv (ttl0 : Z) (h : list (Z * registry)) (now : Z) (c : PolicyCache registry) : Prop :=
  { ci_ttl : ttl c = ttl0;
    ci_now : (now, backing c) ∈ h;
    ci_entries : ∀ k e, cache_entries c !! k = Some e →
      cached_at e <= now
      ∧ ∃ r, (cached_at e, r) ∈ h ∧ ce_policies e = registry_policies_for r k }.

Lemma cache_run_inv ttl0 h now c : cache_run ttl0 h now c → cache_inv ttl0 h now c.
Proof.
  induction 1 as [r t0|h now c now' _ [Ht Hn He] Hle|h now c r' _ [Ht Hn He]|h now c k _ [Ht Hn He]
    |h now c k _ [Ht Hn He]].
  - split; cbn; [done|left|]. intros k e. by rewrite lookup_empty.
  - split; [done|left|]. intros k e Hk. destruct (He k e Hk) as (? & r & ? & ?).
    split; [lia|]. exists r. split; [by right|done].
  - split; cbn; [done|left|]. intros k e Hk. destruct (He k e Hk) as (? & r & ? & ?).
    split; [done|]. exists r. split; [by right|done].
  - unfold policies_for, cache_lookup, cache_policies_for. destruct (fresh_entry c now k); [by split|].
    cbn [policies_for registry_lookup]. split; cbn; [done|done|].
    intros k' e. destruct (decide (k' = k)) as [->|Hne].
    + rewrite lookup_insert_eq. intros [= <-]. cbn. split; [lia|]. by exists (backing c).
    + rewrite lookup_insert_ne //. apply He.
  - split; cbn; [done|done|]. intros k' e [_ Hk]%lookup_delete_Some. by apply He.
Qed.

(** A cached lookup is never staler than the time to live: what it returns
    is what the registry held for that entity type at some instant less than
    [ttl] ago, whatever updates and invalidations happened and whatever events
    were lost. *)
Theorem cache_staleness_bound ttl0 h now c k :
  0 < ttl0 → cache_run ttl0 h now c →
  ∃ t r, (t, r) ∈ h ∧ now - ttl0 < t ∧ t <= now
       ∧ (policies_for now k c).2 = registry_policies_for r k.
Proof.
  intros Httl H. destruct (cache_run_inv _ _ _ _ H) as [Ht Hn He].
  unfold policies_for, cache_lookup, cache_policies_for. destruct (fresh_entry c now k) as [e|] eqn:E.
  - unfold fresh_entry in E. destruct (cache_entries c !! k) as [e'|] eqn:Ek; [|done].
    destruct (Z.ltb_spec (now - cached_at e') (ttl c)) as [Hlt|]; [|done]. injection E as ->.
    destruct (He k e Ek) as (Hle & r & Hr & Hp). exists (cached_at e), r. split_and!; [done|lia|done|done].
  - exists now, (backing c). split_and!; [done|lia|lia|done].
Qed.

(** An invalidated entity type is looked up afresh: right after
    [invalidate], the lookup returns what the registry holds now. *)
Theorem invalidate_then_fresh c now k :
  (policies_for now k (invalidate c k)).2 = registry_policies_for (backing c) k.
Proof.
  unfold policies_for, cache_lookup, cache_policies_for, fresh_entry, invalidate. cbn [cache_entries].
  by rewrite lookup_delete_eq.
Qed.

(** ** Witnesses and a gap *)
Definition rule_v1 : policy_entry := PolicyEntry "r1" "sebi.broking.p1" 1 None None.

Lemma register_witness :
  rule_v1 ∈ registry_policies_for (register ∅ rule_v1 ["Stockbroker"]) "Stockbroker"
  ∧ (∀ e, e ∈ registry_policies_for (register ∅ rule_v1 ["Stockbroker"]) "Stockbroker" →
       pe_rule_id e = pe_rule_id rule_v1 → e = rule_v1)
  ∧ NoDup (pe_rule_id <$> registry_policies_for (register ∅ rule_v1 ["Stockbroker"]) "Stockbroker").
Proof. apply register_then_lookup. left. Defined.

Definition warm_cache : PolicyCache registry := (policies_for 5 "Stockbroker" (Cache ∅ ∅ 30 0 0)).1.

Lemma warm_run :
  cache_run 30 [(20, register ∅ rule_v1 []); (20, ∅); (5, ∅)] 20
    (Cache (register ∅ rule_v1 []) (cache_entries warm_cache) 30 0 1).
Proof.
  apply (run_update 30 [(20, ∅); (5, ∅)] 20 warm_cache (register ∅ rule_v1 [])).
  apply (run_tick 30 [(5, ∅)] 5 warm_cache 20); [|lia]. apply run_lookup, run_start.
Qed.

Lemma cache_staleness_witness :
  ∃ t r, (t, r) ∈ [(20, register ∅ rule_v1 []); (20, ∅); (5, ∅)] ∧ 20 - 30 < t ∧ t <= 20
       ∧ (policies_for 20 "Stockbroker"
            (Cache (register ∅ rule_v1 []) (cache_entries warm_cache) 30 0 1)).2
         = registry_policies_for r "Stockbroker".
Proof. apply (cache_staleness_bound 30); [lia|apply warm_run]. Defined.

(** A process that looked up policies for stockbrokers before any existed. *)
Definition warm_process : process := Process ∅ warm_cache.
Definition approved_rule : published_rule :=
  PublishedRule 1 "r1" 1 (Some "sebi.broking.p1") (Some "package p").

(** Invalidation misses wildcard policies: when a rule is approved without
    entity types it is registered and invalidated under the key [*], but the
    cached entries are keyed by the entity types of transactions.  A process
    that has cached the policies of stockbrokers keeps answering without the
    approved rule, although the registry returns it. *)
Theorem wildcard_approval_not_seen :
  match publish_approved warm_process approved_rule "officer" [] true with
  | Ok (p, _) =>
      (policies_for 6 "Stockbroker" (l1 p)).2 = []
      ∧ pe_rule_id <$> registry_policies_for (registry_of p) "Stockbroker" = ["r1"]
  | Raise _ => False
  end.
Proof. vm_compute. done. Qed.

(** Boot reconciliation widens a scoped policy: a rule registered for
    stockbrokers only is afterwards also returned for every other entity
    type. *)
Theorem reconcile_widens_scope :
  let p := Process ∅ (Cache (register ∅ rule_v1 ["Stockbroker"]) ∅ 30 0 0) in
  registry_policies_for (registry_of p) "MutualFund" = []
  ∧ pe_rule_id <$> registry_policies_for
      (registry_of (_reconcile_active_policies p [approved_rule] (λ _, true))) "MutualFund" = ["r1"].
Proof. vm_compute. done. Qed.
