(* ===== verification/Governance.v ===== *)
(** * The governance kill switch

    [src/app/governance/kill_switch.py], [drills.py] and [middleware.py]: the
    live flags in Redis, the durable event log in Postgres, the drill that
    exercises them and the HTTP gate. *)
From S2P Require Import Prelude PyStr Datetime.

Open Scope string_scope.
Open Scope Z_scope.

Inductive KillSwitchScope := GLOBAL | TENANT.

#[export] Instance KillSwitchScope_eq_dec : EqDecision KillSwitchScope.
Proof. solve_decision. Defined.

Definition scope_value (s : KillSwitchScope) : string :=
  match s with GLOBAL => "global" | TENANT => "tenant" end.

Record KillSwitchRedisState := KSState
  { ks_reason : string; activated_by : string; activated_at : datetime }.

(** The keys [{prefix}:global], [{prefix}:tenant:*] and
    [{prefix}:active_tenants]. *)
Record KillSwitchStore := KSStore
  { ks_global : option KillSwitchRedisState
  ; ks_tenants : gmap string KillSwitchRedisState
  ; active_tenants : gset string }.

Definition is_global_active (s : KillSwitchStore) : bool :=
  match ks_global s with Some _ => true | None => false end.
Definition is_tenant_active (s : KillSwitchStore) (tenant_id : string) : bool :=
  match ks_tenants s !! tenant_id with Some _ => true | None => false end.

Definition is_active_for (s : KillSwitchStore) (tenant_id : option string) : bool :=
  if is_global_active s then true
  else match tenant_id with Some t => is_tenant_active s t | None => false end.

Definition activate_global (s : KillSwitchStore) (reason actor : string) (now : datetime)
  : KillSwitchStore := KSStore (Some (KSState reason actor now)) (ks_tenants s) (active_tenants s).
Definition deactivate_global (s : KillSwitchStore) : KillSwitchStore :=
  KSStore None (ks_tenants s) (active_tenants s).
Definition activate_tenant (s : KillSwitchStore) (tenant_id reason actor : string) (now : datetime)
  : KillSwitchStore :=
  KSStore (ks_global s) (<[tenant_id := KSState reason actor now]> (ks_tenants s))
    ({[tenant_id]} ∪ active_tenants s).
Definition deactivate_tenant (s : KillSwitchStore) (tenant_id : string) : KillSwitchStore :=
  KSStore (ks_global s) (delete tenant_id (ks_tenants s)) (active_tenants s ∖ {[tenant_id]}).

Record KillSwitchStatusEntry := KSStatusEntry
  { se_scope : KillSwitchScope; se_tenant_id : option string; se_active : bool;
    se_state : option KillSwitchRedisState }.

(** [get_status]: the global entry and one entry per indexed tenant whose key
    is present. *)
Definition get_status (s : KillSwitchStore) : KillSwitchStatusEntry * list KillSwitchStatusEntry :=
  (KSStatusEntry GLOBAL None (is_global_active s) (ks_global s),
   omap (λ t, (λ st, KSStatusEntry TENANT (Some t) true (Some st)) <$> ks_tenants s !! t)
     (elements (active_tenants s))).

(** A row of [kill_switch_events]. *)
Record KillSwitchEvent := KSEvent
  { kse_event_id : string; kse_scope : KillSwitchScope; kse_tenant_id : option string;
    kse_action : string; kse_reason : string; kse_actor : string; kse_is_drill : bool;
    kse_details : option (bool * string) }.

Record governance := Governance { store : KillSwitchStore; events : list KillSwitchEvent }.

Inductive ks_error :=
| TenantIdRequired     (* "tenant_id is required when scope='tenant'." *)
| TenantIdForbidden    (* "tenant_id must not be set when scope='global'." *)
| DatabaseError        (* db.commit() failed *).

(** [db_ok] says whether the commit succeeds: the flag is flipped before it. *)
Definition kill_switch (g : governance) (scope : KillSwitchScope) (activate : bool)
    (reason actor : string) (tenant_id : option string) (is_drill : bool)
    (event_id : string) (now : datetime) (db_ok : bool)
  : governance * res ks_error KillSwitchEvent :=
  if bool_decide (scope = TENANT) && negb (truthy tenant_id) then (g, Raise TenantIdRequired)
  else if bool_decide (scope = GLOBAL) && truthy tenant_id then (g, Raise TenantIdForbidden)
  else
    let t := str_or tenant_id "" in
    let st :=
      match scope, activate with
      | GLOBAL, true => activate_global (store g) reason actor now
      | GLOBAL, false => deactivate_global (store g)
      | TENANT, true => activate_tenant (store g) t reason actor now
      | TENANT, false => deactivate_tenant (store g) t
      end in
    let event :=
      KSEvent event_id scope tenant_id (if activate then "activated" else "deactivated")
        reason actor is_drill None in
    if db_ok then (Governance st (events g ++ [event])%list, Ok event)
    else (Governance st (events g), Raise DatabaseError).

(** ** Drills *)
Definition _is_scope_active (s : KillSwitchStore) (scope : KillSwitchScope)
    (tenant_id : option string) : bool :=
  match scope with
  | GLOBAL => is_global_active s
  | TENANT => is_tenant_active s (str_or tenant_id "")
  end.

Definition _annotate_event (g : governance) (event_id : string) (passed : bool) (detail : string)
  : governance :=
  Governance (store g)
    (map (λ e, if String.eqb (kse_event_id e) event_id
               then KSEvent (kse_event_id e) (kse_scope e) (kse_tenant_id e) (kse_action e)
                      (kse_reason e) (kse_actor e) (kse_is_drill e) (Some (passed, detail))
               else e) (events g)).

Definition py_bool_str (b : bool) : string := if b then "True" else "False".

Definition run_kill_switch_drill (g : governance) (scope : KillSwitchScope) (actor : string)
    (tenant_id : option string) (id1 id2 : string) (now : datetime)
  : governance * res ks_error bool :=
  let reason :=
    "Scheduled kill-switch drill test (" +:+ scope_value scope
    +:+ (if truthy tenant_id then ":" +:+ str_or tenant_id "" else "") +:+ ")." in
  match kill_switch g scope true reason actor tenant_id true id1 now true with
  | (g1, Raise e) => (g1, Raise e)
  | (g1, Ok activation) =>
      let activation_verified := _is_scope_active (store g1) scope tenant_id in
      match kill_switch g1 scope false reason actor tenant_id true id2 now true with
      | (g2, Raise e) => (g2, Raise e)
      | (g2, Ok deactivation) =>
          let deactivation_verified := negb (_is_scope_active (store g2) scope tenant_id) in
          let passed := activation_verified && deactivation_verified in
          let detail :=
            "activation_took_effect=" +:+ py_bool_str activation_verified
            +:+ ", deactivation_took_effect=" +:+ py_bool_str deactivation_verified in
          (_annotate_event (_annotate_event g2 (kse_event_id activation) passed detail)
             (kse_event_id deactivation) passed detail, Ok passed)
      end
  end.

(** ** The HTTP gate *)
Definition _ALWAYS_EXEMPT_PREFIXES : list string := ["/v1/governance/kill-switch"].

(** [dispatch]: [true] when the request is passed on, [false] for the 503. *)
Definition dispatch (s : KillSwitchStore) (rate_limit_exempt_paths : list string)
    (path : string) (tenant_id : option string) : bool :=
  if existsb (String.eqb path) rate_limit_exempt_paths
     || existsb (λ p, startswith p path) _ALWAYS_EXEMPT_PREFIXES
  then true else negb (is_active_for s tenant_id).

(** ** Properties *)
Definition ks_inv (s : KillSwitchStore) : Prop := active_tenants s = dom (ks_tenants s).

Lemma kill_switch_keeps_index g scope activate reason actor tenant_id is_drill event_id now db_ok :
  ks_inv (store g) →
  ks_inv (store (kill_switch g scope activate reason actor tenant_id is_drill event_id now db_ok).1).
Proof.
  unfold ks_inv, kill_switch. intros H. repeat case_match; simplify_eq/=; try done; cbn; rewrite H;
    first [by rewrite dom_insert_L|by rewrite dom_delete_L].
Qed.

(** The kill switch does what was asked and only that: after a successful
    activation (deactivation) of a scope that scope is active (inactive), no
    other tenant's switch changes, the tenant index lists exactly the active
    tenants, and exactly one durable event records the action. *)
Theorem kill_switch_correct g scope activate reason actor tenant_id is_drill event_id now g' e :
  ks_inv (store g) →
  kill_switch g scope activate reason actor tenant_id is_drill event_id now true = (g', Ok e) →
  _is_scope_active (store g') scope tenant_id = activate
  ∧ (∀ t, (scope = GLOBAL ∨ Some t ≠ tenant_id) → is_tenant_active (store g') t = is_tenant_active (store g) t)
  ∧ (scope = TENANT → is_global_active (store g') = is_global_active (store g))
  ∧ ks_inv (store g')
  ∧ events g' = (events g ++ [e])%list ∧ kse_action e = (if activate then "activated" else "deactivated").
Proof.
  intros Hinv H.
  pose proof (kill_switch_keeps_index g scope activate reason actor tenant_id is_drill event_id now true Hinv) as Hi.
  rewrite H in Hi. cbn [fst] in Hi.
  unfold kill_switch in H. destruct (bool_decide (scope = TENANT) && negb (truthy tenant_id)) eqn:E1; [done|].
  destruct (bool_decide (scope = GLOBAL) && truthy tenant_id) eqn:E2; [done|].
  injection H as <- <-. cbn [store events kse_action] in *.
  destruct scope.
  - split_and!; try done; destruct activate; done.
  - destruct tenant_id as [t|]; [|by destruct activate].
    assert (str_or (Some t) "" = t) as Et by (cbn in E1 |- *; by destruct (String.eqb t "")).
    rewrite Et in Hi |- *. cbn [_is_scope_active]. rewrite Et.
    split_and!; try done.
    + destruct activate; unfold is_tenant_active; cbn; [by rewrite lookup_insert_eq|by rewrite lookup_delete_eq].
    + intros t' [?|Hne]; [done|]. assert (t ≠ t') by congruence.
      destruct activate; unfold is_tenant_active; cbn; [by rewrite lookup_insert_ne|by rewrite lookup_delete_ne].
    + by destruct activate.
Qed.

Lemma get_status_tenant s e :
  e ∈ (get_status s).2 ↔
  ∃ t st, t ∈ active_tenants s ∧ ks_tenants s !! t = Some st
        ∧ e = KSStatusEntry TENANT (Some t) true (Some st).
Proof.
  unfold get_status. cbn [snd]. rewrite list_elem_of_omap. setoid_rewrite elem_of_elements.
  setoid_rewrite fmap_Some. naive_solver.
Qed.

(** The status report is complete and exact: it lists a tenant as active
    exactly when requests of that tenant are being held by its own switch. *)
Theorem get_status_exact s t :
  ks_inv s →
  is_tenant_active s t = true ↔ ∃ e, e ∈ (get_status s).2 ∧ se_tenant_id e = Some t ∧ se_active e = true.
Proof.
  unfold ks_inv, is_tenant_active. intros Hi. setoid_rewrite get_status_tenant. split.
  - destruct (ks_tenants s !! t) as [st|] eqn:E; [|done]. intros _.
    eexists. split; [exists t, st; split_and!; try done|done]. rewrite Hi. by eapply elem_of_dom_2.
  - intros (e & (t' & st & _ & Ht & ->) & [= ->] & _). by rewrite Ht.
Qed.

(** While a switch holds a tenant, every request of that tenant is refused
    except the exempt paths, and the control routes that can lift the switch
    always get through. *)
Theorem dispatch_gate s exempt path tenant_id :
  (startswith "/v1/governance/kill-switch" path = true → dispatch s exempt path tenant_id = true)
  ∧ (is_active_for s tenant_id = true → path ∉ exempt →
     startswith "/v1/governance/kill-switch" path = false → dispatch s exempt path tenant_id = false)
  ∧ (is_active_for s tenant_id = false → dispatch s exempt path tenant_id = true).
Proof.
  unfold dispatch. cbn [existsb _ALWAYS_EXEMPT_PREFIXES]. rewrite orb_false_r. split_and!.
  - intros ->. by rewrite orb_true_r.
  - intros -> Hp ->. rewrite orb_false_r. destruct (existsb _ exempt) eqn:E; [|done].
    apply existsb_true_elem in E as (x & Hx & ->%String.eqb_eq). done.
  - intros ->. by case_match.
Qed.

(** A drill ends with the switch off whatever it was before: a drill run
    while the real global kill switch is active reports success and lifts it. *)
Theorem drill_clears_live_switch g actor id1 id2 now :
  let '(g', r) := run_kill_switch_drill g GLOBAL actor None id1 id2 now in
  r = Ok true ∧ is_global_active (store g') = false.
Proof. done. Qed.

(** The flag is flipped before the event is recorded: when the database
    commit fails, the kill switch is active although no event says so. *)
Theorem flag_without_record g reason actor event_id now :
  let '(g', r) := kill_switch g GLOBAL true reason actor None false event_id now false in
  r = Raise DatabaseError ∧ is_global_active (store g') = true ∧ events g' = events g.
Proof. done. Qed.

Definition noon_utc : datetime := Datetime 63000000000000000 (Some 0).
Definition calm : governance := Governance (KSStore None ∅ ∅) [].
Definition alarmed : governance := (kill_switch calm TENANT true "halt" "ops" (Some "BRK-1") false "e1" noon_utc true).1.

Lemma kill_switch_witness :
  _is_scope_active (store alarmed) TENANT (Some "BRK-1") = true
  ∧ (∀ t, (TENANT = GLOBAL ∨ Some t ≠ Some "BRK-1") → is_tenant_active (store alarmed) t = is_tenant_active (store calm) t)
  ∧ (TENANT = TENANT → is_global_active (store alarmed) = is_global_active (store calm))
  ∧ ks_inv (store alarmed)
  ∧ events alarmed = (events calm ++ [KSEvent "e1" TENANT (Some "BRK-1") "activated" "halt" "ops" false None])%list
  ∧ kse_action (KSEvent "e1" TENANT (Some "BRK-1") "activated" "halt" "ops" false None) = "activated".
Proof. by apply (kill_switch_correct calm TENANT true "halt" "ops" (Some "BRK-1") false "e1" noon_utc). Defined.

Lemma get_status_witness :
  is_tenant_active (store alarmed) "BRK-1" = true ↔
  ∃ e, e ∈ (get_status (store alarmed)).2 ∧ se_tenant_id e = Some "BRK-1" ∧ se_active e = true.
Proof. apply get_status_exact. vm_compute. reflexivity. Defined.
