(* ===== verification/Ledger.v ===== *)
(** * The append-only audit ledger

    [src/app/ledger/hash_chain.py], [models.py], [service.py] and
    [verifier.py]: the digests, the table, the append inside one transaction,
    and the verification of the hash chain over a time range. *)
From S2P Require Import Prelude PyStr PyFloat Sha256 Json JsonFacts Datetime.

(** ** [hash_chain.py]

    The canonical payload of a compliance
    evaluation, its digest and the block hash that binds it to its position. *)

Open Scope string_scope.
Open Scope Z_scope.

(** The ten business fields of an event dict or of a ledger row. *)
Record event_fields := EventFields
  { broker_id : string
  ; transaction_id : string
  ; evaluated_at : datetime
  ; circular_id : string
  ; clause_hash : string
  ; section_reference : string
  ; rule_id : string
  ; evaluation_result : string
  ; hitl_review_id : option string
  ; details : json }.

Definition GENESIS_HASH : string := zeros 64.

(** [_iso] on a datetime: naive values are taken as UTC. *)
Definition _iso (value : datetime) : string :=
  let aware := match dt_offset value with Some _ => value | None => replace_utc value end in
  iso_utc (dt_wall (astimezone_utc aware)).

(** [{field: _iso(event[field]) for field in _PAYLOAD_FIELDS}] *)
Definition payload_items (event : event_fields) : list (string * json) :=
  [ ("broker_id", JStr (broker_id event));
    ("transaction_id", JStr (transaction_id event));
    ("evaluated_at", JStr (_iso (evaluated_at event)));
    ("circular_id", JStr (circular_id event));
    ("clause_hash", JStr (clause_hash event));
    ("section_reference", JStr (section_reference event));
    ("rule_id", JStr (rule_id event));
    ("evaluation_result", JStr (evaluation_result event));
    ("hitl_review_id", opt_str (hitl_review_id event));
    ("details", details event) ].

Definition canonical_payload (event : event_fields) : string :=
  dumps (JObj (payload_items event)).

Definition compute_payload_digest (event : event_fields) : string :=
  sha256_hex (canonical_payload event).

(** The f-string that [compute_block_hash] hashes. *)
Definition block_material (previous_hash payload_digest : string) (sequence_num : Z)
    (evaluated_at : datetime) : string :=
  previous_hash +:+ "|" +:+ payload_digest +:+ "|" +:+ str_of_Z sequence_num +:+ "|" +:+
  _iso evaluated_at.

Definition compute_block_hash (previous_hash payload_digest : string) (sequence_num : Z)
    (evaluated_at : datetime) : string :=
  sha256_hex (block_material previous_hash payload_digest sequence_num evaluated_at).

(** Two records say the same thing: equal texts, the same instant, the same
    JSON document up to the order of keys. *)
Definition same_event (e e' : event_fields) : Prop :=
  broker_id e = broker_id e' ∧ transaction_id e = transaction_id e'
  ∧ utc_us (evaluated_at e) = utc_us (evaluated_at e')
  ∧ circular_id e = circular_id e' ∧ clause_hash e = clause_hash e'
  ∧ section_reference e = section_reference e' ∧ rule_id e = rule_id e'
  ∧ evaluation_result e = evaluation_result e' ∧ hitl_review_id e = hitl_review_id e'
  ∧ jeq (details e) (details e').

Definition event_in_calendar (e : event_fields) : Prop := in_calendar (utc_us (evaluated_at e)).

(** ** Lemmas *)
Lemma iso_utc_of d : _iso d = iso_utc (utc_us d).
Proof.
  unfold _iso, astimezone_utc, utc_us, replace_utc. destruct d as [w [o|]]; cbn; [done|].
  by rewrite Z.sub_0_r.
Qed.

Lemma opt_str_inj o o' : canon (opt_str o) = canon (opt_str o') → o = o'.
Proof. destruct o, o'; cbn; congruence. Qed.

Lemma some_cstr_inj s s' : Some (CStr s) = Some (CStr s') → s = s'.
Proof. congruence. Qed.

#[export] Instance same_event_equivalence : Equivalence same_event.
Proof.
  split; unfold same_event.
  - done.
  - intros e e' H. destruct_and!. split_and!; by symmetry.
  - intros e e' e'' H H'. destruct_and!. split_and!; by etrans.
Qed.

(** A driver that drops the time zone or reorders JSON keys does not change
    what is hashed. *)
Lemma same_event_payload e e' : same_event e e' → canonical_payload e = canonical_payload e'.
Proof.
  intros H. unfold same_event, jeq in H. destruct e, e'. cbn [broker_id transaction_id evaluated_at
    circular_id clause_hash section_reference rule_id evaluation_result hitl_review_id details] in H.
  destruct_and!. subst.
  unfold canonical_payload, dumps, payload_items. cbn [broker_id transaction_id evaluated_at
    circular_id clause_hash section_reference rule_id evaluation_result hitl_review_id details].
  rewrite !iso_utc_of. cbn [canon map fst snd]. congruence.
Qed.

#[export] Instance compute_payload_digest_proper :
  Proper (same_event ==> (=)) compute_payload_digest.
Proof. intros e e' H. unfold compute_payload_digest. by rewrite (same_event_payload e e'). Qed.

Lemma payload_items_nodup e : NoDup ((payload_items e).*1).
Proof. cbn. by apply (bool_decide_unpack _). Qed.

Lemma canonical_payload_same e e' :
  event_in_calendar e → event_in_calendar e' →
  canonical_payload e = canonical_payload e' → same_event e e'.
Proof.
  intros Hc Hc' H%dumps_inj.
  assert (∀ k, canon <$> obj_get k (payload_items e) = canon <$> obj_get k (payload_items e')) as Hk.
  { intros k. apply jeq_obj_get; [apply payload_items_nodup..|done]. }
  pose proof (Hk "broker_id") as H1. pose proof (Hk "transaction_id") as H2.
  pose proof (Hk "evaluated_at") as H3. pose proof (Hk "circular_id") as H4.
  pose proof (Hk "clause_hash") as H5. pose proof (Hk "section_reference") as H6.
  pose proof (Hk "rule_id") as H7. pose proof (Hk "evaluation_result") as H8.
  pose proof (Hk "hitl_review_id") as H9. pose proof (Hk "details") as H10.
  cbn -[_iso canon] in H1, H2, H3, H4, H5, H6, H7, H8, H9, H10.
  injection H9 as H9%opt_str_inj. injection H10 as H10.
  cbn [canon] in *. rewrite !iso_utc_of in H3. apply some_cstr_inj, iso_utc_inj in H3; [|done..].
  unfold same_event, jeq. split_and!; congruence.
Qed.

(** The block material is read back field by field once the two hashes have
    the length of a digest. *)
Lemma block_material_fields p p' d d' n n' t t' :
  String.length p = 64%nat → String.length p' = 64%nat →
  String.length d = 64%nat → String.length d' = 64%nat →
  block_material p d n t = block_material p' d' n' t' →
  p = p' ∧ d = d' ∧ n = n' ∧ _iso t = _iso t'.
Proof.
  intros Hp Hp' Hd Hd'. unfold block_material.
  intros [-> H]%sapp_inj_len; [|congruence]. cbn [String.append] in H. apply scons_inj in H.
  apply sapp_inj_len in H as [-> H]; [|congruence]. cbn [String.append] in H. apply scons_inj in H.
  assert (Hz : ∀ z, all_chars num_char (str_of_Z z) = true)
    by (intros z; pose proof (str_of_Z_lex z) as Hl; unfold lex_ok in Hl; by breflect).
  apply (sapp_inj_sep num_char) in H as [Hn Ht]; [|apply Hz|apply Hz|done|done].
  apply scons_inj in Ht. split_and!; try done. by apply (inj pretty) in Hn.
Qed.

Lemma GENESIS_HASH_length : String.length GENESIS_HASH = 64%nat.
Proof. done. Qed.

Open Scope string_scope.
Open Scope Z_scope.

(** ** Data *)
Inductive EvaluationOutcome := PASS | FAIL | HITL_REVIEW.

#[export] Instance EvaluationOutcome_eq_dec : EqDecision EvaluationOutcome.
Proof. solve_decision. Defined.

Definition outcome_value (o : EvaluationOutcome) : string :=
  match o with PASS => "PASS" | FAIL => "FAIL" | HITL_REVIEW => "HITL_REVIEW" end.

Record ComplianceEvaluationEvent := Event
  { ev_broker_id : string
  ; ev_transaction_id : string
  ; ev_evaluated_at : datetime
  ; ev_circular_id : string
  ; ev_clause_hash : string
  ; ev_section_reference : string
  ; ev_rule_id : string
  ; ev_evaluation_result : EvaluationOutcome
  ; ev_hitl_review_id : option string
  ; ev_details : json }.

Inductive event_error :=
| HitlReviewIdRequired      (* "hitl_review_id is required when evaluation_result is HITL_REVIEW." *)
| HitlReviewIdMustBeOmitted (* "hitl_review_id must be omitted unless ..." *).

(** The model validator that pydantic runs on construction. *)
Definition _hitl_review_id_consistency (e : ComplianceEvaluationEvent)
  : res event_error ComplianceEvaluationEvent :=
  if bool_decide (ev_evaluation_result e = HITL_REVIEW) && negb (truthy (ev_hitl_review_id e))
  then Raise HitlReviewIdRequired
  else if negb (bool_decide (ev_evaluation_result e = HITL_REVIEW)) && truthy (ev_hitl_review_id e)
  then Raise HitlReviewIdMustBeOmitted
  else Ok e.

(** [event.model_dump(mode="json")] with the real datetime put back. *)
Definition model_dump (e : ComplianceEvaluationEvent) : event_fields :=
  {| broker_id := ev_broker_id e; transaction_id := ev_transaction_id e;
     evaluated_at := ev_evaluated_at e; circular_id := ev_circular_id e;
     clause_hash := ev_clause_hash e; section_reference := ev_section_reference e;
     rule_id := ev_rule_id e; evaluation_result := outcome_value (ev_evaluation_result e);
     hitl_review_id := ev_hitl_review_id e; details := ev_details e |}.

Record LedgerEntry := Entry
  { id : Z
  ; sequence_num : Z
  ; fields : event_fields
  ; payload_digest : string
  ; previous_hash : string
  ; current_hash : string
  ; created_at : datetime }.

(** The table [compliance_audit_ledger]: its rows in insertion order and the
    next value of the identity column. *)
Record ledger_table := Table { rows : list LedgerEntry; next_id : Z }.

Inductive ledger_error := UniqueViolation (* uq_ledger_sequence *).

(** ** [SELECT ... ORDER BY sequence_num] *)
Definition order_by_seq (l : list LedgerEntry) : list LedgerEntry := merge_sort (key_le sequence_num) l.

(** [... .order_by(sequence_num.desc()).limit(1)).first()] *)
Definition _last_entry (t : ledger_table) : option (Z * string) :=
  (λ r, (sequence_num r, current_hash r)) <$> last (order_by_seq (rows t)).

(** ** Append *)

(** The row computed from the last entry read and the event. *)
Definition build_row (last : option (Z * string)) (event : event_fields)
    (row_id : Z) (now : datetime) : LedgerEntry :=
  let sequence_num := match last with Some l => l.1 + 1 | None => 0 end in
  let previous_hash := match last with Some l => l.2 | None => GENESIS_HASH end in
  let payload_digest := compute_payload_digest event in
  let current_hash :=
    compute_block_hash previous_hash payload_digest sequence_num (evaluated_at event) in
  {| id := row_id; sequence_num := sequence_num; fields := event;
     payload_digest := payload_digest; previous_hash := previous_hash;
     current_hash := current_hash; created_at := now |}.

(** [INSERT], subject to the unique constraint on [sequence_num]. *)
Definition insert_row (t : ledger_table) (r : LedgerEntry) : res ledger_error ledger_table :=
  if existsb (λ r', sequence_num r' =? sequence_num r) (rows t)
  then Raise UniqueViolation
  else Ok (Table (rows t ++ [r]) (next_id t + 1)).

Definition append_entry (t : ledger_table) (event : ComplianceEvaluationEvent) (now : datetime)
  : res ledger_error (ledger_table * LedgerEntry) :=
  let event_dict := model_dump event in
  let r := build_row (_last_entry t) event_dict (next_id t) now in
  res_bind (insert_row t r) (λ t', Ok (t', r)).

(** ** Verification *)
Record ChainBreak := Break
  { cb_sequence_num : Z; cb_reason : string; cb_expected : string; cb_actual : string }.

Record ChainVerificationResult := VResult
  { valid : bool; entries_checked : Z; range_start_sequence : option Z;
    range_end_sequence : option Z; breaks : list ChainBreak }.

Definition break_if (b : bool) (x : ChainBreak) : list ChainBreak := if b then [x] else [].

(** The body of the loop over the selected rows. *)
Definition row_breaks (previous : string) (previous_sequence : Z) (row : LedgerEntry)
  : list ChainBreak :=
  let seq := sequence_num row in
  let recomputed_digest := compute_payload_digest (fields row) in
  let recomputed_block_hash :=
    compute_block_hash (previous_hash row) (payload_digest row) seq (evaluated_at (fields row)) in
  (break_if (negb (seq =? previous_sequence + 1))
     (Break seq "gap in sequence_num — a row is missing between this and the prior one"
        (str_of_Z (previous_sequence + 1)) (str_of_Z seq))
   ++ break_if (negb (String.eqb (previous_hash row) previous))
     (Break seq "previous_hash does not match the prior row's current_hash"
        previous (previous_hash row))
   ++ break_if (negb (String.eqb recomputed_digest (payload_digest row)))
     (Break seq "payload_digest does not match recomputed hash of stored business fields — row content was altered"
        recomputed_digest (payload_digest row))
   ++ break_if (negb (String.eqb recomputed_block_hash (current_hash row)))
     (Break seq "current_hash does not match recomputed block hash"
        recomputed_block_hash (current_hash row)))%list.

Fixpoint check_rows (previous : string) (previous_sequence : Z) (l : list LedgerEntry)
  : list ChainBreak :=
  match l with
  | [] => []
  | row :: l' =>
      (row_breaks previous previous_sequence row
       ++ check_rows (current_hash row) (sequence_num row) l')%list
  end.

(** [evaluated_at >= start_time] and [evaluated_at <= end_time], on instants. *)
Definition in_range (start_time end_time : option datetime) (r : LedgerEntry) : bool :=
  match start_time with
  | Some s => utc_us s <=? utc_us (evaluated_at (fields r)) | None => true end
  && match end_time with
     | Some e => utc_us (evaluated_at (fields r)) <=? utc_us e | None => true end.

Definition select_range (t : ledger_table) (start_time end_time : option datetime)
  : list LedgerEntry :=
  order_by_seq (List.filter (in_range start_time end_time) (rows t)).

Definition row_at (t : ledger_table) (n : Z) : option LedgerEntry :=
  find (λ r, sequence_num r =? n) (rows t).

Definition verify_chain (t : ledger_table) (start_time end_time : option datetime)
  : ChainVerificationResult :=
  match select_range t start_time end_time with
  | [] => VResult true 0 None None []
  | first :: l =>
      let sel := first :: l in
      let first_sequence := sequence_num first in
      let last_sequence := sequence_num (List.last sel first) in
      let finish anchor_hash :=
        let bs := check_rows anchor_hash (first_sequence - 1) sel in
        VResult (match bs with [] => true | _ => false end) (Z.of_nat (length sel))
          (Some first_sequence) (Some last_sequence) bs in
      if 0 <? first_sequence then
        match row_at t (first_sequence - 1) with
        | None =>
            VResult false (Z.of_nat (length sel)) (Some first_sequence) (Some last_sequence)
              [Break first_sequence
                 "predecessor row (sequence_num - 1) is missing; chain cannot be anchored into history"
                 "a row with the previous sequence_num" "no row found"]
        | Some anchor => finish (current_hash anchor)
        end
      else finish GENESIS_HASH
  end.

(** ** The chain invariant *)

(** [l] continues a chain whose last block has hash [h] and number [n]. *)
Fixpoint chain_from (h : string) (n : Z) (l : list LedgerEntry) : Prop :=
  match l with
  | [] => True
  | r :: l' =>
      sequence_num r = n + 1 ∧ previous_hash r = h
      ∧ payload_digest r = compute_payload_digest (fields r)
      ∧ current_hash r = compute_block_hash h (payload_digest r) (n + 1) (evaluated_at (fields r))
      ∧ chain_from (current_hash r) (n + 1) l'
  end.

Definition chain_ok (t : ledger_table) : Prop := chain_from GENESIS_HASH (-1) (rows t).

(** The hash and the number of the last block. *)
Definition tip (h : string) (n : Z) (l : list LedgerEntry) : string * Z :=
  match last l with Some r => (current_hash r, sequence_num r) | None => (h, n) end.
