(* ===== verification/LedgerFacts.v ===== *)
(** * The ledger keeps one linear, tamper-evident history

    Append preserves the chain invariant and never fails on a well-formed
    ledger; verification accepts exactly the chains; a verified ledger is
    determined by the hash of its last block, up to SHA-256 collisions among
    the messages the two ledgers hash. *)
From S2P Require Import Prelude PyStr PyFloat Sha256 Json JsonFacts Datetime Ledger.

Open Scope string_scope.
Open Scope Z_scope.

(** ** Structure of chains *)
Lemma tip_nil h n : tip h n [] = (h, n).
Proof. done. Qed.
Lemma tip_snoc h n l r : tip h n (l ++ [r]) = (current_hash r, sequence_num r).
Proof. unfold tip. by rewrite last_snoc. Qed.
Lemma tip_cons h n r l : tip h n (r :: l) = tip (current_hash r) (sequence_num r) l.
Proof.
  unfold tip. destruct l as [|x l]; [done|]. rewrite last_cons_cons.
  destruct (last (x :: l)) eqn:E; [done|by apply last_None in E].
Qed.

Lemma chain_from_app h n l l' :
  chain_from h n (l ++ l') ↔
  chain_from h n l ∧ chain_from (tip h n l).1 (tip h n l).2 l'.
Proof.
  revert h n. induction l as [|r l IH]; intros h n; cbn [app chain_from]; [by rewrite tip_nil; split; [|intros [_ ?]]|].
  rewrite IH tip_cons. split.
  - intros (Hs & ? & ? & ? & ? & ?). rewrite Hs. tauto.
  - intros ((Hs & ? & ? & ? & ?) & Ht). rewrite Hs in Ht. tauto.
Qed.

Lemma chain_from_seq h n l r :
  chain_from h n l → r ∈ l → n < sequence_num r <= n + Z.of_nat (length l).
Proof.
  revert h n. induction l as [|r' l IH]; intros h n; [by intros _ ?%not_elem_of_nil|].
  intros (Hs & _ & _ & _ & Hl) [->|Hin]%elem_of_cons; cbn [length]; [lia|].
  apply (IH _ _ Hl) in Hin. lia.
Qed.

Lemma chain_from_tip_seq h n l : chain_from h n l → (tip h n l).2 = n + Z.of_nat (length l).
Proof.
  revert h n. induction l as [|r l IH]; intros h n; [cbn; lia|].
  intros (Hs & _ & _ & _ & Hl). rewrite tip_cons Hs. rewrite (IH _ _ Hl). cbn [length]. lia.
Qed.

Lemma chain_from_sorted h n l :
  chain_from h n l → StronglySorted (λ r r', sequence_num r < sequence_num r') l.
Proof.
  revert h n. induction l as [|r l IH]; intros h n; [constructor|].
  intros (Hs & _ & _ & _ & Hl). constructor; [by eapply IH|].
  rewrite Forall_forall. intros r' Hr'. apply (chain_from_seq _ _ _ _ Hl) in Hr'. lia.
Qed.

Lemma order_by_seq_chain h n l : chain_from h n l → order_by_seq l = l.
Proof. intros H. by eapply merge_sort_key_id, chain_from_sorted. Qed.

Lemma chain_hash_length h n l :
  String.length h = 64%nat → chain_from h n l → String.length (tip h n l).1 = 64%nat.
Proof.
  revert h n. induction l as [|r l IH]; intros h n Hh; [done|].
  intros (_ & _ & _ & Hc & Hl). rewrite tip_cons. apply (IH _ _) in Hl.
  - unfold tip in *. by destruct (last l).
  - rewrite Hc. apply sha256_hex_length.
Qed.

(** ** Verification accepts exactly the chains *)
Lemma break_if_nil b x : break_if b x = [] ↔ b = false.
Proof. by destruct b. Qed.

Lemma row_breaks_nil h n r :
  row_breaks h n r = [] ↔
  sequence_num r = n + 1 ∧ previous_hash r = h
  ∧ payload_digest r = compute_payload_digest (fields r)
  ∧ current_hash r = compute_block_hash h (payload_digest r) (n + 1) (evaluated_at (fields r)).
Proof.
  unfold row_breaks. cbv zeta. rewrite !app_nil !break_if_nil !negb_false_iff Z.eqb_eq !String.eqb_eq.
  split; [intros (-> & -> & <- & <-); done|intros (-> & -> & -> & ->); done].
Qed.

Lemma check_rows_nil h n l : check_rows h n l = [] ↔ chain_from h n l.
Proof.
  revert h n. induction l as [|r l IH]; intros h n; cbn [check_rows chain_from]; [done|].
  rewrite app_nil row_breaks_nil IH. split.
  - intros ((Hs & ?) & Ht). rewrite Hs in Ht. tauto.
  - intros (Hs & ? & ? & ? & ?). rewrite Hs. tauto.
Qed.

Lemma select_all t : select_range t None None = order_by_seq (rows t).
Proof.
  unfold select_range. f_equal. induction (rows t) as [|r l IH]; cbn; [done|]. by rewrite IH.
Qed.

Lemma VResult_match_valid (bs : list ChainBreak) :
  (match bs with [] => true | _ => false end) = true ↔ bs = [].
Proof. by destruct bs. Qed.

(** A full verification that succeeds has read a chain from genesis. *)
Lemma verify_full_chain t :
  Forall (λ r, 0 <= sequence_num r) (rows t) →
  valid (verify_chain t None None) = true → chain_from GENESIS_HASH (-1) (order_by_seq (rows t)).
Proof.
  intros Hnn. unfold verify_chain. rewrite select_all.
  assert (order_by_seq (rows t) ≡ₚ rows t) as Hp by apply merge_sort_Permutation.
  pose proof (merge_sort_key_sorted sequence_num (rows t)) as Hsort.
  change (merge_sort (key_le sequence_num) (rows t)) with (order_by_seq (rows t)) in Hsort.
  destruct (order_by_seq (rows t)) as [|first l] eqn:E; [done|]. cbv zeta.
  destruct (Z.ltb_spec 0 (sequence_num first)) as [Hpos|Hle].
  - destruct (row_at t (sequence_num first - 1)) as [a|] eqn:Ea; [|done]. exfalso.
    apply find_some in Ea as [Hin Ha]. breflect. apply list_elem_of_In in Hin.
    rewrite -Hp in Hin. apply StronglySorted_cons in Hsort as [Hall _].
    apply elem_of_cons in Hin as [->|Hin]; [lia|].
    rewrite Forall_forall in Hall. apply Hall in Hin. unfold key_le in Hin. lia.
  - cbn [valid]. rewrite VResult_match_valid check_rows_nil.
    assert (0 <= sequence_num first).
    { rewrite Forall_forall in Hnn. apply Hnn. rewrite -Hp. left. }
    by replace (sequence_num first - 1) with (-1) by lia.
Qed.

(** What [_last_entry] returned when the table held the rows [l]. *)
Definition snapshot (l : list LedgerEntry) : option (Z * string) :=
  (λ r, (sequence_num r, current_hash r)) <$> last l.

Lemma last_entry_snapshot t : chain_ok t → _last_entry t = snapshot (rows t).
Proof. intros Hc. unfold _last_entry, snapshot. by rewrite (order_by_seq_chain _ _ _ Hc). Qed.

(** A row computed from a fresh read extends the chain. *)
Lemma fresh_insert t e next now :
  chain_ok t →
  ∃ r, r = build_row (snapshot (rows t)) e next now
     ∧ insert_row t r = Ok (Table (rows t ++ [r]) (next_id t + 1))
     ∧ chain_ok (Table (rows t ++ [r]) (next_id t + 1)) ∧ fields r = e.
Proof.
  intros Hc. eexists. split; [reflexivity|]. set (r := build_row _ e next now).
  assert (Hseq : sequence_num r = (tip GENESIS_HASH (-1) (rows t)).2 + 1
               ∧ previous_hash r = (tip GENESIS_HASH (-1) (rows t)).1).
  { subst r. unfold build_row, snapshot, tip. by destruct (last (rows t)). }
  destruct Hseq as [Hs Hp].
  unfold insert_row. replace (existsb _ _) with false.
  - split; [done|]. split; [|done].
    apply chain_from_app. split; [done|]. rewrite -Hp.
    replace (tip GENESIS_HASH (-1) (rows t)).2 with (sequence_num r - 1) by lia.
    cbn [chain_from]. rewrite Z.sub_add. by subst r.
  - symmetry. apply existsb_false_Forall, Forall_forall. intros r' Hin.
    apply (chain_from_seq _ _ _ _ Hc) in Hin. apply Z.eqb_neq.
    rewrite Hs (chain_from_tip_seq _ _ _ Hc). lia.
Qed.

Lemma append_ok t event now :
  chain_ok t →
  ∃ r, append_entry t event now = Ok (Table (rows t ++ [r]) (next_id t + 1), r)
     ∧ chain_ok (Table (rows t ++ [r]) (next_id t + 1))
     ∧ fields r = model_dump event
     ∧ sequence_num r = Z.of_nat (length (rows t)).
Proof.
  intros Hc. unfold append_entry. cbv zeta. rewrite (last_entry_snapshot _ Hc).
  destruct (fresh_insert t (model_dump event) (next_id t) now Hc) as (r & -> & Hi & Hc' & Hf).
  eexists. rewrite Hi. split; [done|]. split; [exact Hc'|]. split; [done|].
  apply chain_from_app in Hc' as [_ (Hs & _)]. rewrite Hs (chain_from_tip_seq _ _ _ Hc). lia.
Qed.


(** C1. On a well-formed ledger [append_entry] always succeeds, appends
    exactly one row carrying the event's business fields with the next
    sequence number, and leaves a well-formed ledger. *)
Theorem append_entry_extends_chain t event now :
  chain_ok t →
  ∃ r, append_entry t event now = Ok (Table (rows t ++ [r]) (next_id t + 1), r)
     ∧ chain_ok (Table (rows t ++ [r]) (next_id t + 1))
     ∧ fields r = model_dump event
     ∧ sequence_num r = Z.of_nat (length (rows t)).
Proof. apply append_ok. Qed.

(** A ledger built by appends passes a full verification: no break is
    reported and every row was checked. *)
Theorem verify_chain_accepts t :
  chain_ok t →
  valid (verify_chain t None None) = true
  ∧ breaks (verify_chain t None None) = []
  ∧ entries_checked (verify_chain t None None) = Z.of_nat (length (rows t)).
Proof.
  intros Hc. unfold verify_chain. rewrite select_all (order_by_seq_chain _ _ _ Hc).
  unfold chain_ok in Hc. destruct (rows t) as [|first l] eqn:E; [done|]. cbv zeta.
  pose proof Hc as Hc'. destruct Hc' as (Hs & _). rewrite Hs.
  change (0 <? -1 + 1) with false. cbv iota. change (-1 + 1 - 1) with (-1).
  by rewrite (proj2 (check_rows_nil _ _ _) Hc).
Qed.

(** ** Time ranges *)
Definition time_ordered (t : ledger_table) : Prop :=
  StronglySorted (λ r r', utc_us (evaluated_at (fields r)) <= utc_us (evaluated_at (fields r'))) (rows t).

(** In a list ordered by [f], an interval of [f] selects a contiguous part. *)
Section intervals.
Context {A : Type} (f : A → Z) (lo hi : A → bool).
Hypothesis lo_up : ∀ x y, f x <= f y → lo x = true → lo y = true.
Hypothesis hi_down : ∀ x y, f x <= f y → hi y = true → hi x = true.

Lemma filter_none (p : A → bool) l : Forall (λ x, p x = false) l → List.filter p l = [].
Proof. induction 1 as [|x l Hx _ IH]; cbn; [done|]. by rewrite Hx. Qed.

Lemma filter_prefix l :
  StronglySorted (λ x y, f x <= f y) l → Forall (λ x, lo x = true) l →
  ∃ l2, l = (List.filter (λ x, lo x && hi x) l ++ l2)%list.
Proof.
  induction 1 as [|x l Hs IH Hx]; intros Hlo; [by exists []|].
  apply Forall_cons in Hlo as [Hlx Hlo]. cbn [List.filter]. rewrite Hlx. cbn [andb].
  destruct (hi x) eqn:Hhx.
  - destruct (IH Hlo) as [l2 E]. exists l2. cbn. by rewrite -E.
  - rewrite filter_none; [by exists (x :: l)|].
    eapply Forall_impl; [exact Hx|]. intros y Hxy. destruct (hi y) eqn:Ehy; [|by rewrite andb_false_r].
    cbn in Hxy. rewrite (hi_down x y) in Hhx; done.
Qed.

Lemma filter_interval l :
  StronglySorted (λ x y, f x <= f y) l →
  ∃ l1 l2, l = (l1 ++ List.filter (λ x, lo x && hi x) l ++ l2)%list.
Proof.
  induction 1 as [|x l Hs (l1 & l2 & IH) Hx]; [by exists [], []|].
  destruct (lo x) eqn:Elo.
  - destruct (filter_prefix (x :: l)) as [l3 E]; [by constructor| |by exists [], l3].
    constructor; [done|]. eapply Forall_impl; [exact Hx|]. intros y Hxy. by apply (lo_up x).
  - cbn [List.filter]. rewrite Elo. cbn [andb]. exists (x :: l1), l2. cbn. by rewrite -IH.
Qed.
End intervals.

Lemma select_interval t s e :
  time_ordered t → ∃ l1 l2, rows t = (l1 ++ List.filter (in_range s e) (rows t) ++ l2)%list.
Proof.
  intros Ht. unfold in_range.
  apply (filter_interval (λ r, utc_us (evaluated_at (fields r)))
    (λ r, match s with Some s => utc_us s <=? utc_us (evaluated_at (fields r)) | None => true end)
    (λ r, match e with Some e => utc_us (evaluated_at (fields r)) <=? utc_us e | None => true end)).
  - intros x y Hxy. destruct s; [|done]. rewrite !Z.leb_le. lia.
  - intros x y Hxy. destruct e; [|done]. rewrite !Z.leb_le. lia.
  - done.
Qed.

Lemma row_at_chain h n l r :
  chain_from h n l → r ∈ l → find (λ r', sequence_num r' =? sequence_num r) l = Some r.
Proof.
  revert h n. induction l as [|r' l IH]; intros h n; [by intros _ ?%not_elem_of_nil|].
  intros (Hs & _ & _ & _ & Hl) [->|Hin]%elem_of_cons; cbn [find]; [by rewrite Z.eqb_refl|].
  pose proof (chain_from_seq _ _ _ _ Hl Hin). case_match; breflect; [lia|]. by eapply IH.
Qed.

(** When rows are appended in the order of their evaluation times, the
    verification of any time range of an intact ledger succeeds: the range is
    anchored to the row before it. *)
Theorem verify_chain_accepts_range t start_time end_time :
  chain_ok t → time_ordered t → valid (verify_chain t start_time end_time) = true.
Proof.
  intros Hc Ht. destruct (select_interval t start_time end_time Ht) as (l1 & l2 & E).
  unfold verify_chain, select_range. unfold chain_ok in Hc. pose proof Hc as Hall.
  rewrite E in Hc. apply chain_from_app in Hc as [Hl1 Hc]. apply chain_from_app in Hc as [Hsel _].
  rewrite (order_by_seq_chain _ _ _ Hsel).
  remember (List.filter (in_range start_time end_time) (rows t)) as sel eqn:Hsl. clear Hsl.
  destruct sel as [|first l]; [done|]. cbv zeta.
  pose proof Hsel as (Hs & _). rewrite Hs Z.add_simpl_r.
  apply check_rows_nil in Hsel.
  destruct (last l1) as [a|] eqn:Ea.
  - assert (tip GENESIS_HASH (-1) l1 = (current_hash a, sequence_num a)) as Htip
      by (unfold tip; by rewrite Ea).
    rewrite Htip in Hsel |- *. cbn [fst snd] in *.
    assert (a ∈ l1) as Hin by (apply last_Some_elem_of in Ea; done).
    pose proof (chain_from_seq _ _ _ _ Hl1 Hin).
    rewrite (proj2 (Z.ltb_lt _ _)); [|lia]. unfold row_at.
    rewrite (row_at_chain _ _ _ a Hall); [|rewrite E; apply elem_of_app; by left]. by rewrite Hsel.
  - apply last_None in Ea as ->. cbn [tip last fst snd] in *. by rewrite Hsel.
Qed.

(** ** Driver round trips *)

(** What a database driver may change when a row is read back: the time zone
    of [evaluated_at] (not its instant) and the key order of [details]. *)
Definition same_row (r r' : LedgerEntry) : Prop :=
  sequence_num r = sequence_num r' ∧ same_event (fields r) (fields r')
  ∧ payload_digest r = payload_digest r' ∧ previous_hash r = previous_hash r'
  ∧ current_hash r = current_hash r'.

Lemma same_event_iso e e' : same_event e e' → _iso (evaluated_at e) = _iso (evaluated_at e').
Proof. unfold same_event. intros. destruct_and!. rewrite !iso_utc_of. congruence. Qed.

Lemma compute_block_hash_iso p d n t t' :
  _iso t = _iso t' → compute_block_hash p d n t = compute_block_hash p d n t'.
Proof. unfold compute_block_hash, block_material. by intros ->. Qed.

Lemma chain_from_same_row h n l l' :
  Forall2 same_row l l' → chain_from h n l → chain_from h n l'.
Proof.
  intros H. revert h n. induction H as [|r r' l l' (Hs & He & Hd & Hp & Hc) _ IH]; intros h n; [done|].
  cbn [chain_from]. intros (Hs' & Hp' & Hd' & Hc' & Hl). split_and!; try congruence.
  - rewrite -Hd Hd'. by apply compute_payload_digest_proper.
  - rewrite -Hc Hc' Hd. apply compute_block_hash_iso. by apply same_event_iso.
  - rewrite -Hc. by apply IH.
Qed.

(** A ledger whose rows come back from a driver with a different (or no)
    time zone on [evaluated_at] and a different key order in [details] still
    verifies: the hashes depend on neither. *)
Theorem verify_chain_driver_roundtrip t t' :
  chain_ok t → Forall2 same_row (rows t) (rows t') →
  valid (verify_chain t' None None) = true.
Proof.
  intros Hc Hs. apply (chain_from_same_row _ _ _ _ Hs) in Hc.
  unfold verify_chain. rewrite select_all (order_by_seq_chain _ _ _ Hc).
  destruct (rows t') as [|first l]; [done|]. cbv zeta.
  pose proof Hc as (Hq & _). rewrite Hq. change (0 <? -1 + 1) with false. cbv iota.
  change (-1 + 1 - 1) with (-1). by rewrite (proj2 (check_rows_nil _ _ _) Hc).
Qed.

(** ** Tamper evidence *)

(** The messages hashed for the rows of a ledger. *)
Definition row_messages (r : LedgerEntry) : list string :=
  [canonical_payload (fields r);
   block_material (previous_hash r) (payload_digest r) (sequence_num r) (evaluated_at (fields r))].
Definition messages (t : ledger_table) : list string := rows t ≫= row_messages.

Lemma messages_elem t r m : r ∈ rows t → m ∈ row_messages r → m ∈ messages t.
Proof. intros Hr Hm. apply list_elem_of_bind. eauto. Qed.

(** Two rows that follow blocks of the same hash length and have the same
    current hash are the same row. *)
Lemma chain_step_inj msgs h n h' n' r r' :
  NoCollision msgs → row_messages r ⊆ msgs → row_messages r' ⊆ msgs →
  event_in_calendar (fields r) → event_in_calendar (fields r') →
  String.length h = 64%nat → String.length h' = 64%nat →
  chain_from h n [r] → chain_from h' n' [r'] → current_hash r = current_hash r' →
  same_row r r' ∧ h = h'.
Proof.
  intros Hnc Hm Hm' Hcal Hcal' Hh Hh' (Hs & Hp & Hd & Hc & _) (Hs' & Hp' & Hd' & Hc' & _) E.
  assert (payload_digest r = payload_digest r' ∧ h = h' ∧ n + 1 = n' + 1) as (Edig & Eh & En).
  { rewrite Hc Hc' in E. unfold compute_block_hash in E. apply Hnc in E.
    - apply block_material_fields in E; [tauto|done|done| |];
        [rewrite Hd|rewrite Hd']; apply sha256_hex_length.
    - apply Hm. rewrite -Hp -Hs. right. left.
    - apply Hm'. rewrite -Hp' -Hs'. right. left. }
  split; [|done]. split_and!; try congruence.
  rewrite Hd Hd' in Edig. unfold compute_payload_digest in Edig. apply Hnc in Edig.
  - by apply canonical_payload_same.
  - apply Hm. left.
  - apply Hm'. left.
Qed.

Lemma chain_unique msgs h n l l' :
  NoCollision msgs → String.length h = 64%nat →
  (∀ r, r ∈ l ∨ r ∈ l' → row_messages r ⊆ msgs ∧ event_in_calendar (fields r)) →
  length l = length l' → chain_from h n l → chain_from h n l' →
  (tip h n l).1 = (tip h n l').1 → Forall2 same_row l l'.
Proof.
  intros Hnc Hh. revert l'. induction l as [|r l IH] using rev_ind; intros l' Hm Hlen Hl Hl' Ht.
  - destruct l'; [constructor|done].
  - destruct l' as [|r' l' _] using rev_ind; [rewrite length_app in Hlen; cbn in Hlen; lia|].
    rewrite !length_app /= in Hlen.
    apply chain_from_app in Hl as [Hl Hr], Hl' as [Hl' Hr'].
    rewrite !tip_snoc in Ht. cbn [fst] in Ht.
    destruct (Hm r) as [? ?]; [left; apply elem_of_snoc|].
    destruct (Hm r') as [? ?]; [right; apply elem_of_snoc|].
    destruct (chain_step_inj msgs (tip h n l).1 (tip h n l).2 (tip h n l').1 (tip h n l').2 r r')
      as [Hrr Heq]; try done.
    + by apply chain_hash_length.
    + by apply chain_hash_length.
    + apply Forall2_app; [|by constructor]. apply IH; try done; [|lia].
      intros x Hx. apply Hm. destruct Hx; [left|right]; apply elem_of_app; by left.
Qed.

Definition tip_hash (t : ledger_table) : option string :=
  current_hash <$> last (order_by_seq (rows t)).

(** C2. The hash of the last block determines the whole history: two ledgers
    that both pass a full verification and end in the same block hash hold the
    same rows, in the same order, unless the messages they hash contain a
    SHA-256 collision.  Altering, deleting, inserting or reordering rows below
    a known block hash therefore makes verification fail. *)
Theorem verify_chain_tamper_evident t t' :
  Forall (λ r, 0 <= sequence_num r ∧ event_in_calendar (fields r)) (rows t) →
  Forall (λ r, 0 <= sequence_num r ∧ event_in_calendar (fields r)) (rows t') →
  NoCollision (messages t ++ messages t')%list →
  valid (verify_chain t None None) = true → valid (verify_chain t' None None) = true →
  is_Some (tip_hash t) → tip_hash t = tip_hash t' →
  Forall2 same_row (order_by_seq (rows t)) (order_by_seq (rows t')).
Proof.
  intros Hw Hw' Hnc Hv Hv' [x Hx] Htip.
  apply verify_full_chain in Hv; [|by eapply Forall_impl; [done|]; intros r [? _]].
  apply verify_full_chain in Hv'; [|by eapply Forall_impl; [done|]; intros r [? _]].
  assert (order_by_seq (rows t) ≡ₚ rows t) as Hp by apply merge_sort_Permutation.
  assert (order_by_seq (rows t') ≡ₚ rows t') as Hp' by apply merge_sort_Permutation.
  assert (Hm : ∀ r, r ∈ order_by_seq (rows t) ∨ r ∈ order_by_seq (rows t') →
    row_messages r ⊆ (messages t ++ messages t')%list ∧ event_in_calendar (fields r)).
  { rewrite Forall_forall in Hw. rewrite Forall_forall in Hw'. intros r [Hr|Hr].
    - rewrite Hp in Hr. split; [|by apply Hw]. intros m Hmm. apply elem_of_app. left.
      by eapply messages_elem.
    - rewrite Hp' in Hr. split; [|by apply Hw']. intros m Hmm. apply elem_of_app. right.
      by eapply messages_elem. }
  rewrite /tip_hash in Hx, Htip. rewrite Hx in Htip.
  destruct (last (order_by_seq (rows t))) as [r|] eqn:El; [|done].
  destruct (last (order_by_seq (rows t'))) as [r'|] eqn:El'; [|done].
  cbn in Hx, Htip. simplify_eq.
  apply (chain_unique (messages t ++ messages t')%list GENESIS_HASH (-1)); try done.
  - apply last_Some in El as [l El]. apply last_Some in El' as [l' El'].
    rewrite El in Hv. rewrite El' in Hv'.
    pose proof (chain_from_tip_seq _ _ _ Hv) as Hn. pose proof (chain_from_tip_seq _ _ _ Hv') as Hn'.
    rewrite tip_snoc in Hn. rewrite tip_snoc in Hn'. cbn [snd] in Hn, Hn'.
    apply chain_from_app in Hv as [Hl Hr], Hv' as [Hl' Hr'].
    destruct (Hm r) as [? ?]; [left; rewrite El; apply elem_of_snoc|].
    destruct (Hm r') as [? ?]; [right; rewrite El'; apply elem_of_snoc|].
    destruct (chain_step_inj (messages t ++ messages t')%list _ _ _ _ r r' Hnc ltac:(done) ltac:(done)
      ltac:(done) ltac:(done) ltac:(by apply chain_hash_length; [|exact Hl])
      ltac:(by apply chain_hash_length; [|exact Hl']) Hr Hr' ltac:(done)) as [(Hseq & _) _].
    rewrite El El'. lia.
  - unfold tip. rewrite El El'. cbn. congruence.
Qed.
