(* ===== verification/LedgerConcurrency.v ===== *)
(** * Concurrent appends

    [LedgerService.append_entry] run by several writers at once.  A writer's
    transaction is the sequence [_acquire_ledger_lock], [_last_entry],
    [INSERT]/commit; the transactions of different writers interleave at these
    points, and a writer may crash in between, which rolls its transaction
    back and releases its lock.  [pg] says whether the dialect is PostgreSQL:
    elsewhere [_acquire_ledger_lock] does nothing. *)
From S2P Require Import Prelude PyStr PyFloat Sha256 Json JsonFacts Datetime Ledger.
From S2P Require Import LedgerFacts.

Open Scope string_scope.
Open Scope Z_scope.

(** Where a writer is in its transaction. *)
Inductive writer :=
| Idle (event : ComplianceEvaluationEvent)
| Begun (event : ComplianceEvaluationEvent)
| HasRead (event : ComplianceEvaluationEvent) (last : option (Z * string))
| Committed (event : ComplianceEvaluationEvent)
| RolledBack (event : ComplianceEvaluationEvent).

Record system := System
  { table : ledger_table; holder : option nat; writers : list writer }.

(** [pg_advisory_xact_lock]: granted when no transaction holds it. *)
Definition _acquire_ledger_lock (pg : bool) (i : nat) (h : option nat) : option (option nat) :=
  if pg then match h with None => Some (Some i) | Some _ => None end else Some h.

(** The lock is released when the transaction that holds it ends. *)
Definition release (i : nat) (h : option nat) : option nat :=
  if bool_decide (h = Some i) then None else h.

Definition in_transaction (w : writer) : bool :=
  match w with Begun _ | HasRead _ _ => true | _ => false end.

Definition writer_event (w : writer) : ComplianceEvaluationEvent :=
  match w with Idle e | Begun e | HasRead e _ | Committed e | RolledBack e => e end.

Inductive step (pg : bool) : system → system → Prop :=
| step_begin t h ws i e h' :
    ws !! i = Some (Idle e) → _acquire_ledger_lock pg i h = Some h' →
    step pg (System t h ws) (System t h' (<[i := Begun e]> ws))
| step_read t h ws i e :
    ws !! i = Some (Begun e) →
    step pg (System t h ws) (System t h (<[i := HasRead e (_last_entry t)]> ws))
| step_commit t h ws i e last now t' :
    ws !! i = Some (HasRead e last) →
    insert_row t (build_row last (model_dump e) (next_id t) now) = Ok t' →
    step pg (System t h ws) (System t' (release i h) (<[i := Committed e]> ws))
| step_conflict t h ws i e last now next :
    ws !! i = Some (HasRead e last) →
    insert_row t (build_row last (model_dump e) (next_id t) now) = Raise UniqueViolation →
    step pg (System t h ws) (System (Table (rows t) next) (release i h) (<[i := RolledBack e]> ws))
| step_crash t h ws i w :
    ws !! i = Some w → in_transaction w = true →
    step pg (System t h ws) (System t (release i h) (<[i := RolledBack (writer_event w)]> ws)).

(** The events of the writers that committed. *)
Definition committed (ws : list writer) : list ComplianceEvaluationEvent :=
  omap (λ w, match w with Committed e => Some e | _ => None end) ws.

Definition start (t : ledger_table) (es : list ComplianceEvaluationEvent) : system :=
  System t None (Idle <$> es).

(** ** Invariants *)

Record inv (t0 : ledger_table) (s : system) : Prop := Inv
  { inv_chain : chain_ok (table s);
    inv_reads : ∀ i e l, writers s !! i = Some (HasRead e l) →
      ∃ k, (k <= length (rows (table s)))%nat ∧ l = snapshot (take k (rows (table s)));
    inv_events : fields <$> rows (table s)
      ≡ₚ (fields <$> rows t0) ++ (model_dump <$> committed (writers s)) }.

(** With the advisory lock: the writer inside its transaction is the holder,
    and what it read is still the last row. *)
Record lock_inv (s : system) : Prop := LockInv
  { lock_holder : ∀ i w, writers s !! i = Some w → in_transaction w = true → holder s = Some i;
    lock_fresh : ∀ i e l, writers s !! i = Some (HasRead e l) → l = _last_entry (table s);
    lock_live : ∀ i, holder s = Some i →
      ∃ w, writers s !! i = Some w ∧ in_transaction w = true }.

(** A row computed from a stale read collides with a row that is there. *)
Lemma stale_insert t k e next now :
  chain_ok t → (k < length (rows t))%nat →
  insert_row t (build_row (snapshot (take k (rows t))) e next now) = Raise UniqueViolation.
Proof.
  intros Hc Hk. unfold insert_row. replace (existsb _ _) with true; [done|]. symmetry.
  apply existsb_true_elem.
  pose proof Hc as Hall. unfold chain_ok in Hall.
  destruct (lookup_lt_is_Some_2 (rows t) k Hk) as [r Hr].
  rewrite -(take_drop_middle _ _ _ Hr) in Hall. apply chain_from_app in Hall as [Hl (Hs & _)].
  exists r. split; [by eapply list_elem_of_lookup_2|]. apply Z.eqb_eq. rewrite Hs.
  unfold build_row, snapshot, tip. cbn [sequence_num]. by destruct (last (take k (rows t))).
Qed.

Lemma committed_insert ws i w e :
  ws !! i = Some w → committed [w] = [] →
  committed (<[i := Committed e]> ws) ≡ₚ e :: committed ws.
Proof.
  intros Hi Hw. rewrite insert_take_drop; [|by eapply lookup_lt_Some].
  rewrite -{3}(take_drop_middle _ _ _ Hi). unfold committed in *.
  rewrite !omap_app. cbn. destruct w; try done; by rewrite Permutation_middle.
Qed.

Lemma committed_insert_other ws i w w' :
  ws !! i = Some w → committed [w] = [] → committed [w'] = [] →
  committed (<[i := w']> ws) = committed ws.
Proof.
  intros Hi Hw Hw'. rewrite insert_take_drop; [|by eapply lookup_lt_Some].
  rewrite -{3}(take_drop_middle _ _ _ Hi). unfold committed in *.
  rewrite !omap_app. f_equal. cbn. by destruct w, w'.
Qed.

(** A writer other than the one that moved is where it was. *)
Ltac moved H :=
  let Hji := fresh in let Hw := fresh in
  apply list_lookup_insert_Some in H as [(<- & Hw & Hji)|[Hji Hw]]; [try discriminate Hw|].

Lemma step_inv pg t0 s s' : inv t0 s → step pg s s' → inv t0 s'.
Proof.
  intros [Hc Hr He] Hst. destruct Hst as
    [t h ws i e h' Hi Hl|t h ws i e Hi|t h ws i e l now t' Hi Hins|t h ws i e l now next Hi Hins
    |t h ws i w Hi Hw]; cbn [table holder writers] in *; constructor; cbn [table holder writers]; try done.
  - intros j e' l Hj. moved Hj. by apply (Hr j e').
  - by rewrite (committed_insert_other _ _ _ _ Hi).
  - intros j e' l Hj. moved Hj; [|by apply (Hr j e')].
    match goal with E : HasRead _ _ = _ |- _ => injection E as <- <- end.
    exists (length (rows t)). split; [done|]. by rewrite firstn_all (last_entry_snapshot _ Hc).
  - by rewrite (committed_insert_other _ _ _ _ Hi).
  - destruct (Hr _ _ _ Hi) as (k & Hk & ->).
    destruct (decide (k = length (rows t))) as [->|Hne]; [|rewrite stale_insert in Hins; [done|done|lia]].
    rewrite firstn_all in Hins.
    destruct (fresh_insert t (model_dump e) (next_id t) now Hc) as (r & -> & Hi' & Hc' & _).
    rewrite Hi' in Hins. by injection Hins as <-.
  - intros j e' l' Hj. moved Hj. destruct (Hr _ _ _ ltac:(eassumption)) as (k & Hk & ->).
    unfold insert_row in Hins. case_match; [done|]. injection Hins as <-. cbn [rows].
    exists k. rewrite length_app. split; [cbn; lia|]. by rewrite take_app_le.
  - unfold insert_row in Hins. case_match; [done|]. injection Hins as <-. cbn [rows].
    rewrite fmap_app He (committed_insert _ _ _ _ Hi); [|done]. cbn. solve_Permutation.
  - intros j e' l' Hj. moved Hj. by apply (Hr j e').
  - by rewrite (committed_insert_other _ _ _ _ Hi).
  - intros j e' l' Hj. moved Hj. by apply (Hr j e').
  - by rewrite (committed_insert_other _ _ _ _ Hi) //; destruct w.
Qed.

Lemma start_inv t0 es : chain_ok t0 → inv t0 (start t0 es).
Proof.
  intros Hc. constructor; cbn [start table writers]; [done| |].
  - intros i e l. rewrite list_lookup_fmap. by destruct (es !! i).
  - replace (committed (Idle <$> es)) with (@nil ComplianceEvaluationEvent); [by rewrite app_nil_r|].
    unfold committed. induction es as [|e es IH]; [done|]. exact IH.
Qed.

(** C8. Whatever the interleaving of writers and crashes, and on any dialect,
    the ledger stays one well-formed chain, and its rows are exactly those it
    started with plus one row per committed writer: no event is lost or
    duplicated and the history never forks.  (Without the advisory lock this
    rests on the unique constraint: a writer that read a stale last row is
    rejected.) *)
Theorem concurrent_appends_keep_chain pg t0 es s :
  chain_ok t0 → rtc (step pg) (start t0 es) s →
  chain_ok (table s)
  ∧ fields <$> rows (table s) ≡ₚ (fields <$> rows t0) ++ (model_dump <$> committed (writers s)).
Proof.
  intros Hc Hs. assert (inv t0 s) as []; [|done].
  revert Hs. generalize (start_inv t0 es Hc). generalize (start t0 es). intros s0 H0 Hs.
  induction Hs as [|s0 s1 s2 H01 _ IH]; [done|]. by eapply IH, step_inv.
Qed.

(** ** With the advisory lock *)
Lemma release_self i h : h = Some i → release i h = None.
Proof. intros ->. unfold release. by rewrite bool_decide_eq_true_2. Qed.

(** Ending the holder's transaction leaves nobody inside one. *)
Lemma lock_inv_end t h ws i w w' t' :
  lock_inv (System t h ws) → ws !! i = Some w → in_transaction w = true →
  in_transaction w' = false → lock_inv (System t' (release i h) (<[i := w']> ws)).
Proof.
  intros [Hh Hf Hl] Hi Hw Hw'. cbn [table holder writers] in *.
  pose proof (Hh _ _ Hi Hw) as ->. rewrite release_self; [|done].
  assert (∀ j x, <[i:=w']> ws !! j = Some x → in_transaction x = true → False) as Hno.
  { intros j x Hj Hx. moved Hj; [congruence|]. pose proof (Hh j x ltac:(done) Hx). congruence. }
  constructor; cbn [table holder writers]; [|by intros i' e l Hj; destruct (Hno _ _ Hj)|done].
  intros j x Hj Hx. by destruct (Hno _ _ Hj Hx).
Qed.

Lemma step_lock_inv s s' : lock_inv s → step true s s' → lock_inv s'.
Proof.
  intros HI Hst. destruct Hst as
    [t h ws i e h' Hi Ha|t h ws i e Hi|t h ws i e l now t' Hi Hins|t h ws i e l now next Hi Hins
    |t h ws i w Hi Hw]; try by eapply lock_inv_end.
  - destruct h as [|]; [done|]. injection Ha as <-. destruct HI as [Hh Hf Hl]. cbn [table holder writers] in *.
    constructor; cbn [table holder writers].
    + intros j x Hj Hx. moved Hj; [done|]. by pose proof (Hh j x ltac:(done) Hx).
    + intros j e' l Hj. moved Hj. by eapply Hf.
    + intros j [= <-]. exists (Begun e). split; [|done]. apply list_lookup_insert_eq. by eapply lookup_lt_Some.
  - destruct HI as [Hh Hf Hl]. cbn [table holder writers] in *.
    pose proof (Hh i (Begun e) Hi eq_refl) as ->. constructor; cbn [table holder writers].
    + intros j x Hj Hx. moved Hj; [done|]. by apply (Hh j x).
    + intros j e' l Hj. moved Hj; [congruence|]. by eapply Hf.
    + intros j [= <-]. eexists. split; [apply list_lookup_insert_eq; by eapply lookup_lt_Some|done].
Qed.

Lemma start_lock_inv t0 es : lock_inv (start t0 es).
Proof.
  constructor; cbn [start table holder writers]; [| |done].
  - intros i w. rewrite list_lookup_fmap. destruct (es !! i); cbn; [|done]. by intros [= <-].
  - intros i e l. rewrite list_lookup_fmap. by destruct (es !! i).
Qed.

Lemma reach_invs t0 es s :
  chain_ok t0 → rtc (step true) (start t0 es) s → inv t0 s ∧ lock_inv s.
Proof.
  intros Hc Hs. revert Hs. generalize (start_lock_inv t0 es), (start_inv t0 es Hc).
  generalize (start t0 es). intros s0 L0 I0 Hs.
  induction Hs as [|s0 s1 s2 H01 _ IH]; [done|]. apply IH; [by eapply step_lock_inv|by eapply step_inv].
Qed.

(** On PostgreSQL, a writer that has read the last row can always commit:
    under the advisory lock what it read is still current, so its [INSERT]
    never hits the unique constraint, and at most one writer is inside its
    transaction at a time. *)
Theorem locked_writer_never_conflicts t0 es s i e last now :
  chain_ok t0 → rtc (step true) (start t0 es) s →
  writers s !! i = Some (HasRead e last) →
  is_ok (insert_row (table s) (build_row last (model_dump e) (next_id (table s)) now)) = true
  ∧ (∀ j w, writers s !! j = Some w → in_transaction w = true → j = i).
Proof.
  intros Hc Hs Hi. destruct (reach_invs _ _ _ Hc Hs) as [[Hck _ _] [Hh Hf _]]. split.
  - rewrite (Hf _ _ _ Hi) (last_entry_snapshot _ Hck).
    destruct (fresh_insert (table s) (model_dump e) (next_id (table s)) now Hck) as (r & -> & -> & _).
    done.
  - intros j w Hj Hw. pose proof (Hh _ _ Hj Hw). pose proof (Hh _ _ Hi eq_refl). congruence.
Qed.

(** ** Progress *)
Definition writer_measure (w : writer) : nat :=
  match w with Idle _ => 3 | Begun _ => 2 | HasRead _ _ => 1 | _ => 0 end.
Definition measure (s : system) : nat := sum_list_with writer_measure (writers s).

Lemma measure_insert ws i w w' :
  ws !! i = Some w → (writer_measure w' < writer_measure w)%nat →
  (sum_list_with writer_measure (<[i := w']> ws) < sum_list_with writer_measure ws)%nat.
Proof.
  intros Hi Hlt. rewrite insert_take_drop; [|by eapply lookup_lt_Some].
  rewrite -{3}(take_drop_middle _ _ _ Hi) !sum_list_with_app. cbn [sum_list_with]. lia.
Qed.

Lemma step_measure pg s s' : step pg s s' → (measure s' < measure s)%nat.
Proof.
  destruct 1; unfold measure; cbn [writers]; eapply measure_insert; try eassumption; cbn; try lia.
  destruct w; cbn; try done; lia.
Qed.

Definition finished (w : writer) : bool := Nat.eqb (writer_measure w) 0.

(** The step makes no writer roll back. *)
Definition no_new_rollback (s s' : system) : Prop :=
  ∀ i e, writers s' !! i = Some (RolledBack e) → writers s !! i = Some (RolledBack e).

Lemma writer_can_move s i w :
  chain_ok (table s) → lock_inv s → writers s !! i = Some w → in_transaction w = true →
  ∃ s', step true s s' ∧ no_new_rollback s s'.
Proof.
  destruct s as [t h ws]. intros Hck [_ Hf _] Hi Hw. cbn [table holder writers] in *.
  destruct w as [|e|e l| |]; try done.
  - eexists. split; [by eapply step_read|]. intros j e' Hj. cbn [writers] in *. by moved Hj.
  - destruct (fresh_insert t (model_dump e) (next_id t) (ev_evaluated_at e) Hck) as (r & Hr & Hins & _).
    eexists. split; [eapply (step_commit _ t h ws i e _ (ev_evaluated_at e)); [done|]|].
    + rewrite (Hf _ _ _ Hi) (last_entry_snapshot _ Hck) -Hr. exact Hins.
    + intros j e' Hj. cbn [writers] in *. by moved Hj.
Qed.

Lemma unfinished_elem ws : forallb finished ws = false → ∃ i w, ws !! i = Some w ∧ finished w = false.
Proof.
  induction ws as [|w ws IH]; cbn; [done|]. rewrite andb_false_iff. intros [E|E]; [by exists 0%nat, w|].
  destruct (IH E) as (i & x & ? & ?). by exists (S i), x.
Qed.

Lemma run_length pg n s s' : nsteps (step pg) n s s' → (n + measure s' <= measure s)%nat.
Proof. induction 1 as [|n s1 s2 s3 H12 _ IH]; [lia|]. pose proof (step_measure _ _ _ H12). lia. Qed.

Lemma start_measure t0 es : measure (start t0 es) = (3 * length es)%nat.
Proof. unfold measure, start. cbn [writers]. induction es as [|e es IH]; cbn in *; lia. Qed.

(** Appends cannot deadlock and end: on PostgreSQL, until all writers have
    committed or rolled back, some writer can take a step that is not a crash
    or a conflict, and a run has at most three steps per writer. *)
Theorem concurrent_appends_progress t0 es n s :
  chain_ok t0 → nsteps (step true) n (start t0 es) s →
  (n <= 3 * length es)%nat
  ∧ (forallb finished (writers s) = true ∨ ∃ s', step true s s' ∧ no_new_rollback s s').
Proof.
  intros Hc Hn. split; [pose proof (run_length _ _ _ _ Hn) as Hr; rewrite start_measure in Hr; lia|].
  apply rtc_nsteps_2 in Hn.
  destruct (reach_invs _ _ _ Hc Hn) as [[Hck _ _] HL]. pose proof HL as [Hh _ Hl].
  destruct (holder s) as [i|] eqn:Eh.
  - destruct (Hl i eq_refl) as (w & Hi & Hw). right. by eapply writer_can_move.
  - destruct (forallb finished (writers s)) eqn:E; [by left|right].
    destruct (unfinished_elem _ E) as (i & w & Hi & Hfin).
    destruct w; try done; try by pose proof (Hh _ _ Hi eq_refl).
    destruct s as [t h ws]. cbn in *. subst h. eexists. split; [by eapply step_begin|].
    intros j e' Hj. cbn [writers] in *. by moved Hj.
Qed.
