(* ===== verification/LedgerWitness.v ===== *)
(** * Concrete ledgers

    Three evaluations appended to an empty ledger, in the order of their
    evaluation times ([led_ok]) and out of that order ([led_late]), on which
    the theorems about the ledger are applied. *)
From S2P Require Import Prelude PyStr PyFloat Sha256 Json JsonFacts Datetime Ledger.
From S2P Require Import LedgerFacts LedgerConcurrency.

Open Scope string_scope.
Open Scope Z_scope.

Definition sample_event (minute : Z) (o : EvaluationOutcome) (hitl : option string)
    (d : json) : ComplianceEvaluationEvent :=
  {| ev_broker_id := "BRK-1"; ev_transaction_id := "TXN-" +:+ str_of_Z minute;
     ev_evaluated_at := Datetime (63000000000000000 + minute * 60000000) (Some 0);
     ev_circular_id := "SEBI/HO/2024/1"; ev_clause_hash := "a3f1"; ev_section_reference := "4.1";
     ev_rule_id := "rule-7"; ev_evaluation_result := o; ev_hitl_review_id := hitl;
     ev_details := d |}.

Definition noon : datetime := Datetime 63000000000000000 (Some 0).
Definition at_minute (m : Z) : datetime := Datetime (63000000000000000 + m * 60000000) (Some 0).

Definition append_all (t : ledger_table) (es : list ComplianceEvaluationEvent) : ledger_table :=
  fold_left (λ t e, match append_entry t e noon with Ok (t', _) => t' | Raise _ => t end) es t.

Definition empty_ledger : ledger_table := Table [] 1.

Definition sample_details : json := JObj [("b", JInt 2); ("a", JList [JBool true; JNull])].

Definition led_ok : ledger_table := Eval vm_compute in
  append_all empty_ledger
    [ sample_event 10 PASS None (JObj []); sample_event 20 FAIL None sample_details;
      sample_event 30 HITL_REVIEW (Some "case-1") (JObj []) ].

(** Evaluated at minutes 10, 30 and 20, in that order of appending. *)
Definition led_late : ledger_table := Eval vm_compute in
  append_all empty_ledger
    [ sample_event 10 PASS None (JObj []); sample_event 30 PASS None (JObj []);
      sample_event 20 FAIL None (JObj []) ].

(** [led_ok] read back through a driver that drops the time zone and reorders
    the keys of [details]. *)
Definition reread (r : LedgerEntry) : LedgerEntry :=
  let f := fields r in
  Entry (id r) (sequence_num r)
    (EventFields (broker_id f) (transaction_id f) (Datetime (utc_us (evaluated_at f)) None)
       (circular_id f) (clause_hash f) (section_reference f) (rule_id f) (evaluation_result f)
       (hitl_review_id f)
       (match details f with JObj kvs => JObj (List.rev kvs) | j => j end))
    (payload_digest r) (previous_hash r) (current_hash r) (created_at r).

Definition led_reread : ledger_table := Table (reread <$> rows led_ok) (next_id led_ok).

Lemma led_ok_chain : chain_ok led_ok.
Proof. apply check_rows_nil. vm_compute. reflexivity. Qed.
Lemma led_late_chain : chain_ok led_late.
Proof. apply check_rows_nil. vm_compute. reflexivity. Qed.

Lemma append_entry_witness :
  ∃ r, append_entry led_ok (sample_event 40 PASS None (JObj [])) noon
       = Ok (Table (rows led_ok ++ [r]) (next_id led_ok + 1), r)
     ∧ chain_ok (Table (rows led_ok ++ [r]) (next_id led_ok + 1))
     ∧ fields r = model_dump (sample_event 40 PASS None (JObj []))
     ∧ sequence_num r = Z.of_nat (length (rows led_ok)).
Proof. exact (append_entry_extends_chain led_ok _ noon led_ok_chain). Defined.

Lemma verify_chain_accepts_witness :
  valid (verify_chain led_late None None) = true
  ∧ breaks (verify_chain led_late None None) = []
  ∧ entries_checked (verify_chain led_late None None) = Z.of_nat (length (rows led_late)).
Proof. exact (verify_chain_accepts led_late led_late_chain). Defined.

Lemma led_ok_ordered : time_ordered led_ok.
Proof.
  unfold time_ordered. repeat constructor; vm_compute; discriminate.
Qed.

Lemma verify_chain_range_witness :
  valid (verify_chain led_ok (Some (at_minute 15)) (Some (at_minute 25))) = true.
Proof. exact (verify_chain_accepts_range led_ok _ _ led_ok_chain led_ok_ordered). Defined.

Lemma led_reread_same : Forall2 same_row (rows led_ok) (rows led_reread).
Proof. repeat constructor; vm_compute; reflexivity. Qed.

Lemma verify_chain_driver_witness : valid (verify_chain led_reread None None) = true.
Proof. exact (verify_chain_driver_roundtrip led_ok led_reread led_ok_chain led_reread_same). Defined.

(** A decision procedure for [NoCollision]. *)
Definition no_collisionb (msgs : list string) : bool :=
  let ds := (λ m, (m, sha256_hex m)) <$> msgs in
  forallb (λ d, forallb (λ d', negb (String.eqb d.2 d'.2) || String.eqb d.1 d'.1) ds) ds.

Lemma no_collisionb_sound msgs : no_collisionb msgs = true → NoCollision msgs.
Proof.
  unfold no_collisionb. cbv zeta. rewrite forallb_true_Forall Forall_forall. intros H m m' Hm Hm' E.
  specialize (H (m, sha256_hex m)). rewrite forallb_true_Forall Forall_forall in H.
  assert (∀ x, x ∈ msgs → (x, sha256_hex x) ∈ ((λ m, (m, sha256_hex m)) <$> msgs)) as Hin.
  { intros x Hx. apply list_elem_of_fmap. by exists x. }
  specialize (H (Hin _ Hm) _ (Hin _ Hm')). cbn [fst snd] in H.
  apply orb_true_iff in H as [H|H]; breflect; [by rewrite E in H|done].
Qed.

Lemma led_pair_no_collision : NoCollision (messages led_ok ++ messages led_reread).
Proof. apply no_collisionb_sound. vm_compute. reflexivity. Qed.

Definition well_placedb (t : ledger_table) : bool :=
  forallb (λ r, (0 <=? sequence_num r) && (0 <=? utc_us (evaluated_at (fields r)))
                && (utc_us (evaluated_at (fields r)) <? 3652059 * us_per_day)) (rows t).

Lemma well_placedb_sound t : well_placedb t = true →
  Forall (λ r, 0 <= sequence_num r ∧ event_in_calendar (fields r)) (rows t).
Proof.
  unfold well_placedb. rewrite forallb_true_Forall. intros H. eapply Forall_impl; [exact H|].
  intros r Hr. cbn in Hr. breflect. unfold event_in_calendar, in_calendar. lia.
Qed.

Lemma tamper_evident_witness :
  Forall2 same_row (order_by_seq (rows led_ok)) (order_by_seq (rows led_reread)).
Proof.
  apply (verify_chain_tamper_evident led_ok led_reread).
  - apply well_placedb_sound. vm_compute. reflexivity.
  - apply well_placedb_sound. vm_compute. reflexivity.
  - exact led_pair_no_collision.
  - vm_compute. reflexivity.
  - vm_compute. reflexivity.
  - eexists. vm_compute. reflexivity.
  - vm_compute. reflexivity.
Defined.

(** A range check can report a break on an intact ledger: when a row was
    evaluated earlier than the row appended before it, a time range can skip a
    row in the middle, and the verifier reports the skipped sequence number as
    a missing row. *)
Theorem verify_chain_range_false_alarm :
  chain_ok led_late
  ∧ valid (verify_chain led_late None None) = true
  ∧ cb_sequence_num <$> breaks (verify_chain led_late None (Some (at_minute 25))) = [2; 2].
Proof. split; [exact led_late_chain|]. split; vm_compute; reflexivity. Qed.

(** ** Concurrent writers *)
Definition two_events : list ComplianceEvaluationEvent :=
  [sample_event 40 PASS None (JObj []); sample_event 50 FAIL None (JObj [])].
Definition ev1 : ComplianceEvaluationEvent := sample_event 40 PASS None (JObj []).
Definition ev2 : ComplianceEvaluationEvent := sample_event 50 FAIL None (JObj []).
Definition row1 : LedgerEntry := build_row (_last_entry led_ok) (model_dump ev1) (next_id led_ok) noon.
Definition led_next : ledger_table := Table (rows led_ok ++ [row1]) (next_id led_ok + 1).

(** Two unlocked writers read the same last row; the first commits, the
    second is rejected. *)
Lemma unlocked_run :
  rtc (step false) (start led_ok two_events) (System (Table (rows led_next) 9) None [Committed ev1; RolledBack ev2]).
Proof.
  eapply rtc_l; [by apply (step_begin false led_ok None _ 0 ev1 None)|].
  eapply rtc_l; [by apply (step_begin false led_ok None _ 1 ev2 None)|].
  eapply rtc_l; [by apply (step_read false led_ok None _ 0 ev1)|].
  eapply rtc_l; [by apply (step_read false led_ok None _ 1 ev2)|].
  eapply rtc_l.
  { eapply (step_commit false led_ok None _ 0 ev1 _ noon led_next); [reflexivity|]. vm_compute. reflexivity. }
  eapply rtc_l.
  { eapply (step_conflict false led_next _ _ 1 ev2 _ noon 9); [reflexivity|]. vm_compute. reflexivity. }
  constructor.
Qed.

Lemma concurrent_appends_witness :
  chain_ok (Table (rows led_next) 9)
  ∧ fields <$> rows led_next ≡ₚ ((fields <$> rows led_ok) ++ [model_dump ev1])%list.
Proof. exact (concurrent_appends_keep_chain false led_ok two_events _ led_ok_chain unlocked_run). Defined.

Definition locked_state : system :=
  System led_ok (Some 1%nat) [Idle ev1; HasRead ev2 (_last_entry led_ok)].

Lemma locked_run : nsteps (step true) 2 (start led_ok two_events) locked_state.
Proof.
  eapply nsteps_l; [by apply (step_begin true led_ok None _ 1 ev2 (Some 1%nat))|].
  eapply nsteps_l; [by apply (step_read true led_ok (Some 1%nat) _ 1 ev2)|]. constructor.
Qed.

Lemma locked_writer_witness :
  is_ok (insert_row led_ok (build_row (_last_entry led_ok) (model_dump ev2) (next_id led_ok) noon)) = true
  ∧ (∀ j w, writers locked_state !! j = Some w → in_transaction w = true → j = 1%nat).
Proof.
  exact (locked_writer_never_conflicts led_ok two_events locked_state 1 ev2 _ noon led_ok_chain
    (rtc_nsteps_2 _ _ _ locked_run) eq_refl).
Defined.

Lemma concurrent_progress_witness :
  (2 <= 3 * length two_events)%nat
  ∧ (forallb finished (writers locked_state) = true
     ∨ ∃ s', step true locked_state s' ∧ no_new_rollback locked_state s').
Proof. exact (concurrent_appends_progress led_ok two_events 2 locked_state led_ok_chain locked_run). Defined.
