(* ===== verification/Execution.v ===== *)
(** * Transaction execution

    [src/app/execution/hitl_queue.py], [evaluator.py] and [tasks.py], and the
    mapping of evaluations to ledger rows of [src/app/ledger/integration.py].

    The OPA server is a parameter of the evaluator: a function from package
    and input document to its reply.  Case ids are the uuids that the queue
    draws; the caller supplies them. *)
From S2P Require Import Prelude PyStr PyFloat Sha256 Json JsonFacts Datetime Ledger.
From S2P Require Import ExecModels Policies Governance.

Open Scope string_scope.
Open Scope Z_scope.

(** ** The HITL queue *)
Record HITLQueue := Queue { cases : gmap string HITLCase; pending_set : gset string }.

Definition enqueue (q : HITLQueue) (transaction : TransactionPayload) (reason : string)
    (matched : list PolicyOutcome) (new_id : string) (now : datetime) : HITLQueue * HITLCase :=
  let case := {| case_id := new_id; case_transaction := transaction; case_reason := reason;
                 case_matched_policies := matched; case_status := PENDING;
                 case_created_at := now; resolved_at := None; resolved_by := None;
                 resolution_notes := None |} in
  (Queue (<[new_id := case]> (cases q)) ({[new_id]} ∪ pending_set q), case).

Definition get_case (q : HITLQueue) (id : string) : option HITLCase := cases q !! id.

(** [sorted(cases, key=created_at)] of the pending cases that exist. *)
Definition list_pending (q : HITLQueue) : list HITLCase :=
  merge_sort (key_le (λ c, utc_us (case_created_at c)))
    (omap (get_case q) (elements (pending_set q))).

Inductive queue_error :=
| NoSuchCase (id : string)
| AlreadyResolved (id : string) (st : HITLStatus).

Definition resolve (q : HITLQueue) (id : string) (st : HITLStatus) (by_ : string)
    (notes : option string) (now : datetime) : res queue_error (HITLQueue * HITLCase) :=
  match get_case q id with
  | None => Raise (NoSuchCase id)
  | Some c =>
      if negb (bool_decide (case_status c = PENDING)) then Raise (AlreadyResolved id (case_status c))
      else
        let c' := {| case_id := case_id c; case_transaction := case_transaction c;
                     case_reason := case_reason c; case_matched_policies := case_matched_policies c;
                     case_status := st; case_created_at := case_created_at c;
                     resolved_at := Some now; resolved_by := Some by_; resolution_notes := notes |} in
        Ok (Queue (<[id := c']> (cases q)) (pending_set q ∖ {[id]}), c')
  end.

(** ** OPA *)

(** The decision document of a compiled policy. *)
Record opa_decision := OpaDecision
  { od_allow : bool
  ; od_violations : list string
  ; od_circular_number : option string
  ; od_clause_number : option string
  ; od_rule_version : option Z
  ; od_policy_sha256 : option string
  ; od_canonical_facts_digest : option string
  ; od_source_document_sha256 : option string
  ; od_extracted_text_sha256 : option string
  ; od_source_sha256 : option string }.

Inductive opa_reply :=
| OpaFailure                      (* OPAEngineError *)
| OpaUndefined                    (* result is None *)
| OpaResult (d : opa_decision).

(** ** The evaluator *)
(** [a or b] on optional integers: zero counts as absent. *)
Definition int_or (a b : option Z) : option Z :=
  match a with Some 0 => b | Some z => Some z | None => b end.

(** The outcome recorded for one policy. *)
Definition outcome_of (entry : policy_entry) (reply : opa_reply) : PolicyOutcome :=
  let undefined version sha :=
    {| po_rule_id := pe_rule_id entry; po_package := pe_package entry; allow := None;
       violations := []; po_circular_number := None; po_clause_number := None;
       po_rule_version := version; po_policy_sha256 := sha; po_canonical_facts_digest := None;
       po_source_document_sha256 := None; po_extracted_text_sha256 := None;
       po_clause_sha256 := None |} in
  match reply with
  | OpaFailure => undefined (Some 1) None
  | OpaUndefined => undefined (Some (pe_rule_version entry)) (pe_policy_sha256 entry)
  | OpaResult d =>
      {| po_rule_id := pe_rule_id entry; po_package := pe_package entry;
         allow := Some (od_allow d); violations := od_violations d;
         po_circular_number := od_circular_number d; po_clause_number := od_clause_number d;
         po_rule_version := int_or (od_rule_version d) (Some (pe_rule_version entry));
         po_policy_sha256 := opt_or (od_policy_sha256 d) (pe_policy_sha256 entry);
         po_canonical_facts_digest :=
           opt_or (od_canonical_facts_digest d) (pe_canonical_facts_digest entry);
         po_source_document_sha256 := od_source_document_sha256 d;
         po_extracted_text_sha256 := od_extracted_text_sha256 d;
         po_clause_sha256 := od_source_sha256 d |}
  end.

(** [repr] of a list of rule ids (without quotes or escapes in them). *)
Definition ids_repr (l : list string) : string :=
  "[" +:+ join ", " (map (λ s, "'" +:+ s +:+ "'") l) +:+ "]".

Definition _reduce (outcomes : list PolicyOutcome) : Decision * list string :=
  match flat_map violations outcomes with
  | (_ :: _) as vs => (DENY, vs)
  | [] =>
      match map po_rule_id (List.filter (λ o, match allow o with None => true | _ => false end) outcomes) with
      | (_ :: _) as undefined =>
          (FLAGGED, ["Policy(ies) " +:+ ids_repr undefined
                     +:+ " returned an undefined result — insufficient or malformed facts."])
      | [] => (ALLOW, [])
      end
  end.

Definition kill_switch_reason : string :=
  "Governance kill switch is active; automated evaluation is halted pending manual review.".
Definition no_policy_reason : string := "No compiled policy currently applies to this entity_type.".

Section evaluator.
Context {S : Type} `{PolicyLookup S}.
Context (opa : string → json → opa_reply).

Definition input_document (t : TransactionPayload) : json :=
  JObj [("entity_type", JStr (entity_type t)); ("facts", JObj (facts t))].

(** [evaluate_transaction]: [ks] is the kill-switch store when one is
    configured, [clock] the monotonic time, [now] the wall clock, [new_id] the
    id of a case that may be opened. *)
Definition evaluate_transaction (ks : option KillSwitchStore) (lookup : S) (q : HITLQueue)
    (t : TransactionPayload) (clock : Z) (now : datetime) (new_id : string)
  : S * HITLQueue * EvaluationResult :=
  if match ks with Some k => is_active_for k (tx_broker_id t) | None => false end then
    let (q', case) := enqueue q t kill_switch_reason [] new_id now in
    (lookup, q', {| er_transaction_id := tx_transaction_id t; decision := FLAGGED;
                    matched_policies := []; reasons := [kill_switch_reason];
                    hitl_case_id := Some (case_id case); er_evaluated_at := now |})
  else
    let (lookup', applicable) := policies_for clock (entity_type t) lookup in
    match applicable with
    | [] =>
        (lookup', q, {| er_transaction_id := tx_transaction_id t; decision := ALLOW;
                        matched_policies := []; reasons := [no_policy_reason];
                        hitl_case_id := None; er_evaluated_at := now |})
    | _ =>
        let outcomes := map (λ e, outcome_of e (opa (pe_package e) (input_document t))) applicable in
        let (d, rs) := _reduce outcomes in
        let '(q', cid) :=
          match d with
          | FLAGGED =>
              let reason := match join "; " rs with
                | "" => "One or more policies returned an undefined decision." | s => s end in
              let (q1, case) := enqueue q t reason outcomes new_id now in (q1, Some (case_id case))
          | _ => (q, None)
          end in
        (lookup', q', {| er_transaction_id := tx_transaction_id t; decision := d;
                         matched_policies := outcomes; reasons := rs; hitl_case_id := cid;
                         er_evaluated_at := now |})
    end.

(** ** Batches: [_evaluate_batch] builds its evaluator without a kill switch *)
Fixpoint _evaluate_batch (lookup : S) (q : HITLQueue) (ts : list TransactionPayload)
    (clock : Z) (now : datetime) (ids : list string) : S * HITLQueue * list EvaluationResult :=
  match ts, ids with
  | t :: ts', i :: ids' =>
      let '(l1, q1, r) := evaluate_transaction None lookup q t clock now i in
      let '(l2, q2, rs) := _evaluate_batch l1 q1 ts' clock now ids' in (l2, q2, r :: rs)
  | _, _ => (lookup, q, [])
  end.
End evaluator.

Definition count_decision (d : Decision) (rs : list EvaluationResult) : Z :=
  Z.of_nat (length (List.filter (λ r, bool_decide (decision r = d)) rs)).

(** The summary [process_batch_task] stores when the evaluation succeeds. *)
Definition batch_summary (batch_id : string) (evaluations : list EvaluationResult) : BatchJobResult :=
  {| batch_id := batch_id; batch_status := COMPLETED; total := Z.of_nat (length evaluations);
     allowed := count_decision ALLOW evaluations; denied := count_decision DENY evaluations;
     flagged := count_decision FLAGGED evaluations; results := evaluations; batch_error := None |}.

(** ** CDC rows *)
Inductive CDCOperation := CDC_INSERT | CDC_UPDATE | CDC_DELETE | CDC_SNAPSHOT.

(** [_cdc_row_to_transaction] on a row whose id, entity and broker columns
    hold strings. *)
Definition row_str (k : string) (row : list (string * json)) : option string :=
  match obj_get k row with Some (JStr s) => Some s | _ => None end.

Definition _cdc_row_to_transaction (row : list (string * json)) (now : datetime) : TransactionPayload :=
  {| tx_transaction_id := default (default "" (row_str "id" row)) (row_str "transaction_id" row);
     entity_type := default "Stockbroker" (row_str "entity_type" row);
     facts := List.filter (λ kv, negb (existsb (String.eqb kv.1)
                ["transaction_id"; "entity_type"; "broker_id"])) row;
     source_channel := DB_CDC; tx_broker_id := row_str "broker_id" row; callback_url := None;
     received_at := now; metadata := [] |}.
