(* ===== verification/Integration.v ===== *)
(** * From evaluations to ledger rows

    [src/app/ledger/integration.py]: one ledger event per matched policy, or
    one for the whole transaction when no policy produced an outcome, and the
    best-effort append of each.  The violations are worded by the deterministic
    explainer of [Explainability]. *)
From S2P Require Import Prelude PyStr PyFloat Sha256 Json JsonFacts Datetime Ledger.
From S2P Require Import ExecModels Explainability Policies Governance Execution.

Open Scope string_scope.
Open Scope Z_scope.

Definition _clause_hash (rule_id : string) : string := before ":" rule_id.

Definition _outcome_result (o : PolicyOutcome) : EvaluationOutcome :=
  match allow o with None => HITL_REVIEW | Some true => PASS | Some false => FAIL end.

Definition _decision_result (d : Decision) : EvaluationOutcome :=
  match d with ALLOW => PASS | DENY => FAIL | FLAGGED => HITL_REVIEW end.

Definition compute_transaction_digest (t : TransactionPayload) : string :=
  sha256_hex (dumps (JObj
    [ ("broker_id", JStr (str_or (tx_broker_id t) ""));
      ("entity_type", JStr (entity_type t));
      ("facts", JObj (facts t));
      ("transaction_id", JStr (tx_transaction_id t)) ])).

Definition compute_evidence_digest (evidence_payload : list (string * json)) : string :=
  sha256_hex (dumps (JObj evidence_payload)).

Definition str_list (l : list string) : json := JList (map JStr l).

(** [outcome.rule_version or 1] *)
Definition version_or_1 (o : PolicyOutcome) : Z := default 1 (int_or (po_rule_version o) (Some 1)).

Definition clause_hash_of (o : PolicyOutcome) : string :=
  str_or (po_clause_sha256 o) (_clause_hash (po_rule_id o)).

(** The case id goes on the rows that await review. *)
Definition review_id (result : EvaluationResult) (er : EvaluationOutcome) : option string :=
  match er with HITL_REVIEW => hitl_case_id result | _ => None end.

Definition _explanation_texts (o : PolicyOutcome) : list string :=
  match violations o with [] => [] | _ => map le_headline (explain_policy_outcome_deterministic o "sebi") end.

Definition outcome_evidence (t : TransactionPayload) (result : EvaluationResult) (o : PolicyOutcome)
  : list (string * json) :=
  let er := _outcome_result o in
  [ ("transaction_id", JStr (tx_transaction_id t));
    ("transaction_input_digest", JStr (compute_transaction_digest t));
    ("rule_id", JStr (po_rule_id o));
    ("rule_version", JInt (version_or_1 o));
    ("policy_sha256", opt_str (po_policy_sha256 o));
    ("package", JStr (po_package o));
    ("circular_id", JStr (str_or (po_circular_number o) "unknown"));
    ("section_reference", JStr (str_or (po_clause_number o) "unscoped"));
    ("clause_sha256", JStr (clause_hash_of o));
    ("source_document_sha256", opt_str (po_source_document_sha256 o));
    ("extracted_text_sha256", opt_str (po_extracted_text_sha256 o));
    ("canonical_facts_digest", opt_str (po_canonical_facts_digest o));
    ("evaluation_result", JStr (outcome_value er));
    ("violations", str_list (violations o));
    ("decision", JStr (decision_value (decision result)));
    ("hitl_case_id", opt_str (review_id result er)) ].

Definition outcome_details (t : TransactionPayload) (result : EvaluationResult) (o : PolicyOutcome)
  : json :=
  JObj
    [ ("violations", str_list (violations o));
      ("package", JStr (po_package o));
      ("transaction_decision", JStr (decision_value (decision result)));
      ("explanation", str_list (_explanation_texts o));
      ("entity_type", JStr (entity_type t));
      ("facts", JObj (facts t));
      ("transaction_input_digest", JStr (compute_transaction_digest t));
      ("rule_version", JInt (version_or_1 o));
      ("policy_sha256", opt_str (po_policy_sha256 o));
      ("canonical_facts_digest", opt_str (po_canonical_facts_digest o));
      ("source_document_sha256", opt_str (po_source_document_sha256 o));
      ("extracted_text_sha256", opt_str (po_extracted_text_sha256 o));
      ("clause_sha256", JStr (clause_hash_of o));
      ("evidence_digest", JStr (compute_evidence_digest (outcome_evidence t result o))) ].

(** The event of one matched policy; the constructor validates it. *)
Definition outcome_event (t : TransactionPayload) (result : EvaluationResult) (o : PolicyOutcome)
  : res event_error ComplianceEvaluationEvent :=
  let er := _outcome_result o in
  _hitl_review_id_consistency
    {| ev_broker_id := str_or (tx_broker_id t) "unknown";
       ev_transaction_id := tx_transaction_id t;
       ev_evaluated_at := er_evaluated_at result;
       ev_circular_id := str_or (po_circular_number o) "unknown";
       ev_clause_hash := clause_hash_of o;
       ev_section_reference := str_or (po_clause_number o) "unscoped";
       ev_rule_id := po_rule_id o;
       ev_evaluation_result := er;
       ev_hitl_review_id := review_id result er;
       ev_details := outcome_details t result o |}.

Definition synthetic_rule_id (d : Decision) : string :=
  match d with
  | FLAGGED => "GLOBAL/KILL-SWITCH"
  | DENY => "GLOBAL/DENY"
  | ALLOW => "GLOBAL/NO-MATCHING-POLICY"
  end.

(** The event of a transaction without policy outcomes. *)
Definition transaction_event (t : TransactionPayload) (result : EvaluationResult)
  : res event_error ComplianceEvaluationEvent :=
  let rid := synthetic_rule_id (decision result) in
  let er := _decision_result (decision result) in
  let tx_digest := compute_transaction_digest t in
  let evidence :=
    [ ("transaction_id", JStr (tx_transaction_id t));
      ("transaction_input_digest", JStr tx_digest);
      ("rule_id", JStr rid);
      ("evaluation_result", JStr (outcome_value er));
      ("violations", str_list (reasons result));
      ("decision", JStr (decision_value (decision result)));
      ("hitl_case_id", opt_str (hitl_case_id result)) ] in
  _hitl_review_id_consistency
    {| ev_broker_id := str_or (tx_broker_id t) "unknown";
       ev_transaction_id := tx_transaction_id t;
       ev_evaluated_at := er_evaluated_at result;
       ev_circular_id := "unknown";
       ev_clause_hash := _clause_hash rid;
       ev_section_reference := "unscoped";
       ev_rule_id := rid;
       ev_evaluation_result := er;
       ev_hitl_review_id :=
         match decision result with FLAGGED => hitl_case_id result | _ => None end;
       ev_details := JObj
         [ ("decision", JStr (decision_value (decision result)));
           ("reasons", str_list (reasons result));
           ("transaction_input_digest", JStr tx_digest);
           ("evidence_digest", JStr (compute_evidence_digest evidence)) ] |}.

Definition build_ledger_events (t : TransactionPayload) (result : EvaluationResult)
  : res event_error (list ComplianceEvaluationEvent) :=
  match matched_policies result with
  | [] => res_bind (transaction_event t result) (λ e, Ok [e])
  | os => res_mapM (outcome_event t result) os
  end.

(** [log_evaluation]: appends what it can; [up] says, append by append, whether
    the database is reachable. *)
Fixpoint append_events (ledger : ledger_table) (es : list ComplianceEvaluationEvent)
    (now : datetime) (up : list bool) : ledger_table :=
  match es with
  | [] => ledger
  | e :: es' =>
      let ledger' :=
        if nth 0 up true then
          match append_entry ledger e now with Ok (l, _) => l | Raise _ => ledger end
        else ledger in
      append_events ledger' es' now (tl up)
  end.

Definition log_evaluation (ledger : ledger_table) (t : TransactionPayload)
    (result : EvaluationResult) (now : datetime) (up : list bool) : res event_error ledger_table :=
  res_bind (build_ledger_events t result) (λ es, Ok (append_events ledger es now up)).
