(* ===== verification/ExecutionFacts.v ===== *)
(** * Evaluation and its audit trail

    The queue of pending cases, the reduction of policy outcomes to a
    decision, the kill switch on the evaluation path, and the ledger rows an
    evaluation leaves. *)
From S2P Require Import Prelude PyStr PyFloat Sha256 Json JsonFacts Datetime Ledger.
From S2P Require Import LedgerFacts ExecModels Policies Governance Execution Integration.

Open Scope string_scope.
Open Scope Z_scope.

(** ** The queue *)

(** The index of pending cases is exact, and cases are stored under their
    ids. *)
Definition queue_inv (q : HITLQueue) : Prop :=
  ∀ id, (id ∈ pending_set q ↔ ∃ c, cases q !! id = Some c ∧ case_status c = PENDING)
      ∧ (∀ c, cases q !! id = Some c → case_id c = id).

Lemma enqueue_inv q t reason ps id now :
  queue_inv q → queue_inv (enqueue q t reason ps id now).1.
Proof.
  intros Hq j. specialize (Hq j) as [Hp Hid]. unfold enqueue. cbn [fst cases pending_set].
  rewrite elem_of_union elem_of_singleton. destruct (decide (j = id)) as [->|Hne].
  - rewrite lookup_insert_eq. split; [naive_solver|]. by intros c [= <-].
  - rewrite lookup_insert_ne //. split; [naive_solver|done].
Qed.

Lemma resolve_inv q id st by_ notes now q' c' :
  queue_inv q → st ≠ PENDING → resolve q id st by_ notes now = Ok (q', c') → queue_inv q'.
Proof.
  unfold resolve, get_case. intros Hq Hst H. destruct (cases q !! id) as [c|] eqn:Ec; [|done].
  case_match; [done|]. injection H as <- <-. intros j. specialize (Hq j) as [Hp Hid].
  cbn [cases pending_set]. rewrite elem_of_difference elem_of_singleton.
  destruct (decide (j = id)) as [->|Hne].
  - rewrite lookup_insert_eq. split; [|by intros c' [= <-]; cbn; apply Hid].
    split; [by intros [_ ?]|]. by intros (c' & [= <-] & Hs).
  - rewrite lookup_insert_ne //. split; [naive_solver|done].
Qed.

(** A case is resolved at most once: resolving a pending case with a final
    status removes it from the pending list, and resolving it again is
    refused, whatever the second decision. *)
Theorem resolve_once q id st by_ notes now q' c' st2 by2 notes2 now2 :
  queue_inv q → st ≠ PENDING → resolve q id st by_ notes now = Ok (q', c') →
  queue_inv q' ∧ (id ∉ pending_set q')
  ∧ resolve q' id st2 by2 notes2 now2 = Raise (AlreadyResolved id st).
Proof.
  intros Hq Hst H. pose proof (resolve_inv _ _ _ _ _ _ _ _ Hq Hst H) as Hq'. split; [done|].
  unfold resolve, get_case in *. destruct (cases q !! id) as [c|] eqn:Ec; [|done].
  case_match; [done|]. injection H as <- <-. cbn [cases pending_set] in *. split.
  - rewrite elem_of_difference elem_of_singleton. by intros [_ ?].
  - rewrite lookup_insert_eq. cbn [case_status]. by rewrite bool_decide_eq_false_2.
Qed.

(** [list_pending] returns exactly the cases that await a decision, oldest
    first. *)
Theorem list_pending_exact q c :
  queue_inv q →
  (c ∈ list_pending q ↔ cases q !! case_id c = Some c ∧ case_status c = PENDING)
  ∧ StronglySorted (λ a b, utc_us (case_created_at a) <= utc_us (case_created_at b)) (list_pending q).
Proof.
  intros Hq. split; [|apply (merge_sort_key_sorted (λ c, utc_us (case_created_at c)))].
  unfold list_pending. rewrite merge_sort_Permutation list_elem_of_omap. setoid_rewrite elem_of_elements.
  unfold get_case. split.
  - intros (id & Hin & Hc). destruct (Hq id) as [Hp Hid]. apply Hp in Hin as (c' & Hc' & Hs).
    rewrite Hc in Hc'. injection Hc' as <-. by rewrite (Hid c Hc).
  - intros [Hc Hs]. exists (case_id c). split; [|done]. destruct (Hq (case_id c)) as [Hp _]. apply Hp. eauto.
Qed.

(** ** Reduction *)
Definition has_violation (o : PolicyOutcome) : bool :=
  match violations o with [] => false | _ => true end.
Definition undefined (o : PolicyOutcome) : bool := match allow o with None => true | _ => false end.

Lemma flat_map_violations os :
  flat_map violations os = [] ↔ existsb has_violation os = false.
Proof.
  induction os as [|o os IH]; cbn; [done|]. unfold has_violation at 1.
  rewrite app_nil orb_false_iff IH. destruct (violations o); naive_solver.
Qed.

Lemma filter_undefined os :
  map po_rule_id (List.filter (λ o, match allow o with None => true | _ => false end) os) = []
  ↔ existsb undefined os = false.
Proof.
  induction os as [|o os IH]; cbn; [done|]. unfold undefined at 1. destruct (allow o); [exact IH|by split].
Qed.

Lemma reduce_decision os :
  (_reduce os).1 =
  (if existsb has_violation os then DENY else if existsb undefined os then FLAGGED else ALLOW).
Proof.
  unfold _reduce. destruct (flat_map violations os) as [|v vs] eqn:Ev.
  - apply flat_map_violations in Ev. rewrite Ev.
    destruct (map po_rule_id _) as [|u us] eqn:Eu.
    + apply filter_undefined in Eu. by rewrite Eu.
    + destruct (existsb undefined os) eqn:E; [done|]. apply filter_undefined in E. congruence.
  - destruct (existsb has_violation os) eqn:E; [done|]. apply flat_map_violations in E. congruence.
Qed.

(** The decision is the most restrictive one supported by the outcomes:
    denied exactly when some policy reports a violation, flagged exactly when
    none does but some policy could not be evaluated, allowed otherwise; the
    reasons of a denial are all the violations. *)
Theorem reduce_spec os :
  (_reduce os).1 =
    (if existsb has_violation os then DENY else if existsb undefined os then FLAGGED else ALLOW)
  ∧ ((_reduce os).1 = DENY → (_reduce os).2 = flat_map violations os)
  ∧ ((_reduce os).1 = ALLOW → (_reduce os).2 = []).
Proof.
  split; [apply reduce_decision|]. unfold _reduce.
  destruct (flat_map violations os); [|done]. by destruct (map po_rule_id _).
Qed.

(** ** The evaluator *)
Section evaluator.
Context {S : Type} `{PolicyLookup S}.
Context (opa : string → json → opa_reply).

(** C10. An active kill switch halts automated evaluation: the transaction is
    flagged, a case is opened and pending, no policy is looked up and OPA is
    not consulted (the result is the same for every OPA). *)
Theorem kill_switch_halts_evaluation k lookup q t clock now id :
  is_active_for k (tx_broker_id t) = true → queue_inv q →
  ∃ q' c, evaluate_transaction opa (Some k) lookup q t clock now id
          = (lookup, q', EvalResult (tx_transaction_id t) FLAGGED [] [kill_switch_reason] (Some id) now)
        ∧ queue_inv q' ∧ cases q' !! id = Some c ∧ case_status c = PENDING ∧ case_transaction c = t.
Proof.
  intros Hk Hq. unfold evaluate_transaction. rewrite Hk. cbn.
  eexists _, _. split; [reflexivity|]. split; [by apply (enqueue_inv q t kill_switch_reason [] id now)|].
  cbn [cases]. rewrite lookup_insert_eq. done.
Qed.

(** The outcomes an evaluation records when the kill switch is off. *)
Definition outcomes_for (t : TransactionPayload) (ps : list policy_entry) : list PolicyOutcome :=
  map (λ e, outcome_of e (opa (pe_package e) (input_document t))) ps.

Lemma evaluate_unfold k lookup q t clock now id :
  match k with Some k => is_active_for k (tx_broker_id t) | None => false end = false →
  let ps := (policies_for clock (entity_type t) lookup).2 in
  let r := (evaluate_transaction opa k lookup q t clock now id).2 in
  let q' := (evaluate_transaction opa k lookup q t clock now id).1.2 in
  matched_policies r = outcomes_for t ps
  ∧ decision r = (_reduce (outcomes_for t ps)).1
  ∧ er_transaction_id r = tx_transaction_id t
  ∧ hitl_case_id r = (if bool_decide (decision r = FLAGGED) then Some id else None)
  ∧ (queue_inv q → queue_inv q')
  ∧ (decision r = FLAGGED → ∃ c, cases q' !! id = Some c ∧ case_status c = PENDING ∧ case_transaction c = t).
Proof.
  intros Hk. unfold evaluate_transaction. rewrite Hk. cbv zeta.
  destruct (policies_for clock (entity_type t) lookup) as [lookup' ps]. cbn [snd].
  destruct ps as [|p ps]; [by cbn|]. fold (outcomes_for t (p :: ps)).
  destruct (_reduce (outcomes_for t (p :: ps))) as [d rs]. cbn [fst].
  destruct d; try by cbn. cbn [enqueue fst snd matched_policies decision er_transaction_id hitl_case_id].
  rewrite bool_decide_eq_true_2 //. split_and!; try done.
  - intros Hq. by apply (enqueue_inv q t _ (outcomes_for t (p :: ps)) id now).
  - intros _. cbn [cases case_id]. eexists. by rewrite lookup_insert_eq.
Qed.

End evaluator.

(** ** The audit trail of an evaluation *)

(** A result whose case id is set exactly when it is flagged, as the evaluator
    produces it. *)
Definition result_wf (r : EvaluationResult) : Prop :=
  (decision r = FLAGGED ↔ truthy (hitl_case_id r) = true)
  ∧ (hitl_case_id r = None ∨ decision r = FLAGGED).

(** The validator accepts an event exactly when the review id is present on
    the rows under review and only there. *)
Lemma consistency_ok e :
  (ev_evaluation_result e = HITL_REVIEW ↔ truthy (ev_hitl_review_id e) = true) →
  _hitl_review_id_consistency e = Ok e.
Proof.
  unfold _hitl_review_id_consistency. intros H.
  destruct (truthy (ev_hitl_review_id e)), (bool_decide_reflect (ev_evaluation_result e = HITL_REVIEW)); cbn;
    try reflexivity; exfalso; naive_solver.
Qed.

Lemma outcome_event_ok t r o :
  result_wf r → undefined o = false ∨ decision r = FLAGGED →
  ∃ e, outcome_event t r o = Ok e ∧ ev_rule_id e = po_rule_id o
     ∧ ev_evaluation_result e = _outcome_result o ∧ ev_transaction_id e = tx_transaction_id t.
Proof.
  intros [Hf Hn] Hu. unfold outcome_event. cbv zeta. rewrite consistency_ok.
  - eexists. split; [reflexivity|]. split; [reflexivity|]. split; reflexivity.
  - cbn [ev_evaluation_result ev_hitl_review_id]. unfold undefined, _outcome_result in *.
    destruct (allow o) as [[]|]; cbn [review_id truthy]; [by split|by split|].
    destruct Hu as [?|Hd]; [done|]. apply Hf in Hd. by rewrite Hd.
Qed.

Lemma outcome_event_raises t r o :
  result_wf r → undefined o = true → decision r ≠ FLAGGED →
  outcome_event t r o = Raise HitlReviewIdRequired.
Proof.
  intros [Hf Hn] Hu Hd. unfold outcome_event, _hitl_review_id_consistency. cbv zeta. cbn.
  unfold undefined, _outcome_result in *. destruct (allow o); [done|]. cbn.
  destruct (truthy (hitl_case_id r)); [|done]. by destruct Hd; apply Hf.
Qed.

Lemma transaction_event_ok t r :
  result_wf r → ∃ e, transaction_event t r = Ok e ∧ ev_transaction_id e = tx_transaction_id t
    ∧ ev_evaluation_result e = _decision_result (decision r).
Proof.
  intros [Hf Hn]. unfold transaction_event. cbv zeta. rewrite consistency_ok.
  - eexists. split; [reflexivity|]. split; reflexivity.
  - cbn [ev_evaluation_result ev_hitl_review_id].
    destruct (decision r) eqn:Ed; cbn [_decision_result truthy]; [by split|by split|].
    by rewrite (proj1 Hf eq_refl).
Qed.

(** Every evaluation is recorded: from an evaluation the ledger gets at
    least one event, one per matched policy with that policy's rule id and
    verdict (pass, fail or review) or a single one for the transaction when no
    policy matched, provided no policy was left undefined in a transaction
    that is not flagged. *)
Theorem build_ledger_events_complete t r :
  result_wf r → (existsb undefined (matched_policies r) = true → decision r = FLAGGED) →
  ∃ es, build_ledger_events t r = Ok es ∧ es ≠ []
     ∧ (matched_policies r ≠ [] →
        map ev_rule_id es = map po_rule_id (matched_policies r)
        ∧ map ev_evaluation_result es = map _outcome_result (matched_policies r)).
Proof.
  intros Hwf Hu. unfold build_ledger_events. destruct (matched_policies r) as [|o os] eqn:Em.
  - destruct (transaction_event_ok t r Hwf) as (e & -> & _). exists [e].
    split; [reflexivity|]. split; [discriminate|]. intros []. reflexivity.
  - set (l := o :: os) in *. assert (Hl : ∀ x, x ∈ l → undefined x = false ∨ decision r = FLAGGED).
    { intros x Hx. destruct (undefined x) eqn:E; [right|by left]. apply Hu, existsb_true_elem. by exists x. }
    assert (∃ es, res_mapM (outcome_event t r) l = Ok es
      ∧ map ev_rule_id es = map po_rule_id l ∧ map ev_evaluation_result es = map _outcome_result l)
      as (es & -> & H1 & H2).
    { clear Em Hu. clearbody l. induction l as [|x l IH]; [by exists []|].
      destruct (outcome_event_ok t r x Hwf (Hl x (list_elem_of_here _ _))) as (e & He & Hr & Hv & _).
      destruct IH as (es & Hes & H1 & H2); [by intros y Hy; apply Hl; right|].
      exists (e :: es). cbn. rewrite He. cbn. rewrite Hes. cbn. by rewrite H1 H2 Hr Hv. }
    exists es. split; [done|]. split; [|done]. intros ->. subst l. discriminate H1.
Qed.

(** A denial next to an undefined policy is not recorded: when one policy
    reports a violation and another could not be evaluated, the decision is a
    denial without a case id, the event of the undefined policy fails
    validation, and no event at all is built. *)
Theorem deny_with_undefined_not_logged t r o :
  result_wf r → decision r = DENY → o ∈ matched_policies r → undefined o = true →
  build_ledger_events t r = Raise HitlReviewIdRequired.
Proof.
  intros Hwf Hd Ho Hu. unfold build_ledger_events.
  destruct (matched_policies r) as [|x l]; [by apply not_elem_of_nil in Ho|].
  set (os := x :: l) in *. clearbody os.
  induction os as [|y os IH]; [by apply not_elem_of_nil in Ho|]. cbn [res_mapM].
  destruct (undefined y) eqn:Ey.
  - rewrite outcome_event_raises //. congruence.
  - destruct (outcome_event_ok t r y Hwf (or_introl Ey)) as (e & -> & _). cbn [res_bind].
    apply elem_of_cons in Ho as [->|Ho]; [congruence|]. by rewrite (IH Ho).
Qed.

(** ** Appending the events *)
Lemma append_events_chain ledger es now :
  chain_ok ledger →
  chain_ok (append_events ledger es now [])
  ∧ fields <$> rows (append_events ledger es now [])
    = ((fields <$> rows ledger) ++ (model_dump <$> es))%list.
Proof.
  revert ledger. induction es as [|e es IH]; intros ledger Hc; cbn [append_events]; [by rewrite app_nil_r|].
  destruct (append_ok ledger e now Hc) as (r & Ha & Hc' & Hf & _). cbn [nth tl]. rewrite Ha.
  destruct (IH _ Hc') as [Hc2 Hf2]. split; [done|].
  rewrite Hf2. cbn [rows]. rewrite fmap_app -app_assoc. cbn. by rewrite Hf.
Qed.

(** Evaluation and logging compose: logging an evaluation on an intact,
    reachable ledger leaves an intact ledger whose new rows are exactly the
    events of the evaluation, in order, after all earlier rows. *)
Theorem log_evaluation_records ledger t r now es :
  chain_ok ledger → build_ledger_events t r = Ok es →
  ∃ ledger', log_evaluation ledger t r now [] = Ok ledger'
    ∧ chain_ok ledger'
    ∧ fields <$> rows ledger' = ((fields <$> rows ledger) ++ (model_dump <$> es))%list.
Proof.
  intros Hc He. unfold log_evaluation. rewrite He. cbn [res_bind]. eexists. split; [done|].
  by apply append_events_chain.
Qed.

(** What the evaluator produces is well formed. *)
Lemma evaluate_result_wf {S} `{PolicyLookup S} opa k lookup q t clock now id :
  id ≠ "" → result_wf (evaluate_transaction opa k lookup q t clock now id).2.
Proof.
  intros Hid. apply String.eqb_neq in Hid.
  destruct (match k with Some k => is_active_for k (tx_broker_id t) | None => false end) eqn:Ek.
  - unfold evaluate_transaction, result_wf. rewrite Ek. cbn. rewrite Hid. naive_solver.
  - destruct (evaluate_unfold opa k lookup q t clock now id Ek) as (_ & _ & _ & Hh & _).
    unfold result_wf. rewrite Hh. case_bool_decide as Hd; cbn; [rewrite Hid; naive_solver|].
    split; [|by left]. split; [done|discriminate].
Qed.

(** ** Concrete evaluations *)
Definition sample_tx : TransactionPayload :=
  Transaction "TX-1" "Stockbroker" [("upfront_margin_pct", JInt 25)] REST_SYNC (Some "BRK-1") None noon_utc [].
Definition two_policies : registry :=
  register (register ∅ (PolicyEntry "r1" "p1" 1 None None) []) (PolicyEntry "r2" "p2" 1 None None) [].
Definition opa_says (a b : opa_reply) (package : string) (_ : json) : opa_reply :=
  if String.eqb package "p1" then a else b.
Definition verdict_of (ok : bool) (vs : list string) : opa_reply :=
  OpaResult (OpaDecision ok vs (Some "SEBI/1") (Some "4.1") (Some 1) None None None None (Some "ab12")).
Definition run_eval (a b : opa_reply) : registry * HITLQueue * EvaluationResult :=
  evaluate_transaction (opa_says a b) None two_policies (Queue ∅ ∅) sample_tx 0 noon_utc "case-1".

Lemma empty_queue_inv : queue_inv (Queue ∅ ∅).
Proof.
  intros j. cbn [cases pending_set]. rewrite lookup_empty. split; [|done].
  split; [set_solver|naive_solver].
Qed.

(** A failed policy without violations does not deny: when OPA answers
    [allow = false] with no violation (as a compiled module does for a missing
    fact or an entity it does not cover), the transaction is allowed, while
    the ledger row of that policy says FAIL. *)
Theorem failed_policy_is_allowed :
  decision (run_eval (verdict_of false []) (verdict_of true [])).2 = ALLOW
  ∧ (map ev_evaluation_result <$>
       match build_ledger_events sample_tx (run_eval (verdict_of false []) (verdict_of true [])).2 with
       | Ok es => Some es | Raise _ => None end) = Some [FAIL; PASS].
Proof. split; vm_compute; reflexivity. Qed.

Lemma deny_with_undefined_witness :
  build_ledger_events sample_tx (run_eval (verdict_of false ["low margin"]) OpaUndefined).2
  = Raise HitlReviewIdRequired.
Proof.
  apply (deny_with_undefined_not_logged sample_tx _
    (outcome_of (PolicyEntry "r2" "p2" 1 None None) OpaUndefined)).
  - apply evaluate_result_wf. discriminate.
  - vm_compute. reflexivity.
  - apply list_elem_of_In. vm_compute. tauto.
  - reflexivity.
Defined.

Lemma build_ledger_events_witness :
  ∃ es, build_ledger_events sample_tx (run_eval (verdict_of true []) OpaUndefined).2 = Ok es ∧ es ≠ []
     ∧ (matched_policies (run_eval (verdict_of true []) OpaUndefined).2 ≠ [] →
        map ev_rule_id es = map po_rule_id (matched_policies (run_eval (verdict_of true []) OpaUndefined).2)
        ∧ map ev_evaluation_result es
          = map _outcome_result (matched_policies (run_eval (verdict_of true []) OpaUndefined).2)).
Proof.
  apply build_ledger_events_complete; [apply evaluate_result_wf; discriminate|].
  intros _. vm_compute. reflexivity.
Defined.

Definition sample_events : list ComplianceEvaluationEvent :=
  match build_ledger_events sample_tx (run_eval (verdict_of true []) OpaUndefined).2 with
  | Ok es => es | Raise _ => [] end.

Lemma log_evaluation_witness :
  ∃ ledger', log_evaluation (Table [] 1) sample_tx (run_eval (verdict_of true []) OpaUndefined).2
               noon_utc [] = Ok ledger'
    ∧ chain_ok ledger'
    ∧ fields <$> rows ledger' = ((fields <$> rows (Table [] 1)) ++ (model_dump <$> sample_events))%list.
Proof. apply log_evaluation_records; [exact I|]. vm_compute. reflexivity. Defined.

Lemma kill_switch_evaluation_witness :
  ∃ q' c, evaluate_transaction (opa_says OpaFailure OpaFailure) (Some (store alarmed)) two_policies (Queue ∅ ∅)
            sample_tx 0 noon_utc "case-1"
          = (two_policies, q', EvalResult "TX-1" FLAGGED [] [kill_switch_reason] (Some "case-1") noon_utc)
        ∧ queue_inv q' ∧ cases q' !! "case-1" = Some c ∧ case_status c = PENDING ∧ case_transaction c = sample_tx.
Proof.
  apply (kill_switch_halts_evaluation (opa_says OpaFailure OpaFailure) (store alarmed) two_policies (Queue ∅ ∅) sample_tx);
    [vm_compute; reflexivity|exact empty_queue_inv].
Defined.


Definition one_case : HITLQueue := (enqueue (Queue ∅ ∅) sample_tx "why" [] "case-1" noon_utc).1.
Definition done_queue : HITLQueue :=
  match resolve one_case "case-1" HITL_APPROVED "officer" None noon_utc with Ok (q, _) => q | Raise _ => one_case end.
Definition done_case : HITLCase :=
  match resolve one_case "case-1" HITL_APPROVED "officer" None noon_utc with
  | Ok (_, c) => c | Raise _ => (enqueue (Queue ∅ ∅) sample_tx "why" [] "case-1" noon_utc).2 end.

Lemma resolve_once_witness :
  queue_inv done_queue ∧ ("case-1" ∉ pending_set done_queue)
  ∧ resolve done_queue "case-1" HITL_REJECTED "other" None noon_utc = Raise (AlreadyResolved "case-1" HITL_APPROVED).
Proof.
  apply (resolve_once one_case "case-1" HITL_APPROVED "officer" None noon_utc done_queue done_case).
  - apply (enqueue_inv (Queue ∅ ∅) sample_tx "why" [] "case-1" noon_utc empty_queue_inv).
  - discriminate.
  - vm_compute. reflexivity.
Defined.

Lemma list_pending_witness :
  (done_case ∈ list_pending one_case ↔ cases one_case !! case_id done_case = Some done_case ∧ case_status done_case = PENDING)
  ∧ StronglySorted (λ a b, utc_us (case_created_at a) <= utc_us (case_created_at b)) (list_pending one_case).
Proof.
  apply list_pending_exact.
  apply (enqueue_inv (Queue ∅ ∅) sample_tx "why" [] "case-1" noon_utc empty_queue_inv).
Defined.

(** A batch summary accounts for every transaction once. *)
Theorem batch_summary_counts b rs :
  let s := batch_summary b rs in
  allowed s + denied s + flagged s = total s ∧ 0 <= allowed s ∧ 0 <= denied s ∧ 0 <= flagged s.
Proof.
  cbv zeta. unfold batch_summary, count_decision. cbn [allowed denied flagged total].
  split; [|lia]. induction rs as [|r rs IH]; [done|]. cbn [List.filter length].
  destruct (decision r); cbn [bool_decide]; repeat case_bool_decide; try done; cbn [length]; lia.
Qed.
