(* ===== verification/Negotiation.v ===== *)
(** * Multi-agent negotiation: [src/app/negotiation/]

    Domain agents vote on the outcomes of the policies in their scope
    ([agents.py]), weighted votes are tallied over bounded rounds
    ([consensus.py]), a deadlock goes to the arbiter ([arbiter.py]) and from
    there to the human review queue ([orchestrator.py]); every step is written
    to a transcript ([telemetry.py]).  Clocks, uuids and the failures of the
    transcript's Redis are arguments. *)
From S2P Require Import Prelude PyStr PyFloat Json Datetime ExecModels Policies Governance Execution.
From Stdlib Require Import SpecFloat.

Open Scope string_scope.
Open Scope Z_scope.

(** ** [models.py] *)
Inductive NegotiationStatus := CONSENSUS | ARBITRATED | ESCALATED_TO_HITL.

#[export] Instance NegotiationStatus_eq_dec : EqDecision NegotiationStatus.
Proof. solve_decision. Defined.

Definition negotiation_value (s : NegotiationStatus) : string :=
  match s with
  | CONSENSUS => "consensus" | ARBITRATED => "arbitrated" | ESCALATED_TO_HITL => "escalated_to_hitl"
  end.

Record AgentVerdict := Verdict
  { av_agent_key : string
  ; av_domain : string
  ; av_decision : Decision
  ; av_confidence : spec_float
  ; av_weight : spec_float
  ; av_cited_circular_number : option string
  ; av_cited_clause_number : option string
  ; av_rationale : string
  ; av_matched_rule_ids : list string }.

(** A number per decision, in the order of the enumeration. *)
Record by_decision := ByDecision { on_allow : spec_float; on_deny : spec_float; on_flagged : spec_float }.

Definition of_decision (b : by_decision) (d : Decision) : spec_float :=
  match d with ALLOW => on_allow b | DENY => on_deny b | FLAGGED => on_flagged b end.

Record WeightedVoteTally := Tally
  { weighted_share : by_decision
  ; leading_decision : Decision
  ; leading_share : spec_float
  ; unanimous : bool }.

Record NegotiationRound := Round
  { nr_round_number : Z
  ; nr_verdicts : list AgentVerdict
  ; nr_tally : WeightedVoteTally
  ; nr_consensus_reached : bool
  ; nr_dissenting_agents : list string }.

Inductive ConflictReasoningNode := Node
  (claim : string) (supporting_agent_key supporting_circular_number supporting_clause_number : option string)
  (evidence_confidence : option spec_float) (children : list ConflictReasoningNode).

Record ArbiterResolution := Resolution
  { resolved_decision : Decision
  ; justification : string
  ; precedence_rule : string
  ; ar_cited_circular_number : option string
  ; ar_cited_clause_number : option string
  ; overridden_agent_keys : list string
  ; winning_confidence : spec_float }.

Record NegotiationResult := NegResult
  { negotiation_id : string
  ; nres_transaction_id : string
  ; nres_status : NegotiationStatus
  ; final_decision : Decision
  ; nres_rounds : list NegotiationRound
  ; arbiter_resolution : option ArbiterResolution
  ; reasoning_tree : option ConflictReasoningNode
  ; nres_hitl_case_id : option string
  ; nres_started_at : datetime
  ; nres_completed_at : option datetime }.

(** ** [agents.py] *)
Definition zero : spec_float := float_of_Z 0.

(** The class attributes of an agent.  A verdict validates its weight, so that
    an agent whose weight is not positive cannot vote. *)
Record DomainAgent := Agent
  { agent_key : string
  ; domain : string
  ; weight : spec_float
  ; domain_keywords : list string
  ; weight_positive : flt_ltb zero weight = true }.

Definition _NEGOTIATION_CONCESSION_DELTA : spec_float := decimal 35 2.
Definition _MIN_CONFIDENCE_AFTER_CONCESSION : spec_float := decimal 5 2.

Definition spaced : string → string := replace_char "-" " ".

Definition _outcome_text (o : PolicyOutcome) : string :=
  spaced (replace_char "_" " " (lower (po_package o +:+ " " +:+ join " " (violations o)))).

Section agent.
Context (self : DomainAgent).

Definition _is_in_scope (o : PolicyOutcome) : bool :=
  existsb (λ keyword, contains (spaced keyword) (_outcome_text o)) (domain_keywords self).

Definition scoped_outcomes (policy_outcomes : list PolicyOutcome) : list PolicyOutcome :=
  List.filter _is_in_scope policy_outcomes.

(** [next((o for o in scoped if o.circular_number), scoped[0])] *)
Definition cited_outcome (first : PolicyOutcome) (scoped : list PolicyOutcome) : PolicyOutcome :=
  default first (find (λ o, truthy (po_circular_number o)) scoped).

(** [first] is [scoped[0]]. *)
Definition _reduce_scoped_outcomes (t : TransactionPayload) (first : PolicyOutcome) (scoped : list PolicyOutcome)
  : AgentVerdict :=
  let msgs := List.flat_map violations scoped in
  let matched := map po_rule_id scoped in
  let cited := cited_outcome first scoped in
  let undefined := List.filter (λ o, bool_decide (allow o = None)) scoped in
  let verdict d confidence rationale :=
    Verdict (agent_key self) (domain self) d confidence (weight self)
      (po_circular_number cited) (po_clause_number cited) rationale matched in
  match msgs, undefined with
  | _ :: _, _ => verdict DENY (decimal 9 1) (join "; " msgs)
  | [], _ :: _ =>
      verdict FLAGGED (decimal 4 1)
        (str_of_Z (Z.of_nat (length undefined))
         +:+ " in-domain polic(ies) returned an undefined result for transaction " +:+ tx_transaction_id t +:+ ".")
  | [], [] =>
      verdict ALLOW (decimal 85 2)
        ("All " +:+ str_of_Z (Z.of_nat (length scoped)) +:+ " in-domain polic(ies) passed for transaction "
         +:+ tx_transaction_id t +:+ ".")
  end.

(** The vote of another agent that outranks this one's. *)
Definition stronger (d : Decision) (other : AgentVerdict) : bool :=
  negb (String.eqb (av_agent_key other) (agent_key self))
  && bool_decide (av_decision other = DENY)
  && bool_decide (av_decision other ≠ d)
  && flt_leb (weight self) (av_weight other)
  && bool_decide (is_Some (av_cited_circular_number other)).

(** [max(a, b)] keeps [a] unless [b] is greater. *)
Definition float_max (a b : spec_float) : spec_float := if flt_ltb a b then b else a.

Definition _apply_negotiation_pressure (v : AgentVerdict) (prior_round : option NegotiationRound) : AgentVerdict :=
  match prior_round with
  | None => v
  | Some r =>
      if existsb (stronger (av_decision v)) (nr_verdicts r) then
        Verdict (av_agent_key v) (av_domain v) (av_decision v)
          (float_max _MIN_CONFIDENCE_AFTER_CONCESSION
             (float_sub (av_confidence v) _NEGOTIATION_CONCESSION_DELTA))
          (av_weight v) (av_cited_circular_number v) (av_cited_clause_number v)
          (av_rationale v +:+ " [Confidence reduced: a higher-or-equal-weight agent cited a specific SEBI clause for DENY in the prior round.]")
          (av_matched_rule_ids v)
      else v
  end.

Definition agent_evaluate (t : TransactionPayload) (policy_outcomes : list PolicyOutcome)
    (prior_round : option NegotiationRound) : option AgentVerdict :=
  match scoped_outcomes policy_outcomes with
  | [] => None
  | first :: scoped =>
      Some (_apply_negotiation_pressure (_reduce_scoped_outcomes t first (first :: scoped)) prior_round)
  end.
End agent.

Definition MarginAgent : DomainAgent :=
  Agent "margin_agent" "margin" (decimal 12 1) ["margin"; "mtm"; "mark-to-market"; "collateral"] eq_refl.
Definition RiskDisclosureAgent : DomainAgent :=
  Agent "risk_disclosure_agent" "risk_disclosure" (decimal 10 1)
    ["risk disclosure"; "risk factor"; "disclosure statement"; "disclosure document"] eq_refl.
Definition FundSegregationAgent : DomainAgent :=
  Agent "fund_segregation_agent" "fund_segregation" (decimal 11 1)
    ["segregat"; "client fund"; "client bank account"; "client money"; "commingl"] eq_refl.

(** ** [consensus.py] *)
Definition _DENY_TIE_BREAK_MARGIN : spec_float := decimal 5 2.

Inductive ConsensusState := COLLECTING | CONSENSUS_REACHED | NEGOTIATING | DEADLOCKED.

#[export] Instance ConsensusState_eq_dec : EqDecision ConsensusState.
Proof. solve_decision. Defined.

Definition power (v : AgentVerdict) : spec_float := float_mul (av_weight v) (av_confidence v).

Definition add_power (b : by_decision) (d : Decision) (p : spec_float) : by_decision :=
  match d with
  | ALLOW => ByDecision (float_add (on_allow b) p) (on_deny b) (on_flagged b)
  | DENY => ByDecision (on_allow b) (float_add (on_deny b) p) (on_flagged b)
  | FLAGGED => ByDecision (on_allow b) (on_deny b) (float_add (on_flagged b) p)
  end.

Definition voting_power (verdicts : list AgentVerdict) : by_decision * spec_float :=
  fold_left (λ '(b, total) v, (add_power b (av_decision v) (power v), float_add total (power v)))
    verdicts (ByDecision zero zero zero, zero).

(** [max(share, key=share.get)]: the first of the largest. *)
Definition largest (share : by_decision) : Decision :=
  let best := if flt_ltb (on_allow share) (on_deny share) then DENY else ALLOW in
  if flt_ltb (of_decision share best) (on_flagged share) then FLAGGED else best.

(** [len({v.decision for v in verdicts}) == 1] *)
Definition all_agree (verdicts : list AgentVerdict) : bool :=
  match verdicts with
  | [] => false
  | v :: vs => forallb (λ w, bool_decide (av_decision w = av_decision v)) vs
  end.

Definition tally_votes (verdicts : list AgentVerdict) : WeightedVoteTally :=
  let '(voted, total_power) := voting_power verdicts in
  if flt_eqb total_power zero then Tally (ByDecision zero zero zero) FLAGGED zero false
  else
    let share := ByDecision (float_div (on_allow voted) total_power) (float_div (on_deny voted) total_power)
                   (float_div (on_flagged voted) total_power) in
    let deny_share := on_deny share in
    let lead := largest share in
    let lead :=
      if negb (bool_decide (lead = DENY))
         && flt_ltb (float_sub (of_decision share lead) deny_share) _DENY_TIE_BREAK_MARGIN
         && flt_ltb zero deny_share
      then DENY else lead in
    Tally share lead (of_decision share lead) (all_agree verdicts).

Definition check_consensus (tally : WeightedVoteTally) (threshold : spec_float) : bool :=
  unanimous tally || flt_leb threshold (leading_share tally).

Section engine.
Context (agents : list DomainAgent) (threshold : spec_float).
Context (t : TransactionPayload) (policy_outcomes : list PolicyOutcome).

Definition _collect_verdicts (prior_round : option NegotiationRound) : list AgentVerdict :=
  omap (λ a, agent_evaluate a t policy_outcomes prior_round) agents.

Definition this_round (round_number : Z) (verdicts : list AgentVerdict) : NegotiationRound :=
  let tally := tally_votes verdicts in
  Round round_number verdicts tally (check_consensus tally threshold)
    (map av_agent_key (List.filter (λ v, negb (bool_decide (av_decision v = leading_decision tally))) verdicts)).

(** The loop, [left] rounds before its end. *)
Fixpoint run_from (left : nat) (round_number : Z) (prior_round : option NegotiationRound)
    (rounds : list NegotiationRound) : list NegotiationRound * ConsensusState :=
  match left with
  | O => (rounds, DEADLOCKED)
  | S left' =>
      match _collect_verdicts prior_round with
      | [] => (rounds, DEADLOCKED)
      | verdicts =>
          let r := this_round round_number verdicts in
          if nr_consensus_reached r then ((rounds ++ [r])%list, CONSENSUS_REACHED)
          else run_from left' (round_number + 1) (Some r) (rounds ++ [r])%list
      end
  end.

Definition run (max_rounds : Z) : list NegotiationRound * ConsensusState :=
  run_from (Z.to_nat max_rounds) 1 None [].
End engine.

(** ** [arbiter.py] *)

(** [f"{x:.0%}"] *)
Definition fmt_percent (x : spec_float) : string := before "." (fmt_fixed 0 (float_mul x (float_of_Z 100))) +:+ "%".

Definition py_bool (b : bool) : string := if b then "True" else "False".

Definition agent_node (v : AgentVerdict) : ConflictReasoningNode :=
  Node (av_agent_key v +:+ " voted " +:+ decision_value (av_decision v) +:+ " (confidence="
        +:+ fmt_fixed 2 (av_confidence v) +:+ ", weight=" +:+ fmt_fixed 2 (av_weight v) +:+ "): " +:+ av_rationale v)
    (Some (av_agent_key v)) (av_cited_circular_number v) (av_cited_clause_number v) (Some (av_confidence v)) [].

Definition round_node (r : NegotiationRound) : ConflictReasoningNode :=
  Node ("Round " +:+ str_of_Z (nr_round_number r) +:+ ": leading decision "
        +:+ decision_value (leading_decision (nr_tally r)) +:+ " at " +:+ fmt_percent (leading_share (nr_tally r))
        +:+ " weighted share (consensus_reached=" +:+ py_bool (nr_consensus_reached r) +:+ ")")
    None None None None (map agent_node (nr_verdicts r)).

Definition build_reasoning_tree (rounds : list NegotiationRound) : ConflictReasoningNode :=
  Node "Multi-agent negotiation deadlocked; arbiter cross-examination follows." None None None None
    (map round_node rounds).

(** [max(l, key=...)]: the first element that no later one exceeds. *)
Definition max_by {A} (greater : A → A → bool) (x : A) (l : list A) : A :=
  fold_left (λ best y, if greater y best then y else best) l x.

(** Tuples compare at the first place where they differ. *)
Definition by_float (a b : spec_float) (rest : bool) : bool := if flt_eqb a b then rest else flt_ltb b a.

Definition explicit_greater (v w : AgentVerdict) : bool :=
  by_float (av_weight v) (av_weight w)
    (by_float (av_confidence v) (av_confidence w) (String.ltb (av_agent_key w) (av_agent_key v))).
Definition power_greater (v w : AgentVerdict) : bool :=
  by_float (power v) (power w) (String.ltb (av_agent_key w) (av_agent_key v)).

Definition explicit_deny (v : AgentVerdict) : bool :=
  bool_decide (av_decision v = DENY) && truthy (av_cited_circular_number v) && truthy (av_cited_clause_number v).

Definition _explicit_deny_precedence (final_round : NegotiationRound) : option ArbiterResolution :=
  match List.filter explicit_deny (nr_verdicts final_round) with
  | [] => None
  | v :: vs =>
      let winner := max_by explicit_greater v vs in
      Some (Resolution DENY
        (av_agent_key winner +:+ " cited an explicit regulatory breach at Circular "
         +:+ str_or (av_cited_circular_number winner) "" +:+ ", Clause "
         +:+ str_or (av_cited_clause_number winner) "" +:+ ": " +:+ av_rationale winner
         +:+ ". An explicit, clause-cited DENY overrides confidence-weighted disagreement from other domain agents.")
        "EXPLICIT_DENY_PRECEDENCE" (av_cited_circular_number winner) (av_cited_clause_number winner)
        (List.filter (λ k, negb (String.eqb k (av_agent_key winner))) (map av_agent_key (nr_verdicts final_round)))
        (av_confidence winner))
  end.

(** [max()] of an empty sequence *)
Inductive negotiation_error := MaxOfEmpty.

Section arbiter.
Context (min_confidence : spec_float).

Definition _highest_weight_confidence (final_round : NegotiationRound)
  : res negotiation_error (option ArbiterResolution) :=
  let tally := tally_votes (nr_verdicts final_round) in
  if flt_ltb (leading_share tally) min_confidence then Ok None
  else
    let wins v := bool_decide (av_decision v = leading_decision tally) in
    match List.filter wins (nr_verdicts final_round) with
    | [] => Raise MaxOfEmpty
    | v :: vs =>
        let best := max_by power_greater v vs in
        Ok (Some (Resolution (leading_decision tally)
          ("No single agent cited an explicit clause-grounded breach; " +:+ decision_value (leading_decision tally)
           +:+ " carried " +:+ fmt_percent (leading_share tally)
           +:+ " of weighted voting power in the final round, above the " +:+ fmt_percent min_confidence
           +:+ " confidence bar required for the arbiter to resolve without HITL. Strongest supporting verdict: "
           +:+ av_rationale best)
          "HIGHEST_WEIGHT_CONFIDENCE" (av_cited_circular_number best) (av_cited_clause_number best)
          (map av_agent_key (List.filter (λ v, negb (wins v)) (nr_verdicts final_round)))
          (leading_share tally)))
    end.

Definition arbitrate (rounds : list NegotiationRound) : res negotiation_error (option ArbiterResolution) :=
  match last rounds with
  | None => Ok None
  | Some final_round =>
      match _explicit_deny_precedence final_round with
      | Some r => Ok (Some r)
      | None => _highest_weight_confidence final_round
      end
  end.
End arbiter.

(** ** [telemetry.py] *)
Inductive transcript_record :=
| RoundRecord (r : NegotiationRound)
| OutcomeRecord (status : NegotiationStatus) (decision : Decision) (resolution : option ArbiterResolution)
    (tree : option ConflictReasoningNode) (case_id : option string) (completed_at : option datetime).

Record NegotiationTranscriptStore := Transcript
  { ts_summary : gmap string (gmap string string)
  ; ts_rounds : gmap string (list transcript_record) }.

Definition hset (m : gmap string (gmap string string)) (key : string) (fields : list (string * string))
  : gmap string (gmap string string) :=
  <[key := list_to_map fields ∪ default ∅ (m !! key)]> m.
Definition rpush (m : gmap string (list transcript_record)) (key : string) (r : transcript_record)
  : gmap string (list transcript_record) :=
  <[key := (default [] (m !! key) ++ [r])%list]> m.

(** A pipeline that fails changes nothing and is only logged. *)
Definition record_round (s : NegotiationTranscriptStore) (id : string) (r : NegotiationRound) (now : datetime)
    (fails : bool) : NegotiationTranscriptStore :=
  if fails then s
  else
    Transcript
      (hset (ts_summary s) id
         [ ("last_round", str_of_Z (nr_round_number r));
           ("last_leading_decision", decision_value (leading_decision (nr_tally r)));
           ("last_leading_share", float_repr (leading_share (nr_tally r)));
           ("consensus_reached", py_bool (nr_consensus_reached r));
           ("updated_at", iso_utc (utc_us now)) ])
      (rpush (ts_rounds s) id (RoundRecord r)).

Definition record_outcome (s : NegotiationTranscriptStore) (res : NegotiationResult) (fails : bool)
  : NegotiationTranscriptStore :=
  if fails then s
  else
    let completed := match nres_completed_at res with Some d => iso_utc (utc_us d) | None => "" end in
    Transcript
      (hset (ts_summary s) (negotiation_id res)
         [ ("transaction_id", nres_transaction_id res);
           ("status", negotiation_value (nres_status res));
           ("final_decision", decision_value (final_decision res));
           ("round_count", str_of_Z (Z.of_nat (length (nres_rounds res))));
           ("hitl_case_id", str_or (nres_hitl_case_id res) "");
           ("completed_at", completed) ])
      (rpush (ts_rounds s) (negotiation_id res)
         (OutcomeRecord (nres_status res) (final_decision res) (arbiter_resolution res) (reasoning_tree res)
            (nres_hitl_case_id res) (nres_completed_at res))).

Definition get_summary (s : NegotiationTranscriptStore) (id : string) : option (gmap string string) :=
  match ts_summary s !! id with
  | Some m => if bool_decide (m = ∅) then None else Some m
  | None => None
  end.
Definition get_transcript (s : NegotiationTranscriptStore) (id : string) : list transcript_record :=
  default [] (ts_rounds s !! id).

(** ** [orchestrator.py] *)
Definition should_negotiate (policy_outcomes : list PolicyOutcome) (agents : list DomainAgent) : bool :=
  let domains := map domain (List.filter (λ a, match scoped_outcomes a policy_outcomes with [] => false | _ => true end) agents) in
  Nat.leb 2 (length (remove_dups domains)).

Record negotiation_config := Config
  { cfg_agents : list DomainAgent
  ; cfg_threshold : spec_float
  ; cfg_max_rounds : Z
  ; cfg_min_confidence : spec_float }.

Section orchestrator.
Context (cfg : negotiation_config) (started_at now : datetime).

Definition _consensus_result (id : string) (t : TransactionPayload) (rounds : list NegotiationRound)
  : NegotiationResult :=
  NegResult id (tx_transaction_id t) CONSENSUS
    match last rounds with Some r => leading_decision (nr_tally r) | None => ALLOW end
    rounds None None None started_at None.

Definition deadlock_reason (rounds : list NegotiationRound) : string :=
  "Multi-agent negotiation deadlocked after " +:+ str_of_Z (Z.of_nat (length rounds))
  +:+ " round(s) and the Conflict Arbiter Agent could not confidently resolve it (no explicit clause-cited breach, "
  +:+ "and the leading decision's weighted share fell below the configured confidence bar). "
  +:+ "Routed to human review with the full negotiation transcript.".

Definition _resolve_deadlock (q : HITLQueue) (id : string) (t : TransactionPayload)
    (policy_outcomes : list PolicyOutcome) (rounds : list NegotiationRound) (case_id : string)
  : HITLQueue * res negotiation_error NegotiationResult :=
  match rounds with
  | [] => (q, Ok (NegResult id (tx_transaction_id t) CONSENSUS ALLOW [] None None None started_at None))
  | _ =>
      let tree := build_reasoning_tree rounds in
      match arbitrate (cfg_min_confidence cfg) rounds with
      | Raise e => (q, Raise e)
      | Ok (Some r) =>
          (q, Ok (NegResult id (tx_transaction_id t) ARBITRATED (resolved_decision r) rounds (Some r) (Some tree) None
                    started_at None))
      | Ok None =>
          let (q', case) := enqueue q t (deadlock_reason rounds) policy_outcomes case_id now in
          (q', Ok (NegResult id (tx_transaction_id t) ESCALATED_TO_HITL FLAGGED rounds None (Some tree)
                     (Some (ExecModels.case_id case)) started_at None))
      end
  end.

(** [fails n] tells whether the [n]-th pipeline of the transcript fails. *)
Fixpoint record_rounds (s : NegotiationTranscriptStore) (id : string) (n : Z) (fails : Z → bool)
    (rounds : list NegotiationRound) : NegotiationTranscriptStore :=
  match rounds with
  | [] => s
  | r :: rounds' => record_rounds (record_round s id r now (fails n)) id (n + 1) fails rounds'
  end.

Definition completed (res : NegotiationResult) : NegotiationResult :=
  NegResult (negotiation_id res) (nres_transaction_id res) (nres_status res) (final_decision res)
    (nres_rounds res) (arbiter_resolution res) (reasoning_tree res) (nres_hitl_case_id res)
    (nres_started_at res) (Some now).

Definition negotiate (q : HITLQueue) (s : NegotiationTranscriptStore) (fails : Z → bool) (id case_id : string)
    (t : TransactionPayload) (policy_outcomes : list PolicyOutcome)
  : HITLQueue * NegotiationTranscriptStore * res negotiation_error NegotiationResult :=
  let '(rounds, state) := run (cfg_agents cfg) (cfg_threshold cfg) t policy_outcomes (cfg_max_rounds cfg) in
  let s := record_rounds s id 0 fails rounds in
  let '(q, res) :=
    if bool_decide (state = CONSENSUS_REACHED) then (q, Ok (_consensus_result id t rounds))
    else _resolve_deadlock q id t policy_outcomes rounds case_id in
  match res with
  | Raise e => (q, s, Raise e)
  | Ok r => (q, record_outcome s (completed r) (fails (Z.of_nat (length rounds))), Ok (completed r))
  end.
End orchestrator.

(** The configuration of [config.py]. *)
Definition default_config : negotiation_config :=
  Config [MarginAgent; RiskDisclosureAgent; FundSegregationAgent] (decimal 7 1) 3 (decimal 75 2).
