(* ===== verification/NegotiationFacts.v ===== *)
(** * Negotiation settles, and never waves a violation through

    Stances (who votes what, with which weight and citation) do not change
    between rounds, so that the votes of every round after the second are those
    of the second.  With the configured agents and bars the outcome is checked
    over all ballots up to [similar], the part of a verdict that counts. *)
From S2P Require Import Prelude PyStr PyFloat Json Datetime ExecModels Policies Governance Execution Negotiation.
From Stdlib Require Import SpecFloat.

Open Scope string_scope.
Open Scope Z_scope.

(** ** Stances *)

(** What other agents look at. *)
Definition stance (v : AgentVerdict) : string * Decision * spec_float * option string :=
  (av_agent_key v, av_decision v, av_weight v, av_cited_circular_number v).

Lemma pressure_stance a v prior : stance (_apply_negotiation_pressure a v prior) = stance v.
Proof. destruct prior as [r|]; [|done]. cbn. by destruct (existsb _ _). Qed.

Lemma pressure_stances a v r r' :
  map stance (nr_verdicts r) = map stance (nr_verdicts r') →
  _apply_negotiation_pressure a v (Some r) = _apply_negotiation_pressure a v (Some r').
Proof.
  intros H. unfold _apply_negotiation_pressure.
  assert (∀ d l, existsb (stronger a d) l
                 = existsb (λ '(k, dec, w, c),
                     negb (String.eqb k (agent_key a)) && bool_decide (dec = DENY) && bool_decide (dec ≠ d)
                     && flt_leb (weight a) w && bool_decide (is_Some c)) (map stance l)) as E.
  { intros d l. induction l as [|w l IH]; [done|]. cbn [existsb map]. by rewrite IH. }
  by rewrite !E H.
Qed.

Lemma numbered_cons {A} (f : Z → A) n k :
  map (λ i, f (n + Z.of_nat i)) (seq 0 (S k)) = f n :: map (λ i, f (n + 1 + Z.of_nat i)) (seq 0 k).
Proof.
  cbn [seq map]. rewrite -seq_shift map_map. f_equal; [f_equal; lia|]. apply List.map_ext. intros i. f_equal. lia.
Qed.

Section rounds.
Context (agents : list DomainAgent) (threshold : spec_float).
Context (t : TransactionPayload) (policy_outcomes : list PolicyOutcome).
Notation collect := (_collect_verdicts agents t policy_outcomes).

Lemma evaluate_prior a prior :
  agent_evaluate a t policy_outcomes prior
  = (λ v, _apply_negotiation_pressure a v prior) <$> agent_evaluate a t policy_outcomes None.
Proof. unfold agent_evaluate. by destruct (scoped_outcomes a policy_outcomes). Qed.

Lemma collect_stances prior : map stance (collect prior) = map stance (collect None).
Proof.
  unfold _collect_verdicts. induction agents as [|a l IH]; [done|]. cbn [omap list_omap].
  rewrite (evaluate_prior a prior). destruct (agent_evaluate a t policy_outcomes None); cbn [fmap option_fmap option_map];
    [|done]. cbn [map]. by rewrite pressure_stance IH.
Qed.

Lemma collect_prior r r' :
  map stance (nr_verdicts r) = map stance (nr_verdicts r') → collect (Some r) = collect (Some r').
Proof.
  intros H. unfold _collect_verdicts. induction agents as [|a l IH]; [done|]. cbn [omap list_omap].
  rewrite (evaluate_prior a (Some r)) (evaluate_prior a (Some r')) IH.
  destruct (agent_evaluate a t policy_outcomes None); [|done]. cbn [fmap option_fmap option_map]. by rewrite (pressure_stances a _ r r').
Qed.

Definition first_round : NegotiationRound := this_round threshold 1 (collect None).
(** The votes once every agent has seen the others'. *)
Definition settled_round (n : Z) : NegotiationRound := this_round threshold n (collect (Some first_round)).

Lemma collect_settled r : map stance (nr_verdicts r) = map stance (collect None) → collect (Some r) = collect (Some first_round).
Proof. intros H. by apply collect_prior. Qed.

Lemma collect_empty prior : collect prior = [] ↔ collect None = [].
Proof.
  pose proof (collect_stances prior) as H. split; intros E; rewrite E in H; [symmetry in H|]; by apply map_eq_nil in H.
Qed.

Lemma settled_reached n m : nr_consensus_reached (settled_round n) = nr_consensus_reached (settled_round m).
Proof. done. Qed.

(** The rounds that follow one without consensus. *)
Lemma run_from_settled left n r acc :
  map stance (nr_verdicts r) = map stance (collect None) → collect None ≠ [] →
  run_from agents threshold t policy_outcomes left n (Some r) acc
  = match left with
    | O => (acc, DEADLOCKED)
    | S _ =>
        if nr_consensus_reached (settled_round n) then ((acc ++ [settled_round n])%list, CONSENSUS_REACHED)
        else ((acc ++ map (λ i, settled_round (n + Z.of_nat i)) (seq 0 left))%list, DEADLOCKED)
    end.
Proof.
  intros Hr Hne. revert n r acc Hr. induction left as [|left IH]; intros n r acc Hr; [done|].
  cbn [run_from]. rewrite (collect_settled r Hr).
  destruct (collect (Some first_round)) as [|v vs] eqn:E; [by apply collect_empty in E|].
  rewrite -E. change (this_round threshold n (collect (Some first_round))) with (settled_round n).
  destruct (nr_consensus_reached (settled_round n)) eqn:Ec; [done|].
  rewrite IH; [|apply collect_stances].
  rewrite (settled_reached (n + 1) n) Ec numbered_cons. destruct left as [|left]; [done|]. by rewrite -app_assoc.
Qed.

(** The whole negotiation in closed form. *)
Lemma run_closed m :
  run agents threshold t policy_outcomes m
  = if bool_decide (collect None = []) || (m <=? 0) then ([], DEADLOCKED)
    else if nr_consensus_reached first_round then ([first_round], CONSENSUS_REACHED)
    else if m =? 1 then ([first_round], DEADLOCKED)
    else if nr_consensus_reached (settled_round 2) then ([first_round; settled_round 2], CONSENSUS_REACHED)
    else (first_round :: map (λ i, settled_round (2 + Z.of_nat i)) (seq 0 (Z.to_nat (m - 1))), DEADLOCKED).
Proof.
  unfold run. destruct (Z.leb_spec m 0) as [Hm|Hm].
  { rewrite orb_true_r. by replace (Z.to_nat m) with O by lia. }
  rewrite orb_false_r. replace (Z.to_nat m) with (S (Z.to_nat (m - 1))) by lia. cbn [run_from].
  destruct (collect None) as [|v vs] eqn:E; [done|]. rewrite bool_decide_eq_false_2; [|done]. rewrite -E.
  change (this_round threshold 1 (collect None)) with first_round.
  destruct (nr_consensus_reached first_round) eqn:E1; [done|].
  rewrite run_from_settled; [|done|by rewrite E]. change (1 + 1) with 2.
  destruct (Z.eqb_spec m 1) as [->|H1]; [done|].
  destruct (Z.to_nat (m - 1)) as [|k] eqn:Ek; [lia|]. by destruct (nr_consensus_reached (settled_round 2)).
Qed.
End rounds.

(** Rounds after the second are idle: an agent restarts from its own
    evaluation in every round and looks only at stances, which never change.
    With two rounds or more the negotiation ends in the same state, on the same
    votes and the same tally as with two. *)
Theorem negotiation_settles agents threshold t policy_outcomes m :
  2 <= m →
  let run := run agents threshold t policy_outcomes in
  (run m).2 = (run 2).2
  ∧ nr_verdicts <$> last (run m).1 = nr_verdicts <$> last (run 2).1
  ∧ nr_tally <$> last (run m).1 = nr_tally <$> last (run 2).1.
Proof.
  intros Hm. cbv zeta. rewrite !run_closed. replace (m <=? 0) with false by lia. change (2 <=? 0) with false.
  replace (m =? 1) with false by lia. change (2 =? 1) with false.
  destruct (bool_decide _ || false); [done|]. destruct (nr_consensus_reached (first_round _ _ _ _)); [done|].
  destruct (nr_consensus_reached (settled_round _ _ _ _ 2)); [done|]. split; [done|].
  change (Z.to_nat (2 - 1)) with 1%nat. replace (Z.to_nat (m - 1)) with (S (Z.to_nat (m - 2))) by lia.
  rewrite seq_S map_app. cbn [map fst seq]. rewrite app_comm_cons last_snoc. done.
Qed.

(** ** The part of a verdict that counts *)
Definition similar (v w : AgentVerdict) : Prop :=
  av_agent_key v = av_agent_key w ∧ av_decision v = av_decision w
  ∧ av_confidence v = av_confidence w ∧ av_weight v = av_weight w
  ∧ (av_decision v = DENY → is_Some (av_cited_circular_number v) ↔ is_Some (av_cited_circular_number w))
  ∧ explicit_deny v = explicit_deny w.

Lemma similar_stronger a d v w : similar v w → stronger a d v = stronger a d w.
Proof.
  intros (Hk & Hd & _ & Hw & Hc & _). unfold stronger. rewrite Hk -Hd Hw.
  destruct (decide (av_decision v = DENY)) as [E|E].
  - rewrite (bool_decide_ext _ _ (Hc E)). done.
  - rewrite (bool_decide_eq_false_2 (av_decision v = DENY)); [|done]. by rewrite !andb_false_r.
Qed.

Lemma similar_existsb f l l' :
  (∀ v w, similar v w → f v = f w) → Forall2 similar l l' → existsb f l = existsb f l'.
Proof. intros Hf. induction 1 as [|v w l l' H _ IH]; [done|]. cbn. by rewrite (Hf v w H) IH. Qed.

Lemma similar_pressure a v w r r' :
  similar v w → Forall2 similar (nr_verdicts r) (nr_verdicts r') →
  similar (_apply_negotiation_pressure a v (Some r)) (_apply_negotiation_pressure a w (Some r')).
Proof.
  intros H Hr. unfold _apply_negotiation_pressure. pose proof H as (Hk & Hd & Hc & Hw & H1 & H2).
  rewrite Hd (similar_existsb _ _ _ (λ x y, similar_stronger a _ x y) Hr).
  destruct (existsb _ _); [|done]. rewrite Hd in H1. unfold explicit_deny in H2. rewrite Hd in H2.
  unfold similar. cbn. by rewrite Hc.
Qed.

Lemma similar_power v w : similar v w → power v = power w.
Proof. intros (_ & _ & Hc & Hw & _). unfold power. by rewrite Hc Hw. Qed.

Lemma similar_voting_power l l' : Forall2 similar l l' → voting_power l = voting_power l'.
Proof.
  unfold voting_power. generalize (ByDecision zero zero zero, zero). intros b H. revert b.
  induction H as [|v w l l' H _ IH]; intros [b total]; [done|]. cbn [fold_left].
  rewrite (similar_power v w H). destruct H as (_ & Hd & _). rewrite Hd. apply IH.
Qed.

Lemma similar_all_agree l l' : Forall2 similar l l' → all_agree l = all_agree l'.
Proof.
  destruct 1 as [|v w l l' (_ & Hd & _) H]; [done|]. cbn. rewrite Hd.
  induction H as [|x y l l' (_ & Hx & _) _ IH]; [done|]. cbn. by rewrite Hx IH.
Qed.

#[export] Instance tally_votes_proper : Proper (Forall2 similar ==> eq) tally_votes.
Proof. intros l l' H. unfold tally_votes. by rewrite (similar_voting_power l l' H) (similar_all_agree l l' H). Qed.

(** What is decided by a last round with the votes [l]. *)
Definition arbitrated (min_confidence : spec_float) (l : list AgentVerdict) : res negotiation_error Decision :=
  if existsb explicit_deny l then Ok DENY
  else
    let tally := tally_votes l in
    if flt_ltb (leading_share tally) min_confidence then Ok FLAGGED
    else if existsb (λ v, bool_decide (av_decision v = leading_decision tally)) l then Ok (leading_decision tally)
    else Raise MaxOfEmpty.

(** What is decided when the agents vote [l1] first and [l2] once they have
    seen each other's votes. *)
Definition decided (threshold min_confidence : spec_float) (l1 l2 : list AgentVerdict)
  : res negotiation_error Decision :=
  match l1 with
  | [] => Ok ALLOW
  | _ =>
      if check_consensus (tally_votes l1) threshold then Ok (leading_decision (tally_votes l1))
      else if check_consensus (tally_votes l2) threshold then Ok (leading_decision (tally_votes l2))
      else arbitrated min_confidence l2
  end.

Lemma similar_explicit v w : similar v w → explicit_deny v = explicit_deny w.
Proof. by intros (_ & _ & _ & _ & _ & H). Qed.

Lemma similar_decided threshold min_confidence l1 l1' l2 l2' :
  Forall2 similar l1 l1' → Forall2 similar l2 l2' →
  decided threshold min_confidence l1 l2 = decided threshold min_confidence l1' l2'.
Proof.
  intros H1 H2. unfold decided, arbitrated. rewrite -(tally_votes_proper l1 l1' H1) -(tally_votes_proper l2 l2' H2).
  rewrite (similar_existsb _ _ _ similar_explicit H2).
  rewrite (similar_existsb (λ v, bool_decide (av_decision v = leading_decision (tally_votes l2))) l2 l2'); [|by intros v w (_ & -> & _)|done].
  by destruct H1.
Qed.

Lemma existsb_filter {A} (f : A → bool) l : existsb f l = match List.filter f l with [] => false | _ => true end.
Proof. induction l as [|x l IH]; [done|]. cbn. by destruct (f x). Qed.

Lemma arbitrate_decided min_confidence rounds r :
  last rounds = Some r →
  match arbitrate min_confidence rounds with
  | Raise e => Raise e | Ok None => Ok FLAGGED | Ok (Some x) => Ok (resolved_decision x)
  end = arbitrated min_confidence (nr_verdicts r).
Proof.
  intros H. unfold arbitrate, arbitrated, _explicit_deny_precedence, _highest_weight_confidence. rewrite H !existsb_filter.
  destruct (List.filter explicit_deny (nr_verdicts r)); [|done].
  destruct (flt_ltb _ _); [done|]. by destruct (List.filter _ (nr_verdicts r)).
Qed.

(** The decision of a negotiation with at least two rounds. *)
Lemma negotiate_decision cfg started now q s fails id cid t os :
  2 <= cfg_max_rounds cfg →
  let collect := _collect_verdicts (cfg_agents cfg) t os in
  match (negotiate cfg started now q s fails id cid t os).2 with
  | Ok r => Ok (final_decision r) | Raise e => Raise e
  end = decided (cfg_threshold cfg) (cfg_min_confidence cfg) (collect None)
          (collect (Some (first_round (cfg_agents cfg) (cfg_threshold cfg) t os))).
Proof.
  intros Hm. cbv zeta. unfold negotiate, decided. rewrite run_closed.
  replace (cfg_max_rounds cfg <=? 0) with false by lia. replace (cfg_max_rounds cfg =? 1) with false by lia.
  destruct (_collect_verdicts (cfg_agents cfg) t os None) as [|v vs] eqn:E; [done|].
  rewrite bool_decide_eq_false_2; [|done]. cbn [orb].
  replace (nr_consensus_reached (first_round (cfg_agents cfg) (cfg_threshold cfg) t os))
    with (check_consensus (tally_votes (v :: vs)) (cfg_threshold cfg)) by (unfold first_round; by rewrite E).
  destruct (check_consensus (tally_votes (v :: vs)) _) eqn:E1.
  { cbn. unfold first_round. by rewrite E. }
  set (agreed := check_consensus _ _). change (nr_consensus_reached _) with agreed. destruct agreed; [done|].
  rewrite bool_decide_eq_false_2; [|done].
  replace (Z.to_nat (cfg_max_rounds cfg - 1)) with (S (Z.to_nat (cfg_max_rounds cfg - 2))) by lia.
  rewrite seq_S map_app app_comm_cons. cbn [map].
  set (r := settled_round _ _ _ _ _). set (rounds := (_ ++ [r])%list).
  assert (last rounds = Some r) as Hl by apply last_snoc. 
  change (_collect_verdicts (cfg_agents cfg) t os (Some (first_round (cfg_agents cfg) (cfg_threshold cfg) t os)))
    with (nr_verdicts r).
  rewrite -(arbitrate_decided _ _ _ Hl). unfold _resolve_deadlock.
  destruct rounds as [|r0 rounds'] eqn:Er; [done|]. rewrite -Er.
  by destruct (arbitrate (cfg_min_confidence cfg) rounds) as [[x|]|e].
Qed.

(** ** All ballots *)

(** The verdicts an agent can reach from the outcomes, up to [similar]. *)
Definition ballot (a : DomainAgent) (d : Decision) (confidence : spec_float) (circular clause : option string)
  : AgentVerdict := Verdict (agent_key a) (domain a) d confidence (weight a) circular clause "" [].
Definition ballots (a : DomainAgent) : list AgentVerdict :=
  [ ballot a ALLOW (decimal 85 2) None None; ballot a FLAGGED (decimal 4 1) None None;
    ballot a DENY (decimal 9 1) None None; ballot a DENY (decimal 9 1) (Some "") None;
    ballot a DENY (decimal 9 1) (Some "c") (Some "c") ].

Lemma reduced_ballot a t first scoped :
  ∃ b, b ∈ ballots a ∧ similar (_reduce_scoped_outcomes a t first scoped) b.
Proof.
  unfold _reduce_scoped_outcomes. set (cited := cited_outcome first scoped).
  destruct (List.flat_map violations scoped) as [|m ms]; [destruct (List.filter _ scoped)|].
  - exists (ballot a ALLOW (decimal 85 2) None None). split; [set_solver|done].
  - exists (ballot a FLAGGED (decimal 4 1) None None). split; [set_solver|done].
  - exists (ballot a DENY (decimal 9 1) (match po_circular_number cited with None => None | Some _ =>
              if truthy (po_circular_number cited) && truthy (po_clause_number cited) then Some "c" else Some "" end)
              (if truthy (po_circular_number cited) && truthy (po_clause_number cited) then Some "c" else None)).
    unfold similar, explicit_deny. cbn [av_agent_key av_decision av_confidence av_weight
      av_cited_circular_number av_cited_clause_number ballot].
    destruct (po_circular_number cited) as [[|x c]|], (po_clause_number cited) as [[|y d]|]; cbn;
      (split; [set_solver|]); split_and!; try done; intros _; unfold is_Some; naive_solver.
Qed.

Section ballots.
Context (agents : list DomainAgent) (threshold : spec_float) (t : TransactionPayload) (os : list PolicyOutcome).

(** The votes of the agents, [None] for one that abstains. *)
Definition evaluations : list (option AgentVerdict) := map (λ a, agent_evaluate a t os None) agents.

Definition votes (bs : list (option AgentVerdict)) : list AgentVerdict := omap id bs.
Definition pressed (bs : list (option AgentVerdict)) : list AgentVerdict :=
  votes (zip_with (λ a o,
    (λ v, _apply_negotiation_pressure a v (Some (this_round threshold 1 (votes bs)))) <$> o) agents bs).

Lemma collect_votes : _collect_verdicts agents t os None = votes evaluations.
Proof.
  unfold _collect_verdicts, votes, evaluations. induction agents as [|a l IH]; [done|]. cbn.
  destruct (agent_evaluate a t os None); cbn; by rewrite IH.
Qed.

Lemma collect_pressed :
  _collect_verdicts agents t os (Some (first_round agents threshold t os)) = pressed evaluations.
Proof.
  unfold pressed, first_round. rewrite -collect_votes. set (r := this_round _ _ _). clearbody r.
  unfold _collect_verdicts, votes, evaluations. induction agents as [|a l IH]; [done|].
  cbn [omap list_omap map zip_with]. rewrite (evaluate_prior t os a (Some r)).
  destruct (agent_evaluate a t os None); cbn [fmap option_fmap option_map id]; by rewrite IH.
Qed.

Lemma similar_votes bs bs' : Forall2 (option_Forall2 similar) bs bs' → Forall2 similar (votes bs) (votes bs').
Proof.
  unfold votes. induction 1 as [|o o' bs bs' Ho _ IH]; [constructor|].
  destruct Ho; cbn; [by constructor|done].
Qed.

Lemma similar_pressed bs bs' :
  Forall2 (option_Forall2 similar) bs bs' → Forall2 similar (pressed bs) (pressed bs').
Proof.
  intros H. unfold pressed. pose proof (similar_votes bs bs' H) as Hv.
  set (r := this_round _ _ (votes bs)). set (r' := this_round _ _ (votes bs')).
  assert (Forall2 similar (nr_verdicts r) (nr_verdicts r')) as Hr by done. clearbody r r'. clear Hv.
  apply similar_votes. revert H. generalize agents. intros l H. revert l.
  induction H as [|o o' bs bs' Ho _ IH]; intros [|a l]; try constructor; [|apply IH].
  destruct Ho; cbn; constructor. by apply similar_pressure.
Qed.

Fixpoint all_ballots (l : list DomainAgent) : list (list (option AgentVerdict)) :=
  match l with
  | [] => [[]]
  | a :: l' => List.flat_map (λ o, map (cons o) (all_ballots l')) (None :: map Some (ballots a))
  end.

Lemma evaluation_ballot a :
  ∃ o, In o (None :: map Some (ballots a)) ∧ option_Forall2 similar (agent_evaluate a t os None) o.
Proof.
  unfold agent_evaluate. destruct (scoped_outcomes a os) as [|first scoped].
  - exists None. split; [by left|constructor].
  - destruct (reduced_ballot a t first (first :: scoped)) as (b & Hb & Hs). exists (Some b). split.
    + right. by apply in_map, list_elem_of_In.
    + by constructor.
Qed.

Lemma evaluations_ballots :
  ∃ bs, In bs (all_ballots agents) ∧ Forall2 (option_Forall2 similar) evaluations bs.
Proof.
  unfold evaluations. induction agents as [|a l (bs & Hbs & H)].
  - exists []. split; [by left|constructor].
  - destruct (evaluation_ballot a) as (o & Ho & Hs). exists (o :: bs). split; [|by constructor].
    cbn [all_ballots]. apply in_flat_map. exists o. split; [done|by apply in_map].
Qed.

Lemma voter_in_votes a v :
  a ∈ agents → agent_evaluate a t os None = Some v → In v (votes evaluations).
Proof.
  intros Ha E. apply list_elem_of_In. unfold votes, evaluations. apply list_elem_of_omap.
  exists (Some v). split; [|done]. apply list_elem_of_fmap. by exists a.
Qed.
End ballots.

(** An agent with a violation in its scope votes DENY. *)
Lemma violation_denied a t os o :
  o ∈ os → _is_in_scope a o = true → violations o ≠ [] →
  ∃ v, agent_evaluate a t os None = Some v ∧ av_decision v = DENY.
Proof.
  intros Ho Hs Hv. assert (In o (scoped_outcomes a os)) as Hi.
  { apply filter_In. split; [by apply list_elem_of_In|done]. }
  unfold agent_evaluate. destruct (scoped_outcomes a os) as [|first scoped]; [done|].
  eexists. split; [done|]. cbn [_apply_negotiation_pressure]. unfold _reduce_scoped_outcomes.
  destruct (List.flat_map violations (first :: scoped)) as [|m ms] eqn:E; [|done].
  destruct (violations o) as [|m ms] eqn:Eo; [done|].
  assert (In m (List.flat_map violations (first :: scoped))) as Hm by (apply in_flat_map; exists o; rewrite Eo; by split; [|left]).
  by rewrite E in Hm.
Qed.

(** The outcome of the configured negotiation on a ballot: a denial never ends
    in ALLOW, a denial with circular and clause always in DENY, and the arbiter
    does not raise. *)
Definition safe_ballot (bs : list (option AgentVerdict)) : bool :=
  let cfg := default_config in
  match decided (cfg_threshold cfg) (cfg_min_confidence cfg) (votes bs) (pressed (cfg_agents cfg) (cfg_threshold cfg) bs) with
  | Raise _ => false
  | Ok d =>
      (negb (existsb (λ v, bool_decide (av_decision v = DENY)) (votes bs)) || negb (bool_decide (d = ALLOW)))
      && (negb (existsb explicit_deny (votes bs)) || bool_decide (d = DENY))
  end.

Lemma ballots_safe : forallb safe_ballot (all_ballots (cfg_agents default_config)) = true.
Proof. vm_compute. reflexivity. Qed.

Lemma evaluations_safe t os : safe_ballot (evaluations (cfg_agents default_config) t os) = true.
Proof.
  destruct (evaluations_ballots (cfg_agents default_config) t os) as (bs & Hin & Hs).
  pose proof ballots_safe as H. rewrite forallb_forall in H. specialize (H bs Hin). revert H. unfold safe_ballot.
  rewrite (similar_decided _ _ _ (votes bs) _ _ (similar_votes _ _ Hs) (similar_pressed _ _ _ _ Hs)).
  rewrite (similar_existsb _ _ _ similar_explicit (similar_votes _ _ Hs)).
  by rewrite (similar_existsb (λ v, bool_decide (av_decision v = DENY)) _ _ ltac:(by intros v w (_ & -> & _)) (similar_votes _ _ Hs)).
Qed.

(** C34. With the agents and bars of the configuration a negotiation always
    returns; a violation in the scope of any agent never ends in ALLOW,
    whatever the other agents vote; and a denial that cites circular and clause
    always ends in DENY. *)
Theorem negotiation_respects_violations started now q s fails id cid t os :
  ∃ r, (negotiate default_config started now q s fails id cid t os).2 = Ok r
  ∧ ((∃ a o, a ∈ cfg_agents default_config ∧ o ∈ os ∧ _is_in_scope a o = true ∧ violations o ≠ []) →
     final_decision r ≠ ALLOW)
  ∧ ((∃ a v, a ∈ cfg_agents default_config ∧ agent_evaluate a t os None = Some v ∧ explicit_deny v = true) →
     final_decision r = DENY).
Proof.
  pose proof (negotiate_decision default_config started now q s fails id cid t os ltac:(done)) as Hd.
  cbv zeta in Hd. rewrite collect_votes collect_pressed in Hd. pose proof (evaluations_safe t os) as Hs. unfold safe_ballot in Hs.
  rewrite -Hd in Hs. destruct ((negotiate _ _ _ _ _ _ _ _ _ _).2) as [r|e]; [|done].
  apply andb_prop in Hs as [Ha Hx]. exists r. split; [done|]. split.
  - intros (a & o & Hag & Ho & Hsc & Hv). destruct (violation_denied a t os o Ho Hsc Hv) as (v & Ev & Dv).
    apply orb_prop in Ha as [Ha|Ha]; [|by apply negb_true_iff, bool_decide_eq_false in Ha].
    apply negb_true_iff in Ha. rewrite (proj2 (existsb_exists _ _)) in Ha; [done|]. exists v.
    split; [by eapply voter_in_votes|by rewrite Dv].
  - intros (a & v & Hag & Ev & Xv). apply orb_prop in Hx as [Hx|Hx]; [|by apply bool_decide_eq_true in Hx].
    apply negb_true_iff in Hx. rewrite (proj2 (existsb_exists _ _)) in Hx; [done|]. exists v.
    split; [by eapply voter_in_votes|done].
Qed.

(** ** Effects *)
Lemma rpush_get m k r k' :
  default [] (rpush m k r !! k') = (default [] (m !! k') ++ (if decide (k = k') then [r] else []))%list.
Proof.
  unfold rpush. destruct (decide (k = k')) as [->|Hn]; [by rewrite lookup_insert_eq|].
  by rewrite lookup_insert_ne // app_nil_r.
Qed.

Lemma record_rounds_transcript now s id n rounds k :
  get_transcript (record_rounds now s id n (λ _, false) rounds) k
  = (get_transcript s k ++ if decide (id = k) then map RoundRecord rounds else [])%list.
Proof.
  revert s n. induction rounds as [|r rounds IH]; intros s n; cbn [record_rounds].
  - destruct (decide (id = k)); by rewrite app_nil_r.
  - rewrite IH. unfold get_transcript. cbn [record_round ts_rounds]. rewrite rpush_get.
    destruct (decide (id = k)); [by rewrite -app_assoc|by rewrite !app_nil_r].
Qed.

(** The record that closes a transcript. *)
Definition outcome_record (r : NegotiationResult) : transcript_record :=
  OutcomeRecord (nres_status r) (final_decision r) (arbiter_resolution r) (reasoning_tree r) (nres_hitl_case_id r)
    (nres_completed_at r).

Lemma negotiate_rounds cfg started now q s fails id cid t os q' s' r :
  negotiate cfg started now q s fails id cid t os = (q', s', Ok r) →
  nres_rounds r = (run (cfg_agents cfg) (cfg_threshold cfg) t os (cfg_max_rounds cfg)).1 ∧ negotiation_id r = id.
Proof.
  unfold negotiate. destruct (run _ _ _ _ _) as [rounds state]. case_bool_decide.
  { intros [= _ _ <-]. by cbn. }
  unfold _resolve_deadlock. destruct rounds as [|r0 rounds]; [intros [= _ _ <-]; by cbn|].
  destruct (arbitrate _ _) as [[x|]|e]; cbn; [intros [= _ _ <-]..|done]; by cbn.
Qed.

(** A negotiation leaves a complete trail: its transcript gets every round
    in order and then the outcome, other transcripts are untouched, and the
    review queue gets exactly one new pending case when, and only when, the
    negotiation was escalated; an escalated transaction is flagged. *)
Theorem negotiation_trail cfg started now q s id cid t os q' s' r :
  negotiate cfg started now q s (λ _, false) id cid t os = (q', s', Ok r) →
  (∀ k, get_transcript s' k
        = (get_transcript s k
           ++ if decide (id = k) then map RoundRecord (nres_rounds r) ++ [outcome_record r] else [])%list)
  ∧ (nres_status r ≠ ESCALATED_TO_HITL → q' = q)
  ∧ (nres_status r = ESCALATED_TO_HITL →
     final_decision r = FLAGGED ∧ nres_hitl_case_id r = Some cid
     ∧ q' = (enqueue q t (deadlock_reason (nres_rounds r)) os cid now).1).
Proof.
  intros H. destruct (negotiate_rounds _ _ _ _ _ _ _ _ _ _ _ _ _ H) as [Hr Hid]. revert H Hr. unfold negotiate.
  destruct (run _ _ _ _ _) as [rounds state]. cbn [fst]. intros H Hr. rewrite Hr.
  assert (∀ x, negotiation_id x = id → ∀ k,
    get_transcript (record_outcome (record_rounds now s id 0 (λ _, false) rounds) x false) k
    = (get_transcript s k ++ if decide (id = k) then map RoundRecord rounds ++ [outcome_record x] else [])%list) as Hk.
  { intros x Hx k. unfold get_transcript at 1. cbn [record_outcome ts_rounds]. rewrite rpush_get Hx.
    rewrite -/(get_transcript _ k) record_rounds_transcript.
    destruct (decide (id = k)); [by rewrite app_assoc|by rewrite !app_nil_r]. }
  case_bool_decide.
  { injection H as <- <- Er. subst r. split; [intros k; apply (Hk (completed now _) Hid k)|]. split; [done|]. by cbn. }
  revert H. unfold _resolve_deadlock. destruct rounds as [|r0 rounds].
  { intros [= <- <- Er]. subst r. split; [intros k; apply (Hk (completed now _) Hid k)|]. split; [done|]. by cbn. }
  destruct (arbitrate _ _) as [[x|]|e]; [| |done]; intros [= <- <- Er]; subst r; (split; [intros k; apply (Hk (completed now _) Hid k)|]); done.
Qed.

(** ** A run

    Margin passes, a disclosure policy without a cited circular is violated:
    three rounds, no resolution, human review. *)
Definition x_now : datetime := Datetime 63871372800000000 (Some 0).
Definition x_tx : TransactionPayload :=
  Transaction "TX-7" "Stockbroker" [] REST_SYNC (Some "BRK-1") None x_now [].
Definition x_outcome (rule package : string) (msgs : list string) : PolicyOutcome :=
  Outcome rule package (Some true) msgs None None None None None None None None.
Definition x_outcomes : list PolicyOutcome :=
  [x_outcome "r1" "sebi.broking.upfront_margin" [];
   x_outcome "r2" "sebi.broking.clause_risk_disclosure" ["Risk disclosure document is missing"]].
Definition x_run : HITLQueue * NegotiationTranscriptStore * res negotiation_error NegotiationResult :=
  negotiate default_config x_now x_now (Queue ∅ ∅) (Transcript ∅ ∅) (λ _, false) "n1" "case1" x_tx x_outcomes.
Definition x_result : NegotiationResult :=
  match x_run.2 with Ok r => r | Raise _ => NegResult "" "" CONSENSUS ALLOW [] None None None x_now None end.

Lemma x_run_ok : x_run = (x_run.1.1, x_run.1.2, Ok x_result).
Proof. vm_compute. reflexivity. Qed.

Lemma negotiation_trail_witness :
  length (get_transcript x_run.1.2 "n1") = 4%nat ∧ final_decision x_result = FLAGGED
  ∧ nres_hitl_case_id x_result = Some "case1".
Proof.
  destruct (negotiation_trail _ _ _ _ _ _ _ _ _ _ _ _ x_run_ok) as (Ht & _ & He).
  destruct (He ltac:(vm_compute; reflexivity)) as (Hf & Hc & _).
  split; [rewrite Ht; vm_compute; reflexivity|]. split; [exact Hf|exact Hc].
Defined.

Lemma negotiation_settles_witness :
  (run [MarginAgent; RiskDisclosureAgent] (decimal 7 1) x_tx x_outcomes 5).2
  = (run [MarginAgent; RiskDisclosureAgent] (decimal 7 1) x_tx x_outcomes 2).2
  ∧ (run [MarginAgent; RiskDisclosureAgent] (decimal 7 1) x_tx x_outcomes 2).2 = DEADLOCKED.
Proof.
  split; [|vm_compute; reflexivity].
  apply (negotiation_settles [MarginAgent; RiskDisclosureAgent] (decimal 7 1) x_tx x_outcomes 5). lia.
Defined.
