(* ===== verification/Resilience.v ===== *)
(** * The dead-letter queue and the retry policy

    [src/app/resilience/models.py], [dead_letter_queue.py] and
    [retry_policy.py], and the requeue endpoint of [src/app/api/dlq_routes.py].

    The Redis keys of the queue are a map from entry ids to entries and one
    sorted set per index; a sorted set is a map from members to scores.  The
    uuid of a new entry, the clock and the text of the exception are supplied
    by the caller.  A score is the failure time in microseconds. *)
From S2P Require Import Prelude PyStr Json JsonFacts Datetime.
From stdpp Require Import fin_map_dom.

Open Scope string_scope.
Open Scope Z_scope.

(** ** Data *)
Inductive FailureCategory :=
| PDF_PARSING | LLM_EXTRACTION | MALFORMED_AST | VECTOR_INGESTION | RSS_POLLING
| POLICY_SELF_HEAL_EXHAUSTED | OTHER.

Definition all_categories : list FailureCategory :=
  [PDF_PARSING; LLM_EXTRACTION; MALFORMED_AST; VECTOR_INGESTION; RSS_POLLING;
   POLICY_SELF_HEAL_EXHAUSTED; OTHER].

Inductive DLQStatus := DLQ_PENDING | REQUEUED | RESOLVED | DISCARDED.

Definition all_statuses : list DLQStatus := [DLQ_PENDING; REQUEUED; RESOLVED; DISCARDED].

#[export] Instance FailureCategory_eq_dec : EqDecision FailureCategory.
Proof. solve_decision. Defined.
#[export] Instance DLQStatus_eq_dec : EqDecision DLQStatus.
Proof. solve_decision. Defined.

Record DLQEntry := Entry
  { entry_id : string
  ; dlq_category : FailureCategory
  ; task_name : string
  ; original_task_id : option string
  ; dlq_payload : json
  ; error_type : string
  ; error_message : string
  ; dlq_traceback : option string
  ; attempt_count : Z
  ; first_failed_at : datetime
  ; last_failed_at : datetime
  ; dlq_status : DLQStatus
  ; requeued_at : option datetime
  ; requeued_by : option string
  ; requeued_task_id : option string
  ; dlq_resolution_notes : option string
  ; dlq_resolved_by : option string
  ; dlq_resolved_at : option datetime }.

(** The sorted sets: [{prefix}:all], [{prefix}:category:*], [{prefix}:status:*]. *)
Inductive dlq_index := IdxAll | IdxCategory (c : FailureCategory) | IdxStatus (s : DLQStatus).

#[export] Instance dlq_index_eq_dec : EqDecision dlq_index.
Proof. solve_decision. Defined.

Record DeadLetterQueue := DLQ
  { dlq_entries : gmap string DLQEntry
  ; zsets : dlq_index → gmap string Z }.

Definition empty_dlq : DeadLetterQueue := DLQ ∅ (λ _, ∅).

Inductive dlq_error := DLQEntryNotFoundError | DLQInvalidTransitionError (st : DLQStatus).

(** ** Redis commands *)
Definition on_zset (i : dlq_index) (f : gmap string Z → gmap string Z) (z : dlq_index → gmap string Z)
  : dlq_index → gmap string Z :=
  λ i', if decide (i' = i) then f (z i') else z i'.

Definition zadd (i : dlq_index) (member : string) (score : Z) :=
  on_zset i (<[member := score]>).
Definition zrem (i : dlq_index) (member : string) := on_zset i (delete member).
Definition zcard (z : gmap string Z) : Z := Z.of_nat (size z).

(** [ZREVRANGE key 0 -1]: by descending score, members of equal score in
    reverse lexicographic order. *)
Definition zrev_le (a b : string * Z) : Prop :=
  b.2 < a.2 ∨ (b.2 = a.2 ∧ String.leb b.1 a.1 = true).
#[export] Instance zrev_le_dec : RelDecision zrev_le.
Proof. intros a b. unfold zrev_le. apply _. Defined.

Definition zrevrange (z : gmap string Z) : list string :=
  fst <$> merge_sort zrev_le (map_to_list z).

(** ** Operations *)
Definition _score (moment : datetime) : Z := utc_us moment.

Definition _persist_new (q : DeadLetterQueue) (entry : DLQEntry) : DeadLetterQueue :=
  let score := _score (last_failed_at entry) in
  DLQ (<[entry_id entry := entry]> (dlq_entries q))
    (zadd (IdxStatus (dlq_status entry)) (entry_id entry) score
      (zadd (IdxCategory (dlq_category entry)) (entry_id entry) score
        (zadd IdxAll (entry_id entry) score (zsets q)))).

(** The exception as [send] records it: class name, [str(exc)], traceback. *)
Record caught := Caught { exc_class : string; exc_str : string; exc_traceback : string }.

Definition send (q : DeadLetterQueue) (category : FailureCategory) (task : string)
    (payload : json) (exc : caught) (original_task : option string) (attempts : Z)
    (new_id : string) (now : datetime) : DeadLetterQueue * DLQEntry :=
  let entry :=
    {| entry_id := new_id; dlq_category := category; task_name := task;
       original_task_id := original_task; dlq_payload := payload;
       error_type := exc_class exc; error_message := exc_str exc;
       dlq_traceback := Some (exc_traceback exc); attempt_count := attempts;
       first_failed_at := now; last_failed_at := now; dlq_status := DLQ_PENDING;
       requeued_at := None; requeued_by := None; requeued_task_id := None;
       dlq_resolution_notes := None; dlq_resolved_by := None; dlq_resolved_at := None |} in
  (_persist_new q entry, entry).

Definition dlq_get (q : DeadLetterQueue) (id : string) : res dlq_error DLQEntry :=
  match dlq_entries q !! id with
  | None => Raise DLQEntryNotFoundError
  | Some e => Ok e
  end.

(** [l[lo:hi]] *)
Definition py_index {A} (l : list A) (i : Z) : nat :=
  Z.to_nat (Z.min (Z.of_nat (length l)) (if i <? 0 then i + Z.of_nat (length l) else i)).
Definition py_slice {A} (lo hi : Z) (l : list A) : list A :=
  take (py_index l hi - py_index l lo) (drop (py_index l lo) l).

Fixpoint list_loop (q : DeadLetterQueue) (category : option FailureCategory)
    (status : option DLQStatus) (stop : Z) (ids : list string) (entries : list DLQEntry)
  : list DLQEntry :=
  match ids with
  | [] => entries
  | id :: ids' =>
      match dlq_get q id with
      | Raise _ => list_loop q category status stop ids' entries
      | Ok entry =>
          if bool_decide (is_Some category) && match status with
               | Some s => negb (bool_decide (dlq_status entry = s)) | None => false end
          then list_loop q category status stop ids' entries
          else
            let entries := (entries ++ [entry])%list in
            if stop <=? Z.of_nat (length entries) then entries
            else list_loop q category status stop ids' entries
      end
  end.

Definition index_key (category : option FailureCategory) (status : option DLQStatus) : dlq_index :=
  match category, status with
  | Some c, _ => IdxCategory c
  | None, Some s => IdxStatus s
  | None, None => IdxAll
  end.

Definition dlq_list (q : DeadLetterQueue) (category : option FailureCategory)
    (status : option DLQStatus) (limit offset : Z) : list DLQEntry :=
  py_slice offset (offset + limit)
    (list_loop q category status (offset + limit)
       (zrevrange (zsets q (index_key category status))) []).

Definition dlq_count (q : DeadLetterQueue) (category : option FailureCategory)
    (status : option DLQStatus) : Z := zcard (zsets q (index_key category status)).

Record DLQStats := Stats
  { dlq_total : Z; by_category : list (FailureCategory * Z); by_status : list (DLQStatus * Z) }.

Definition stats (q : DeadLetterQueue) : DLQStats :=
  Stats (dlq_count q None None)
    (map (λ c, (c, dlq_count q (Some c) None)) all_categories)
    (map (λ s, (s, dlq_count q None (Some s))) all_statuses).

Definition _move_status (q : DeadLetterQueue) (old : DLQStatus) (entry : DLQEntry) : DeadLetterQueue :=
  DLQ (<[entry_id entry := entry]> (dlq_entries q))
    (zadd (IdxStatus (dlq_status entry)) (entry_id entry) (_score (last_failed_at entry))
      (zrem (IdxStatus old) (entry_id entry) (zsets q))).

Definition with_payload (e : DLQEntry) (p : json) : DLQEntry :=
  {| entry_id := entry_id e; dlq_category := dlq_category e; task_name := task_name e;
     original_task_id := original_task_id e; dlq_payload := p; error_type := error_type e;
     error_message := error_message e; dlq_traceback := dlq_traceback e;
     attempt_count := attempt_count e; first_failed_at := first_failed_at e;
     last_failed_at := last_failed_at e; dlq_status := dlq_status e;
     requeued_at := requeued_at e; requeued_by := requeued_by e;
     requeued_task_id := requeued_task_id e; dlq_resolution_notes := dlq_resolution_notes e;
     dlq_resolved_by := dlq_resolved_by e; dlq_resolved_at := dlq_resolved_at e |}.

Definition as_requeued (e : DLQEntry) (by_ task : string) (now : datetime) : DLQEntry :=
  {| entry_id := entry_id e; dlq_category := dlq_category e; task_name := task_name e;
     original_task_id := original_task_id e; dlq_payload := dlq_payload e;
     error_type := error_type e; error_message := error_message e;
     dlq_traceback := dlq_traceback e; attempt_count := attempt_count e;
     first_failed_at := first_failed_at e; last_failed_at := last_failed_at e;
     dlq_status := REQUEUED; requeued_at := Some now; requeued_by := Some by_;
     requeued_task_id := Some task; dlq_resolution_notes := dlq_resolution_notes e;
     dlq_resolved_by := dlq_resolved_by e; dlq_resolved_at := dlq_resolved_at e |}.

Definition as_closed (e : DLQEntry) (st : DLQStatus) (by_ : string) (notes : option string)
    (now : datetime) : DLQEntry :=
  {| entry_id := entry_id e; dlq_category := dlq_category e; task_name := task_name e;
     original_task_id := original_task_id e; dlq_payload := dlq_payload e;
     error_type := error_type e; error_message := error_message e;
     dlq_traceback := dlq_traceback e; attempt_count := attempt_count e;
     first_failed_at := first_failed_at e; last_failed_at := last_failed_at e;
     dlq_status := st; requeued_at := requeued_at e; requeued_by := requeued_by e;
     requeued_task_id := requeued_task_id e; dlq_resolution_notes := notes;
     dlq_resolved_by := Some by_; dlq_resolved_at := Some now |}.

(** [entry.status in (PENDING, REQUEUED)] *)
Definition is_open (s : DLQStatus) : bool :=
  match s with DLQ_PENDING | REQUEUED => true | RESOLVED | DISCARDED => false end.

Definition update_payload (q : DeadLetterQueue) (id : string) (new_payload : json)
  : res dlq_error (DeadLetterQueue * DLQEntry) :=
  res_bind (dlq_get q id) (λ entry,
    if negb (is_open (dlq_status entry)) then Raise (DLQInvalidTransitionError (dlq_status entry))
    else let entry := with_payload entry new_payload in
         Ok (DLQ (<[id := entry]> (dlq_entries q)) (zsets q), entry)).

Definition mark_requeued (q : DeadLetterQueue) (id by_ task : string) (now : datetime)
  : res dlq_error (DeadLetterQueue * DLQEntry) :=
  res_bind (dlq_get q id) (λ entry,
    if negb (is_open (dlq_status entry)) then Raise (DLQInvalidTransitionError (dlq_status entry))
    else let updated := as_requeued entry by_ task now in
         Ok (_move_status q (dlq_status entry) updated, updated)).

Definition mark_resolved (q : DeadLetterQueue) (id by_ : string) (notes : option string)
    (now : datetime) : res dlq_error (DeadLetterQueue * DLQEntry) :=
  res_bind (dlq_get q id) (λ entry,
    let updated := as_closed entry RESOLVED by_ notes now in
    Ok (_move_status q (dlq_status entry) updated, updated)).

Definition discard (q : DeadLetterQueue) (id by_ : string) (notes : option string)
    (now : datetime) : res dlq_error (DeadLetterQueue * DLQEntry) :=
  res_bind (dlq_get q id) (λ entry,
    if negb (is_open (dlq_status entry)) then Raise (DLQInvalidTransitionError (dlq_status entry))
    else let updated := as_closed entry DISCARDED by_ notes now in
         Ok (_move_status q (dlq_status entry) updated, updated)).

(** ** The requeue endpoint

    [dispatched] is what [celery_app.send_task] has sent so far: task name and
    keyword arguments. *)
Inductive http_reply (A : Type) := Http200 (a : A) | HttpError (code : Z).
Arguments Http200 {A} a.
Arguments HttpError {A} code.

Definition requeue_dlq_entry (q : DeadLetterQueue) (dispatched : list (string * json))
    (id subject new_task_id : string) (now : datetime)
  : DeadLetterQueue * list (string * json) * http_reply DLQEntry :=
  match dlq_get q id with
  | Raise _ => (q, dispatched, HttpError 404)
  | Ok entry =>
      let dispatched := (dispatched ++ [(task_name entry, dlq_payload entry)])%list in
      match mark_requeued q id subject new_task_id now with
      | Ok (q', updated) => (q', dispatched, Http200 updated)
      | Raise (DLQInvalidTransitionError _) => (q, dispatched, HttpError 409)
      | Raise DLQEntryNotFoundError => (q, dispatched, HttpError 500)
      end
  end.

(** [list_dlq_entries] *)
Definition list_dlq_entries (q : DeadLetterQueue) (category : option FailureCategory)
    (status : option DLQStatus) (limit offset : Z) : http_reply (list DLQEntry) :=
  if (limit <? 1) || (200 <? limit) then HttpError 422
  else Http200 (dlq_list q category status limit offset).

(** ** The queue as a transition system *)
Inductive dlq_step (q : DeadLetterQueue) : DeadLetterQueue → Prop :=
| step_send c t p x o n id now :
    dlq_entries q !! id = None →
    dlq_step q (send q c t p x o n id now).1
| step_update id p r : update_payload q id p = Ok r → dlq_step q r.1
| step_requeue id by_ task now r : mark_requeued q id by_ task now = Ok r → dlq_step q r.1
| step_resolve id by_ notes now r : mark_resolved q id by_ notes now = Ok r → dlq_step q r.1
| step_discard id by_ notes now r : discard q id by_ notes now = Ok r → dlq_step q r.1.

(** ** The retry policy

    Exceptions are objects with an identity: [__cause__] points to another
    one, and the chain may loop.  [mro] names the classes of an exception. *)
Record exc_object := ExcObject { mro : list string; cause : option positive }.

Definition TRANSIENT_EXCEPTION_TYPES : list string :=
  ["httpx.TransportError"; "httpx.TimeoutException"; "ConnectionError"; "TimeoutError"; "OSError"].

Definition isinstance (x : exc_object) (types : list string) : bool :=
  existsb (λ t, existsb (String.eqb t) (mro x)) types.

Fixpoint transient_loop (heap : gmap positive exc_object) (fuel : nat) (seen : gset positive)
    (current : option positive) : option bool :=
  match fuel with
  | O => None
  | S fuel =>
      match current with
      | None => Some false
      | Some p =>
          if decide (p ∈ seen) then Some false
          else match heap !! p with
               | None => Some false
               | Some x =>
                   if isinstance x TRANSIENT_EXCEPTION_TYPES then Some true
                   else transient_loop heap fuel ({[p]} ∪ seen) (cause x)
               end
      end
  end.

Definition is_transient (heap : gmap positive exc_object) (exc : positive) : option bool :=
  transient_loop heap (S (S (size heap))) ∅ (Some exc).
