(* ===== verification/ResilienceFacts.v ===== *)
(** * Correctness of the dead-letter queue and of the retry classifier *)
From S2P Require Import Prelude PyStr Json JsonFacts Datetime Resilience.
From stdpp Require Import fin_map_dom fin_maps.

Open Scope string_scope.
Open Scope Z_scope.

(** ** What the indexes promise *)
Definition belongs (e : DLQEntry) (i : dlq_index) : Prop :=
  match i with
  | IdxAll => True
  | IdxCategory c => dlq_category e = c
  | IdxStatus s => dlq_status e = s
  end.
#[export] Instance belongs_dec e i : Decision (belongs e i).
Proof. destruct i; simpl; apply _. Defined.

(** Each sorted set holds exactly the entries of its index, at their failure
    time; an entry is stored under its own id. *)
Record dlq_consistent (q : DeadLetterQueue) : Prop :=
  { dc_id : ∀ id e, dlq_entries q !! id = Some e → entry_id e = id
  ; dc_index : ∀ i id,
      zsets q i !! id =
      (dlq_entries q !! id) ≫= λ e,
        if decide (belongs e i) then Some (_score (last_failed_at e)) else None }.

Lemma lookup_on_zset i f z i' :
  on_zset i f z i' = if decide (i' = i) then f (z i') else z i'.
Proof. reflexivity. Qed.

Lemma empty_dlq_consistent : dlq_consistent empty_dlq.
Proof.
  split; [intros id e; by rewrite lookup_empty|]. intros i id. simpl. by rewrite !lookup_empty.
Qed.

(** Rewriting one entry in place of another of the same category, id and
    failure time. *)
Definition same_item (e e' : DLQEntry) : Prop :=
  entry_id e' = entry_id e ∧ dlq_category e' = dlq_category e
  ∧ last_failed_at e' = last_failed_at e.

Lemma _move_status_consistent q e e' :
  dlq_consistent q → dlq_entries q !! entry_id e = Some e → same_item e e' →
  dlq_consistent (_move_status q (dlq_status e) e').
Proof.
  intros [Hid Hix] He (Hi & Hc & Hf). split; simpl.
  - intros id x. rewrite lookup_insert_Some. naive_solver.
  - intros i id. unfold zadd, zrem. rewrite !lookup_on_zset Hi.
    destruct (decide (id = entry_id e)) as [->|Hne].
    + rewrite lookup_insert_eq /=. specialize (Hix i (entry_id e)).
      rewrite He /= in Hix. rewrite Hf.
      destruct i as [|c|s]; simpl in *.
      * by rewrite Hix.
      * by rewrite Hix Hc.
      * destruct (decide (IdxStatus s = IdxStatus (dlq_status e'))) as [[= ->]|Hs].
        -- rewrite lookup_insert_eq. by rewrite decide_True.
        -- rewrite (decide_False (P := dlq_status e' = s)); [|by intros <-; apply Hs].
           destruct (decide (IdxStatus s = IdxStatus (dlq_status e))) as [[= ->]|Hs'].
           ++ apply lookup_delete_eq.
           ++ rewrite Hix. apply decide_False. by intros <-; apply Hs'.
    + rewrite lookup_insert_ne; [|done]. rewrite -Hix.
      repeat case_decide; rewrite ?lookup_insert_ne ?lookup_delete_ne; done.
Qed.

Lemma send_consistent q c t p x o n id now :
  dlq_consistent q → dlq_entries q !! id = None →
  dlq_consistent (send q c t p x o n id now).1.
Proof.
  intros [Hid Hix] Hfresh. split; simpl.
  - intros id' e. rewrite lookup_insert_Some. naive_solver.
  - intros i id'. unfold zadd. rewrite !lookup_on_zset.
    destruct (decide (id' = id)) as [->|Hne].
    + rewrite lookup_insert_eq /=. specialize (Hix i id). rewrite Hfresh /= in Hix.
      destruct i as [|c'|s]; simpl; repeat case_decide; simplify_eq;
        rewrite ?lookup_insert_eq; try done.
    + rewrite lookup_insert_ne; [|done]. rewrite -Hix.
      repeat case_decide; rewrite ?lookup_insert_ne; done.
Qed.

(** What a step does to the entry it acts on. *)
Lemma dlq_get_Ok q id e : dlq_get q id = Ok e ↔ dlq_entries q !! id = Some e.
Proof. unfold dlq_get. case_match; naive_solver. Qed.

Lemma dlq_step_consistent q q' : dlq_consistent q → dlq_step q q' → dlq_consistent q'.
Proof.
  intros HC Hstep. pose proof (dc_id _ HC) as Hid.
  destruct Hstep as [| id p r H| id b t now r H| id b n now r H| id b n now r H];
    [by apply send_consistent|..];
    apply res_bind_Ok in H as (e & He%dlq_get_Ok & H);
    pose proof (Hid _ _ He) as <-;
    try (case_match; [done|]); injection H as <-; simpl;
    [|apply _move_status_consistent; done..].
  destruct HC as [_ Hix]. split; simpl.
  - intros id' x. rewrite lookup_insert_Some. naive_solver.
  - intros i id'. rewrite Hix. destruct (decide (id' = entry_id e)) as [->|Hne].
    + rewrite lookup_insert_eq He /=. by destruct i.
    + by rewrite lookup_insert_ne.
Qed.

(** Whatever sequence of parks, payload edits, requeues, resolutions and
    discards the dead-letter queue has gone through, its sorted sets agree with
    its entries: an entry is in the set of everything, in the set of its
    category, in the set of its current status and in no other set. *)
Theorem dlq_indexes_consistent q : rtc dlq_step empty_dlq q → dlq_consistent q.
Proof.
  intros H. cut (∀ q0, dlq_consistent q0 → rtc dlq_step q0 q → dlq_consistent q).
  { intros Hc. exact (Hc _ empty_dlq_consistent H). }
  clear H. intros q0 H0 H. induction H as [|q1 q2 q3 H12 _ IH]; [done|].
  apply IH. by eapply dlq_step_consistent.
Qed.

(** ** Listing *)

(** The specification: the entries of the map, newest failure first. *)
Definition item_key (x : string * DLQEntry) : string * Z := (x.1, _score (last_failed_at x.2)).

Definition newest_first (m : gmap string DLQEntry) : list DLQEntry :=
  omap (λ x : string * Z, m !! x.1) (merge_sort zrev_le (item_key <$> map_to_list m)).

Definition selected (category : option FailureCategory) (status : option DLQStatus)
    (e : DLQEntry) : Prop :=
  match category with Some c => dlq_category e = c | None => True end
  ∧ match status with Some s => dlq_status e = s | None => True end.
#[export] Instance selected_dec category status e : Decision (selected category status e).
Proof. unfold selected. destruct category, status; apply _. Defined.

#[export] Instance zrev_le_trans : Transitive zrev_le.
Proof.
  intros a b c [H1|[H1 L1]] [H2|[H2 L2]]; unfold zrev_le; [left; lia..|right].
  split; [congruence|]. exact (skey_leb_trans _ _ _ L2 L1).
Qed.
#[export] Instance zrev_le_total : Total zrev_le.
Proof.
  intros a b. unfold zrev_le. destruct (Z.lt_total a.2 b.2) as [H|[H|H]]; [by right; left| |by left; left].
  destruct (String.leb_total a.1 b.1) as [L|L]; [right|left]; right; done.
Qed.
#[export] Instance zrev_le_antisymm : AntiSymm (=) zrev_le.
Proof.
  intros [a s] [b t] [H1|[H1 L1]] [H2|[H2 L2]]; simpl in *; try lia.
  f_equal; [|done]. by apply String.leb_antisym.
Qed.

(** Sorting a selection is selecting from the sorted list. *)
Lemma merge_sort_filter (P : string * Z → Prop) `{∀ x, Decision (P x)} l l' :
  l' ≡ₚ filter P l → merge_sort zrev_le l' = filter P (merge_sort zrev_le l).
Proof.
  intros Hp. apply (StronglySorted_unique zrev_le).
  - apply Sorted_StronglySorted, Sorted_merge_sort; apply _.
  - apply StronglySorted_filter_sub, Sorted_StronglySorted, Sorted_merge_sort; apply _.
  - by rewrite !merge_sort_Permutation.
Qed.

Definition in_index (m : gmap string DLQEntry) (i : dlq_index) (x : string * Z) : Prop :=
  match m !! x.1 with Some e => belongs e i | None => False end.
#[export] Instance in_index_dec m i x : Decision (in_index m i x).
Proof. unfold in_index. destruct (m !! x.1); apply _. Defined.

Lemma zset_items q i :
  dlq_consistent q →
  map_to_list (zsets q i) ≡ₚ
  filter (in_index (dlq_entries q) i) (item_key <$> map_to_list (dlq_entries q)).
Proof.
  intros [_ Hix]. apply NoDup_Permutation.
  - apply NoDup_map_to_list.
  - apply NoDup_filter. eapply NoDup_fmap_1 with (f := fst). rewrite -list_fmap_compose.
    exact (NoDup_fst_map_to_list (dlq_entries q)).
  - intros [id s]. rewrite elem_of_map_to_list Hix list_elem_of_filter list_elem_of_fmap.
    unfold in_index. simpl. split.
    + destruct (dlq_entries q !! id) as [e|] eqn:E; simpl; [|done].
      case_decide; [|done]. intros [= <-]. split; [done|].
      exists (id, e). by rewrite elem_of_map_to_list.
    + intros [Hb ([id' e] & [= -> ->] & Hin%elem_of_map_to_list)]. simpl in *.
      rewrite Hin in Hb |- *. simpl. by rewrite decide_True.
Qed.

Lemma zrevrange_index q i :
  dlq_consistent q →
  omap (λ id, dlq_entries q !! id) (zrevrange (zsets q i)) =
  filter (λ e, belongs e i) (newest_first (dlq_entries q)).
Proof.
  intros HC. unfold zrevrange, newest_first.
  rewrite (merge_sort_filter (in_index (dlq_entries q) i) _ _ (zset_items _ _ HC)).
  generalize (merge_sort zrev_le (item_key <$> map_to_list (dlq_entries q))).
  induction l as [|x l IH]; [done|]. rewrite filter_cons. simpl.
  destruct (dlq_entries q !! x.1) as [e|] eqn:E.
  - assert (Hiff : in_index (dlq_entries q) i x ↔ belongs e i) by (unfold in_index; by rewrite E).
    rewrite filter_cons.
    destruct (decide (in_index (dlq_entries q) i x)) as [Hd|Hd]; rewrite Hiff in Hd.
    + rewrite fmap_cons /= E decide_True; [|done]. by f_equal.
    + by rewrite decide_False.
  - rewrite decide_False; [exact IH|]. unfold in_index. rewrite E. by intros [].
Qed.

(** The loop collects a prefix of the visible entries that is long enough. *)
Definition keeps (category : option FailureCategory) (status : option DLQStatus) (e : DLQEntry)
  : Prop := match category, status with Some _, Some s => dlq_status e = s | _, _ => True end.
#[export] Instance keeps_dec category status e : Decision (keeps category status e).
Proof. unfold keeps. destruct category, status; apply _. Defined.

Lemma list_loop_prefix q category status stop ids acc :
  ∃ n, stop - Z.of_nat (length acc) <= Z.of_nat n
    ∧ list_loop q category status stop ids acc =
      (acc ++ take n (filter (keeps category status) (omap (λ id, dlq_entries q !! id) ids)))%list.
Proof.
  revert acc. induction ids as [|id ids IH]; intros acc.
  { exists (Z.to_nat (stop - Z.of_nat (length acc))). split; [lia|].
    by rewrite /= take_nil app_nil_r. }
  cbn [list_loop omap list_omap]. unfold dlq_get.
  destruct (dlq_entries q !! id) as [e|] eqn:E; [|exact (IH acc)].
  rewrite filter_cons. destruct (decide (keeps category status e)) as [Hk|Hk].
  - replace (bool_decide (is_Some category) && _) with false.
    2:{ unfold keeps in Hk. destruct category, status; simpl; try done.
        by rewrite bool_decide_eq_true_2. }
    destruct (Z.leb_spec stop (Z.of_nat (length (acc ++ [e])))) as [Hs|Hs].
    + exists 1%nat. rewrite length_app /= in Hs. split; [lia|done].
    + destruct (IH (acc ++ [e])%list) as (n & Hn & ->).
      exists (S n). rewrite length_app /= in Hn. split; [lia|]. by rewrite -app_assoc.
  - replace (bool_decide (is_Some category) && _) with true; [exact (IH acc)|].
    unfold keeps in Hk. destruct category, status; try done. simpl.
    by rewrite bool_decide_eq_false_2.
Qed.

Lemma py_slice_window {A} (l : list A) (offset limit : nat) n :
  (offset + limit <= n)%nat →
  py_slice (Z.of_nat offset) (Z.of_nat offset + Z.of_nat limit) (take n l) = take limit (drop offset l).
Proof.
  intros Hn. unfold py_slice, py_index.
  rewrite !(proj2 (Z.ltb_ge _ _)); [|lia..]. rewrite length_take.
  set (len := length l).
  assert (Hlen : length l = len) by done. clearbody len.
  rewrite skipn_firstn_comm firstn_firstn.
  destruct (decide (len <= offset)%nat) as [Ho|Ho].
  - rewrite (drop_ge l offset); [|lia].
    rewrite take_nil. replace (_ - _)%nat with 0%nat by lia. done.
  - replace (Z.to_nat (Z.min (Z.of_nat (n `min` len)) (Z.of_nat offset))) with offset by lia.
    destruct (decide (offset + limit <= len)%nat).
    + f_equal. lia.
    + rewrite !take_ge; rewrite ?length_drop; [done|lia..].
Qed.

(** On a consistent queue, listing with any combination of the category and
    status filters returns exactly the requested window of the matching
    entries, newest failure first: early exit from the loop and the choice of
    the index lose and duplicate nothing. *)
Theorem dlq_list_exact q category status (limit offset : nat) :
  dlq_consistent q →
  dlq_list q category status (Z.of_nat limit) (Z.of_nat offset) =
  take limit (drop offset
    (filter (selected category status) (newest_first (dlq_entries q)))).
Proof.
  intros HC. unfold dlq_list.
  destruct (list_loop_prefix q category status (Z.of_nat offset + Z.of_nat limit)
              (zrevrange (zsets q (index_key category status))) []) as (n & Hn & ->).
  simpl in *. rewrite py_slice_window; [|lia]. rewrite zrevrange_index; [|done].
  do 2 f_equal. rewrite list_filter_filter. apply list_filter_iff.
  intros e. unfold keeps, selected, index_key. destruct category, status; simpl; tauto.
Qed.

(** The specification lists every stored entry once. *)
Lemma newest_first_items m : newest_first m ≡ₚ (map_to_list m).*2.
Proof.
  unfold newest_first. rewrite merge_sort_Permutation.
  assert (Hin : ∀ x, x ∈ map_to_list m → m !! x.1 = Some x.2)
    by (intros [id e]; apply elem_of_map_to_list).
  induction (map_to_list m) as [|x l IH]; [done|]. simpl.
  rewrite (Hin x); [|by left]. constructor. apply IH. intros y Hy. apply Hin. by right.
Qed.

(** ** Counting *)
Lemma zcard_index q i :
  dlq_consistent q →
  zcard (zsets q i) = Z.of_nat (length (filter (λ e, belongs e i) (newest_first (dlq_entries q)))).
Proof.
  intros HC. rewrite -zrevrange_index; [|done]. unfold zcard. f_equal.
  rewrite -length_map_to_list. unfold zrevrange.
  transitivity (length (merge_sort zrev_le (map_to_list (zsets q i)))).
  { symmetry. apply Permutation_length, merge_sort_Permutation. }
  assert (Hin : ∀ x, x ∈ merge_sort zrev_le (map_to_list (zsets q i)) → is_Some (dlq_entries q !! x.1)).
  { intros [id s]. rewrite merge_sort_Permutation elem_of_map_to_list (dc_index _ HC) /=.
    destruct (dlq_entries q !! id); [eauto|done]. }
  induction (merge_sort zrev_le (map_to_list (zsets q i))) as [|x l IH]; [done|].
  destruct (Hin x) as [e He]; [by left|]. rewrite fmap_cons /= He /=. f_equal.
  apply IH. intros y Hy. apply Hin. by right.
Qed.

Definition sum_counts {K} (l : list (K * Z)) : Z := foldr (λ x n, x.2 + n) 0 l.

Lemma sum_count_partition {A K} `{EqDecision K} (f : A → K) (ks : list K) (l : list A) :
  NoDup ks → (∀ x, f x ∈ ks) →
  sum_counts (map (λ k, (k, Z.of_nat (length (filter (λ x, f x = k) l)))) ks) = Z.of_nat (length l).
Proof.
  intros Hnd Hall. induction l as [|x l IH].
  { clear. induction ks as [|k ks IH]; [done|]. simpl in *. lia. }
  transitivity (1 + Z.of_nat (length l)); [|simpl; lia]. rewrite -IH. clear IH.
  specialize (Hall x). revert Hnd Hall. induction ks as [|k ks IH]; intros Hnd Hx.
  { by apply not_elem_of_nil in Hx. }
  apply NoDup_cons in Hnd as [Hk Hnd]. cbn [map sum_counts foldr snd]. fold (@sum_counts K).
  rewrite filter_cons. case_decide as E.
  - simpl. rewrite -E in Hk. clear -Hk. unfold sum_counts in *.
    assert (Hs : ∀ ks, f x ∉ ks →
      map (λ k, (k, Z.of_nat (length (filter (λ y, f y = k) (x :: l))))) ks =
      map (λ k, (k, Z.of_nat (length (filter (λ y, f y = k) l)))) ks).
    { induction ks0 as [|k' ks' IH]; [done|]. rewrite not_elem_of_cons.
      intros [Hne Hk']. cbn [map]. rewrite filter_cons decide_False; [|done]. by rewrite IH. }
    rewrite Hs; [lia|done].
  - apply elem_of_cons in Hx as [Hx|Hx]; [done|]. unfold sum_counts in *. rewrite IH; [lia|done..].
Qed.

(** The totals the queue reports are those of its entries, and they add up:
    the counts per category and the counts per status both sum to the number
    of parked entries. *)
Theorem dlq_stats_add_up q :
  dlq_consistent q →
  dlq_total (stats q) = Z.of_nat (size (dlq_entries q))
  ∧ sum_counts (by_category (stats q)) = dlq_total (stats q)
  ∧ sum_counts (by_status (stats q)) = dlq_total (stats q).
Proof.
  intros HC.
  assert (Ht : dlq_total (stats q) = Z.of_nat (length (newest_first (dlq_entries q)))).
  { simpl. unfold dlq_count. rewrite zcard_index; [|done]. simpl. f_equal.
    induction (newest_first (dlq_entries q)) as [|e l IH]; [done|]. simpl.
    by f_equal. }
  rewrite Ht. split; [|split].
  - f_equal. by rewrite newest_first_items length_fmap length_map_to_list.
  - rewrite -(sum_count_partition dlq_category all_categories).
    + f_equal. apply map_ext. intros c. f_equal. by apply (zcard_index q (IdxCategory c)).
    + by apply (bool_decide_unpack _).
    + intros e. destruct (dlq_category e); by apply (bool_decide_unpack _).
  - rewrite -(sum_count_partition dlq_status all_statuses).
    + f_equal. apply map_ext. intros s. f_equal. by apply (zcard_index q (IdxStatus s)).
    + by apply (bool_decide_unpack _).
    + intros e. destruct (dlq_status e); by apply (bool_decide_unpack _).
Qed.

(** ** The life of an entry *)

(** What stays, and what a closed entry keeps. *)
Definition evolves (e e' : DLQEntry) : Prop :=
  (dlq_category e', task_name e', original_task_id e', error_type e', error_message e',
   first_failed_at e', last_failed_at e') =
  (dlq_category e, task_name e, original_task_id e, error_type e, error_message e,
   first_failed_at e, last_failed_at e)
  ∧ (dlq_status e' = DLQ_PENDING → dlq_status e = DLQ_PENDING)
  ∧ (is_open (dlq_status e) = false →
     is_open (dlq_status e') = false ∧ dlq_payload e' = dlq_payload e
     ∧ requeued_task_id e' = requeued_task_id e ∧ requeued_by e' = requeued_by e).

#[export] Instance evolves_refl : Reflexive evolves.
Proof. done. Qed.
#[export] Instance evolves_trans : Transitive evolves.
Proof.
  intros e1 e2 e3 (H1 & P1 & C1) (H2 & P2 & C2). split; [congruence|]. split; [auto|].
  intros (O & ? & ? & ?)%C1. destruct (C2 O) as (? & ? & ? & ?). split_and!; congruence.
Qed.

Lemma dlq_step_evolves q q' id e :
  dlq_consistent q → dlq_step q q' → dlq_entries q !! id = Some e →
  ∃ e', dlq_entries q' !! id = Some e' ∧ evolves e e'.
Proof.
  intros HC Hstep He. pose proof (dc_id _ HC) as Hid.
  destruct Hstep as [?????? id' ?? | id' p r H| id' b t now r H| id' b n now r H| id' b n now r H].
  { exists e. split; [|done]. simpl. rewrite lookup_insert_ne; [done|]. congruence. }
  all: apply res_bind_Ok in H as (e0 & He0%dlq_get_Ok & H); pose proof (Hid _ _ He0) as Hi;
    try (destruct (negb _) eqn:Ho in H; [done|]; apply Bool.negb_false_iff in Ho);
    injection H as <-; cbn [fst dlq_entries _move_status]; simpl entry_id; rewrite ?Hi;
    destruct (decide (id = id')) as [->|Hne];
    [ rewrite lookup_insert_eq; simplify_eq; eexists; split; [reflexivity|];
      unfold evolves; simpl; split; [done|]; split; [try done|]; intros; try congruence; try done
    | rewrite lookup_insert_ne; [|done]; exists e; split; [done|reflexivity] ].
Qed.

(** Through any sequence of operations an entry is never lost, keeps where
    and why it failed, never becomes pending again, and once resolved or
    discarded is never requeued or edited: it stays closed with its payload
    and its last requeue. *)
Theorem dlq_lifecycle q q' id e :
  dlq_consistent q → rtc dlq_step q q' → dlq_entries q !! id = Some e →
  ∃ e', dlq_entries q' !! id = Some e' ∧ evolves e e'.
Proof.
  intros HC Hs. revert e. induction Hs as [q|q1 q2 q3 H12 _ IH]; intros e He.
  { exists e. split; [done|reflexivity]. }
  destruct (dlq_step_evolves _ _ _ _ HC H12 He) as (e2 & He2 & H2).
  destruct (IH (dlq_step_consistent _ _ HC H12) _ He2) as (e3 & He3 & H3).
  exists e3. split; [done|]. by transitivity e2.
Qed.

(** Requeueing sends the task of any entry it finds, whatever its status:
    for an open entry the entry becomes REQUEUED with the new task id, for a
    resolved or discarded one the caller is told 409 and the queue is
    unchanged, but the task has been dispatched again. *)
Theorem requeue_dispatches_first q d id e subject task now :
  dlq_entries q !! id = Some e →
  ∃ q' r,
    requeue_dlq_entry q d id subject task now = (q', (d ++ [(task_name e, dlq_payload e)])%list, r)
    ∧ if is_open (dlq_status e)
      then r = Http200 (as_requeued e subject task now)
           ∧ mark_requeued q id subject task now = Ok (q', as_requeued e subject task now)
      else q' = q ∧ r = HttpError 409.
Proof.
  intros He. unfold requeue_dlq_entry, mark_requeued, dlq_get. rewrite He /=.
  destruct (is_open (dlq_status e)); simpl; eauto 10.
Qed.

(** ** Transient exceptions *)
Definition causes (heap : gmap positive exc_object) (p p' : positive) : Prop :=
  ∃ x, heap !! p = Some x ∧ cause x = Some p'.

Definition transient_at (heap : gmap positive exc_object) (p : positive) : Prop :=
  ∃ x, heap !! p = Some x ∧ isinstance x TRANSIENT_EXCEPTION_TYPES = true.

(** The visited exceptions are not transient, and their causes are visited or
    next. *)
Definition visited_ok (heap : gmap positive exc_object) (seen : gset positive)
    (current : option positive) : Prop :=
  ∀ s, s ∈ seen → ∃ x, heap !! s = Some x ∧ isinstance x TRANSIENT_EXCEPTION_TYPES = false
    ∧ (cause x = current ∨ ∃ s', cause x = Some s' ∧ s' ∈ seen).

Definition dead_end (heap : gmap positive exc_object) (seen : gset positive) (p : positive) : Prop :=
  p ∈ seen ∨ heap !! p = None.

Lemma visited_closed heap seen current p p' :
  visited_ok heap seen current → (∀ c, current = Some c → dead_end heap seen c) →
  rtc (causes heap) p p' → dead_end heap seen p → ¬ transient_at heap p'.
Proof.
  intros Hv Hc Hr. induction Hr as [p|p1 p2 p3 (y & Hy & Hn) _ IH]; intros Hp.
  - intros (x' & Hx' & Hi'). destruct Hp as [Hp|Hp]; [|congruence].
    destruct (Hv _ Hp) as (x & Hx & Hi & _). congruence.
  - apply IH. destruct Hp as [Hp|Hp]; [|congruence].
    destruct (Hv _ Hp) as (x & Hx & _ & [Hx'|(s' & Hs' & Hin)]); simplify_eq.
    + apply Hc. congruence.
    + by left.
Qed.

Lemma visited_next heap seen p x :
  visited_ok heap seen (Some p) → heap !! p = Some x →
  isinstance x TRANSIENT_EXCEPTION_TYPES = false →
  visited_ok heap ({[p]} ∪ seen) (cause x).
Proof.
  intros Hv Hx Hi s [->%elem_of_singleton|Hs]%elem_of_union; [by eauto|].
  destruct (Hv _ Hs) as (y & Hy & Hiy & [Hc|(s' & Hs' & Hin)]); exists y; split_and!; try done; right.
  - exists p. split; [done|]. set_solver.
  - exists s'. split; [done|]. set_solver.
Qed.

Lemma transient_loop_spec heap start fuel seen current :
  seen ⊆ dom heap → (size heap < fuel + size seen)%nat →
  visited_ok heap seen current →
  (start ∈ seen ∨ current = Some start) →
  (∀ p, current = Some p → rtc (causes heap) start p) →
  ∃ b, transient_loop heap (S fuel) seen current = Some b
    ∧ (b = true ↔ ∃ p, rtc (causes heap) start p ∧ transient_at heap p).
Proof.
  revert seen current. induction fuel as [|fuel IH]; intros seen current Hd Hf Hv Hs Hr.
  { apply subseteq_size in Hd. rewrite size_dom in Hd. lia. }
  assert (Hstop : (∀ c, current = Some c → dead_end heap seen c) →
    false = true ↔ ∃ p, rtc (causes heap) start p ∧ transient_at heap p).
  { intros Hc. split; [done|]. intros (p & Hp & Ht).
    destruct (visited_closed _ _ _ _ _ Hv Hc Hp); [|done]. destruct Hs; [by left|by apply Hc]. }
  remember (S fuel) as fuel1. cbn [transient_loop]. subst fuel1. destruct current as [p|].
  2:{ exists false. split; [done|]. by apply Hstop. }
  case_decide as Hp.
  { exists false. split; [done|]. apply Hstop. intros c [= <-]. by left. }
  destruct (heap !! p) as [x|] eqn:Ex.
  2:{ exists false. split; [done|]. apply Hstop. intros c [= <-]. by right. }
  destruct (isinstance x TRANSIENT_EXCEPTION_TYPES) eqn:Ei.
  { exists true. split; [done|]. split; [|done]. intros _. exists p. split; [auto|]. by exists x. }
  apply IH.
  - apply union_subseteq. split; [|done]. apply singleton_subseteq_l, elem_of_dom. eauto.
  - rewrite size_union; [|set_solver]. rewrite size_singleton. lia.
  - by apply visited_next.
  - left. destruct Hs as [|[= ->]]; set_solver.
  - intros p' Hp'. eapply rtc_r; [by apply Hr|]. by exists x.
Qed.

(** The retry classifier always answers, on cyclic cause chains too, and
    answers yes exactly when the exception or one of its transitive causes is
    an instance of a transient type. *)
Theorem is_transient_correct heap exc :
  ∃ b, is_transient heap exc = Some b
    ∧ (b = true ↔ ∃ p, rtc (causes heap) exc p ∧ transient_at heap p).
Proof.
  apply transient_loop_spec.
  - apply empty_subseteq.
  - rewrite size_empty. lia.
  - intros s Hs. by apply not_elem_of_empty in Hs.
  - by right.
  - by intros p [= <-].
Qed.

(** ** Witnesses: a parsing failure, parked, resolved and asked for again *)
Definition t0 : datetime := Datetime 63900000000000000 (Some 0).
Definition bad_pdf : caught := Caught "UnsupportedFileError" "not a PDF" "Traceback".
Definition w_payload : json := JObj [("url", JStr "https://sebi/x.pdf")].
Definition w_parked : DeadLetterQueue :=
  (send empty_dlq PDF_PARSING "app.ingestion.tasks.parse" w_payload bad_pdf None 1 "e1" t0).1.
Definition w_entry : DLQEntry :=
  (send empty_dlq PDF_PARSING "app.ingestion.tasks.parse" w_payload bad_pdf None 1 "e1" t0).2.
Definition w_closed : DeadLetterQueue :=
  _move_status w_parked DLQ_PENDING (as_closed w_entry RESOLVED "ops" None t0).

Lemma w_parked_step : dlq_step empty_dlq w_parked.
Proof. apply (step_send empty_dlq). reflexivity. Qed.
Lemma w_closed_step : dlq_step w_parked w_closed.
Proof.
  apply (step_resolve w_parked "e1" "ops" None t0
           (w_closed, as_closed w_entry RESOLVED "ops" None t0)). reflexivity.
Qed.
Lemma w_parked_consistent : dlq_consistent w_parked.
Proof. exact (dlq_step_consistent _ _ empty_dlq_consistent w_parked_step). Qed.

Lemma dlq_indexes_witness : dlq_consistent w_closed ∧ zsets w_closed (IdxStatus DLQ_PENDING) = ∅.
Proof.
  split; [|reflexivity]. apply dlq_indexes_consistent.
  exact (rtc_l _ _ _ _ w_parked_step (rtc_once _ _ w_closed_step)).
Defined.

Lemma dlq_list_witness :
  dlq_list w_parked (Some PDF_PARSING) (Some DLQ_PENDING) 50 0 =
  take 50 (drop 0 (filter (selected (Some PDF_PARSING) (Some DLQ_PENDING))
                     (newest_first (dlq_entries w_parked))))
  ∧ dlq_list w_parked (Some PDF_PARSING) (Some DLQ_PENDING) 50 0 = [w_entry].
Proof.
  split; [|vm_compute; reflexivity].
  exact (dlq_list_exact w_parked (Some PDF_PARSING) (Some DLQ_PENDING) 50 0 w_parked_consistent).
Defined.

Lemma dlq_stats_witness :
  dlq_total (stats w_parked) = 1 ∧ sum_counts (by_status (stats w_parked)) = 1.
Proof.
  destruct (dlq_stats_add_up w_parked w_parked_consistent) as (H1 & _ & H3).
  split; [rewrite H1; reflexivity|]. rewrite H3 H1. reflexivity.
Defined.

Lemma dlq_lifecycle_witness : ∃ e', dlq_entries w_closed !! "e1" = Some e' ∧ evolves w_entry e'.
Proof.
  apply (dlq_lifecycle w_parked w_closed "e1" w_entry w_parked_consistent
           (rtc_once _ _ w_closed_step)). reflexivity.
Defined.

Lemma requeue_witness :
  ∃ q' r, requeue_dlq_entry w_closed [] "e1" "ops" "celery-2" t0 =
          (q', [("app.ingestion.tasks.parse", w_payload)], r) ∧ q' = w_closed ∧ r = HttpError 409.
Proof.
  destruct (requeue_dispatches_first w_closed [] "e1" (as_closed w_entry RESOLVED "ops" None t0)
              "ops" "celery-2" t0 eq_refl) as (q' & r & H & Hr).
  exists q', r. split; [exact H|exact Hr].
Defined.
