(* ===== verification/Canary.v ===== *)
(** * Shadow execution: canary releases

    [src/app/canary/models.py], [store.py], [parity.py], [mirroring.py],
    [opa_publisher.py], [orchestrator.py] and [tasks.py].

    The world of a canary is its Redis state, the modules resident in the
    production OPA server and the policy events published so far.  The replies
    of OPA, the clock, uuids, latencies and the prose of resolution reasons
    are supplied by the caller. *)
From S2P Require Import Prelude PyStr PyFloat Json Datetime Compiler ExecModels Policies.
From S2P Require Import Execution.
From Stdlib Require Import SpecFloat.

Open Scope string_scope.
Open Scope Z_scope.

(** ** Data *)
Inductive CanaryStatus := RUNNING | PROMOTED | ROLLED_BACK.
#[export] Instance CanaryStatus_eq_dec : EqDecision CanaryStatus.
Proof. solve_decision. Defined.

Record ComparisonResult := Comparison
  { cmp_transaction_id : string
  ; production_decision : Decision
  ; candidate_decision : Decision
  ; production_latency_ms : spec_float
  ; candidate_latency_ms : spec_float
  ; production_error : option string
  ; candidate_error : option string }.

Definition is_diverged (c : ComparisonResult) : bool :=
  negb (bool_decide (production_decision c = candidate_decision c)).

Record CanaryWindowStats := WindowStats
  { total_compared : Z
  ; matched : Z
  ; diverged : Z
  ; decision_breakdown : gmap string Z
  ; production_latency_ms_sum : spec_float
  ; candidate_latency_ms_sum : spec_float }.

Definition empty_stats : CanaryWindowStats :=
  WindowStats 0 0 0 ∅ (float_of_Z 0) (float_of_Z 0).

Definition divergence_pct (s : CanaryWindowStats) : spec_float :=
  if total_compared s =? 0 then float_of_Z 0
  else float_div (float_of_Z (diverged s)) (float_of_Z (total_compared s)).

Record CanaryRun := Run
  { canary_id : string
  ; cr_rule_id : string
  ; cr_tenant_id : option string
  ; production_package : string
  ; candidate_package : string
  ; candidate_opa_rule_id : string
  ; candidate_compiled_rule_id : Z
  ; cr_status : CanaryStatus
  ; cr_stats : CanaryWindowStats
  ; started_at : datetime
  ; cr_resolved_at : option datetime
  ; resolution_reason : option string }.

(** [(now - started_at).total_seconds() >= window_seconds], in microseconds. *)
Definition window_elapsed (r : CanaryRun) (window_seconds : Z) (now : datetime) : bool :=
  window_seconds * 1000000 <=? utc_us now - utc_us (started_at r).

Inductive CanaryDecision := CONTINUE | PROMOTE | ROLLBACK.

Inductive canary_error :=
| NoSuchCanary (* KeyError *)
| CanaryAlreadyResolved (st : CanaryStatus)
| NotPublished (* "CompiledRule ... has no opa_package_name" *)
| CandidateGone (* "CompiledRule ... no longer exists" *)
| PublishError (e : publish_error)
| CanaryOpaError
| NameError (name : string).

(** ** The store *)
Record CanaryStore := CStore { canary_runs : gmap string CanaryRun; active_set : gset string }.

Definition canary_create (s : CanaryStore) (run : CanaryRun) : CanaryStore :=
  CStore (<[canary_id run := run]> (canary_runs s)) ({[canary_id run]} ∪ active_set s).

Definition canary_get (s : CanaryStore) (id : string) : option CanaryRun := canary_runs s !! id.

Definition is_running (r : CanaryRun) : bool := bool_decide (cr_status r = RUNNING).

Definition list_active (s : CanaryStore) : list CanaryRun :=
  merge_sort (key_le (λ r, utc_us (started_at r)))
    (List.filter is_running (omap (canary_get s) (elements (active_set s)))).

Definition breakdown_key (c : ComparisonResult) : string :=
  decision_value (production_decision c) +:+ "|" +:+ decision_value (candidate_decision c).

Definition add_comparison (s : CanaryWindowStats) (c : ComparisonResult) : CanaryWindowStats :=
  {| total_compared := total_compared s + 1;
     matched := if is_diverged c then matched s else matched s + 1;
     diverged := if is_diverged c then diverged s + 1 else diverged s;
     decision_breakdown :=
       <[breakdown_key c := default 0 (decision_breakdown s !! breakdown_key c) + 1]>
         (decision_breakdown s);
     production_latency_ms_sum := float_add (production_latency_ms_sum s) (production_latency_ms c);
     candidate_latency_ms_sum := float_add (candidate_latency_ms_sum s) (candidate_latency_ms c) |}.

Definition with_stats (r : CanaryRun) (st : CanaryWindowStats) : CanaryRun :=
  Run (canary_id r) (cr_rule_id r) (cr_tenant_id r) (production_package r) (candidate_package r)
    (candidate_opa_rule_id r) (candidate_compiled_rule_id r) (cr_status r) st (started_at r)
    (cr_resolved_at r) (resolution_reason r).

(** [record_comparison] reads the run and writes it back in two commands. *)
Definition write_run (s : CanaryStore) (id : string) (run : CanaryRun) : CanaryStore :=
  CStore (<[id := run]> (canary_runs s)) (active_set s).

Definition record_comparison (s : CanaryStore) (id : string) (c : ComparisonResult)
  : res canary_error (CanaryStore * CanaryRun) :=
  match canary_get s id with
  | None => Raise NoSuchCanary
  | Some run =>
      let run := with_stats run (add_comparison (cr_stats run) c) in
      Ok (write_run s id run, run)
  end.

Definition _resolve (s : CanaryStore) (id : string) (st : CanaryStatus) (reason : string)
    (now : datetime) : res canary_error (CanaryStore * CanaryRun) :=
  match canary_get s id with
  | None => Raise NoSuchCanary
  | Some r =>
      if negb (bool_decide (cr_status r = RUNNING)) then Raise (CanaryAlreadyResolved (cr_status r))
      else
        let r' := Run (canary_id r) (cr_rule_id r) (cr_tenant_id r) (production_package r)
                    (candidate_package r) (candidate_opa_rule_id r) (candidate_compiled_rule_id r)
                    st (cr_stats r) (started_at r) (Some now) (Some reason) in
        Ok (CStore (<[id := r']> (canary_runs s)) (active_set s ∖ {[id]}), r')
  end.

Definition mark_promoted s id reason now := _resolve s id PROMOTED reason now.
Definition mark_rolled_back s id reason now := _resolve s id ROLLED_BACK reason now.

(** ** The namespaced copy in OPA *)
Definition canary_opa_rule_id (id rule_id : string) : string :=
  "canary_" +:+ id +:+ "_" +:+ rule_id.

Definition canary_package (id pkg : string) : string :=
  "canary." +:+ replace_char "-" "_" id +:+ "." +:+ pkg.

Definition is_package_line (line : string) : bool := startswith "package " (strip line).

Definition _rewrite_package_declaration (code new_package : string) : string :=
  join (String newline "")
    (map (λ line, if is_package_line line then "package " +:+ new_package else line)
       (splitlines code)).

Record canary_world := World
  { cw_store : CanaryStore
  ; cw_opa : gmap string string
  ; cw_events : list PolicyEvent }.

(** [publish_candidate]; [opa_ok] says whether OPA accepts the request. *)
Definition publish_candidate (opa : gmap string string) (id : string) (candidate : CompiledRego)
    (opa_ok : bool) : res canary_error (gmap string string * (string * string)) :=
  let rid := canary_opa_rule_id id (rg_rule_id candidate) in
  let pkg := canary_package id (package candidate) in
  if opa_ok then
    Ok (<[rid := _rewrite_package_declaration (rego_code candidate) pkg]> opa, (rid, pkg))
  else Raise CanaryOpaError.

Definition remove_candidate (opa : gmap string string) (rid : string) (opa_ok : bool)
  : res canary_error (gmap string string) :=
  if opa_ok then Ok (delete rid opa) else Raise CanaryOpaError.

(** ** The orchestrator *)
Record CanarySettings := Settings
  { promotion_max_divergence_pct : spec_float
  ; rollback_divergence_pct : spec_float
  ; rollback_min_sample_size : Z
  ; evaluation_window_seconds : Z }.

Definition start_canary (w : canary_world) (production : published_rule) (tenant : option string)
    (candidate : CompiledRego) (compiled_id : Z) (new_id : string) (now : datetime) (opa_ok : bool)
  : res canary_error (canary_world * CanaryRun) :=
  if negb (truthy (opa_package_name production)) then Raise NotPublished
  else
    res_bind (publish_candidate (cw_opa w) new_id candidate opa_ok) (λ x,
      let '(opa, (rid, pkg)) := x in
      let run := Run new_id (pr_rule_id production) tenant (str_or (opa_package_name production) "")
                   pkg rid compiled_id RUNNING empty_stats now None None in
      Ok (World (canary_create (cw_store w) run) opa (cw_events w), run)).

Definition rollback_bar (c : CanarySettings) (s : CanaryWindowStats) : bool :=
  (rollback_min_sample_size c <=? total_compared s)
  && flt_leb (rollback_divergence_pct c) (divergence_pct s).

Definition evaluate_window (s : CanaryStore) (c : CanarySettings) (now : datetime) (id : string)
  : CanaryDecision :=
  match canary_get s id with
  | None => CONTINUE
  | Some run =>
      if negb (is_running run) then CONTINUE
      else if rollback_bar c (cr_stats run) then ROLLBACK
      else if window_elapsed run (evaluation_window_seconds c) now
              && flt_leb (divergence_pct (cr_stats run)) (promotion_max_divergence_pct c)
      then PROMOTE
      else CONTINUE
  end.

Definition rollback (w : canary_world) (id reason : string) (now : datetime) (opa_ok : bool)
  : res canary_error (canary_world * CanaryRun) :=
  match canary_get (cw_store w) id with
  | None => Raise NoSuchCanary
  | Some run =>
      if negb (is_running run) then Ok (w, run)
      else
        res_bind (remove_candidate (cw_opa w) (candidate_opa_rule_id run) opa_ok) (λ opa,
          res_bind (mark_rolled_back (cw_store w) id reason now) (λ x,
            Ok (World x.1 opa (cw_events w), x.2)))
  end.

(** The event that a publisher without direct OPA, registry or cache emits. *)
Definition approved_event (rule : published_rule) (by_ : string) : res publish_error PolicyEvent :=
  res_bind (publish_approved (Process ∅ (Cache ∅ ∅ 0 0 0)) rule by_ [] true) (λ x, Ok x.2).

Definition promote (w : canary_world) (id : string) (candidate_rule : option published_rule)
    (reason : string) (now : datetime) (opa_ok : bool)
  : canary_world * res canary_error CanaryRun :=
  match canary_get (cw_store w) id with
  | None => (w, Raise NoSuchCanary)
  | Some run =>
      if negb (is_running run) then (w, Ok run)
      else match candidate_rule with
      | None => (w, Raise CandidateGone)
      | Some rule =>
          match approved_event rule "canary-auto-promotion" with
          | Raise e => (w, Raise (PublishError e))
          | Ok ev =>
              let w1 := World (cw_store w) (cw_opa w) (cw_events w ++ [ev])%list in
              match remove_candidate (cw_opa w1) (candidate_opa_rule_id run) opa_ok with
              | Raise e => (w1, Raise e)
              | Ok opa =>
                  let w2 := World (cw_store w1) opa (cw_events w1) in
                  match mark_promoted (cw_store w2) id reason now with
                  | Raise e => (w2, Raise e)
                  | Ok (st, r) => (World st opa (cw_events w2), Ok r)
                  end
              end
          end
      end
  end.

(** ** Parity analysis and traffic shadowing *)
Definition decision_from_opa_result (result : option opa_decision) : Decision :=
  match result with
  | None => FLAGGED
  | Some d => match od_violations d with [] => ALLOW | _ => DENY end
  end.

Definition compare_and_record (s : CanaryStore) (id transaction_id : string)
    (production : option opa_decision * spec_float * option string)
    (candidate : option opa_decision * spec_float * option string)
  : res canary_error (CanaryStore * ComparisonResult) :=
  let '(pr, pl, pe) := production in
  let '(cr, cl, ce) := candidate in
  let comparison :=
    {| cmp_transaction_id := transaction_id;
       production_decision := if truthy pe then FLAGGED else decision_from_opa_result pr;
       candidate_decision := if truthy ce then FLAGGED else decision_from_opa_result cr;
       production_latency_ms := pl; candidate_latency_ms := cl;
       production_error := pe; candidate_error := ce |} in
  res_bind (record_comparison s id comparison) (λ x, Ok (x.1, comparison)).

Definition check_rollback_spike (s : CanaryStore) (c : CanarySettings) (id : string)
  : CanaryDecision :=
  match canary_get s id with
  | None => CONTINUE
  | Some run =>
      if total_compared (cr_stats run) <? rollback_min_sample_size c then CONTINUE
      else if flt_leb (rollback_divergence_pct c) (divergence_pct (cr_stats run)) then ROLLBACK
      else CONTINUE
  end.

(** [err] is the text of the [OPAEngineError]. *)
Definition _timed_evaluate (reply : opa_reply) (latency : spec_float) (err : string)
  : option opa_decision * spec_float * option string :=
  match reply with
  | OpaFailure => (None, latency, Some err)
  | OpaUndefined => (None, latency, None)
  | OpaResult d => (Some d, latency, None)
  end.

Definition _shadow_evaluate (w : canary_world) (c : CanarySettings) (run : CanaryRun)
    (transaction_id : string) (opa : string → opa_reply) (pl cl : spec_float) (err : string)
    (now : datetime) (opa_ok : bool) : canary_world * res canary_error () :=
  match compare_and_record (cw_store w) (canary_id run) transaction_id
          (_timed_evaluate (opa (production_package run)) pl err)
          (_timed_evaluate (opa (candidate_package run)) cl err) with
  | Raise e => (w, Raise e)
  | Ok (st, _) =>
      let w1 := World st (cw_opa w) (cw_events w) in
      match check_rollback_spike st c (canary_id run) with
      | ROLLBACK =>
          match rollback w1 (canary_id run)
                  ("Divergence spike detected in real time (candidate_opa_rule_id="
                   +:+ candidate_opa_rule_id run +:+ ").") now opa_ok with
          | Ok (w2, _) => (w2, Ok ())
          | Raise e => (w1, Raise e)
          end
      | _ => (w1, Ok ())
      end
  end.

(** [shadow_evaluate] swallows every exception. *)
Definition shadow_evaluate (w : canary_world) (c : CanarySettings) (run : CanaryRun)
    (transaction_id : string) (opa : string → opa_reply) (pl cl : spec_float) (err : string)
    (now : datetime) (opa_ok : bool) : canary_world :=
  (_shadow_evaluate w c run transaction_id opa pl cl err now opa_ok).1.

(** ** The periodic sweep and the promotion task

    [enqueued] lists the canaries whose [promote_canary_task] was enqueued;
    [outcome_counts] counts "continue", "promoted_enqueued" and "rolled_back". *)
Record outcome_counts := Counts { n_continue : Z; n_promoted_enqueued : Z; n_rolled_back : Z }.

Fixpoint sweep_runs (w : canary_world) (c : CanarySettings) (now : datetime) (opa_ok : bool)
    (reason : CanaryRun → string) (runs : list CanaryRun) (enqueued : list string)
    (n : outcome_counts) : canary_world * list string * res canary_error outcome_counts :=
  match runs with
  | [] => (w, enqueued, Ok n)
  | run :: runs' =>
      match evaluate_window (cw_store w) c now (canary_id run) with
      | ROLLBACK =>
          match rollback w (canary_id run) (reason run) now opa_ok with
          | Raise e => (w, enqueued, Raise e)
          | Ok (w', _) =>
              sweep_runs w' c now opa_ok reason runs' enqueued
                (Counts (n_continue n) (n_promoted_enqueued n) (n_rolled_back n + 1))
          end
      | PROMOTE =>
          sweep_runs w c now opa_ok reason runs' (enqueued ++ [canary_id run])%list
            (Counts (n_continue n) (n_promoted_enqueued n + 1) (n_rolled_back n))
      | CONTINUE =>
          sweep_runs w c now opa_ok reason runs' enqueued
            (Counts (n_continue n + 1) (n_promoted_enqueued n) (n_rolled_back n))
      end
  end.

Definition _evaluate_canary_windows (w : canary_world) (c : CanarySettings) (now : datetime)
    (opa_ok : bool) (reason : CanaryRun → string)
  : canary_world * list string * res canary_error outcome_counts :=
  sweep_runs w c now opa_ok reason (list_active (cw_store w)) [] (Counts 0 0 0).

(** The body reads the global name [PolicyPublisher], which the module neither
    defines nor imports, before it calls [promote]. *)
Definition tasks_module_globals : list string :=
  ["annotations"; "asyncio"; "logging"; "async_redis"; "async_sessionmaker";
   "create_async_engine"; "get_canary_orchestrator"; "CanaryDecision"; "get_settings";
   "celery_app"; "PolicyEventPublisher"; "logger"; "evaluate_canary_windows_task";
   "_evaluate_canary_windows"; "promote_canary_task"; "_promote_canary"].

Definition _promote_canary (globals : list string) (w : canary_world) (id : string)
    (candidate_rule : option published_rule) (reason : string) (now : datetime) (opa_ok : bool)
  : canary_world * res canary_error CanaryRun :=
  if existsb (String.eqb "PolicyPublisher") globals
  then promote w id candidate_rule reason now opa_ok
  else (w, Raise (NameError "PolicyPublisher")).
