(* ===== verification/CanaryFacts.v ===== *)
(** * Correctness of canary releases

    The invariant of the canary store, the isolation of production, the
    rollback guarantee, and what the promotion path does. *)
From S2P Require Import Prelude PyStr PyFloat Json Datetime Compiler ExecModels Policies.
From S2P Require Import Execution Canary.
From Stdlib Require Import SpecFloat.

Open Scope string_scope.
Open Scope Z_scope.

(** ** Steps of the service

    [ok] says whether OPA accepts removals. *)
Inductive canary_step (c : CanarySettings) (ok : bool) (w : canary_world) : canary_world → Prop :=
| cs_start production tenant candidate compiled_id new_id now opa_ok r :
    canary_get (cw_store w) new_id = None →
    start_canary w production tenant candidate compiled_id new_id now opa_ok = Ok r →
    canary_step c ok w r.1
| cs_shadow run tx opa pl cl err now :
    canary_step c ok w (shadow_evaluate w c run tx opa pl cl err now ok)
| cs_sweep now reason :
    canary_step c ok w (_evaluate_canary_windows w c now ok reason).1.1
| cs_promote_task id rule reason now :
    canary_step c ok w (_promote_canary tasks_module_globals w id rule reason now ok).1.

Definition is_canary_id (rid : string) : Prop := startswith "canary_" rid = true.

Definition stats_ok (s : CanaryWindowStats) : Prop :=
  0 <= matched s ∧ 0 <= diverged s ∧ total_compared s = matched s + diverged s.

Record canary_inv (w : canary_world) : Prop :=
  { ci_id : ∀ id r, canary_get (cw_store w) id = Some r → canary_id r = id
  ; ci_active : ∀ id, id ∈ active_set (cw_store w) ↔
      ∃ r, canary_get (cw_store w) id = Some r ∧ cr_status r = RUNNING
  ; ci_stats : ∀ id r, canary_get (cw_store w) id = Some r → stats_ok (cr_stats r)
  ; ci_opa_id : ∀ id r, canary_get (cw_store w) id = Some r → is_canary_id (candidate_opa_rule_id r) }.

(** A run moves on: it keeps its identity, and once resolved its resolution. *)
Definition run_evolves (r r' : CanaryRun) : Prop :=
  candidate_opa_rule_id r' = candidate_opa_rule_id r
  ∧ production_package r' = production_package r
  ∧ (cr_status r ≠ RUNNING →
     (cr_status r', cr_resolved_at r', resolution_reason r') =
     (cr_status r, cr_resolved_at r, resolution_reason r))
  ∧ (cr_status r' = PROMOTED → cr_status r = PROMOTED).

#[export] Instance run_evolves_refl : Reflexive run_evolves.
Proof. done. Qed.
#[export] Instance run_evolves_trans : Transitive run_evolves.
Proof.
  intros r1 r2 r3 (A1 & B1 & C1 & D1) (A2 & B2 & C2 & D2). split_and!; [congruence..| |auto].
  intros Hr. specialize (C1 Hr) as E. rewrite C2; [done|]. by simplify_eq/=; rewrite H.
Qed.

(** What a step may not do: touch a module outside the canary namespace,
    publish a policy event, lose a run or reopen a resolved one, or promote. *)
Record canary_frame (w w' : canary_world) : Prop :=
  { cf_opa : ∀ rid, ¬ is_canary_id rid → cw_opa w' !! rid = cw_opa w !! rid
  ; cf_events : cw_events w' = cw_events w
  ; cf_runs : ∀ id r, canary_get (cw_store w) id = Some r →
      ∃ r', canary_get (cw_store w') id = Some r' ∧ run_evolves r r'
  ; cf_new : ∀ id r', canary_get (cw_store w) id = None → canary_get (cw_store w') id = Some r' →
      cr_status r' ≠ PROMOTED }.

#[export] Instance canary_frame_refl : Reflexive canary_frame.
Proof. intros w. split; [done..| |congruence]. intros id r Hr. exists r. split; [done|reflexivity]. Qed.
#[export] Instance canary_frame_trans : Transitive canary_frame.
Proof.
  intros w1 w2 w3 [A1 B1 C1 D1] [A2 B2 C2 D2]. split.
  - intros rid H. by rewrite A2 // A1.
  - congruence.
  - intros id r (r2 & H2 & E2)%C1. destruct (C2 _ _ H2) as (r3 & H3 & E3).
    exists r3. split; [done|by transitivity r2].
  - intros id r3 H1 H3. destruct (canary_get (cw_store w2) id) as [r2|] eqn:H2; [|by eapply D2].
    destruct (C2 _ _ H2) as (r3' & H3' & _ & _ & _ & Hp). simplify_eq.
    intros Hp'. exact (D1 _ _ H1 H2 (Hp Hp')).
Qed.

(** Replacing one run of the store. *)
Lemma canary_frame_write w id r r' active opa :
  canary_get (cw_store w) id = Some r → run_evolves r r' →
  (∀ rid, ¬ is_canary_id rid → opa !! rid = cw_opa w !! rid) →
  canary_frame w (World (CStore (<[id := r']> (canary_runs (cw_store w))) active) opa (cw_events w)).
Proof.
  intros Hr He Ho. split; simpl; [done..| |].
  - intros id' x Hx. unfold canary_get in *. simpl. destruct (decide (id' = id)) as [->|Hne].
    + rewrite lookup_insert_eq. simplify_eq. eauto.
    + rewrite lookup_insert_ne; [|done]. exists x. split; [done|reflexivity].
  - intros id' x Hn. unfold canary_get in *. simpl. rewrite lookup_insert_ne; [congruence|].
    intros <-. congruence.
Qed.

Lemma add_comparison_ok s c : stats_ok s → stats_ok (add_comparison s c).
Proof. unfold stats_ok, add_comparison. simpl. destruct (is_diverged c); simpl; lia. Qed.

(** ** Recording *)
Lemma record_comparison_good w id c x :
  canary_inv w → record_comparison (cw_store w) id c = Ok x →
  let w' := World x.1 (cw_opa w) (cw_events w) in canary_inv w' ∧ canary_frame w w'.
Proof.
  intros [Hi Ha Hs Ho] H. unfold record_comparison in H.
  destruct (canary_get (cw_store w) id) as [r|] eqn:Hr; [|done]. injection H as <-. simpl.
  split; [|by eapply canary_frame_write].
  split; simpl; unfold canary_get in *; simpl.
  - intros id' r'. rewrite lookup_insert_Some. intros [[<- <-]|[_ ?]]; simpl; eauto.
  - intros id'. rewrite Ha. destruct (decide (id' = id)) as [->|Hne].
    + rewrite lookup_insert_eq Hr. split; intros (x & [= <-] & Hx); eauto.
    + by rewrite lookup_insert_ne.
  - intros id' r'. rewrite lookup_insert_Some. intros [[<- <-]|[_ ?]]; simpl; eauto using add_comparison_ok.
  - intros id' r'. rewrite lookup_insert_Some. intros [[<- <-]|[_ ?]]; simpl; eauto.
Qed.

(** ** Rolling back *)
Lemma rollback_good w id reason now ok x :
  canary_inv w → rollback w id reason now ok = Ok x → canary_inv x.1 ∧ canary_frame w x.1.
Proof.
  intros HI H. unfold rollback in H.
  destruct (canary_get (cw_store w) id) as [r|] eqn:Hr; [|done].
  unfold is_running in H. case_bool_decide as Hrun; simpl in H; [|injection H as <-; split; [done|reflexivity]].
  destruct ok; [|done]. simpl in H. unfold mark_rolled_back, _resolve in H.
  rewrite Hr bool_decide_eq_true_2 //= in H. injection H as <-. simpl.
  destruct HI as [Hi Ha Hs Ho]. split.
  - split; simpl; unfold canary_get in *; simpl.
    + intros id' r'. rewrite lookup_insert_Some. intros [[<- <-]|[_ ?]]; simpl; eauto.
    + intros id'. rewrite elem_of_difference elem_of_singleton Ha.
      destruct (decide (id' = id)) as [->|Hne].
      * rewrite lookup_insert_eq. split; [by intros []|]. by intros (? & [= <-] & ?).
      * rewrite lookup_insert_ne; [|done]. naive_solver.
    + intros id' r'. rewrite lookup_insert_Some. intros [[<- <-]|[_ ?]]; simpl; eauto.
    + intros id' r'. rewrite lookup_insert_Some. intros [[<- <-]|[_ ?]]; simpl; eauto.
  - eapply canary_frame_write; [done| |].
    + split_and!; simpl; done.
    + intros rid Hn. rewrite lookup_delete_ne; [done|]. intros <-. apply Hn. by eapply Ho.
Qed.

(** ** Starting *)
Lemma startswith_app p s : startswith p (p +:+ s) = true.
Proof.
  unfold startswith. induction p as [|c p IH]; [by destruct s|].
  simpl. destruct (ascii_dec c c); done.
Qed.

Lemma canary_rule_id_namespaced id rid : is_canary_id (canary_opa_rule_id id rid).
Proof. unfold is_canary_id, canary_opa_rule_id. apply startswith_app. Qed.

Lemma empty_stats_ok : stats_ok empty_stats.
Proof. done. Qed.

Lemma start_canary_good w production tenant candidate compiled_id new_id now opa_ok x :
  canary_inv w → canary_get (cw_store w) new_id = None →
  start_canary w production tenant candidate compiled_id new_id now opa_ok = Ok x →
  canary_inv x.1 ∧ canary_frame w x.1.
Proof.
  intros [Hi Ha Hs Ho] Hn H. unfold start_canary, publish_candidate in H.
  destruct (negb _); [done|]. destruct opa_ok; [|done]. cbn [res_bind] in H.
  injection H as <-. cbn [fst]. unfold canary_get in *. split.
  - split; simpl; unfold canary_get; simpl.
    + intros id' r'. rewrite lookup_insert_Some. intros [[<- <-]|[_ ?]]; eauto.
    + intros id'. rewrite elem_of_union elem_of_singleton Ha.
      destruct (decide (id' = new_id)) as [->|Hne].
      * rewrite lookup_insert_eq. split; [eauto|by left].
      * rewrite lookup_insert_ne; [|done]. naive_solver.
    + intros id' r'. rewrite lookup_insert_Some. intros [[<- <-]|[_ ?]]; eauto using empty_stats_ok.
    + intros id' r'. rewrite lookup_insert_Some.
      intros [[<- <-]|[_ ?]]; eauto using canary_rule_id_namespaced.
  - split; simpl; unfold canary_get; simpl.
    + intros rid Hr. rewrite lookup_insert_ne; [done|]. intros <-. apply Hr, canary_rule_id_namespaced.
    + done.
    + intros id r Hr. rewrite lookup_insert_ne; [|congruence]. exists r. split; [done|reflexivity].
    + intros id r' Hnone. rewrite lookup_insert_Some. intros [[<- <-]|[_ ?]]; [done|].
      unfold canary_get in Hnone. congruence.
Qed.

(** ** Shadowing and sweeping *)
Lemma compare_and_record_inv s id tx p q x :
  compare_and_record s id tx p q = Ok x → ∃ c y, record_comparison s id c = Ok y ∧ x.1 = y.1.
Proof.
  unfold compare_and_record. destruct p as [[??]?], q as [[??]?].
  intros (y & Hy & [= <-])%res_bind_Ok. eauto.
Qed.

Lemma shadow_good w c run tx opa pl cl err now ok :
  canary_inv w →
  let w' := shadow_evaluate w c run tx opa pl cl err now ok in canary_inv w' ∧ canary_frame w w'.
Proof.
  intros HI. unfold shadow_evaluate, _shadow_evaluate.
  destruct (compare_and_record _ _ _ _ _) as [[st cmp]|e] eqn:E; [|split; [done|reflexivity]].
  apply compare_and_record_inv in E as (c' & y & Hy & Hst). simpl in Hst. subst st.
  destruct (record_comparison_good _ _ _ _ HI Hy) as [HI1 HF1].
  destruct (check_rollback_spike _ _ _); simpl; [by split..|].
  destruct (rollback _ _ _ _ _) as [[w2 r2]|e] eqn:E2; [|by split].
  destruct (rollback_good _ _ _ _ _ _ HI1 E2) as [HI2 HF2]. split; [done|].
  by etransitivity.
Qed.

Lemma sweep_good runs w c now ok reason enq n :
  canary_inv w →
  let w' := (sweep_runs w c now ok reason runs enq n).1.1 in canary_inv w' ∧ canary_frame w w'.
Proof.
  revert w enq n. induction runs as [|run runs IH]; intros w enq n HI; simpl; [split; [done|reflexivity]|].
  destruct (evaluate_window _ _ _ _); [by apply IH..|].
  destruct (rollback _ _ _ _ _) as [[w2 r2]|e] eqn:E2; [|split; [done|reflexivity]].
  destruct (rollback_good _ _ _ _ _ _ HI E2) as [HI2 HF2].
  destruct (IH w2 enq (Counts (n_continue n) (n_promoted_enqueued n) (n_rolled_back n + 1)) HI2)
    as [HI3 HF3]. split; [done|]. by etransitivity.
Qed.

Lemma canary_step_good c ok w w' :
  canary_inv w → canary_step c ok w w' → canary_inv w' ∧ canary_frame w w'.
Proof.
  intros HI [????????? H| | |].
  - by eapply start_canary_good.
  - by apply shadow_good.
  - by apply sweep_good.
  - split; [done|reflexivity].
Qed.

Lemma canary_steps_good c ok w w' :
  canary_inv w → rtc (canary_step c ok) w w' → canary_inv w' ∧ canary_frame w w'.
Proof.
  intros HI Hs. induction Hs as [w|w1 w2 w3 H12 _ IH]; [split; [done|reflexivity]|].
  destruct (canary_step_good _ _ _ _ HI H12) as [HI2 HF2].
  destruct (IH HI2) as [HI3 HF3]. split; [done|]. by etransitivity.
Qed.


(** No canary is ever promoted automatically: the promotion task stops on an
    undefined name before it reaches [promote], so no run becomes PROMOTED and
    no policy event is published, however long the window and however well
    candidate and production agree. *)
Theorem canary_never_promoted c ok w w' :
  canary_inv w → (∀ id r, canary_get (cw_store w) id = Some r → cr_status r ≠ PROMOTED) →
  rtc (canary_step c ok) w w' →
  cw_events w' = cw_events w
  ∧ ∀ id r, canary_get (cw_store w') id = Some r → cr_status r ≠ PROMOTED.
Proof.
  intros HI Hn Hs. destruct (canary_steps_good _ _ _ _ HI Hs) as [_ [_ Fe Fr Fn]].
  split; [done|]. intros id r' Hr'. destruct (canary_get (cw_store w) id) as [r|] eqn:Hr.
  - destruct (Fr _ _ Hr) as (r2 & Hr2 & _ & _ & _ & Hp). simplify_eq. intros Hp'.
    exact (Hn _ _ Hr (Hp Hp')).
  - by eapply Fn.
Qed.

(** ** The rollback guarantee *)
Definition below_bar (c : CanarySettings) (w : canary_world) : Prop :=
  ∀ id r, canary_get (cw_store w) id = Some r → cr_status r = RUNNING →
    rollback_bar c (cr_stats r) = false.

Lemma check_rollback_spike_bar s c id r :
  canary_get s id = Some r →
  check_rollback_spike s c id = if rollback_bar c (cr_stats r) then ROLLBACK else CONTINUE.
Proof.
  unfold check_rollback_spike, rollback_bar. intros ->. rewrite Z.ltb_antisym.
  destruct (_ <=? _); simpl; [|done]. by destruct (flt_leb _ _).
Qed.

Lemma rollback_get w id reason now r :
  canary_get (cw_store w) id = Some r →
  ∃ w' r', rollback w id reason now true = Ok (w', r')
    ∧ (∀ id', id' ≠ id → canary_get (cw_store w') id' = canary_get (cw_store w) id')
    ∧ canary_get (cw_store w') id = Some r' ∧ cr_status r' ≠ RUNNING.
Proof.
  intros Hr. unfold rollback. rewrite Hr. unfold is_running. case_bool_decide as Hs; simpl.
  - unfold mark_rolled_back, _resolve. rewrite Hr bool_decide_eq_true_2 //=.
    eexists _, _. split; [reflexivity|]. unfold canary_get. simpl. split_and!.
    + intros id' Hne. by rewrite lookup_insert_ne.
    + apply lookup_insert_eq.
    + done.
  - exists w, r. done.
Qed.

Lemma rollback_below_bar c w id reason now x :
  (∀ id' r, id' ≠ id → canary_get (cw_store w) id' = Some r → cr_status r = RUNNING →
     rollback_bar c (cr_stats r) = false) →
  rollback w id reason now true = Ok x → below_bar c x.1.
Proof.
  intros Hb H. destruct (canary_get (cw_store w) id) as [r|] eqn:Hr.
  2:{ unfold rollback in H. by rewrite Hr in H. }
  destruct (rollback_get w id reason now r Hr) as (w' & r' & H' & Ho & Hg & Hs).
  rewrite H' in H. injection H as <-. intros id' x Hx Hrun.
  destruct (decide (id' = id)) as [->|Hne]; simpl in *; [congruence|].
  rewrite Ho in Hx; [|done]. by eapply Hb.
Qed.

Lemma shadow_below_bar c w run tx opa pl cl err now :
  below_bar c w → below_bar c (shadow_evaluate w c run tx opa pl cl err now true).
Proof.
  intros Hb. unfold shadow_evaluate, _shadow_evaluate.
  destruct (compare_and_record _ _ _ _ _) as [[st cmp]|e] eqn:E; [|done].
  apply compare_and_record_inv in E as (c' & y & Hy & Hst). simpl in Hst. subst st.
  unfold record_comparison in Hy.
  destruct (canary_get (cw_store w) (canary_id run)) as [r|] eqn:Hr; [|done]. injection Hy as <-.
  set (r1 := with_stats r (add_comparison (cr_stats r) c')). cbn [fst].
  set (st := write_run (cw_store w) (canary_id run) r1).
  assert (Hg : canary_get st (canary_id run) = Some r1) by apply lookup_insert_eq.
  assert (Ho : ∀ id x, id ≠ canary_id run → canary_get st id = Some x → cr_status x = RUNNING →
    rollback_bar c (cr_stats x) = false).
  { intros id x Hne. unfold canary_get. simpl. rewrite lookup_insert_ne; [|done]. apply Hb. }
  rewrite (check_rollback_spike_bar _ _ _ _ Hg).
  destruct (rollback_bar c (cr_stats r1)) eqn:Hbar; cbn [fst].
  - destruct (rollback_get (World st (cw_opa w) (cw_events w)) (canary_id run)
      ("Divergence spike detected in real time (candidate_opa_rule_id="
         +:+ candidate_opa_rule_id run +:+ ").") now r1 Hg) as (w2 & r2 & H2 & _).
    rewrite H2. eapply (rollback_below_bar c _ _ _ _ (w2, r2)); [|exact H2]. exact Ho.
  - intros id x Hx Hrun. destruct (decide (id = canary_id run)) as [->|Hne]; [|by eapply Ho].
    simpl in Hx. congruence.
Qed.

Lemma sweep_below_bar runs c w now reason enq n :
  below_bar c w → below_bar c (sweep_runs w c now true reason runs enq n).1.1.
Proof.
  revert w enq n. induction runs as [|run runs IH]; intros w enq n Hb; simpl; [done|].
  destruct (evaluate_window _ _ _ _); [by apply IH..|].
  destruct (rollback _ _ _ _ _) as [[w2 r2]|e] eqn:E2; [|done].
  apply IH. eapply (rollback_below_bar c w _ _ _ (w2, r2)); [|exact E2]. intros ????. by eapply Hb.
Qed.

(** While OPA accepts removals, a divergence spike is acted on at once: in
    every world the service can reach, no running canary has at least the
    minimum sample and a divergence at or above the rollback bar. *)
Theorem spike_rolls_back c w w' :
  0 < rollback_min_sample_size c → below_bar c w → rtc (canary_step c true) w w' → below_bar c w'.
Proof.
  intros Hmin Hb Hs. induction Hs as [w|w1 w2 w3 H12 _ IH]; [done|]. apply IH. clear IH.
  destruct H12 as [????????? H| | |].
  - unfold start_canary, publish_candidate in H.
    destruct (negb _); [done|]. destruct opa_ok; [|done]. cbn [res_bind] in H.
    injection H as <-. intros id r. unfold canary_get. simpl. rewrite lookup_insert_Some.
    intros [[<- <-]|[_ Hr]]; [|by eapply Hb]. intros _. unfold rollback_bar. simpl.
    by rewrite (proj2 (Z.leb_gt _ _)).
  - by apply shadow_below_bar.
  - by apply sweep_below_bar.
  - done.
Qed.

(** ** The statistics of a run *)

(** Recording a sequence of comparisons, one command pair after another. *)
Fixpoint record_all (s : CanaryStore) (id : string) (l : list ComparisonResult)
  : res canary_error CanaryStore :=
  match l with
  | [] => Ok s
  | c :: l' => res_bind (record_comparison s id c) (λ x, record_all x.1 id l')
  end.

Definition count_by (f : ComparisonResult → bool) (l : list ComparisonResult) : Z :=
  Z.of_nat (length (List.filter f l)).

Lemma count_by_cons f x l : count_by f (x :: l) = (if f x then 1 else 0) + count_by f l.
Proof. unfold count_by. simpl. destruct (f x); simpl; lia. Qed.

Lemma add_comparisons_count l s :
  let s' := fold_left add_comparison l s in
  total_compared s' = total_compared s + Z.of_nat (length l)
  ∧ diverged s' = diverged s + count_by is_diverged l
  ∧ matched s' = matched s + count_by (λ c, negb (is_diverged c)) l
  ∧ ∀ k, default 0 (decision_breakdown s' !! k) =
         default 0 (decision_breakdown s !! k) + count_by (λ c, String.eqb (breakdown_key c) k) l.
Proof.
  revert s. induction l as [|c l IH]; intros s; simpl.
  { unfold count_by. simpl. split_and!; intros; lia. }
  destruct (IH (add_comparison s c)) as (H1 & H2 & H3 & H4).
  rewrite H1 H2 H3 !count_by_cons. cbn [total_compared diverged matched add_comparison].
  split_and!; [lia|destruct (is_diverged c); simpl; lia..|].
  intros k. rewrite H4 count_by_cons. cbn [decision_breakdown add_comparison].
  destruct (String.eqb_spec (breakdown_key c) k) as [<-|Hne].
  - rewrite lookup_insert_eq /=. lia.
  - rewrite lookup_insert_ne; [lia|done].
Qed.

Lemma record_all_get l s id r :
  canary_get s id = Some r →
  ∃ s', record_all s id l = Ok s' ∧ active_set s' = active_set s
    ∧ canary_get s' id = Some (with_stats r (fold_left add_comparison l (cr_stats r)))
    ∧ ∀ id', id' ≠ id → canary_get s' id' = canary_get s id'.
Proof.
  revert s r. induction l as [|c l IH]; intros s r Hr; simpl.
  { exists s. split_and!; try done. rewrite Hr. by destruct r. }
  unfold record_comparison. rewrite Hr. cbn [res_bind fst].
  set (r1 := with_stats r (add_comparison (cr_stats r) c)).
  destruct (IH (write_run s id r1) r1) as (s' & H1 & H2 & H3 & H4); [apply lookup_insert_eq|].
  exists s'. split_and!; [done..|]. intros id' Hne. rewrite H4; [|done].
  unfold canary_get. simpl. by rewrite lookup_insert_ne.
Qed.

(** The window statistics are those of the comparisons recorded: after any
    sequence of comparisons on a fresh run the total, the matched and diverged
    counters and every cell of the confusion matrix are the counts over that
    sequence, and nothing else in the store has changed. *)
Theorem window_stats_count s id r l :
  canary_get s id = Some r → cr_stats r = empty_stats →
  ∃ s' r', record_all s id l = Ok s' ∧ canary_get s' id = Some r'
    ∧ total_compared (cr_stats r') = Z.of_nat (length l)
    ∧ diverged (cr_stats r') = count_by is_diverged l
    ∧ matched (cr_stats r') = count_by (λ c, negb (is_diverged c)) l
    ∧ (∀ k, default 0 (decision_breakdown (cr_stats r') !! k) =
            count_by (λ c, String.eqb (breakdown_key c) k) l)
    ∧ active_set s' = active_set s
    ∧ ∀ id', id' ≠ id → canary_get s' id' = canary_get s id'.
Proof.
  intros Hr He. destruct (record_all_get l s id r Hr) as (s' & H1 & H2 & H3 & H4).
  destruct (add_comparisons_count l (cr_stats r)) as (C1 & C2 & C3 & C4).
  eexists s', _. split_and!; [exact H1|exact H3|..|exact H2|exact H4].
  - etransitivity; [exact C1|]. by rewrite He.
  - etransitivity; [exact C2|]. by rewrite He.
  - etransitivity; [exact C3|]. by rewrite He.
  - intros k. etransitivity; [exact (C4 k)|]. by rewrite He.
Qed.

(** ** Undoing a canary *)

(** Rolling back right after starting restores the OPA server to what it
    was: the candidate leaves no module behind. *)
Theorem rollback_restores_opa w production tenant candidate compiled_id new_id now reason now' w1 run :
  cw_opa w !! canary_opa_rule_id new_id (rg_rule_id candidate) = None →
  start_canary w production tenant candidate compiled_id new_id now true = Ok (w1, run) →
  ∃ w2 run', rollback w1 new_id reason now' true = Ok (w2, run')
    ∧ cw_opa w2 = cw_opa w ∧ cr_status run' = ROLLED_BACK ∧ (new_id ∉ active_set (cw_store w2)).
Proof.
  intros Hf H. unfold start_canary, publish_candidate in H.
  destruct (negb _); [done|]. cbn [res_bind] in H. injection H as <- <-.
  unfold rollback, canary_get. simpl. rewrite lookup_insert_eq. cbn [is_running cr_status].
  unfold mark_rolled_back, _resolve, canary_get. simpl. rewrite lookup_insert_eq. simpl.
  eexists _, _. split; [reflexivity|]. simpl. split_and!; [|done|set_solver].
  by rewrite delete_insert_id.
Qed.

(** Recording a comparison is a read and a write of the whole run: when a
    rollback happens between the two, the write puts the run back to RUNNING,
    while its candidate is gone from OPA and the sweep no longer sees it. *)
Theorem interleaved_write_undoes_rollback w id r c reason now w' r' :
  canary_get (cw_store w) id = Some r → cr_status r = RUNNING →
  rollback w id reason now true = Ok (w', r') →
  let s := write_run (cw_store w') id (with_stats r (add_comparison (cr_stats r) c)) in
  cr_status r' = ROLLED_BACK
  ∧ (∃ r2, canary_get s id = Some r2 ∧ cr_status r2 = RUNNING)
  ∧ (id ∉ active_set s) ∧ cw_opa w' !! candidate_opa_rule_id r = None.
Proof.
  intros Hr Hs H. unfold rollback, is_running, mark_rolled_back, _resolve in H.
  rewrite Hr bool_decide_eq_true_2 //= in H.
  injection H as <- <-. simpl. split_and!.
  - done.
  - eexists. split; [apply lookup_insert_eq|done].
  - set_solver.
  - apply lookup_delete_eq.
Qed.

(** ** The promotion bar *)

(** A canary that has compared nothing is put up for promotion as soon as
    its window has elapsed: the divergence of no comparison counts as zero. *)
Theorem promote_without_evidence s c now id r :
  canary_get s id = Some r → cr_status r = RUNNING → cr_stats r = empty_stats →
  0 < rollback_min_sample_size c →
  flt_leb (float_of_Z 0) (promotion_max_divergence_pct c) = true →
  window_elapsed r (evaluation_window_seconds c) now = true →
  evaluate_window s c now id = PROMOTE.
Proof.
  intros Hr Hs He Hm Hp Hw. unfold evaluate_window, is_running.
  rewrite Hr bool_decide_eq_true_2 //= He. unfold rollback_bar. simpl.
  rewrite (proj2 (Z.leb_gt _ _)); [|done]. simpl. by rewrite Hw Hp.
Qed.

(** ** Witnesses: the default settings, one canary *)
Definition w_settings : CanarySettings := Settings (decimal 2 2) (decimal 10 2) 25 86400.
Definition w_now : datetime := Datetime 63900000000000000 (Some 0).
Definition w_later : datetime := Datetime 63900100000000000 (Some 0).
Definition w_world : canary_world := World (CStore ∅ ∅) {["r1" := "package a"]} [].
Definition w_production : published_rule := PublishedRule 1 "r1" 1 (Some "a") (Some "package a").
Definition w_candidate : CompiledRego := Rego "r1" "a" "package a" [] 0 1 "" "" "".
Definition w_started : canary_world * CanaryRun :=
  Eval vm_compute in
  match start_canary w_world w_production None w_candidate 2 "c1" w_now true with
  | Ok x => x | Raise _ => (w_world, Run "" "" None "" "" "" 0 RUNNING empty_stats w_now None None)
  end.
Definition w_cmp : ComparisonResult :=
  Comparison "t1" ALLOW DENY (float_of_Z 1) (float_of_Z 1) None None.

Lemma w_inv : canary_inv w_world.
Proof.
  split; unfold canary_get; simpl; try (intros id r; by rewrite lookup_empty).
  intros id. rewrite lookup_empty. split; [intros H; by apply not_elem_of_empty in H|by intros (? & ? & ?)].
Qed.
Lemma w_step ok : rtc (canary_step w_settings ok) w_world w_started.1.
Proof.
  apply rtc_once. apply (cs_start _ _ _ w_production None w_candidate 2 "c1" w_now true w_started).
  - reflexivity.
  - vm_compute. reflexivity.
Qed.


Lemma canary_never_promoted_witness : cw_events w_started.1 = [].
Proof.
  apply (canary_never_promoted w_settings true w_world w_started.1 w_inv); [|exact (w_step true)].
  intros id r. unfold canary_get. simpl. by rewrite lookup_empty.
Defined.

Lemma spike_rolls_back_witness : below_bar w_settings w_started.1.
Proof.
  apply (spike_rolls_back w_settings w_world w_started.1); [done| |exact (w_step true)].
  intros id r. unfold canary_get. simpl. by rewrite lookup_empty.
Defined.

Lemma window_stats_witness :
  ∃ s' r', record_all (cw_store w_started.1) "c1" [w_cmp] = Ok s' ∧ canary_get s' "c1" = Some r'
    ∧ diverged (cr_stats r') = 1.
Proof.
  destruct (window_stats_count (cw_store w_started.1) "c1" w_started.2 [w_cmp] eq_refl eq_refl)
    as (s' & r' & H1 & H2 & _ & H3 & _).
  exists s', r'. split; [exact H1|]. split; [exact H2|]. rewrite H3. reflexivity.
Defined.

Lemma rollback_restores_witness :
  ∃ w2 run', rollback w_started.1 "c1" "spike" w_later true = Ok (w2, run')
    ∧ cw_opa w2 = cw_opa w_world ∧ cr_status run' = ROLLED_BACK
    ∧ ("c1" ∉ active_set (cw_store w2)).
Proof.
  apply (rollback_restores_opa w_world w_production None w_candidate 2 "c1" w_now "spike" w_later
           w_started.1 w_started.2); [reflexivity|]. vm_compute. reflexivity.
Defined.

Definition w_rolled_back : canary_world * CanaryRun :=
  Eval vm_compute in
  match rollback w_started.1 "c1" "spike" w_later true with Ok x => x | Raise _ => w_started end.

Lemma interleaved_write_witness :
  ∃ r2, canary_get (write_run (cw_store w_rolled_back.1) "c1"
          (with_stats w_started.2 (add_comparison (cr_stats w_started.2) w_cmp))) "c1" = Some r2
        ∧ cr_status r2 = RUNNING.
Proof.
  assert (H : rollback w_started.1 "c1" "spike" w_later true = Ok (w_rolled_back.1, w_rolled_back.2))
    by (vm_compute; reflexivity).
  exact (proj1 (proj2 (interleaved_write_undoes_rollback w_started.1 "c1" w_started.2 w_cmp "spike"
           w_later w_rolled_back.1 w_rolled_back.2 eq_refl eq_refl H))).
Defined.

Lemma promote_without_evidence_witness :
  evaluate_window (cw_store w_started.1) w_settings w_later "c1" = PROMOTE.
Proof.
  apply (promote_without_evidence _ _ _ _ w_started.2); vm_compute; reflexivity.
Defined.
