(* ===== verification/Extractor.v ===== *)
(** * Reading a PDF: [src/app/parsing/extractor.py]

    The cascade of extraction backends with its budgets, the retry and the OCR
    fallback, the header of a document and its elements.  What the backends,
    the OCR engine and the date parser return, how long they take, and the
    uuids are parameters.  Times are in milliseconds. *)
From S2P Require Import Prelude PyStr PyRe PyText PyFloat Json Datetime Taxonomy DocModels.

(** * Clause numbering: [src/app/parsing/hierarchy.py]

    Which line starts a clause or a section, which is a footnote, and the
    stack of open sections that gives every element its path. *)

Open Scope string_scope.
Open Scope Z_scope.

(** ** Patterns, from the most to the least specific; [true] is [re.IGNORECASE] *)
Definition clause_patterns : list (bool * string) :=
  [ (false, "^\s*(?P<num>\d+\.\d+\.[a-z]{1,2})\.?\s*[).]?\s+");
    (false, "^\s*(?P<num>\d+\.\d+)\.\((?P<sub>[a-z]{1,2})\)\s+");
    (false, "^\s*(?P<num>\d+(?:\.\d+){2,})\.?\s+");
    (false, "^\s*(?P<num>\d+\.\d+)\.?\s+");
    (false, "^\s*(?P<num>\d+)\.\s+");
    (true, "^\s*\((?P<num>[ivxlcdm]{1,6})\)\s+");
    (false, "^\s*\((?P<num>[a-z]{1,2})\)\s+");
    (false, "^\s*(?P<num>[A-Z])\.\s+") ].

Definition _CLAUSE_PATTERNS : list (list part) :=
  map (λ p, default [] (re_parts p.1 p.2)) clause_patterns.

(** Every pattern is parsed. *)
Example clause_patterns_parsed :
  forallb (λ p, bool_decide (is_Some (re_parts p.1 p.2))) clause_patterns = true.
Proof. vm_compute. reflexivity. Qed.

Definition _FOOTNOTE_LINE : regex := re_compile false "^\s{0,4}\d{1,3}[.)]\s+\S".
Definition _SECTION_HEADER_HINTS : regex :=
  re_compile true "^(chapter|part|annexure|schedule|appendix)\b".

Record ClauseMatch := CMatch { cm_clause_number : string; cm_depth : Z; cm_remainder : string }.

(** [s.count(".")] *)
Fixpoint count_char (x : ascii) (s : string) : Z :=
  match s with "" => 0 | String c s' => (if Ascii.eqb c x then 1 else 0) + count_char x s' end.

Fixpoint first_pattern (patterns : list (list part)) (stripped : string) : option ClauseMatch :=
  match patterns with
  | [] => None
  | p :: patterns' =>
      match match_groups p stripped with
      | None => first_pattern patterns' stripped
      | Some (rest, groups) =>
          let num := default "" (obj_get "num" groups) in
          let clause_number :=
            match obj_get "sub" groups with
            | Some sub => if String.eqb sub "" then num else num +:+ "." +:+ sub
            | None => num
            end in
          Some (CMatch clause_number (count_char "." clause_number + 1) (strip rest))
      end
  end.

Definition detect_clause_number (text : string) : option ClauseMatch :=
  let stripped := strip text in
  if String.eqb stripped "" then None else first_pattern _CLAUSE_PATTERNS stripped.

Definition is_section_header (text : string) (clause : option ClauseMatch) : bool :=
  let stripped := strip text in
  if String.eqb stripped "" then false
  else if re_match _SECTION_HEADER_HINTS stripped then true
  else
    match clause with
    | Some c =>
        (cm_depth c =? 1) && (py_len (cm_remainder c) <? 90)
        && negb (endswith "." (cm_remainder c) || endswith ";" (cm_remainder c)
                 || endswith ":" (cm_remainder c))
    | None => false
    end.

Definition is_footnote (text : string) : bool :=
  let stripped := strip text in
  re_match _FOOTNOTE_LINE stripped && (py_len stripped <? 500).

Example detect_examples :
  map (λ s, option_map (λ m, (cm_clause_number m, cm_depth m, cm_remainder m)) (detect_clause_number s))
    ["1. Applicability"; "1.1 Margin"; "2.1.b. Report"; "2.1.(b) Report"; " 1.2.3 x"; "(iv) item"; "(b) item";
     "A. Annex"; "1.1"; "12) note"; "Chapter II"]
  = [Some ("1", 1, "Applicability"); Some ("1.1", 2, "Margin"); Some ("2.1.b", 3, "Report");
     Some ("2.1.b", 3, "Report"); Some ("1.2.3", 3, "x"); Some ("iv", 1, "item"); Some ("b", 1, "item");
     Some ("A", 1, "Annex"); None; None; None].
Proof. vm_compute. reflexivity. Qed.

(** ** The stack of open sections *)
Definition HierarchyTracker : Type := list (string * Z).

(** [while self._stack and self._stack[-1][1] >= depth: self._stack.pop()] *)
Fixpoint pop_from (depth : Z) (top_first : list (string * Z)) : list (string * Z) :=
  match top_first with
  | (num, d) :: rest => if depth <=? d then pop_from depth rest else top_first
  | [] => []
  end.
Definition pop_while (depth : Z) (stack : HierarchyTracker) : HierarchyTracker :=
  rev (pop_from depth (rev stack)).

Definition current_path (stack : HierarchyTracker) : list string := map fst stack.

Definition update (stack : HierarchyTracker) (clause_number : option string) (depth : Z)
  : HierarchyTracker * list string :=
  match clause_number with
  | None => (stack, current_path stack)
  | Some num =>
      let stack := (pop_while depth stack ++ [(num, depth)])%list in (stack, current_path stack)
  end.

(** ** Exceptions of [parsing/exceptions.py] *)
Inductive parsing_error :=
| UnsupportedFileError (msg : string)
| ExtractionBackendError (msg : string)
| ScannedDocumentError (msg : string)
| ParseTimeoutError (msg : string)
| ChunkingError (msg : string)
| ParsingError (msg : string)
| BuiltinValueError (msg : string)   (* not a [ParsingError] *).

(** An exception of a library: its class, its [str] and its [repr]. *)
Record library_exn := LibExn
  { bx_module : string; bx_qualname : string; bx_str : string; bx_repr : string }.

Definition _GENERIC_DOC_NUMBER_RE : regex := re_compile true "Circular\s+No\.?\s*[:\-]?\s*[\w/\-]+".
Definition _ISSUE_DATE_RE : regex :=
  re_compile true ("(\d{1,2}\s+(?:January|February|March|April|May|June|July|August|September|October"
                   +:+ "|November|December)\s+\d{4})").

Definition _MODEL_DOWNLOAD_ERROR_MARKERS : list string :=
  ["huggingface_hub"; "hf_hub"; "hfvalidationerror"; "connectionerror"; "maxretryerror";
   "newconnectionerror"; "failed to establish a new connection"; "getaddrinfo failed";
   "name or service not known"; "temporary failure in name resolution"; "read timed out";
   "connecttimeout"; "connect timeout"; "no route to host"; "sslerror"; "urllib3"; "proxyerror"].

Definition _is_model_download_failure (exc : library_exn) : bool :=
  let text := lower (bx_module exc +:+ "." +:+ bx_qualname exc +:+ ": " +:+ bx_str exc) in
  existsb (λ marker, contains marker text) _MODEL_DOWNLOAD_ERROR_MARKERS.

Definition _model_download_error (stage : string) (exc : library_exn) : parsing_error :=
  ExtractionBackendError
    (stage +:+ " could not load its ML model weights -- this looks like a failed network download "
     +:+ "rather than a parsing bug (underlying error: " +:+ bx_repr exc
     +:+ "). If this deployment has restricted or "
     +:+ "no internet egress, pre-warm the model weights into the Docker image at build time (see the "
     +:+ "Dockerfile's model pre-warming step) or set HF_HUB_OFFLINE=1 with the weights already cached "
     +:+ "on disk, instead of relying on a first-use download at runtime.").

Definition _PDF_MAGIC : string := "%PDF-".

(** [bytes.lstrip()] strips tab, newline, return, form feed, vertical tab and
    space. *)
Definition is_bytes_space (c : ascii) : bool := code_between 9 13 c || (code c =? 32).

Definition _validate_pdf_bytes (data : string) : res parsing_error unit :=
  if String.eqb data "" then Raise (UnsupportedFileError "Uploaded file is empty.")
  else if negb (startswith _PDF_MAGIC (String.substring 0 1024 (lstrip_by is_bytes_space data)))
          && negb (contains _PDF_MAGIC (String.substring 0 2048 data))
  then Raise (UnsupportedFileError "Uploaded file does not appear to be a valid PDF.")
  else Ok tt.

(** ** Raw elements *)
Record raw_element := Raw
  { rw_text : string
  ; rw_category : string
  ; rw_page_number : option Z
  ; rw_coordinates : option (list point)
  ; rw_text_as_html : option string }.

Definition _classify_element (category text : string) : ElementKind :=
  let category_lower := lower category in
  if String.eqb category_lower "table" then TABLE
  else if String.eqb category_lower "title" then TITLE
  else if String.eqb category_lower "listitem" || String.eqb category_lower "list-item" then LIST_ITEM
  else if is_footnote text then FOOTNOTE
  else NARRATIVE_TEXT.

(** The non-blank lines of a text, as the plain backends emit them. *)
Definition line_elements (page : option Z) (text : string) : list raw_element :=
  List.flat_map
    (λ line, if String.eqb (strip line) "" then []
             else [Raw (strip line) "UncategorizedText" page None None]) (splitlines text).

(** An element of the layout library; [None] where it has no such attribute. *)
Record layout_element := Layout
  { lo_text : option string; lo_category : option string; lo_page_number : option Z;
    lo_points : option (list point); lo_text_as_html : option string }.

Definition _partition_with_unstructured (elements : list layout_element) : list raw_element :=
  map (λ el, Raw (str_or (lo_text el) "") (default "UncategorizedText" (lo_category el))
               (lo_page_number el) (lo_points el) (lo_text_as_html el)) elements.

Definition _partition_with_tika (content : option string) : list raw_element :=
  line_elements None (str_or content "").

(** Pages are numbered from one; a page that cannot be read is skipped. *)
Fixpoint pypdf_pages (page_num : Z) (pages : list (res library_exn (option string))) : list raw_element :=
  match pages with
  | [] => []
  | Ok text :: pages' =>
      (line_elements (Some page_num) (str_or text "") ++ pypdf_pages (page_num + 1) pages')%list
  | Raise _ :: pages' => pypdf_pages (page_num + 1) pages'
  end.
Definition _partition_with_pypdf (pages : list (res library_exn (option string))) : list raw_element :=
  pypdf_pages 1 pages.

Definition _has_text (elements : list raw_element) : bool :=
  existsb (λ el, negb (String.eqb (strip (rw_text el)) "")) elements.

(** ** The cascade *)
Record Settings := ParseSettings
  { parse_timeout_seconds : Z
  ; extraction_backend : string
  ; unstructured_strategy : string
  ; chunk_max_chars : Z
  ; chunk_overlap_chars : Z
  ; chunk_min_chars : Z
  ; localization_enabled : bool }.

(** A call of a backend: what it would give and after how long. *)
Record backend_call := Call { bc_millis : Z; bc_outcome : res library_exn (list raw_element) }.

(** [asyncio.wait_for]: the outcome within the budget, or the timeout. *)
Inductive waited := Finished (outcome : res library_exn (list raw_element)) | TimedOut.
Definition _run_backend (call : backend_call) (timeout : Z) : waited :=
  if bc_millis call <? 1000 * timeout then Finished (bc_outcome call) else TimedOut.

Definition spent (call : backend_call) (timeout : Z) : Z := Z.min (bc_millis call) (1000 * timeout).

Section extractor.
Context (settings : Settings) (backend : string → backend_call) (hi_res : backend_call).
Context (parse_date : string → option Z) (uuid4 : Z → string).

Definition candidate_order : list string :=
  fold_left (λ order b, if existsb (String.eqb b) order then order else order ++ [b])%list
    [extraction_backend settings; "unstructured"; "tika"; "pypdf"] ["pypdf"].

Definition per_backend_timeout (b : string) : Z :=
  if String.eqb b "pypdf" then Z.min 30 (parse_timeout_seconds settings)
  else if String.eqb b "unstructured" then parse_timeout_seconds settings
  else Z.min 60 (parse_timeout_seconds settings).

Definition timeout_error : parsing_error :=
  ParseTimeoutError ("PDF extraction exceeded " +:+ str_of_Z (parse_timeout_seconds settings) +:+ "s timeout.").

(** The loop over the backends; the whole of it is under
    [asyncio.wait_for(_run(), timeout=settings.parse_timeout_seconds)], so that
    [elapsed] must stay below that budget.  A backend that is not one of the
    three is skipped. *)
Fixpoint _run (elapsed : Z) (errors : list (string * string)) (last_empty : option (list raw_element))
    (order : list string) : res parsing_error (list raw_element) :=
  match order with
  | [] =>
      match last_empty with
      | Some elements => Ok elements
      | None =>
          Raise (ExtractionBackendError
            ("All extraction backends failed (" +:+ join ", " candidate_order +:+ "). "
             +:+ join " " (map (λ '(b, e), b +:+ "=" +:+ e) errors)))
      end
  | b :: order' =>
      if negb (existsb (String.eqb b) ["unstructured"; "tika"; "pypdf"])
      then _run elapsed errors last_empty order'
      else
        let timeout := per_backend_timeout b in
        let elapsed' := elapsed + spent (backend b) timeout in
        if 1000 * parse_timeout_seconds settings <=? elapsed' then Raise timeout_error
        else
          match _run_backend (backend b) timeout with
          | Finished (Ok elements) =>
              if _has_text elements then Ok elements
              else _run elapsed' errors (Some elements) order'
          | Finished (Raise exc) => _run elapsed' (errors ++ [(b, bx_repr exc)])%list last_empty order'
          | TimedOut =>
              _run elapsed'
                (errors ++ [(b, "TimeoutError('backend exceeded " +:+ str_of_Z timeout +:+ "s budget')")])%list
                last_empty order'
          end
  end.

(** ** Scanned documents *)

(** The OCR of a page: when it ends and what it gives. *)
Record ocr_page := OcrPage { op_done_at : Z; op_result : res library_exn string }.

Definition _ocr_one_page (page_num : Z) (p : ocr_page) : option raw_element :=
  match op_result p with
  | Ok text =>
      if String.eqb (strip text) "" then None
      else Some (Raw text "UncategorizedText" (Some page_num) None None)
  | Raise _ => None
  end.

(** The failure that ends [asyncio.gather]: the first in time that is a failed
    download. *)
Definition download_failure (p : ocr_page) : option (Z * library_exn) :=
  match op_result p with
  | Raise exc => if _is_model_download_failure exc then Some (op_done_at p, exc) else None
  | Ok _ => None
  end.
Fixpoint first_failure (pages : list ocr_page) : option (Z * library_exn) :=
  match pages with
  | [] => None
  | p :: pages' =>
      match download_failure p, first_failure pages' with
      | Some f, Some g => Some (if f.1 <=? g.1 then f else g)
      | Some f, None => Some f
      | None, g => g
      end
  end.
Fixpoint ocr_elements (page_num : Z) (pages : list ocr_page) : list raw_element :=
  match pages with
  | [] => []
  | p :: pages' =>
      match _ocr_one_page page_num p with
      | Some el => el :: ocr_elements (page_num + 1) pages'
      | None => ocr_elements (page_num + 1) pages'
      end
  end.

(** The pages of the document, [None] when it cannot be rasterised; times count
    from the start of the fallback. *)
Record raster := Raster { ra_done_at : Z; ra_pages : option (list ocr_page) }.

Definition _ocr_fallback (r : raster) (filename : option string)
  : res parsing_error (list raw_element) :=
  let limit := 1000 * parse_timeout_seconds settings in
  let timed_out := ParseTimeoutError ("OCR fallback for '" +:+ str_or filename "document" +:+ "' exceeded "
                     +:+ str_of_Z (parse_timeout_seconds settings) +:+ "s timeout.") in
  if limit <=? ra_done_at r then Raise timed_out
  else
  match ra_pages r with
  | None => Ok []
  | Some pages =>
      match first_failure pages with
      | Some (at_, exc) =>
          if at_ <? limit
          then Raise (_model_download_error "OCR fallback's text-recognition backend" exc)
          else Raise timed_out
      | None =>
          if existsb (λ p, limit <=? op_done_at p) pages then Raise timed_out else Ok (ocr_elements 1 pages)
      end
  end.

(** ** Header and elements *)
Definition _extract_metadata_from_elements (raw_elements : list raw_element) (filename source_tag : option string)
  : CircularMetadata :=
  let head_text := join (" " +:+ String newline "") (map rw_text (firstn 40 raw_elements)) in
  let '(regulator, document_type, number) := detect_regulator_and_document head_text source_tag in
  let circular_number :=
    match number with
    | Some _ => number
    | None => strip <$> re_search _GENERIC_DOC_NUMBER_RE head_text
    end in
  let issue_date :=
    match re_search _ISSUE_DATE_RE head_text with Some m => parse_date m | None => None end in
  let title := rw_text <$> find (λ e, String.eqb (lower (rw_category e)) "title") raw_elements in
  Metadata circular_number issue_date title None filename None None regulator document_type None None.

Definition _bbox (raw : raw_element) : option BoundingBox :=
  match rw_coordinates raw, rw_page_number raw with
  | None, None => None
  | coords, page =>
      Some (BBox page (match coords with Some (p :: ps) => Some (p :: ps) | _ => None end))
  end.

(** One iteration of the loop of [_build_document_elements]; [n] elements have
    been built. *)
Definition build_element (tracker : HierarchyTracker) (n : Z) (raw : raw_element)
  : HierarchyTracker * option DocumentElement :=
  let text := strip (rw_text raw) in
  if String.eqb text "" then (tracker, None)
  else
    let clause := detect_clause_number text in
    let kind := _classify_element (rw_category raw) text in
    let element kind text number path ref :=
      Some (Element (uuid4 n) kind text number path (rw_page_number raw) (_bbox raw) ref) in
    match kind, clause with
    | TABLE, _ =>
        (tracker, element TABLE (str_or (rw_text_as_html raw) text) None (current_path tracker) false)
    | FOOTNOTE, None => (tracker, element FOOTNOTE text None (current_path tracker) true)
    | _, Some c =>
        let '(tracker', section_path) := update tracker (Some (cm_clause_number c)) (cm_depth c) in
        (tracker', element (if is_section_header text clause then SECTION_HEADER else CLAUSE) text
                     (Some (cm_clause_number c)) section_path false)
    | _, None => (tracker, element kind text None (current_path tracker) false)
    end.

Fixpoint build_from (tracker : HierarchyTracker) (n : Z) (raws : list raw_element) : list DocumentElement :=
  match raws with
  | [] => []
  | raw :: raws' =>
      match build_element tracker n raw with
      | (tracker', Some el) => el :: build_from tracker' (n + 1) raws'
      | (tracker', None) => build_from tracker' n raws'
      end
  end.
Definition _build_document_elements (raws : list raw_element) : list DocumentElement := build_from [] 0 raws.

(** ** [extract_pdf] *)
Definition hi_res_retry (raws : list raw_element) (filename : option string)
  : res parsing_error (list raw_element) :=
  if negb (_has_text raws) && String.eqb (unstructured_strategy settings) "fast" then
    match _run_backend hi_res (parse_timeout_seconds settings) with
    | TimedOut =>
        Raise (ParseTimeoutError ("hi_res retry for '" +:+ str_or filename "document" +:+ "' exceeded "
                 +:+ str_of_Z (parse_timeout_seconds settings) +:+ "s timeout."))
    | Finished (Raise exc) =>
        if _is_model_download_failure exc
        then Raise (_model_download_error
                      "The 'hi_res' Unstructured strategy (detectron2 layout model)" exc)
        else Ok raws
    | Finished (Ok elements) => Ok (if _has_text elements then elements else raws)
    end
  else Ok raws.

Definition scanned_error (filename : option string) : parsing_error :=
  ScannedDocumentError
    ("'" +:+ str_or filename "document"
     +:+ "' has no extractable text layer (likely a scanned/image-only PDF), "
     +:+ "and OCR fallback produced no usable text either. Re-submit a higher-quality scan, or if this "
     +:+ "is a known regional-language document, route it through app.localization.pipeline instead "
     +:+ "of this English-only ingestion path.").

Definition ocr_retry (raws : list raw_element) (pages : raster) (filename : option string)
  : res parsing_error (list raw_element) :=
  if _has_text raws then Ok raws
  else
    res_bind (_ocr_fallback pages filename) (λ elements,
      match elements with [] => Raise (scanned_error filename) | _ => Ok elements end).

Definition extract_pdf (file_bytes : string) (pages : raster) (filename source_tag : option string)
  : res parsing_error (CircularMetadata * list DocumentElement) :=
  res_bind (_validate_pdf_bytes file_bytes) (λ _,
  res_bind (_run 0 [] None candidate_order) (λ raws,
  res_bind (hi_res_retry raws filename) (λ raws,
  res_bind (ocr_retry raws pages filename) (λ raws,
  Ok (_extract_metadata_from_elements raws filename source_tag, _build_document_elements raws))))).
End extractor.
