(* ===== verification/ExtractorFacts.v ===== *)
(** * Extraction: section paths, text and budgets

    The stack of sections computes the ancestry of every element, a document
    that is read has text, and what the cascade of backends returns. *)
From S2P Require Import Prelude PyStr PyText Json Datetime Taxonomy DocModels Extractor.

Open Scope string_scope.
Open Scope Z_scope.

(** ** The stack of open sections *)

(** The headings of a document that are still open at its end: those that no
    later heading of the same or a lower depth has closed. *)
Fixpoint still_open (headings : list (string * Z)) : list (string * Z) :=
  match headings with
  | [] => []
  | h :: headings' =>
      if forallb (λ x, h.2 <? x.2) headings' then h :: still_open headings' else still_open headings'
  end.

Definition shallower (d : Z) (x : string * Z) : bool := x.2 <? d.

Lemma forallb_snoc_Z (p : string * Z → bool) l x : forallb p (l ++ [x])%list = forallb p l && p x.
Proof. by rewrite forallb_app /= andb_true_r. Qed.

Lemma still_open_snoc hs h :
  still_open (hs ++ [h]) = (List.filter (shallower h.2) (still_open hs) ++ [h])%list.
Proof.
  induction hs as [|x hs IH]; [done|]. cbn [still_open app].
  rewrite forallb_snoc_Z IH. destruct (forallb _ hs); cbn [andb]; [|done].
  cbn [List.filter]. change (shallower h.2 x) with (x.2 <? h.2). by destruct (x.2 <? h.2).
Qed.

Lemma still_open_sorted hs : StronglySorted (λ x y, x.2 < y.2) (still_open hs).
Proof.
  induction hs as [|x hs IH]; cbn; [constructor|]. destruct (forallb _ hs) eqn:E; [|done].
  constructor; [done|]. apply Forall_forall. intros y Hy. apply Z.ltb_lt.
  rewrite forallb_forall in E. apply (E y), list_elem_of_In. clear -Hy.
  induction hs as [|z hs IH]; cbn in Hy; [by apply not_elem_of_nil in Hy|].
  destruct (forallb _ hs); [apply elem_of_cons in Hy as [->|Hy]; [left|]|]; right; auto.
Qed.

(** Popping the deeper sections off a stack of increasing depth. *)
Lemma pop_while_sorted d stack :
  StronglySorted (λ x y, x.2 < y.2) stack → pop_while d stack = List.filter (shallower d) stack.
Proof.
  unfold pop_while. induction stack as [|x stack IH] using rev_ind; intros Hs; [done|].
  rewrite rev_app_distr List.filter_app. destruct x as [n e]. cbn [rev app pop_from List.filter]. change (shallower d (n, e)) with (e <? d).
  assert (StronglySorted (λ x y, x.2 < y.2) stack ∧ Forall (λ x, x.2 < e) stack) as [Hs' Hlt].
  { clear IH. induction stack as [|y stack IHs]; [split; constructor|]. inversion_clear Hs as [|? ? H1 H2].
    destruct (IHs H1). split; [constructor; [done|by apply Forall_app in H2 as [? _]]|].
    constructor; [|done]. apply Forall_app in H2 as [_ H2]. by inversion_clear H2. }
  rewrite Z.leb_antisym. destruct (Z.ltb_spec e d) as [Hd|Hd]; cbn [negb].
  - rewrite /= rev_involutive. f_equal. symmetry. clear IH Hs. induction stack as [|y stack IHs]; [done|].
    inversion_clear Hlt. inversion_clear Hs'. cbn. unfold shallower at 1.
    rewrite (proj2 (Z.ltb_lt _ _)); [|lia]. f_equal. by apply IHs.
  - by rewrite IH // app_nil_r.
Qed.

Lemma update_still_open hs num d :
  (update (still_open hs) (Some num) d).1 = still_open (hs ++ [(num, d)])%list.
Proof. cbn. rewrite still_open_snoc pop_while_sorted //. apply still_open_sorted. Qed.

(** The heading an element opens, when it opens one. *)
Definition heading_of (raw : raw_element) : option (string * Z) :=
  let text := strip (rw_text raw) in
  if String.eqb text "" || bool_decide (_classify_element (rw_category raw) text = TABLE) then None
  else (λ c, (cm_clause_number c, cm_depth c)) <$> detect_clause_number text.

(** The paths of the elements of a document, by definition: for each element
    that is not blank, the headings still open after it. *)
Fixpoint reference_paths (seen raws : list raw_element) : list (list string) :=
  match raws with
  | [] => []
  | raw :: raws' =>
      let seen := (seen ++ [raw])%list in
      if String.eqb (strip (rw_text raw)) "" then reference_paths seen raws'
      else map fst (still_open (omap heading_of seen)) :: reference_paths seen raws'
  end.

Lemma build_element_tracker uuid4 (seen : list raw_element) n raw :
  let (tracker, el) := build_element uuid4 (still_open (omap heading_of seen)) n raw in
  tracker = still_open (omap heading_of (seen ++ [raw])%list)
  ∧ match el with
    | None => strip (rw_text raw) = ""
    | Some el => strip (rw_text raw) ≠ "" ∧ el_section_path el = map fst tracker ∧ el_text el ≠ ""
    end.
Proof.
  rewrite omap_app. cbn [omap list_omap]. unfold build_element, heading_of.
  set (text := strip (rw_text raw)). destruct (String.eqb_spec text "") as [E|E]; cbn [orb].
  { by rewrite app_nil_r. }
  set (kind := _classify_element (rw_category raw) text).
  assert (str_or (rw_text_as_html raw) text ≠ "") as Hh.
  { unfold str_or. destruct (rw_text_as_html raw) as [h|]; [|done].
    by destruct (String.eqb_spec h ""). }
  destruct (detect_clause_number text) as [c|] eqn:Hc.
  - case_bool_decide as Hk; [rewrite Hk; cbn; by rewrite app_nil_r|].
    cbn [option_map fmap option_fmap]. rewrite -(update_still_open _ (cm_clause_number c) (cm_depth c)).
    destruct (update _ _ _) as [tracker path] eqn:Eu.
    assert (path = map fst tracker) as -> by (unfold update in Eu; by simplify_eq).
    by destruct kind.
  - assert ((if bool_decide (kind = TABLE) then None else option_map (λ c, (cm_clause_number c, cm_depth c)) None)
            = None :> option (string * Z)) as Hn by by case_bool_decide.
    cbn in Hn |- *. rewrite Hn app_nil_r. by destruct kind.
Qed.

(** The stack of sections computes ancestry: the section path of every
    element of a document is the list of headings still open at that element,
    where a heading is closed by a later one of the same or a lower depth, in
    the order of the document. *)
Theorem section_paths_ancestry uuid4 raws :
  map el_section_path (_build_document_elements uuid4 raws) = reference_paths [] raws.
Proof.
  unfold _build_document_elements. cut (∀ seen n,
    map el_section_path (build_from uuid4 (still_open (omap heading_of seen)) n raws) = reference_paths seen raws).
  { intros H. apply (H []). }
  induction raws as [|raw raws IH]; intros seen n; cbn [build_from reference_paths]; [done|].
  pose proof (build_element_tracker uuid4 seen n raw) as Hb.
  destruct (build_element _ _ _ _) as [tracker [el|]]; destruct Hb as [-> He].
  - destruct He as (Hne & Hp & _). rewrite (proj2 (String.eqb_neq _ _) Hne). cbn [map].
    by rewrite Hp IH.
  - rewrite (proj2 (String.eqb_eq _ _) He). apply IH.
Qed.

(** A lettered or roman item has depth one, so it closes every open section:
    its path does not name the clause it belongs to. *)
Lemma item_loses_ancestry :
  map el_section_path
    (_build_document_elements (λ _, "")
       (map (λ s, Raw s "NarrativeText" (Some 1) None None)
          ["2. Margins"; "2.1 Brokers shall collect margin"; "(a) in cash"; "2.2 Brokers shall report"]))
  = [["2"]; ["2"; "2.1"]; ["a"]; ["a"; "2.2"]].
Proof. vm_compute. reflexivity. Qed.

(** ** A document that is read has text *)
Definition readable (raw : raw_element) : Prop := strip (rw_text raw) ≠ "".

Lemma has_text_spec raws : _has_text raws = true ↔ Exists readable raws.
Proof.
  unfold _has_text. rewrite existsb_exists Exists_exists. setoid_rewrite list_elem_of_In.
  unfold readable. by setoid_rewrite negb_true_iff; setoid_rewrite String.eqb_neq.
Qed.

Lemma build_from_spec uuid4 seen n raws :
  Forall (λ el, el_text el ≠ "") (build_from uuid4 (still_open (omap heading_of seen)) n raws)
  ∧ (Exists readable raws → build_from uuid4 (still_open (omap heading_of seen)) n raws ≠ []).
Proof.
  revert seen n. induction raws as [|raw raws IH]; intros seen n; cbn [build_from].
  { split; [constructor|by intros ?%Exists_nil]. }
  pose proof (build_element_tracker uuid4 seen n raw) as Hb.
  destruct (build_element _ _ _ _) as [tracker [el|]]; destruct Hb as [-> He].
  - destruct He as (_ & _ & Ht). split; [constructor; [done|apply IH]|done].
  - split; [apply IH|]. intros [H|H]%Exists_cons; [by apply H in He|]. by apply IH.
Qed.

Lemma ocr_elements_readable k pages : Forall readable (ocr_elements k pages).
Proof.
  revert k. induction pages as [|p pages IH]; intros k; cbn [ocr_elements]; [constructor|].
  unfold _ocr_one_page. destruct (op_result p) as [text|exc]; [|apply IH].
  destruct (String.eqb_spec (strip text) ""); [apply IH|]. by constructor.
Qed.

Lemma ocr_retry_text settings raws pages filename out :
  ocr_retry settings raws pages filename = Ok out → Exists readable out.
Proof.
  unfold ocr_retry. destruct (_has_text raws) eqn:E; [intros <-%Ok_inj; by apply has_text_spec|].
  unfold _ocr_fallback. cbv zeta. destruct (_ <=? ra_done_at pages); [done|].
  destruct (ra_pages pages) as [ps|]; [|done]. destruct (first_failure ps) as [[at_ exc]|].
  { by destruct (at_ <? _). }
  destruct (existsb _ ps); [done|]. cbn [res_bind].
  pose proof (ocr_elements_readable 1 ps) as Hr. destruct (ocr_elements 1 ps) as [|el els]; [done|].
  intros <-%Ok_inj. inversion_clear Hr. by apply Exists_cons_hd.
Qed.

(** Extraction never returns an empty document: when it returns, the
    document has at least one element and no element is empty; a document in
    which no backend, retry or OCR finds text raises. *)
Theorem extracted_document_has_text settings backend hi_res parse_date uuid4 bytes pages filename tag m elements :
  extract_pdf settings backend hi_res parse_date uuid4 bytes pages filename tag = Ok (m, elements) →
  elements ≠ [] ∧ Forall (λ el, el_text el ≠ "") elements.
Proof.
  unfold extract_pdf. intros (? & _ & H)%res_bind_Ok. apply res_bind_Ok in H as (raws & _ & H).
  apply res_bind_Ok in H as (raws1 & _ & H). apply res_bind_Ok in H as (raws2 & Ho & H).
  apply ocr_retry_text in Ho. apply Ok_inj in H. injection H as _ <-.
  destruct (build_from_spec uuid4 [] 0 raws2) as [H1 H2]. split; [by apply H2|done].
Qed.

(** ** The cascade *)
Section cascade.
Context (settings : Settings) (backend : string → backend_call).

Lemma candidate_order_head : ∃ rest, candidate_order settings = "pypdf" :: rest.
Proof.
  unfold candidate_order. cbn [fold_left existsb].
  destruct (String.eqb (extraction_backend settings) "pypdf" || false); cbn [app existsb];
    repeat case_match; by eexists.
Qed.

(** A text layer is enough: when pypdf finds text within its budget, that
    text is the document, whatever the slower backends, the retry or OCR would
    do. *)
Theorem pypdf_text_wins hi_res parse_date uuid4 bytes pages filename tag raws :
  _validate_pdf_bytes bytes = Ok tt →
  bc_outcome (backend "pypdf") = Ok raws → _has_text raws = true →
  0 <= bc_millis (backend "pypdf") < 1000 * Z.min 30 (parse_timeout_seconds settings) →
  extract_pdf settings backend hi_res parse_date uuid4 bytes pages filename tag
  = Ok (_extract_metadata_from_elements parse_date raws filename tag, _build_document_elements uuid4 raws).
Proof.
  intros Hv Ho Ht Hb. unfold extract_pdf. rewrite Hv. cbn [res_bind].
  assert (_run settings backend 0 [] None (candidate_order settings) = Ok raws) as ->.
  { destruct candidate_order_head as [rest ->]. cbn [_run].
    replace (existsb (String.eqb "pypdf") ["unstructured"; "tika"; "pypdf"]) with true by done. cbn [negb].
    replace (per_backend_timeout settings "pypdf") with (Z.min 30 (parse_timeout_seconds settings)) by done.
    unfold spent, _run_backend. rewrite (proj2 (Z.leb_gt _ _)); [|lia].
    rewrite (proj2 (Z.ltb_lt _ _)); [|lia]. by rewrite Ho Ht. }
  cbn [res_bind]. unfold hi_res_retry. rewrite Ht. cbn [negb andb res_bind].
  unfold ocr_retry. by rewrite Ht.
Qed.

(** The whole cascade is under one budget as well: a layout backend that takes
    that long ends the extraction, and Tika is never asked. *)
Lemma hung_backend_starves_tika rest elapsed errors last_empty :
  0 <= elapsed → 0 <= parse_timeout_seconds settings →
  1000 * parse_timeout_seconds settings <= bc_millis (backend "unstructured") →
  _run settings backend elapsed errors last_empty ("unstructured" :: rest) = Raise (timeout_error settings).
Proof.
  intros He Hp Hb. cbn [_run].
  replace (existsb (String.eqb "unstructured") ["unstructured"; "tika"; "pypdf"]) with true by done. cbn [negb].
  replace (per_backend_timeout settings "unstructured") with (parse_timeout_seconds settings) by done.
  unfold spent. by rewrite (proj2 (Z.leb_le _ _)); [|lia].
Qed.
End cascade.
