(* ===== verification/Chunker.v ===== *)
(** * Chunking: [src/app/parsing/chunker.py], and [src/app/services/pipeline.py]

    Elements are grouped under the clause they belong to, a group becomes the
    text of a clause, and an oversized text is split at sentence ends.  At the
    end the parse service, from bytes to a parse result. *)
From S2P Require Import Prelude PyStr PyText Json Datetime Taxonomy DocModels Extractor.

Open Scope string_scope.
Open Scope Z_scope.

(** ** Grouping *)
Record grouping := Grouping
  { gr_groups : list (list DocumentElement)
  ; gr_current : list DocumentElement
  ; gr_clause : option string }.

(** [groups.append(current)] when it is not empty *)
Definition flush (g : grouping) : list (list DocumentElement) :=
  match gr_current g with [] => gr_groups g | c => (gr_groups g ++ [c])%list end.

Definition group_step (g : grouping) (el : DocumentElement) : grouping :=
  match el_kind el with
  | FOOTNOTE =>
      match gr_current g with
      | [] => Grouping (gr_groups g ++ [[el]])%list [] (gr_clause g)
      | c => Grouping (gr_groups g) (c ++ [el])%list (gr_clause g)
      end
  | CLAUSE | SECTION_HEADER =>
      if bool_decide (el_clause_number el = gr_clause g)
      then Grouping (gr_groups g) (gr_current g ++ [el])%list (el_clause_number el)
      else Grouping (flush g) [el] (el_clause_number el)
  | _ =>
      match gr_current g with
      | [] => Grouping (gr_groups g) [el] (el_clause_number el)
      | c => Grouping (gr_groups g) (c ++ [el])%list (gr_clause g)
      end
  end.

Definition _group_by_clause (elements : list DocumentElement) : list (list DocumentElement) :=
  flush (fold_left group_step elements (Grouping [] [] None)).

(** ** Splitting *)
Definition ends_sentence (c : option ascii) : bool :=
  match c with Some c => Ascii.eqb c "." || Ascii.eqb c ";" || Ascii.eqb c ":" | None => false end.
Definition starts_sentence (c : ascii) : bool := is_upper c || Ascii.eqb c "(".

(** [_SENTENCE_BOUNDARY.split(text)] for the pattern
    [(?<=[.;:])\s+(?=[A-Z(])]: [prev] is the last character before the run of
    blanks [ws]. *)
Fixpoint sentences_from (prev : option ascii) (cur ws s : string) : list string :=
  match s with
  | "" => [cur +:+ ws]
  | String c s' =>
      if is_space c then sentences_from prev cur (ws +:+ String c "") s'
      else if negb (String.eqb ws "") && ends_sentence prev && starts_sentence c
      then cur :: sentences_from (Some c) (String c "") "" s'
      else sentences_from (Some c) (cur +:+ ws +:+ String c "") "" s'
  end.
Definition split_sentences (text : string) : list string := sentences_from None "" "" text.

(** [buf[i : i + max_chars] for i in range(0, len(buf), max_chars)] *)
Fixpoint wrap_from (fuel n : nat) (s : string) : list string :=
  match fuel with
  | O => []
  | S fuel' => if Nat.eqb (ulen s) 0 then [] else utake n s :: wrap_from fuel' n (udrop n s)
  end.
Definition hard_wrap (max_chars : Z) (buf : string) : res parsing_error (list string) :=
  if max_chars =? 0 then Raise (BuiltinValueError "range() arg 3 must not be zero")
  else if max_chars <? 0 then Ok []
  else Ok (wrap_from (ulen buf) (Z.to_nat max_chars) buf).

(** [f"{a} {b}".strip() if a else b] *)
Definition glue (a b : string) : string := if String.eqb a "" then b else strip (a +:+ " " +:+ b).

Fixpoint split_loop (max_chars overlap_chars : Z) (fragments : list string) (buf : string)
    (sentences : list string) : res parsing_error (list string) :=
  match sentences with
  | [] => Ok (if String.eqb buf "" then fragments else fragments ++ [buf])%list
  | sentence :: sentences' =>
      let candidate := glue buf sentence in
      if py_len candidate <=? max_chars
      then split_loop max_chars overlap_chars fragments candidate sentences'
      else
        let fragments := (if String.eqb buf "" then fragments else fragments ++ [buf])%list in
        let tail := if String.eqb buf "" then "" else slice_from (- overlap_chars) buf in
        let buf := glue tail sentence in
        if max_chars <? py_len buf then
          res_bind (hard_wrap max_chars buf) (λ pieces,
            split_loop max_chars overlap_chars (fragments ++ pieces)%list "" sentences')
        else split_loop max_chars overlap_chars fragments buf sentences'
  end.

Definition _split_long_text (text : string) (max_chars overlap_chars : Z) : res parsing_error (list string) :=
  if py_len text <=? max_chars then Ok [text]
  else
    res_bind (split_loop max_chars overlap_chars [] "" (split_sentences text)) (λ fragments,
      Ok (match fragments with [] => [text] | _ => fragments end)).

(** ** Chunks *)
Definition body_part (el : DocumentElement) : option string :=
  match el_kind el with
  | FOOTNOTE => None
  | TABLE => Some ("[TABLE]" +:+ String newline "" +:+ el_text el +:+ String newline "" +:+ "[/TABLE]")
  | _ => Some (el_text el)
  end.

Definition _group_to_chunk_text (group : list DocumentElement) : string * list string * bool :=
  (join (String newline "")
     (List.filter (λ p, negb (String.eqb (strip p) "")) (omap body_part group)),
   map el_text (List.filter (λ el, bool_decide (el_kind el = FOOTNOTE)) group),
   existsb (λ el, bool_decide (el_kind el = TABLE)) group).

(** [min(pages) if pages else None] and [max] *)
Definition min_page (l : list Z) : option Z := match l with [] => None | n :: l' => Some (fold_left Z.min l' n) end.
Definition max_page (l : list Z) : option Z := match l with [] => None | n :: l' => Some (fold_left Z.max l' n) end.

Section chunker.
Context (nfkc : string → string) (uuid4 : Z → string) (settings : Settings) (metadata : CircularMetadata).

(** The element a group is named after: the first with a clause number. *)
Definition anchor_of (first : DocumentElement) (group : list DocumentElement) : DocumentElement :=
  default first (find (λ e, truthy (el_clause_number e)) group).

(** The chunks of a group, [n] chunks having been built before. *)
Definition fragment_chunk (n : Z) (group : list DocumentElement) (anchor : DocumentElement)
    (footnotes : list string) (contains_table : bool) (count : Z) (idx : Z) (fragment : string) : ClauseChunk :=
  let pages := omap el_page_number group in
  Chunk (uuid4 (n + idx))
    (sha256_of_clause nfkc (me_circular_number metadata) (el_clause_number anchor) fragment)
    fragment (el_clause_number anchor) (el_section_path anchor) (last (el_section_path anchor))
    (min_page pages) (max_page pages)
    (if idx =? 0 then footnotes else []) (contains_table && (idx =? 0))
    (me_circular_number metadata) (me_issue_date metadata) (me_source_url metadata)
    (me_source_filename metadata) (me_source_retrieved_at metadata)
    (me_source_document_sha256 metadata) (me_regulator metadata) (me_document_type metadata)
    [("fragment_index", JInt idx); ("fragment_count", JInt count);
     ("source_document_sha256", opt_str (me_source_document_sha256 metadata))].

Definition group_chunks (n : Z) (group : list DocumentElement) : res parsing_error (list ClauseChunk) :=
  match group with
  | [] => Ok []
  | first :: _ =>
      let '(body, footnotes, contains_table) := _group_to_chunk_text group in
      let text := strip body in
      if (py_len text <? chunk_min_chars settings) && negb contains_table then Ok []
      else
        res_bind (_split_long_text text (chunk_max_chars settings) (chunk_overlap_chars settings))
          (λ fragments,
             Ok (imap (λ i fragment,
                   fragment_chunk n group (anchor_of first group) footnotes contains_table
                     (Z.of_nat (length fragments)) (Z.of_nat i) fragment) fragments))
  end.

Fixpoint chunk_groups (chunks : list ClauseChunk) (groups : list (list DocumentElement))
  : res parsing_error (list ClauseChunk) :=
  match groups with
  | [] => Ok chunks
  | group :: groups' =>
      res_bind (group_chunks (Z.of_nat (length chunks)) group) (λ new,
        chunk_groups (chunks ++ new)%list groups')
  end.

Definition chunk_elements (elements : list DocumentElement) : res parsing_error (list ClauseChunk) :=
  match elements with
  | [] => Raise (ChunkingError "No elements provided for chunking.")
  | _ =>
      res_bind (chunk_groups [] (_group_by_clause elements)) (λ chunks,
        match chunks with
        | [] => Raise (ChunkingError "Chunking produced zero chunks from a non-empty element set.")
        | _ => Ok chunks
        end)
  end.
End chunker.

(** * From bytes to a parse result: [src/app/services/pipeline.py]

    Extraction, chunking and the optional translation of chunks, with the
    digests of the document and of its text.  Language detection and
    translation are parameters; temporary files and the concurrency gate are
    left out. *)

Open Scope string_scope.
Open Scope Z_scope.

(** What [process_regional_text] gives for a text. *)
Record RegionalDocumentResult := Regional
  { rd_translated_text : string
  ; rd_requires_human_review : bool
  ; rd_localization : json      (* what is kept of it in [extra] *) }.
Inductive translation :=
| Translated (result : RegionalDocumentResult)
| UnsupportedLanguageError
| TranslationFailed.

Section service.
Context (nfkc : string → string) (uuid4 : Z → string) (settings : Settings).
Context (detect_regional_language : string → option string)
        (process_regional_text : string → string → translation).

(** [build_translated_clause_chunk]: every field but the text is kept. *)
Definition build_translated_clause_chunk (c : ClauseChunk) (result : RegionalDocumentResult) : ClauseChunk :=
  Chunk (ck_chunk_id c) (ck_sha256 c) (rd_translated_text result) (ck_clause_number c)
    (ck_section_path c) (ck_section_title c) (ck_page_start c) (ck_page_end c) (ck_footnotes c)
    (ck_contains_table c) (ck_circular_number c) (ck_issue_date c) (ck_source_url c)
    (ck_source_filename c) (ck_source_retrieved_at c) (ck_source_document_sha256 c)
    (ck_regulator c) (ck_document_type c)
    (List.filter (λ '(k, _), negb (String.eqb k "localization")) (ck_extra c)
     ++ [("localization", rd_localization result)])%list.

Definition _translate_one_chunk (c : ClauseChunk) : ClauseChunk * option string :=
  match detect_regional_language (ck_text c) with
  | None => (c, None)
  | Some language =>
      if String.eqb language "en" then (c, None)
      else
        match process_regional_text (ck_text c) language with
        | UnsupportedLanguageError => (c, None)
        | TranslationFailed =>
            (c, Some ("Chunk " +:+ ck_chunk_id c +:+ ": translation failed (" +:+ language
                      +:+ " -> en); kept original text, needs manual review."))
        | Translated result =>
            (build_translated_clause_chunk c result,
             if rd_requires_human_review result
             then Some ("Chunk " +:+ ck_chunk_id c +:+ ": " +:+ language
                        +:+ " -> en translation failed verification "
                        +:+ "or has unresolved entity alignments; flagged for HITL review before extraction.")
             else None)
        end
  end.

Definition _localize_chunks (chunks : list ClauseChunk) : list ClauseChunk * list string :=
  if negb (localization_enabled settings) then (chunks, [])
  else (map (λ c, (_translate_one_chunk c).1) chunks, omap (λ c, (_translate_one_chunk c).2) chunks).

Definition valid_url (u : string) : bool :=
  startswith "http://" u || startswith "https://" u || startswith "ftp://" u.

(** The header with the source of the document filled in. *)
Definition set_source (m : CircularMetadata) (url filename : option string) (retrieved_at : option datetime)
    (sha : string) : CircularMetadata :=
  Metadata (me_circular_number m) (me_issue_date m) (me_title m) url filename retrieved_at
    (me_department m) (me_regulator m) (me_document_type m) (Some sha) (me_extracted_text_sha256 m).
Definition set_text_digest (m : CircularMetadata) (sha : string) : CircularMetadata :=
  Metadata (me_circular_number m) (me_issue_date m) (me_title m) (me_source_url m) (me_source_filename m)
    (me_source_retrieved_at m) (me_department m) (me_regulator m) (me_document_type m)
    (me_source_document_sha256 m) (Some sha).

Definition blank_line : string := String newline (String newline "").

(** [extracted] is what [extract_pdf] gives for the bytes. *)
Definition parse_pdf_bytes (file_bytes : string) (filename source_url : option string)
    (source_retrieved_at : option datetime)
    (extracted : res parsing_error (CircularMetadata * list DocumentElement))
  : res parsing_error ParseResult :=
  let valid_source_url :=
    match source_url with Some u => if valid_url u then Some u else None | None => None end in
  let source_document_sha256 := sha256_of_bytes file_bytes in
  res_bind extracted (λ '(metadata, elements),
    let metadata := set_source metadata valid_source_url filename source_retrieved_at source_document_sha256 in
    let warnings :=
      (match me_circular_number metadata with
       | None => ["Could not auto-detect circular_number; consider supplying it explicitly."]
       | Some _ => [] end
       ++ match me_issue_date metadata with
          | None => ["Could not auto-detect issue_date; consider supplying it explicitly."]
          | Some _ => [] end)%list in
    res_bind (chunk_elements nfkc uuid4 settings metadata elements) (λ chunks,
      let '(chunks, localization_warnings) := _localize_chunks chunks in
      let combined_text :=
        match chunks with
        | [] => join blank_line (map el_text elements)
        | _ => join blank_line (map ck_text chunks)
        end in
      let extracted_text_sha256 := sha256_of_extracted_text nfkc combined_text in
      Ok (Parsed (set_text_digest metadata extracted_text_sha256) chunks (Z.of_nat (length elements))
            (warnings ++ localization_warnings)%list valid_source_url filename source_retrieved_at
            (Some source_document_sha256) (Some extracted_text_sha256)))).
End service.
