(* ===== verification/ChunkerFacts.v ===== *)
(** * Chunking keeps the document

    Grouping is a partition of the elements into runs of one clause, splitting
    bounds the fragments and keeps every character that is not blank, and the
    chunks of a document are therefore bounded, identified by their digests and
    complete. *)
From S2P Require Import Prelude PyStr PyText Json Datetime Taxonomy DocModels Extractor Chunker.

Open Scope string_scope.
Open Scope Z_scope.

(** ** Grouping *)
Definition is_heading (el : DocumentElement) : bool :=
  bool_decide (el_kind el = CLAUSE) || bool_decide (el_kind el = SECTION_HEADER).

(** All clauses and headers of a group carry the same number. *)
Definition one_clause (group : list DocumentElement) : Prop :=
  group ≠ [] ∧ ∃ n, ∀ el, el ∈ group → is_heading el = true → el_clause_number el = n.

Definition content (g : grouping) : list DocumentElement := (concat (gr_groups g) ++ gr_current g)%list.

Lemma concat_flush g : concat (flush g) = content g.
Proof.
  unfold flush, content. destruct (gr_current g) as [|x c]; [by rewrite app_nil_r|].
  by rewrite concat_app /= app_nil_r.
Qed.

Lemma group_step_content g el : content (group_step g el) = (content g ++ [el])%list.
Proof.
  unfold group_step. destruct g as [gs cur cl]. cbn [gr_groups gr_current gr_clause].
  destruct (el_kind el); try case_bool_decide; try (destruct cur as [|x c]);
    unfold content; cbn [gr_groups gr_current]; rewrite ?concat_flush ?concat_app; cbn;
    by rewrite ?app_nil_r -?app_assoc.
Qed.

Lemma group_by_clause_concat elements : concat (_group_by_clause elements) = elements.
Proof.
  unfold _group_by_clause. rewrite concat_flush.
  cut (∀ g, content (fold_left group_step elements g) = (content g ++ elements)%list); [by intros ->|].
  induction elements as [|el els IH]; intros g; cbn [fold_left]; [by rewrite app_nil_r|].
  by rewrite IH group_step_content -app_assoc.
Qed.

(** The open group and the closed ones hold one clause each. *)
Definition grouping_ok (g : grouping) : Prop :=
  Forall one_clause (gr_groups g)
  ∧ ∀ el, el ∈ gr_current g → is_heading el = true → el_clause_number el = gr_clause g.

Lemma flush_ok g : grouping_ok g → Forall one_clause (flush g).
Proof.
  intros [Hg Hc]. unfold flush. destruct (gr_current g) as [|x c] eqn:E; [done|].
  apply Forall_app. split; [done|]. constructor; [|done]. split; [done|]. by exists (gr_clause g).
Qed.

Lemma group_step_ok g el : grouping_ok g → grouping_ok (group_step g el).
Proof.
  intros Hg. pose proof (flush_ok _ Hg) as Hf. destruct Hg as [Hg Hc]. unfold group_step.
  destruct g as [gs cur cl]. cbn [gr_groups gr_current gr_clause] in *.
  assert (∀ n els, (∀ x, x ∈ els → is_heading x = true → el_clause_number x = n) →
            (is_heading el = true → el_clause_number el = n) →
            ∀ x, x ∈ (els ++ [el])%list → is_heading x = true → el_clause_number x = n) as Hsnoc.
  { intros n els H1 H2 x [Hx|Hx]%elem_of_app; [by apply H1|]. apply list_elem_of_singleton in Hx as ->. done. }
  assert (is_heading el = true → el_kind el = CLAUSE ∨ el_kind el = SECTION_HEADER) as Hk.
  { unfold is_heading. intros [H|H]%orb_true_iff; apply bool_decide_eq_true in H; auto. }
  assert (∀ n x, x ∈ [el] → is_heading x = true → (is_heading el = true → el_clause_number el = n) →
            el_clause_number x = n) as Hone.
  { intros n x ->%list_elem_of_singleton ? H. by apply H. }
  destruct (el_kind el) eqn:K; try (case_bool_decide as Hn); try (destruct cur as [|y c]);
    split; cbn [gr_groups gr_current gr_clause]; try done;
    try (apply Forall_app; split; [done|]; constructor; [|done]; split; [done|];
         exists (el_clause_number el); intros x ->%list_elem_of_singleton; done);
    try (apply (Hsnoc _ (y :: c)); [done|intros H%Hk; by destruct H]);
    try (intros x Hx Hh; by apply Hone).
  all: apply (Hsnoc _ (y :: c)); [by rewrite Hn|done].
Qed.

Lemma group_by_clause_ok elements : Forall one_clause (_group_by_clause elements).
Proof.
  apply flush_ok. cut (∀ g, grouping_ok g → grouping_ok (fold_left group_step elements g)).
  { intros H. apply H. split; [constructor|]. by intros x ?%not_elem_of_nil. }
  induction elements as [|el els IH]; intros g Hg; cbn [fold_left]; [done|]. by apply IH, group_step_ok.
Qed.

(** Grouping is a partition: the groups, one after the other, are the
    elements of the document in their order, none is empty, and the clauses
    and section headers of a group carry one number, so no chunk mixes two
    clauses. *)
Theorem grouping_partitions elements :
  concat (_group_by_clause elements) = elements ∧ Forall one_clause (_group_by_clause elements).
Proof. split; [apply group_by_clause_concat|apply group_by_clause_ok]. Qed.

(** ** Splitting *)
Definition inks (l : list string) : list ascii := List.flat_map ink l.

Lemma inks_app l l' : inks (l ++ l') = (inks l ++ inks l')%list.
Proof. apply flat_map_app. Qed.

Lemma sentences_from_ink prev cur ws s :
  ink ws = [] → inks (sentences_from prev cur ws s) = (ink cur ++ ink s)%list.
Proof.
  revert prev cur ws. induction s as [|c s IH]; intros prev cur ws Hws; cbn [sentences_from].
  { unfold inks. cbn. by rewrite ink_app Hws !app_nil_r. }
  destruct (is_space c) eqn:Hc; cbn [ink]; rewrite Hc.
  - apply IH. by rewrite ink_app Hws /= Hc.
  - destruct (_ && starts_sentence c); cbn [inks List.flat_map].
    + fold (inks (sentences_from (Some c) (String c "") "" s)). rewrite IH; [|done]. by rewrite /= Hc.
    + rewrite IH; [|done]. rewrite !ink_app Hws /= Hc. by rewrite -app_assoc.
Qed.

Lemma split_sentences_ink text : inks (split_sentences text) = ink text.
Proof. by rewrite /split_sentences sentences_from_ink. Qed.

Lemma udrop_exhausted n s : ulen (udrop n s) = 0%nat → udrop n s = "".
Proof.
  revert n. induction s as [|c s IH]; intros n; cbn [udrop]; [done|].
  destruct (is_lead c) eqn:E; [|apply IH]. destruct n; [|apply IH]. cbn. by rewrite E.
Qed.

Lemma wrap_from_bound fuel n s : Forall (λ f, (ulen f <= n)%nat) (wrap_from fuel n s).
Proof.
  revert s. induction fuel as [|fuel IH]; intros s; cbn; [constructor|].
  destruct (Nat.eqb (ulen s) 0); constructor; [apply ulen_utake|apply IH].
Qed.

Lemma wrap_from_ink fuel n s :
  (0 < n)%nat → (ulen s <= fuel)%nat → (ulen s = 0%nat → s = "") → inks (wrap_from fuel n s) = ink s.
Proof.
  intros Hn. revert s. induction fuel as [|fuel IH]; intros s Hf H0; cbn [wrap_from].
  { by rewrite (H0 ltac:(lia)). }
  destruct (Nat.eqb_spec (ulen s) 0) as [E|E]; [by rewrite (H0 E)|]. cbn [inks List.flat_map].
  fold (inks (wrap_from fuel n (udrop n s))).
  rewrite IH; [|rewrite ulen_udrop; lia|apply udrop_exhausted]. by rewrite -ink_app utake_udrop.
Qed.

Lemma ink_glue a b : ink (glue a b) = (ink a ++ ink b)%list.
Proof.
  unfold glue. destruct (String.eqb_spec a "") as [->|]; [done|]. by rewrite ink_strip !ink_app.
Qed.

(** What the loop keeps: bounded fragments, and a subsequence that covers the
    sentences read so far. *)
Lemma split_loop_spec max_chars overlap fragments buf sentences kept :
  0 < max_chars → Forall (λ f, py_len f <= max_chars) fragments → py_len buf <= max_chars →
  kept `sublist_of` (inks fragments ++ ink buf)%list →
  ∃ out, split_loop max_chars overlap fragments buf sentences = Ok out
    ∧ Forall (λ f, py_len f <= max_chars) out
    ∧ (kept ++ inks sentences)%list `sublist_of` inks out.
Proof.
  intros Hmax. revert fragments buf kept.
  induction sentences as [|sentence sentences IH]; intros fragments buf kept Hf Hb Hk; cbn [split_loop].
  { eexists. split; [done|]. rewrite app_nil_r. destruct (String.eqb_spec buf "") as [->|].
    - by rewrite app_nil_r in Hk.
    - split; [by apply Forall_app; split; [|repeat constructor]|]. by rewrite inks_app /= app_nil_r. }
  cbv zeta. cbn [inks List.flat_map]. fold (inks sentences). rewrite app_assoc.
  destruct (Z.leb_spec (py_len (glue buf sentence)) max_chars) as [Hc|Hc].
  { apply IH; [done|done|]. rewrite ink_glue app_assoc. by apply sublist_app. }
  set (fragments' := (if String.eqb buf "" then fragments else fragments ++ [buf])%list).
  set (tail := if String.eqb buf "" then "" else slice_from (- overlap) buf).
  assert (Forall (λ f, py_len f <= max_chars) fragments') as Hf'.
  { unfold fragments'. destruct (String.eqb buf ""); [done|]. by apply Forall_app; split; [|repeat constructor]. }
  assert (inks fragments' = (inks fragments ++ ink buf)%list) as Hi.
  { unfold fragments'. destruct (String.eqb_spec buf "") as [->|]; [by rewrite app_nil_r|].
    by rewrite inks_app /= app_nil_r. }
  assert (∀ rest, (kept ++ ink sentence)%list `sublist_of` (inks fragments' ++ ink (glue tail sentence) ++ rest)%list)
    as Hs.
  { intros rest. rewrite Hi ink_glue -(app_assoc (ink tail)). apply sublist_app; [done|].
    by apply sublist_inserts_l, sublist_inserts_r. }
  destruct (Z.ltb_spec max_chars (py_len (glue tail sentence))) as [Hl|Hl].
  2:{ apply IH; [done|lia|]. specialize (Hs []). by rewrite app_nil_r in Hs. }
  unfold hard_wrap. rewrite (proj2 (Z.eqb_neq _ _)); [|lia]. rewrite (proj2 (Z.ltb_ge _ _)); [|lia].
  cbn [res_bind]. apply IH; [| |].
  - apply Forall_app. split; [done|]. eapply Forall_impl; [apply wrap_from_bound|]. intros f. unfold py_len. lia.
  - unfold py_len. cbn. lia.
  - rewrite inks_app wrap_from_ink; [|lia|done|unfold py_len in Hl; lia]. rewrite app_nil_r.
    specialize (Hs []). by rewrite app_nil_r in Hs.
Qed.

Lemma sentences_from_blank prev cur ws s :
  ink s = [] → sentences_from prev cur ws s = [cur +:+ ws +:+ s].
Proof.
  revert ws. induction s as [|c s IH]; intros ws; cbn [sentences_from ink]; [by rewrite sapp_nil_r|].
  destruct (is_space c); [|done]. intros H. rewrite IH; [|done]. by rewrite sapp_assoc.
Qed.

(** A blank text over the limit is wrapped. *)
Lemma split_blank max_chars overlap text :
  ink text = [] → 0 < max_chars < py_len text →
  split_loop max_chars overlap [] "" (split_sentences text)
  = Ok (wrap_from (ulen text) (Z.to_nat max_chars) text).
Proof.
  intros Hi [Hmax Hl]. rewrite /split_sentences sentences_from_blank; [|done].
  cbn [split_loop String.append glue String.eqb].
  rewrite (proj2 (Z.leb_gt _ _)); [|done]. rewrite (proj2 (Z.ltb_lt _ _)); [|done].
  unfold hard_wrap. rewrite (proj2 (Z.eqb_neq _ _)); [|lia]. by rewrite (proj2 (Z.ltb_ge _ _)); [|lia].
Qed.

(** An oversized clause is split without loss: for a positive limit the
    split always succeeds, yields at least one fragment, every fragment is
    within the limit, and the non-blank characters of the clause, in their
    order, are found in the fragments one after the other. *)
Theorem split_keeps_text text max_chars overlap_chars :
  0 < max_chars →
  ∃ fragments, _split_long_text text max_chars overlap_chars = Ok fragments
    ∧ fragments ≠ []
    ∧ Forall (λ f, py_len f <= max_chars) fragments
    ∧ ink text `sublist_of` inks fragments.
Proof.
  intros Hmax. unfold _split_long_text. destruct (Z.leb_spec (py_len text) max_chars) as [Hl|Hl].
  { exists [text]. split_and!; [done|done|by repeat constructor|]. by rewrite /inks /= app_nil_r. }
  destruct (split_loop_spec max_chars overlap_chars [] "" (split_sentences text) [] Hmax)
    as (out & Ho & Hb & Hs); [constructor|unfold py_len; cbn; lia|done|].
  rewrite split_sentences_ink /= in Hs. assert (out ≠ []) as Hne.
  { intros ->. apply sublist_nil_r in Hs. rewrite (split_blank max_chars overlap_chars text Hs) in Ho; [|lia].
    apply Ok_inj in Ho. unfold py_len in Hl. destruct (ulen text) as [|n] eqn:E; [lia|].
    cbn [wrap_from] in Ho. by rewrite E in Ho. }
  rewrite Ho. exists out. split_and!; [by destruct out|done|done|done].
Qed.

(** With no overlap the slice [buf[-0:]] is the whole buffer: the fragment just
    closed is repeated in front of the next sentence. *)
Lemma zero_overlap_repeats :
  _split_long_text "One two. Three four. Five six." 20 0
  = Ok ["One two. Three four."; "One two. Three four."; " Five six."]
  ∧ _split_long_text "One two. Three four. Five six." 20 4
    = Ok ["One two. Three four."; "our. Five six."].
Proof. split; vm_compute; reflexivity. Qed.

(** ** Chunks *)
Lemma ink_join sep l : ink sep = [] → ink (join sep l) = inks l.
Proof.
  intros Hs. induction l as [|a [|b l] IH]; cbn [join inks List.flat_map]; [done|by rewrite app_nil_r|].
  rewrite !ink_app Hs /=. by rewrite IH.
Qed.

Lemma inks_filter_blank l : inks (List.filter (λ p, negb (String.eqb (strip p) "")) l) = inks l.
Proof.
  induction l as [|p l IH]; cbn [List.filter inks List.flat_map]; [done|].
  fold (inks l). destruct (String.eqb_spec (strip p) "") as [E|E]; cbn [negb].
  - apply strip_empty in E. by rewrite E.
  - cbn [inks List.flat_map]. by rewrite -IH.
Qed.

Lemma group_text_ink g : ink (strip (_group_to_chunk_text g).1.1) = inks (omap body_part g).
Proof. unfold _group_to_chunk_text. cbn [fst]. by rewrite ink_strip ink_join // inks_filter_blank. Qed.

(** A group is dropped when its text is short and it holds no table. *)
Definition keeps_group (settings : Settings) (g : list DocumentElement) : bool :=
  negb ((py_len (strip (_group_to_chunk_text g).1.1) <? chunk_min_chars settings)
        && negb (_group_to_chunk_text g).2).

Section chunks.
Context (nfkc : string → string) (uuid4 : Z → string) (settings : Settings) (metadata : CircularMetadata).
Context (Hmax : 0 < chunk_max_chars settings).
#[local] Notation group_chunks := (group_chunks nfkc uuid4 settings metadata).
#[local] Notation chunk_groups := (chunk_groups nfkc uuid4 settings metadata).
#[local] Notation chunk_elements := (chunk_elements nfkc uuid4 settings metadata).

(** A chunk is identified by its digest, within the limit, and cites the
    clause and the path of an element of its group. *)
Definition chunk_of_group (g : list DocumentElement) (c : ClauseChunk) : Prop :=
  ck_sha256 c = sha256_of_clause nfkc (me_circular_number metadata) (ck_clause_number c) (ck_text c)
  ∧ py_len (ck_text c) <= chunk_max_chars settings
  ∧ ck_circular_number c = me_circular_number metadata
  ∧ ∃ el, el ∈ g ∧ ck_clause_number c = el_clause_number el ∧ ck_section_path c = el_section_path el.

Lemma anchor_in first rest : anchor_of first (first :: rest) ∈ (first :: rest).
Proof.
  unfold anchor_of. destruct (find _ (first :: rest)) as [e|] eqn:E; [|left].
  apply find_some in E as [H _]. by apply list_elem_of_In.
Qed.

Lemma map_text_imap (f : nat → string → ClauseChunk) l :
  (∀ i s, ck_text (f i s) = s) → map ck_text (imap f l) = l.
Proof.
  revert f. induction l as [|s l IH]; intros f H; [done|]. cbn. rewrite H. f_equal. apply IH. intros i t. apply H.
Qed.

Lemma group_chunks_spec n g :
  g ≠ [] →
  ∃ new, group_chunks n g = Ok new ∧ Forall (chunk_of_group g) new
    ∧ (keeps_group settings g = true → new ≠ [] ∧ inks (omap body_part g) `sublist_of` inks (map ck_text new))
    ∧ (keeps_group settings g = false → new = []).
Proof.
  destruct g as [|first rest]; [done|]. intros _. unfold Chunker.group_chunks. rewrite /keeps_group -group_text_ink.
  destruct (_group_to_chunk_text (first :: rest)) as [[body footnotes] tbl] eqn:Eg. cbn [fst snd].
  destruct (_ && negb tbl) eqn:Ek; cbn [negb].
  { exists []. by split_and!. }
  destruct (split_keeps_text (strip body) (chunk_max_chars settings) (chunk_overlap_chars settings) Hmax)
    as (fragments & -> & Hne & Hb & Hs). cbn [res_bind].
  eexists. split; [done|]. set (mk := λ (i : nat) fragment, _).
  assert (∀ i s, ck_text (mk i s) = s) as Htext by done.
  split_and!; [| |done].
  - apply Forall_forall. intros c (i & s & -> & Hi)%elem_of_lookup_imap.
    split_and!; [done| |done|].
    + rewrite Htext. eapply (Forall_forall (λ f, py_len f <= _)); [exact Hb|]. by eapply list_elem_of_lookup_2.
    + exists (anchor_of first (first :: rest)). split; [apply anchor_in|done].
  - intros _. rewrite map_text_imap //. split; [|done]. by destruct fragments.
Qed.

Lemma chunk_groups_spec groups chunks :
  Forall (λ g, g ≠ []) groups →
  ∃ news, chunk_groups chunks groups = Ok (chunks ++ news)%list
    ∧ Forall (λ c, ∃ g, g ∈ groups ∧ chunk_of_group g c) news
    ∧ (news ≠ [] ↔ Exists (λ g, keeps_group settings g = true) groups)
    ∧ inks (omap body_part (concat (List.filter (keeps_group settings) groups)))
        `sublist_of` inks (map ck_text news).
Proof.
  revert chunks. induction groups as [|g groups IH]; intros chunks Hne; cbn [Chunker.chunk_groups].
  { exists []. rewrite app_nil_r. split_and!; [done|constructor| |done].
    split; [done|]. by intros ?%Exists_nil. }
  inversion_clear Hne as [|? ? Hg Hgs].
  destruct (group_chunks_spec (Z.of_nat (length chunks)) g Hg) as (new & -> & Hc & Hk & Hd). cbn [res_bind].
  destruct (IH (chunks ++ new)%list Hgs) as (news & -> & Hn & He & Hs). exists (new ++ news)%list.
  split_and!; [by rewrite app_assoc| | |].
  - apply Forall_app. split; (eapply Forall_impl; [eassumption|]).
    + intros c H. exists g. split; [left|done].
    + intros c (g' & Hg' & H). exists g'. split; [by right|done].
  - rewrite Exists_cons -He. destruct (keeps_group settings g).
    + destruct (Hk eq_refl) as [Hnew _]. split; [by left|]. intros _ E. by apply app_eq_nil in E as [? _].
    + rewrite (Hd eq_refl). naive_solver.
  - cbn [List.filter]. rewrite map_app inks_app. destruct (keeps_group settings g).
    + cbn [concat]. rewrite omap_app inks_app. apply sublist_app; [by apply Hk|done].
    + by rewrite (Hd eq_refl).
Qed.

Lemma groups_not_empty elements : Forall (λ g, g ≠ []) (_group_by_clause elements).
Proof. eapply Forall_impl; [apply group_by_clause_ok|]. by intros g [H _]. Qed.

(** What chunking returns. *)
Lemma chunk_elements_run elements :
  ∃ news,
    chunk_elements elements =
      match news with
      | [] => Raise (ChunkingError (match elements with
                | [] => "No elements provided for chunking."
                | _ => "Chunking produced zero chunks from a non-empty element set." end))
      | _ => Ok news
      end
    ∧ Forall (λ c, ∃ g, g ∈ _group_by_clause elements ∧ chunk_of_group g c) news
    ∧ (news ≠ [] ↔ Exists (λ g, keeps_group settings g = true) (_group_by_clause elements))
    ∧ inks (omap body_part (concat (List.filter (keeps_group settings) (_group_by_clause elements))))
        `sublist_of` inks (map ck_text news).
Proof.
  destruct (chunk_groups_spec (_group_by_clause elements) [] (groups_not_empty elements))
    as (news & Hrun & Hc & He & Hs). exists news. split_and!; try done.
  unfold Chunker.chunk_elements. destruct elements as [|el els].
  - cbn in Hrun. apply Ok_inj in Hrun. by rewrite -Hrun.
  - rewrite Hrun. cbn [res_bind app]. by destruct news.
Qed.

Lemma chunk_digests elements chunks :
  chunk_elements elements = Ok chunks →
  Forall (λ c, ck_sha256 c = sha256_of_clause nfkc (me_circular_number metadata) (ck_clause_number c) (ck_text c))
    chunks.
Proof.
  destruct (chunk_elements_run elements) as (news & -> & Hc & _). intros H.
  assert (chunks = news) as -> by (by destruct news; [|apply Ok_inj in H]).
  eapply Forall_impl; [exact Hc|]. by intros c (g & _ & ? & _).
Qed.

(** Chunking a document is complete and sound: for a positive limit it
    succeeds exactly when some group of elements is long enough or holds a
    table; every chunk is then within the limit, carries the digest of its own
    clause number and text, and cites the number and section path of an
    element of its group; and the non-blank text of the elements of all kept
    groups appears, in order, in the chunks. *)
Theorem chunk_elements_complete elements :
  ((∃ chunks, chunk_elements elements = Ok chunks)
   ↔ Exists (λ g, keeps_group settings g = true) (_group_by_clause elements))
  ∧ ∀ chunks, chunk_elements elements = Ok chunks →
      Forall (λ c, ∃ g, g ∈ _group_by_clause elements ∧ chunk_of_group g c) chunks
      ∧ inks (omap body_part (concat (List.filter (keeps_group settings) (_group_by_clause elements))))
          `sublist_of` inks (map ck_text chunks).
Proof.
  destruct (chunk_elements_run elements) as (news & -> & Hc & He & Hs). rewrite -He.
  destruct news as [|c news].
  - split; [split; [by intros [? ?]|done]|]. by intros chunks H.
  - split; [split; [done|by eexists]|]. by intros chunks <-%Ok_inj.
Qed.
End chunks.
