(* ===== verification/DbModels.v ===== *)
(** * The relational tables of the processing pipeline

    [src/app/db/models.py]: circulars, clauses, compiled rules, reviews and the
    audit trail of circular states.  A table is the list of its rows in
    insertion order; a column whose values a CHECK constraint lists is a
    string, and [db_checks] states the constraints.  Identity columns and
    uuids are drawn from one counter. *)
From S2P Require Import Prelude PyStr Json Datetime Policies.

Open Scope string_scope.
Open Scope Z_scope.

(** ** Rows *)
Record Circular := CircularRow
  { ci_id : Z
  ; ci_tenant_id : string
  ; ci_is_shared : bool
  ; ci_circular_number : string
  ; ci_title : option string
  ; ci_issue_date : option Z                  (* days *)
  ; ci_source_url : option string
  ; ci_source_filename : option string
  ; ci_source_retrieved_at : option datetime
  ; ci_department : option string
  ; ci_source_document_sha256 : option string
  ; ci_raw_text_digest : string
  ; ci_processing_state : string
  ; ci_error_message : option string
  ; ci_updated_at : datetime }.

Record Clause := ClauseRow
  { cl_id : Z
  ; cl_circular_id : Z
  ; cl_tenant_id : string
  ; cl_clause_number : option string
  ; cl_section_title : option string
  ; cl_section_path : list string
  ; cl_element_kind : string
  ; cl_text : string
  ; cl_sha256 : string
  ; cl_page_start : option Z
  ; cl_page_end : option Z
  ; cl_contains_table : bool
  ; cl_processing_status : string
  ; cl_error_message : option string }.

Record CircularStateTransition := Transition
  { tr_circular_id : Z
  ; tr_from_state : option string
  ; tr_to_state : string
  ; tr_triggered_by : string
  ; tr_error_message : option string
  ; tr_details : option json
  ; tr_created_at : datetime }.

Record CompiledRule := RuleRow
  { ru_id : Z
  ; ru_clause_id : Z
  ; ru_tenant_id : string
  ; ru_rule_id : string
  ; ru_rule_version : Z
  ; ru_rego_policy : option string
  ; ru_opa_package_name : option string
  ; ru_jsonlogic_ast : option json
  ; ru_is_compiled : bool
  ; ru_is_active : bool
  ; ru_hitl_status : string
  ; ru_compiler_version : option string
  ; ru_policy_sha256 : option string
  ; ru_provenance_metadata : option (list (string * json)) }.

Record HITLReview := ReviewRow
  { rv_id : Z
  ; rv_review_id : string
  ; rv_clause_id : Z
  ; rv_compiled_rule_id : option Z
  ; rv_tenant_id : string
  ; rv_reason_code : string
  ; rv_severity : string
  ; rv_description : string
  ; rv_source_excerpt : option string
  ; rv_field_path : option string
  ; rv_status : string
  ; rv_compliance_officer_id : option string
  ; rv_resolution_notes : option string
  ; rv_resolved_at : option datetime
  ; rv_approved_rule_version : option Z
  ; rv_approved_policy_sha256 : option string }.

(** The database.  [d_tenants] holds the tenant ids. *)
Record database := Db
  { d_tenants : list string
  ; d_circulars : list Circular
  ; d_clauses : list Clause
  ; d_rules : list CompiledRule
  ; d_reviews : list HITLReview
  ; d_transitions : list CircularStateTransition
  ; d_next : Z }.

(** ** Tables *)
Definition set_circulars (d : database) t :=
  Db (d_tenants d) t (d_clauses d) (d_rules d) (d_reviews d) (d_transitions d) (d_next d).
Definition set_clauses (d : database) t :=
  Db (d_tenants d) (d_circulars d) t (d_rules d) (d_reviews d) (d_transitions d) (d_next d).
Definition set_rules (d : database) t :=
  Db (d_tenants d) (d_circulars d) (d_clauses d) t (d_reviews d) (d_transitions d) (d_next d).
Definition set_reviews (d : database) t :=
  Db (d_tenants d) (d_circulars d) (d_clauses d) (d_rules d) t (d_transitions d) (d_next d).
Definition add_transition (d : database) t :=
  Db (d_tenants d) (d_circulars d) (d_clauses d) (d_rules d) (d_reviews d)
    (d_transitions d ++ [t])%list (d_next d).
(** The next identity value. *)
Definition bump (d : database) : database :=
  Db (d_tenants d) (d_circulars d) (d_clauses d) (d_rules d) (d_reviews d) (d_transitions d)
    (d_next d + 1).

(** [UPDATE ... WHERE p] *)
Definition update_where {A} (p : A → bool) (f : A → A) (t : list A) : list A :=
  map (λ r, if p r then f r else r) t.
(** [session.get(Table, key)] *)
Definition find_row {A} (p : A → bool) (t : list A) : option A := find p t.

Definition circular_of (d : database) (id : Z) : option Circular :=
  find_row (λ c, ci_id c =? id) (d_circulars d).
Definition clause_of (d : database) (id : Z) : option Clause :=
  find_row (λ c, cl_id c =? id) (d_clauses d).
Definition rule_of (d : database) (id : Z) : option CompiledRule :=
  find_row (λ r, ru_id r =? id) (d_rules d).

Definition refers_to (id : Z) (r : HITLReview) : bool :=
  match rv_compiled_rule_id r with Some i => i =? id | None => false end.
(** [select(HITLReview).where(HITLReview.compiled_rule_id == id)] *)
Definition reviews_of (d : database) (id : Z) : list HITLReview :=
  List.filter (refers_to id) (d_reviews d).

(** ** Column updates *)
(** State and error; an UPDATE is issued, and [updated_at] set, only when one
    of them changes. *)
Definition set_state (c : Circular) (st : string) (err : option string) (now : datetime) : Circular :=
  CircularRow (ci_id c) (ci_tenant_id c) (ci_is_shared c) (ci_circular_number c) (ci_title c)
    (ci_issue_date c) (ci_source_url c) (ci_source_filename c) (ci_source_retrieved_at c)
    (ci_department c) (ci_source_document_sha256 c) (ci_raw_text_digest c) st err
    (if bool_decide (st = ci_processing_state c ∧ err = ci_error_message c)
     then ci_updated_at c else now).

Definition set_clause_status (c : Clause) (st : string) (err : option string) : Clause :=
  ClauseRow (cl_id c) (cl_circular_id c) (cl_tenant_id c) (cl_clause_number c) (cl_section_title c)
    (cl_section_path c) (cl_element_kind c) (cl_text c) (cl_sha256 c) (cl_page_start c)
    (cl_page_end c) (cl_contains_table c) st err.

Definition set_rule_flags (r : CompiledRule) (compiled active : bool) (hitl : string) : CompiledRule :=
  RuleRow (ru_id r) (ru_clause_id r) (ru_tenant_id r) (ru_rule_id r) (ru_rule_version r)
    (ru_rego_policy r) (ru_opa_package_name r) (ru_jsonlogic_ast r) compiled active hitl
    (ru_compiler_version r) (ru_policy_sha256 r) (ru_provenance_metadata r).

Definition set_rule_digest (r : CompiledRule) (sha : option string) : CompiledRule :=
  RuleRow (ru_id r) (ru_clause_id r) (ru_tenant_id r) (ru_rule_id r) (ru_rule_version r)
    (ru_rego_policy r) (ru_opa_package_name r) (ru_jsonlogic_ast r) (ru_is_compiled r)
    (ru_is_active r) (ru_hitl_status r) (ru_compiler_version r) sha (ru_provenance_metadata r).

Definition set_rule_artifacts (r : CompiledRule) (rego pkg : option string) (ast : option json)
    (compiled : bool) (hitl : string) (sha : option string) : CompiledRule :=
  RuleRow (ru_id r) (ru_clause_id r) (ru_tenant_id r) (ru_rule_id r) (ru_rule_version r)
    rego pkg ast compiled false hitl (ru_compiler_version r) sha (ru_provenance_metadata r).

(** Status, officer, notes and time of a resolution. *)
Definition set_resolution (r : HITLReview) (st by_ : string) (notes : option string) (now : datetime)
  : HITLReview :=
  ReviewRow (rv_id r) (rv_review_id r) (rv_clause_id r) (rv_compiled_rule_id r) (rv_tenant_id r)
    (rv_reason_code r) (rv_severity r) (rv_description r) (rv_source_excerpt r) (rv_field_path r)
    st (Some by_) notes (Some now) (rv_approved_rule_version r) (rv_approved_policy_sha256 r).

Definition set_approved (r : HITLReview) (version : option Z) (sha : option string) : HITLReview :=
  ReviewRow (rv_id r) (rv_review_id r) (rv_clause_id r) (rv_compiled_rule_id r) (rv_tenant_id r)
    (rv_reason_code r) (rv_severity r) (rv_description r) (rv_source_excerpt r) (rv_field_path r)
    (rv_status r) (rv_compliance_officer_id r) (rv_resolution_notes r) (rv_resolved_at r) version sha.

Definition set_review_rule (r : HITLReview) (rule : option Z) : HITLReview :=
  ReviewRow (rv_id r) (rv_review_id r) (rv_clause_id r) rule (rv_tenant_id r)
    (rv_reason_code r) (rv_severity r) (rv_description r) (rv_source_excerpt r) (rv_field_path r)
    (rv_status r) (rv_compliance_officer_id r) (rv_resolution_notes r) (rv_resolved_at r)
    (rv_approved_rule_version r) (rv_approved_policy_sha256 r).

Definition set_description (r : HITLReview) (s : string) : HITLReview :=
  ReviewRow (rv_id r) (rv_review_id r) (rv_clause_id r) (rv_compiled_rule_id r) (rv_tenant_id r)
    (rv_reason_code r) (rv_severity r) s (rv_source_excerpt r) (rv_field_path r)
    (rv_status r) (rv_compliance_officer_id r) (rv_resolution_notes r) (rv_resolved_at r)
    (rv_approved_rule_version r) (rv_approved_policy_sha256 r).

(** Updates of the row with a given identity. *)
Definition update_circular (d : database) (id : Z) (f : Circular → Circular) : database :=
  set_circulars d (update_where (λ c, ci_id c =? id) f (d_circulars d)).
Definition update_clause (d : database) (id : Z) (f : Clause → Clause) : database :=
  set_clauses d (update_where (λ c, cl_id c =? id) f (d_clauses d)).
Definition update_rule (d : database) (id : Z) (f : CompiledRule → CompiledRule) : database :=
  set_rules d (update_where (λ r, ru_id r =? id) f (d_rules d)).
Definition update_review (d : database) (id : Z) (f : HITLReview → HITLReview) : database :=
  set_reviews d (update_where (λ r, rv_id r =? id) f (d_reviews d)).

(** The columns the publisher reads. *)
Definition as_published (r : CompiledRule) : published_rule :=
  PublishedRule (ru_id r) (ru_rule_id r) (ru_rule_version r) (ru_opa_package_name r) (ru_rego_policy r).

(** ** CHECK constraints *)
Definition _CIRCULAR_PROCESSING_STATES : list string :=
  ["INGESTED"; "EXTRACTING"; "EXTRACTED"; "COMPILING"; "AWAITING_HITL"; "APPROVED"; "DEPLOYED";
   "FAILED"].
Definition _CLAUSE_PROCESSING_STATUSES : list string :=
  ["PENDING"; "EXTRACTING"; "EXTRACTED"; "COMPILING"; "COMPILED"; "FAILED"].
Definition _ELEMENT_KINDS : list string :=
  ["title"; "section_header"; "clause"; "narrative_text"; "table"; "footnote"; "list_item";
   "uncategorized"].
Definition _HITL_REASON_CODES : list string :=
  ["qualitative_directive"; "ambiguous_span"; "low_extraction_confidence"; "audit_not_approved";
   "no_deterministic_logic"; "conflicting_thresholds"; "unresolved_entity"; "unknown_fact_metric";
   "invalid_metric_unit"; "invalid_threshold_value"].
Definition _HITL_SEVERITIES : list string := ["blocking"; "advisory"].
Definition _HITL_REVIEW_STATUSES : list string :=
  ["PENDING"; "IN_REVIEW"; "RESOLVED"; "REJECTED"; "REVISION_REQUIRED"].
Definition _COMPILED_RULE_HITL_STATUSES : list string := ["NONE"; "ADVISORY"; "BLOCKING"; "RESOLVED"].

Definition one_of (l : list string) (s : string) : bool := existsb (String.eqb s) l.

Definition digest_len (s : string) : bool := (String.length s =? 64)%nat.

Definition circular_check (c : Circular) : bool :=
  digest_len (ci_raw_text_digest c)
  && match ci_source_document_sha256 c with None => true | Some s => digest_len s end
  && one_of _CIRCULAR_PROCESSING_STATES (ci_processing_state c).
Definition clause_check (c : Clause) : bool :=
  digest_len (cl_sha256 c) && one_of _ELEMENT_KINDS (cl_element_kind c)
  && one_of _CLAUSE_PROCESSING_STATUSES (cl_processing_status c).
Definition rule_check (r : CompiledRule) : bool := one_of _COMPILED_RULE_HITL_STATUSES (ru_hitl_status r).
Definition transition_check (t : CircularStateTransition) : bool :=
  one_of _CIRCULAR_PROCESSING_STATES (tr_to_state t)
  && match tr_from_state t with None => true | Some s => one_of _CIRCULAR_PROCESSING_STATES s end.
Definition review_check (r : HITLReview) : bool :=
  one_of _HITL_REASON_CODES (rv_reason_code r) && one_of _HITL_SEVERITIES (rv_severity r)
  && one_of _HITL_REVIEW_STATUSES (rv_status r)
  && Bool.eqb (one_of ["RESOLVED"; "REJECTED"; "REVISION_REQUIRED"] (rv_status r))
       (bool_decide (is_Some (rv_resolved_at r))).

Definition db_checks (d : database) : bool :=
  forallb circular_check (d_circulars d) && forallb clause_check (d_clauses d)
  && forallb rule_check (d_rules d) && forallb review_check (d_reviews d)
  && forallb transition_check (d_transitions d).
