(* ===== verification/HitlService.v ===== *)
(** * The review gate: [src/app/services/hitl_service.py]

    Each operation is one database transaction under the lock of its rule: an
    exception before the commit leaves the database as it was.  Indexing an
    approved review as case law, which is best effort and outside the
    transaction, is left out. *)
From S2P Require Import Prelude PyStr Sha256 Json Datetime Policies Execution DbModels.

Open Scope string_scope.
Open Scope Z_scope.

(** ** The gate *)
Definition UNRESOLVED_STATUSES : list string := ["PENDING"; "IN_REVIEW"].
Definition DISQUALIFYING_STATUSES : list string := ["REJECTED"; "REVISION_REQUIRED"; "needs_revision"].
Definition APPROVED_STATUS : string := "RESOLVED".
Definition BLOCKING_SEVERITY : string := "blocking".

(** The message of the first rejected or returned review. *)
Fixpoint first_disqualified (reviews : list HITLReview) : option string :=
  match reviews with
  | [] => None
  | r :: reviews' =>
      let status_norm := upper (rv_status r) in
      if String.eqb status_norm "REJECTED" then
        Some ("Review '" +:+ rv_review_id r +:+ "' was REJECTED.")
      else if one_of ["REVISION_REQUIRED"; "NEEDS_REVISION"] status_norm then
        Some ("Review '" +:+ rv_review_id r +:+ "' requires revision.")
      else first_disqualified reviews'
  end.

Definition is_approved (r : HITLReview) : bool := String.eqb (upper (rv_status r)) APPROVED_STATUS.

Definition evaluate_rule_hitl_gate (reviews : list HITLReview) : bool * string * option string :=
  match reviews with
  | [] => (true, "RESOLVED", None)
  | _ =>
      match first_disqualified reviews with
      | Some msg => (false, "BLOCKING", Some msg)
      | None =>
          let unresolved_blocking :=
            List.filter (λ r, String.eqb (lower (rv_severity r)) BLOCKING_SEVERITY
                              && negb (is_approved r)) reviews in
          let unresolved_advisory :=
            List.filter (λ r, one_of UNRESOLVED_STATUSES (upper (rv_status r))) reviews in
          let non_approved := List.filter (λ r, negb (is_approved r)) reviews in
          match unresolved_blocking, unresolved_advisory, non_approved with
          | _ :: _, _, _ =>
              (false, "BLOCKING", Some ("Blocking review(s) remaining unresolved: "
                 +:+ ids_repr (map rv_review_id unresolved_blocking) +:+ "."))
          | [], _ :: _, _ =>
              (false, "ADVISORY", Some ("Advisory review(s) remaining unresolved: "
                 +:+ ids_repr (map rv_review_id unresolved_advisory) +:+ "."))
          | [], [], _ :: _ =>
              (false, "BLOCKING", Some ("Review(s) not approved: "
                 +:+ ids_repr (map rv_review_id non_approved) +:+ "."))
          | [], [], [] => (true, "RESOLVED", None)
          end
      end
  end.

(** ** Errors *)
Inductive service_error :=
| ReviewNotFound (review_id : string)                 (* 404 *)
| RuleGone                                            (* 404 *)
| AlreadyDecided (review_id st : string)              (* 409 *)
| UndefinedName (name : string)                       (* NameError *).

Definition get_review_or_404 (d : database) (review_id : string) : res service_error HITLReview :=
  match find_row (λ r, String.eqb (rv_review_id r) review_id) (d_reviews d) with
  | None => Raise (ReviewNotFound review_id)
  | Some r => Ok r
  end.

(** [status != "PENDING"]: the review has been decided. *)
Definition pending_review (d : database) (review_id : string) : res service_error HITLReview :=
  res_bind (get_review_or_404 d review_id) (λ r,
    if negb (String.eqb (rv_status r) "PENDING") then Raise (AlreadyDecided review_id (rv_status r))
    else Ok r).

(** ** The circular of a review *)

(** The clause and circular of the review, when both exist. *)
Definition review_circular (d : database) (r : HITLReview) : option (Clause * Circular) :=
  if rv_clause_id r =? 0 then None
  else match clause_of d (rv_clause_id r) with
       | None => None
       | Some clause =>
           if cl_circular_id clause =? 0 then None
           else match circular_of d (cl_circular_id clause) with
                | None => None
                | Some circular => Some (clause, circular)
                end
       end.

(** Changing the state of a circular together with its audit row. *)
Definition move_circular (d : database) (c : Circular) (to_state by_ : string)
    (err : option string) (row_err : option string) (details : option json) (now : datetime)
  : database :=
  add_transition (update_circular d (ci_id c) (λ c, set_state c to_state err now))
    (Transition (ci_id c) (Some (ci_processing_state c)) to_state by_ row_err details now).

Definition clause_ids_of (d : database) (circular_id : Z) : list Z :=
  map cl_id (List.filter (λ c, cl_circular_id c =? circular_id) (d_clauses d)).

Definition id_in (l : list Z) (i : Z) : bool := existsb (Z.eqb i) l.

(** When this approval resolves the last review of the circular. *)
Definition approve_circular (d : database) (review : HITLReview) (subject : string) (now : datetime)
  : database :=
  match review_circular d review with
  | None => d
  | Some (_, circular) =>
      if negb (String.eqb (ci_processing_state circular) "AWAITING_HITL") then d
      else
        let ids := clause_ids_of d (ci_id circular) in
        match ids with
        | [] => d
        | _ =>
            let all_circ_reviews := List.filter (λ r, id_in ids (rv_clause_id r)) (d_reviews d) in
            let unresolved :=
              List.filter (λ r, ((rv_id r =? rv_id review) && negb (String.eqb (rv_status review) APPROVED_STATUS))
                                || (negb (rv_id r =? rv_id review) && one_of UNRESOLVED_STATUSES (rv_status r)))
                all_circ_reviews in
            let disqualified :=
              List.filter (λ r, one_of DISQUALIFYING_STATUSES (rv_status r)) all_circ_reviews in
            match unresolved, disqualified with
            | [], [] =>
                move_circular d circular "APPROVED" subject (ci_error_message circular) None
                  (Some (JObj [("review_id", JStr (rv_review_id review));
                               ("reason", JStr "All HITL reviews approved")])) now
            | _, _ => d
            end
        end
  end.

(** ** Approval *)

(** The digest recorded with the approval: the stored one, or that of the Rego
    text when none is stored. *)
Definition approved_digest (rule : CompiledRule) : option string :=
  if negb (truthy (ru_policy_sha256 rule)) && truthy (ru_rego_policy rule)
  then Some (sha256_hex (str_or (ru_rego_policy rule) ""))
  else ru_policy_sha256 rule.

(** Activation or deactivation of the rule after its gate was evaluated. *)
Definition apply_gate (d : database) (rule : CompiledRule) : database * bool :=
  match evaluate_rule_hitl_gate (reviews_of d (ru_id rule)) with
  | (true, _, _) =>
      let d1 := set_rules d
        (update_where (λ r, String.eqb (ru_rule_id r) (ru_rule_id rule) && negb (ru_id r =? ru_id rule))
           (λ r, set_rule_flags r (ru_is_compiled r) false (ru_hitl_status r)) (d_rules d)) in
      (update_rule d1 (ru_id rule) (λ r, set_rule_flags r (ru_is_compiled r) true "RESOLVED"), true)
  | (false, target_status, _) =>
      (update_rule d (ru_id rule) (λ r, set_rule_flags r (ru_is_compiled r) false target_status), false)
  end.

(** The transaction of [approve_review]. *)
Definition approve_transaction (d : database) (review_id subject : string) (notes : option string)
    (now : datetime) : res service_error (database * HITLReview * bool * option CompiledRule) :=
  res_bind (pending_review d review_id) (λ review,
    match rv_compiled_rule_id review with
    | Some rid =>
        match rule_of d rid with
        | None => Raise RuleGone
        | Some rule =>
            let hash := approved_digest rule in
            let approve r :=
              set_approved (set_resolution r APPROVED_STATUS subject notes now)
                (Some (ru_rule_version rule)) hash in
            let d1 := update_review d (rv_id review) approve in
            let d2 := update_rule d1 (ru_id rule) (λ r, set_rule_digest r hash) in
            let '(d3, activated) := apply_gate d2 rule in
            let d4 := approve_circular d3 (approve review) subject now in
            Ok (d4, approve review, activated, rule_of d4 rid)
        end
    | None =>
        let approve r := set_resolution r APPROVED_STATUS subject notes now in
        let d1 := update_review d (rv_id review) approve in
        Ok (approve_circular d1 (approve review) subject now, approve review, false, None)
    end).

(** [approve_review] with the publication that follows the commit; a failed
    publication is logged and dropped. *)
Definition approve_review (d : database) (publisher : option process) (review_id subject : string)
    (notes : option string) (now : datetime) (opa_ok : bool)
  : res service_error (database * option process * HITLReview * bool) :=
  res_bind (approve_transaction d review_id subject notes now) (λ x,
    let '(d', review, activated, rule) := x in
    let published :=
      match publisher, rule with
      | Some p, Some rule =>
          if activated && truthy (ru_rego_policy rule) then
            match publish_approved p (as_published rule) subject [] opa_ok with
            | Ok (p', _) => Some p'
            | Raise _ => Some p
            end
          else Some p
      | _, _ => publisher
      end in
    Ok (d', published, review, activated)).

(** ** Rejection and revision *)

(** [compiled_rule.is_active = False; hitl_status = "BLOCKING"], when the row
    exists. *)
Definition block_rule (d : database) (rule : option Z) (keep_compiled : bool) : database :=
  match rule with
  | None => d
  | Some rid =>
      update_rule d rid (λ r, set_rule_flags r (keep_compiled && ru_is_compiled r) false "BLOCKING")
  end.

Definition reject_review (d : database) (review_id subject : string) (notes : option string)
    (now : datetime) : res service_error (database * HITLReview) :=
  res_bind (pending_review d review_id) (λ review,
    let reject r := set_resolution r "REJECTED" subject notes now in
    let d1 := block_rule d (rv_compiled_rule_id review) true in
    let d2 := update_review d1 (rv_id review) reject in
    let d3 :=
      match review_circular d2 review with
      | Some (_, circular) =>
          if String.eqb (ci_processing_state circular) "FAILED" then d2
          else
            let err := "HITL review '" +:+ rv_review_id review +:+ "' rejected by " +:+ subject in
            move_circular d2 circular "FAILED" subject (Some err) (Some err)
              (Some (JObj [("review_id", JStr (rv_review_id review))])) now
      | None => d2
      end in
    Ok (d3, reject review)).

(** The names the module defines or imports. *)
Definition hitl_service_globals : list string :=
  ["annotations"; "asyncio"; "defaultdict"; "asynccontextmanager"; "dt"; "hashlib"; "logging";
   "Sequence"; "HTTPException"; "status"; "select"; "AsyncSession"; "get_settings"; "Circular";
   "CircularStateTransition"; "Clause"; "CompiledRule"; "HITLReview"; "PolicyPublisher"; "logger";
   "_RULE_LOCKS"; "_GLOBAL_LOCK"; "_rule_scope_lock"; "UNRESOLVED_STATUSES";
   "DISQUALIFYING_STATUSES"; "APPROVED_STATUS"; "BLOCKING_SEVERITY"; "ADVISORY_SEVERITY";
   "evaluate_rule_hitl_gate"; "HITLReviewService"].

Definition request_revision (d : database) (review_id subject : string) (notes : option string)
    (now : datetime) : res service_error (database * HITLReview) :=
  res_bind (pending_review d review_id) (λ review,
    let revise r := set_review_rule (set_resolution r "REVISION_REQUIRED" subject notes now) None in
    let d1 := block_rule d (rv_compiled_rule_id review) false in
    let d2 := update_review d1 (rv_id review) revise in
    match review_circular d2 review with
    | Some (clause, circular) =>
        if one_of ["AWAITING_HITL"; "APPROVED"] (ci_processing_state circular) then
          if one_of hitl_service_globals "ClauseProcessingState" then
            let d3 := update_clause d2 (cl_id clause)
                        (λ c, set_clause_status c "EXTRACTING" (cl_error_message c)) in
            Ok (move_circular d3 circular "EXTRACTING" subject (ci_error_message circular) None
                  (Some (JObj [("review_id", JStr (rv_review_id review)); ("reason", JStr "Revision requested")]))
                  now,
                revise review)
          else Raise (UndefinedName "ClauseProcessingState")
        else Ok (d2, revise review)
    | None => Ok (d2, revise review)
    end).
