(* ===== verification/HitlServiceFacts.v ===== *)
(** * Correctness of the review gate

    The invariant of the pipeline's database and its preservation by the
    decisions of compliance officers; what activation needs and what it does. *)
From S2P Require Import Prelude PyStr Sha256 Json Datetime Policies Execution DbModels HitlService.

Open Scope string_scope.
Open Scope Z_scope.

(** ** Tables *)
Lemma elem_of_update_where {A} (p : A → bool) f t x :
  x ∈ update_where p f t ↔ ∃ y, y ∈ t ∧ x = if p y then f y else y.
Proof.
  unfold update_where. rewrite list_elem_of_fmap. naive_solver.
Qed.

Lemma map_update_where {A B} (g : A → B) p f t :
  (∀ y, g (f y) = g y) → map g (update_where p f t) = map g t.
Proof.
  intros Hg. unfold update_where. rewrite List.map_map. apply map_ext. intros y.
  by destruct (p y).
Qed.

Lemma forallb_update_where {A} (c : A → bool) p f t :
  (∀ y, c y = true → c (f y) = true) → forallb c t = true → forallb c (update_where p f t) = true.
Proof.
  intros Hc. induction t as [|y t IH]; simpl; [done|].
  rewrite !andb_true_iff. intros [H1 H2]. split; [|auto]. destruct (p y); auto.
Qed.

Lemma find_row_Some {A} (p : A → bool) t x : find_row p t = Some x → x ∈ t ∧ p x = true.
Proof. intros H%find_some. by rewrite list_elem_of_In. Qed.

Lemma reviews_of_elem d id v :
  v ∈ reviews_of d id ↔ v ∈ d_reviews d ∧ rv_compiled_rule_id v = Some id.
Proof.
  unfold reviews_of, refers_to. rewrite !list_elem_of_In filter_In.
  destruct (rv_compiled_rule_id v) as [i|]; rewrite ?Z.eqb_eq; naive_solver.
Qed.

(** ** The gate *)
Lemma one_of_spec l s : one_of l s = true ↔ s ∈ l.
Proof.
  unfold one_of. rewrite existsb_true_elem. split.
  - by intros (x & Hx & <-%String.eqb_eq).
  - intros H. exists s. by rewrite String.eqb_refl.
Qed.

Lemma filter_nil_all {A} (p : A → bool) l : List.filter p l = [] ↔ ∀ x, x ∈ l → p x = false.
Proof.
  induction l as [|y l IH]; simpl.
  { split; [intros _ x H; by apply not_elem_of_nil in H|done]. }
  destruct (p y) eqn:E.
  - split; [done|]. intros H. rewrite H in E; [done|by left].
  - rewrite IH. split.
    + intros H x [->|Hx]%elem_of_cons; auto.
    + intros H x Hx. apply H. by right.
Qed.

Lemma first_disqualified_None l :
  (∀ r, r ∈ l → is_approved r = true) → first_disqualified l = None.
Proof.
  unfold is_approved, APPROVED_STATUS.
  induction l as [|r l IH]; intros H; [done|]. simpl.
  pose proof (proj1 (String.eqb_eq _ _) (H r (list_elem_of_here _ _))) as ->. simpl.
  apply IH. intros x Hx. apply H. by right.
Qed.

(** A rule passes its gate exactly when every one of its reviews is approved. *)
Lemma gate_all_approved reviews :
  (evaluate_rule_hitl_gate reviews).1.1 = true ↔ ∀ r, r ∈ reviews → is_approved r = true.
Proof.
  destruct reviews as [|r0 l].
  { split; [intros _ r H; by apply not_elem_of_nil in H|done]. }
  cbn [evaluate_rule_hitl_gate]. set (rs := r0 :: l). split.
  - destruct (first_disqualified rs); [done|].
    destruct (List.filter _ rs); [|done]. destruct (List.filter _ rs); [|done].
    destruct (List.filter (λ r, negb (is_approved r)) rs) eqn:E; [|done].
    intros _ r Hr. apply Bool.negb_false_iff. exact (proj1 (filter_nil_all _ _) E r Hr).
  - intros H. rewrite (first_disqualified_None rs H).
    rewrite (proj2 (filter_nil_all (λ r, String.eqb (lower (rv_severity r)) BLOCKING_SEVERITY
                                         && negb (is_approved r)) rs)).
    2:{ intros r Hr. rewrite (H r Hr). apply andb_false_r. }
    rewrite (proj2 (filter_nil_all (λ r, one_of UNRESOLVED_STATUSES (upper (rv_status r))) rs)).
    2:{ intros r Hr. specialize (H r Hr). unfold is_approved in H. apply String.eqb_eq in H.
        by rewrite H. }
    rewrite (proj2 (filter_nil_all (λ r, negb (is_approved r)) rs)); [done|].
    intros r Hr. by rewrite (H r Hr).
Qed.

(** ** The invariant *)

(** No rule is active while one of its reviews is not approved. *)
Definition reviewed (d : database) : Prop :=
  ∀ r v, r ∈ d_rules d → ru_is_active r = true → v ∈ d_reviews d →
    rv_compiled_rule_id v = Some (ru_id r) → is_approved v = true.

(** At most one version of a rule is active. *)
Definition one_active (d : database) : Prop :=
  ∀ r r', r ∈ d_rules d → r' ∈ d_rules d → ru_is_active r = true → ru_is_active r' = true →
    ru_rule_id r = ru_rule_id r' → ru_id r = ru_id r'.

(** The audit trail, replayed from the initial state. *)
Fixpoint replay (cur : string) (ts : list CircularStateTransition) : option string :=
  match ts with
  | [] => Some cur
  | t :: ts' => if bool_decide (tr_from_state t = Some cur) then replay (tr_to_state t) ts' else None
  end.

Definition transitions_of (d : database) (id : Z) : list CircularStateTransition :=
  List.filter (λ t, tr_circular_id t =? id) (d_transitions d).

Definition trail_ok (d : database) : Prop :=
  ∀ c, c ∈ d_circulars d → replay "INGESTED" (transitions_of d (ci_id c)) = Some (ci_processing_state c).

Record db_inv (d : database) : Prop :=
  { di_checks : db_checks d = true
  ; di_reviewed : reviewed d
  ; di_one_active : one_active d
  ; di_trail : trail_ok d
  ; di_review_ids : NoDup (map rv_id (d_reviews d))
  ; di_rule_ids : NoDup (map ru_id (d_rules d))
  ; di_circular_ids : NoDup (map ci_id (d_circulars d))
  ; di_clause_ids : NoDup (map cl_id (d_clauses d))
  ; di_review_fresh : ∀ v, v ∈ d_reviews d → rv_id v < d_next d
  ; di_rule_fresh : ∀ r, r ∈ d_rules d → ru_id r < d_next d
  ; di_circular_fresh : ∀ c, c ∈ d_circulars d → ci_id c < d_next d
  ; di_transition_fresh : ∀ t, t ∈ d_transitions d → tr_circular_id t < d_next d
  ; di_clause_fresh : ∀ c, c ∈ d_clauses d → cl_id c < d_next d
  ; di_review_fk : ∀ v i, v ∈ d_reviews d → rv_compiled_rule_id v = Some i → i < d_next d }.

Lemma replay_snoc cur ts t :
  replay cur (ts ++ [t]) =
  replay cur ts ≫= λ s, if bool_decide (tr_from_state t = Some s) then Some (tr_to_state t) else None.
Proof.
  revert cur. induction ts as [|t' ts IH]; intros cur; simpl.
  - by destruct (bool_decide _).
  - destruct (bool_decide _); [apply IH|done].
Qed.

Lemma db_checks_iff d :
  db_checks d = true ↔
  forallb circular_check (d_circulars d) = true ∧ forallb clause_check (d_clauses d) = true
  ∧ forallb rule_check (d_rules d) = true ∧ forallb review_check (d_reviews d) = true
  ∧ forallb transition_check (d_transitions d) = true.
Proof. unfold db_checks. rewrite !andb_true_iff. tauto. Qed.

(** ** Steps that preserve the invariant *)

(** Rewriting a review, when the result is approved or its rule is not active. *)
Lemma update_review_inv d id f :
  db_inv d → (∀ v, rv_id (f v) = rv_id v) → (∀ v, review_check v = true → review_check (f v) = true) →
  (∀ r v, r ∈ d_rules d → ru_is_active r = true → v ∈ d_reviews d → rv_id v = id →
     rv_compiled_rule_id (f v) = Some (ru_id r) → is_approved (f v) = true) →
  (∀ v i, rv_compiled_rule_id (f v) = Some i → rv_compiled_rule_id v = Some i) →
  db_inv (update_review d id f).
Proof.
  intros [Hc Hr Ho Ht Hn Hm Hci Hcl Hf1 Hf4 Hf2 Hf3 Hf5 Hfk] Hid Hck Hap Href. split; simpl; try done.
  - apply db_checks_iff in Hc as (? & ? & ? & ? & ?). apply db_checks_iff. simpl.
    split_and!; try done. by apply forallb_update_where.
  - intros r v Hin Ha Hv Hrv. apply elem_of_update_where in Hv as (v0 & Hv0 & ->).
    destruct (Z.eqb_spec (rv_id v0) id); [by eapply Hap|by eapply Hr].
  - by rewrite map_update_where.
  - intros v (v0 & Hv0 & ->)%elem_of_update_where. destruct (_ =? _); rewrite ?Hid; auto.
  - intros v i (v0 & Hv0 & ->)%elem_of_update_where. destruct (_ =? _); eauto.
Qed.

(** Rewriting a rule so that it is not active. *)
Lemma update_rules_inactive_inv d p f :
  db_inv d → (∀ r, r ∈ d_rules d → p r = true → ru_is_active (f r) = false) → (∀ r, ru_id (f r) = ru_id r) →
  (∀ r, rule_check r = true → rule_check (f r) = true) →
  db_inv (set_rules d (update_where p f (d_rules d))).
Proof.
  intros [Hc Hr Ho Ht Hn Hm Hci Hcl Hf1 Hf4 Hf2 Hf3 Hf5 Hfk] Hia Hid Hck. split; simpl; try done.
  - apply db_checks_iff in Hc as (? & ? & ? & ? & ?). apply db_checks_iff. simpl.
    split_and!; try done. by apply forallb_update_where.
  - intros r v (r0 & Hr0 & ->)%elem_of_update_where Ha.
    destruct (p r0) eqn:E; [by rewrite (Hia _ Hr0 E) in Ha|]. by apply Hr.
  - intros r r' (r0 & Hr0 & ->)%elem_of_update_where (r0' & Hr0' & ->)%elem_of_update_where Ha Ha'.
    destruct (p r0) eqn:E; [by rewrite (Hia _ Hr0 E) in Ha|].
    destruct (p r0') eqn:E'; [by rewrite (Hia _ Hr0' E') in Ha'|].
    by apply Ho.
  - by rewrite map_update_where.
  - intros r (r0 & Hr0 & ->)%elem_of_update_where. destruct (p r0); rewrite ?Hid; auto.
Qed.

(** Rewriting columns of a rule that the invariant does not read. *)
Lemma update_rules_quiet_inv d p f :
  db_inv d →
  (∀ r, ru_is_active (f r) = ru_is_active r) → (∀ r, ru_id (f r) = ru_id r) →
  (∀ r, ru_rule_id (f r) = ru_rule_id r) → (∀ r, rule_check r = true → rule_check (f r) = true) →
  db_inv (set_rules d (update_where p f (d_rules d))).
Proof.
  intros [Hc Hr Ho Ht Hn Hm Hci Hcl Hf1 Hf4 Hf2 Hf3 Hf5 Hfk] Hia Hid Hri Hck. split; simpl; try done.
  - apply db_checks_iff in Hc as (? & ? & ? & ? & ?). apply db_checks_iff. simpl.
    split_and!; try done. by apply forallb_update_where.
  - intros r v (r0 & Hr0 & ->)%elem_of_update_where Ha Hv Hrv.
    destruct (p r0); [rewrite Hia in Ha; rewrite Hid in Hrv|]; by eapply Hr.
  - intros r r' (r0 & Hr0 & ->)%elem_of_update_where (r0' & Hr0' & ->)%elem_of_update_where Ha Ha' Hrr.
    destruct (p r0), (p r0'); rewrite ?Hia ?Hri in Ha, Ha', Hrr; rewrite ?Hid; by apply Ho.
  - by rewrite map_update_where.
  - intros r (r0 & Hr0 & ->)%elem_of_update_where. destruct (p r0); rewrite ?Hid; auto.
Qed.

Lemma update_clauses_inv d p f :
  db_inv d → (∀ c, clause_check c = true → clause_check (f c) = true) → (∀ c, cl_id (f c) = cl_id c) →
  db_inv (set_clauses d (update_where p f (d_clauses d))).
Proof.
  intros [Hc Hr Ho Ht Hn Hm Hci Hcl Hf1 Hf4 Hf2 Hf3 Hf5 Hfk] Hck Hid. split; simpl; try done.
  - apply db_checks_iff in Hc as (? & ? & ? & ? & ?). apply db_checks_iff. simpl.
    split_and!; try done. by apply forallb_update_where.
  - by rewrite map_update_where.
  - intros c (c0 & Hc0 & ->)%elem_of_update_where. destruct (p c0); rewrite ?Hid; auto.
Qed.

Lemma set_state_check c st err now :
  one_of _CIRCULAR_PROCESSING_STATES st = true → circular_check c = true →
  circular_check (set_state c st err now) = true.
Proof.
  intros Hst. unfold circular_check. cbn [set_state ci_raw_text_digest ci_source_document_sha256
    ci_processing_state]. rewrite Hst !andb_true_iff. tauto.
Qed.

(** Moving a circular with its audit row. *)
Lemma move_circular_inv d c st by_ err row_err details now :
  db_inv d → c ∈ d_circulars d → one_of _CIRCULAR_PROCESSING_STATES st = true →
  db_inv (move_circular d c st by_ err row_err details now).
Proof.
  intros [Hc Hr Ho Ht Hn Hm Hci Hcl Hf1 Hf4 Hf2 Hf3 Hf5 Hfk] Hin Hst. split; simpl; try done.
  - apply db_checks_iff in Hc as (Hcc & ? & ? & ? & Htc). apply db_checks_iff. simpl.
    split_and!; try done; [apply forallb_update_where; [|done]; auto using set_state_check|].
    rewrite forallb_app Htc. cbn [forallb andb]. unfold transition_check.
    cbn [tr_to_state tr_from_state]. rewrite Hst. cbn [andb]. rewrite andb_true_r.
    rewrite forallb_forall in Hcc. apply list_elem_of_In, Hcc in Hin.
    unfold circular_check in Hin. apply andb_true_iff in Hin as [_ Hin]. done.
  - intros c' (c0 & Hc0 & ->)%elem_of_update_where. unfold transitions_of. simpl.
    rewrite List.filter_app. simpl.
    destruct (Z.eqb_spec (ci_id c0) (ci_id c)) as [E|E].
    + simpl. rewrite E Z.eqb_refl replay_snoc. pose proof (Ht _ Hin) as Hrp.
      unfold transitions_of in Hrp. rewrite Hrp. simpl. by rewrite bool_decide_eq_true_2.
    + destruct (Z.eqb_spec (ci_id c) (ci_id c0)); [congruence|]. rewrite app_nil_r. by apply Ht.
  - by rewrite map_update_where.
  - intros c' (c0 & Hc0 & ->)%elem_of_update_where. destruct (_ =? _); simpl; auto.
  - intros t [Ht'| ->%list_elem_of_singleton]%elem_of_app; simpl; auto.
Qed.

(** ** Approval *)
Lemma approved_status_approved r by_ notes now v sha :
  is_approved (set_approved (set_resolution r APPROVED_STATUS by_ notes now) v sha) = true.
Proof. reflexivity. Qed.

(** Deciding a review keeps its CHECK constraint. *)
Lemma set_resolution_check r st by_ notes now :
  one_of ["RESOLVED"; "REJECTED"; "REVISION_REQUIRED"] st = true →
  one_of _HITL_REVIEW_STATUSES st = true →
  review_check r = true → review_check (set_resolution r st by_ notes now) = true.
Proof.
  intros H1 H2. unfold review_check, set_resolution.
  cbn [rv_reason_code rv_severity rv_status rv_resolved_at]. rewrite H1 H2 !andb_true_iff.
  intros [[[-> ->] _] _]. split_and!; try done.
Qed.

Lemma pending_review_Ok d id r :
  pending_review d id = Ok r → r ∈ d_reviews d ∧ rv_review_id r = id ∧ rv_status r = "PENDING".
Proof.
  unfold pending_review, get_review_or_404. intros (v & Hv & H)%res_bind_Ok.
  destruct (find_row _ _) as [v'|] eqn:E; [|done]. injection Hv as ->.
  apply find_row_Some in E as [Hin Hid%String.eqb_eq].
  destruct (String.eqb_spec (rv_status v) "PENDING"); [|done]. simpl in H. by injection H as <-.
Qed.

Lemma review_circular_Some d r clause circular :
  review_circular d r = Some (clause, circular) → circular ∈ d_circulars d.
Proof.
  unfold review_circular. destruct (_ =? _); [done|]. destruct (clause_of _ _); [|done].
  destruct (_ =? _); [done|]. destruct (circular_of _ _) eqn:E; [|done].
  intros [= <- <-]. by apply find_row_Some in E as [? _].
Qed.

Lemma approve_circular_inv d review by_ now : db_inv d → db_inv (approve_circular d review by_ now).
Proof.
  intros HI. unfold approve_circular.
  destruct (review_circular d review) as [[cl ci]|] eqn:E; [|done].
  apply review_circular_Some in E. destruct (negb _); [done|].
  destruct (clause_ids_of _ _); [done|].
  destruct (List.filter _ _); [|done]. destruct (List.filter _ _); [|done].
  by apply move_circular_inv.
Qed.

(** Evaluating the gate activates the rule only when all its reviews are
    approved, and then it alone among the versions of its rule id. *)
Lemma apply_gate_inv d rule :
  db_inv d → (∀ r, r ∈ d_rules d → ru_id r = ru_id rule → ru_rule_id r = ru_rule_id rule) →
  db_inv (apply_gate d rule).1.
Proof.
  intros HI Hrid. unfold apply_gate.
  pose proof (gate_all_approved (reviews_of d (ru_id rule))) as Hg.
  destruct (evaluate_rule_hitl_gate (reviews_of d (ru_id rule))) as [[[] tgt] msg] eqn:E.
  - cbn [fst] in *. pose proof (proj1 Hg eq_refl) as Hap. clear Hg.
    pose proof (update_rules_inactive_inv d
      (λ r, String.eqb (ru_rule_id r) (ru_rule_id rule) && negb (ru_id r =? ru_id rule))
      (λ r, set_rule_flags r (ru_is_compiled r) false (ru_hitl_status r)) HI
      ltac:(done) ltac:(done) ltac:(done)) as HI1.
    destruct HI1 as [Hc Hr Ho Ht Hn Hm Hci Hcl Hf1 Hf4 Hf2 Hf3 Hf5 Hfk]. simpl in *. split; simpl; try done.
    + apply db_checks_iff in Hc as (? & ? & ? & ? & ?). apply db_checks_iff.
      simpl. split_and!; try done. by apply forallb_update_where.
    + intros r v (r0 & Hr0 & ->)%elem_of_update_where Ha Hv Hrv.
      destruct (Z.eqb_spec (ru_id r0) (ru_id rule)) as [E0|E0]; [|by eapply Hr].
      simpl in Hrv. apply Hap, reviews_of_elem. by rewrite -E0.
    + assert (Hact : ∀ r, r ∈ update_where (λ r, ru_id r =? ru_id rule)
          (λ r, set_rule_flags r (ru_is_compiled r) true "RESOLVED")
          (update_where (λ r, String.eqb (ru_rule_id r) (ru_rule_id rule) && negb (ru_id r =? ru_id rule))
             (λ r, set_rule_flags r (ru_is_compiled r) false (ru_hitl_status r)) (d_rules d)) →
        ru_is_active r = true →
        (ru_id r = ru_id rule ∧ ru_rule_id r = ru_rule_id rule)
        ∨ (ru_rule_id r ≠ ru_rule_id rule ∧ r ∈ d_rules d)).
      { intros r (r0 & (q & Hq & ->)%elem_of_update_where & ->)%elem_of_update_where.
        destruct (String.eqb_spec (ru_rule_id q) (ru_rule_id rule)) as [E1|E1];
          destruct (Z.eqb_spec (ru_id q) (ru_id rule)) as [E2|E2]; simpl;
          rewrite ?E2 ?Z.eqb_refl; simpl; rewrite ?(proj2 (Z.eqb_neq _ _) E2); simpl; auto; done. }
      intros r r' Hin Hin' Ha Ha' Hrr.
      destruct (Hact _ Hin Ha) as [[-> H1]|[H1 H1']], (Hact _ Hin' Ha') as [[-> H2]|[H2 H2']];
        try congruence. by apply (di_one_active _ HI).
    + by rewrite map_update_where.
    + intros r (r0 & Hr0 & ->)%elem_of_update_where. destruct (_ =? _); simpl; auto.
  - cbn [fst]. apply update_rules_inactive_inv; try done.
    intros r _. unfold rule_check. cbn [ru_hitl_status set_rule_flags].
    clear -E. unfold evaluate_rule_hitl_gate in E.
    destruct (reviews_of d (ru_id rule)); [done|].
    destruct (first_disqualified _); [by injection E as <- <-|].
    repeat (destruct (List.filter _ _); [|by injection E as <- <-]). done.
Qed.

Lemma NoDup_map_same {A B} (f : A → B) l x y :
  NoDup (map f l) → x ∈ l → y ∈ l → f x = f y → x = y.
Proof.
  induction l as [|a l IH]; intros Hnd Hx Hy Hf; [by apply not_elem_of_nil in Hx|].
  simpl in Hnd. apply NoDup_cons in Hnd as [Ha Hnd].
  apply elem_of_cons in Hx as [->|Hx], Hy as [->|Hy]; [done| | |by apply IH].
  - destruct Ha. rewrite Hf. by apply (list_elem_of_fmap_2 f).
  - destruct Ha. rewrite -Hf. by apply (list_elem_of_fmap_2 f).
Qed.

Lemma rule_of_Some d id r : rule_of d id = Some r → r ∈ d_rules d ∧ ru_id r = id.
Proof. intros [? ?%Z.eqb_eq]%find_row_Some. done. Qed.

Lemma approve_transaction_inv d id by_ notes now x :
  db_inv d → approve_transaction d id by_ notes now = Ok x → db_inv x.1.1.1.
Proof.
  intros HI H. unfold approve_transaction in H.
  apply res_bind_Ok in H as (review & (Hin & _ & _)%pending_review_Ok & H).
  destruct (rv_compiled_rule_id review) as [rid|] eqn:Er.
  - destruct (rule_of d rid) as [rule|] eqn:Eq; [|done].
    apply rule_of_Some in Eq as [Hrule <-].
    set (approve := λ r, set_approved (set_resolution r APPROVED_STATUS by_ notes now)
                           (Some (ru_rule_version rule)) (approved_digest rule)) in H.
    set (d2 := update_rule (update_review d (rv_id review) approve) (ru_id rule)
                 (λ r, set_rule_digest r (approved_digest rule))) in H.
    destruct (apply_gate d2 rule) as [d3 act] eqn:Eg. injection H as <-. cbn [fst].
    apply approve_circular_inv. replace d3 with (apply_gate d2 rule).1 by by rewrite Eg.
    apply apply_gate_inv.
    + apply update_rules_quiet_inv; try done. apply update_review_inv; try done.
      intros v. by apply set_resolution_check.
    + unfold d2. simpl. intros r (r0 & Hr0 & ->)%elem_of_update_where.
      destruct (_ =? _); simpl; intros E;
        by rewrite (NoDup_map_same _ _ _ _ (di_rule_ids _ HI) Hr0 Hrule E).
  - injection H as <-. cbn [fst]. apply approve_circular_inv, update_review_inv; try done.
    intros v. by apply set_resolution_check.
Qed.

Lemma block_rule_inv d rule keep : db_inv d → db_inv (block_rule d rule keep).
Proof. intros HI. destruct rule; [|done]. by apply update_rules_inactive_inv. Qed.

(** After [block_rule] no row of the rule is active. *)
Lemma block_rule_inactive d rid keep r :
  r ∈ d_rules (block_rule d (Some rid) keep) → ru_id r = rid → ru_is_active r = false.
Proof.
  intros (r0 & _ & ->)%elem_of_update_where. destruct (Z.eqb_spec (ru_id r0) rid); done.
Qed.

Lemma reject_review_inv d id by_ notes now x :
  db_inv d → reject_review d id by_ notes now = Ok x → db_inv x.1.
Proof.
  intros HI H. unfold reject_review in H.
  apply res_bind_Ok in H as (review & (Hin & _ & _)%pending_review_Ok & H).
  set (d2 := update_review _ _ _) in H.
  assert (HI2 : db_inv d2).
  { apply update_review_inv; try done; [by apply block_rule_inv|intros v; by apply set_resolution_check|].
    intros r v Hr Ha Hv E Hrv. exfalso.
    assert (v = review) as ->.
    { apply (NoDup_map_same rv_id (d_reviews d)); [apply (di_review_ids _ HI)| |done..].
      by destruct (rv_compiled_rule_id review). }
    simpl in Hrv. rewrite Hrv in Hr. rewrite (block_rule_inactive _ _ _ _ Hr) in Ha; done. }
  injection H as <-. cbn [fst].
  destruct (review_circular d2 review) as [[cl ci]|] eqn:E; [|done].
  apply review_circular_Some in E. destruct (String.eqb _ _); [done|].
  by apply move_circular_inv.
Qed.

Lemma request_revision_inv d id by_ notes now x :
  db_inv d → request_revision d id by_ notes now = Ok x → db_inv x.1.
Proof.
  intros HI H. unfold request_revision in H.
  apply res_bind_Ok in H as (review & (Hin & _ & _)%pending_review_Ok & H).
  set (d2 := update_review _ _ _) in H.
  assert (HI2 : db_inv d2).
  { apply update_review_inv; try done; [by apply block_rule_inv|].
    intros v Hv. by apply (set_resolution_check _ "REVISION_REQUIRED" by_ notes now) in Hv. }
  destruct (review_circular d2 review) as [[cl ci]|] eqn:E; [|by injection H as <-].
  destruct (one_of ["AWAITING_HITL"; "APPROVED"] _); [done|by injection H as <-].
Qed.

(** ** Activation *)
Lemma find_update_where {A} (q p : A → bool) f t :
  (∀ y, q (f y) = q y) →
  find_row q (update_where p f t) = (λ y, if p y then f y else y) <$> find_row q t.
Proof.
  intros Hq. induction t as [|y t IH]; simpl; [done|].
  destruct (p y) eqn:E; rewrite ?Hq; destruct (q y); simpl; rewrite ?E; done.
Qed.

Lemma approve_circular_tables d review by_ now :
  d_rules (approve_circular d review by_ now) = d_rules d
  ∧ d_reviews (approve_circular d review by_ now) = d_reviews d.
Proof.
  unfold approve_circular. destruct (review_circular _ _) as [[cl ci]|]; [|done].
  destruct (negb _); [done|]. destruct (clause_ids_of _ _); [done|].
  destruct (List.filter _ _); [|done]. by destruct (List.filter _ _).
Qed.

(** The row of the rule after its gate was evaluated. *)
Lemma apply_gate_rule d rule r act d' :
  rule_of d (ru_id rule) = Some r → apply_gate d rule = (d', act) →
  ∃ st, rule_of d' (ru_id rule) = Some (set_rule_flags r (ru_is_compiled r) act st)
        ∧ d_reviews d' = d_reviews d
        ∧ (evaluate_rule_hitl_gate (reviews_of d (ru_id rule))).1.1 = act.
Proof.
  intros Hr. pose proof (rule_of_Some _ _ _ Hr) as [_ Hid]. unfold rule_of in *. unfold apply_gate.
  destruct (evaluate_rule_hitl_gate _) as [[[] tgt] msg]; intros [= <- <-]; simpl.
  - exists "RESOLVED". split_and!; try done.
    rewrite !find_update_where; try done. rewrite Hr. simpl. by rewrite Hid Z.eqb_refl andb_false_r Hid Z.eqb_refl.
  - exists tgt. split_and!; try done. rewrite find_update_where; [|done]. rewrite Hr. simpl.
    by rewrite Hid Z.eqb_refl.
Qed.

(** A rule is activated only by the approval that leaves none of its reviews
    open: after an approval that reports an activation, the rule is active,
    every review of the rule is approved and no other version of the rule is
    active; after one that reports none, the rule is inactive.  Either way the
    review records the version and the digest of the rule as stored. *)
Theorem approve_activates_reviewed d id by_ notes now d' review activated rule rid :
  db_inv d → approve_transaction d id by_ notes now = Ok (d', review, activated, rule) →
  rv_compiled_rule_id review = Some rid →
  rv_status review = "RESOLVED"
  ∧ (∃ r, rule = Some r ∧ ru_id r = rid ∧ r ∈ d_rules d' ∧ ru_is_active r = activated
     ∧ rv_approved_rule_version review = Some (ru_rule_version r)
     ∧ rv_approved_policy_sha256 review = ru_policy_sha256 r)
  ∧ (activated = true ↔ ∀ v, v ∈ reviews_of d' rid → is_approved v = true)
  ∧ (activated = true → ∀ r r', rule = Some r → r' ∈ d_rules d' →
       ru_rule_id r' = ru_rule_id r → ru_is_active r' = true → ru_id r' = rid).
Proof.
  intros HI H Hrid. pose proof (approve_transaction_inv _ _ _ _ _ _ HI H) as HI'. simpl in HI'.
  unfold approve_transaction in H. apply res_bind_Ok in H as (rv & _ & H).
  destruct (rv_compiled_rule_id rv) as [rid'|] eqn:Er.
  2:{ injection H as <- <- <- <-. simpl in Hrid. congruence. }
  destruct (rule_of d rid') as [rl|] eqn:Eq; [|done].
  set (d2 := update_rule _ _ _) in H. destruct (apply_gate d2 rl) as [d3 act] eqn:Eg.
  injection H as <- <- <- Hrule. assert (rid' = rid) as -> by (simpl in Hrid; congruence).
  pose proof (rule_of_Some _ _ _ Eq) as [Hin <-].
  assert (E2 : rule_of d2 (ru_id rl) = Some (set_rule_digest rl (approved_digest rl))).
  { unfold rule_of in *. unfold d2, update_rule. simpl. rewrite find_update_where; [|done].
    rewrite Eq. simpl. by rewrite Z.eqb_refl. }
  destruct (apply_gate_rule _ _ _ _ _ E2 Eg) as (st & E3 & Erv & Egate).
  destruct (approve_circular_tables d3 (set_approved (set_resolution rv APPROVED_STATUS by_ notes now)
    (Some (ru_rule_version rl)) (approved_digest rl)) by_ now) as [HTr HTv].
  unfold rule_of in Hrule, E3. rewrite HTr E3 in Hrule. subst rule.
  assert (Hgate : act = true ↔ ∀ v, v ∈ reviews_of d2 (ru_id rl) → is_approved v = true)
    by by rewrite -gate_all_approved Egate.
  pose proof (proj1 (find_row_Some _ _ _ E3)) as Hin3.
  split_and!; [done| |by unfold reviews_of in *; rewrite HTv Erv|].
  - eexists. split; [reflexivity|]. rewrite HTr. split_and!; done.
  - rewrite -HTr in Hin3. intros -> r r' [= <-] Hr' Hsame Ha.
    exact (di_one_active _ HI' _ _ Hr' Hin3 Ha eq_refl Hsame).
Qed.

(** Sending a rule back for revision fails: [ClauseProcessingState] is not
    a name of the module, so for every review whose circular awaits review or
    is approved the request raises [NameError] and nothing is committed. *)
Theorem request_revision_raises d id by_ notes now review clause circular :
  pending_review d id = Ok review → review_circular d review = Some (clause, circular) →
  ci_processing_state circular = "AWAITING_HITL" ∨ ci_processing_state circular = "APPROVED" →
  request_revision d id by_ notes now = Raise (UndefinedName "ClauseProcessingState").
Proof.
  intros Hp Hc Hst. unfold request_revision. rewrite Hp. simpl.
  assert (review_circular (update_review (block_rule d (rv_compiled_rule_id review) false) (rv_id review)
    (λ r, set_review_rule (set_resolution r "REVISION_REQUIRED" by_ notes now) None)) review
    = Some (clause, circular)) as -> by by destruct (rv_compiled_rule_id review).
  by destruct Hst as [-> | ->].
Qed.
