(* ===== verification/Orchestrator.v ===== *)
(** * The document pipeline: [src/app/services/orchestrator.py] and
    [src/app/services/stale_state_reaper.py]

    From a parsed document to circulars, clauses, compiled rules and reviews.
    Every change happens in the working transaction; an operation that raises
    discards it, since each caller rolls back, so an operation is a function to
    [res exn database].  The commits of [_execute_processing_stages] are the
    checkpoints [begin_extraction], [record_extraction], [begin_compilation]
    and [finish_compilation].  Reading a PDF, the extraction of a clause by the
    language model, NFKC normalisation, uuids and the text of the database's
    own errors are parameters. *)
From S2P Require Import Prelude PyStr Sha256 Json Datetime Schemas Compiler.
From S2P Require Import PyText Taxonomy DocModels Policies DbModels HitlService.

Open Scope string_scope.
Open Scope Z_scope.

(** ** Siblings and exceptions *)

(** What one clause is shown of the others. *)
Record sibling := Sibling
  { sb_chunk_id : string; sb_clause_number : option string; sb_section_path : list string;
    sb_text : string }.

(** An exception: its class and its [str]. *)
Record exn := Exn { exn_type : string; exn_str : string }.

Definition exn_of_compile (e : compile_error) : exn :=
  match e with
  | UndefinedFactError m => Exn "UndefinedFactError" m
  | ValueError m => Exn "ValueError" m
  | AssertionError => Exn "AssertionError" ""
  | MalformedASTError m => Exn "MalformedASTError" m
  end.

(** [result.scalar_one_or_none()] *)
Definition scalar_one_or_none {A} (rows : list A) : res exn (option A) :=
  match rows with
  | [] => Ok None
  | [x] => Ok (Some x)
  | _ => Raise (Exn "MultipleResultsFound" "Multiple rows were found when one or none was required")
  end.

(** ** The lifecycle *)
Definition DEFAULT_TENANT_ID : string := "sebi_baseline".

Definition _ALLOWED_TRANSITIONS (from : option string) : list string :=
  match from with
  | None => ["INGESTED"; "FAILED"]
  | Some "INGESTED" => ["EXTRACTING"; "FAILED"]
  | Some "EXTRACTING" => ["EXTRACTED"; "FAILED"]
  | Some "EXTRACTED" => ["COMPILING"; "FAILED"]
  | Some "COMPILING" => ["AWAITING_HITL"; "APPROVED"; "FAILED"]
  | Some "AWAITING_HITL" => ["APPROVED"; "FAILED"; "EXTRACTING"]
  | Some "APPROVED" => ["DEPLOYED"; "AWAITING_HITL"]
  | Some "DEPLOYED" => ["AWAITING_HITL"]
  | Some "FAILED" => ["INGESTED"; "EXTRACTING"; "COMPILING"]
  | Some _ => []
  end.

(** A transition that logs no warning. *)
Definition standard_transition (current target : string) : bool :=
  String.eqb target current || one_of (_ALLOWED_TRANSITIONS (Some current)) target.

(** A transition outside the table is logged and carried out. *)
Definition transition_circular_state (d : database) (circular_id : Z) (target triggered_by : string)
    (error_message : option string) (details : option json) (now : datetime) : database :=
  match circular_of d circular_id with
  | None => d
  | Some c =>
      let err :=
        match error_message with
        | Some _ => error_message
        | None => if String.eqb target "FAILED" then ci_error_message c else None
        end in
      move_circular d c target triggered_by err error_message details now
  end.

(** ** Ingestion *)

(** [PurePosixPath(s).name] *)
Definition path_name (s : string) : string :=
  List.last (List.filter (λ p, negb (one_of [""; "."] p)) (split_on "/" s)) "".

Definition is_external_url (s : string) : bool :=
  startswith "http://" s || startswith "https://" s || startswith "ftp://" s.

Definition set_provenance (c : Circular) (sha file url : option string) (at_ : option datetime)
    (now : datetime) : Circular :=
  let keep {A} (old new : option A) := match old with Some _ => old | None => new end in
  let new_file := if truthy file then file else None in
  let updated :=
    (bool_decide (ci_source_document_sha256 c = None) && truthy sha)
    || (bool_decide (ci_source_filename c = None) && truthy file)
    || (bool_decide (ci_source_url c = None) && truthy url)
    || (bool_decide (ci_source_retrieved_at c = None) && bool_decide (is_Some at_)) in
  CircularRow (ci_id c) (ci_tenant_id c) (ci_is_shared c) (ci_circular_number c) (ci_title c)
    (ci_issue_date c) (keep (ci_source_url c) url) (keep (ci_source_filename c) new_file)
    (keep (ci_source_retrieved_at c) at_) (ci_department c)
    (keep (ci_source_document_sha256 c) sha) (ci_raw_text_digest c)
    (ci_processing_state c) (ci_error_message c) (if updated then now else ci_updated_at c).

Section orchestrator.
Context (nfkc utf8_ignore : string → string) (uuid : Z → string) (integrity_error : string → string).
Context (extract_and_audit_clause : ClauseChunk → list sibling → res exn AuditedComplianceRule).

Definition IntegrityError (constraint : string) : exn := Exn "IntegrityError" (integrity_error constraint).

(** Inserting a row draws its identity and checks the constraints. *)
Definition insert_circular (d : database) (row : Z → Circular) : res exn (database * Z) :=
  let c := row (d_next d) in
  if existsb (λ x, String.eqb (ci_circular_number x) (ci_circular_number c)) (d_circulars d) then
    Raise (IntegrityError "uq_circulars_circular_number")
  else if existsb (λ x, String.eqb (ci_raw_text_digest x) (ci_raw_text_digest c)) (d_circulars d) then
    Raise (IntegrityError "uq_circulars_raw_text_digest")
  else if negb (circular_check c) then Raise (IntegrityError "ck_circulars")
  else Ok (bump (set_circulars d (d_circulars d ++ [c])%list), d_next d).

Definition insert_clause (d : database) (row : Z → Clause) : res exn (database * Z) :=
  let c := row (d_next d) in
  if existsb (λ x, (cl_circular_id x =? cl_circular_id c) && String.eqb (cl_sha256 x) (cl_sha256 c))
       (d_clauses d) then
    Raise (IntegrityError "uq_clauses_circular_id_sha256")
  else Ok (bump (set_clauses d (d_clauses d ++ [c])%list), d_next d).

Definition same_version (r r' : CompiledRule) : bool :=
  String.eqb (ru_rule_id r) (ru_rule_id r') && String.eqb (ru_tenant_id r) (ru_tenant_id r')
  && (ru_rule_version r =? ru_rule_version r').

Definition insert_rule (d : database) (row : Z → CompiledRule) : res exn (database * Z) :=
  let r := row (d_next d) in
  if existsb (λ x, same_version x r) (d_rules d) then
    Raise (IntegrityError "uq_compiled_rules_rule_id_rule_version")
  else Ok (bump (set_rules d (d_rules d ++ [r])%list), d_next d).

Definition insert_review (d : database) (row : Z → HITLReview) : res exn (database * HITLReview) :=
  let r := row (d_next d) in
  if existsb (λ x, String.eqb (rv_review_id x) (rv_review_id r)) (d_reviews d) then
    Raise (IntegrityError "uq_hitl_reviews_review_id")
  else if negb (review_check r) then Raise (IntegrityError "ck_hitl_reviews")
  else Ok (bump (set_reviews d (d_reviews d ++ [r])%list), r).

Definition ensure_baseline_tenant (d : database) (tenant_id : string) : database :=
  if one_of (d_tenants d) tenant_id then d
  else Db (d_tenants d ++ [tenant_id])%list (d_circulars d) (d_clauses d) (d_rules d) (d_reviews d)
         (d_transitions d) (d_next d).

Definition persist_circular (d : database) (parsed : ParseResult) (file_bytes : string)
    (filename : option string) (tenant_id : string) (source_url : option string)
    (source_retrieved_at : option datetime) (today : Z) (now : datetime) : res exn (database * Z) :=
  let d := ensure_baseline_tenant d tenant_id in
  let meta := pr_metadata parsed in
  let source_document_sha256 := str_or (pr_source_document_sha256 parsed) (sha256_of_bytes file_bytes) in
  let combined_text :=
    match pr_chunks parsed with
    | [] => utf8_ignore file_bytes
    | chunks => join (String newline (String newline "")) (map ck_text chunks)
    end in
  let raw_text_digest :=
    str_or (pr_extracted_text_sha256 parsed) (sha256_of_extracted_text nfkc combined_text) in
  let circular_number :=
    str_or (me_circular_number meta)
      ("SEBI/CIR/" +:+ upper (String.substring 0 10 raw_text_digest)) in
  let valid_source_url :=
    match opt_or source_url (me_source_url meta) with
    | Some u => if is_external_url u then Some u else None
    | None => None
    end in
  let clean_filename :=
    match opt_or filename (me_source_filename meta) with
    | Some f => if String.eqb f "" then None else Some (path_name f)
    | None => None
    end in
  let retrieved_at :=
    match source_retrieved_at with Some _ => source_retrieved_at | None => me_source_retrieved_at meta end in
  let matches c :=
    String.eqb (ci_circular_number c) circular_number
    || String.eqb (ci_raw_text_digest c) raw_text_digest
    || match ci_source_document_sha256 c with
       | Some s => String.eqb s source_document_sha256
       | None => false
       end in
  res_bind (scalar_one_or_none (List.filter matches (d_circulars d))) (λ existing,
    match existing with
    | Some c =>
        let c' := set_provenance c (Some source_document_sha256) clean_filename valid_source_url
                    retrieved_at now in
        if negb (circular_check c') then Raise (IntegrityError "ck_circulars")
        else Ok (update_circular d (ci_id c) (λ _, c'), ci_id c)
    | None =>
        insert_circular d (λ id,
          CircularRow id tenant_id true circular_number
            (Some (str_or (opt_or (me_title meta) clean_filename) "SEBI Circular"))
            (Some (default today (me_issue_date meta)))
            valid_source_url clean_filename retrieved_at
            (Some (str_or (me_department meta) "MRD"))
            (Some source_document_sha256) raw_text_digest "INGESTED" None now)
    end).

Definition chunk_sha256 (chunk : ClauseChunk) : string :=
  if negb (String.eqb (ck_sha256 chunk) "") && digest_len (ck_sha256 chunk)
  then ck_sha256 chunk else sha256_hex (ck_text chunk).

Definition persist_clause (d : database) (circular_id : Z) (tenant_id : string) (chunk : ClauseChunk)
  : res exn (database * Z) :=
  let sha256 := chunk_sha256 chunk in
  res_bind (scalar_one_or_none
              (List.filter (λ c, (cl_circular_id c =? circular_id) && String.eqb (cl_sha256 c) sha256)
                 (d_clauses d))) (λ existing,
    match existing with
    | Some c => Ok (d, cl_id c)
    | None =>
        insert_clause d (λ id,
          ClauseRow id circular_id tenant_id (ck_clause_number chunk) (ck_section_title chunk)
            (ck_section_path chunk) "clause" (ck_text chunk) sha256 (ck_page_start chunk)
            (ck_page_end chunk) (ck_contains_table chunk) "PENDING" None)
    end).

(** The clauses of the chunks, in order. *)
Fixpoint persist_clauses (d : database) (circular_id : Z) (tenant_id : string)
    (chunks : list ClauseChunk) : res exn (database * list Z) :=
  match chunks with
  | [] => Ok (d, [])
  | chunk :: chunks' =>
      res_bind (persist_clause d circular_id tenant_id chunk) (λ '(d1, id),
        res_bind (persist_clauses d1 circular_id tenant_id chunks') (λ '(d2, ids),
          Ok (d2, id :: ids)))
  end.

(** ** Extraction *)
Definition sibling_of (c : ClauseChunk) : sibling :=
  Sibling (ck_chunk_id c) (ck_clause_number c) (ck_section_path c) (ck_text c).

(** One task per chunk; the results are put back in the order of the chunks. *)
Definition extract_and_audit_circular (chunks : list ClauseChunk) (sibling_chunks : list sibling)
  : list (ClauseChunk * res exn AuditedComplianceRule) :=
  let siblings := match sibling_chunks with [] => map sibling_of chunks | l => l end in
  let results := map (λ '(i, c), (i, (c, extract_and_audit_clause c siblings))) (enumerate 0 chunks) in
  map snd (merge_sort (key_le fst) results).

(** ** Rules and reviews *)
Definition FAILED_PREFIX : string := "RULE-FAILED-".
Definition is_placeholder (r : CompiledRule) : bool := startswith FAILED_PREFIX (ru_rule_id r).

Definition excerpt (text : string) : option string :=
  if String.eqb text "" then None else Some (utake 200 text).

(** A new pending review of a rule. *)
Definition new_review (clause : Clause) (rule_pk : Z) (tenant_id reason severity description : string)
    (source_excerpt field_path : option string) (id : Z) : HITLReview :=
  ReviewRow id (uuid id) (cl_id clause) (Some rule_pk) tenant_id reason severity description
    source_excerpt field_path "PENDING" None None None None None.

Definition rule_for (d : database) (rule_id : string) (clause_id : Z) : res exn (option CompiledRule) :=
  scalar_one_or_none
    (List.filter (λ r, String.eqb (ru_rule_id r) rule_id && (ru_clause_id r =? clause_id)) (d_rules d)).

Definition _persist_failed_clause_rule (d : database) (clause : Clause) (chunk : ClauseChunk)
    (error : exn) (tenant_id : string) : res exn (database * Z) :=
  let rule_id :=
    FAILED_PREFIX
    +:+ str_or (opt_or (cl_clause_number clause) (Some (ck_chunk_id chunk))) (str_of_Z (cl_id clause)) in
  res_bind (rule_for d rule_id (cl_id clause)) (λ existing_rule,
  res_bind
    (match existing_rule with
     | Some r => Ok (update_rule d (ru_id r) (λ r, set_rule_flags r false false "BLOCKING"), ru_id r)
     | None =>
         insert_rule d (λ id,
           RuleRow id (cl_id clause) tenant_id rule_id 1 None None None false false "BLOCKING"
             (Some "1.0.0") None None)
     end) (λ '(d1, rule_pk),
  let description :=
    "Automated clause extraction failed: " +:+ exn_type error +:+ ": " +:+ exn_str error
    +:+ ". Manual compliance review required." in
  res_bind
    (scalar_one_or_none
       (List.filter (λ r, (rv_clause_id r =? cl_id clause) && refers_to rule_pk r
                          && String.eqb (rv_reason_code r) "audit_not_approved") (d_reviews d1)))
    (λ existing_review,
  match existing_review with
  | Some r => Ok (update_review d1 (rv_id r) (λ r, set_description r description), rule_pk)
  | None =>
      res_bind
        (insert_review d1 (new_review clause rule_pk tenant_id "audit_not_approved" "blocking"
                             description (excerpt (cl_text clause)) (Some "deterministic_logic")))
        (λ '(d2, _), Ok (d2, rule_pk))
  end))).

Definition refers_in (ids : list Z) (v : HITLReview) : bool :=
  match rv_compiled_rule_id v with Some i => id_in ids i | None => false end.

(** Deleting the placeholder rules of a clause detaches their reviews. *)
Definition delete_placeholders (d : database) (clause_id : Z) : database :=
  let failed r := (ru_clause_id r =? clause_id) && is_placeholder r in
  let gone := map ru_id (List.filter failed (d_rules d)) in
  set_rules
    (set_reviews d
       (update_where (refers_in gone) (λ v, set_review_rule v None) (d_reviews d)))
    (List.filter (λ r, negb (failed r)) (d_rules d)).

Definition flag_severity (f : HITLFlag) : string :=
  match hf_severity f with BLOCKING => "blocking" | ADVISORY => "advisory" end.

(** One review per reason code not seen yet; [acc] is [reviews]. *)
Fixpoint add_flag_reviews (d : database) (clause : Clause) (rule_pk : Z) (tenant_id : string)
    (codes : list string) (acc : list HITLReview) (flags : list HITLFlag)
  : res exn (database * list HITLReview) :=
  match flags with
  | [] => Ok (d, acc)
  | flag :: flags' =>
      let code := reason_value (reason_code flag) in
      if one_of codes code then add_flag_reviews d clause rule_pk tenant_id codes acc flags'
      else
        res_bind
          (insert_review d (new_review clause rule_pk tenant_id code (flag_severity flag)
                              (hf_description flag) (source_excerpt flag) (field_path flag)))
          (λ '(d1, rev),
             add_flag_reviews d1 clause rule_pk tenant_id (codes ++ [code])%list (acc ++ [rev])%list flags')
  end.

Definition unresolved_with (sev : string) (r : HITLReview) : bool :=
  String.eqb (lower (rv_severity r)) sev && negb (String.eqb (upper (rv_status r)) "RESOLVED").

Definition final_hitl_status (flags : list HITLFlag) (reviews : list HITLReview) : string :=
  if has_blocking_flags flags || existsb (unresolved_with "blocking") reviews then "BLOCKING"
  else if match flags with [] => false | _ => true end || existsb (unresolved_with "advisory") reviews
  then "ADVISORY"
  else if existsb (λ r, String.eqb (rv_status r) "RESOLVED") reviews then "RESOLVED" else "NONE".

Definition compiled_status (flags : list HITLFlag) : string :=
  if has_blocking_flags flags then "BLOCKING"
  else match flags with [] => "NONE" | _ => "ADVISORY" end.

(** Storing the output of the compiler as the rule of the clause. *)
Definition store_rule (d : database) (clause : Clause) (rule_id tenant_id : string)
    (c : CompilationResult) : res exn (database * Z) :=
  let code := rego_code <$> rego c in
  let sha := match code with
             | Some s => if String.eqb s "" then None else Some (sha256_hex s)
             | None => None
             end in
  let pkg := package <$> rego c in
  let ast := logic <$> json_logic c in
  let status := compiled_status (hitl_flags c) in
  res_bind (rule_for d rule_id (cl_id clause)) (λ existing_rule,
    match existing_rule with
    | Some r =>
        Ok (update_rule d (ru_id r) (λ r, set_rule_artifacts r code pkg ast (compiled c) status sha), ru_id r)
    | None =>
        insert_rule d (λ id,
          RuleRow id (cl_id clause) tenant_id rule_id 1 code pkg ast (compiled c) false status
            (Some "1.0.0") sha None)
    end).

(** The reviews the rule needs, and the status that follows from them. *)
Definition store_reviews (d : database) (clause : Clause) (rule_pk : Z) (rule_id tenant_id : string)
    (flags : list HITLFlag) : res exn (database * list HITLReview) :=
  let existing := reviews_of d rule_pk in
  match flags, existing with
  | _ :: _, _ =>
      add_flag_reviews d clause rule_pk tenant_id (map rv_reason_code existing) existing flags
  | [], [] =>
      res_bind
        (insert_review d
           (new_review clause rule_pk tenant_id "low_extraction_confidence" "blocking"
              ("Initial compliance sign-off required for compiled rule " +:+ rule_id)
              (excerpt (cl_text clause)) (Some "deterministic_logic")))
        (λ '(d1, rev), Ok (d1, [rev]))
  | [], _ => Ok (d, existing)
  end.

Definition compile_and_persist_rules (d : database) (clause : Clause) (audited : AuditedComplianceRule)
    (tenant_id : string) (now : datetime) : res exn (database * Z * list HITLReview) :=
  let d := delete_placeholders d (cl_id clause) in
  match compile_audited_rule audited 1 now with
  | Raise e => Raise (exn_of_compile e)
  | Ok c =>
      let rid := rule_id (au_rule audited) in
      res_bind (store_rule d clause rid tenant_id c) (λ '(d1, rule_pk),
      res_bind (store_reviews d1 clause rule_pk rid tenant_id (hitl_flags c)) (λ '(d2, reviews),
      Ok (update_rule d2 rule_pk
            (λ r, set_rule_flags r (ru_is_compiled r) (ru_is_active r)
                    (final_hitl_status (hitl_flags c) reviews)), rule_pk, reviews)))
  end.

(** ** The stages *)
Definition rules_in (d : database) (clause_ids : list Z) : list CompiledRule :=
  List.filter (λ r, id_in clause_ids (ru_clause_id r)) (d_rules d).
Definition reviews_in (d : database) (clause_ids : list Z) : list HITLReview :=
  List.filter (λ r, id_in clause_ids (rv_clause_id r)) (d_reviews d).

Definition compiled_for_real (r : CompiledRule) : bool := ru_is_compiled r && negb (is_placeholder r).

(** The clauses whose rule is already compiled. *)
Definition completed_clause_ids (d : database) (clauses : list Z) : list Z :=
  List.filter (λ id, existsb (λ r, (ru_clause_id r =? id) && compiled_for_real r) (d_rules d)) clauses.

(** The chunks left to extract, each with its clause. *)
Definition to_extract (completed clauses : list Z) (chunks : list ClauseChunk)
  : list (ClauseChunk * option Z) :=
  List.filter (λ '(_, o), match o with Some id => negb (id_in completed id) | None => true end)
    (map (λ '(i, chunk), (chunk, clauses !! Z.to_nat i)) (enumerate 0 chunks)).

Definition set_clauses_status (d : database) (ids : list Z) (st : string) : database :=
  set_clauses d (update_where (λ c, id_in ids (cl_id c))
                   (λ c, set_clause_status c st (cl_error_message c)) (d_clauses d)).

Definition count_json (n : nat) : json := JInt (Z.of_nat n).

Definition begin_extraction (d : database) (circular_id : Z) (clauses completed : list Z)
    (todo : list (ClauseChunk * option Z)) (now : datetime) : database :=
  let d1 := set_clauses_status d completed "COMPILED" in
  let d2 := set_clauses_status d1 (omap snd todo) "EXTRACTING" in
  transition_circular_state d2 circular_id "EXTRACTING" "orchestrator" None
    (Some (JObj [("total_clauses", count_json (length clauses));
                 ("extracting_clauses", count_json (length todo));
                 ("already_compiled", count_json (length (nodup Z.eq_dec completed)))])) now.

(** The first clause with the chunk's number or digest. *)
Definition clause_matching (d : database) (ids : list Z) (chunk : ClauseChunk) : option Clause :=
  find (λ c, bool_decide (cl_clause_number c = ck_clause_number chunk)
             || String.eqb (cl_sha256 c) (ck_sha256 chunk))
    (omap (clause_of d) ids).

Definition record_result (ids : list Z) (d : database) (res : ClauseChunk * res exn AuditedComplianceRule)
  : database :=
  match clause_matching d ids res.1 with
  | None => d
  | Some c =>
      update_clause d (cl_id c) (λ c,
        match res.2 with
        | Raise e => set_clause_status c "FAILED" (Some (exn_str e))
        | Ok _ => set_clause_status c "EXTRACTED" None
        end)
  end.

Definition record_extraction (d : database) (circular_id : Z) (todo_ids : list Z)
    (results : list (ClauseChunk * res exn AuditedComplianceRule)) (now : datetime) : database :=
  transition_circular_state (foldl (record_result todo_ids) d results) circular_id "EXTRACTED"
    "orchestrator" None (Some (JObj [("extracted_count", count_json (length results))])) now.

Definition begin_compilation (d : database) (circular_id : Z) (now : datetime) : database :=
  transition_circular_state d circular_id "COMPILING" "orchestrator" None None now.

(** [dict.get] after [{key: value for ...}]: the last binding. *)
Definition last_with {A} (p : A → bool) (l : list A) : option A := find p (rev l).

(** The extraction result of a clause: by digest, else by number. *)
Definition result_for (results : list (ClauseChunk * res exn AuditedComplianceRule)) (clause : Clause)
  : res exn AuditedComplianceRule :=
  match last_with (λ r, String.eqb (ck_sha256 r.1) (cl_sha256 clause)) results with
  | Some r => r.2
  | None =>
      match last_with (λ r, truthy (ck_clause_number r.1)
                            && bool_decide (ck_clause_number r.1 = cl_clause_number clause)) results with
      | Some r => r.2
      | None => Raise (Exn "RuntimeError" "Missing extraction result")
      end
  end.

Definition chunk_for (chunks : list ClauseChunk) (clause : Clause) : ClauseChunk :=
  match find (λ c, String.eqb (ck_sha256 c) (cl_sha256 clause)
                   || bool_decide (ck_clause_number c = cl_clause_number clause)) chunks with
  | Some c => c
  | None => bare_chunk ("chk-" +:+ str_of_Z (cl_id clause)) (cl_sha256 clause) (cl_text clause)
              (cl_clause_number clause) [] None None None false
  end.

Definition compile_clause (d : database) (chunks : list ClauseChunk)
    (results : list (ClauseChunk * res exn AuditedComplianceRule)) (clause : Clause)
    (tenant_id : string) (now : datetime) : res exn database :=
  let d := update_clause d (cl_id clause) (λ c, set_clause_status c "COMPILING" (cl_error_message c)) in
  match result_for results clause with
  | Raise e =>
      res_bind (_persist_failed_clause_rule d clause (chunk_for chunks clause) e tenant_id) (λ '(d1, _),
        Ok (update_clause d1 (cl_id clause) (λ c, set_clause_status c "FAILED" (Some (exn_str e)))))
  | Ok audited =>
      res_bind (compile_and_persist_rules d clause audited tenant_id now) (λ '(d1, _, _),
        Ok (update_clause d1 (cl_id clause) (λ c, set_clause_status c "COMPILED" None)))
  end.

Fixpoint compile_clauses (d : database) (completed clauses : list Z) (chunks : list ClauseChunk)
    (results : list (ClauseChunk * res exn AuditedComplianceRule)) (tenant_id : string) (now : datetime)
  : res exn database :=
  match clauses with
  | [] => Ok d
  | id :: clauses' =>
      match clause_of d id with
      | Some clause =>
          if id_in completed id then compile_clauses d completed clauses' chunks results tenant_id now
          else
            res_bind (compile_clause d chunks results clause tenant_id now) (λ d1,
              compile_clauses d1 completed clauses' chunks results tenant_id now)
      | None => compile_clauses d completed clauses' chunks results tenant_id now
      end
  end.

Definition pending_or_blocking (r : HITLReview) : bool :=
  one_of ["PENDING"; "IN_REVIEW"] (rv_status r) || String.eqb (rv_severity r) "blocking".

Definition finish_compilation (d : database) (circular_id : Z) (clauses : list Z) (now : datetime)
  : database :=
  let open_ := List.filter pending_or_blocking (reviews_in d clauses) in
  let target_state := match open_ with [] => "APPROVED" | _ => "AWAITING_HITL" end in
  transition_circular_state d circular_id target_state "orchestrator" None
    (Some (JObj [("total_clauses", count_json (length clauses));
                 ("compiled_rules", count_json (length (List.filter ru_is_compiled (rules_in d clauses))));
                 ("pending_reviews", count_json (length open_))])) now.

Record ProcessE2EResult := ProcessResult
  { ps_circular_id : Z
  ; ps_circular_number : string
  ; ps_source_url : option string
  ; ps_source_filename : option string
  ; ps_source_retrieved_at : option datetime
  ; ps_source_document_sha256 : string
  ; ps_extracted_text_sha256 : string
  ; ps_document_hash : string
  ; ps_clause_count : Z
  ; ps_rules_compiled : Z
  ; ps_review_count : Z
  ; ps_status : string
  ; ps_processing_state : string
  ; ps_reviews : list string
  ; ps_compiled_rule_ids : list string }.

Definition _build_process_result (d : database) (circular : Circular) (clauses : list Z)
  : ProcessE2EResult :=
  let rules := rules_in d clauses in
  let reviews := reviews_in d clauses in
  let legacy_status :=
    if String.eqb (ci_processing_state circular) "DEPLOYED" then "deployed"
    else if String.eqb (ci_processing_state circular) "FAILED" then "failed"
    else match reviews with [] => "approved" | _ => "review_required" end in
  {| ps_circular_id := ci_id circular; ps_circular_number := ci_circular_number circular;
     ps_source_url := ci_source_url circular; ps_source_filename := ci_source_filename circular;
     ps_source_retrieved_at := ci_source_retrieved_at circular;
     ps_source_document_sha256 := str_or (ci_source_document_sha256 circular) "";
     ps_extracted_text_sha256 := ci_raw_text_digest circular;
     ps_document_hash := str_or (ci_source_document_sha256 circular) (ci_raw_text_digest circular);
     ps_clause_count := Z.of_nat (length clauses);
     ps_rules_compiled := Z.of_nat (length (List.filter compiled_for_real rules));
     ps_review_count := Z.of_nat (length reviews); ps_status := legacy_status;
     ps_processing_state := ci_processing_state circular;
     ps_reviews := map rv_review_id reviews; ps_compiled_rule_ids := map ru_rule_id rules |}.

(** What the [except] clause of the stages commits after the rollback. *)
Definition fail_circular (d : database) (circular_id : Z) (e : exn) (now : datetime) : database :=
  transition_circular_state d circular_id "FAILED" "orchestrator"
    (Some (utake 4000 (exn_str e))) None now.

(** The databases of the three checkpoints before compilation, with what the
    extraction returned. *)
Definition stage_checkpoints (d : database) (circular_id : Z) (clauses : list Z)
    (chunks : list ClauseChunk) (now : datetime)
  : database * database * database * list Z * list (ClauseChunk * res exn AuditedComplianceRule) :=
  let completed := completed_clause_ids d clauses in
  let todo := to_extract completed clauses chunks in
  let d1 := begin_extraction d circular_id clauses completed todo now in
  let results :=
    match map fst todo with
    | [] => []
    | cs => extract_and_audit_circular cs (map sibling_of chunks)
    end in
  let d2 := record_extraction d1 circular_id (omap snd todo) results now in
  (d1, d2, begin_compilation d2 circular_id now, completed, results).

(** The committed database, and the result or the exception that leaves the
    function. *)
Definition _execute_processing_stages (d : database) (circular_id : Z) (clauses : list Z)
    (chunks : list ClauseChunk) (tenant_id : string) (now : datetime)
  : database * res exn (option ProcessE2EResult) :=
  let '(_, _, d3, completed, results) := stage_checkpoints d circular_id clauses chunks now in
  match compile_clauses d3 completed clauses chunks results tenant_id now with
  | Raise e => (fail_circular d3 circular_id e now, Raise e)
  | Ok d4 =>
      let d5 := finish_compilation d4 circular_id clauses now in
      (d5, Ok ((λ c, _build_process_result d5 c clauses) <$> circular_of d5 circular_id))
  end.

(** [source_url] and [source_retrieved_at] override the parsed metadata. *)
Definition override_metadata (m : CircularMetadata) (source_url : option string)
    (retrieved : option datetime) : CircularMetadata :=
  Metadata (me_circular_number m) (me_issue_date m) (me_title m)
    (match source_url with
     | Some u => if is_external_url u then Some u else me_source_url m
     | None => me_source_url m
     end)
    (me_source_filename m)
    (match retrieved with Some _ => retrieved | None => me_source_retrieved_at m end)
    (me_department m) (me_regulator m) (me_document_type m) (me_source_document_sha256 m)
    (me_extracted_text_sha256 m).

(** What ingestion leaves to do: the committed database, the circular, its
    clauses and the chunks. *)
Record ingested := Ingested
  { in_db : database; in_circular : Z; in_clauses : list Z; in_chunks : list ClauseChunk }.

(** [process_circular_pdf] up to its first commit, or the result it ends with.
    An early return for a deployed circular is committed by the request. *)
Definition ingest (d : database) (parse_pdf : res exn ParseResult) (file_bytes : string)
    (filename : option string) (tenant_id : string) (source_url : option string)
    (source_retrieved_at : option datetime) (today : Z) (now : datetime)
  : (database * res exn (option ProcessE2EResult)) + ingested :=
  match parse_pdf with
  | Raise e => inl (d, Raise e)
  | Ok parsed =>
      let parsed := Parsed (override_metadata (pr_metadata parsed) source_url source_retrieved_at)
                      (pr_chunks parsed) (pr_element_count parsed) (pr_warnings parsed)
                      (pr_source_url parsed) (pr_source_filename parsed) (pr_source_retrieved_at parsed)
                      (pr_source_document_sha256 parsed) (pr_extracted_text_sha256 parsed) in
      match persist_circular d parsed file_bytes filename tenant_id source_url source_retrieved_at
              today now with
      | Raise e => inl (d, Raise e)
      | Ok (d1, circular_id) =>
          match persist_clauses d1 circular_id tenant_id (pr_chunks parsed) with
          | Raise e =>
              inl (match circular_of d circular_id with
                   | Some c => if String.eqb (ci_processing_state c) "FAILED" then d
                               else fail_circular d circular_id e now
                   | None => d
                   end, Raise e)
          | Ok (d2, clauses) =>
              match circular_of d2 circular_id with
              | None => inl (d2, Ok None)
              | Some c =>
                  if String.eqb (ci_processing_state c) "DEPLOYED" then
                    inl (d2, Ok (Some (_build_process_result d2 c clauses)))
                  else
                    let d3 :=
                      if one_of [""; "INGESTED"; "FAILED"] (ci_processing_state c) then
                        transition_circular_state d2 circular_id "INGESTED" "orchestrator" None
                          (Some (JObj [("clause_count", count_json (length clauses))])) now
                      else d2 in
                    inr (Ingested d3 circular_id clauses (pr_chunks parsed))
              end
          end
      end
  end.

Definition process_circular_pdf (d : database) (parse_pdf : res exn ParseResult) (file_bytes : string)
    (filename : option string) (tenant_id : string) (source_url : option string)
    (source_retrieved_at : option datetime) (today : Z) (now : datetime)
  : database * res exn (option ProcessE2EResult) :=
  match ingest d parse_pdf file_bytes filename tenant_id source_url source_retrieved_at today now with
  | inl x => x
  | inr i => _execute_processing_stages (in_db i) (in_circular i) (in_clauses i) (in_chunks i) tenant_id now
  end.

(** [f"{n:03d}"] *)
Definition pad3 (n : Z) : string := if (0 <=? n) && (n <? 1000) then dig 3 n else str_of_Z n.

Definition chunk_of_clause (c : Clause) : ClauseChunk :=
  bare_chunk ("chk-" +:+ pad3 (cl_id c)) (cl_sha256 c) (cl_text c) (cl_clause_number c) (cl_section_path c)
    (cl_section_title c) (cl_page_start c) (cl_page_end c) (cl_contains_table c).

Definition clauses_of (d : database) (circular_id : Z) : list Clause :=
  List.filter (λ c, cl_circular_id c =? circular_id) (d_clauses d).

Definition resume_circular (d : database) (circular_id : Z) (tenant_id : string) (now : datetime)
  : database * res exn (option ProcessE2EResult) :=
  match circular_of d circular_id with
  | None => (d, Raise (Exn "ValueError" ("Circular with id " +:+ str_of_Z circular_id +:+ " not found")))
  | Some _ =>
      match merge_sort (key_le cl_id) (clauses_of d circular_id) with
      | [] => (d, Raise (Exn "ValueError" ("Circular " +:+ str_of_Z circular_id
                                           +:+ " has no persisted clauses to resume")))
      | clauses =>
          _execute_processing_stages d circular_id (map cl_id clauses) (map chunk_of_clause clauses)
            tenant_id now
      end
  end.
End orchestrator.

(** ** Status *)
Record CircularStatusResult := StatusResult
  { st_circular_id : Z
  ; st_circular_number : string
  ; st_status : string
  ; st_processing_state : string
  ; st_source_url : option string
  ; st_source_filename : option string
  ; st_source_retrieved_at : option datetime
  ; st_source_document_sha256 : option string
  ; st_extracted_text_sha256 : string
  ; st_raw_text_digest : string
  ; st_clause_count : Z
  ; st_compiled_rule_count : Z
  ; st_hitl_review_count : Z
  ; st_pending_reviews : Z
  ; st_resolved_reviews : Z
  ; st_active_rules : Z
  ; st_error_message : option string
  ; st_reviews : list (string * string * string)
  ; st_rules : list (string * bool * string)
  ; st_state_transitions : list CircularStateTransition
  ; st_clause_status_counts : list (string * Z) }.

Definition count_where {A} (p : A → bool) (l : list A) : Z := Z.of_nat (length (List.filter p l)).

Definition legacy_status (state : string) (rejected : bool) (pending active resolved : Z) : string :=
  if String.eqb state "DEPLOYED" then "deployed"
  else if String.eqb state "APPROVED" then "approved"
  else if String.eqb state "FAILED" || rejected then "failed"
  else if String.eqb state "AWAITING_HITL" || (pending >? 0) then "review_required"
  else if active >? 0 then "deployed"
  else if resolved >? 0 then "approved"
  else "processing".

Definition is_pending (r : HITLReview) : bool := one_of ["PENDING"; "IN_REVIEW"] (rv_status r).
Definition has_status (st : string) (r : HITLReview) : bool := String.eqb (rv_status r) st.

(** [counts[key] += 1] on a [defaultdict(int)]. *)
Definition tally (counts : list (string * Z)) (key : string) : list (string * Z) :=
  dict_set key (default 0 (obj_get key counts) + 1) counts.

Definition get_circular_status (d : database) (circular_id : Z) : option CircularStatusResult :=
  match circular_of d circular_id with
  | None => None
  | Some circular =>
      let clauses := clauses_of d circular_id in
      let clause_ids := map cl_id clauses in
      let rules := rules_in d clause_ids in
      let reviews := reviews_in d clause_ids in
      let pending := count_where is_pending reviews in
      let resolved := count_where (has_status "RESOLVED") reviews in
      let active := count_where ru_is_active rules in
      let transitions :=
        merge_sort (key_le (λ t, utc_us (tr_created_at t)))
          (List.filter (λ t, tr_circular_id t =? circular_id) (d_transitions d)) in
      Some
        {| st_circular_id := ci_id circular; st_circular_number := ci_circular_number circular;
           st_status := legacy_status (ci_processing_state circular)
                          (existsb (has_status "REJECTED") reviews) pending active resolved;
           st_processing_state := str_or (Some (ci_processing_state circular)) "INGESTED";
           st_source_url := ci_source_url circular; st_source_filename := ci_source_filename circular;
           st_source_retrieved_at := ci_source_retrieved_at circular;
           st_source_document_sha256 := ci_source_document_sha256 circular;
           st_extracted_text_sha256 := ci_raw_text_digest circular;
           st_raw_text_digest := ci_raw_text_digest circular;
           st_clause_count := Z.of_nat (length clauses);
           st_compiled_rule_count := Z.of_nat (length rules);
           st_hitl_review_count := Z.of_nat (length reviews);
           st_pending_reviews := pending; st_resolved_reviews := resolved; st_active_rules := active;
           st_error_message := ci_error_message circular;
           st_reviews := map (λ r, (rv_review_id r, rv_status r, rv_severity r)) reviews;
           st_rules := map (λ r, (ru_rule_id r, ru_is_active r, ru_hitl_status r)) rules;
           st_state_transitions := transitions;
           st_clause_status_counts := foldl tally [] (map cl_processing_status clauses) |}
  end.

(** [SELECT key, count(CASE WHEN p THEN 1 END) ... GROUP BY key] *)
Fixpoint group_count {R} (key : R → Z) (p : R → bool) (rows : list R) : list (Z * Z) :=
  match rows with
  | [] => []
  | r :: rows' =>
      let counts := group_count key p rows' in
      let n := if p r then 1 else 0 in
      match find (λ kv, kv.1 =? key r) counts with
      | None => (key r, n) :: counts
      | Some _ => map (λ kv, if kv.1 =? key r then (kv.1, kv.2 + n) else kv) counts
      end
  end.

(** [counts.get(key, 0)] *)
Definition group_get (counts : list (Z * Z)) (key : Z) : Z :=
  match find (λ kv, kv.1 =? key) counts with Some kv => kv.2 | None => 0 end.

(** [clauses JOIN table ON table.clause_id = clauses.id], for the clauses of
    the circulars: the circular of each joined row, with the row. *)
Definition join_clauses {R} (clause_id : R → Z) (rows : list R) (clauses : list Clause) : list (Z * R) :=
  flat_map (λ c, map (pair (cl_circular_id c)) (List.filter (λ r, clause_id r =? cl_id c) rows)) clauses.

Record status_summary := Summary
  { su_status : string; su_clause_count : Z; su_active_rules : Z; su_pending_reviews : Z }.

Definition get_circular_statuses_batch (d : database) (circulars : list Circular)
  : list (Z * status_summary) :=
  let ids := map ci_id circulars in
  let clauses := List.filter (λ c, id_in ids (cl_circular_id c)) (d_clauses d) in
  let clause_counts := group_count cl_circular_id (λ _, true) clauses in
  let rules := join_clauses ru_clause_id (d_rules d) clauses in
  let active_counts := group_count fst (λ x, ru_is_active x.2) rules in
  let reviews := join_clauses rv_clause_id (d_reviews d) clauses in
  let pending_counts := group_count fst (λ x, is_pending x.2) reviews in
  let resolved_counts := group_count fst (λ x, has_status "RESOLVED" x.2) reviews in
  let rejected_counts := group_count fst (λ x, has_status "REJECTED" x.2) reviews in
  map (λ c,
    let active := group_get active_counts (ci_id c) in
    let pending := group_get pending_counts (ci_id c) in
    let resolved := group_get resolved_counts (ci_id c) in
    let has_rejected := group_get rejected_counts (ci_id c) >? 0 in
    (ci_id c,
     Summary (legacy_status (ci_processing_state c) has_rejected pending active resolved)
       (group_get clause_counts (ci_id c)) active pending)) circulars.

(** ** The stale-state reaper *)
Definition _STALE_STATES : list string := ["EXTRACTING"; "COMPILING"].

Definition _SWEEP_MESSAGE : string :=
  "Processing stalled in an intermediate state (" +:+ join "/" _STALE_STATES
  +:+ ") and was not updated for a long period; marked FAILED by the stale-state "
  +:+ "reaper. Re-upload the document to retry.".

Definition is_stale (cutoff : Z) (c : Circular) : bool :=
  one_of _STALE_STATES (ci_processing_state c) && (utc_us (ci_updated_at c) <? cutoff).

Definition _sweep_once (d : database) (now : datetime) (stale_after_us : Z) : database * Z :=
  let cutoff := utc_us now - stale_after_us in
  let victims := List.filter (is_stale cutoff) (d_circulars d) in
  let d1 := set_circulars d
    (update_where (λ c, id_in (map ci_id victims) (ci_id c))
       (λ c, set_state c "FAILED" (Some _SWEEP_MESSAGE) now) (d_circulars d)) in
  (foldl (λ d c, add_transition d
            (Transition (ci_id c) (Some (ci_processing_state c)) "FAILED" "system:stale-state-reaper"
               (Some _SWEEP_MESSAGE) None now)) d1 victims,
   Z.of_nat (length victims)).
