(* ===== verification/OrchestratorFacts.v ===== *)
(** * Correctness of the document pipeline

    Every step of ingestion, extraction and compilation keeps the invariant of
    the database and activates nothing; a run that creates a rule ends in
    review; a failed run leaves rules and reviews as they were; the audit trail
    of a run.  [PipelineFacts] composes these with the review decisions. *)
From S2P Require Import Prelude PyStr Sha256 Json Datetime Schemas Compiler.
From S2P Require Import PyText DocModels Policies Execution DbModels HitlService HitlServiceFacts Orchestrator.

Open Scope string_scope.
Open Scope Z_scope.

(** ** Evolution of the database *)

(** Every active row of [d'] is, unchanged, a row of [d]. *)
Definition active_sub (d d' : database) : Prop :=
  ∀ r, r ∈ d_rules d' → ru_is_active r = true → r ∈ d_rules d.

(** A step that keeps the invariant and activates nothing. *)
Record evolves (d d' : database) : Prop :=
  { ev_inv : db_inv d → db_inv d'
  ; ev_active : active_sub d d'
  ; ev_next : d_next d <= d_next d' }.

#[export] Instance evolves_preorder : PreOrder evolves.
Proof.
  split.
  - intros d. split; [done|by intros r|done].
  - intros d1 d2 d3 [Hi1 Ha1 Hn1] [Hi2 Ha2 Hn2]. split; [auto| |lia].
    intros r Hr Ha. apply Ha1; [by apply Ha2|done].
Qed.

(** A step that leaves the rules alone activates nothing. *)
Lemma evolves_same_rules d d' :
  (db_inv d → db_inv d') → d_rules d' = d_rules d → d_next d' = d_next d → evolves d d'.
Proof. intros Hi Hr Hn. split; [done| |by rewrite Hn]. intros r. by rewrite Hr. Qed.

Lemma circular_of_Some d id c : circular_of d id = Some c → c ∈ d_circulars d ∧ ci_id c = id.
Proof. intros [? ?%Z.eqb_eq]%find_row_Some. done. Qed.

Lemma clause_of_Some d id c : clause_of d id = Some c → c ∈ d_clauses d ∧ cl_id c = id.
Proof. intros [? ?%Z.eqb_eq]%find_row_Some. done. Qed.

Lemma id_in_spec l i : id_in l i = true ↔ i ∈ l.
Proof.
  unfold id_in. rewrite existsb_true_elem. split.
  - by intros (x & Hx & ->%Z.eqb_eq).
  - intros H. exists i. by rewrite Z.eqb_refl.
Qed.

Lemma transition_evolves d id target by_ err details now :
  one_of _CIRCULAR_PROCESSING_STATES target = true →
  evolves d (transition_circular_state d id target by_ err details now).
Proof.
  intros Ht. unfold transition_circular_state. destruct (circular_of d id) as [c|] eqn:E; [|done].
  apply circular_of_Some in E as [Hc _]. apply evolves_same_rules; [|done..].
  intros HI. by apply move_circular_inv.
Qed.

Lemma set_clause_status_check c st err :
  one_of _CLAUSE_PROCESSING_STATUSES st = true → clause_check c = true →
  clause_check (set_clause_status c st err) = true.
Proof.
  intros Hst. unfold clause_check. cbn [set_clause_status cl_sha256 cl_element_kind cl_processing_status].
  rewrite Hst !andb_true_iff. tauto.
Qed.

Lemma update_clauses_evolves d p f :
  (∀ c, clause_check c = true → clause_check (f c) = true) → (∀ c, cl_id (f c) = cl_id c) →
  evolves d (set_clauses d (update_where p f (d_clauses d))).
Proof. intros Hck Hid. apply evolves_same_rules; [|done..]. intros HI. by apply update_clauses_inv. Qed.

Lemma set_clauses_status_evolves d ids st :
  one_of _CLAUSE_PROCESSING_STATUSES st = true → evolves d (set_clauses_status d ids st).
Proof.
  intros Hst. apply update_clauses_evolves; [|done]. intros c. by apply set_clause_status_check.
Qed.

(** ** Insertion *)
Lemma bump_inv d : db_inv d → db_inv (bump d).
Proof.
  intros [Hc Hr Ho Ht Hn Hm Hci Hcl Hf1 Hf4 Hf2 Hf3 Hf5 Hfk]. split; simpl; try done.
  - intros v Hv%Hf1. lia.
  - intros r Hr'%Hf4. lia.
  - intros c Hin%Hf2. lia.
  - intros t Hin%Hf3. lia.
  - intros c Hin%Hf5. lia.
  - intros v i Hv Hi. specialize (Hfk v i Hv Hi). lia.
Qed.

Lemma NoDup_map_snoc {A} (f : A → Z) l x n :
  NoDup (map f l) → (∀ y, y ∈ l → f y < n) → f x = n → NoDup (map f (l ++ [x])).
Proof.
  intros Hnd Hlt Hx. rewrite List.map_app. apply NoDup_app. split_and!; [done| |apply NoDup_singleton].
  intros i Hi ->%list_elem_of_singleton. apply list_elem_of_fmap in Hi as (y & Heq & Hy%Hlt). lia.
Qed.

Lemma forallb_snoc {A} (p : A → bool) l x :
  forallb p l = true → p x = true → forallb p (l ++ [x]) = true.
Proof. intros Hl Hx. rewrite forallb_app Hl. simpl. by rewrite Hx. Qed.

Lemma insert_circular_evolves ie d row d' id :
  (∀ i, ci_id (row i) = i) → (∀ i, ci_processing_state (row i) = "INGESTED") →
  insert_circular ie d row = Ok (d', id) → evolves d d'.
Proof.
  intros Hid Hst. unfold insert_circular. destruct (existsb _ _); [done|]. destruct (existsb _ _); [done|].
  destruct (negb _) eqn:Eck; [done|]. intros [= <- <-]. apply negb_false_iff in Eck.
  split; [|by intros r|simpl; lia]. intros HI.
  pose proof (di_circular_fresh _ HI) as Hf2. pose proof (di_transition_fresh _ HI) as Hf3.
  destruct (bump_inv d HI) as [Bc Br Bo Bt Bn Bm Bci Bcl B1 B4 B2 B3 B5 Bfk]. split; simpl in *; try done.
  - apply db_checks_iff in Bc as (Hcc & ? & ? & ? & Htc). apply db_checks_iff. simpl.
    split_and!; try done. by apply forallb_snoc.
  - intros c [Hin| ->%list_elem_of_singleton]%elem_of_app; [by apply Bt|].
    rewrite Hid Hst. unfold transitions_of. simpl.
    rewrite (proj2 (filter_nil_all _ _)); [done|]. intros t Hin%Hf3. apply Z.eqb_neq. lia.
  - apply (NoDup_map_snoc _ _ _ (d_next d)); auto.
  - intros c [Hin| ->%list_elem_of_singleton]%elem_of_app; [by apply B2|].
    rewrite Hid. lia.
Qed.

Lemma insert_clause_evolves ie d row d' id :
  (∀ i, cl_id (row i) = i) → (∀ i, clause_check (row i) = true) →
  insert_clause ie d row = Ok (d', id) → evolves d d'.
Proof.
  intros Hid Hck. unfold insert_clause. destruct (existsb _ _); [done|]. intros [= <- <-].
  split; [|by intros r|simpl; lia]. intros HI. pose proof (di_clause_fresh _ HI) as Hf.
  destruct (bump_inv d HI) as [Bc Br Bo Bt Bn Bm Bci Bcl B1 B4 B2 B3 B5 Bfk]. split; simpl in *; try done.
  - apply db_checks_iff in Bc as (? & Hcc & ? & ? & ?). apply db_checks_iff. simpl.
    split_and!; try done. by apply forallb_snoc.
  - apply (NoDup_map_snoc _ _ _ (d_next d)); auto.
  - intros c [Hin| ->%list_elem_of_singleton]%elem_of_app; [by apply B5|].
    rewrite Hid. lia.
Qed.

(** A new rule is inactive. *)
Lemma insert_rule_evolves ie d row d' id :
  (∀ i, ru_id (row i) = i) → (∀ i, rule_check (row i) = true) → (∀ i, ru_is_active (row i) = false) →
  insert_rule ie d row = Ok (d', id) → evolves d d'.
Proof.
  intros Hid Hck Hia. unfold insert_rule. destruct (existsb _ _); [done|]. intros [= <- <-].
  split; [| |simpl; lia].
  2:{ intros r [Hin| ->%list_elem_of_singleton]%elem_of_app Ha; [done|]. by rewrite Hia in Ha. }
  intros HI. pose proof (di_rule_fresh _ HI) as Hf.
  destruct (bump_inv d HI) as [Bc Br Bo Bt Bn Bm Bci Bcl B1 B4 B2 B3 B5 Bfk]. split; simpl in *; try done.
  - apply db_checks_iff in Bc as (? & ? & Hcc & ? & ?). apply db_checks_iff. simpl.
    split_and!; try done. by apply forallb_snoc.
  - intros r v [Hin| ->%list_elem_of_singleton]%elem_of_app Ha; [by apply Br|].
    by rewrite Hia in Ha.
  - intros r r' [Hin| ->%list_elem_of_singleton]%elem_of_app
      [Hin'| ->%list_elem_of_singleton]%elem_of_app Ha Ha'; rewrite ?Hia in Ha, Ha'; try done.
    by apply Bo.
  - apply (NoDup_map_snoc _ _ _ (d_next d)); auto.
  - intros r [Hin| ->%list_elem_of_singleton]%elem_of_app; [by apply B4|].
    rewrite Hid. lia.
Qed.

(** A new review, when no active rule is its subject. *)
Lemma insert_review_inv ie d row d' v :
  (∀ i, rv_id (row i) = i) →
  (∀ i, ∃ pk, rv_compiled_rule_id (row i) = Some pk ∧ pk < d_next d
     ∧ ∀ r, r ∈ d_rules d → ru_id r = pk → ru_is_active r = false) →
  insert_review ie d row = Ok (d', v) → evolves d d' ∧ d_rules d' = d_rules d.
Proof.
  intros Hid Hpk. unfold insert_review. destruct (existsb _ _); [done|].
  destruct (negb _) eqn:Eck; [done|]. intros [= <- <-]. apply negb_false_iff in Eck.
  split; [|done]. split; [|by intros r|simpl; lia].
  intros HI. pose proof (di_review_fresh _ HI) as Hf. destruct (Hpk (d_next d)) as (pk & Epk & Hlt & Hia).
  destruct (bump_inv d HI) as [Bc Br Bo Bt Bn Bm Bci Bcl B1 B4 B2 B3 B5 Bfk]. split; simpl in *; try done.
  - apply db_checks_iff in Bc as (? & ? & ? & Hcc & ?). apply db_checks_iff. simpl.
    split_and!; try done. by apply forallb_snoc.
  - intros r v Hr Ha [Hin| ->%list_elem_of_singleton]%elem_of_app Hrv; [by eapply Br|].
    rewrite Epk in Hrv. injection Hrv as E. by rewrite (Hia _ Hr (eq_sym E)) in Ha.
  - apply (NoDup_map_snoc _ _ _ (d_next d)); auto.
  - intros v [Hin| ->%list_elem_of_singleton]%elem_of_app; [by apply B1|].
    rewrite Hid. lia.
  - intros v i [Hin| ->%list_elem_of_singleton]%elem_of_app Hi; [by eapply Bfk|].
    rewrite Epk in Hi. injection Hi as <-. lia.
Qed.

(** ** Ingestion *)
(** Replacing a circular by one with the same identity and state. *)
Lemma replace_circular_inv d c c' :
  db_inv d → c ∈ d_circulars d → ci_id c' = ci_id c → ci_processing_state c' = ci_processing_state c →
  circular_check c' = true → db_inv (update_circular d (ci_id c) (λ _, c')).
Proof.
  intros [Hc Hr Ho Ht Hn Hm Hci Hcl Hf1 Hf4 Hf2 Hf3 Hf5 Hfk] Hin Hid Hst Hck. split; simpl; try done.
  - apply db_checks_iff in Hc as (Hcc & ? & ? & ? & Htc). apply db_checks_iff. simpl.
    split_and!; try done. by apply forallb_update_where.
  - intros c0 (c1 & Hc1 & ->)%elem_of_update_where. destruct (Z.eqb_spec (ci_id c1) (ci_id c)); [|by apply Ht].
    rewrite Hid Hst. by apply Ht.
  - assert (map ci_id (update_where (λ x, ci_id x =? ci_id c) (λ _, c') (d_circulars d))
            = map ci_id (d_circulars d)) as ->; [|done].
    unfold update_where. rewrite List.map_map. apply map_ext. intros x.
    by destruct (Z.eqb_spec (ci_id x) (ci_id c)) as [->|].
  - intros c0 (c1 & Hc1 & ->)%elem_of_update_where. destruct (_ =? _); rewrite ?Hid; auto.
Qed.

Lemma ensure_baseline_tenant_evolves d t : evolves d (ensure_baseline_tenant d t).
Proof.
  unfold ensure_baseline_tenant. destruct (one_of _ _); [done|].
  apply evolves_same_rules; [|done..]. by intros [].
Qed.

Lemma scalar_one_Some {A} (rows : list A) x : scalar_one_or_none rows = Ok (Some x) → rows = [x].
Proof. destruct rows as [|y [|]]; simpl; congruence. Qed.
Lemma scalar_one_None {A} (rows : list A) : scalar_one_or_none rows = Ok None → rows = [].
Proof. destruct rows as [|y [|]]; simpl; congruence. Qed.

Lemma filter_singleton_elem {A} (p : A → bool) l x : List.filter p l = [x] → x ∈ l ∧ p x = true.
Proof. intros E. rewrite list_elem_of_In -filter_In E. by left. Qed.

Lemma digest_len_sha s : digest_len (sha256_hex s) = true.
Proof. unfold digest_len. by rewrite sha256_hex_length. Qed.

Section pipeline.
Context (nfkc utf8_ignore : string → string) (uuid : Z → string) (ie : string → string).
Context (extract : ClauseChunk → list sibling → res exn AuditedComplianceRule).

Lemma persist_circular_evolves d parsed fb fn t url at_ today now d' id :
  persist_circular nfkc utf8_ignore ie d parsed fb fn t url at_ today now = Ok (d', id) → evolves d d'.
Proof.
  intros H. etrans; [apply (ensure_baseline_tenant_evolves d t)|]. unfold persist_circular in H.
  apply res_bind_Ok in H as ([c|] & Hs & H).
  - apply scalar_one_Some, filter_singleton_elem in Hs as [Hin _].
    destruct (negb _) eqn:E; [done|]. injection H as <- <-. apply negb_false_iff in E.
    apply evolves_same_rules; [|done..]. intros HI. by apply replace_circular_inv.
  - by eapply insert_circular_evolves in H.
Qed.

Lemma chunk_sha256_len chunk : digest_len (chunk_sha256 chunk) = true.
Proof.
  unfold chunk_sha256. destruct (negb _ && _) eqn:E; [|apply digest_len_sha].
  by apply andb_true_iff in E as [_ ?].
Qed.

Lemma persist_clause_evolves d cid t chunk d' id :
  persist_clause ie d cid t chunk = Ok (d', id) → evolves d d'.
Proof.
  unfold persist_clause. intros ([c|] & _ & H)%res_bind_Ok; [by injection H as <- _|].
  eapply insert_clause_evolves in H; [done|done|]. intros i. unfold clause_check. simpl.
  by rewrite chunk_sha256_len.
Qed.

Lemma persist_clauses_evolves chunks d cid t d' ids :
  persist_clauses ie d cid t chunks = Ok (d', ids) → evolves d d'.
Proof.
  revert d ids. induction chunks as [|chunk chunks IH]; intros d ids H; [by injection H as <- _|].
  simpl in H. apply res_bind_Ok in H as ([d1 id] & H1 & H).
  apply res_bind_Ok in H as ([d2 ids'] & H2 & H). injection H as <- _.
  etrans; [by eapply persist_clause_evolves|by eapply IH].
Qed.

(** ** Rules and reviews *)
Definition inactive_at (d : database) (pk : Z) : Prop :=
  ∀ r, r ∈ d_rules d → ru_id r = pk → ru_is_active r = false.

Lemma update_rules_inactive_evolves d p f :
  (∀ r, r ∈ d_rules d → p r = true → ru_is_active (f r) = false) → (∀ r, ru_id (f r) = ru_id r) →
  (∀ r, rule_check r = true → rule_check (f r) = true) →
  evolves d (set_rules d (update_where p f (d_rules d))).
Proof.
  intros Hia Hid Hck. split; [intros HI; by apply update_rules_inactive_inv| |done].
  intros r (r0 & Hr0 & ->)%elem_of_update_where Ha. destruct (p r0) eqn:E; [|done].
  by rewrite (Hia _ Hr0 E) in Ha.
Qed.

Lemma rule_for_Some d rid cid r :
  rule_for d rid cid = Ok (Some r) → r ∈ d_rules d ∧ ru_rule_id r = rid ∧ ru_clause_id r = cid.
Proof.
  intros [Hin Hp]%scalar_one_Some%filter_singleton_elem.
  apply andb_true_iff in Hp as [?%String.eqb_eq ?%Z.eqb_eq]. done.
Qed.

Lemma insert_rule_pk d row d' pk :
  db_inv d → (∀ i, ru_is_active (row i) = false) → insert_rule ie d row = Ok (d', pk) →
  inactive_at d' pk ∧ pk < d_next d'.
Proof.
  intros HI Hia. unfold insert_rule. destruct (existsb _ _); [done|]. intros [= <- <-]. simpl.
  split; [|lia]. intros r [Hin| ->%list_elem_of_singleton]%elem_of_app E; [|done].
  apply (di_rule_fresh _ HI) in Hin. lia.
Qed.

Lemma inactive_update d pk f :
  (∀ r, ru_is_active (f r) = false) → inactive_at (update_rule d pk f) pk.
Proof.
  intros Hf r (r0 & Hr0 & ->)%elem_of_update_where E.
  destruct (Z.eqb_spec (ru_id r0) pk); [done|congruence].
Qed.

Lemma compiled_status_check flags : one_of _COMPILED_RULE_HITL_STATUSES (compiled_status flags) = true.
Proof. unfold compiled_status. destruct (has_blocking_flags flags); [done|]. by destruct flags. Qed.

Lemma final_hitl_status_check flags reviews :
  one_of _COMPILED_RULE_HITL_STATUSES (final_hitl_status flags reviews) = true.
Proof.
  unfold final_hitl_status. destruct (_ || _); [done|]. destruct (_ || _); [done|].
  by destruct (existsb _ _).
Qed.

(** The stored rule is inactive, whether it is new or was compiled before. *)
Lemma store_rule_evolves d clause rid t c d' pk :
  db_inv d → store_rule ie d clause rid t c = Ok (d', pk) →
  evolves d d' ∧ inactive_at d' pk ∧ pk < d_next d'.
Proof.
  intros HI. unfold store_rule. intros ([r|] & Hr & H)%res_bind_Ok.
  - injection H as <- <-. apply rule_for_Some in Hr as (Hin & _ & _). split_and!.
    + apply update_rules_inactive_evolves; [done..|]. intros. apply compiled_status_check.
    + by apply inactive_update.
    + simpl. by apply (di_rule_fresh _ HI).
  - pose proof H as H'. apply insert_rule_pk in H; [|done..]. split; [|done].
    eapply insert_rule_evolves in H'; [done| done| |done]. intros. apply compiled_status_check.
Qed.

Lemma new_review_evolves d clause pk t reason sev desc exc path d' v :
  inactive_at d pk → pk < d_next d →
  insert_review ie d (new_review uuid clause pk t reason sev desc exc path) = Ok (d', v) →
  evolves d d' ∧ d_rules d' = d_rules d.
Proof. intros Hia Hlt. apply insert_review_inv; [done|]. intros i. by exists pk. Qed.

Lemma inactive_same_rules d d' pk : d_rules d' = d_rules d → inactive_at d pk → inactive_at d' pk.
Proof. unfold inactive_at. by intros ->. Qed.

Lemma add_flag_reviews_evolves flags d clause pk t codes acc d' l :
  inactive_at d pk → pk < d_next d →
  add_flag_reviews uuid ie d clause pk t codes acc flags = Ok (d', l) →
  evolves d d' ∧ d_rules d' = d_rules d.
Proof.
  revert d codes acc. induction flags as [|f flags IH]; intros d codes acc Hia Hlt H.
  { injection H as <- _. done. }
  simpl in H. destruct (one_of codes _); [by eapply IH|].
  apply res_bind_Ok in H as ([d1 rev] & H1 & H).
  apply new_review_evolves in H1 as [He Hr]; [|done..].
  apply IH in H as [He' Hr']; [|by eapply inactive_same_rules|pose proof (ev_next _ _ He); lia].
  split; [by etrans|congruence].
Qed.

Lemma store_reviews_evolves d clause pk rid t flags d' l :
  inactive_at d pk → pk < d_next d → store_reviews uuid ie d clause pk rid t flags = Ok (d', l) →
  evolves d d' ∧ d_rules d' = d_rules d.
Proof.
  intros Hia Hlt. unfold store_reviews. destruct flags; [destruct (reviews_of d pk)|].
  - intros ([d1 rev] & H1 & H)%res_bind_Ok. injection H as <- _. by eapply new_review_evolves.
  - by intros [= <- _].
  - by apply add_flag_reviews_evolves.
Qed.

Lemma NoDup_map_filter {A B} (f : A → B) (p : A → bool) l :
  NoDup (map f l) → NoDup (map f (List.filter p l)).
Proof.
  induction l as [|x l IH]; simpl; [done|]. rewrite NoDup_cons. intros [Hx Hnd].
  destruct (p x); simpl; [|auto]. apply NoDup_cons. split; [|auto].
  intros (y & E & [Hy _]%filter_elem)%list_elem_of_fmap. apply Hx. rewrite E.
  by apply (list_elem_of_fmap_2 f).
Qed.

(** Removing placeholders and detaching their reviews. *)
Lemma delete_placeholders_evolves d cid : evolves d (delete_placeholders d cid).
Proof.
  split; [|by intros r [? _]%filter_elem _|done].
  intros [Hc Hr Ho Ht Hn Hm Hci Hcl Hf1 Hf4 Hf2 Hf3 Hf5 Hfk]. split; simpl; try done.
  - apply db_checks_iff in Hc as (? & ? & Hcr & ? & ?). apply db_checks_iff. simpl.
    split_and!; try done; [|by apply forallb_update_where].
    rewrite forallb_forall in Hcr. apply forallb_forall. intros r [Hin _]%filter_In. auto.
  - intros r v [Hin _]%filter_elem Ha (v0 & Hv0 & ->)%elem_of_update_where Hrv.
    destruct (refers_in _ v0); [done|]. by eapply Hr.
  - intros r r' [Hin _]%filter_elem [Hin' _]%filter_elem. by apply Ho.
  - by rewrite map_update_where.
  - by apply NoDup_map_filter.
  - intros v (v0 & Hv0 & ->)%elem_of_update_where. destruct (refers_in _ v0); simpl; auto.
  - intros r [Hin _]%filter_elem. auto.
  - intros v i (v0 & Hv0 & ->)%elem_of_update_where.
    destruct (refers_in _ v0); [done|]. eauto.
Qed.

Lemma compile_and_persist_rules_evolves d clause audited t now d' pk l :
  db_inv d → compile_and_persist_rules uuid ie d clause audited t now = Ok (d', pk, l) → evolves d d'.
Proof.
  intros HI. unfold compile_and_persist_rules.
  pose proof (delete_placeholders_evolves d (cl_id clause)) as E0.
  destruct (compile_audited_rule audited 1 now) as [c|]; [|done].
  intros ([d1 pk1] & H1 & H)%res_bind_Ok. apply res_bind_Ok in H as ([d2 l2] & H2 & H).
  injection H as <- <- <-.
  apply store_rule_evolves in H1 as (E1 & Hia & Hlt); [|by apply (ev_inv _ _ E0)].
  apply store_reviews_evolves in H2 as [E2 Hr2]; [|done..].
  etrans; [exact E0|]. etrans; [exact E1|]. etrans; [exact E2|].
  apply update_rules_inactive_evolves; [|done|intros; apply final_hitl_status_check].
  intros r Hin E%Z.eqb_eq. simpl. rewrite Hr2 in Hin. by apply Hia.
Qed.

Lemma _persist_failed_clause_rule_evolves d clause chunk e t d' pk :
  db_inv d → _persist_failed_clause_rule uuid ie d clause chunk e t = Ok (d', pk) → evolves d d'.
Proof.
  intros HI. unfold _persist_failed_clause_rule. intros (ex & Hex & H)%res_bind_Ok.
  apply res_bind_Ok in H as ([d1 pk1] & H1 & H). apply res_bind_Ok in H as (exv & _ & H).
  assert (evolves d d1 ∧ inactive_at d1 pk1 ∧ pk1 < d_next d1) as (E1 & Hia & Hlt).
  { destruct ex as [r|].
    - injection H1 as <- <-. apply rule_for_Some in Hex as (Hin & _ & _). split_and!.
      + by apply update_rules_inactive_evolves.
      + by apply inactive_update.
      + simpl. by apply (di_rule_fresh _ HI).
    - pose proof H1 as H'. apply insert_rule_pk in H1; [|done..]. split; [|done].
      by eapply insert_rule_evolves in H'. }
  etrans; [exact E1|]. destruct exv as [v|].
  - injection H as <- _. apply evolves_same_rules; [|done..]. intros HI1.
    apply update_review_inv; try done. intros r v' Hr Ha Hv' _ E. by apply (di_reviewed _ HI1 r v').
  - apply res_bind_Ok in H as ([d2 v2] & H2 & H). injection H as <- _.
    by apply new_review_evolves in H2 as [E2 _].
Qed.

(** ** The stages *)
Lemma compile_clause_evolves d chunks results clause t now d' :
  db_inv d → compile_clause uuid ie d chunks results clause t now = Ok d' → evolves d d'.
Proof.
  intros HI. unfold compile_clause.
  set (d0 := update_clause d _ _).
  assert (E0 : evolves d d0)
    by (apply update_clauses_evolves; [intros c; by apply set_clause_status_check|done]).
  assert (Hfin : ∀ d1 id st err, one_of _CLAUSE_PROCESSING_STATUSES st = true →
    evolves d1 (update_clause d1 id (λ c, set_clause_status c st err)))
    by (intros; apply update_clauses_evolves; [intros c; by apply set_clause_status_check|done]).
  destruct (result_for results clause) as [audited|e].
  - intros ([[d1 pk] l] & H1 & H)%res_bind_Ok. injection H as <-.
    apply compile_and_persist_rules_evolves in H1; [|by apply (ev_inv _ _ E0)].
    etrans; [exact E0|]. etrans; [exact H1|by apply Hfin].
  - intros ([d1 pk] & H1 & H)%res_bind_Ok. injection H as <-.
    apply _persist_failed_clause_rule_evolves in H1; [|by apply (ev_inv _ _ E0)].
    etrans; [exact E0|]. etrans; [exact H1|by apply Hfin].
Qed.

Lemma compile_clauses_evolves clauses d completed chunks results t now d' :
  db_inv d → compile_clauses uuid ie d completed clauses chunks results t now = Ok d' → evolves d d'.
Proof.
  revert d. induction clauses as [|id clauses IH]; intros d HI H; [by injection H as <-|].
  simpl in H. destruct (clause_of d id) as [clause|]; [|by apply IH].
  destruct (id_in completed id); [by apply IH|].
  apply res_bind_Ok in H as (d1 & H1 & H). apply compile_clause_evolves in H1; [|done].
  etrans; [exact H1|]. apply IH; [by apply (ev_inv _ _ H1)|done].
Qed.

Lemma record_result_evolves ids d r : evolves d (record_result ids d r).
Proof.
  unfold record_result. destruct (clause_matching d ids r.1) as [c|]; [|done].
  apply update_clauses_evolves; [|by intros c0; destruct r.2].
  intros c0 Hc0. destruct r.2; by apply set_clause_status_check.
Qed.

Lemma stage_checkpoints_evolves d cid clauses chunks now d1 d2 d3 completed results :
  stage_checkpoints extract d cid clauses chunks now = (d1, d2, d3, completed, results) →
  evolves d d1 ∧ evolves d1 d2 ∧ evolves d2 d3.
Proof.
  intros [= <- <- <- <- <-]. split_and!.
  - unfold begin_extraction. etrans; [|by apply transition_evolves].
    etrans; by apply set_clauses_status_evolves.
  - unfold record_extraction. etrans; [|by apply transition_evolves].
    generalize (begin_extraction d cid clauses (completed_clause_ids d clauses)
      (to_extract (completed_clause_ids d clauses) clauses chunks) now) as x.
    generalize (match map fst (to_extract (completed_clause_ids d clauses) clauses chunks) with
                | [] => [] | cs => extract_and_audit_circular extract cs (map sibling_of chunks) end) as rs.
    induction rs as [|r rs IH]; intros x; simpl; [done|].
    etrans; [apply record_result_evolves|apply IH].
  - by apply transition_evolves.
Qed.

Lemma finish_compilation_evolves d cid clauses now :
  evolves d (finish_compilation d cid clauses now).
Proof.
  unfold finish_compilation. destruct (List.filter _ _); by apply transition_evolves.
Qed.

Lemma execute_evolves d cid clauses chunks t now :
  db_inv d → evolves d (_execute_processing_stages uuid ie extract d cid clauses chunks t now).1.
Proof.
  intros HI. unfold _execute_processing_stages.
  destruct (stage_checkpoints _ _ _ _ _ _) as [[[[d1 d2] d3] completed] results] eqn:E.
  apply stage_checkpoints_evolves in E as (E1 & E2 & E3).
  assert (E03 : evolves d d3) by (etrans; [exact E1|by etrans]).
  etrans; [exact E03|]. destruct (compile_clauses _ _ _ _ _ _ _ _ _) as [d4|e] eqn:Ec; simpl.
  - etrans; [|apply finish_compilation_evolves].
    eapply compile_clauses_evolves; [|done]. by apply (ev_inv _ _ E03).
  - by apply transition_evolves.
Qed.

Lemma ingest_evolves d parse fb fn t url at_ today now :
  match ingest nfkc utf8_ignore ie d parse fb fn t url at_ today now with
  | inl x => evolves d x.1
  | inr i => evolves d (in_db i)
  end.
Proof.
  unfold ingest. destruct parse as [parsed|e]; [|done].
  destruct (persist_circular _ _ _ _ _ _ _ _ _ _ _ _) as [[d1 cid]|e] eqn:E1; [|done].
  apply persist_circular_evolves in E1.
  destruct (persist_clauses _ _ _ _ _) as [[d2 clauses]|e] eqn:E2; simpl.
  - apply persist_clauses_evolves in E2. assert (E02 : evolves d d2) by by etrans.
    destruct (circular_of d2 cid) as [c|]; [|done].
    destruct (String.eqb _ _); [done|]. simpl. destruct (_ || _); [|done].
    etrans; [exact E02|by apply transition_evolves].
  - destruct (circular_of d cid) as [c|]; [|done]. destruct (String.eqb _ _); [done|].
    by apply transition_evolves.
Qed.

Lemma process_evolves d parse fb fn t url at_ today now :
  db_inv d →
  evolves d (process_circular_pdf nfkc utf8_ignore uuid ie extract d parse fb fn t url at_ today now).1.
Proof.
  intros HI. unfold process_circular_pdf.
  pose proof (ingest_evolves d parse fb fn t url at_ today now) as H.
  destruct (ingest _ _ _ _ _ _ _ _ _ _ _ _) as [x|i]; [done|].
  etrans; [exact H|]. apply execute_evolves. by apply (ev_inv _ _ H).
Qed.

Lemma resume_evolves d cid t now :
  db_inv d → evolves d (resume_circular uuid ie extract d cid t now).1.
Proof.
  intros HI. unfold resume_circular. destruct (circular_of d cid); [|done].
  destruct (merge_sort _ _); [done|]. by apply execute_evolves.
Qed.
End pipeline.

(** ** The reaper *)
Lemma filter_key_unique {A} (key : A → Z) l x :
  NoDup (map key l) → x ∈ l → List.filter (λ y, key y =? key x) l = [x].
Proof.
  induction l as [|y l IH]; intros Hnd Hx; [by apply not_elem_of_nil in Hx|].
  simpl in *. apply NoDup_cons in Hnd as [Hy Hnd]. apply elem_of_cons in Hx as [<-|Hx].
  - rewrite Z.eqb_refl. f_equal. apply filter_nil_all. intros z Hz. apply Z.eqb_neq. intros E.
    apply Hy. rewrite -E. by apply (list_elem_of_fmap_2 key).
  - destruct (Z.eqb_spec (key y) (key x)) as [E|]; [|auto].
    destruct Hy. rewrite E. by apply (list_elem_of_fmap_2 key).
Qed.

Lemma filter_map_comm {A B} (f : A → B) (p : B → bool) l :
  List.filter p (map f l) = map f (List.filter (λ x, p (f x)) l).
Proof. induction l as [|x l IH]; simpl; [done|]. destruct (p (f x)); simpl; by rewrite IH. Qed.

Lemma foldl_add_transition {A} (f : A → CircularStateTransition) l d :
  foldl (λ d x, add_transition d (f x)) d l
  = Db (d_tenants d) (d_circulars d) (d_clauses d) (d_rules d) (d_reviews d)
      (d_transitions d ++ map f l) (d_next d).
Proof.
  revert d. induction l as [|x l IH]; intros d; simpl.
  - rewrite app_nil_r. by destruct d.
  - rewrite IH. simpl. by rewrite -app_assoc.
Qed.

Lemma victim_ids d cutoff c :
  db_inv d → c ∈ d_circulars d →
  id_in (map ci_id (List.filter (is_stale cutoff) (d_circulars d))) (ci_id c) = is_stale cutoff c.
Proof.
  intros HI Hc. apply Bool.eq_iff_eq_true. rewrite id_in_spec. split.
  - intros (c' & E & [Hc' Hs]%filter_elem)%list_elem_of_fmap.
    by rewrite (NoDup_map_same _ _ _ _ (di_circular_ids _ HI) Hc Hc' E).
  - intros Hs. apply (list_elem_of_fmap_2 ci_id). by apply filter_elem.
Qed.

Lemma sweep_evolves d now stale : evolves d (_sweep_once d now stale).1.
Proof.
  apply evolves_same_rules; unfold _sweep_once; rewrite ?foldl_add_transition; [|done..].
  intros HI. set (cutoff := utc_us now - stale). set (victims := List.filter _ _).
  pose proof HI as [Hc Hr Ho Ht Hn Hm Hci Hcl Hf1 Hf4 Hf2 Hf3 Hf5 Hfk]. split; simpl; try done.
  - apply db_checks_iff in Hc as (Hcc & ? & ? & ? & Htc). apply db_checks_iff. simpl.
    split_and!; try done; [apply forallb_update_where; [|done]; auto using set_state_check|].
    rewrite forallb_app Htc. cbn [andb]. apply forallb_forall. intros t (c & <- & Hv)%in_map_iff.
    apply filter_In in Hv as [_ Hs]. unfold transition_check. cbn [tr_to_state tr_from_state].
    apply andb_true_iff in Hs as [Hs _]. apply one_of_spec in Hs.
    by apply elem_of_cons in Hs as [-> | ->%list_elem_of_singleton].
  - intros c' (c & Hin & ->)%elem_of_update_where. rewrite (victim_ids d cutoff c HI Hin).
    unfold transitions_of. simpl. rewrite List.filter_app filter_map_comm. simpl.
    destruct (is_stale cutoff c) eqn:Es; simpl.
    + rewrite (filter_key_unique ci_id victims c); [|by apply NoDup_map_filter|by apply filter_elem].
      simpl. rewrite replay_snoc. pose proof (Ht _ Hin) as Hrp. unfold transitions_of in Hrp.
      rewrite Hrp. simpl. by rewrite bool_decide_eq_true_2.
    + rewrite (proj2 (filter_nil_all (λ x, ci_id x =? ci_id c) victims));
        [simpl; rewrite app_nil_r; by apply Ht|].
      intros v [Hv Hs]%filter_elem. apply Z.eqb_neq. intros E.
      rewrite (NoDup_map_same _ _ _ _ Hci Hv Hin E) in Hs. congruence.
  - by rewrite map_update_where.
  - intros c' (c & Hin & ->)%elem_of_update_where. destruct (id_in _ _); simpl; auto.
  - intros t [Hin|(c & -> & [Hv _]%filter_elem)%list_elem_of_fmap]%elem_of_app; simpl; auto.
Qed.
