(* ===== verification/PipelineFacts.v ===== *)
(** * The pipeline as a system

    Uploads, resumptions, crashes between checkpoints, decisions of officers
    and sweeps of the reaper as one step relation, with the invariant of every
    reachable database; what a run of the stages records and creates; the
    batched status query against the single one. *)
From S2P Require Import Prelude PyStr Sha256 Json Datetime Schemas Compiler.
From S2P Require Import PyText DocModels Policies Execution DbModels HitlService HitlServiceFacts Orchestrator.
From S2P Require Import OrchestratorFacts.

Open Scope string_scope.
Open Scope Z_scope.

Section system.
Context (nfkc utf8_ignore : string → string) (uuid : Z → string) (ie : string → string).
Context (extract : ClauseChunk → list sibling → res exn AuditedComplianceRule).

(** ** Reachable databases *)
Definition empty_db : database := Db [] [] [] [] [] [] 1.

Inductive pipeline_step : database → database → Prop :=
| step_upload d parse fb fn t url at_ today now :
    pipeline_step d
      (process_circular_pdf nfkc utf8_ignore uuid ie extract d parse fb fn t url at_ today now).1
| step_resume d cid t now :
    pipeline_step d (resume_circular uuid ie extract d cid t now).1
| step_crash_ingested d parse fb fn t url at_ today now i :
    ingest nfkc utf8_ignore ie d parse fb fn t url at_ today now = inr i → pipeline_step d (in_db i)
| step_crash_stage d cid clauses chunks now d1 d2 d3 completed results d' :
    stage_checkpoints extract d cid clauses chunks now = (d1, d2, d3, completed, results) →
    d' ∈ [d1; d2; d3] → pipeline_step d d'
| step_approve d id by_ notes now x :
    approve_transaction d id by_ notes now = Ok x → pipeline_step d x.1.1.1
| step_reject d id by_ notes now x :
    reject_review d id by_ notes now = Ok x → pipeline_step d x.1
| step_revise d id by_ notes now x :
    request_revision d id by_ notes now = Ok x → pipeline_step d x.1
| step_sweep d now stale :
    pipeline_step d (_sweep_once d now stale).1.

Definition reachable (d : database) : Prop := rtc pipeline_step empty_db d.

Lemma empty_db_inv : db_inv empty_db.
Proof.
  split; unfold reviewed, one_active, trail_ok; simpl; try done; try apply NoDup_nil_2; set_solver.
Qed.

Lemma pipeline_step_inv d d' : pipeline_step d d' → db_inv d → db_inv d'.
Proof.
  intros Hs HI. destruct Hs as [d parse fb fn t url at_ today now|d cid t now
    |d parse fb fn t url at_ today now i Hi|d cid clauses chunks now d1 d2 d3 co rs d' E Hin
    |d id by_ notes now x H|d id by_ notes now x H|d id by_ notes now x H|d now stale].
  - by apply (ev_inv _ _ (process_evolves _ _ _ _ _ _ _ _ _ _ _ _ _ _ HI)).
  - by apply (ev_inv _ _ (resume_evolves _ _ _ _ _ _ _ HI)).
  - pose proof (ingest_evolves nfkc utf8_ignore ie d parse fb fn t url at_ today now) as H.
    rewrite Hi in H. by apply (ev_inv _ _ H).
  - apply stage_checkpoints_evolves in E as (E1 & E2 & E3).
    pose proof (ev_inv _ _ E1 HI) as H1. pose proof (ev_inv _ _ E2 H1) as H2.
    pose proof (ev_inv _ _ E3 H2) as H3.
    by repeat (apply elem_of_cons in Hin as [->|Hin]; [done|]); apply not_elem_of_nil in Hin.
  - by eapply approve_transaction_inv.
  - by eapply reject_review_inv.
  - by eapply request_revision_inv.
  - by apply (ev_inv _ _ (sweep_evolves d now stale)).
Qed.

Lemma reachable_inv d : reachable d → db_inv d.
Proof.
  unfold reachable. intros H. assert (Hgen : ∀ a b, rtc pipeline_step a b → db_inv a → db_inv b).
  { intros a b Hab. induction Hab as [|a b c Hab _ IH]; [done|]. intros Ha. apply IH.
    by eapply pipeline_step_inv. }
  by apply (Hgen _ _ H), empty_db_inv.
Qed.


(** C28. Every row the pipeline writes satisfies the CHECK constraints of its
    table: the states of circulars, clauses, transitions, rules and reviews are
    the declared ones, digests are 64 characters long, and a review has a
    resolution time exactly when it is decided. *)
Theorem reachable_well_typed d : reachable d → db_checks d = true.
Proof. intros H%reachable_inv. apply (di_checks _ H). Qed.

(** The audit trail is complete: the recorded transitions of a circular,
    replayed from INGESTED, chain and end in its current state, whatever
    crashed, was reviewed or was swept in between. *)
Theorem reachable_audit_trail d c :
  reachable d → c ∈ d_circulars d →
  replay "INGESTED" (transitions_of d (ci_id c)) = Some (ci_processing_state c).
Proof. intros H%reachable_inv Hc. by apply (di_trail _ H). Qed.

(** Ingestion and compilation never activate a rule: after an upload or a
    resumption, successful or not, every active rule was active before with
    the same contents. *)
Theorem processing_never_activates d parse fb fn t url at_ today now cid :
  reachable d →
  (∀ r, r ∈ d_rules (process_circular_pdf nfkc utf8_ignore uuid ie extract d parse fb fn t url at_
                       today now).1 →
     ru_is_active r = true → r ∈ d_rules d)
  ∧ (∀ r, r ∈ d_rules (resume_circular uuid ie extract d cid t now).1 → ru_is_active r = true → r ∈ d_rules d).
Proof.
  intros H%reachable_inv. split.
  - by apply (ev_active _ _ (process_evolves _ _ _ _ _ _ _ _ _ _ _ _ _ _ H)).
  - by apply (ev_active _ _ (resume_evolves _ _ _ _ _ _ _ H)).
Qed.

(** ** What a run creates *)

(** Every rule outside [ids0] has a pending review on a clause of the run. *)
Definition covered (clauses ids0 : list Z) (d : database) : Prop :=
  ∀ r, r ∈ d_rules d → ru_id r ∉ ids0 →
    ru_clause_id r ∈ clauses
    ∧ ∃ v, v ∈ d_reviews d ∧ rv_clause_id v = ru_clause_id r ∧ rv_status v = "PENDING".

(** Reviews keep their clause and status; no rule is added. *)
Definition rv_mono (d d' : database) : Prop :=
  ∀ v, v ∈ d_reviews d →
    ∃ v', v' ∈ d_reviews d' ∧ rv_clause_id v' = rv_clause_id v ∧ rv_status v' = rv_status v.
Definition ru_sub (d d' : database) : Prop :=
  ∀ r', r' ∈ d_rules d' → ∃ r, r ∈ d_rules d ∧ ru_id r = ru_id r' ∧ ru_clause_id r = ru_clause_id r'.

Lemma covered_keeps clauses ids0 d d' :
  rv_mono d d' → ru_sub d d' → covered clauses ids0 d → covered clauses ids0 d'.
Proof.
  intros Hv Hr Hc r' Hr' Hid. destruct (Hr _ Hr') as (r & Hin & E1 & E2). rewrite -E1 in Hid.
  destruct (Hc _ Hin Hid) as (Hcl & v & Hvin & E3 & E4). rewrite -E2. split; [done|].
  destruct (Hv _ Hvin) as (v' & Hv' & E5 & E6). exists v'. by rewrite E5 E6.
Qed.

Lemma rv_mono_incl d d' : (∀ v, v ∈ d_reviews d → v ∈ d_reviews d') → rv_mono d d'.
Proof. intros H v Hv%H. by exists v. Qed.

Lemma rv_mono_update d t p f :
  d_reviews t = update_where p f (d_reviews d) →
  (∀ v, rv_clause_id (f v) = rv_clause_id v) → (∀ v, rv_status (f v) = rv_status v) → rv_mono d t.
Proof.
  intros Ht H1 H2 v Hv. exists (if p v then f v else v). rewrite Ht.
  split; [apply elem_of_update_where; by exists v|]. destruct (p v); by rewrite ?H1 ?H2.
Qed.

Lemma ru_sub_incl d d' : (∀ r, r ∈ d_rules d' → r ∈ d_rules d) → ru_sub d d'.
Proof. intros H r Hr%H. by exists r. Qed.

Lemma ru_sub_update d p f :
  (∀ r, ru_id (f r) = ru_id r) → (∀ r, ru_clause_id (f r) = ru_clause_id r) →
  ru_sub d (set_rules d (update_where p f (d_rules d))).
Proof.
  intros H1 H2 r' (r & Hr & ->)%elem_of_update_where. exists r. by destruct (p r); rewrite ?H1 ?H2.
Qed.

Lemma insert_review_elem d row d' v :
  insert_review ie d row = Ok (d', v) →
  v = row (d_next d) ∧ v ∈ d_reviews d' ∧ (∀ w, w ∈ d_reviews d → w ∈ d_reviews d').
Proof.
  unfold insert_review. destruct (existsb _ _); [done|]. destruct (negb _); [done|].
  intros [= <- <-]. simpl. split_and!; [done|apply elem_of_snoc|]. intros w Hw. apply elem_of_app. by left.
Qed.

Lemma add_flag_reviews_mono flags d clause pk t codes acc d' l :
  add_flag_reviews uuid ie d clause pk t codes acc flags = Ok (d', l) →
  ∀ w, w ∈ d_reviews d → w ∈ d_reviews d'.
Proof.
  revert d codes acc. induction flags as [|f flags IH]; intros d codes acc H; [by injection H as <- _|].
  simpl in H. destruct (one_of codes _); [by eapply IH|].
  apply res_bind_Ok in H as ([d1 rev] & H1 & H). apply insert_review_elem in H1 as (_ & _ & H1).
  intros w Hw. eapply IH; [done|]. auto.
Qed.

(** A rule without reviews gets a pending one. *)
Lemma store_reviews_pending d clause pk rid t flags d' l :
  store_reviews uuid ie d clause pk rid t flags = Ok (d', l) →
  (∀ w, w ∈ d_reviews d → w ∈ d_reviews d')
  ∧ (reviews_of d pk = [] → ∃ v, v ∈ d_reviews d' ∧ rv_clause_id v = cl_id clause ∧ rv_status v = "PENDING").
Proof.
  unfold store_reviews. intros H.
  destruct flags as [|f flags]; [destruct (reviews_of d pk) as [|v0 vs] eqn:E|].
  - apply res_bind_Ok in H as ([d1 rev] & H1 & H). injection H as <- _.
    apply insert_review_elem in H1 as (-> & Hin & Hm). split; [done|]. intros _. by eexists.
  - injection H as <- _. by split.
  - split; [by eapply add_flag_reviews_mono|]. intros E. rewrite E in H. simpl in H.
    apply res_bind_Ok in H as ([d1 rev] & H1 & H). apply insert_review_elem in H1 as (-> & Hin & _).
    eexists. split; [by eapply add_flag_reviews_mono|done].
Qed.

(** Storing a rule updates the clause's row or adds one with a fresh identity. *)
Definition adds_rule (d d' : database) (cid pk : Z) : Prop :=
  d_reviews d' = d_reviews d
  ∧ (ru_sub d d'
     ∨ pk = d_next d ∧ ∀ r, r ∈ d_rules d' → r ∈ d_rules d ∨ ru_clause_id r = cid).

Lemma insert_rule_adds d row d' pk cid :
  (∀ i, ru_clause_id (row i) = cid) → insert_rule ie d row = Ok (d', pk) → adds_rule d d' cid pk.
Proof.
  intros Hc. unfold insert_rule. destruct (existsb _ _); [done|]. intros [= <- <-].
  split; [done|]. right. split; [done|]. simpl.
  intros r [Hr| ->%list_elem_of_singleton]%elem_of_app; [by left|by right].
Qed.

Lemma store_rule_adds d clause rid t c d' pk :
  store_rule ie d clause rid t c = Ok (d', pk) → adds_rule d d' (cl_id clause) pk.
Proof.
  unfold store_rule. intros ([r|] & _ & H)%res_bind_Ok; [|by eapply insert_rule_adds in H].
  injection H as <- <-. split; [done|]. left. by apply ru_sub_update.
Qed.

Lemma fresh_no_reviews d pk : db_inv d → d_next d <= pk → reviews_of d pk = [].
Proof.
  intros HI Hle. unfold reviews_of. apply filter_nil_all. intros v Hv. unfold refers_to.
  destruct (rv_compiled_rule_id v) as [i|] eqn:E; [|done]. apply Z.eqb_neq.
  pose proof (di_review_fk _ HI v i Hv E). lia.
Qed.

(** Adding a rule and then a review when it had none keeps the cover. *)
Lemma covered_add clauses ids0 d d1 d2 cid pk :
  db_inv d → cid ∈ clauses → covered clauses ids0 d → adds_rule d d1 cid pk →
  d_rules d2 = d_rules d1 → (∀ w, w ∈ d_reviews d1 → w ∈ d_reviews d2) →
  (reviews_of d1 pk = [] → ∃ v, v ∈ d_reviews d2 ∧ rv_clause_id v = cid ∧ rv_status v = "PENDING") →
  covered clauses ids0 d2.
Proof.
  intros HI Hcid Hc [Hrv [Hs|[-> Hnew]]] Hr Hm Hp.
  - apply (covered_keeps _ _ d); [apply rv_mono_incl; rewrite -Hrv; exact Hm| |done].
    intros r' Hr'. rewrite Hr in Hr'. auto.
  - destruct Hp as (v & Hv & E1 & E2).
    { unfold reviews_of. rewrite Hrv. by apply fresh_no_reviews. }
    intros r Hin Hid. rewrite Hr in Hin. destruct (Hnew _ Hin) as [Hold|E3].
    + destruct (Hc _ Hold Hid) as (? & w & Hw & ? & ?). split; [done|]. exists w. split_and!; try done.
      apply Hm. by rewrite Hrv.
    + rewrite E3. split; [done|]. by exists v.
Qed.

Lemma delete_placeholders_covered clauses ids0 d cid :
  covered clauses ids0 d → covered clauses ids0 (delete_placeholders d cid).
Proof.
  apply covered_keeps.
  - by eapply rv_mono_update.
  - apply ru_sub_incl. intros r [Hr _]%filter_elem. done.
Qed.

Lemma compile_and_persist_covered clauses ids0 d clause audited t now d' pk l :
  db_inv d → cl_id clause ∈ clauses → covered clauses ids0 d →
  compile_and_persist_rules uuid ie d clause audited t now = Ok (d', pk, l) → covered clauses ids0 d'.
Proof.
  intros HI Hcl Hc. unfold compile_and_persist_rules.
  pose proof (ev_inv _ _ (delete_placeholders_evolves d (cl_id clause)) HI) as HI0.
  apply (delete_placeholders_covered _ _ _ (cl_id clause)) in Hc.
  destruct (compile_audited_rule audited 1 now) as [c|]; [|done].
  intros ([d1 pk1] & H1 & H)%res_bind_Ok. apply res_bind_Ok in H as ([d2 l2] & H2 & H).
  injection H as <- <- <-. pose proof (store_rule_adds _ _ _ _ _ _ _ H1) as Ha.
  apply store_rule_evolves in H1 as (_ & Hia & Hlt); [|done].
  pose proof (store_reviews_pending _ _ _ _ _ _ _ _ H2) as [Hm Hp].
  apply store_reviews_evolves in H2 as [_ Hr2]; [|done..].
  apply (covered_keeps _ _ d2); [by apply rv_mono_incl|by apply ru_sub_update|].
  by eapply covered_add.
Qed.

Lemma failed_clause_covered clauses ids0 d clause chunk e t d' pk :
  db_inv d → cl_id clause ∈ clauses → covered clauses ids0 d →
  _persist_failed_clause_rule uuid ie d clause chunk e t = Ok (d', pk) → covered clauses ids0 d'.
Proof.
  intros HI Hcl Hc. unfold _persist_failed_clause_rule. intros (ex & Hex & H)%res_bind_Ok.
  apply res_bind_Ok in H as ([d1 pk1] & H1 & H). apply res_bind_Ok in H as (exv & Hexv & H).
  assert (adds_rule d d1 (cl_id clause) pk1) as Ha.
  { destruct ex as [r|]; [|by eapply insert_rule_adds in H1]. injection H1 as <- <-. split; [done|]. left.
    by apply ru_sub_update. }
  destruct exv as [v|].
  - injection H as <- _. apply scalar_one_Some, filter_singleton_elem in Hexv as [Hv Hp].
    assert (covered clauses ids0 d1) as Hc1.
    { eapply covered_add; try done. intros E. exfalso. apply not_elem_of_nil with v. rewrite -E.
      apply reviews_of_elem. split; [done|]. apply andb_true_iff in Hp as [[_ Hp]%andb_true_iff _].
      unfold refers_to in Hp. destruct (rv_compiled_rule_id v); [|done]. by apply Z.eqb_eq in Hp as ->. }
    revert Hc1. apply covered_keeps; [|by apply ru_sub_incl].
    by eapply rv_mono_update.
  - apply res_bind_Ok in H as ([d2 v2] & H2 & H). injection H as <- _.
    assert (d_rules d2 = d_rules d1) as Hr.
    { unfold insert_review in H2. destruct (existsb _ _); [done|]. destruct (negb _); [done|].
      by injection H2 as <- _. }
    apply insert_review_elem in H2 as (-> & Hin & Hm).
    eapply covered_add; try done. intros _. by eexists.
Qed.

Lemma update_clause_covered clauses ids0 d id f :
  covered clauses ids0 d → covered clauses ids0 (update_clause d id f).
Proof. apply covered_keeps; [by apply rv_mono_incl|by apply ru_sub_incl]. Qed.

Lemma compile_clause_covered clauses ids0 d chunks results clause t now d' :
  db_inv d → cl_id clause ∈ clauses → covered clauses ids0 d →
  compile_clause uuid ie d chunks results clause t now = Ok d' → covered clauses ids0 d'.
Proof.
  intros HI Hcl Hc. unfold compile_clause. set (d0 := update_clause d _ _).
  assert (HI0 : db_inv d0)
    by (apply update_clauses_inv; [done|intros c; by apply set_clause_status_check|done]).
  assert (Hc0 : covered clauses ids0 d0) by by apply update_clause_covered.
  destruct (result_for results clause) as [audited|e].
  - intros ([[d1 pk] l] & H1 & H)%res_bind_Ok. injection H as <-.
    apply update_clause_covered. by eapply compile_and_persist_covered.
  - intros ([d1 pk] & H1 & H)%res_bind_Ok. injection H as <-.
    apply update_clause_covered. by eapply failed_clause_covered.
Qed.

Lemma compile_clauses_covered todo clauses ids0 d completed chunks results t now d' :
  db_inv d → (∀ id, id ∈ todo → id ∈ clauses) → covered clauses ids0 d →
  compile_clauses uuid ie d completed todo chunks results t now = Ok d' → covered clauses ids0 d'.
Proof.
  revert d. induction todo as [|id todo IH]; intros d HI Hsub Hc H; [by injection H as <-|].
  assert (Hsub' : ∀ i, i ∈ todo → i ∈ clauses) by (intros i Hi; apply Hsub; by right).
  simpl in H. destruct (clause_of d id) as [clause|] eqn:Ecl; [|by eapply IH].
  destruct (id_in completed id); [by eapply IH|].
  apply res_bind_Ok in H as (d1 & H1 & H). apply clause_of_Some in Ecl as [_ <-].
  eapply (IH d1); try done.
  - by apply (ev_inv _ _ (compile_clause_evolves _ _ _ _ _ _ _ _ _ HI H1)).
  - eapply compile_clause_covered; [done| |done..]. apply Hsub. by left.
Qed.

(** ** Tables the stages leave alone *)
Definition same_tables (d d' : database) : Prop := d_rules d' = d_rules d ∧ d_reviews d' = d_reviews d.

#[local] Instance same_tables_preorder : PreOrder same_tables.
Proof. split; [done|]. intros a b c [? ?] [? ?]. split; congruence. Qed.

Lemma transition_tables d id target by_ err details now :
  same_tables d (transition_circular_state d id target by_ err details now).
Proof. unfold transition_circular_state. by destruct (circular_of d id). Qed.

Lemma record_results_tables ids rs d : same_tables d (foldl (record_result ids) d rs).
Proof.
  revert d. induction rs as [|r rs IH]; intros d; simpl; [done|]. etrans; [|apply IH].
  unfold record_result. by destruct (clause_matching _ _ _).
Qed.

Lemma stage_checkpoints_tables d cid clauses chunks now d1 d2 d3 completed results :
  stage_checkpoints extract d cid clauses chunks now = (d1, d2, d3, completed, results) →
  same_tables d d3.
Proof.
  intros [= <- <- <- <- <-]. unfold begin_compilation, record_extraction.
  etrans; [|apply transition_tables]. etrans; [|apply transition_tables].
  etrans; [|apply record_results_tables]. unfold begin_extraction.
  etrans; [|apply transition_tables]. done.
Qed.

Lemma transition_circular_of d id target by_ err details now c :
  circular_of d id = Some c →
  ∃ err', circular_of (transition_circular_state d id target by_ err details now) id
            = Some (set_state c target err' now)
          ∧ (is_Some err → err' = err).
Proof.
  intros E. unfold transition_circular_state. rewrite E. unfold circular_of in *. simpl.
  rewrite find_update_where; [|done]. rewrite E. simpl.
  apply find_row_Some in E as [_ ->%Z.eqb_eq]. rewrite Z.eqb_refl.
  eexists. split; [done|]. by intros [? ->].
Qed.

(** No rule skips review: when a run of the stages creates a rule, compiled
    or a placeholder for a failed extraction, the rule is inactive, a pending
    review of its clause exists, and the circular ends in AWAITING_HITL. *)
Theorem new_rules_await_review d cid clauses chunks t now d' result r :
  reachable d →
  _execute_processing_stages uuid ie extract d cid clauses chunks t now = (d', Ok (Some result)) →
  r ∈ d_rules d' → ru_id r ∉ map ru_id (d_rules d) →
  ru_is_active r = false
  ∧ (∃ v, v ∈ d_reviews d' ∧ rv_clause_id v = ru_clause_id r ∧ rv_status v = "PENDING")
  ∧ ps_processing_state result = "AWAITING_HITL".
Proof.
  intros HI%reachable_inv H Hr Hnew.
  pose proof (execute_evolves uuid ie extract d cid clauses chunks t now HI) as Hev. rewrite H in Hev.
  unfold _execute_processing_stages in H.
  destruct (stage_checkpoints _ _ _ _ _ _) as [[[[d1 d2] d3] completed] results] eqn:E.
  pose proof (stage_checkpoints_tables _ _ _ _ _ _ _ _ _ _ E) as [Hr3 Hv3].
  apply stage_checkpoints_evolves in E as (E1 & E2 & E3).
  assert (HI3 : db_inv d3) by by apply (ev_inv _ _ E3), (ev_inv _ _ E2), (ev_inv _ _ E1).
  destruct (compile_clauses _ _ _ _ _ _ _ _ _) as [d4|e] eqn:Ec; [|done].
  injection H as <- Hres. set (open_ := List.filter pending_or_blocking (reviews_in d4 clauses)) in *.
  destruct (transition_tables d4 cid (match open_ with [] => "APPROVED" | _ => "AWAITING_HITL" end)
    "orchestrator" None (Some (JObj [("total_clauses", count_json (length clauses));
      ("compiled_rules", count_json (length (List.filter ru_is_compiled (rules_in d4 clauses))));
      ("pending_reviews", count_json (length open_))])) now) as [Hr5 Hv5].
  assert (Hcov : covered clauses (map ru_id (d_rules d)) d4).
  { eapply compile_clauses_covered; [exact HI3|done| |exact Ec]. intros q Hq Hid. destruct Hid.
    rewrite Hr3 in Hq. by apply (list_elem_of_fmap_2 ru_id). }
  unfold finish_compilation in Hr, Hres. fold open_ in Hr, Hres. rewrite Hr5 in Hr.
  destruct (Hcov _ Hr Hnew) as (Hcl & v & Hv & Ev1 & Ev2). split_and!.
  - destruct (ru_is_active r) eqn:Ea; [|done]. destruct Hnew. apply (list_elem_of_fmap_2 ru_id).
    apply (ev_active _ _ Hev); [|done]. unfold finish_compilation. fold open_. by rewrite Hr5.
  - exists v. unfold finish_compilation. fold open_. by rewrite Hv5.
  - assert (open_ ≠ []) as Hne.
    { intros Eo. apply (not_elem_of_nil v). rewrite -Eo. apply filter_elem. split.
      - apply filter_elem. split; [done|]. rewrite Ev1. by apply id_in_spec.
      - unfold pending_or_blocking. by rewrite Ev2. }
    destruct open_ as [|o os]; [done|].
    destruct (circular_of _ cid) as [c|] eqn:E5 in Hres; [|done]. injection Hres as <-. simpl.
    unfold transition_circular_state in E5. destruct (circular_of d4 cid) as [c4|] eqn:E4; [|congruence].
    unfold circular_of in E4, E5. simpl in E5. rewrite find_update_where in E5; [|done].
    rewrite E4 in E5. simpl in E5. apply find_row_Some in E4 as [_ E4%Z.eqb_eq].
    rewrite E4 Z.eqb_refl in E5. by injection E5 as <-.
Qed.

(** ** The audit trail of a run *)

(** Compiling clauses touches neither circulars nor the audit trail. *)
Definition same_trail (d d' : database) : Prop :=
  d_circulars d' = d_circulars d ∧ d_transitions d' = d_transitions d.

#[local] Instance same_trail_preorder : PreOrder same_trail.
Proof. split; [done|]. intros a b c [? ?] [? ?]. split; congruence. Qed.

Lemma insert_rule_trail d row d' pk : insert_rule ie d row = Ok (d', pk) → same_trail d d'.
Proof. unfold insert_rule. destruct (existsb _ _); [done|]. by intros [= <- _]. Qed.

Lemma insert_review_trail d row d' v : insert_review ie d row = Ok (d', v) → same_trail d d'.
Proof.
  unfold insert_review. destruct (existsb _ _); [done|]. destruct (negb _); [done|]. by intros [= <- _].
Qed.

Lemma add_flag_reviews_trail flags d clause pk t codes acc d' l :
  add_flag_reviews uuid ie d clause pk t codes acc flags = Ok (d', l) → same_trail d d'.
Proof.
  revert d codes acc. induction flags as [|f flags IH]; intros d codes acc H; [by injection H as <- _|].
  simpl in H. destruct (one_of codes _); [by eapply IH|].
  apply res_bind_Ok in H as ([d1 rev] & H1 & H). apply insert_review_trail in H1.
  etrans; [exact H1|by eapply IH].
Qed.

Lemma compile_and_persist_trail d clause audited t now d' pk l :
  compile_and_persist_rules uuid ie d clause audited t now = Ok (d', pk, l) → same_trail d d'.
Proof.
  unfold compile_and_persist_rules. destruct (compile_audited_rule audited 1 now) as [c|]; [|done].
  intros ([d1 pk1] & H1 & H)%res_bind_Ok. apply res_bind_Ok in H as ([d2 l2] & H2 & H).
  injection H as <- <- <-.
  assert (same_trail d d1) as T1.
  { unfold store_rule in H1. apply res_bind_Ok in H1 as ([r|] & _ & H1).
    - by injection H1 as <- _.
    - by apply insert_rule_trail in H1. }
  etrans; [exact T1|]. change (same_trail d1 d2). unfold store_reviews in H2.
  destruct (hitl_flags c); [destruct (reviews_of d1 pk1)|].
  - apply res_bind_Ok in H2 as ([d3 v] & H3 & H2). injection H2 as <- _. by eapply insert_review_trail.
  - by injection H2 as <- _.
  - by eapply add_flag_reviews_trail.
Qed.

Lemma failed_clause_trail d clause chunk e t d' pk :
  _persist_failed_clause_rule uuid ie d clause chunk e t = Ok (d', pk) → same_trail d d'.
Proof.
  unfold _persist_failed_clause_rule. intros (ex & _ & H)%res_bind_Ok.
  apply res_bind_Ok in H as ([d1 pk1] & H1 & H). apply res_bind_Ok in H as (exv & _ & H).
  assert (same_trail d d1) as T1.
  { destruct ex; [by injection H1 as <- _|by apply insert_rule_trail in H1]. }
  etrans; [exact T1|]. destruct exv; [by injection H as <- _|].
  apply res_bind_Ok in H as ([d2 v] & H2 & H). injection H as <- _. by eapply insert_review_trail.
Qed.

Lemma compile_clauses_trail todo d completed chunks results t now d' :
  compile_clauses uuid ie d completed todo chunks results t now = Ok d' → same_trail d d'.
Proof.
  revert d. induction todo as [|id todo IH]; intros d H; [by injection H as <-|].
  simpl in H. destruct (clause_of d id) as [clause|]; [|by apply IH].
  destruct (id_in completed id); [by apply IH|].
  apply res_bind_Ok in H as (d1 & H1 & H). etrans; [|by apply IH]. clear H IH.
  unfold compile_clause in H1. destruct (result_for results clause).
  - apply res_bind_Ok in H1 as ([[d2 pk] l] & H2 & H1). injection H1 as <-.
    by apply compile_and_persist_trail in H2.
  - apply res_bind_Ok in H1 as ([d2 pk] & H2 & H1). injection H1 as <-.
    by apply failed_clause_trail in H2.
Qed.

(** States a circular went through in a list of audit rows. *)
Definition moves (ts : list CircularStateTransition) : list (option string * string) :=
  map (λ t, (tr_from_state t, tr_to_state t)) ts.

(** [d'] has one audit row more, which moves the circular to [to]. *)
Definition appends (d d' : database) (cid : Z) (from to : string) : Prop :=
  ∃ t c', d_transitions d' = (d_transitions d ++ [t])%list
          ∧ tr_circular_id t = cid ∧ tr_from_state t = Some from ∧ tr_to_state t = to
          ∧ circular_of d' cid = Some c' ∧ ci_processing_state c' = to.

Lemma transition_appends d d0 id target by_ err details now c :
  same_trail d0 d → circular_of d0 id = Some c →
  appends d0 (transition_circular_state d id target by_ err details now) id (ci_processing_state c) target.
Proof.
  intros [Hc Ht] E. assert (E0 : circular_of d id = Some c) by (unfold circular_of in *; by rewrite Hc).
  destruct (transition_circular_of d id target by_ err details now c E0) as (err' & E' & _).
  pose proof (circular_of_Some _ _ _ E0) as [_ Hid].
  unfold appends. rewrite E'. unfold transition_circular_state. rewrite E0. simpl. rewrite Ht.
  eexists _, _. by split_and!.
Qed.

Lemma record_results_trail ids rs d : same_trail d (foldl (record_result ids) d rs).
Proof.
  revert d. induction rs as [|r rs IH]; intros d; simpl; [done|]. etrans; [|apply IH].
  unfold record_result. by destruct (clause_matching _ _ _).
Qed.

(** The first three moves of a run. *)
Lemma stage_checkpoints_moves d cid clauses chunks now d1 d2 d3 completed results c :
  circular_of d cid = Some c →
  stage_checkpoints extract d cid clauses chunks now = (d1, d2, d3, completed, results) →
  appends d d1 cid (ci_processing_state c) "EXTRACTING" ∧ appends d1 d2 cid "EXTRACTING" "EXTRACTED"
  ∧ appends d2 d3 cid "EXTRACTED" "COMPILING".
Proof.
  intros Hc [= E1 E2 E3 _ _].
  assert (A1 : appends d d1 cid (ci_processing_state c) "EXTRACTING")
    by (rewrite -E1; by apply transition_appends).
  pose proof A1 as (t1 & c1 & _ & _ & _ & _ & C1 & S1). rewrite E1 in E2.
  assert (A2 : appends d1 d2 cid "EXTRACTING" "EXTRACTED")
    by (rewrite -E2 -S1; apply transition_appends; [apply record_results_trail|done]).
  split; [done|]. split; [done|]. rewrite E1 E2 in E3.
  destruct A2 as (t2 & c2 & _ & _ & _ & _ & C2 & S2).
  rewrite -E3 -S2. by apply transition_appends.
Qed.

(** A run of the stages records exactly four transitions, into EXTRACTING,
    EXTRACTED, COMPILING and its outcome: FAILED when it raises, AWAITING_HITL
    or APPROVED when it returns; the circular is left in the recorded outcome. *)
Theorem execute_trail d cid clauses chunks t now d' out c :
  circular_of d cid = Some c →
  _execute_processing_stages uuid ie extract d cid clauses chunks t now = (d', out) →
  ∃ ts final c', d_transitions d' = (d_transitions d ++ ts)%list
    ∧ Forall (λ t, tr_circular_id t = cid) ts
    ∧ moves ts = [(Some (ci_processing_state c), "EXTRACTING"); (Some "EXTRACTING", "EXTRACTED");
                  (Some "EXTRACTED", "COMPILING"); (Some "COMPILING", final)]
    ∧ circular_of d' cid = Some c' ∧ ci_processing_state c' = final
    ∧ (if is_ok out then final = "AWAITING_HITL" ∨ final = "APPROVED" else final = "FAILED").
Proof.
  intros Hc. unfold _execute_processing_stages.
  destruct (stage_checkpoints _ _ _ _ _ _) as [[[[d1 d2] d3] completed] results] eqn:E.
  destruct (stage_checkpoints_moves _ _ _ _ _ _ _ _ _ _ _ Hc E)
    as ((t1 & c1 & T1 & I1 & F1 & G1 & _) & (t2 & c2 & T2 & I2 & F2 & G2 & _)
        & (t3 & c3 & T3 & I3 & F3 & G3 & C3 & S3)).
  assert (Hfin : ∀ dx final, appends d3 dx cid "COMPILING" final →
    ∃ ts c', d_transitions dx = (d_transitions d ++ ts)%list
      ∧ Forall (λ t, tr_circular_id t = cid) ts
      ∧ moves ts = [(Some (ci_processing_state c), "EXTRACTING"); (Some "EXTRACTING", "EXTRACTED");
                    (Some "EXTRACTED", "COMPILING"); (Some "COMPILING", final)]
      ∧ circular_of dx cid = Some c' ∧ ci_processing_state c' = final).
  { intros dx final (t4 & c4 & T4 & I4 & F4 & G4 & C4 & S4). exists [t1; t2; t3; t4], c4.
    rewrite T4 T3 T2 T1 -!app_assoc /=. split_and!; try done; [by repeat constructor|].
    unfold moves. simpl. by rewrite F1 F2 F3 F4 G1 G2 G3 G4. }
  destruct (compile_clauses _ _ _ _ _ _ _ _ _) as [d4|e] eqn:Ec.
  - intros [= <- <-]. apply compile_clauses_trail in Ec.
    set (final := match List.filter pending_or_blocking (reviews_in d4 clauses) with
                  | [] => "APPROVED" | _ => "AWAITING_HITL" end).
    destruct (Hfin (finish_compilation d4 cid clauses now) final) as (ts & c' & H1 & H2 & H3 & H4 & H5).
    { unfold finish_compilation. fold final. rewrite -S3. by apply transition_appends. }
    exists ts, final, c'. split_and!; try done. simpl. unfold final.
    destruct (List.filter _ _); [by right|by left].
  - intros [= <- <-]. destruct (Hfin (fail_circular d3 cid e now) "FAILED") as (ts & c' & H).
    { rewrite -S3. by apply transition_appends. }
    exists ts, "FAILED", c'. destruct H as (H1 & H2 & H3 & H4 & H5). by split_and!.
Qed.

(** C29. A run that raises leaves no trace in rules and reviews: both tables are
    exactly as before the run, and the circular is FAILED with the first 4000
    characters of the exception's text. *)
Theorem execute_failure_atomic d cid clauses chunks t now d' e c :
  circular_of d cid = Some c →
  _execute_processing_stages uuid ie extract d cid clauses chunks t now = (d', Raise e) →
  d_rules d' = d_rules d ∧ d_reviews d' = d_reviews d
  ∧ ∃ c', circular_of d' cid = Some c' ∧ ci_processing_state c' = "FAILED"
          ∧ ci_error_message c' = Some (utake 4000 (exn_str e)).
Proof.
  intros Hc. unfold _execute_processing_stages.
  destruct (stage_checkpoints _ _ _ _ _ _) as [[[[d1 d2] d3] completed] results] eqn:E.
  destruct (stage_checkpoints_moves _ _ _ _ _ _ _ _ _ _ _ Hc E)
    as (_ & _ & (t3 & c3 & _ & _ & _ & _ & C3 & _)).
  apply stage_checkpoints_tables in E as [Hr Hv].
  destruct (compile_clauses _ _ _ _ _ _ _ _ _) as [d4|e'] eqn:Ec; [done|]. intros [= <- ->].
  destruct (transition_tables d3 cid "FAILED" "orchestrator"
    (Some (utake 4000 (exn_str e))) None now) as [Hr' Hv'].
  unfold fail_circular. rewrite Hr' Hv'. split_and!; [done..|].
  destruct (transition_circular_of d3 cid "FAILED" "orchestrator"
    (Some (utake 4000 (exn_str e))) None now c3 C3) as (err' & -> & He).
  eexists. split_and!; [done|done|]. simpl. by apply He.
Qed.
End system.

(** * The status queries

    The grouped SQL aggregation of [get_circular_statuses_batch] against
    [get_circular_status], and the effect of a sweep of the reaper. *)

(** ** Counting *)
Lemma count_where_nil {A} (p : A → bool) : count_where p [] = 0.
Proof. done. Qed.

Lemma count_where_step {A} (p : A → bool) x l : count_where p (x :: l) = (if p x then 1 else 0) + count_where p l.
Proof. unfold count_where. simpl. destruct (p x); simpl length; lia. Qed.

Lemma count_where_app {A} (p : A → bool) l l' : count_where p (l ++ l') = count_where p l + count_where p l'.
Proof. unfold count_where. rewrite List.filter_app length_app. lia. Qed.

Lemma count_where_ext {A} (p q : A → bool) l : (∀ x, x ∈ l → p x = q x) → count_where p l = count_where q l.
Proof.
  induction l as [|x l IH]; intros H; [done|]. rewrite !count_where_step (H x); [|by left].
  rewrite IH; [done|]. intros y Hy. apply H. by right.
Qed.

Lemma count_where_none {A} (p : A → bool) l : (∀ x, x ∈ l → p x = false) → count_where p l = 0.
Proof. intros H. unfold count_where. by rewrite (proj2 (filter_nil_all p l) H). Qed.

Lemma count_where_map {A B} (f : A → B) (p : B → bool) l : count_where p (map f l) = count_where (λ x, p (f x)) l.
Proof. unfold count_where. by rewrite filter_map_comm length_map. Qed.

Lemma count_where_filter {A} (p q : A → bool) l :
  count_where p (List.filter q l) = count_where (λ x, q x && p x) l.
Proof.
  induction l as [|x l IH]; [done|]. rewrite count_where_step -IH. simpl.
  destruct (q x); simpl; [by rewrite count_where_step|done].
Qed.

Lemma existsb_count {A} (p : A → bool) l : existsb p l = (count_where p l >? 0).
Proof.
  induction l as [|x l IH]; [done|]. rewrite count_where_step. simpl.
  assert (0 <= count_where p l) by (unfold count_where; lia).
  destruct (p x); simpl; [symmetry; apply Z.gtb_lt; lia|exact IH].
Qed.

(** ** GROUP BY *)
Lemma group_get_cons k n counts j :
  group_get ((k, n) :: counts) j = if k =? j then n else group_get counts j.
Proof. unfold group_get. simpl. by destruct (k =? j). Qed.

Lemma group_get_add counts k n j :
  is_Some (find (λ kv, kv.1 =? k) counts) →
  group_get (map (λ kv, if kv.1 =? k then (kv.1, kv.2 + n) else kv) counts) j
  = group_get counts j + if k =? j then n else 0.
Proof.
  induction counts as [|[k0 n0] counts IH]; intros Hs; [by destruct Hs|]. simpl in *.
  destruct (Z.eqb_spec k0 k) as [->|Hk]; rewrite !group_get_cons.
  - destruct (Z.eqb_spec k j) as [->|Hj]; [done|].
    clear IH Hs. induction counts as [|[k1 n1] counts IH]; simpl; [by rewrite Z.add_0_r|].
    destruct (Z.eqb_spec k1 k) as [->|]; rewrite !group_get_cons; [|rewrite IH; destruct (k1 =? j); lia].
    destruct (Z.eqb_spec k j); [done|exact IH].
  - rewrite IH; [|done]. destruct (Z.eqb_spec k0 j) as [->|]; [|done].
    destruct (Z.eqb_spec k j); [congruence|lia].
Qed.

(** The count of a group is the count of its rows. *)
Lemma group_count_spec {R} (key : R → Z) p rows j :
  group_get (group_count key p rows) j = count_where (λ r, (key r =? j) && p r) rows.
Proof.
  induction rows as [|r rows IH]; [done|]. rewrite count_where_step -IH. simpl.
  destruct (find (λ kv, kv.1 =? key r) (group_count key p rows)) as [kv|] eqn:E.
  - rewrite group_get_add; [|by rewrite E]. destruct (key r =? j), (p r); simpl; lia.
  - rewrite group_get_cons. destruct (Z.eqb_spec (key r) j) as [<-|]; simpl; [|lia].
    unfold group_get at 1. rewrite E. destruct (p r); lia.
Qed.

(** ** The join *)
Lemma count_id_in {R} (f : R → Z) (p : R → bool) x l rows :
  x ∉ l →
  count_where (λ r, id_in (x :: l) (f r) && p r) rows
  = count_where (λ r, (f r =? x) && p r) rows + count_where (λ r, id_in l (f r) && p r) rows.
Proof.
  intros Hx. induction rows as [|r rows IH]; [done|]. rewrite !count_where_step IH. simpl.
  destruct (Z.eqb_spec (f r) x) as [->|]; simpl; [|lia].
  destruct (id_in l x) eqn:E; [by apply id_in_spec in E|]. destruct (p r); simpl; lia.
Qed.

Lemma join_count {R} (f : R → Z) (p : R → bool) k rows clauses :
  NoDup (map cl_id clauses) →
  count_where (λ x, (x.1 =? k) && p x.2) (join_clauses f rows clauses)
  = count_where p (List.filter (λ r, id_in (map cl_id (List.filter (λ c, cl_circular_id c =? k) clauses)) (f r))
                  rows).
Proof.
  rewrite count_where_filter. induction clauses as [|c clauses IH]; intros Hnd; simpl.
  { symmetry. by apply count_where_none. }
  simpl in Hnd. apply NoDup_cons in Hnd as [Hc Hnd].
  rewrite count_where_app count_where_map IH; [|done]. simpl.
  rewrite (count_where_filter (λ x, (cl_circular_id c =? k) && p x)).
  destruct (Z.eqb_spec (cl_circular_id c) k) as [E|E]; simpl map.
  - rewrite count_id_in; [done|].
    intros (c' & E' & [Hc' _]%filter_elem)%list_elem_of_fmap. apply Hc. rewrite E'.
    by apply (list_elem_of_fmap_2 cl_id).
  - rewrite count_where_none; [done|]. intros r _. apply andb_false_r.
Qed.

Lemma filter_filter_sub {A} (p q : A → bool) l :
  (∀ x, p x = true → q x = true) → List.filter p (List.filter q l) = List.filter p l.
Proof.
  intros H. induction l as [|x l IH]; simpl; [done|].
  destruct (p x) eqn:E; [by rewrite (H x E) /= E IH|]. destruct (q x); simpl; by rewrite ?E IH.
Qed.

Lemma circular_of_elem d c : db_inv d → c ∈ d_circulars d → circular_of d (ci_id c) = Some c.
Proof.
  intros HI Hc. unfold circular_of, find_row. destruct (find _ _) as [c'|] eqn:E.
  - apply find_some in E as [Hin%list_elem_of_In E%Z.eqb_eq]. f_equal.
    by apply (NoDup_map_same _ _ _ _ (di_circular_ids _ HI) Hin Hc).
  - apply list_elem_of_In, (find_none _ _ E) in Hc. by rewrite Z.eqb_refl in Hc.
Qed.

Definition summary_of (st : CircularStatusResult) : status_summary :=
  Summary (st_status st) (st_clause_count st) (st_active_rules st) (st_pending_reviews st).

(** The batched status of circulars, three grouped SQL aggregations, is for
    every circular the status, clause count, active rules and pending reviews
    that [get_circular_status] computes row by row. *)
Theorem batch_status_matches d circulars :
  db_inv d → (∀ c, c ∈ circulars → c ∈ d_circulars d) →
  get_circular_statuses_batch d circulars
  = omap (λ c, (λ st, (ci_id c, summary_of st)) <$> get_circular_status d (ci_id c)) circulars.
Proof.
  intros HI Hsub. unfold get_circular_statuses_batch.
  set (ids := map ci_id circulars). set (clauses := List.filter _ (d_clauses d)).
  assert (Hids : ∀ c, c ∈ circulars → ci_id c ∈ ids) by (intros c; apply (list_elem_of_fmap_2 ci_id)).
  clearbody ids. induction circulars as [|c cs IH]; [done|]. simpl.
  rewrite IH; [|intros x Hx; apply Hsub; by right|intros x Hx; apply Hids; by right].
  unfold get_circular_status at 2. rewrite circular_of_elem; [|done|apply Hsub; by left]. simpl.
  assert (Hcl : List.filter (λ x, cl_circular_id x =? ci_id c) clauses = clauses_of d (ci_id c)).
  { apply filter_filter_sub. intros x ->%Z.eqb_eq. apply id_in_spec, Hids. by left. }
  assert (Hnd : NoDup (map cl_id clauses)) by (apply NoDup_map_filter, HI).
  assert (Hcount : group_get (group_count cl_circular_id (λ _, true) clauses) (ci_id c)
                   = Z.of_nat (length (clauses_of d (ci_id c)))).
  { rewrite group_count_spec -Hcl. unfold count_where.
    f_equal. f_equal. apply List.filter_ext. intros x. apply andb_true_r. }
  assert (Hj : ∀ R (f : R → Z) (p : R → bool) rows,
    group_get (group_count fst (λ x, p x.2) (join_clauses f rows clauses)) (ci_id c)
    = count_where p (List.filter (λ r, id_in (map cl_id (clauses_of d (ci_id c))) (f r)) rows)).
  { intros R f p rows. rewrite group_count_spec -Hcl. by apply join_count. }
  unfold summary_of, rules_in, reviews_in. simpl. rewrite Hcount !Hj existsb_count. done.
Qed.

(** ** The reaper *)

(** A sweep finishes every stalled run: afterwards no circular is in a
    stale state past the cut-off, each one that was is FAILED with the reaper's
    message and one audit row, the others are untouched, and the count is
    returned. *)
Theorem sweep_clears_stale d now stale d' n :
  db_inv d → _sweep_once d now stale = (d', n) →
  (∀ c, c ∈ d_circulars d' → is_stale (utc_us now - stale) c = false)
  ∧ (∀ c, c ∈ d_circulars d → ∃ c', circular_of d' (ci_id c) = Some c'
       ∧ if is_stale (utc_us now - stale) c
         then ci_processing_state c' = "FAILED" ∧ ci_error_message c' = Some _SWEEP_MESSAGE
              ∧ length (transitions_of d' (ci_id c)) = S (length (transitions_of d (ci_id c)))
         else c' = c)
  ∧ n = count_where (is_stale (utc_us now - stale)) (d_circulars d).
Proof.
  intros HI. unfold _sweep_once. rewrite foldl_add_transition. intros [= <- <-].
  set (cutoff := utc_us now - stale). split_and!; [| |done].
  - simpl. intros c' (c & Hin & ->)%elem_of_update_where. rewrite (victim_ids d cutoff c HI Hin).
    destruct (is_stale cutoff c) eqn:E; done.
  - intros c Hin. unfold circular_of. simpl. rewrite find_update_where; [|done].
    pose proof (circular_of_elem d c HI Hin) as Ec. unfold circular_of in Ec. rewrite Ec.
    eexists. split; [done|]. simpl. rewrite (victim_ids d cutoff c HI Hin).
    destruct (is_stale cutoff c) eqn:E; [|done]. split_and!; try done.
    unfold transitions_of. simpl. rewrite List.filter_app filter_map_comm. simpl.
    rewrite (filter_key_unique ci_id _ c); [|by apply NoDup_map_filter, HI|by apply filter_elem].
    rewrite length_app. simpl. lia.
Qed.

(** A circular left in EXTRACTED by a crash between the second and the third
    checkpoint is never swept. *)
Lemma extracted_never_swept d now stale c :
  db_inv d → c ∈ d_circulars d → ci_processing_state c = "EXTRACTED" →
  circular_of (_sweep_once d now stale).1 (ci_id c) = Some c.
Proof.
  intros HI Hin Hst. unfold _sweep_once. rewrite foldl_add_transition. unfold circular_of. simpl.
  rewrite find_update_where; [|done].
  pose proof (circular_of_elem d c HI Hin) as Ec. unfold circular_of in Ec. rewrite Ec. simpl.
  rewrite (victim_ids d _ c HI Hin). unfold is_stale. by rewrite Hst.
Qed.
