(* ===== verification/PipelineWitness.v ===== *)
(** * A document through the pipeline

    Two clauses, one whose extraction fails and one without thresholds, are
    ingested, compiled, reviewed and re-uploaded; the theorems about the
    pipeline are applied on the way, and the last lemmas show what the review
    decisions do to placeholder and re-compiled rules. *)
From S2P Require Import Prelude PyStr PyFloat Json Datetime Taxonomy Schemas Compiler.
From S2P Require Import DocModels Policies DbModels HitlService HitlServiceFacts Orchestrator OrchestratorFacts.
From S2P Require Import PipelineFacts.

Open Scope string_scope.
Open Scope Z_scope.

Definition w_uuid (i : Z) : string := "review-" +:+ str_of_Z i.
Definition w_hex (c : ascii) : string := String.concat "" (repeat (String c "") 64).
Definition w_now : datetime := Datetime 63000000000000000 (Some 0).

Definition w_chunk (id num text : string) (c : ascii) : ClauseChunk :=
  bare_chunk id (w_hex c) text (Some num) ["Chapter I"] None (Some 1) (Some 1) false.
Definition w_chunks : list ClauseChunk :=
  [w_chunk "c1" "4.1" "Brokers shall collect margin." "a"; w_chunk "c2" "4.2" "Brokers shall report." "b"].

(** A rule without thresholds: nothing to compile, one blocking flag. *)
Definition w_rule : ExtractedComplianceRule :=
  {| rule_id := "rule-4.2"; source_chunk_id := "c2"; source_sha256 := w_hex "b";
     source_document_sha256 := None; extracted_text_sha256 := None;
     circular_number := Some "SEBI/HO/2024/1"; clause_number := Some "4.2"; section_path := [];
     regulator := SEBI; regulatory_domain := None; target_entities := []; trigger_conditions := [];
     deterministic_logic := []; qualitative_directives := [];
     obligation_type := MANDATORY; extraction_confidence := decimal 9 1; ambiguous_spans := [];
     extraction_notes := None; canonical_facts_digest := None |}.

Definition w_extract (c : ClauseChunk) (_ : list sibling) : res exn AuditedComplianceRule :=
  if String.eqb (ck_chunk_id c) "c1" then Raise (Exn "TimeoutError" "model timed out")
  else Ok (Audited w_rule (Audit "rule-4.2" APPROVED (decimal 95 2) [] 1 0) 0).

Definition w_parsed : res exn ParseResult :=
  Ok (Parsed (Metadata (Some "SEBI/HO/2024/1") (Some 738000) None None None None None SEBI CIRCULAR None None) w_chunks
        2 [] None None None (Some (w_hex "d")) (Some (w_hex "e"))).

#[local] Notation w_ingest d :=
  (ingest id id id d w_parsed "%PDF" (Some "dir/a.pdf") DEFAULT_TENANT_ID None None 738001 w_now).
#[local] Notation w_upload d :=
  (process_circular_pdf id id w_uuid id w_extract d w_parsed "%PDF" (Some "dir/a.pdf") DEFAULT_TENANT_ID
    None None 738001 w_now).

(** The database after ingestion, and after the stages. *)
Definition w_ingested : database := Eval vm_compute in
  match w_ingest empty_db with inl _ => empty_db | inr i => in_db i end.
#[local] Notation w_stages d :=
  (_execute_processing_stages w_uuid id w_extract d 1 [2; 3] w_chunks DEFAULT_TENANT_ID w_now).
Definition w_result : ProcessE2EResult := Eval vm_compute in
  match (w_stages w_ingested).2 with
  | Ok (Some r) => r
  | _ => ProcessResult 0 "" None None None "" "" "" 0 0 0 "" "" [] []
  end.
Definition w_db : database := Eval vm_compute in (w_stages w_ingested).1.

Lemma w_ingest_run : w_ingest empty_db = inr (Ingested w_ingested 1 [2; 3] w_chunks).
Proof. vm_compute. reflexivity. Qed.
Lemma w_stages_run : w_stages w_ingested = (w_db, Ok (Some w_result)).
Proof. vm_compute. reflexivity. Qed.
Lemma w_upload_run : (w_upload empty_db).1 = w_db.
Proof. vm_compute. reflexivity. Qed.

Lemma w_ingested_reachable : reachable id id w_uuid id w_extract w_ingested.
Proof. apply rtc_once. exact (step_crash_ingested _ _ _ _ _ _ _ _ _ _ _ _ _ _ _ w_ingest_run). Qed.

Lemma w_db_reachable : reachable id id w_uuid id w_extract w_db.
Proof.
  apply rtc_once. rewrite -w_upload_run. apply (step_upload id id w_uuid id w_extract empty_db).
Qed.

(** The placeholder of the first clause and the rule of the second. *)
Definition w_placeholder : CompiledRule := Eval vm_compute in
  match d_rules w_db with r :: _ => r | [] => RuleRow 0 0 "" "" 0 None None None false false "" None None None end.

Lemma new_rules_await_review_witness :
  ru_is_active w_placeholder = false
  ∧ (∃ v, v ∈ d_reviews w_db ∧ rv_clause_id v = ru_clause_id w_placeholder ∧ rv_status v = "PENDING")
  ∧ ps_processing_state w_result = "AWAITING_HITL".
Proof.
  apply (new_rules_await_review id id w_uuid id w_extract w_ingested 1 [2; 3] w_chunks DEFAULT_TENANT_ID
           w_now w_db w_result w_placeholder); [exact w_ingested_reachable|exact w_stages_run| |].
  - left.
  - apply not_elem_of_nil.
Defined.


Lemma reachable_well_typed_witness : db_checks w_db = true.
Proof. exact (reachable_well_typed id id w_uuid id w_extract w_db w_db_reachable). Defined.

Definition w_circular : Circular := Eval vm_compute in
  match d_circulars w_db with
  | c :: _ => c
  | [] => CircularRow 0 "" false "" None None None None None None None "" "" None w_now
  end.

Lemma reachable_audit_trail_witness :
  replay "INGESTED" (transitions_of w_db 1) = Some "AWAITING_HITL".
Proof.
  apply (reachable_audit_trail id id w_uuid id w_extract w_db w_circular w_db_reachable). left.
Defined.

Lemma processing_never_activates_witness :
  (∀ r, r ∈ d_rules (w_upload w_db).1 → ru_is_active r = true → r ∈ d_rules w_db)
  ∧ (∀ r, r ∈ d_rules (resume_circular w_uuid id w_extract w_db 1 DEFAULT_TENANT_ID w_now).1 →
       ru_is_active r = true → r ∈ d_rules w_db).
Proof.
  exact (processing_never_activates id id w_uuid id w_extract w_db w_parsed "%PDF" (Some "dir/a.pdf")
           DEFAULT_TENANT_ID None None 738001 w_now 1 w_db_reachable).
Defined.

Definition w_circular0 : Circular := Eval vm_compute in
  match d_circulars w_ingested with c :: _ => c | [] => w_circular end.

Lemma execute_trail_witness :
  ∃ ts final c', d_transitions w_db = (d_transitions w_ingested ++ ts)%list
    ∧ Forall (λ t, tr_circular_id t = 1) ts
    ∧ moves ts = [(Some "INGESTED", "EXTRACTING"); (Some "EXTRACTING", "EXTRACTED");
                  (Some "EXTRACTED", "COMPILING"); (Some "COMPILING", final)]
    ∧ circular_of w_db 1 = Some c' ∧ ci_processing_state c' = final
    ∧ (final = "AWAITING_HITL" ∨ final = "APPROVED").
Proof.
  exact (execute_trail w_uuid id w_extract w_ingested 1 [2; 3] w_chunks DEFAULT_TENANT_ID w_now w_db
           (Ok (Some w_result)) w_circular0 eq_refl w_stages_run).
Defined.

Lemma batch_status_matches_witness :
  get_circular_statuses_batch w_db [w_circular]
  = omap (λ c, (λ st, (ci_id c, summary_of st)) <$> get_circular_status w_db (ci_id c)) [w_circular].
Proof.
  apply (batch_status_matches w_db [w_circular]).
  - exact (reachable_inv id id w_uuid id w_extract w_db w_db_reachable).
  - intros c ->%list_elem_of_singleton. left.
Defined.

(** ** Two documents with the same failing clause number *)

(** The placeholder rule of a failed clause is named after the clause number
    alone, so a second circular with the same number fails as a whole. *)
Definition w_parsed2 : res exn ParseResult :=
  Ok (Parsed (Metadata (Some "SEBI/HO/2024/2") (Some 738000) None None None None None SEBI CIRCULAR None None)
        [w_chunk "c1" "4.1" "Depositories shall reconcile." "c"] 1 [] None None None (Some (w_hex "f")) (Some (w_hex "0"))).
#[local] Notation w_ingest2 d :=
  (ingest id id id d w_parsed2 "%PDF" None DEFAULT_TENANT_ID None None 738001 w_now).
Definition w_ingested2 : ingested := Eval vm_compute in
  match w_ingest2 w_db with inl _ => Ingested empty_db 0 [] [] | inr i => i end.
#[local] Notation w_stages2 :=
  (_execute_processing_stages w_uuid id w_extract (in_db w_ingested2) (in_circular w_ingested2)
     (in_clauses w_ingested2) (in_chunks w_ingested2) DEFAULT_TENANT_ID w_now).
Definition w_db2 : database := Eval vm_compute in w_stages2.1.
Definition w_circular2 : Circular := Eval vm_compute in
  match circular_of (in_db w_ingested2) (in_circular w_ingested2) with Some c => c | None => w_circular end.

Lemma w_stages2_run :
  w_stages2 = (w_db2, Raise (Exn "IntegrityError" "uq_compiled_rules_rule_id_rule_version")).
Proof. vm_compute. reflexivity. Qed.

Lemma execute_failure_atomic_witness :
  d_rules w_db2 = d_rules w_db ∧ d_reviews w_db2 = d_reviews w_db
  ∧ ∃ c', circular_of w_db2 (in_circular w_ingested2) = Some c' ∧ ci_processing_state c' = "FAILED"
          ∧ ci_error_message c' = Some "uq_compiled_rules_rule_id_rule_version".
Proof.
  exact (execute_failure_atomic w_uuid id w_extract (in_db w_ingested2) (in_circular w_ingested2)
    (in_clauses w_ingested2) (in_chunks w_ingested2) DEFAULT_TENANT_ID w_now w_db2 _ w_circular2
    eq_refl w_stages2_run).
Defined.

(** ** Decisions *)
#[local] Notation w_approve d id := (approve_transaction d id "officer" None w_now).
Definition w_first : string := Eval vm_compute in
  match d_reviews w_db with v :: _ => rv_review_id v | [] => "" end.
Definition w_second : string := Eval vm_compute in
  match d_reviews w_db with _ :: v :: _ => rv_review_id v | _ => "" end.
Definition w_no_review : HITLReview := ReviewRow 0 "" 0 None "" "" "" "" None None "" None None None None None.
Definition w_approved : database * HITLReview * bool * option CompiledRule := Eval vm_compute in
  match w_approve w_db w_first with Ok x => x | Raise _ => (empty_db, w_no_review, false, None) end.
Definition w_approved2 : database := Eval vm_compute in
  match w_approve w_approved.1.1.1 w_second with Ok x => x.1.1.1 | Raise _ => empty_db end.

Lemma w_approve_run : w_approve w_db w_first = Ok w_approved.
Proof. vm_compute. reflexivity. Qed.

Lemma approve_activates_reviewed_witness :
  rv_status w_approved.1.1.2 = "RESOLVED"
  ∧ (∃ r, w_approved.2 = Some r ∧ ru_id r = ru_id w_placeholder ∧ r ∈ d_rules w_approved.1.1.1
     ∧ ru_is_active r = w_approved.1.2
     ∧ rv_approved_rule_version w_approved.1.1.2 = Some (ru_rule_version r)
     ∧ rv_approved_policy_sha256 w_approved.1.1.2 = ru_policy_sha256 r)
  ∧ (w_approved.1.2 = true ↔
     ∀ v, v ∈ reviews_of w_approved.1.1.1 (ru_id w_placeholder) → is_approved v = true)
  ∧ (w_approved.1.2 = true → ∀ r r', w_approved.2 = Some r → r' ∈ d_rules w_approved.1.1.1 →
       ru_rule_id r' = ru_rule_id r → ru_is_active r' = true → ru_id r' = ru_id w_placeholder).
Proof.
  apply (approve_activates_reviewed w_db w_first "officer" None w_now w_approved.1.1.1 w_approved.1.1.2
           w_approved.1.2 w_approved.2 (ru_id w_placeholder)).
  - exact (reachable_inv id id w_uuid id w_extract w_db w_db_reachable).
  - exact w_approve_run.
  - reflexivity.
Defined.

(** Approving the review of a failed extraction activates its placeholder. *)
Lemma placeholder_activated :
  w_approved.1.2 = true
  ∧ ∃ r, w_approved.2 = Some r ∧ is_placeholder r = true ∧ ru_is_active r = true
         ∧ ru_is_compiled r = false ∧ ru_rego_policy r = None.
Proof. vm_compute. split; [reflexivity|]. eexists. split; [reflexivity|]. repeat split. Qed.

Definition w_clause : Clause := Eval vm_compute in
  match d_clauses w_db with
  | c :: _ => c | [] => ClauseRow 0 0 "" None None [] "" "" "" None None false "" None end.
Definition w_review : HITLReview := Eval vm_compute in
  match d_reviews w_db with v :: _ => v | [] => w_no_review end.

Lemma request_revision_raises_witness :
  request_revision w_db w_first "officer" None w_now = Raise (UndefinedName "ClauseProcessingState").
Proof.
  apply (request_revision_raises w_db w_first "officer" None w_now w_review w_clause w_circular).
  - vm_compute. reflexivity.
  - vm_compute. reflexivity.
  - left. reflexivity.
Defined.

(** Approved and uploaded again, the document waits for reviews nobody can
    give: the rule of the second clause is recompiled and inactive, its review
    stays RESOLVED, no review is pending and the circular is AWAITING_HITL. *)
Definition w_again : database := Eval vm_compute in
  (process_circular_pdf id id w_uuid id (λ c s, Ok (Audited w_rule
     (Audit "rule-4.2" APPROVED (decimal 95 2) [] 1 0) 0)) w_approved2
     (Ok (Parsed (Metadata (Some "SEBI/HO/2024/1") (Some 738000) None None None None None SEBI CIRCULAR None None)
        [w_chunk "c2" "4.2" "Brokers shall report." "b"] 1 [] None None None (Some (w_hex "d")) (Some (w_hex "e"))))
     "%PDF" None DEFAULT_TENANT_ID None None 738001 w_now).1.

Lemma reupload_stuck :
  option_map ci_processing_state (circular_of w_approved2 1) = Some "APPROVED"
  ∧ option_map ci_processing_state (circular_of w_again 1) = Some "AWAITING_HITL"
  ∧ count_where is_pending (d_reviews w_again) = 0
  ∧ existsb (λ r, String.eqb (ru_rule_id r) "rule-4.2" && ru_is_active r) (d_rules w_approved2) = true
  ∧ existsb (λ r, String.eqb (ru_rule_id r) "rule-4.2" && ru_is_active r) (d_rules w_again) = false.
Proof. vm_compute. repeat split. Qed.

(** ** The reaper *)
Definition w_stalled : database := Eval vm_compute in
  (stage_checkpoints w_extract w_ingested 1 [2; 3] w_chunks w_now).1.1.1.1.
Definition w_later : datetime := Datetime (63000000000000000 + 7200000000) (Some 0).
Definition w_swept : database * Z := Eval vm_compute in _sweep_once w_stalled w_later 3600000000.

Lemma w_stalled_reachable : reachable id id w_uuid id w_extract w_stalled.
Proof.
  eapply rtc_r; [exact w_ingested_reachable|].
  apply (step_crash_stage id id w_uuid id w_extract w_ingested 1 [2; 3] w_chunks w_now w_stalled
    (stage_checkpoints w_extract w_ingested 1 [2; 3] w_chunks w_now).1.1.1.2
    (stage_checkpoints w_extract w_ingested 1 [2; 3] w_chunks w_now).1.1.2
    (stage_checkpoints w_extract w_ingested 1 [2; 3] w_chunks w_now).1.2
    (stage_checkpoints w_extract w_ingested 1 [2; 3] w_chunks w_now).2);
    [vm_compute; reflexivity|left].
Qed.

Lemma sweep_clears_stale_witness :
  (∀ c, c ∈ d_circulars w_swept.1 → is_stale (utc_us w_later - 3600000000) c = false)
  ∧ (∀ c, c ∈ d_circulars w_stalled → ∃ c', circular_of w_swept.1 (ci_id c) = Some c'
       ∧ if is_stale (utc_us w_later - 3600000000) c
         then ci_processing_state c' = "FAILED" ∧ ci_error_message c' = Some _SWEEP_MESSAGE
              ∧ length (transitions_of w_swept.1 (ci_id c)) = S (length (transitions_of w_stalled (ci_id c)))
         else c' = c)
  ∧ w_swept.2 = count_where (is_stale (utc_us w_later - 3600000000)) (d_circulars w_stalled).
Proof.
  apply (sweep_clears_stale w_stalled w_later 3600000000 w_swept.1 w_swept.2).
  - exact (reachable_inv id id w_uuid id w_extract w_stalled w_stalled_reachable).
  - vm_compute. reflexivity.
Defined.

(** The sweep of the witness is not empty. *)
Lemma w_swept_one : w_swept.2 = 1.
Proof. reflexivity. Qed.
