(* ===== verification/Provenance.v ===== *)
(** * Provenance of decisions: [src/app/services/provenance.py]

    The eleven links from the regulator's PDF to the ledger row of a decision:
    their traversal and their verification, over the pipeline's database and
    the audit ledger.  NFKC normalisation is a parameter, and so are the two
    reference columns of the ledger, which its service leaves NULL. *)
From S2P Require Import Prelude PyStr Sha256 Json JsonFacts Datetime JsonLogic DocModels DbModels.
From S2P Require Import ExecModels Ledger Policies Governance Execution Integration.

Open Scope string_scope.
Open Scope Z_scope.

Record StageProvenance := Stage
  { stage_index : Z
  ; stage_name : string
  ; identifier : string
  ; hash_value : string
  ; verified : bool
  ; stage_details : list (string * json) }.

Record ProvenanceChain := Chain
  { pc_circular_number : string
  ; pc_rule_id : string
  ; pc_source_document_sha256 : string
  ; pc_extracted_text_sha256 : string
  ; pc_clause_sha256 : string
  ; pc_canonical_facts_digest : option string
  ; pc_compiled_rule_version : Z
  ; pc_policy_sha256 : option string
  ; pc_hitl_status : string
  ; pc_hitl_review_id : option string
  ; pc_approving_principal : option string
  ; pc_approved_at : option datetime
  ; pc_transaction_id : option string
  ; pc_transaction_input_digest : option string
  ; pc_evaluation_result : option string
  ; pc_evidence_digest : option string
  ; pc_ledger_sequence_num : option Z
  ; pc_ledger_payload_digest : option string
  ; pc_ledger_current_hash : option string
  ; pc_stages : list StageProvenance
  ; pc_is_valid : bool
  ; pc_verification_notes : list string }.

Record ProvenanceBreak := PBreak
  { pb_stage_index : Z; pb_stage_name : string; pb_reason : string;
    pb_expected : string; pb_actual : string }.

Record ProvenanceVerificationResult := PResult
  { pv_valid : bool
  ; pv_transaction_id : string
  ; pv_rule_id : string
  ; pv_rule_version : Z
  ; pv_breaks : list ProvenanceBreak
  ; pv_chain : option ProvenanceChain }.

Inductive provenance_error :=
| ValidationError (field : string)    (* a digest that is not text *)
| DataError (field : string)          (* a rule version that is not an integer *).

(** ** Reading a ledger row *)
Definition row_details (row : LedgerEntry) : list (string * json) :=
  match details (fields row) with JObj l => l | _ => [] end.
Definition detail (row : LedgerEntry) (k : string) : option json := obj_get k (row_details row).
(** [details.get(k)] as it is put in a payload *)
Definition detail_json (row : LedgerEntry) (k : string) : json := default JNull (detail row k).

(** A [str | None] field filled from the details. *)
Definition text_detail (row : LedgerEntry) (k : string) : res provenance_error (option string) :=
  match detail_json row k with
  | JNull => Ok None
  | JStr s => Ok (Some s)
  | _ => Raise (ValidationError k)
  end.

(** A digest that is only looked at when it is truthy. *)
Definition digest_detail (row : LedgerEntry) (k : string) : res provenance_error (option string) :=
  match detail_json row k with
  | JStr s => Ok (if String.eqb s "" then None else Some s)
  | j => if py_truthy j then Raise (ValidationError k) else Ok None
  end.

(** [details.get("rule_version", 1)] *)
Definition row_rule_version (row : LedgerEntry) : res provenance_error Z :=
  match detail row "rule_version" with
  | None => Ok 1
  | Some (JInt n) => Ok n
  | Some _ => Raise (DataError "rule_version")
  end.

(** [... ORDER BY sequence_num DESC LIMIT 1] *)
Definition latest_row (p : LedgerEntry → bool) (ledger : ledger_table) : option LedgerEntry :=
  last (order_by_seq (List.filter p (rows ledger))).

(** ** Reading the database *)

(** [ORDER BY rule_version DESC] *)
Definition rules_by_version (d : database) (rule_id : string) : list CompiledRule :=
  merge_sort (key_le (λ r, - ru_rule_version r))
    (List.filter (λ r, String.eqb (ru_rule_id r) rule_id) (d_rules d)).

Definition rule_at_version (d : database) (rule_id : string) (version : Z) : option CompiledRule :=
  find (λ r, String.eqb (ru_rule_id r) rule_id && (ru_rule_version r =? version)) (d_rules d).

(** The review of the rule, or of its clause for the version or for none. *)
Definition reviews_rule (rule : CompiledRule) (clause : Clause) (version : Z) (v : HITLReview) : bool :=
  match rv_compiled_rule_id v with Some i => i =? ru_id rule | None => false end
  || ((rv_clause_id v =? cl_id clause)
      && match rv_approved_rule_version v with Some n => n =? version | None => true end).

(** [ORDER BY resolved_at DESC NULLS LAST], first row *)
Definition first_review (p : HITLReview → bool) (d : database) : option HITLReview :=
  let vs := List.filter p (d_reviews d) in
  let resolved := List.filter (λ v, bool_decide (is_Some (rv_resolved_at v))) vs in
  let rest := List.filter (λ v, negb (bool_decide (is_Some (rv_resolved_at v)))) vs in
  head (merge_sort (key_le (λ v, - default 0 (utc_us <$> rv_resolved_at v))) resolved ++ rest)%list.

(** The stored digest of the policy, or that of its text. *)
Definition policy_digest (rule : CompiledRule) : option string :=
  if negb (truthy (ru_policy_sha256 rule)) && truthy (ru_rego_policy rule)
  then Some (sha256_hex (str_or (ru_rego_policy rule) ""))
  else ru_policy_sha256 rule.

Definition metadata_digest (rule : CompiledRule) : res provenance_error (option string) :=
  match ru_provenance_metadata rule with
  | None | Some [] => Ok None
  | Some l =>
      match default JNull (obj_get "canonical_facts_digest" l) with
      | JNull => Ok None
      | JStr s => Ok (Some s)
      | _ => Raise (ValidationError "canonical_facts_digest")
      end
  end.

Definition opt_int (o : option Z) : json := match o with Some n => JInt n | None => JNull end.

Section provenance.
Context (nfkc : string → string) (compiled_rule_ref hitl_review_ref : LedgerEntry → option Z).

(** The ledger row that evidences a rule: by rule id, reference or clause. *)
Definition evidences (rule : CompiledRule) (clause : Clause) (row : LedgerEntry) : bool :=
  String.eqb (rule_id (fields row)) (ru_rule_id rule)
  || match compiled_rule_ref row with Some i => i =? ru_id rule | None => false end
  || String.eqb (clause_hash (fields row)) (cl_sha256 clause).

(** ** Traversal *)
Definition pdf_stage (circular : Circular) (raw_pdf_bytes : option string)
  : StageProvenance * list string :=
  let src := str_or (ci_source_document_sha256 circular) "unknown" in
  let ok := match raw_pdf_bytes with Some b => String.eqb (sha256_of_bytes b) src | None => true end in
  (Stage 1 "Original PDF"
     (str_or (opt_or (ci_source_url circular) (ci_source_filename circular)) (ci_circular_number circular))
     src ok
     [("title", opt_str (ci_title circular)); ("circular_number", JStr (ci_circular_number circular));
      ("source_url", opt_str (ci_source_url circular));
      ("source_filename", opt_str (ci_source_filename circular))],
   match raw_pdf_bytes with
   | Some b => if ok then [] else ["Stage 1 mismatch: raw PDF bytes hash " +:+ sha256_of_bytes b
                                   +:+ " != stored " +:+ src]
   | None => []
   end).

Definition text_stage (circular : Circular) (raw_extracted_text : option string)
  : StageProvenance * list string :=
  let stored := ci_raw_text_digest circular in
  let ok := match raw_extracted_text with
            | Some t => String.eqb (sha256_of_extracted_text nfkc t) stored
            | None => true
            end in
  (Stage 2 "Extracted Text" ("extracted_text:" +:+ ci_circular_number circular) stored ok
     [("raw_text_digest", JStr stored)],
   match raw_extracted_text with
   | Some t => if ok then [] else ["Stage 2 mismatch: extracted text hash "
                                   +:+ sha256_of_extracted_text nfkc t +:+ " != stored " +:+ stored]
   | None => []
   end).

Definition clause_stage (circular : Circular) (clause : Clause) : StageProvenance * list string :=
  let expected := sha256_of_clause nfkc (Some (ci_circular_number circular)) (cl_clause_number clause)
                    (cl_text clause) in
  let ok := String.eqb (cl_sha256 clause) expected in
  (Stage 3 "Clause" ("clause:" +:+ str_or (cl_clause_number clause) (str_of_Z (cl_id clause)))
     (cl_sha256 clause) ok
     [("clause_number", opt_str (cl_clause_number clause));
      ("section_title", opt_str (cl_section_title clause))],
   if ok then [] else ["Stage 3 mismatch: recomputed clause hash " +:+ expected +:+ " != stored "
                       +:+ cl_sha256 clause]).

Definition rule_details (rule : CompiledRule) : list (string * json) :=
  [("rule_version", JInt (ru_rule_version rule)); ("is_active", JBool (ru_is_active rule));
   ("hitl_status", JStr (ru_hitl_status rule))].

Definition is_compiled_policy (rule : CompiledRule) : bool :=
  ru_is_compiled rule && truthy (ru_rego_policy rule).

Definition row_transaction (row : option LedgerEntry) : string :=
  match row with Some r => transaction_id (fields r) | None => "none" end.

(** Stages 4 to 11 of the full chain. *)
Definition full_stages (rule : CompiledRule) (review : option HITLReview) (row : option LedgerEntry)
    (cf_digest policy_hash tx_digest ev_digest : option string) : list StageProvenance :=
  let status := match review with Some v => rv_status v | None => "NONE" end in
  let officer := match review with Some v => rv_compliance_officer_id v | None => None end in
  let eval_result := (λ r, evaluation_result (fields r)) <$> row in
  let have_row := bool_decide (is_Some row) in
  [ Stage 4 "Canonical Facts" ("canonical_facts:" +:+ ru_rule_id rule) (str_or cf_digest "unspecified") true
      [("canonical_facts_digest", opt_str cf_digest)];
    Stage 5 "Compiled Rule Version + Policy Hash"
      (ru_rule_id rule +:+ ":v" +:+ str_of_Z (ru_rule_version rule)) (str_or policy_hash "none")
      (is_compiled_policy rule) (rule_details rule);
    Stage 6 "HITL Approval" (match review with Some v => rv_review_id v | None => "unassigned" end) status
      (bool_decide (is_Some review) && String.eqb status "RESOLVED")
      [("status", JStr status);
       ("approved_rule_version",
        match review with Some v => opt_int (rv_approved_rule_version v) | None => JNull end)];
    (* the driver returns aware UTC times, on which [isoformat] is [_iso] *)
    Stage 7 "Approving Principal" (str_or officer "none") (str_or officer "none") (truthy officer)
      [("officer_id", opt_str officer);
       ("resolved_at", match review with
                       | Some v => opt_str (_iso <$> rv_resolved_at v)
                       | None => JNull
                       end)];
    Stage 8 "Transaction Input Digest" (row_transaction row) (str_or tx_digest "none") (truthy tx_digest)
      [("transaction_id", opt_str ((λ r, transaction_id (fields r)) <$> row))];
    Stage 9 "OPA Evaluation Result" (row_transaction row) (str_or eval_result "none") have_row
      [("verdict", opt_str eval_result);
       ("violations", match row with
                      | Some r => default (JList []) (detail r "violations")
                      | None => JList []
                      end)];
    Stage 10 "Evidence Digest"
      (match row with Some r => "evidence:" +:+ transaction_id (fields r) | None => "none" end)
      (str_or ev_digest (match row with Some r => payload_digest r | None => "none" end)) have_row
      (match row with Some r => row_details r | None => [] end);
    Stage 11 "Ledger Hash Chain"
      (match row with Some r => "seq:" +:+ str_of_Z (sequence_num r) | None => "none" end)
      (match row with Some r => current_hash r | None => "none" end) have_row
      [("sequence_num", opt_int (sequence_num <$> row)); ("previous_hash", opt_str (previous_hash <$> row));
       ("payload_digest", opt_str (payload_digest <$> row))] ].

(** Stages 4 to 8 of the legacy chain. *)
Definition legacy_stages (rule : CompiledRule) (clause : Clause) (review : option HITLReview)
    (row : option LedgerEntry) : list StageProvenance :=
  let eval_result := (λ r, evaluation_result (fields r)) <$> row in
  let have_row := bool_decide (is_Some row) in
  [ Stage 4 "Compiled Rule/Policy" (ru_rule_id rule) (cl_sha256 clause) (is_compiled_policy rule)
      (rule_details rule);
    Stage 5 "HITL Approval" (match review with Some v => rv_review_id v | None => "unassigned" end)
      (ru_rule_id rule)
      (match review with Some v => String.eqb (rv_status v) "RESOLVED" | None => false end)
      [("status", JStr (match review with Some v => rv_status v | None => "NONE" end));
       ("officer_id", match review with Some v => opt_str (rv_compliance_officer_id v) | None => JNull end)];
    Stage 6 "Evaluation" (row_transaction row) (str_or eval_result "none") have_row
      (match row with Some _ => [("verdict", opt_str eval_result)] | None => [] end);
    Stage 7 "Evidence"
      (match row with Some r => "evidence:" +:+ transaction_id (fields r) | None => "none" end)
      (match row with Some r => payload_digest r | None => "none" end) have_row
      (match row with Some r => row_details r | None => [] end);
    Stage 8 "Ledger" (match row with Some r => "seq:" +:+ str_of_Z (sequence_num r) | None => "none" end)
      (match row with Some r => current_hash r | None => "none" end) have_row
      [("sequence_num", opt_int (sequence_num <$> row)); ("previous_hash", opt_str (previous_hash <$> row))] ].

Definition get_rule_provenance_chain (d : database) (ledger : ledger_table) (rid : string)
    (raw_pdf_bytes raw_extracted_text : option string) (version : option Z) (full_chain : bool)
  : res provenance_error (option ProvenanceChain) :=
  let found :=
    match version with
    | Some n => rule_at_version d rid n
    | None => head (rules_by_version d rid)
    end in
  match found with
  | None => Ok None
  | Some rule =>
  match clause_of d (ru_clause_id rule) with
  | None => Ok None
  | Some clause =>
  match circular_of d (cl_circular_id clause) with
  | None => Ok None
  | Some circular =>
      let review := first_review (reviews_rule rule clause (ru_rule_version rule)) d in
      let row := latest_row (evidences rule clause) ledger in
      let '(stage1, notes1) := pdf_stage circular raw_pdf_bytes in
      let '(stage2, notes2) := text_stage circular raw_extracted_text in
      let '(stage3, notes3) := clause_stage circular clause in
      let policy_hash := policy_digest rule in
      let get k := match row with Some r => text_detail r k | None => Ok None end in
      res_bind (metadata_digest rule) (λ cf_digest,
      res_bind (get "transaction_input_digest") (λ tx_digest,
      res_bind (get "evidence_digest") (λ ev_digest,
      Ok (Some
        {| pc_circular_number := ci_circular_number circular; pc_rule_id := ru_rule_id rule;
           pc_source_document_sha256 := str_or (ci_source_document_sha256 circular) "unknown";
           pc_extracted_text_sha256 := ci_raw_text_digest circular;
           pc_clause_sha256 := cl_sha256 clause; pc_canonical_facts_digest := cf_digest;
           pc_compiled_rule_version := ru_rule_version rule; pc_policy_sha256 := policy_hash;
           pc_hitl_status := ru_hitl_status rule; pc_hitl_review_id := rv_review_id <$> review;
           pc_approving_principal := match review with Some v => rv_compliance_officer_id v | None => None end;
           pc_approved_at := match review with Some v => rv_resolved_at v | None => None end;
           pc_transaction_id := (λ r, transaction_id (fields r)) <$> row;
           pc_transaction_input_digest := tx_digest;
           pc_evaluation_result := (λ r, evaluation_result (fields r)) <$> row;
           pc_evidence_digest := ev_digest;
           pc_ledger_sequence_num := sequence_num <$> row;
           pc_ledger_payload_digest := payload_digest <$> row;
           pc_ledger_current_hash := current_hash <$> row;
           pc_stages :=
             ([stage1; stage2; stage3]
              ++ if full_chain then full_stages rule review row cf_digest policy_hash tx_digest ev_digest
                 else legacy_stages rule clause review row)%list;
           pc_is_valid := verified stage1 && verified stage2 && verified stage3;
           pc_verification_notes := (notes1 ++ notes2 ++ notes3)%list |}))))
  end
  end
  end.

Definition of_transaction (tid : string) (rid : option string) (seq : option Z) (row : LedgerEntry) : bool :=
  String.eqb (transaction_id (fields row)) tid
  && match rid with Some r => String.eqb (rule_id (fields row)) r | None => true end
  && match seq with Some n => sequence_num row =? n | None => true end.

Definition get_decision_provenance_chain (d : database) (ledger : ledger_table) (tid : string)
    (rid : option string) (seq : option Z) (raw_pdf_bytes raw_extracted_text : option string)
  : res provenance_error (option ProvenanceChain) :=
  match latest_row (of_transaction tid rid seq) ledger with
  | None => Ok None
  | Some row =>
      res_bind (row_rule_version row) (λ version,
        get_rule_provenance_chain d ledger (rule_id (fields row)) raw_pdf_bytes raw_extracted_text
          (Some version) true)
  end.

(** ** Verification *)
Definition break_when (b : bool) (x : ProvenanceBreak) : list ProvenanceBreak := if b then [x] else [].

Definition source_breaks (circular : Circular) (raw_pdf_bytes raw_extracted_text : option string)
  : list ProvenanceBreak :=
  (match raw_pdf_bytes with
   | Some b =>
       break_when (negb (bool_decide (ci_source_document_sha256 circular = Some (sha256_of_bytes b))))
         (PBreak 1 "Original PDF" "Recomputed PDF bytes SHA-256 does not match stored circular digest"
            (str_or (ci_source_document_sha256 circular) "") (sha256_of_bytes b))
   | None => []
   end
   ++ match raw_extracted_text with
      | Some t =>
          break_when (negb (String.eqb (sha256_of_extracted_text nfkc t) (ci_raw_text_digest circular)))
            (PBreak 2 "Extracted Text"
               "Recomputed extracted text SHA-256 does not match stored raw_text_digest"
               (ci_raw_text_digest circular) (sha256_of_extracted_text nfkc t))
      | None => []
      end)%list.

Definition clause_breaks (circular : Circular) (clause : Clause) (clause_text : option string)
    (row : LedgerEntry) : list ProvenanceBreak :=
  let computed := sha256_of_clause nfkc (Some (ci_circular_number circular)) (cl_clause_number clause)
                    (default (cl_text clause) clause_text) in
  (break_when (negb (String.eqb computed (cl_sha256 clause)))
     (PBreak 3 "Clause" "Recomputed clause SHA-256 does not match stored clause digest"
        (cl_sha256 clause) computed)
   ++ break_when (negb (String.eqb (clause_hash (fields row)) (cl_sha256 clause)))
        (PBreak 3 "Clause" "Ledger clause_hash does not match stored clause SHA-256"
           (cl_sha256 clause) (clause_hash (fields row))))%list.

Definition facts_breaks (rule : CompiledRule) (row : LedgerEntry) : res provenance_error (list ProvenanceBreak) :=
  res_bind (digest_detail row "canonical_facts_digest") (λ stored,
    match stored with
    | None => Ok []
    | Some s =>
        res_bind (metadata_digest rule) (λ m,
          match m with
          | Some c =>
              Ok (break_when (negb (String.eqb c "") && negb (String.eqb s c))
                    (PBreak 4 "Canonical Facts"
                       "Ledger canonical_facts_digest does not match compiled rule canonical facts digest"
                       c s))
          | None => Ok []
          end)
    end).

Definition policy_breaks (rule : CompiledRule) (row : LedgerEntry) : res provenance_error (list ProvenanceBreak) :=
  if negb (truthy (ru_rego_policy rule)) then Ok []
  else
    let computed := sha256_hex (str_or (ru_rego_policy rule) "") in
    res_bind (digest_detail row "policy_sha256") (λ stored,
      match stored with
      | None => Ok []
      | Some s =>
          Ok (break_when (negb (String.eqb computed s))
                (PBreak 5 "Compiled Rule Version + Policy Hash"
                   "Recomputed policy SHA-256 does not match policy_sha256 in ledger details" s computed))
      end).

(** The review a row refers to, else that of the rule or of its clause. *)
Definition review_of_row (d : database) (rule : CompiledRule) (clause : Clause) (version : Z)
    (row : LedgerEntry) : option HITLReview :=
  let direct :=
    let ref := default 0 (hitl_review_ref row) in
    if negb (ref =? 0) then find (λ v, rv_id v =? ref) (d_reviews d)
    else if truthy (hitl_review_id (fields row)) then
      find (λ v, String.eqb (rv_review_id v) (str_or (hitl_review_id (fields row)) "")) (d_reviews d)
    else None in
  match direct with
  | Some v => Some v
  | None => first_review (reviews_rule rule clause version) d
  end.

Definition review_breaks (review : option HITLReview) (version : Z) : list ProvenanceBreak :=
  match review with
  | None => []
  | Some v =>
      (break_when (negb (String.eqb (rv_status v) "RESOLVED"))
         (PBreak 6 "HITL Approval" ("HITL review " +:+ rv_review_id v +:+ " status is " +:+ rv_status v
                                    +:+ ", not RESOLVED") "RESOLVED" (rv_status v))
       ++ match rv_approved_rule_version v with
          | Some n =>
              break_when (negb (n =? version))
                (PBreak 6 "HITL Approval" "HITL review approved a different rule version than evaluated"
                   (str_of_Z version) (str_of_Z n))
          | None => []
          end
       ++ break_when (negb (truthy (rv_compliance_officer_id v)))
            (PBreak 7 "Approving Principal" "HITL review has no approving compliance officer recorded"
               "A non-null compliance_officer_id" "None"))%list
  end.

(** The transaction as it is read back from the row. *)
Definition row_transaction_payload (row : LedgerEntry) : json :=
  JObj
    [ ("broker_id", JStr (broker_id (fields row)));
      ("entity_type", default (JStr "") (detail row "entity_type"));
      ("facts", default (JObj []) (detail row "facts"));
      ("transaction_id", JStr (transaction_id (fields row))) ].

Definition transaction_breaks (row : LedgerEntry) : res provenance_error (list ProvenanceBreak) :=
  res_bind (text_detail row "transaction_input_digest") (λ stored,
    match stored with
    | Some s =>
        if negb (String.eqb s "") && bool_decide (is_Some (detail row "facts")) then
          let computed := sha256_hex (dumps (row_transaction_payload row)) in
          Ok (break_when (negb (String.eqb computed s))
                (PBreak 8 "Transaction Input Digest"
                   "Recomputed transaction input digest does not match stored transaction_input_digest"
                   s computed))
        else Ok []
    | None => Ok []
    end).

(** The evidence payload as it is read back from the row. *)
Definition row_evidence (row : LedgerEntry) (version : Z) : list (string * json) :=
  let f := fields row in
  [ ("transaction_id", JStr (transaction_id f));
    ("transaction_input_digest", detail_json row "transaction_input_digest");
    ("rule_id", JStr (rule_id f));
    ("rule_version", JInt version);
    ("policy_sha256", detail_json row "policy_sha256");
    ("package", default (JStr "") (detail row "package"));
    ("circular_id", JStr (circular_id f));
    ("section_reference", JStr (section_reference f));
    ("clause_sha256", JStr (clause_hash f));
    ("source_document_sha256", detail_json row "source_document_sha256");
    ("extracted_text_sha256", detail_json row "extracted_text_sha256");
    ("canonical_facts_digest", detail_json row "canonical_facts_digest");
    ("evaluation_result", JStr (evaluation_result f));
    ("violations", default (JList []) (detail row "violations"));
    ("decision", default (JStr "") (detail row "transaction_decision"));
    ("hitl_case_id", opt_str (hitl_review_id f)) ].

Definition evidence_breaks (row : LedgerEntry) (version : Z) : res provenance_error (list ProvenanceBreak) :=
  res_bind (text_detail row "evidence_digest") (λ stored,
    match stored with
    | Some s =>
        if String.eqb s "" then Ok []
        else
          let computed := compute_evidence_digest (row_evidence row version) in
          Ok (break_when (negb (String.eqb computed s))
                (PBreak 10 "Evidence Digest"
                   "Recomputed evidence digest does not match evidence_digest in ledger details"
                   s computed))
    | None => Ok []
    end).

Definition ledger_breaks (row : LedgerEntry) : list ProvenanceBreak :=
  let digest := compute_payload_digest (fields row) in
  let block := compute_block_hash (previous_hash row) (payload_digest row) (sequence_num row)
                 (evaluated_at (fields row)) in
  (break_when (negb (String.eqb digest (payload_digest row)))
     (PBreak 11 "Ledger Hash Chain" "Recomputed ledger payload_digest does not match stored payload_digest"
        (payload_digest row) digest)
   ++ break_when (negb (String.eqb block (current_hash row)))
        (PBreak 11 "Ledger Hash Chain" "Recomputed block current_hash does not match stored current_hash"
           (current_hash row) block))%list.

(** Every break of a row whose rule, clause and circular exist. *)
Definition all_breaks (d : database) (rule : CompiledRule) (clause : Clause) (circular : Circular)
    (row : LedgerEntry) (version : Z) (raw_pdf_bytes raw_extracted_text clause_text : option string)
  : res provenance_error (list ProvenanceBreak) :=
  res_bind (facts_breaks rule row) (λ b4,
  res_bind (policy_breaks rule row) (λ b5,
  res_bind (transaction_breaks row) (λ b8,
  res_bind (evidence_breaks row version) (λ b10,
  Ok (source_breaks circular raw_pdf_bytes raw_extracted_text
      ++ clause_breaks circular clause clause_text row ++ b4 ++ b5
      ++ review_breaks (review_of_row d rule clause version row) version
      ++ b8 ++ b10 ++ ledger_breaks row)%list)))).

Definition verify_decision_provenance (d : database) (ledger : ledger_table) (tid : string)
    (raw_pdf_bytes raw_extracted_text clause_text : option string) (seq : option Z)
  : res provenance_error ProvenanceVerificationResult :=
  match latest_row (of_transaction tid None seq) ledger with
  | None =>
      Ok (PResult false tid "unknown" 0
            [PBreak 11 "Ledger Hash Chain" "No ledger entry found for transaction"
               "A persisted ledger row" "None"] None)
  | Some row =>
      let rid := rule_id (fields row) in
      res_bind (row_rule_version row) (λ version,
      let broken b := Ok (PResult false tid rid version [b] None) in
      match rule_at_version d rid version with
      | None =>
          broken (PBreak 5 "Compiled Rule Version + Policy Hash"
                    ("CompiledRule " +:+ rid +:+ " version " +:+ str_of_Z version
                     +:+ " not found in database")
                    ("CompiledRule with rule_version=" +:+ str_of_Z version) "None")
      | Some rule =>
      match clause_of d (ru_clause_id rule) with
      | None =>
          broken (PBreak 3 "Clause" ("Parent Clause id=" +:+ str_of_Z (ru_clause_id rule) +:+ " not found")
                    "Clause row" "None")
      | Some clause =>
      match circular_of d (cl_circular_id clause) with
      | None =>
          broken (PBreak 1 "Original PDF"
                    ("Parent Circular id=" +:+ str_of_Z (cl_circular_id clause) +:+ " not found")
                    "Circular row" "None")
      | Some circular =>
          res_bind (all_breaks d rule clause circular row version raw_pdf_bytes raw_extracted_text
                      clause_text) (λ breaks,
          res_bind (get_decision_provenance_chain d ledger tid (Some rid) (Some (sequence_num row))
                      raw_pdf_bytes raw_extracted_text) (λ chain,
          Ok (PResult (match breaks with [] => true | _ => false end) tid rid version breaks chain)))
      end
      end
      end)
  end.
End provenance.
