(* ===== verification/ProvenanceFacts.v ===== *)
(** * Correctness of the provenance verification

    What a valid verification establishes, that a recorded decision verifies,
    the identity of clause digests, and the decisions whose provenance the
    verifier cannot confirm. *)
From S2P Require Import Prelude PyStr Sha256 Json JsonFacts Datetime JsonLogic DocModels DbModels.
From S2P Require Import ExecModels Ledger Policies Governance Execution Integration.
From S2P Require Import HitlService HitlServiceFacts Provenance.

Open Scope string_scope.
Open Scope Z_scope.

(** ** Clause digests *)
Definition no_separator (o : option string) : bool :=
  all_chars (λ c, negb (Ascii.eqb c unit_separator)) (str_or o "").

Lemma clause_payload_parts nfkc c n t :
  clause_payload nfkc c n t
  = str_or c "" +:+ String unit_separator
      (str_or n "" +:+ String unit_separator (_canonicalize nfkc t)).
Proof. done. Qed.

(** The hashed text of a clause determines its circular, its number and its
    canonical text. *)
Lemma clause_payload_inj nfkc c n t c' n' t' :
  no_separator c = true → no_separator n = true → no_separator c' = true → no_separator n' = true →
  clause_payload nfkc c n t = clause_payload nfkc c' n' t' →
  str_or c "" = str_or c' "" ∧ str_or n "" = str_or n' "" ∧ _canonicalize nfkc t = _canonicalize nfkc t'.
Proof.
  intros Hc Hn Hc' Hn'. rewrite !clause_payload_parts.
  intros [H1 H2]%(sapp_inj_sep (λ c, negb (Ascii.eqb c unit_separator))); try done.
  apply scons_inj in H2.
  apply (sapp_inj_sep (λ c, negb (Ascii.eqb c unit_separator))) in H2 as [H2 H3]; try done.
  by apply scons_inj in H3.
Qed.

(** A clause digest identifies the clause: unless SHA-256 collides on them,
    two clauses with the same digest are in the same circular, have the same
    number and the same text up to Unicode form and white space. *)
Theorem clause_digest_identity nfkc c n t c' n' t' :
  NoCollision [clause_payload nfkc c n t; clause_payload nfkc c' n' t'] →
  no_separator c = true → no_separator n = true → no_separator c' = true → no_separator n' = true →
  sha256_of_clause nfkc c n t = sha256_of_clause nfkc c' n' t' →
  str_or c "" = str_or c' "" ∧ str_or n "" = str_or n' "" ∧ _canonicalize nfkc t = _canonicalize nfkc t'.
Proof.
  intros Hnc ???? H. apply clause_payload_inj; try done.
  apply Hnc; [by left|by right; left|exact H].
Qed.

(** ** Breaks *)
Lemma break_when_nil b x : break_when b x = [] ↔ b = false.
Proof. by destruct b. Qed.

Lemma app_nil_split {A} (l l' : list A) : (l ++ l' = [])%list ↔ l = [] ∧ l' = [].
Proof. destruct l, l'; naive_solver. Qed.

Section facts.
Context (nfkc : string → string) (rule_ref review_ref : LedgerEntry → option Z).

#[local] Notation verify := (verify_decision_provenance nfkc rule_ref review_ref).
#[local] Notation breaks_of := (all_breaks nfkc review_ref).

(** What [latest_row] returns is a row of the ledger that satisfies the query. *)
Lemma latest_row_Some p ledger row :
  latest_row p ledger = Some row → row ∈ rows ledger ∧ p row = true.
Proof.
  unfold latest_row, order_by_seq. intros H%last_Some_elem_of.
  rewrite merge_sort_Permutation list_elem_of_In filter_In -list_elem_of_In in H. done.
Qed.

Lemma rule_at_version_Some d rid n r :
  rule_at_version d rid n = Some r → r ∈ d_rules d ∧ ru_rule_id r = rid ∧ ru_rule_version r = n.
Proof.
  unfold rule_at_version. intros [Hin H]%find_some. rewrite list_elem_of_In.
  apply andb_true_iff in H as [?%String.eqb_eq ?%Z.eqb_eq]. done.
Qed.

(** A valid verification went through every stage without a break. *)
Lemma verify_valid d ledger tid pdf text ctext seq out :
  verify d ledger tid pdf text ctext seq = Ok out → pv_valid out = true →
  ∃ row version rule clause circular,
    latest_row (of_transaction tid None seq) ledger = Some row
    ∧ row_rule_version row = Ok version ∧ rule_at_version d (rule_id (fields row)) version = Some rule
    ∧ clause_of d (ru_clause_id rule) = Some clause ∧ circular_of d (cl_circular_id clause) = Some circular
    ∧ breaks_of d rule clause circular row version pdf text ctext = Ok [].
Proof.
  unfold verify_decision_provenance.
  destruct (latest_row _ ledger) as [row|] eqn:E1; [|by intros [= <-]].
  intros (version & E2 & H)%res_bind_Ok.
  destruct (rule_at_version _ _ _) as [rule|] eqn:E3; [|by injection H as <-].
  destruct (clause_of _ _) as [clause|] eqn:E4; [|by injection H as <-].
  destruct (circular_of _ _) as [circular|] eqn:E5; [|by injection H as <-].
  apply res_bind_Ok in H as (breaks & E6 & H). apply res_bind_Ok in H as (chain & _ & H).
  injection H as <-. simpl. intros Hv. destruct breaks; [|done].
  exists row, version, rule, clause, circular. done.
Qed.

(** The conditions under which no stage breaks. *)
Record sound_decision (d : database) (rule : CompiledRule) (clause : Clause) (circular : Circular)
    (row : LedgerEntry) (version : Z) (pdf text ctext : option string) : Prop :=
  { sd_pdf : ∀ b, pdf = Some b → ci_source_document_sha256 circular = Some (sha256_of_bytes b)
  ; sd_text : ∀ t, text = Some t → ci_raw_text_digest circular = sha256_of_extracted_text nfkc t
  ; sd_clause : cl_sha256 clause = sha256_of_clause nfkc (Some (ci_circular_number circular))
                  (cl_clause_number clause) (default (cl_text clause) ctext)
  ; sd_ledger_clause : clause_hash (fields row) = cl_sha256 clause
  ; sd_facts : ∀ s c, digest_detail row "canonical_facts_digest" = Ok (Some s) →
      metadata_digest rule = Ok (Some c) → c ≠ "" → s = c
  ; sd_policy : ∀ s, digest_detail row "policy_sha256" = Ok (Some s) → truthy (ru_rego_policy rule) = true →
      s = sha256_hex (str_or (ru_rego_policy rule) "")
  ; sd_review : ∀ v, review_of_row review_ref d rule clause version row = Some v →
      rv_status v = "RESOLVED" ∧ truthy (rv_compliance_officer_id v) = true
      ∧ ∀ n, rv_approved_rule_version v = Some n → n = version
  ; sd_transaction : ∀ s, text_detail row "transaction_input_digest" = Ok (Some s) → s ≠ "" →
      is_Some (detail row "facts") → s = sha256_hex (dumps (row_transaction_payload row))
  ; sd_evidence : ∀ s, text_detail row "evidence_digest" = Ok (Some s) → s ≠ "" →
      s = compute_evidence_digest (row_evidence row version)
  ; sd_payload : payload_digest row = compute_payload_digest (fields row)
  ; sd_block : current_hash row
      = compute_block_hash (previous_hash row) (payload_digest row) (sequence_num row)
          (evaluated_at (fields row)) }.

Lemma review_breaks_nil review version :
  review_breaks review version = [] →
  ∀ v, review = Some v → rv_status v = "RESOLVED" ∧ truthy (rv_compliance_officer_id v) = true
       ∧ ∀ n, rv_approved_rule_version v = Some n → n = version.
Proof.
  intros H v ->. unfold review_breaks in H.
  apply app_nil_split in H as [H1 H]. apply app_nil_split in H as [H2 H3].
  apply break_when_nil, negb_false_iff, String.eqb_eq in H1. apply break_when_nil, negb_false_iff in H3.
  split_and!; [done..|]. intros n E. rewrite E in H2.
  by apply break_when_nil, negb_false_iff, Z.eqb_eq in H2.
Qed.

Lemma review_breaks_none review version :
  (∀ v, review = Some v → rv_status v = "RESOLVED" ∧ truthy (rv_compliance_officer_id v) = true
        ∧ ∀ n, rv_approved_rule_version v = Some n → n = version) →
  review_breaks review version = [].
Proof.
  intros H. destruct review as [v|]; [|done]. destruct (H v eq_refl) as (H1 & H2 & H3).
  unfold review_breaks. rewrite H1 H2. simpl.
  destruct (rv_approved_rule_version v) as [n|]; [|done]. rewrite (H3 n eq_refl) Z.eqb_refl. done.
Qed.

(** No breaks means sound. *)
Lemma breaks_nil_sound d rule clause circular row version pdf text ctext :
  breaks_of d rule clause circular row version pdf text ctext = Ok [] →
  sound_decision d rule clause circular row version pdf text ctext.
Proof.
  unfold all_breaks. intros (b4 & H4 & H)%res_bind_Ok.
  apply res_bind_Ok in H as (b5 & H5 & H). apply res_bind_Ok in H as (b8 & H8 & H).
  apply res_bind_Ok in H as (b10 & H10 & H). injection H as H.
  apply app_nil_split in H as [Hs H]. apply app_nil_split in H as [Hc H].
  apply app_nil_split in H as [-> H]. apply app_nil_split in H as [-> H].
  apply app_nil_split in H as [Hr H]. apply app_nil_split in H as [-> H].
  apply app_nil_split in H as [-> Hl].
  unfold source_breaks in Hs. apply app_nil_split in Hs as [Hs1 Hs2].
  unfold clause_breaks in Hc. apply app_nil_split in Hc as [Hc1 Hc2].
  unfold ledger_breaks in Hl. apply app_nil_split in Hl as [Hl1 Hl2].
  split.
  - intros b ->. by apply break_when_nil, negb_false_iff, bool_decide_eq_true in Hs1.
  - intros t ->. by apply break_when_nil, negb_false_iff, String.eqb_eq in Hs2.
  - by apply break_when_nil, negb_false_iff, String.eqb_eq in Hc1.
  - by apply break_when_nil, negb_false_iff, String.eqb_eq in Hc2.
  - intros s c Es Ec Hne. unfold facts_breaks in H4. rewrite Es in H4. simpl in H4. rewrite Ec in H4.
    simpl in H4. apply Ok_inj, break_when_nil in H4. apply andb_false_iff in H4 as [H4|H4].
    + apply negb_false_iff, String.eqb_eq in H4. done.
    + by apply negb_false_iff, String.eqb_eq in H4.
  - intros s Es Ht. unfold policy_breaks in H5. rewrite Ht Es in H5. cbn [negb res_bind] in H5.
    by apply Ok_inj, break_when_nil, negb_false_iff, String.eqb_eq in H5.
  - by apply review_breaks_nil.
  - intros s Es Hne Hf. unfold transaction_breaks in H8. rewrite Es in H8. cbn [res_bind] in H8.
    rewrite (proj2 (String.eqb_neq _ _) Hne) bool_decide_eq_true_2 in H8; [|done]. cbn [negb andb] in H8.
    by apply Ok_inj, break_when_nil, negb_false_iff, String.eqb_eq in H8.
  - intros s Es Hne. unfold evidence_breaks in H10. rewrite Es in H10. cbn [res_bind] in H10.
    rewrite (proj2 (String.eqb_neq _ _) Hne) in H10.
    by apply Ok_inj, break_when_nil, negb_false_iff, String.eqb_eq in H10.
  - by apply break_when_nil, negb_false_iff, String.eqb_eq in Hl1.
  - by apply break_when_nil, negb_false_iff, String.eqb_eq in Hl2.
Qed.


(** ** Recorded decisions verify *)

(** Looking up an appended row by its sequence number finds it. *)
Lemma appended_row_found ledger e now ledger' row tid rid :
  append_entry ledger e now = Ok (ledger', row) → transaction_id (fields row) = tid →
  (∀ r, rid = Some r → rule_id (fields row) = r) →
  latest_row (of_transaction tid rid (Some (sequence_num row))) ledger' = Some row.
Proof.
  unfold append_entry, insert_row. intros (t & H & Hr)%res_bind_Ok Htid Hrid. injection Hr as <- <-.
  destruct (existsb _ _) eqn:E; [done|]. injection H as <-. set (row := build_row _ _ _ _) in *.
  unfold latest_row. cbn [rows]. rewrite List.filter_app.
  rewrite (proj2 (filter_nil_all (of_transaction tid rid (Some (sequence_num row))) (rows ledger))).
  2:{ intros r Hr. rewrite existsb_false_Forall Forall_forall in E. specialize (E r Hr). simpl in E.
      unfold of_transaction. rewrite E. apply andb_false_r. }
  assert (of_transaction tid rid (Some (sequence_num row)) row = true) as Hself.
  { unfold of_transaction. rewrite Htid String.eqb_refl Z.eqb_refl. destruct rid as [r|]; [|done].
    by rewrite (Hrid r eq_refl) String.eqb_refl. }
  simpl. rewrite Hself. unfold order_by_seq. done.
Qed.

(** The row of an event carries its fields and is hashed over them. *)
Lemma appended_row_fields ledger e now ledger' row :
  append_entry ledger e now = Ok (ledger', row) →
  fields row = model_dump e ∧ payload_digest row = compute_payload_digest (fields row)
  ∧ current_hash row = compute_block_hash (previous_hash row) (payload_digest row) (sequence_num row)
                         (evaluated_at (fields row)).
Proof.
  unfold append_entry. intros (t & _ & Hr)%res_bind_Ok. injection Hr as _ <-. done.
Qed.

(** The row a policy outcome leaves in the ledger. *)
Lemma outcome_row t result o e ledger now ledger' row :
  outcome_event t result o = Ok e → append_entry ledger e now = Ok (ledger', row) →
  details (fields row) = outcome_details t result o
  ∧ broker_id (fields row) = str_or (tx_broker_id t) "unknown"
  ∧ transaction_id (fields row) = tx_transaction_id t
  ∧ circular_id (fields row) = str_or (po_circular_number o) "unknown"
  ∧ clause_hash (fields row) = clause_hash_of o
  ∧ section_reference (fields row) = str_or (po_clause_number o) "unscoped"
  ∧ rule_id (fields row) = po_rule_id o
  ∧ evaluation_result (fields row) = outcome_value (_outcome_result o)
  ∧ hitl_review_id (fields row) = review_id result (_outcome_result o).
Proof.
  intros He Ha. apply appended_row_fields in Ha as (-> & _ & _). unfold outcome_event in He.
  unfold _hitl_review_id_consistency in He.
  destruct (bool_decide _ && _); [done|]. destruct (_ && _); [done|]. by injection He as <-.
Qed.

(** The evidence payload read back from the row is the one that was hashed. *)
Lemma outcome_row_evidence t result o e ledger now ledger' row :
  outcome_event t result o = Ok e → append_entry ledger e now = Ok (ledger', row) →
  row_evidence row (version_or_1 o) = outcome_evidence t result o.
Proof.
  intros He Ha. destruct (outcome_row _ _ _ _ _ _ _ _ He Ha)
    as (Hd & _ & H2 & H3 & H4 & H5 & H6 & H7 & H8).
  unfold row_evidence, detail_json, detail, row_details. rewrite Hd H2 H3 H4 H5 H6 H7 H8.
  unfold outcome_details. cbn [obj_get String.eqb Ascii.eqb Bool.eqb default]. reflexivity.
Qed.

Lemma outcome_row_transaction t result o e ledger now ledger' row :
  outcome_event t result o = Ok e → append_entry ledger e now = Ok (ledger', row) →
  row_transaction_payload row
  = JObj [ ("broker_id", JStr (str_or (tx_broker_id t) "unknown")); ("entity_type", JStr (entity_type t));
           ("facts", JObj (facts t)); ("transaction_id", JStr (tx_transaction_id t)) ].
Proof.
  intros He Ha. destruct (outcome_row _ _ _ _ _ _ _ _ He Ha) as (Hd & H1 & H2 & _).
  unfold row_transaction_payload, detail, row_details. rewrite Hd H1 H2. reflexivity.
Qed.

(** The details of the row, one by one. *)
Lemma outcome_row_details t result o e ledger now ledger' row :
  outcome_event t result o = Ok e → append_entry ledger e now = Ok (ledger', row) →
  row_rule_version row = Ok (version_or_1 o)
  ∧ detail row "policy_sha256" = Some (opt_str (po_policy_sha256 o))
  ∧ detail row "canonical_facts_digest" = Some (opt_str (po_canonical_facts_digest o))
  ∧ detail row "facts" = Some (JObj (facts t))
  ∧ text_detail row "transaction_input_digest" = Ok (Some (compute_transaction_digest t))
  ∧ text_detail row "evidence_digest" = Ok (Some (compute_evidence_digest (outcome_evidence t result o))).
Proof.
  intros He Ha. destruct (outcome_row _ _ _ _ _ _ _ _ He Ha) as (Hd & _).
  unfold row_rule_version, text_detail, detail_json, detail, row_details. rewrite Hd.
  split_and!; reflexivity.
Qed.

Lemma transaction_breaks_broker t result o e ledger now ledger' row :
  outcome_event t result o = Ok e → append_entry ledger e now = Ok (ledger', row) →
  truthy (tx_broker_id t) = true → transaction_breaks row = Ok [].
Proof.
  intros He Ha Hb. destruct (outcome_row_details _ _ _ _ _ _ _ _ He Ha) as (_ & _ & _ & Hf & Ht & _).
  unfold transaction_breaks. rewrite Ht. cbn [res_bind].
  destruct (String.eqb _ ""); [done|]. rewrite Hf. cbn [negb andb]. rewrite bool_decide_eq_true_2; [|done].
  rewrite (outcome_row_transaction _ _ _ _ _ _ _ _ He Ha). unfold compute_transaction_digest.
  destruct (tx_broker_id t) as [b|]; [|done]. simpl in Hb. cbn [str_or].
  apply negb_true_iff in Hb. rewrite Hb. by rewrite String.eqb_refl.
Qed.

Lemma evidence_breaks_none t result o e ledger now ledger' row :
  outcome_event t result o = Ok e → append_entry ledger e now = Ok (ledger', row) →
  evidence_breaks row (version_or_1 o) = Ok [].
Proof.
  intros He Ha. destruct (outcome_row_details _ _ _ _ _ _ _ _ He Ha) as (_ & _ & _ & _ & _ & Hev).
  unfold evidence_breaks. rewrite Hev. cbn [res_bind]. destruct (String.eqb _ ""); [done|].
  rewrite (outcome_row_evidence _ _ _ _ _ _ _ _ He Ha). by rewrite String.eqb_refl.
Qed.

(** A digest column that is text or NULL. *)
Lemma digest_detail_opt row k o :
  detail row k = Some (opt_str o) →
  digest_detail row k = Ok (if truthy o then o else None).
Proof.
  intros H. unfold digest_detail, detail_json. rewrite H. destruct o as [s|]; [|done]. simpl.
  by destruct (String.eqb s "").
Qed.

(** The columns of the ledger that the traversal reads as text. *)
Definition text_digests (row : LedgerEntry) : bool :=
  is_ok (text_detail row "transaction_input_digest") && is_ok (text_detail row "evidence_digest").

Lemma decision_chain_ok d ledger tid rid seq pdf text row version rule clause circular :
  latest_row (of_transaction tid rid seq) ledger = Some row → row_rule_version row = Ok version →
  rule_at_version d (rule_id (fields row)) version = Some rule → ru_provenance_metadata rule = None →
  clause_of d (ru_clause_id rule) = Some clause → circular_of d (cl_circular_id clause) = Some circular →
  (∀ r, r ∈ rows ledger → text_digests r = true) →
  ∃ chain, get_decision_provenance_chain nfkc rule_ref d ledger tid rid seq pdf text = Ok (Some chain)
    ∧ pc_transaction_id chain
      = (λ r, transaction_id (fields r)) <$> latest_row (evidences rule_ref rule clause) ledger.
Proof.
  intros E1 E2 E3 Em E4 E5 Htx. unfold get_decision_provenance_chain. rewrite E1 E2. cbn [res_bind].
  unfold get_rule_provenance_chain. rewrite E3 E4 E5. unfold metadata_digest. rewrite Em. cbn [res_bind].
  destruct (latest_row (evidences rule_ref rule clause) ledger) as [r|] eqn:Er.
  - apply latest_row_Some in Er as [Hr _]. apply Htx, andb_true_iff in Hr as [H1 H2].
    destruct (text_detail r "transaction_input_digest"); [|done].
    destruct (text_detail r "evidence_digest"); [|done]. cbn [res_bind]. by eexists.
  - cbn [res_bind]. by eexists.
Qed.

Lemma recorded_decision_passes t result o e ledger now ledger' row d rule clause circular
    pdf text :
  outcome_event t result o = Ok e → append_entry ledger e now = Ok (ledger', row) →
  truthy (tx_broker_id t) = true →
  rule_at_version d (po_rule_id o) (version_or_1 o) = Some rule → ru_provenance_metadata rule = None →
  clause_of d (ru_clause_id rule) = Some clause → circular_of d (cl_circular_id clause) = Some circular →
  clause_hash_of o = cl_sha256 clause →
  cl_sha256 clause = sha256_of_clause nfkc (Some (ci_circular_number circular)) (cl_clause_number clause)
                       (cl_text clause) →
  (∀ s, po_policy_sha256 o = Some s → s = sha256_hex (str_or (ru_rego_policy rule) "")) →
  (∀ v, review_of_row review_ref d rule clause (version_or_1 o) row = Some v →
     rv_status v = "RESOLVED" ∧ truthy (rv_compliance_officer_id v) = true
     ∧ ∀ n, rv_approved_rule_version v = Some n → n = version_or_1 o) →
  (∀ b, pdf = Some b → ci_source_document_sha256 circular = Some (sha256_of_bytes b)) →
  (∀ x, text = Some x → ci_raw_text_digest circular = sha256_of_extracted_text nfkc x) →
  (∀ r, r ∈ rows ledger' → text_digests r = true) →
  ∃ out, verify d ledger' (tx_transaction_id t) pdf text None (Some (sequence_num row)) = Ok out
    ∧ pv_valid out = true ∧ pv_breaks out = [] ∧ pv_rule_version out = version_or_1 o.
Proof.
  intros He Ha Hb Hrule Hm Hcl Hci Hch Hsha Hpol Hrev Hpdf Htext Htx.
  pose proof (outcome_row _ _ _ _ _ _ _ _ He Ha) as (_ & _ & Htid & _ & Hclh & _ & Hrid & _).
  pose proof (outcome_row_details _ _ _ _ _ _ _ _ He Ha) as (Hver & Hdp & Hdc & _).
  pose proof (appended_row_fields _ _ _ _ _ Ha) as (_ & Hpd & Hbh).
  pose proof (appended_row_found _ _ _ _ _ (tx_transaction_id t) None Ha Htid) as Hrow.
  pose proof (appended_row_found _ _ _ _ _ (tx_transaction_id t) (Some (po_rule_id o)) Ha Htid) as Hrow'.
  unfold verify_decision_provenance. rewrite Hrow; [|done]. rewrite Hver. cbn [res_bind].
  rewrite Hrid Hrule Hcl Hci.
  assert (breaks_of d rule clause circular row (version_or_1 o) pdf text None = Ok []) as ->.
  { unfold all_breaks, facts_breaks, policy_breaks. rewrite (digest_detail_opt _ _ _ Hdc).
    rewrite (digest_detail_opt _ _ _ Hdp).
    rewrite (transaction_breaks_broker _ _ _ _ _ _ _ _ He Ha Hb).
    rewrite (evidence_breaks_none _ _ _ _ _ _ _ _ He Ha).
    rewrite (review_breaks_none _ _ Hrev). unfold metadata_digest. rewrite Hm. cbn [res_bind].
    assert (source_breaks nfkc circular pdf text = []) as ->.
    { unfold source_breaks. apply app_nil_split. split.
      - destruct pdf as [b|]; [|done]. apply break_when_nil, negb_false_iff, bool_decide_eq_true. auto.
      - destruct text as [x|]; [|done]. apply break_when_nil, negb_false_iff, String.eqb_eq.
        symmetry. auto. }
    assert (clause_breaks nfkc circular clause None row = []) as ->.
    { unfold clause_breaks. cbn [default]. rewrite -Hsha Hclh Hch String.eqb_refl. done. }
    assert (ledger_breaks row = []) as ->.
    { unfold ledger_breaks. by rewrite -Hpd -Hbh !String.eqb_refl. }
    destruct (truthy (po_canonical_facts_digest o)), (po_canonical_facts_digest o) as [cf|]; cbn [res_bind];
      (destruct (truthy (ru_rego_policy rule)); cbn [negb res_bind]; [|done]);
      (destruct (po_policy_sha256 o) as [s|] eqn:Es; cbn [truthy]; [|done]);
      (destruct (negb (String.eqb s "")); [|done]); rewrite (Hpol s eq_refl) String.eqb_refl; reflexivity. }
  cbn [res_bind].
  destruct (decision_chain_ok d ledger' (tx_transaction_id t) (Some (po_rule_id o))
    (Some (sequence_num row)) pdf text row (version_or_1 o) rule clause circular)
    as (chain & -> & _); try done.
  - apply Hrow'. by intros r [= <-].
  - by rewrite Hrid.
  - cbn [res_bind]. by eexists.
Qed.

(** C16. A recorded decision verifies: the row that [log_evaluation] appends for
    a matched policy of a transaction with a broker passes every stage, when
    the rule version, clause and circular it names are stored, the clause
    digest is that of the stored text, the policy digest is that of the stored
    policy and the review found is approved for that version. *)
Theorem recorded_decision_verifies t result o e ledger now ledger' row d rule clause circular
    pdf text :
  outcome_event t result o = Ok e → append_entry ledger e now = Ok (ledger', row) →
  truthy (tx_broker_id t) = true →
  rule_at_version d (po_rule_id o) (version_or_1 o) = Some rule → ru_provenance_metadata rule = None →
  clause_of d (ru_clause_id rule) = Some clause → circular_of d (cl_circular_id clause) = Some circular →
  clause_hash_of o = cl_sha256 clause →
  cl_sha256 clause = sha256_of_clause nfkc (Some (ci_circular_number circular)) (cl_clause_number clause)
                       (cl_text clause) →
  (∀ s, po_policy_sha256 o = Some s → s = sha256_hex (str_or (ru_rego_policy rule) "")) →
  (∀ v, review_of_row review_ref d rule clause (version_or_1 o) row = Some v →
     rv_status v = "RESOLVED" ∧ truthy (rv_compliance_officer_id v) = true
     ∧ ∀ n, rv_approved_rule_version v = Some n → n = version_or_1 o) →
  (∀ b, pdf = Some b → ci_source_document_sha256 circular = Some (sha256_of_bytes b)) →
  (∀ x, text = Some x → ci_raw_text_digest circular = sha256_of_extracted_text nfkc x) →
  (∀ r, r ∈ rows ledger' → text_digests r = true) →
  ∃ out, verify d ledger' (tx_transaction_id t) pdf text None (Some (sequence_num row)) = Ok out
    ∧ pv_valid out = true ∧ pv_breaks out = [] ∧ pv_rule_version out = version_or_1 o.
Proof. apply recorded_decision_passes. Qed.

(** ** Decisions the verifier cannot confirm *)

(** The transaction digest is taken with an empty broker and recomputed with
    the ledger's ["unknown"]. *)
Lemma brokerless_payloads_differ t :
  dumps (JObj [ ("broker_id", JStr "unknown"); ("entity_type", JStr (entity_type t));
                ("facts", JObj (facts t)); ("transaction_id", JStr (tx_transaction_id t)) ])
  ≠ dumps (JObj [ ("broker_id", JStr ""); ("entity_type", JStr (entity_type t));
                  ("facts", JObj (facts t)); ("transaction_id", JStr (tx_transaction_id t)) ]).
Proof.
  intros H%dumps_inj. apply (jeq_obj_get _ _ "broker_id") in H; [done|..];
    simpl; by apply (bool_decide_unpack _).
Qed.

(** A decision on a transaction without a broker is never confirmed: the
    stored transaction digest was taken over an empty broker and is recomputed
    over "unknown", so unless SHA-256 collides the verification of the row just
    recorded reports a break. *)
Theorem brokerless_decision_rejected t result o e ledger now ledger' row d pdf text ctext :
  outcome_event t result o = Ok e → append_entry ledger e now = Ok (ledger', row) →
  truthy (tx_broker_id t) = false →
  NoCollision
    [ dumps (JObj [ ("broker_id", JStr "unknown"); ("entity_type", JStr (entity_type t));
                    ("facts", JObj (facts t)); ("transaction_id", JStr (tx_transaction_id t)) ]);
      dumps (JObj [ ("broker_id", JStr ""); ("entity_type", JStr (entity_type t));
                    ("facts", JObj (facts t)); ("transaction_id", JStr (tx_transaction_id t)) ]) ] →
  ¬ ∃ out, verify d ledger' (tx_transaction_id t) pdf text ctext (Some (sequence_num row)) = Ok out
           ∧ pv_valid out = true.
Proof.
  intros He Ha Hb Hnc (out & Hv & E).
  pose proof (outcome_row _ _ _ _ _ _ _ _ He Ha) as (_ & _ & Htid & _).
  pose proof (outcome_row_details _ _ _ _ _ _ _ _ He Ha) as (_ & _ & _ & Hf & Ht & _).
  destruct (verify_valid _ _ _ _ _ _ _ _ Hv E) as (row' & version & rule & clause & circular & E1 & _ & _ & _ & _ & E6).
  rewrite (appended_row_found _ _ _ _ _ (tx_transaction_id t) None Ha Htid) in E1; [|done].
  injection E1 as <-. apply breaks_nil_sound in E6.
  assert (compute_transaction_digest t ≠ "") as Hne.
  { intros Ez. pose proof (sha256_hex_length (dumps (JObj [ ("broker_id", JStr (str_or (tx_broker_id t) ""));
      ("entity_type", JStr (entity_type t)); ("facts", JObj (facts t));
      ("transaction_id", JStr (tx_transaction_id t)) ]))) as Hl.
    unfold compute_transaction_digest in Ez. rewrite Ez in Hl. done. }
  pose proof (sd_transaction _ _ _ _ _ _ _ _ _ E6 _ Ht Hne ltac:(by rewrite Hf)) as Hs.
  rewrite (outcome_row_transaction _ _ _ _ _ _ _ _ He Ha) in Hs. unfold compute_transaction_digest in Hs.
  assert (str_or (tx_broker_id t) "" = "") as Hb1.
  { destruct (tx_broker_id t) as [b|]; [|done]. simpl in *. by destruct (String.eqb_spec b ""). }
  assert (str_or (tx_broker_id t) "unknown" = "unknown") as Hb2.
  { destruct (tx_broker_id t) as [b|]; [|done]. simpl in *. by destruct (String.eqb b ""). }
  rewrite Hb1 Hb2 in Hs. symmetry in Hs. apply Hnc in Hs; [|by left|by right; left].
  by apply brokerless_payloads_differ in Hs.
Qed.

(** A clause hashed before its circular got a generated number never matches
    the digest recomputed with that number. *)
Lemma unnumbered_clause_rejected circular clause row x :
  cl_sha256 clause = sha256_of_clause nfkc None (cl_clause_number clause) (cl_text clause) →
  ci_circular_number circular = "SEBI/CIR/" +:+ x →
  NoCollision [clause_payload nfkc (Some ("SEBI/CIR/" +:+ x)) (cl_clause_number clause) (cl_text clause);
               clause_payload nfkc None (cl_clause_number clause) (cl_text clause)] →
  clause_breaks nfkc circular clause None row ≠ [].
Proof.
  intros Hs Hn Hnc H. unfold clause_breaks in H. apply app_nil_split in H as [H _].
  apply break_when_nil, negb_false_iff, String.eqb_eq in H. rewrite Hs Hn in H. cbn [default] in H.
  unfold sha256_of_clause in H. apply Hnc in H; [|by left|by right; left].
  rewrite !clause_payload_parts in H. discriminate H.
Qed.

(** A transaction that matched no policy has no rule to be traced to. *)
Lemma transaction_row_rejected d ledger tid pdf text ctext seq out row dec :
  latest_row (of_transaction tid None seq) ledger = Some row →
  rule_id (fields row) = synthetic_rule_id dec →
  (∀ r, r ∈ d_rules d → ru_rule_id r ≠ synthetic_rule_id dec) →
  verify d ledger tid pdf text ctext seq = Ok out → pv_valid out = false.
Proof.
  intros E1 Hr Hno Hv. destruct (pv_valid out) eqn:E; [exfalso|done].
  destruct (verify_valid _ _ _ _ _ _ _ _ Hv E) as (row' & version & rule & clause & circular & E1' & _ & E3 & _).
  rewrite E1 in E1'. injection E1' as <-. apply rule_at_version_Some in E3 as (Hin & Hid & _).
  apply (Hno _ Hin). congruence.
Qed.
End facts.

(** ** Concrete decisions *)
Definition x_time : datetime := Datetime 63000000000000000 (Some 0).
Definition x_circular : Circular :=
  CircularRow 1 "sebi_baseline" true "SEBI/HO/2024/1" None None None None None None None "" "APPROVED" None x_time.
Definition x_clause : Clause :=
  ClauseRow 2 1 "sebi_baseline" (Some "4.1") None [] "clause" "Margin" "cafe" None None false "COMPILED" None.
Definition x_rule : CompiledRule :=
  RuleRow 3 2 "sebi_baseline" "cafe:4.1" 1 (Some "package p") (Some "p") None true true "RESOLVED" None None None.
Definition x_db : database := Db ["sebi_baseline"] [x_circular] [x_clause] [x_rule] [] [] 4.
Definition x_row (n : Z) (tid : string) : LedgerEntry :=
  {| id := n; sequence_num := n;
     fields := EventFields "B1" tid x_time "SEBI/HO/2024/1" "cafe" "4.1" "cafe:4.1" "PASS" None
                 (JObj [("rule_version", JInt 1)]);
     payload_digest := "p"; previous_hash := "h"; current_hash := "c"; created_at := x_time |}.
Definition x_ledger : ledger_table := Table [x_row 0 "tx-1"; x_row 1 "tx-2"] 2.

(** The chain of the first decision shows the ledger row of the second. *)
Lemma decision_chain_shows_other_transaction :
  pc_transaction_id <$> default None
    (match get_decision_provenance_chain (λ s, s) (λ _, None) x_db x_ledger "tx-1" None None None None with
     | Ok c => Some c | Raise _ => None end)
  = Some (Some "tx-2").
Proof. reflexivity. Qed.

(** A decision with real digests. *)
Definition y_sha : string := sha256_of_clause (λ s, s) (Some "SEBI/HO/2024/1") (Some "4.1") "Margin".
Definition y_clause : Clause :=
  ClauseRow 2 1 "sebi_baseline" (Some "4.1") None [] "clause" "Margin" y_sha None None false "COMPILED" None.
Definition y_db : database := Db ["sebi_baseline"] [x_circular] [y_clause] [x_rule] [] [] 4.
Definition y_tx (broker : option string) : TransactionPayload :=
  {| tx_transaction_id := "tx-1"; entity_type := "Stockbroker"; facts := [("margin", JInt 20)];
     source_channel := REST_SYNC; tx_broker_id := broker; callback_url := None; received_at := x_time;
     metadata := [] |}.
Definition y_outcome : PolicyOutcome :=
  {| po_rule_id := "cafe:4.1"; po_package := "p"; allow := Some true; violations := [];
     po_circular_number := Some "SEBI/HO/2024/1"; po_clause_number := Some "4.1"; po_rule_version := Some 1;
     po_policy_sha256 := Some (sha256_hex "package p"); po_canonical_facts_digest := None;
     po_source_document_sha256 := None; po_extracted_text_sha256 := None; po_clause_sha256 := Some y_sha |}.
Definition y_result : EvaluationResult :=
  {| er_transaction_id := "tx-1"; decision := ALLOW; matched_policies := [y_outcome]; reasons := [];
     hitl_case_id := None; er_evaluated_at := x_time |}.
Definition y_event (broker : option string) : ComplianceEvaluationEvent :=
  {| ev_broker_id := str_or broker "unknown"; ev_transaction_id := "tx-1"; ev_evaluated_at := x_time;
     ev_circular_id := "SEBI/HO/2024/1"; ev_clause_hash := clause_hash_of y_outcome;
     ev_section_reference := "4.1"; ev_rule_id := "cafe:4.1"; ev_evaluation_result := PASS;
     ev_hitl_review_id := None; ev_details := outcome_details (y_tx broker) y_result y_outcome |}.
Definition y_row (broker : option string) : LedgerEntry :=
  build_row None (model_dump (y_event broker)) 0 x_time.

Lemma y_event_ok broker : outcome_event (y_tx broker) y_result y_outcome = Ok (y_event broker).
Proof. reflexivity. Qed.
Lemma y_append_ok broker :
  append_entry (Table [] 0) (y_event broker) x_time = Ok (Table [y_row broker] 1, y_row broker).
Proof. reflexivity. Qed.
Lemma y_clause_hash : clause_hash_of y_outcome = cl_sha256 y_clause.
Proof.
  unfold clause_hash_of, y_outcome. cbn [po_clause_sha256 str_or].
  destruct (String.eqb_spec y_sha "") as [E|]; [|done].
  pose proof (sha256_hex_length (clause_payload (λ s, s) (Some "SEBI/HO/2024/1") (Some "4.1") "Margin")) as Hl.
  unfold y_sha, sha256_of_clause in E. by rewrite E in Hl.
Qed.

Lemma recorded_decision_verifies_witness :
  ∃ out, verify_decision_provenance (λ s, s) (λ _, None) (λ _, None) y_db (Table [y_row (Some "B1")] 1)
           "tx-1" None None None (Some 0) = Ok out
    ∧ pv_valid out = true ∧ pv_breaks out = [] ∧ pv_rule_version out = 1.
Proof.
  apply (recorded_decision_verifies (λ s, s) (λ _, None) (λ _, None) (y_tx (Some "B1")) y_result
    y_outcome (y_event (Some "B1")) (Table [] 0) x_time (Table [y_row (Some "B1")] 1) (y_row (Some "B1"))
    y_db x_rule y_clause x_circular None None (y_event_ok _) (y_append_ok _) eq_refl eq_refl eq_refl
    eq_refl eq_refl y_clause_hash); try done.
  - by intros s [= <-].
  - by intros r ->%list_elem_of_singleton.
Defined.


Lemma clause_digest_identity_witness :
  str_or (Some "SEBI/HO/2024/1") "" = str_or (Some "SEBI/HO/2024/1") "" ∧ str_or (Some "4.1") "" = str_or (Some "4.1") ""
  ∧ _canonicalize (λ s, s) "Margin  rules" = _canonicalize (λ s, s) "Margin rules".
Proof.
  apply (clause_digest_identity (λ s, s) (Some "SEBI/HO/2024/1") (Some "4.1") "Margin  rules"
           (Some "SEBI/HO/2024/1") (Some "4.1") "Margin rules"); try reflexivity.
  by intros m m' [-> | ->%list_elem_of_singleton]%elem_of_cons [-> | ->%list_elem_of_singleton]%elem_of_cons _.
Defined.

Definition y_payload (broker : string) : string :=
  dumps (JObj [ ("broker_id", JStr broker); ("entity_type", JStr "Stockbroker");
                ("facts", JObj [("margin", JInt 20)]); ("transaction_id", JStr "tx-1") ]).

Lemma y_payloads_no_collision : NoCollision [y_payload "unknown"; y_payload ""].
Proof.
  assert (sha256_hex (y_payload "unknown") ≠ sha256_hex (y_payload "")) as Hne by (vm_compute; discriminate).
  intros m m' [-> | ->%list_elem_of_singleton]%elem_of_cons [-> | ->%list_elem_of_singleton]%elem_of_cons E;
    [done|by destruct Hne|by destruct Hne|done].
Qed.

Lemma brokerless_decision_rejected_witness :
  ¬ ∃ out, verify_decision_provenance (λ s, s) (λ _, None) (λ _, None) y_db (Table [y_row None] 1)
             "tx-1" None None None (Some 0) = Ok out ∧ pv_valid out = true.
Proof.
  apply (brokerless_decision_rejected (λ s, s) (λ _, None) (λ _, None) (y_tx None) y_result y_outcome
    (y_event None) (Table [] 0) x_time (Table [y_row None] 1) (y_row None) y_db None None None
    (y_event_ok _) (y_append_ok _) eq_refl y_payloads_no_collision).
Defined.
