(* ===== verification/Backtest.v ===== *)
(** * Replaying history against a candidate rule: [src/app/backtest/]

    [replay_engine.py] rebuilds transactions from ledger rows and runs a
    candidate evaluator on them, [reporting.py] classifies and counts the
    differences, [orchestrator.py] ties them together for a backtest and for the
    impact preview of the review screen.  Rows come from [Ledger]; OPA, uuids
    and clocks are arguments. *)
From S2P Require Import Prelude PyStr PyFloat Sha256 Json Datetime Ledger ExecModels PyText Difflib JsonLogic.
From S2P Require Import Policies Governance Execution.
From Stdlib Require Import SpecFloat.

Open Scope string_scope.
Open Scope Z_scope.

(** ** [models.py] *)
Inductive DeltaChangeType := UNCHANGED_PASS | UNCHANGED_FAIL | NEW_FAILURE | NEWLY_PASSING | UNDEFINED_NOW.

#[export] Instance DeltaChangeType_eq_dec : EqDecision DeltaChangeType.
Proof. solve_decision. Defined.

Record HistoricalTransaction := Historical
  { ht_transaction_id : string
  ; ht_broker_id : string
  ; ht_entity_type : string
  ; ht_facts : list (string * json)
  ; ht_evaluated_at : datetime
  ; ht_rule_id : string
  ; ht_circular_number : option string
  ; ht_clause_number : option string
  ; ht_old_decision : Decision
  ; ht_old_violations : list string
  ; ht_financial_amount : option spec_float }.

Record BacktestOutcome := Outcome_
  { bo_transaction_id : string
  ; bo_broker_id : string
  ; bo_evaluated_at : datetime
  ; bo_old_decision : Decision
  ; bo_old_violations : list string
  ; bo_new_decision : Decision
  ; bo_new_violations : list string
  ; bo_change_type : DeltaChangeType
  ; bo_financial_amount : option spec_float }.

Record BrokerImpactBreakdown := Breakdown
  { bb_broker_id : string
  ; bb_total_transactions : Z
  ; bb_new_failures : Z
  ; bb_newly_passing : Z
  ; bb_projected_failure_rate_pct : spec_float }.

Record BacktestSummary := Summary
  { bs_run_id : string
  ; bs_candidate_rule_id : string
  ; bs_lookback_days : Z
  ; bs_total_transactions : Z
  ; bs_old_fail_count : Z
  ; bs_new_fail_count : Z
  ; bs_old_failure_rate_pct : spec_float
  ; bs_new_failure_rate_pct : spec_float
  ; bs_delta_failure_rate_pct : spec_float
  ; bs_new_failures : Z
  ; bs_newly_passing : Z
  ; bs_undefined_count : Z
  ; bs_unchanged_count : Z
  ; bs_broker_breakdown : list BrokerImpactBreakdown }.

Record PreviewDatasetScope := Scope
  { sc_tenant_id : string
  ; sc_rule_id : string
  ; sc_lookback_days : Z
  ; sc_start_time : option datetime
  ; sc_end_time : option datetime
  ; sc_entity_type : option string
  ; sc_max_transactions : Z }.

Record RepresentativeExample := Sample
  { re_masked_transaction_id : string
  ; re_evaluated_at : datetime
  ; re_change_type : DeltaChangeType
  ; re_old_decision : Decision
  ; re_new_decision : Decision
  ; re_old_violations : list string
  ; re_new_violations : list string
  ; re_relevant_facts : list (string * json)
  ; re_financial_amount : option spec_float }.

Record AggregateFinancialImpact := Impact
  { fi_total_new_failure_amount : spec_float
  ; fi_total_newly_passing_amount : spec_float
  ; fi_avg_new_failure_amount : spec_float
  ; fi_affected_transactions_with_amounts : Z }.

Record RuleImpactPreviewReport := Report
  { rp_preview_id : string
  ; rp_candidate_rule_id : string
  ; rp_candidate_policy_hash : string
  ; rp_candidate_version : option Z
  ; rp_baseline_policy_hash : option string
  ; rp_evaluator_version : string
  ; rp_execution_timestamp : datetime
  ; rp_scope : PreviewDatasetScope
  ; rp_dataset_snapshot_hash : string
  ; rp_total_evaluated : Z
  ; rp_newly_affected : Z
  ; rp_no_longer_affected : Z
  ; rp_unchanged_count : Z
  ; rp_undefined_count : Z
  ; rp_old_fail_count : Z
  ; rp_new_fail_count : Z
  ; rp_old_failure_rate_pct : spec_float
  ; rp_new_failure_rate_pct : spec_float
  ; rp_delta_failure_rate_pct : spec_float
  ; rp_financial_impact : AggregateFinancialImpact
  ; rp_representative_examples : list RepresentativeExample
  ; rp_result_digest : string
  ; rp_is_live_policy_safe : bool }.

(** ** [float(s)] of a string *)

(** Digits with single underscores between them: the digits, or [None]. *)
Fixpoint digit_run (s : string) : option string :=
  match s with
  | "" => Some ""
  | String "_" (String c s') => if is_digit c then String c <$> digit_run s' else None
  | String c s' => if is_digit c then String c <$> digit_run s' else None
  end.
Definition digits_of (s : string) : option string :=
  if startswith "_" s then None else digit_run s.

Definition signed (s : string) : bool * string :=
  if startswith "-" s then (true, sdrop 1 s) else if startswith "+" s then (false, sdrop 1 s) else (false, s).

Definition has_exponent (s : string) : bool := contains "e" s.

Definition py_float (text : string) : option spec_float :=
  let s := lower (strip text) in
  let '(neg, body) := signed s in
  let sign := if neg then SFopp else λ x, x in
  if String.eqb body "inf" || String.eqb body "infinity" then Some (S754_infinity neg)
  else if String.eqb body "nan" then Some S754_nan
  else
    let mantissa := before "e" body in
    let int_part := before "." mantissa in
    let frac := sdrop (S (String.length int_part)) mantissa in
    let '(eneg, etext) := signed (sdrop (S (String.length mantissa)) body) in
    match digits_of int_part, digits_of frac, digits_of etext with
    | Some i, Some f, Some e =>
        if String.eqb (i +:+ f) "" || (has_exponent body && String.eqb e "") then None
        else
          let n := digits_value (digits_value 0 i) f in
          let exp := (if eneg then -1 else 1) * digits_value 0 e - Z.of_nat (String.length f) in
          Some (if n =? 0 then S754_zero neg
                else sign (ratio_float (n * 10 ^ Z.max 0 exp) (10 ^ Z.max 0 (- exp))))
    | _, _, _ => None
    end.

(** [round(x, 2)] *)
Definition round2 (x : spec_float) : spec_float :=
  match x with S754_finite _ _ _ => float_of_numeral (fmt_fixed 2 x) | _ => x end.

(** ** [replay_engine.py] *)
Inductive backtest_error :=
| FloatOverflow                  (* OverflowError: int too large to convert to float *)
| BadRow                         (* details of another shape: AttributeError, TypeError or ValidationError *)
| TenantIsolationBreach (tx broker : string)   (* ValueError *)
| NoCandidate                    (* ValueError *)
| CandidateRaised (e : candidate_error)
| Cancelled                      (* asyncio.CancelledError *)
| PreviewTimeout                 (* TimeoutError *).

Definition _FINANCIAL_KEYS : list string :=
  ["order_value"; "trade_amount"; "notional_value"; "margin_shortfall"; "transaction_amount"; "amount";
   "portfolio_value"].

Definition float_of_int (z : Z) : res backtest_error (option spec_float) :=
  match float_of_Z z with S754_infinity _ => Raise FloatOverflow | f => Ok (Some f) end.

Fixpoint financial_value (keys : list string) (facts : list (string * json)) : res backtest_error (option spec_float) :=
  match keys with
  | [] => Ok None
  | key :: keys' =>
      match obj_get key facts with
      | Some (JInt z) => float_of_int z
      | Some (JBool b) => Ok (Some (float_of_Z (if b then 1 else 0)))
      | Some (JFloat f) => Ok (Some f)
      | Some (JStr s) =>
          match py_float (str_replace "," "" s) with
          | Some f => Ok (Some f)
          | None => financial_value keys' facts
          end
      | _ => financial_value keys' facts
      end
  end.
Definition extract_financial_value : list (string * json) → res backtest_error (option spec_float) :=
  financial_value _FINANCIAL_KEYS.

(** [sorted(l, key=...)]: stable, by a total preorder on keys. *)
Fixpoint insert_by {A} (leb : A → A → bool) (x : A) (l : list A) : list A :=
  match l with [] => [x] | y :: l' => if leb x y then x :: l else y :: insert_by leb x l' end.
Definition sort_by {A} (leb : A → A → bool) (l : list A) : list A := foldr (insert_by leb) [] l.

(** [d.isoformat()]; the driver returns aware UTC times. *)
Definition isoformat (d : datetime) : string := iso_utc (utc_us d).
(** [str(d)]: the ISO text with a blank for the T. *)
Definition str_datetime (d : datetime) : string := replace_char "T" " " (isoformat d).

Definition snapshot_leb (a b : HistoricalTransaction) : bool :=
  if String.eqb (ht_transaction_id a) (ht_transaction_id b)
  then String.leb (str_datetime (ht_evaluated_at a)) (str_datetime (ht_evaluated_at b))
  else String.leb (ht_transaction_id a) (ht_transaction_id b).
Definition snapshot_line (t : HistoricalTransaction) : string :=
  ht_transaction_id t +:+ ":" +:+ ht_broker_id t +:+ ":" +:+ ht_rule_id t +:+ ":" +:+ isoformat (ht_evaluated_at t)
  +:+ ":" +:+ decision_value (ht_old_decision t) +:+ String newline "".
Definition compute_dataset_snapshot_hash (l : list HistoricalTransaction) : string :=
  sha256_hex (join "" (map snapshot_line (sort_by snapshot_leb l))).

Definition old_decision_of (evaluation_result : string) : Decision :=
  if String.eqb evaluation_result "PASS" then ALLOW
  else if String.eqb evaluation_result "HITL_REVIEW" then FLAGGED else DENY.

(** [list(details.get("violations", []) or [])], validated as a list of texts *)
Definition violations_of (d : list (string * json)) : res backtest_error (list string) :=
  match obj_get "violations" d with
  | Some (JList l) => res_mapM (λ j, match j with JStr s => Ok s | _ => Raise BadRow end) l
  | Some (JObj l) => Ok (map fst l)
  | Some (JStr s) => Ok (code_points s)
  | Some j => if py_truthy j then Raise BadRow else Ok []
  | None => Ok []
  end.

(** [row["details"] or {}] *)
Definition details_of (j : json) : res backtest_error (list (string * json)) :=
  match j with JObj l => Ok l | _ => if py_truthy j then Raise BadRow else Ok [] end.

Definition some_value (o : option json) : option json := match o with Some JNull => None | _ => o end.

Definition is_text (s : string) (j : json) : bool := match j with JStr s' => String.eqb s' s | _ => false end.

(** One row of the loop: skipped, filtered out, or a transaction. *)
Definition historical_of (tenant_id entity_type : option string) (row : LedgerEntry)
  : res backtest_error (option HistoricalTransaction) :=
  let f := fields row in
  res_bind (details_of (details f)) (λ d,
  match some_value (obj_get "facts" d), some_value (obj_get "entity_type" d) with
  | Some fs, Some et =>
      if truthy entity_type && negb (is_text (str_or entity_type "") et) then Ok None
      else if truthy tenant_id && negb (String.eqb (broker_id f) (str_or tenant_id "")) then
        Raise (TenantIsolationBreach (transaction_id f) (broker_id f))
      else
        match fs, et with
        | JObj facts, JStr et' =>
            res_bind (violations_of d) (λ old_violations,
            res_bind (extract_financial_value facts) (λ amount,
            Ok (Some (Historical (transaction_id f) (broker_id f) et' facts (evaluated_at f) (rule_id f)
                        (Some (circular_id f)) (Some (section_reference f))
                        (old_decision_of (evaluation_result f)) old_violations amount))))
        | _, _ => Raise BadRow
        end
  | _, _ => Ok None
  end).

(** The arguments of [fetch_historical_transactions]. *)
Record fetch_args := FetchArgs
  { fa_rule_id : string
  ; fa_lookback_days : Z
  ; fa_tenant_id : option string
  ; fa_start_time : option datetime
  ; fa_end_time : option datetime
  ; fa_entity_type : option string
  ; fa_limit : option Z }.

Definition scope_args (s : PreviewDatasetScope) : fetch_args :=
  FetchArgs (sc_rule_id s) (sc_lookback_days s) (Some (sc_tenant_id s)) (sc_start_time s) (sc_end_time s)
    (sc_entity_type s) (Some (sc_max_transactions s)).

Definition cutoff (a : fetch_args) (now : datetime) : Z :=
  match fa_start_time a with Some d => utc_us d | None => utc_us now - fa_lookback_days a * us_per_day end.

Definition selected (a : fetch_args) (now : datetime) (row : LedgerEntry) : bool :=
  let f := fields row in
  String.eqb (rule_id f) (fa_rule_id a)
  && (cutoff a now <=? utc_us (evaluated_at f))
  && match fa_end_time a with Some d => utc_us (evaluated_at f) <=? utc_us d | None => true end
  && (negb (truthy (fa_tenant_id a)) || String.eqb (broker_id f) (str_or (fa_tenant_id a) "")).

Definition limited {A} (limit : option Z) (l : list A) : list A :=
  match limit with Some n => if n =? 0 then l else firstn (Z.to_nat n) l | None => l end.

(** The query; rows of the same instant come in the order of the table. *)
Definition query (a : fetch_args) (now : datetime) (ledger : list LedgerEntry) : list LedgerEntry :=
  limited (fa_limit a)
    (sort_by (λ r r', utc_us (evaluated_at (fields r)) <=? utc_us (evaluated_at (fields r')))
       (List.filter (selected a now) ledger)).

Definition fetch_historical_transactions (a : fetch_args) (now : datetime) (ledger : list LedgerEntry)
  : res backtest_error (list HistoricalTransaction) :=
  res_bind (res_mapM (historical_of (fa_tenant_id a) (fa_entity_type a)) (query a now ledger))
    (λ l, Ok (omap (λ x, x) l)).

(** [CandidateEvaluator.evaluate] *)
Definition evaluator : Type := string → list (string * json) → res candidate_error (Decision * list string).

Definition json_logic_evaluator (logic : json) : evaluator := candidate_evaluate logic None.

(** [OpaCandidateEvaluator.evaluate]; [opa] answers for the package. *)
Definition opa_evaluator (opa : json → opa_reply) : evaluator := λ entity_type facts,
  match opa (input_doc entity_type facts) with
  | OpaFailure => Ok (FLAGGED, ["Backtest OPA instance was unreachable during replay."])
  | OpaUndefined => Ok (FLAGGED, ["Candidate policy returned an undefined result for this historical transaction."])
  | OpaResult d => Ok (match od_violations d with [] => ALLOW | _ => DENY end, od_violations d)
  end.

Definition replayed : Type := HistoricalTransaction * Decision * list string.

Definition replay_transaction (ev : evaluator) (t : HistoricalTransaction) : res backtest_error replayed :=
  match ev (ht_entity_type t) (ht_facts t) with
  | Ok (d, vs) => Ok (t, d, vs)
  | Raise e => Raise (CandidateRaised e)
  end.

(** [cancelled i]: the token is set when the [i]-th transaction is reached. *)
Fixpoint replay_from (ev : evaluator) (cancelled : nat → bool) (i : nat) (l : list HistoricalTransaction)
  : res backtest_error (list replayed) :=
  match l with
  | [] => Ok []
  | t :: l' =>
      if cancelled i then Raise Cancelled
      else res_bind (replay_transaction ev t) (λ r,
           res_bind (replay_from ev cancelled (S i) l') (λ rs, Ok (r :: rs)))
  end.
Definition replay_all (ev : evaluator) (cancelled : nat → bool) (l : list HistoricalTransaction)
  : res backtest_error (list replayed) := replay_from ev cancelled 0 l.

(** ** [reporting.py] *)
Definition _classify (old_decision new_decision : Decision) : DeltaChangeType :=
  match new_decision, old_decision with
  | FLAGGED, _ => UNDEFINED_NOW
  | DENY, DENY => UNCHANGED_FAIL
  | DENY, _ => NEW_FAILURE
  | ALLOW, DENY => NEWLY_PASSING
  | ALLOW, _ => UNCHANGED_PASS
  end.

Definition build_outcomes (l : list replayed) : list BacktestOutcome :=
  map (λ '(t, d, vs),
    Outcome_ (ht_transaction_id t) (ht_broker_id t) (ht_evaluated_at t) (ht_old_decision t) (ht_old_violations t)
      d vs (_classify (ht_old_decision t) d) (ht_financial_amount t)) l.

Definition count_if {A} (p : A → bool) (l : list A) : Z := Z.of_nat (length (List.filter p l)).

Definition has_change (c : DeltaChangeType) (o : BacktestOutcome) : bool := bool_decide (bo_change_type o = c).
Definition old_failed (o : BacktestOutcome) : bool := bool_decide (bo_old_decision o = DENY).
Definition new_failed (o : BacktestOutcome) : bool := bool_decide (bo_new_decision o = DENY).

(** [n / total * 100.0] *)
Definition rate (n total : Z) : spec_float :=
  float_mul (float_div (float_of_Z n) (float_of_Z total)) (float_of_Z 100).

(** [df.groupby("broker_id")]: the brokers in ascending order. *)
Definition brokers (outcomes : list BacktestOutcome) : list string :=
  sort_by String.leb (remove_dups (map bo_broker_id outcomes)).

Definition broker_impact (outcomes : list BacktestOutcome) (broker : string) : BrokerImpactBreakdown :=
  let group := List.filter (λ o, String.eqb (bo_broker_id o) broker) outcomes in
  let group_total := Z.of_nat (length group) in
  Breakdown broker group_total (count_if (has_change NEW_FAILURE) group) (count_if (has_change NEWLY_PASSING) group)
    (round2 (rate (count_if new_failed group) group_total)).

(** [sort(key=..., reverse=True)] keeps the order of equal elements. *)
Definition broker_breakdown (outcomes : list BacktestOutcome) : list BrokerImpactBreakdown :=
  sort_by (λ a b, flt_leb (bb_projected_failure_rate_pct b) (bb_projected_failure_rate_pct a))
    (map (broker_impact outcomes) (brokers outcomes)).

Definition build_summary (candidate_rule_id : string) (lookback_days : Z) (outcomes : list BacktestOutcome)
    (run_id : string) : BacktestSummary :=
  let total := Z.of_nat (length outcomes) in
  let zero := float_of_Z 0 in
  if total =? 0 then Summary run_id candidate_rule_id lookback_days 0 0 0 zero zero zero 0 0 0 0 []
  else
    let old_fail_count := count_if old_failed outcomes in
    let new_fail_count := count_if new_failed outcomes in
    Summary run_id candidate_rule_id lookback_days total old_fail_count new_fail_count
      (round2 (rate old_fail_count total)) (round2 (rate new_fail_count total))
      (round2 (float_sub (rate new_fail_count total) (rate old_fail_count total)))
      (count_if (has_change NEW_FAILURE) outcomes) (count_if (has_change NEWLY_PASSING) outcomes)
      (count_if (has_change UNDEFINED_NOW) outcomes)
      (count_if (has_change UNCHANGED_PASS) outcomes + count_if (has_change UNCHANGED_FAIL) outcomes)
      (broker_breakdown outcomes).

Definition _REDACTED_FACT_KEYS : list string :=
  ["pan"; "aadhaar"; "trader_id"; "client_id"; "account_number"; "ssn"; "secret"; "token"; "password";
   "internal_id"; "client_name"; "tax_id"].

Definition mask_transaction_id (txn_id : string) : string :=
  if py_len txn_id <=? 8 then "txn_***" +:+ slice_from (-2) txn_id
  else utake 4 txn_id +:+ "..." +:+ slice_from (-4) txn_id.

Definition redacted (facts : list (string * json)) : list (string * json) :=
  List.filter (λ '(k, _), negb (existsb (String.eqb (lower k)) _REDACTED_FACT_KEYS)) facts.

Definition example_of (r : replayed) : RepresentativeExample :=
  let '(t, d, vs) := r in
  Sample (mask_transaction_id (ht_transaction_id t)) (ht_evaluated_at t) (_classify (ht_old_decision t) d)
    (ht_old_decision t) d (ht_old_violations t) vs (redacted (ht_facts t)) (ht_financial_amount t).

(** The first [max_per_category] of each category, in the order of the report. *)
Definition build_representative_examples (l : list replayed) (max_per_category : nat) : list RepresentativeExample :=
  List.flat_map (λ c, firstn max_per_category
      (List.filter (λ e, bool_decide (re_change_type e = c)) (map example_of l)))
    [NEW_FAILURE; NEWLY_PASSING; UNDEFINED_NOW; UNCHANGED_FAIL].

Definition amounts (c : DeltaChangeType) (outcomes : list BacktestOutcome) : list spec_float :=
  omap (λ o, if has_change c o then bo_financial_amount o else None) outcomes.

Definition build_aggregate_financial_impact (outcomes : list BacktestOutcome) : AggregateFinancialImpact :=
  let total l := fold_left float_add l (float_of_Z 0) in
  let new_failures := amounts NEW_FAILURE outcomes in
  let n := Z.of_nat (length new_failures) in
  Impact (round2 (total new_failures)) (round2 (total (amounts NEWLY_PASSING outcomes)))
    (round2 (if 0 <? n then float_div (total new_failures) (float_of_Z n) else float_of_Z 0)) n.

Definition compute_preview_result_digest (candidate_hash dataset_snapshot_hash : string) (total new_fail newly_pass : Z)
    (delta_pct : spec_float) : string :=
  sha256_hex (candidate_hash +:+ ":" +:+ dataset_snapshot_hash +:+ ":" +:+ str_of_Z total +:+ ":"
              +:+ str_of_Z new_fail +:+ ":" +:+ str_of_Z newly_pass +:+ ":" +:+ fmt_fixed 4 delta_pct).

Definition build_rule_impact_preview_report (candidate_rule_id candidate_policy_hash : string)
    (scope : PreviewDatasetScope) (dataset_snapshot_hash : string) (l : list replayed)
    (evaluator_version : string) (preview_id : option string) (uuid : string) (now : datetime)
  : RuleImpactPreviewReport :=
  let outcomes := build_outcomes l in
  let summary := build_summary candidate_rule_id (sc_lookback_days scope) outcomes uuid in
  Report (str_or preview_id (bs_run_id summary)) candidate_rule_id candidate_policy_hash None None evaluator_version
    now scope dataset_snapshot_hash
    (bs_total_transactions summary) (bs_new_failures summary) (bs_newly_passing summary)
    (bs_unchanged_count summary) (bs_undefined_count summary) (bs_old_fail_count summary)
    (bs_new_fail_count summary) (bs_old_failure_rate_pct summary) (bs_new_failure_rate_pct summary)
    (bs_delta_failure_rate_pct summary)
    (build_aggregate_financial_impact outcomes) (build_representative_examples l 3)
    (compute_preview_result_digest candidate_policy_hash dataset_snapshot_hash (bs_total_transactions summary)
       (bs_new_failures summary) (bs_newly_passing summary) (bs_delta_failure_rate_pct summary)) true.

(** ** [orchestrator.py] *)

(** [json.dumps(ast, sort_keys=True)], with the default separators *)
Fixpoint print_spaced (c : cjson) : string :=
  match c with
  | CList l => "[" +:+ join ", " (map print_spaced l) +:+ "]"
  | CObj l => "{" +:+ join ", " (map (λ '(k, v), quote k +:+ ": " +:+ print_spaced v) l) +:+ "}"
  | _ => print c
  end.

Definition compute_policy_hash (ast : option json) (package_or_code : option string) : string :=
  sha256_hex
    match ast, package_or_code with
    | Some j, _ => print_spaced (canon j)
    | None, Some code => strip code
    | None, None => "empty_candidate_policy"
    end.

Record candidate := Candidate { ca_jsonlogic_ast : option json; ca_opa_package : option string }.

Section orchestrator.
Context (opa : string → json → opa_reply).

Definition build_candidate_evaluator (c : candidate) : res backtest_error evaluator :=
  match ca_jsonlogic_ast c, ca_opa_package c with
  | Some logic, _ => Ok (json_logic_evaluator logic)
  | None, Some package => Ok (opa_evaluator (opa package))
  | None, None => Raise NoCandidate
  end.

Definition run_backtest (c : candidate) (candidate_rule_id : string) (lookback_days : Z) (tenant_id : option string)
    (ledger : list LedgerEntry) (run_id : string) (now : datetime)
  : res backtest_error (BacktestSummary * list BacktestOutcome) :=
  res_bind (build_candidate_evaluator c) (λ ev,
  res_bind (fetch_historical_transactions
              (FetchArgs candidate_rule_id lookback_days tenant_id None None None None) now ledger) (λ transactions,
  res_bind (replay_all ev (λ _, false) transactions) (λ l,
  let outcomes := build_outcomes l in
  Ok (build_summary candidate_rule_id lookback_days outcomes run_id, outcomes)))).

Definition evaluator_version (c : candidate) : string :=
  match ca_jsonlogic_ast c with Some _ => "regengine-jsonlogic-v1" | None => "regengine-opa-v1" end.

(** [slow]: the replay does not end within its budget. *)
Definition run_rule_impact_preview (c : candidate) (candidate_rule_id : string) (scope : PreviewDatasetScope)
    (ledger : list LedgerEntry) (cancelled : nat → bool) (slow : bool) (preview_id : option string) (uuid : string)
    (now : datetime) : res backtest_error RuleImpactPreviewReport :=
  res_bind (build_candidate_evaluator c) (λ ev,
  if slow then Raise PreviewTimeout
  else
    res_bind (fetch_historical_transactions (scope_args scope) now ledger) (λ transactions,
    res_bind (replay_all ev cancelled transactions) (λ l,
    Ok (build_rule_impact_preview_report candidate_rule_id
          (compute_policy_hash (ca_jsonlogic_ast c) (ca_opa_package c)) scope
          (compute_dataset_snapshot_hash transactions) l (evaluator_version c) preview_id uuid now)))).
End orchestrator.

Example py_float_examples :
  map (λ s, float_repr <$> py_float s)
    [" 12.5 "; "1_000"; "-.5e1"; "5."; "1e400"; "Infinity"; "abc"; "1__0"; "e5"; "1e"; ""; "."; "+7"; "_1"]
  = [Some "12.5"; Some "1000.0"; Some "-5.0"; Some "5.0"; Some "inf"; Some "inf"; None; None; None; None; None; None;
     Some "7.0"; None].
Proof. vm_compute. reflexivity. Qed.

Example round2_examples :
  map (λ x, float_repr (round2 x)) [rate 1 3; rate 2 3; decimal 2675 3; rate 1 1; SFopp (rate 1 8)]
  = ["33.33"; "66.67"; "2.67"; "100.0"; "-12.5"].
Proof. vm_compute. reflexivity. Qed.
