(* ===== verification/BacktestFacts.v ===== *)
(** * A backtest reports what the candidate would have decided

    Replayed transactions are those of the tenant and the window; a logged
    evaluation comes back with its facts and decision; the new decision of a
    compiled rule is the rule's own verdict; and the counts of the summary add
    up, in total and per broker. *)
From S2P Require Import Prelude PyStr PyFloat Schemas Compiler CompilerFacts CompilerWitness.
From S2P Require Import Sha256 Json JsonFacts Datetime Ledger ExecModels PyText JsonLogic.
From S2P Require Import Policies Governance Execution Integration ProvenanceFacts Backtest.
From Stdlib Require Import SpecFloat.

Open Scope string_scope.
Open Scope Z_scope.

(** ** Sorting *)
Section sorting.
Context {A : Type} (leb : A → A → bool).

Lemma stable_insert_perm x l : insert_by leb x l ≡ₚ x :: l.
Proof.
  induction l as [|y l IH]; cbn; [done|]. destruct (leb x y); [done|]. by rewrite IH Permutation_swap.
Qed.
Lemma stable_sort_perm l : sort_by leb l ≡ₚ l.
Proof.
  induction l as [|x l IH]; [done|]. change (sort_by leb (x :: l)) with (insert_by leb x (sort_by leb l)).
  by rewrite stable_insert_perm IH.
Qed.

Context (Htotal : ∀ x y, leb x y = true ∨ leb y x = true).
Lemma insert_by_sorted x l : Sorted (λ a b, leb a b = true) l → Sorted (λ a b, leb a b = true) (insert_by leb x l).
Proof.
  induction 1 as [|y l Hs IH Hd]; cbn; [by repeat constructor|].
  destruct (leb x y) eqn:E; [by repeat constructor|]. constructor; [done|].
  destruct (Htotal x y) as [Hxy|Hyx]; [congruence|].
  destruct Hd as [|z l Hz]; cbn; [by constructor|]. destruct (leb x z); by constructor.
Qed.
Lemma sort_by_sorted l : Sorted (λ a b, leb a b = true) (sort_by leb l).
Proof. induction l; [constructor|]. by apply insert_by_sorted. Qed.
End sorting.

(** ** What is fetched *)
Lemma limited_sub {A} n (l : list A) x : x ∈ limited n l → x ∈ l.
Proof.
  unfold limited. destruct n as [n|]; [|done]. destruct (n =? 0); [done|].
  intros H. rewrite -(firstn_skipn (Z.to_nat n) l). set_solver.
Qed.

Lemma query_selected a now ledger row :
  row ∈ query a now ledger → row ∈ ledger ∧ selected a now row = true.
Proof.
  unfold query. intros H%limited_sub. rewrite stable_sort_perm in H. by apply list_elem_of_In, filter_In in H as [?%list_elem_of_In ?].
Qed.

Lemma historical_row tenant et row t :
  historical_of tenant et row = Ok (Some t) →
  ht_transaction_id t = transaction_id (fields row) ∧ ht_broker_id t = broker_id (fields row)
  ∧ ht_rule_id t = rule_id (fields row) ∧ ht_evaluated_at t = evaluated_at (fields row)
  ∧ (truthy et = true → et = Some (ht_entity_type t)).
Proof.
  unfold historical_of. intros (d & _ & H)%res_bind_Ok.
  destruct (some_value _) as [fs|]; [|done]. destruct (some_value _) as [e|]; [|done].
  destruct (truthy et && _) eqn:E; [done|]. destruct (truthy tenant && _); [done|].
  destruct fs; try done. destruct e as [| | | |et'| |]; try done.
  apply res_bind_Ok in H as (vs & _ & H). apply res_bind_Ok in H as (amount & _ & [= <-]). split_and!; try done.
  cbn. intros Ht. rewrite Ht in E. cbn in E. apply negb_false_iff, String.eqb_eq in E. subst et'.
  destruct et as [x|]; [|done]. unfold truthy, str_or in *. by destruct (String.eqb x "").
Qed.

(** A computation that does not end in a breach of isolation. *)
Definition calm {A} (m : res backtest_error A) : Prop := ∀ tx broker, m ≠ Raise (TenantIsolationBreach tx broker).

Lemma calm_bind {A B} (m : res backtest_error A) (k : A → res backtest_error B) :
  calm m → (∀ x, calm (k x)) → calm (res_bind m k).
Proof. intros Hm Hk. destruct m as [x|e]; [apply Hk|]. intros tx b [= ->]. by apply (Hm tx b). Qed.

Lemma calm_mapM {A B} (f : A → res backtest_error B) l : (∀ x, x ∈ l → calm (f x)) → calm (res_mapM f l).
Proof.
  intros H. induction l as [|x l IH]; [done|]. cbn [res_mapM]. apply calm_bind; [apply H; left|].
  intros y. apply calm_bind; [|done]. apply IH. intros z Hz. apply H. by right.
Qed.

Lemma calm_details j : calm (details_of j).
Proof. unfold details_of. destruct j; try done; by destruct (py_truthy _). Qed.

Lemma calm_violations d : calm (violations_of d).
Proof.
  unfold violations_of. destruct (obj_get "violations" d) as [[| | | | |l|]|]; try done; try by destruct (py_truthy _).
  apply calm_mapM. intros [] _; done.
Qed.

Lemma calm_financial facts : calm (extract_financial_value facts).
Proof.
  unfold extract_financial_value. induction _FINANCIAL_KEYS as [|k ks IH]; [done|]. cbn [financial_value].
  destruct (obj_get k facts) as [[| |z| |x| |]|]; try done.
  - unfold float_of_int. by destruct (float_of_Z z).
  - by destruct (py_float _).
Qed.

(** The guard against foreign rows never fires: the query has filtered them. *)
Lemma breach_unreachable a now ledger : calm (fetch_historical_transactions a now ledger).
Proof.
  apply calm_bind; [|done]. apply calm_mapM. intros row [_ Hs]%query_selected.
  unfold selected in Hs. apply andb_prop in Hs as [_ Hs]. apply calm_bind; [apply calm_details|]. intros d.
  destruct (some_value _) as [fs|]; [|done]. destruct (some_value _) as [e|]; [|done].
  destruct (truthy (fa_entity_type a) && _); [done|].
  destruct (truthy (fa_tenant_id a) && _) eqn:E.
  { apply andb_prop in E as [E1 E2]. rewrite E1 in Hs. cbn in Hs. by rewrite Hs in E2. }
  destruct fs; try done. destruct e; try done.
  apply calm_bind; [apply calm_violations|]. intros vs. by apply calm_bind; [apply calm_financial|].
Qed.

Definition row_before (r r' : LedgerEntry) : Prop :=
  utc_us (evaluated_at (fields r)) <= utc_us (evaluated_at (fields r')).

Lemma query_sorted a now ledger : StronglySorted row_before (query a now ledger).
Proof.
  unfold query. set (leb := λ r r', _). assert (StronglySorted row_before (sort_by leb (List.filter (selected a now) ledger))) as H.
  { apply Sorted_StronglySorted; [intros x y z; unfold row_before; lia|].
    eapply Sorted_ind; [constructor| |apply (sort_by_sorted leb)].
    - intros x l _ IH Hd. constructor; [done|]. destruct Hd as [|y l Hy]; constructor. unfold leb in Hy. unfold row_before. lia.
    - intros x y. unfold leb. lia. }
  unfold limited. destruct (fa_limit a) as [n|]; [|done]. destruct (n =? 0); [done|].
  rewrite -(firstn_skipn (Z.to_nat n) (sort_by leb _)) in H. by apply StronglySorted_app_1_l in H.
Qed.

Lemma historical_sorted tenant et rows os :
  Forall2 (λ row o, historical_of tenant et row = Ok o) rows os → StronglySorted row_before rows →
  StronglySorted (λ t t', utc_us (ht_evaluated_at t) <= utc_us (ht_evaluated_at t')) (omap (λ x, x) os).
Proof.
  induction 1 as [|row o rows os Ho Hrest IH]; intros Hs; [constructor|].
  apply StronglySorted_inv in Hs as [Hs Hall]. destruct o as [t|]; cbn; [|by apply IH]. constructor; [by apply IH|].
  apply historical_row in Ho as (_ & _ & _ & -> & _). clear IH Hs. induction Hrest as [|row' o rows os Ho _ IH]; [constructor|].
  apply Forall_cons in Hall as [Hr Hall]. destruct o as [t'|]; cbn; [|by apply IH]. constructor; [|by apply IH].
  apply historical_row in Ho as (_ & _ & _ & -> & _). exact Hr.
Qed.

(** A replay sees its own tenant's history only: every transaction fetched
    comes from a ledger row of the rule, within the time window and of the
    tenant and entity type asked for, no more of them than the limit, and in
    the order of evaluation; the run-time check for foreign rows never fires. *)
Theorem fetch_isolated a now ledger l :
  fetch_historical_transactions a now ledger = Ok l →
  (∀ t, t ∈ l → ∃ row, row ∈ ledger
     ∧ ht_transaction_id t = transaction_id (fields row) ∧ ht_broker_id t = broker_id (fields row)
     ∧ rule_id (fields row) = fa_rule_id a ∧ ht_rule_id t = fa_rule_id a
     ∧ cutoff a now <= utc_us (ht_evaluated_at t)
     ∧ (∀ d, fa_end_time a = Some d → utc_us (ht_evaluated_at t) <= utc_us d)
     ∧ (truthy (fa_tenant_id a) = true → fa_tenant_id a = Some (ht_broker_id t))
     ∧ (truthy (fa_entity_type a) = true → fa_entity_type a = Some (ht_entity_type t)))
  ∧ StronglySorted (λ t t', utc_us (ht_evaluated_at t) <= utc_us (ht_evaluated_at t')) l
  ∧ (∀ n, fa_limit a = Some n → 0 < n → Z.of_nat (length l) <= n).
Proof.
  unfold fetch_historical_transactions. intros (os & Hos & [= <-])%res_bind_Ok. apply res_mapM_Ok in Hos.
  split; [|split; [by eapply historical_sorted, query_sorted|]].
  - intros t (o & Ho & Et)%list_elem_of_omap. subst o. apply list_elem_of_lookup_1 in Ho as [i Hi].
    destruct (Forall2_lookup_r _ _ _ _ _ Hos Hi) as (row & Hr & H). apply list_elem_of_lookup_2 in Hr.
    destruct (query_selected _ _ _ _ Hr) as [Hin Hsel]. apply historical_row in H as (H1 & H2 & H3 & H4 & H5).
    unfold selected in Hsel. repeat (apply andb_prop in Hsel as [Hsel ?]). apply String.eqb_eq in Hsel.
    exists row. rewrite H3 H4 Hsel. split_and!; try done; [lia| |].
    + intros d Hd. rewrite Hd in H0. lia.
    + intros Ht. rewrite Ht in H. cbn in H. apply String.eqb_eq in H. rewrite H2 H.
      destruct (fa_tenant_id a) as [x|]; [|done]. unfold truthy, str_or in *. by destruct (String.eqb x "").
  - intros n Hn Hpos. transitivity (Z.of_nat (length os)).
    { apply Nat2Z.inj_le. clear. induction os as [|[x|] os IH]; cbn; lia. }
    rewrite -(Forall2_length _ _ _ Hos). unfold query, limited. rewrite Hn. replace (n =? 0) with false by lia.
    rewrite length_firstn. lia.
Qed.

(** ** What is replayed *)
Lemma truthy_or o s d : truthy o = true → o = Some s → str_or o d = s.
Proof. intros H ->. unfold truthy in H. apply negb_true_iff in H. unfold str_or. by rewrite H. Qed.

Lemma res_mapM_strings l :
  res_mapM (λ j, match j with JStr s => Ok s | _ => Raise BadRow end) (map JStr l) = Ok l.
Proof. induction l as [|s l IH]; [done|]. cbn [map res_mapM]. cbn [res_bind]. by rewrite IH. Qed.

(** A logged evaluation can be replayed: the row a matched policy leaves in
    the ledger comes back as a transaction with the facts, the entity type, the
    violations and the decision it was evaluated with; the row of a transaction
    that matched no policy is skipped. *)
Theorem logged_evaluation_replays t result o e ledger now ledger' row tenant et amount :
  outcome_event t result o = Ok e → append_entry ledger e now = Ok (ledger', row) →
  (truthy tenant = true → tenant = Some (str_or (tx_broker_id t) "unknown")) →
  (truthy et = true → et = Some (entity_type t)) →
  extract_financial_value (facts t) = Ok amount →
  historical_of tenant et row
  = Ok (Some (Historical (tx_transaction_id t) (str_or (tx_broker_id t) "unknown") (entity_type t) (facts t)
                (evaluated_at (fields row)) (po_rule_id o)
                (Some (str_or (po_circular_number o) "unknown")) (Some (str_or (po_clause_number o) "unscoped"))
                (match allow o with None => FLAGGED | Some true => ALLOW | Some false => DENY end)
                (violations o) amount))
  ∧ (∀ e' ledger'' row', transaction_event t result = Ok e' → append_entry ledger e' now = Ok (ledger'', row') →
       historical_of tenant et row' = Ok None).
Proof.
  intros He Ha Hte Het Hamt. split.
  - destruct (outcome_row _ _ _ _ _ _ _ _ He Ha) as (Hd & Hb & Ht & Hc & _ & Hs & Hr & Hev & _).
    unfold historical_of. rewrite Hd Hb Ht Hc Hs Hr Hev. cbn [details_of res_bind outcome_details obj_get].
    cbn [String.eqb Ascii.eqb Bool.eqb some_value].
    replace (truthy et && _) with false; [replace (truthy tenant && _) with false|].
    + unfold violations_of. cbn [obj_get String.eqb Ascii.eqb Bool.eqb]. unfold str_list.
      rewrite res_mapM_strings. cbn [res_bind]. rewrite Hamt. cbn [res_bind]. unfold _outcome_result.
      by destruct (allow o) as [[]|].
    + destruct (truthy tenant) eqn:E; [|done]. specialize (Hte eq_refl). rewrite (truthy_or tenant _ _ E Hte).
      by rewrite String.eqb_refl.
    + destruct (truthy et) eqn:E; [|done]. specialize (Het eq_refl). unfold is_text. rewrite (truthy_or et _ _ E Het).
      by rewrite String.eqb_refl.
  - intros e' ledger'' row' He' (Hf & _ & _)%appended_row_fields. unfold historical_of. rewrite Hf.
    unfold transaction_event, _hitl_review_id_consistency in He'.
    destruct (bool_decide _ && _); [done|]. destruct (_ && _); [done|]. by injection He' as <-.
Qed.

(** The decision the rule itself calls for. *)
Definition rule_decision (a : AuditedComplianceRule) (entity_type : string) (facts : list (string * json)) : option Decision :=
  match rule_verdict (au_rule a) entity_type facts with
  | Ok true => Some ALLOW
  | Ok false => Some DENY
  | Raise TypeError => None
  | Raise _ => Some FLAGGED
  end.

Lemma compiled_candidate_decides a v now r jl entity_type facts :
  compile_audited_rule a v now = Ok r → compiled r = true → json_logic r = Some jl →
  fst <$> (match candidate_evaluate (logic jl) None entity_type facts with
           | Ok d => Some d | Raise _ => None end) = rule_decision a entity_type facts.
Proof.
  intros H Hc Hj. destruct (compile_inv _ _ _ _ H Hc) as (rg & jl' & _ & _ & Ej & Hrg & Hjl & _).
  rewrite Ej in Hj. injection Hj as ->. unfold candidate_evaluate, rule_decision.
  rewrite (compiled_logic_eval _ _ entity_type facts (rego_fields _ _ _ _ Hrg) Hjl).
  by destruct (rule_verdict (au_rule a) entity_type facts) as [[]|[]].
Qed.

(** A replay that nobody cancels evaluates every transaction, in order. *)
Lemma replay_from_ok ev i l (d : HistoricalTransaction → Decision) :
  (∀ t, t ∈ l → ∃ vs, ev (ht_entity_type t) (ht_facts t) = Ok (d t, vs)) →
  ∃ rs, replay_from ev (λ _, false) i l = Ok rs ∧ Forall2 (λ t r, r.1.1 = t ∧ r.1.2 = d t) l rs.
Proof.
  revert i. induction l as [|t l IH]; intros i H; [by exists []|]. cbn [replay_from].
  destruct (H t (list_elem_of_here _ _)) as [vs Hv]. unfold replay_transaction. rewrite Hv. cbn [res_bind].
  destruct (IH (S i)) as (rs & -> & Hrs); [intros t' Ht'; apply H; by right|]. cbn [res_bind].
  eexists. split; [done|]. by constructor.
Qed.

(** What an outcome says of the transaction it comes from. *)
Definition reports (a : AuditedComplianceRule) (t : HistoricalTransaction) (o : BacktestOutcome) : Prop :=
  bo_transaction_id o = ht_transaction_id t ∧ bo_broker_id o = ht_broker_id t
  ∧ bo_old_decision o = ht_old_decision t
  ∧ Some (bo_new_decision o) = rule_decision a (ht_entity_type t) (ht_facts t)
  ∧ bo_change_type o = _classify (ht_old_decision t) (bo_new_decision o).

(** C19. Backtesting a compiled rule compares history with the rule itself: over
    the transactions fetched, on which the rule can be evaluated, the run ends
    and returns one outcome per transaction, in order, whose new decision is the
    one the rule calls for on the recorded facts (allow, deny, or flagged when a
    fact is missing) and whose change type is that of the pair. *)
Theorem backtest_compares_rule opa a v compile_now r jl rid days tenant ledger run_id now ts :
  compile_audited_rule a v compile_now = Ok r → compiled r = true → json_logic r = Some jl →
  fetch_historical_transactions (FetchArgs rid days tenant None None None None) now ledger = Ok ts →
  (∀ t, t ∈ ts → rule_verdict (au_rule a) (ht_entity_type t) (ht_facts t) ≠ Raise TypeError) →
  ∃ outcomes,
    run_backtest opa (Candidate (Some (logic jl)) None) rid days tenant ledger run_id now
    = Ok (build_summary rid days outcomes run_id, outcomes)
    ∧ Forall2 (reports a) ts outcomes.
Proof.
  intros H Hc Hj Hf Hty.
  set (d := λ t, default ALLOW (rule_decision a (ht_entity_type t) (ht_facts t))).
  assert (∀ t, t ∈ ts → rule_decision a (ht_entity_type t) (ht_facts t) = Some (d t)) as Hd.
  { intros t Ht. specialize (Hty t Ht). unfold d, rule_decision.
    by destruct (rule_verdict _ _ _) as [[]|[]]. }
  destruct (replay_from_ok (json_logic_evaluator (logic jl)) 0 ts d) as (rs & Hrs & Hall).
  { intros t Ht. pose proof (compiled_candidate_decides _ _ _ _ _ (ht_entity_type t) (ht_facts t) H Hc Hj) as E.
    rewrite (Hd t Ht) in E. unfold json_logic_evaluator.
    destruct (candidate_evaluate _ _ _ _) as [[d' vs]|]; [|done]. injection E as ->. by exists vs. }
  exists (build_outcomes rs). unfold run_backtest, replay_all. cbn [build_candidate_evaluator ca_jsonlogic_ast res_bind].
  rewrite Hf. cbn [res_bind]. rewrite Hrs. split; [done|]. unfold build_outcomes. apply Forall2_fmap_r.
  clear Hrs Hf Hty. induction Hall as [|t [[t' d'] vs] ts rs [E1 E2] _ IH]; [constructor|]. cbn in E1, E2. subst t' d'.
  constructor; [|apply IH; intros t' Ht'; apply Hd; by right]. unfold reports. cbn. rewrite (Hd t); [done|left].
Qed.

(** ** What is reported *)
Lemma count_if_cons {A} (p : A → bool) x l : count_if p (x :: l) = Z.b2z (p x) + count_if p l.
Proof. unfold count_if. cbn. destruct (p x); cbn [length Z.b2z]; lia. Qed.

Definition sum_of {A} (f : A → Z) (l : list A) : Z := fold_right (λ x n, f x + n) 0 l.

#[export] Instance sum_of_perm {A} (f : A → Z) : Proper (Permutation ==> eq) (sum_of f).
Proof. intros l l' H. unfold sum_of. induction H; cbn; lia. Qed.

Lemma sum_of_map {A B} (f : B → Z) (g : A → B) l : sum_of f (map g l) = sum_of (λ x, f (g x)) l.
Proof. unfold sum_of. induction l; cbn; [done|lia]. Qed.

Lemma sum_of_add {A} (f g : A → Z) l : sum_of (λ x, f x + g x) l = sum_of f l + sum_of g l.
Proof. unfold sum_of. induction l; cbn; lia. Qed.

(** One key in a list without repetitions. *)
Lemma sum_of_absent k (n : Z) keys : k ∉ keys → sum_of (λ k', if String.eqb k k' then n else 0) keys = 0.
Proof.
  induction keys as [|x keys IH]; [done|]. intros Hnot. cbn. destruct (String.eqb_spec k x) as [->|]; [set_solver|].
  apply IH. set_solver.
Qed.

Lemma sum_of_key k (b : bool) keys :
  NoDup keys → k ∈ keys → sum_of (λ k', if String.eqb k k' then Z.b2z b else 0) keys = Z.b2z b.
Proof.
  induction 1 as [|k' keys Hnot _ IH]; [by intros ?%elem_of_nil|]. intros Hk. cbn [sum_of fold_right].
  fold (sum_of (λ k', if String.eqb k k' then Z.b2z b else 0) keys).
  destruct (String.eqb_spec k k') as [->|Hne].
  - rewrite sum_of_absent; [lia|done].
  - rewrite IH; [lia|set_solver].
Qed.

Definition in_group (broker : string) (o : BacktestOutcome) : bool := String.eqb (bo_broker_id o) broker.

(** Counting by group and adding up counts everything once. *)
Lemma grouped_count {A} (key : A → string) (p : A → bool) l keys :
  NoDup keys → (∀ x, x ∈ l → key x ∈ keys) →
  sum_of (λ b, count_if p (List.filter (λ x, String.eqb (key x) b) l)) keys = count_if p l.
Proof.
  intros Hnd. induction l as [|o l IH]; intros Hin.
  { clear. induction keys; cbn; [done|]. unfold sum_of in *. by rewrite IHkeys. }
  rewrite count_if_cons -IH; [|set_solver]. rewrite -(sum_of_key (key o) (p o) keys Hnd (Hin o ltac:(left))).
  rewrite -sum_of_add. clear. induction keys as [|k keys IH]; [done|].
  cbn [sum_of fold_right]. unfold sum_of in IH. rewrite IH. f_equal. cbn [List.filter].
  destruct (String.eqb _ _); [by rewrite count_if_cons|done].
Qed.

Lemma brokers_spec outcomes :
  NoDup (brokers outcomes) ∧ ∀ o, o ∈ outcomes → bo_broker_id o ∈ brokers outcomes.
Proof.
  unfold brokers. split.
  - rewrite stable_sort_perm. apply NoDup_remove_dups.
  - intros o Ho. rewrite stable_sort_perm. apply elem_of_remove_dups, list_elem_of_fmap. by exists o.
Qed.

(** The columns of the per-broker table add up to the totals. *)
Lemma breakdown_sum (f : BrokerImpactBreakdown → Z) p outcomes :
  (∀ b, f (broker_impact outcomes b) = count_if p (List.filter (in_group b) outcomes)) →
  sum_of f (broker_breakdown outcomes) = count_if p outcomes.
Proof.
  intros Hf. unfold broker_breakdown. rewrite stable_sort_perm sum_of_map.
  destruct (brokers_spec outcomes) as [Hnd Hin]. rewrite -(grouped_count bo_broker_id p outcomes _ Hnd Hin).
  clear -Hf. induction (brokers outcomes) as [|b bs IH]; [done|]. cbn. by rewrite Hf -/(sum_of _ bs) IH.
Qed.

Lemma count_if_all {A} (l : list A) : count_if (λ _, true) l = Z.of_nat (length l).
Proof. unfold count_if. f_equal. induction l; cbn; congruence. Qed.

(** Every outcome is counted in exactly one class, and the classes explain the
    difference of the failure counts. *)
Lemma outcome_classes l :
  count_if (has_change NEW_FAILURE) (build_outcomes l) + count_if (has_change NEWLY_PASSING) (build_outcomes l)
  + count_if (has_change UNDEFINED_NOW) (build_outcomes l)
  + (count_if (has_change UNCHANGED_PASS) (build_outcomes l) + count_if (has_change UNCHANGED_FAIL) (build_outcomes l))
  = Z.of_nat (length l)
  ∧ count_if new_failed (build_outcomes l) + count_if (has_change NEWLY_PASSING) (build_outcomes l)
    + count_if (λ o, old_failed o && has_change UNDEFINED_NOW o) (build_outcomes l)
    = count_if old_failed (build_outcomes l) + count_if (has_change NEW_FAILURE) (build_outcomes l).
Proof.
  induction l as [|[[t d] vs] l [IH1 IH2]]; [done|]. cbn [build_outcomes map]. fold (build_outcomes l).
  set (o := Outcome_ _ _ _ _ _ _ _ _ _). rewrite !count_if_cons. cbn [length].
  assert (Z.b2z (has_change NEW_FAILURE o) + Z.b2z (has_change NEWLY_PASSING o) + Z.b2z (has_change UNDEFINED_NOW o)
          + (Z.b2z (has_change UNCHANGED_PASS o) + Z.b2z (has_change UNCHANGED_FAIL o)) = 1
          ∧ Z.b2z (new_failed o) + Z.b2z (has_change NEWLY_PASSING o) + Z.b2z (old_failed o && has_change UNDEFINED_NOW o)
            = Z.b2z (old_failed o) + Z.b2z (has_change NEW_FAILURE o)) as [E1 E2].
  { unfold o, has_change, old_failed, new_failed. cbn. by destruct d, (ht_old_decision t). }
  lia.
Qed.

(** The summary accounts for every replayed transaction exactly once: new
    failures, newly passing, undefined and unchanged ones add up to the total;
    the new failures make up the difference between the failures before and
    after, less those that now pass or can no longer be decided; and the table
    by broker lists each broker once and its columns add up to the totals. *)
Theorem backtest_counts rid days l run_id :
  let s := build_summary rid days (build_outcomes l) run_id in
  bs_total_transactions s = Z.of_nat (length l)
  ∧ bs_new_failures s + bs_newly_passing s + bs_undefined_count s + bs_unchanged_count s = bs_total_transactions s
  ∧ bs_new_fail_count s + bs_newly_passing s
    + count_if (λ o, old_failed o && has_change UNDEFINED_NOW o) (build_outcomes l)
    = bs_old_fail_count s + bs_new_failures s
  ∧ NoDup (map bb_broker_id (bs_broker_breakdown s))
  ∧ sum_of bb_total_transactions (bs_broker_breakdown s) = bs_total_transactions s
  ∧ sum_of bb_new_failures (bs_broker_breakdown s) = bs_new_failures s
  ∧ sum_of bb_newly_passing (bs_broker_breakdown s) = bs_newly_passing s.
Proof.
  cbv zeta. destruct (outcome_classes l) as [H1 H2].
  assert (length (build_outcomes l) = length l) as Hlen by apply length_map.
  unfold build_summary. rewrite Hlen. destruct (Z.of_nat (length l) =? 0) eqn:E.
  { destruct l; [|done]. split_and!; try done. constructor. }
  cbn -[Z.of_nat sum_of broker_breakdown]. split_and!; try done.
  - unfold broker_breakdown. rewrite stable_sort_perm map_map. cbn. rewrite map_id. apply brokers_spec.
  - rewrite (breakdown_sum _ (λ _, true)); [by rewrite count_if_all Hlen|]. intros b. cbn. by rewrite count_if_all.
  - by rewrite (breakdown_sum _ _ _ (λ b, eq_refl)).
  - by rewrite (breakdown_sum _ _ _ (λ b, eq_refl)).
Qed.

Lemma snapshot_leb_total a b : snapshot_leb a b = true ∨ snapshot_leb b a = true.
Proof.
  unfold snapshot_leb. rewrite (String.eqb_sym (ht_transaction_id b)). destruct (String.eqb _ _); apply String.leb_total.
Qed.

Lemma snapshot_leb_trans a b c : snapshot_leb a b = true → snapshot_leb b c = true → snapshot_leb a c = true.
Proof.
  unfold snapshot_leb. destruct (String.eqb_spec (ht_transaction_id a) (ht_transaction_id b)) as [->|Hab].
  - destruct (String.eqb _ _); [apply skey_leb_trans|done].
  - destruct (String.eqb_spec (ht_transaction_id b) (ht_transaction_id c)) as [<-|Hbc].
    + intros H _. by apply String.eqb_neq in Hab as ->.
    + intros H1 H2. destruct (String.eqb_spec (ht_transaction_id a) (ht_transaction_id c)) as [E|_].
      * destruct Hab. rewrite E in H1 |- *. by apply String.leb_antisym.
      * by eapply skey_leb_trans.
Qed.

(** The digest of a dataset does not depend on the order the rows come in,
    as long as no two transactions share both their id and their time. *)
Theorem snapshot_order_free l l' :
  l ≡ₚ l' →
  (∀ t t', t ∈ l → t' ∈ l → ht_transaction_id t = ht_transaction_id t' →
     str_datetime (ht_evaluated_at t) = str_datetime (ht_evaluated_at t') → t = t') →
  compute_dataset_snapshot_hash l = compute_dataset_snapshot_hash l'.
Proof.
  intros Hp Hkey. unfold compute_dataset_snapshot_hash. do 3 f_equal.
  apply (StronglySorted_unique_strong (λ a b, snapshot_leb a b = true)).
  - intros x y Hx Hy H1 H2. rewrite stable_sort_perm in Hx. rewrite stable_sort_perm -Hp in Hy. apply (Hkey x y Hx Hy).
    + unfold snapshot_leb in H1, H2. rewrite (String.eqb_sym (ht_transaction_id y)) in H2.
      destruct (String.eqb_spec (ht_transaction_id x) (ht_transaction_id y)); [done|by apply String.leb_antisym].
    + unfold snapshot_leb in H1, H2. rewrite (String.eqb_sym (ht_transaction_id y)) in H2.
      destruct (String.eqb_spec (ht_transaction_id x) (ht_transaction_id y)) as [|Hne]; [by apply String.leb_antisym|].
      destruct Hne. by apply String.leb_antisym.
  - apply Sorted_StronglySorted; [intros x y z; apply snapshot_leb_trans|]. apply sort_by_sorted, snapshot_leb_total.
  - apply Sorted_StronglySorted; [intros x y z; apply snapshot_leb_trans|]. apply sort_by_sorted, snapshot_leb_total.
  - by rewrite !stable_sort_perm.
Qed.

(** The examples of one category, filtered by another. *)
Lemma category_slice (X : list RepresentativeExample) n c c' :
  (length (List.filter (λ e, bool_decide (re_change_type e = c))
     (firstn n (List.filter (λ e, bool_decide (re_change_type e = c')) X)))
   <= if bool_decide (c' = c) then n else 0)%nat.
Proof.
  case_bool_decide as E.
  - etransitivity; [apply filter_length_le|]. rewrite length_firstn. lia.
  - rewrite (filter_ext_in _ (λ _, false)); [by induction (firstn _ _)|]. intros e He.
    apply bool_decide_eq_false_2. intros Ec. apply E. rewrite -Ec.
    assert (e ∈ List.filter (λ e, bool_decide (re_change_type e = c')) X) as Hf.
    { rewrite -(firstn_skipn n (List.filter _ _)). apply list_elem_of_In, in_or_app. by left. }
    by apply list_elem_of_In, filter_In in Hf as [_ ?%bool_decide_eq_true].
Qed.

Lemma category_bound l n c :
  (length (List.filter (λ e, bool_decide (re_change_type e = c)) (build_representative_examples l n)) <= n)%nat.
Proof.
  unfold build_representative_examples. cbn [flat_map]. rewrite !List.filter_app !length_app.
  pose proof (category_slice (map example_of l) n c NEW_FAILURE). pose proof (category_slice (map example_of l) n c NEWLY_PASSING).
  pose proof (category_slice (map example_of l) n c UNDEFINED_NOW). pose proof (category_slice (map example_of l) n c UNCHANGED_FAIL).
  destruct c; rewrite ->?bool_decide_eq_true_2, ?bool_decide_eq_false_2 in * by done; cbn [length List.filter] in *; lia.
Qed.

(** The examples of a preview show no personal identifiers: the recorded
    facts lose every key of the redaction list, in any letter case, and keep the
    others unchanged; no example is of an unchanged pass, and there are at most
    three of each category. *)
Theorem examples_redacted l n e :
  e ∈ build_representative_examples l n →
  (∃ t d vs, (t, d, vs) ∈ l ∧ re_change_type e = _classify (ht_old_decision t) d
     ∧ ∀ k v, (k, v) ∈ re_relevant_facts e ↔ (k, v) ∈ ht_facts t ∧ lower k ∉ _REDACTED_FACT_KEYS)
  ∧ re_change_type e ≠ UNCHANGED_PASS
  ∧ (length (List.filter (λ e', bool_decide (re_change_type e' = re_change_type e)) (build_representative_examples l n))
     <= n)%nat.
Proof.
  intros He. unfold build_representative_examples in He.
  apply list_elem_of_In, in_flat_map in He as (c & Hc & He). apply list_elem_of_In in He.
  assert (e ∈ List.filter (λ e, bool_decide (re_change_type e = c)) (map example_of l)) as Hf.
  { rewrite -(firstn_skipn n (List.filter _ _)). set_solver. }
  apply list_elem_of_In, filter_In in Hf as [Hf Ec%bool_decide_eq_true]. apply list_elem_of_In, list_elem_of_fmap in Hf as ([[t d] vs] & -> & Hin).
  split_and!.
  - exists t, d, vs. split_and!; [done..|]. intros k v. cbn [re_relevant_facts example_of]. unfold redacted.
    rewrite list_elem_of_In filter_In -list_elem_of_In. apply and_iff_compat_l.
    rewrite negb_true_iff existsb_false_Forall Forall_forall. split.
    + intros H Hk. specialize (H _ Hk). by rewrite String.eqb_refl in H.
    + intros H x Hx. apply String.eqb_neq. intros E. apply H. by rewrite E.
  - rewrite Ec. by destruct Hc as [<-|[<-|[<-|[<-|[]]]]].
  - rewrite Ec. apply category_bound.
Qed.

(** ** Findings *)

(** A transaction that history left to a human counts as a new failure when the
    candidate denies it, and as unchanged when it allows it. *)
Example flagged_history_counts_as_passed :
  _classify FLAGGED DENY = NEW_FAILURE ∧ _classify FLAGGED ALLOW = UNCHANGED_PASS.
Proof. done. Qed.

(** Nested personal data is not redacted, and a nine-character id keeps eight. *)
Example redaction_is_shallow :
  redacted [("PAN", JStr "ABCDE1234F"); ("client", JObj [("pan", JStr "ABCDE1234F")])]
  = [("client", JObj [("pan", JStr "ABCDE1234F")])]
  ∧ mask_transaction_id "ABCDEFGHI" = "ABCD...FGHI".
Proof. done. Qed.

(** ** Witnesses *)
Definition b_row (n : Z) (tid : string) (at_us : Z) (pct : Z) (result : string) : LedgerEntry :=
  {| id := n; sequence_num := n;
     fields := EventFields "B1" tid (Datetime at_us (Some 0)) "SEBI/HO/2024/1" "cafe" "4.1" "cafe:4.1" result None
                 (JObj [("facts", JObj [("upfront_margin_pct", JInt pct)]); ("entity_type", JStr "Stockbroker")]);
     payload_digest := "p"; previous_hash := "h"; current_hash := "c"; created_at := x_time |}.
Definition b_ledger : list LedgerEntry :=
  [b_row 0 "tx-2" 62999999999000002 10 "PASS"; b_row 1 "tx-1" 62999999999000001 25 "FAIL"; x_row 2 "tx-3"].
Definition b_args : fetch_args := FetchArgs "cafe:4.1" 30 (Some "B1") None None None None.
Definition b_transactions : list HistoricalTransaction :=
  match fetch_historical_transactions b_args x_time b_ledger with Ok l => l | Raise _ => [] end.

Lemma b_fetched : fetch_historical_transactions b_args x_time b_ledger = Ok b_transactions.
Proof. reflexivity. Qed.

Lemma fetch_isolated_witness :
  map ht_transaction_id b_transactions = ["tx-1"; "tx-2"] ∧ (∀ t, t ∈ b_transactions → ht_broker_id t = "B1").
Proof.
  split; [reflexivity|]. intros t Ht. destruct (fetch_isolated b_args x_time b_ledger _ b_fetched) as [H _].
  destruct (H t Ht) as (row & _ & _ & _ & _ & _ & _ & _ & Hb & _). by injection (Hb eq_refl) as <-.
Defined.

Lemma logged_evaluation_witness :
  historical_of (Some "B1") None (y_row (Some "B1"))
  = Ok (Some (Historical "tx-1" "B1" "Stockbroker" [("margin", JInt 20)] x_time "cafe:4.1"
                (Some "SEBI/HO/2024/1") (Some "4.1") ALLOW [] None)).
Proof.
  exact (proj1 (logged_evaluation_replays (y_tx (Some "B1")) y_result y_outcome (y_event (Some "B1")) (Table [] 0) x_time
    (Table [y_row (Some "B1")] 1) (y_row (Some "B1")) (Some "B1") None None (y_event_ok _) (y_append_ok _)
    (λ _, eq_refl) (λ H, match Bool.diff_false_true H with end) eq_refl)).
Defined.

Lemma backtest_compares_witness :
  ∃ outcomes,
    run_backtest (λ _ _, OpaUndefined) (Candidate (Some (logic margin_logic)) None) "cafe:4.1" 30 (Some "B1") b_ledger "r"
      x_time = Ok (build_summary "cafe:4.1" 30 outcomes "r", outcomes)
    ∧ Forall2 (reports (approve margin_rule)) b_transactions outcomes.
Proof.
  apply (backtest_compares_rule (λ _ _, OpaUndefined) (approve margin_rule) 1 some_time _ margin_logic "cafe:4.1" 30
    (Some "B1") b_ledger "r" x_time b_transactions margin_compiles margin_compiled).
  - vm_compute. reflexivity.
  - exact b_fetched.
  - apply Forall_forall. change b_transactions with ltac:(let t := eval vm_compute in b_transactions in exact t).
    repeat constructor; vm_compute; discriminate.
Defined.

Lemma snapshot_order_witness :
  compute_dataset_snapshot_hash b_transactions = compute_dataset_snapshot_hash (rev b_transactions).
Proof.
  apply (snapshot_order_free b_transactions (rev b_transactions)).
  - apply Permutation_rev.
  - change b_transactions with ltac:(let t := eval vm_compute in b_transactions in exact t).
    intros t t' Ht Ht' E _. apply elem_of_cons in Ht as [->|Ht]; apply elem_of_cons in Ht' as [->|Ht'];
      try apply list_elem_of_singleton in Ht as ->; try apply list_elem_of_singleton in Ht' as ->; done.
Defined.

Definition b_replayed : list replayed := map (λ t, (t, DENY, [])) b_transactions.
Definition b_example : RepresentativeExample :=
  example_of (List.hd (Historical "" "" "" [] x_time "" None None ALLOW [] None, ALLOW, []) b_replayed).

Lemma examples_redacted_witness :
  b_example ∈ build_representative_examples b_replayed 3 ∧ re_change_type b_example ≠ UNCHANGED_PASS.
Proof.
  assert (b_example ∈ build_representative_examples b_replayed 3) as H.
  { change (build_representative_examples b_replayed 3)
      with ltac:(let t := eval vm_compute in (build_representative_examples b_replayed 3) in exact t). set_solver. }
  split; [done|]. apply (examples_redacted b_replayed 3 b_example H).
Defined.
