(* ===== verification/TenantRegistry.v ===== *)
(** * Tenant isolation of policies: [src/app/execution/tenant_policy_registry.py]

    The per-tenant registry in Redis, its lookup with the shared baseline, and
    the tenant-scoped names under which modules are pushed to OPA.  Redis is
    the map from hash key to hash; OPA's policy store is the map from module id
    to Rego source. *)
From S2P Require Import Prelude PyStr Json Compiler Policies Canary CanaryFacts.

Open Scope string_scope.
Open Scope Z_scope.

Definition _BASELINE_TENANT : string := "sebi_baseline".

(** [{"rule_id": ..., "package": ...}] *)
Record tenant_entry := TenantEntry { te_rule_id : string; te_package : string }.

#[export] Instance tenant_entry_eq_dec : EqDecision tenant_entry.
Proof. solve_decision. Defined.

Abbreviation partition := (gmap string (list tenant_entry)).
Abbreviation redis := (gmap string partition).

Definition _registry_key (key_prefix tenant_id : string) : string := key_prefix +:+ ":" +:+ tenant_id.

Record TenantPolicyRegistry := TenantRegistry { tr_prefix : string; tr_tenant_id : string }.
Definition own_key (reg : TenantPolicyRegistry) : string := _registry_key (tr_prefix reg) (tr_tenant_id reg).
Definition baseline_key (reg : TenantPolicyRegistry) : string := _registry_key (tr_prefix reg) _BASELINE_TENANT.

Definition hget (store : redis) (key entity_type : string) : list tenant_entry :=
  default [] (default ∅ (store !! key) !! entity_type).
Definition hset (store : redis) (key entity_type : string) (l : list tenant_entry) : redis :=
  <[key := <[entity_type := l]> (default ∅ (store !! key))]> store.

(** ** Operations *)
Definition tenant_register (reg : TenantPolicyRegistry) (store : redis) (compiled : CompiledRego)
    (entity_types : list string) : redis :=
  let entry := TenantEntry (rg_rule_id compiled) (package compiled) in
  fold_left (λ store entity_type,
    let entries := hget store (own_key reg) entity_type in
    hset store (own_key reg) entity_type
      (if bool_decide (entry ∈ entries) then entries else entries ++ [entry])%list)
    (or_star entity_types) store.

(** A hash without fields is no key. *)
Definition put_partition (store : redis) (key : string) (p : partition) : redis :=
  if bool_decide (p = ∅) then delete key store else <[key := p]> store.

Definition tenant_unregister (reg : TenantPolicyRegistry) (store : redis) (rid : string) : redis :=
  match store !! own_key reg with
  | None => store
  | Some p =>
      put_partition store (own_key reg)
        (omap (λ entries,
           match List.filter (λ e, negb (String.eqb (te_rule_id e) rid)) entries with
           | [] => None
           | l => Some l
           end) p)
  end.

Fixpoint first_per_rule (seen : list string) (l : list tenant_entry) : list tenant_entry :=
  match l with
  | [] => []
  | e :: l' =>
      if existsb (String.eqb (te_rule_id e)) seen then first_per_rule seen l'
      else e :: first_per_rule (te_rule_id e :: seen) l'
  end.

(** What a tenant has for an entity type, then for every type. *)
Definition applicable (store : redis) (key entity_type : string) : list tenant_entry :=
  (hget store key entity_type ++ hget store key "*")%list.

Definition tenant_policies_for (reg : TenantPolicyRegistry) (store : redis) (entity_type : string)
  : list tenant_entry :=
  first_per_rule []
    (applicable store (own_key reg) entity_type
     ++ if String.eqb (tr_tenant_id reg) _BASELINE_TENANT then []
        else applicable store (baseline_key reg) entity_type)%list.

Definition list_all (reg : TenantPolicyRegistry) (store : redis) : partition :=
  default ∅ (store !! own_key reg).

Definition clear (reg : TenantPolicyRegistry) (store : redis) : redis := delete (own_key reg) store.

(** ** OPA *)
Definition _scoped_rule_id (tenant_id rid : string) : string :=
  let prefix := "tenants_" +:+ tenant_id +:+ "_" in
  if startswith prefix rid then rid else prefix +:+ rid.

Definition _scoped_package (tenant_id package : string) : string :=
  let ns := "tenants." +:+ tenant_id in
  if startswith ns package then package else ns +:+ "." +:+ package.

(** [line.strip().startswith("package ")] *)
Definition tenant_package_line (line : string) : bool := startswith "package " (strip line).

Inductive opa_error := OpaRejected (module_id : string).

(** [status] is OPA's answer; a module is stored when the request succeeds. *)
Definition tenant_publish_policy (tenant_id : string) (opa : gmap string string) (compiled : CompiledRego)
    (status : Z) : res opa_error (gmap string string) :=
  let scoped_id := _scoped_rule_id tenant_id (rg_rule_id compiled) in
  let scoped_package := _scoped_package tenant_id (package compiled) in
  let rego_source := join (String newline "")
    (map (λ line, if tenant_package_line line then "package " +:+ scoped_package else line)
       (splitlines (rego_code compiled))) in
  if 300 <=? status then Raise (OpaRejected scoped_id) else Ok (<[scoped_id := rego_source]> opa).

Definition tenant_remove_policy (tenant_id : string) (opa : gmap string string) (rid : string)
    (status : Z) : res opa_error (gmap string string) :=
  let scoped_id := _scoped_rule_id tenant_id rid in
  if existsb (Z.eqb status) [200; 204; 404] then Ok (delete scoped_id opa) else Raise (OpaRejected scoped_id).

(** The document a tenant's evaluation queries. *)
Definition decision_path (tenant_id package : string) : string :=
  replace_char "." "/" (_scoped_package tenant_id package) +:+ "/decision".

(** ** Lemmas *)
Lemma registry_key_inj prefix t t' : _registry_key prefix t = _registry_key prefix t' → t = t'.
Proof. intros H%sapp_inj_r. by injection H. Qed.

Lemma hget_hset store key key' et et' l :
  hget (hset store key et l) key' et' =
  if decide (key = key' ∧ et = et') then l else hget store key' et'.
Proof.
  unfold hget, hset. destruct (decide (key = key')) as [->|Hk].
  - rewrite lookup_insert_eq. simpl. destruct (decide (et = et')) as [->|He].
    + by rewrite lookup_insert_eq decide_True.
    + rewrite lookup_insert_ne; [|done]. by rewrite decide_False; [|naive_solver].
  - rewrite lookup_insert_ne; [|done]. by rewrite decide_False; [|naive_solver].
Qed.

(** The entries of a field after [register]. *)
Lemma tenant_register_at reg store compiled types key et :
  hget (tenant_register reg store compiled types) key et =
  let entry := TenantEntry (rg_rule_id compiled) (package compiled) in
  if decide (key = own_key reg ∧ et ∈ or_star types)
  then (if bool_decide (entry ∈ hget store key et) then hget store key et else hget store key et ++ [entry])%list
  else hget store key et.
Proof.
  cbv zeta. unfold tenant_register. set (entry := TenantEntry _ _). revert store.
  induction (or_star types) as [|t ts IH]; intros store; cbn [fold_left].
  { rewrite decide_False; [done|]. intros [_ H]. by apply not_elem_of_nil in H. }
  rewrite IH hget_hset. destruct (decide (key = own_key reg)) as [->|Hk].
  2:{ rewrite !decide_False; naive_solver. }
  destruct (decide (et = t)) as [->|He].
  - rewrite (decide_True (P := own_key reg = own_key reg ∧ t = t)); [|done].
    rewrite (decide_True (P := own_key reg = own_key reg ∧ t ∈ t :: ts)); [|split; [done|left]].
    destruct (bool_decide (entry ∈ hget store (own_key reg) t)) eqn:E.
    + case_decide; [by rewrite E|done].
    + rewrite (bool_decide_eq_true_2 (entry ∈ (_ ++ [entry])%list)); [by case_decide|apply elem_of_snoc].
  - rewrite (decide_False (P := own_key reg = own_key reg ∧ t = et)); [|naive_solver].
    case_decide as H1; case_decide as H2; try done; exfalso.
    + apply H2. split; [done|]. right. apply H1.
    + apply H1. split; [done|]. by destruct H2 as [_ [?|?]%elem_of_cons].
Qed.

Lemma tenant_unregister_other reg store rid key et :
  key ≠ own_key reg → hget (tenant_unregister reg store rid) key et = hget store key et.
Proof.
  intros Hk. unfold tenant_unregister. destruct (store !! own_key reg) as [p|]; [|done].
  unfold put_partition, hget. case_bool_decide.
  - by rewrite lookup_delete_ne.
  - by rewrite lookup_insert_ne.
Qed.

Lemma clear_other reg store key et : key ≠ own_key reg → hget (clear reg store) key et = hget store key et.
Proof. intros Hk. unfold clear, hget. by rewrite lookup_delete_ne. Qed.

(** What a tenant can do to the store. *)
Inductive tenant_step (reg : TenantPolicyRegistry) : redis → redis → Prop :=
| tstep_register store compiled types : tenant_step reg store (tenant_register reg store compiled types)
| tstep_unregister store rid : tenant_step reg store (tenant_unregister reg store rid)
| tstep_clear store : tenant_step reg store (clear reg store).

Lemma tenant_step_other reg store store' key et :
  tenant_step reg store store' → key ≠ own_key reg → hget store' key et = hget store key et.
Proof.
  intros [? compiled types|? rid|?] Hk; [|by apply tenant_unregister_other|by apply clear_other].
  rewrite tenant_register_at. cbv zeta. by rewrite decide_False; [|naive_solver].
Qed.


(** The entry a lookup serves for a rule. *)
Definition entry_for (rid : string) (l : list tenant_entry) : option tenant_entry :=
  List.find (λ e, String.eqb (te_rule_id e) rid) l.

Lemma entry_for_app rid l1 l2 :
  entry_for rid (l1 ++ l2)%list = match entry_for rid l1 with Some e => Some e | None => entry_for rid l2 end.
Proof.
  unfold entry_for. induction l1 as [|x l1 IH]; [done|]. cbn. by destruct (String.eqb _ rid).
Qed.

(** [first_per_rule] keeps the first entry of every rule, and only that. *)
Lemma first_per_rule_find seen l rid :
  rid ∉ seen → entry_for rid (first_per_rule seen l) = entry_for rid l.
Proof.
  revert seen. induction l as [|x l IH]; intros seen Hs; [done|]. cbn [first_per_rule].
  destruct (existsb _ seen) eqn:E.
  - apply existsb_eqb_elem in E. rewrite IH; [|done]. unfold entry_for. cbn.
    by rewrite (proj2 (String.eqb_neq (te_rule_id x) rid)); [|intros <-].
  - unfold entry_for in *. cbn. destruct (String.eqb_spec (te_rule_id x) rid); [done|].
    apply IH. apply not_elem_of_cons. naive_solver.
Qed.

Lemma first_per_rule_nodup seen l :
  NoDup (te_rule_id <$> first_per_rule seen l)
  ∧ ∀ rid, rid ∈ (te_rule_id <$> first_per_rule seen l) → rid ∉ seen.
Proof.
  revert seen. induction l as [|x l IH]; intros seen; cbn [first_per_rule].
  { split; [constructor|]. intros rid H. by apply not_elem_of_nil in H. }
  destruct (existsb _ seen) eqn:E; [apply IH|].
  assert (te_rule_id x ∉ seen) as Hx by (intros H%existsb_eqb_elem; congruence).
  destruct (IH (te_rule_id x :: seen)) as [Hn Hs]. rewrite fmap_cons. split.
  - constructor; [|done]. intros H%Hs. apply H. left.
  - intros rid [->|H]%elem_of_cons; [done|]. apply Hs in H. by apply not_elem_of_cons in H as [_ ?].
Qed.

(** A lookup serves one entry per rule, and a tenant's own entry shadows the
    baseline's: for every rule the entry served is the first the tenant has
    for the entity type or for every type, and only when it has none the
    baseline's. *)
Theorem tenant_shadows_baseline reg store entity_type :
  tr_tenant_id reg ≠ _BASELINE_TENANT →
  NoDup (te_rule_id <$> tenant_policies_for reg store entity_type)
  ∧ ∀ rid,
    entry_for rid (tenant_policies_for reg store entity_type) =
    match entry_for rid (applicable store (own_key reg) entity_type) with
    | Some e => Some e
    | None => entry_for rid (applicable store (baseline_key reg) entity_type)
    end.
Proof.
  intros Ht. unfold tenant_policies_for. rewrite (proj2 (String.eqb_neq _ _) Ht).
  split; [apply first_per_rule_nodup|]. intros rid.
  rewrite first_per_rule_find; [apply entry_for_app|apply not_elem_of_nil].
Qed.

(** Registering a rule again under another package adds an entry behind the
    old one, so lookups keep serving the old package. *)
Lemma reregistered_rule_serves_old_package reg store compiled entity_type e :
  entry_for (rg_rule_id compiled) (hget store (own_key reg) entity_type) = Some e →
  entry_for (rg_rule_id compiled)
    (tenant_policies_for reg (tenant_register reg store compiled [entity_type]) entity_type) = Some e.
Proof.
  intros He. unfold tenant_policies_for. rewrite first_per_rule_find; [|apply not_elem_of_nil].
  unfold applicable. rewrite !entry_for_app tenant_register_at. cbv zeta.
  rewrite decide_True; [|split; [done|left]].
  case_bool_decide; [by rewrite He|]. by rewrite entry_for_app He.
Qed.

(** After [unregister] the tenant's own partition has no entry of the rule. *)
Lemma tenant_unregister_own reg store rid et :
  hget (tenant_unregister reg store rid) (own_key reg) et
  = List.filter (λ e, negb (String.eqb (te_rule_id e) rid)) (hget store (own_key reg) et).
Proof.
  unfold tenant_unregister. destruct (store !! own_key reg) as [p|] eqn:E.
  2:{ unfold hget. rewrite E. simpl. by rewrite lookup_empty. }
  set (p' := omap _ p). assert (default [] (p' !! et)
    = List.filter (λ e, negb (String.eqb (te_rule_id e) rid)) (default [] (p !! et))) as Hp.
  { unfold p'. rewrite lookup_omap. destruct (p !! et) as [l|]; [|done]. simpl.
    by destruct (List.filter _ l). }
  unfold put_partition, hget at 1. case_bool_decide as H0.
  - rewrite lookup_delete_eq. simpl. rewrite lookup_empty. unfold hget. rewrite E. simpl.
    rewrite -Hp H0. by rewrite lookup_empty.
  - rewrite lookup_insert_eq. unfold hget. rewrite E. exact Hp.
Qed.

Lemma entry_for_filter rid l :
  entry_for rid (List.filter (λ e, negb (String.eqb (te_rule_id e) rid)) l) = None.
Proof.
  unfold entry_for. induction l as [|x l IH]; [done|]. cbn.
  destruct (String.eqb (te_rule_id x) rid) eqn:E; cbn; [done|]. by rewrite E.
Qed.

(** Unregistering a tenant's rule takes it out of the tenant's lookups for
    every entity type, except that a baseline rule of the same id is visible
    again. *)
Theorem tenant_unregister_unshadows reg store rid entity_type :
  tr_tenant_id reg ≠ _BASELINE_TENANT →
  entry_for rid (tenant_policies_for reg (tenant_unregister reg store rid) entity_type)
  = entry_for rid (applicable store (baseline_key reg) entity_type).
Proof.
  intros Ht. unfold tenant_policies_for. rewrite (proj2 (String.eqb_neq _ _) Ht).
  rewrite first_per_rule_find; [|apply not_elem_of_nil].
  rewrite entry_for_app. unfold applicable at 1. rewrite entry_for_app !tenant_unregister_own !entry_for_filter.
  unfold applicable. rewrite !(tenant_unregister_other reg store rid (baseline_key reg)); [done|..];
    intros E%registry_key_inj; congruence.
Qed.

(** ** Names in OPA *)

(** A published module is stored under an id with the tenant's prefix. *)
Lemma scoped_rule_id_prefixed tenant rid :
  startswith ("tenants_" +:+ tenant +:+ "_") (_scoped_rule_id tenant rid) = true.
Proof.
  unfold _scoped_rule_id. destruct (startswith _ rid) eqn:E; [done|]. apply startswith_app.
Qed.

(** Two tenants' modules can have the same id: the tenant id is followed by the
    same underscore that tenant and rule ids contain. *)
Lemma scoped_rule_id_collides :
  _scoped_rule_id "amc" "b_upfront_margin_v1" = _scoped_rule_id "amc_b" "upfront_margin_v1".
Proof. reflexivity. Qed.

(** A package that starts with another tenant's namespace is not rewritten. *)
Lemma scoped_package_confuses :
  _scoped_package "amc" "tenants.amc_b.sebi.margin" = "tenants.amc_b.sebi.margin"
  ∧ decision_path "amc" "tenants.amc_b.sebi.margin" = "tenants/amc_b/sebi/margin/decision".
Proof. split; reflexivity. Qed.

(** ** Witnesses *)
#[local] Definition w_amc : TenantPolicyRegistry := TenantRegistry "regengine:policy_registry" "amc".
#[local] Definition w_broker : TenantPolicyRegistry := TenantRegistry "regengine:policy_registry" "broker".
#[local] Definition w_base : TenantPolicyRegistry := TenantRegistry "regengine:policy_registry" _BASELINE_TENANT.
#[local] Definition w_rego (rid pkg : string) : CompiledRego := Rego rid pkg "" [] 0 1 "" "" "".
#[local] Definition w_store : redis :=
  tenant_register w_broker
    (tenant_register w_base ∅ (w_rego "margin" "sebi.margin") [])
    (w_rego "margin" "broker.margin") ["STOCK_BROKER"].


Lemma tenant_shadows_witness :
  entry_for "margin" (tenant_policies_for w_broker w_store "STOCK_BROKER") = Some (TenantEntry "margin" "broker.margin")
  ∧ entry_for "margin" (tenant_policies_for w_broker w_store "ISSUER") = Some (TenantEntry "margin" "sebi.margin").
Proof.
  split; (rewrite (proj2 (tenant_shadows_baseline w_broker w_store _ ltac:(done)));
    vm_compute; reflexivity).
Defined.

Lemma tenant_unregister_witness :
  entry_for "margin" (tenant_policies_for w_broker (tenant_unregister w_broker w_store "margin") "STOCK_BROKER")
  = Some (TenantEntry "margin" "sebi.margin").
Proof. rewrite (tenant_unregister_unshadows w_broker w_store "margin" "STOCK_BROKER"); [vm_compute; reflexivity|done]. Defined.
