(* ===== verification/IngestFacts.v ===== *)
(** * From bytes to verifiable clauses

    The parse service, the orchestrator and provenance composed: the clauses
    an ingestion adds pass the check of their digests. *)
From S2P Require Import Prelude PyStr PyText Sha256 Json JsonFacts Datetime Taxonomy DocModels.
From S2P Require Import Extractor Chunker ChunkerFacts ExtractorFacts.
From S2P Require Import DbModels HitlService HitlServiceFacts Orchestrator OrchestratorFacts PipelineFacts.
From S2P Require Import Ledger Provenance ProvenanceFacts.

Open Scope string_scope.
Open Scope Z_scope.

(** ** The parse service *)

(** The chunks of a parse that translates nothing are those of the chunker. *)
Lemma parse_chunks nfkc uuid4 settings detect process bytes filename url at_ extracted parsed :
  localization_enabled settings = false →
  parse_pdf_bytes nfkc uuid4 settings detect process bytes filename url at_ extracted = Ok parsed →
  ∃ m elements,
    extracted = Ok (m, elements)
    ∧ chunk_elements nfkc uuid4 settings
        (set_source m (pr_source_url parsed) filename at_ (sha256_of_bytes bytes)) elements
      = Ok (pr_chunks parsed)
    ∧ me_circular_number (pr_metadata parsed) = me_circular_number m
    ∧ pr_source_document_sha256 parsed = Some (sha256_of_bytes bytes)
    ∧ pr_extracted_text_sha256 parsed
      = Some (sha256_of_extracted_text nfkc (join blank_line (map ck_text (pr_chunks parsed)))).
Proof.
  intros Hl. unfold parse_pdf_bytes. intros ([m elements] & He & H)%res_bind_Ok.
  cbv zeta in H. apply res_bind_Ok in H as (chunks & Hc & H). exists m, elements. split; [done|].
  unfold _localize_chunks in H. rewrite Hl in H. cbn [negb] in H.
  destruct chunks as [|c cs]; [|by apply Ok_inj in H; subst parsed].
  unfold chunk_elements in Hc. destruct elements as [|el els]; [done|].
  apply res_bind_Ok in Hc as ([|] & _ & Hc); done.
Qed.

Section ingest.
Context (nfkc utf8_ignore : string → string) (ie : string → string) (uuid4 : Z → string) (settings : Settings).
Context (detect : string → option string) (process : string → string → translation).

(** A row whose digest is that of its number and text in the circular. *)
Definition digest_ok (number : option string) (c : Clause) : Prop :=
  cl_sha256 c = sha256_of_clause nfkc number (cl_clause_number c) (cl_text c).

Lemma persist_clause_digest number d cid t chunk d' id :
  ck_sha256 chunk = sha256_of_clause nfkc number (ck_clause_number chunk) (ck_text chunk) →
  persist_clause ie d cid t chunk = Ok (d', id) →
  ∀ c, c ∈ d_clauses d' → c ∈ d_clauses d ∨ digest_ok number c.
Proof.
  intros Hs. unfold persist_clause. intros ([e|] & _ & H)%res_bind_Ok c Hc.
  { apply Ok_inj in H. injection H as <- _. by left. }
  unfold insert_clause in H. destruct (existsb _ _); [done|]. apply Ok_inj in H. injection H as <- _.
  cbn in Hc. apply elem_of_app in Hc as [Hc| ->%list_elem_of_singleton]; [by left|right].
  unfold digest_ok, chunk_sha256. cbn [cl_sha256 cl_clause_number cl_text].
  assert (digest_len (ck_sha256 chunk) = true) as ->.
  { rewrite Hs /sha256_of_clause. apply digest_len_sha. }
  destruct (String.eqb_spec (ck_sha256 chunk) "") as [E|_]; cbn [negb andb]; [|done].
  exfalso. rewrite Hs in E. pose proof (sha256_hex_length (clause_payload nfkc number (ck_clause_number chunk) (ck_text chunk))) as L.
  unfold sha256_of_clause in E. by rewrite E in L.
Qed.

Lemma persist_clauses_digest number chunks d cid t d' ids :
  Forall (λ k, ck_sha256 k = sha256_of_clause nfkc number (ck_clause_number k) (ck_text k)) chunks →
  persist_clauses ie d cid t chunks = Ok (d', ids) →
  ∀ c, c ∈ d_clauses d' → c ∈ d_clauses d ∨ digest_ok number c.
Proof.
  revert d ids. induction chunks as [|k chunks IH]; intros d ids Hk H c Hc.
  { apply Ok_inj in H. injection H as <- _. by left. }
  inversion_clear Hk as [|? ? Hk1 Hks]. cbn [persist_clauses] in H. apply res_bind_Ok in H as ([d1 id] & H1 & H).
  apply res_bind_Ok in H as ([d2 ids'] & H2 & H). apply Ok_inj in H. injection H as <- _.
  destruct (IH d1 ids' Hks H2 c Hc) as [H|]; [|by right]. by eapply persist_clause_digest.
Qed.

Lemma persist_circular_clauses d parsed fb fn t url at_ today now d' id :
  persist_circular nfkc utf8_ignore ie d parsed fb fn t url at_ today now = Ok (d', id) →
  d_clauses d' = d_clauses d.
Proof.
  assert (d_clauses (ensure_baseline_tenant d t) = d_clauses d) as <-.
  { unfold ensure_baseline_tenant. by destruct (one_of _ _). }
  unfold persist_circular. intros ([c|] & _ & H)%res_bind_Ok.
  - destruct (negb _); [done|]. apply Ok_inj in H. by injection H as <- _.
  - unfold insert_circular in H. do 2 (destruct (existsb _ _); [done|]).
    destruct (negb _); [done|]. apply Ok_inj in H. by injection H as <- _.
Qed.

Lemma transition_clauses d id target by_ err details now :
  d_clauses (transition_circular_state d id target by_ err details now) = d_clauses d.
Proof. unfold transition_circular_state. by destruct (circular_of d id). Qed.

(** C27. What is ingested can be verified: when a document is parsed without
    translation and its circular carries the number that was detected, every
    clause row the ingestion adds has the digest that provenance recomputes
    from the stored number and text. *)
Theorem ingested_clauses_verify d bytes filename url at_ extracted parsed fn t url' at' today now i circular :
  localization_enabled settings = false → 0 < chunk_max_chars settings →
  parse_pdf_bytes nfkc uuid4 settings detect process bytes filename url at_ extracted = Ok parsed →
  ingest nfkc utf8_ignore ie d (Ok parsed) bytes fn t url' at' today now = inr i →
  circular_of (in_db i) (in_circular i) = Some circular →
  me_circular_number (pr_metadata parsed) = Some (ci_circular_number circular) →
  ∀ clause, clause ∈ d_clauses (in_db i) → clause ∉ d_clauses d →
    verified (clause_stage nfkc circular clause).1 = true
    ∧ ∀ row, clause_hash (fields row) = cl_sha256 clause →
        clause_breaks nfkc circular clause None row = [].
Proof.
  intros Hl Hmax Hp Hi _ Hn clause Hin Hnew.
  destruct (parse_chunks _ _ _ _ _ _ _ _ _ _ _ Hl Hp) as (m & elements & _ & Hc & Hnum & _).
  pose proof (chunk_digests nfkc uuid4 settings _ Hmax elements _ Hc) as Hd.
  cbn [me_circular_number set_source] in Hd. rewrite -Hnum Hn in Hd.
  assert (digest_ok (Some (ci_circular_number circular)) clause) as Hok.
  { unfold ingest in Hi.
    destruct (persist_circular _ _ _ _ _ _ _ _ _ _ _ _) as [[d1 cid]|] eqn:E1; [|done].
    cbn [pr_chunks] in Hi.
    destruct (persist_clauses ie d1 cid t (pr_chunks parsed)) as [[d2 ids]|] eqn:E2; [|done].
    destruct (circular_of d2 cid); [|done]. destruct (String.eqb _ "DEPLOYED"); [done|].
    injection Hi as <-. cbn [in_db] in Hin.
    assert (clause ∈ d_clauses d2) as Hin2.
    { revert Hin. case_match; [by rewrite transition_clauses|done]. }
    destruct (persist_clauses_digest _ _ _ _ _ _ _ Hd E2 clause Hin2) as [H|H]; [|done].
    by rewrite (persist_circular_clauses _ _ _ _ _ _ _ _ _ _ _ E1) in H. }
  unfold digest_ok in Hok. split.
  - unfold clause_stage. cbn [fst verified]. by rewrite -Hok String.eqb_refl.
  - intros row Hr. unfold clause_breaks. cbn [default]. rewrite -Hok Hr !String.eqb_refl. done.
Qed.

(** A translated chunk keeps the digest of the original text: once its clause is
    stored, its digest does not match its text. *)
Lemma translated_clause_rejected c language result number circular clause row :
  ck_sha256 c = sha256_of_clause nfkc (Some number) (ck_clause_number c) (ck_text c) →
  detect (ck_text c) = Some language → language ≠ "en" →
  process (ck_text c) language = Translated result →
  let c' := (_translate_one_chunk detect process c).1 in
  cl_sha256 clause = ck_sha256 c' → cl_text clause = ck_text c' → cl_clause_number clause = ck_clause_number c' →
  ci_circular_number circular = number →
  NoCollision [clause_payload nfkc (Some number) (ck_clause_number c) (rd_translated_text result);
               clause_payload nfkc (Some number) (ck_clause_number c) (ck_text c)] →
  _canonicalize nfkc (rd_translated_text result) ≠ _canonicalize nfkc (ck_text c) →
  clause_breaks nfkc circular clause None row ≠ [].
Proof.
  intros Hs Hd Hen Hp. unfold _translate_one_chunk. rewrite Hd (proj2 (String.eqb_neq _ _) Hen) Hp. cbv zeta.
  intros H1 H2 H3 Hn Hnc Hne H. unfold clause_breaks in H. apply app_nil_split in H as [H _].
  apply break_when_nil, negb_false_iff, String.eqb_eq in H. rewrite H1 H2 H3 Hn in H. cbn [default] in H.
  cbn [fst build_translated_clause_chunk ck_sha256 ck_text ck_clause_number] in H. rewrite Hs in H.
  unfold sha256_of_clause in H. apply Hnc in H; [|by left|by right; left].
  rewrite !clause_payload_parts in H. apply sapp_inj_r, scons_inj, sapp_inj_r, scons_inj in H. done.
Qed.
End ingest.

(** ** Witnesses: a small circular is read, chunked and ingested *)
#[local] Definition w_lines : list raw_element :=
  map (λ s, Raw s "NarrativeText" (Some 1) None None)
    ["Circular No. SEBI/HO/MRD/2024/100"; "1. Margins";
     "1.1 Brokers shall collect upfront margin of twenty percent."; "1.2 Brokers shall report daily."].
#[local] Definition w_settings : Settings := ParseSettings 180 "pypdf" "fast" 60 10 12 false.
#[local] Definition w_call : backend_call := Call 50 (Ok w_lines).
#[local] Definition w_hung : backend_call := Call 1000000 (Ok []).
#[local] Definition w_backend (b : string) : backend_call := if String.eqb b "pypdf" then w_call else w_hung.
#[local] Definition w_uuid4 (n : Z) : string := "e" +:+ str_of_Z n.
#[local] Definition w_none : raster := Raster 0 None.
#[local] Definition w_extracted :=
  extract_pdf w_settings w_backend w_hung (λ _, None) w_uuid4 "%PDF-1.7" w_none None None.

Lemma pypdf_text_wins_witness :
  w_extracted = Ok (_extract_metadata_from_elements (λ _, None) w_lines None None,
                    _build_document_elements w_uuid4 w_lines)
  ∧ map el_clause_number (_build_document_elements w_uuid4 w_lines) = [None; Some "1"; Some "1.1"; Some "1.2"].
Proof.
  split; [|vm_compute; reflexivity].
  apply (pypdf_text_wins w_settings w_backend w_hung (λ _, None) w_uuid4 "%PDF-1.7" w_none None None w_lines);
    [reflexivity|reflexivity|vm_compute; reflexivity|cbn; lia].
Defined.

Lemma extracted_document_witness :
  _build_document_elements w_uuid4 w_lines ≠ []
  ∧ Forall (λ el, el_text el ≠ "") (_build_document_elements w_uuid4 w_lines).
Proof.
  apply (extracted_document_has_text w_settings w_backend w_hung (λ _, None) w_uuid4 "%PDF-1.7" w_none None None
           (_extract_metadata_from_elements (λ _, None) w_lines None None)).
  vm_compute. reflexivity.
Defined.

Lemma split_keeps_text_witness :
  ∃ fragments, _split_long_text "One two. Three four. Five six." 20 4 = Ok fragments
    ∧ fragments ≠ [] ∧ Forall (λ f, py_len f <= 20) fragments
    ∧ ink "One two. Three four. Five six." `sublist_of` inks fragments.
Proof. apply (split_keeps_text "One two. Three four. Five six." 20 4). lia. Defined.

#[local] Definition w_id (s : string) : string := s.
#[local] Definition w_elements : list DocumentElement := _build_document_elements w_uuid4 w_lines.
#[local] Definition w_meta : CircularMetadata := _extract_metadata_from_elements (λ _, None) w_lines None None.

(** The heading "1. Margins" is too short to be kept on its own. *)
Lemma chunk_elements_complete_witness :
  (∃ chunks, chunk_elements w_id w_uuid4 w_settings w_meta w_elements = Ok chunks)
  ∧ map (keeps_group w_settings) (_group_by_clause w_elements) = [true; false; true; true].
Proof.
  split; [|vm_compute; reflexivity].
  apply (proj1 (chunk_elements_complete w_id w_uuid4 w_settings w_meta eq_refl w_elements)).
  apply Exists_cons. left. vm_compute. reflexivity.
Defined.

#[local] Definition w_parse : res parsing_error ParseResult :=
  parse_pdf_bytes w_id w_uuid4 w_settings (λ _, None) (λ _ _, TranslationFailed) "%PDF-1.7" None None None
    (Ok (w_meta, w_elements)).
#[local] Definition w_parsed : ParseResult :=
  Eval vm_compute in
    match w_parse with Ok p => p | Raise _ => Parsed w_meta [] 0 [] None None None None None end.
#[local] Definition w_now : datetime := Datetime 63000000000000000 (Some 0).
#[local] Definition w_ingest : ingested :=
  Eval vm_compute in
    match ingest w_id w_id w_id empty_db (Ok w_parsed) "%PDF-1.7" None DEFAULT_TENANT_ID None None 738001 w_now with
    | inr i => i
    | inl _ => Ingested empty_db 0 [] []
    end.
#[local] Definition w_circular : Circular :=
  Eval vm_compute in match d_circulars (in_db w_ingest) with c :: _ => c | [] => CircularRow 0 "" true "" None None None None None None None "" "" None w_now end.

Lemma ingested_clauses_verify_witness :
  map cl_clause_number (d_clauses (in_db w_ingest)) = [None; Some "1.1"; Some "1.2"]
  ∧ ∀ clause, clause ∈ d_clauses (in_db w_ingest) → verified (clause_stage w_id w_circular clause).1 = true.
Proof.
  split; [reflexivity|]. intros clause Hin.
  apply (ingested_clauses_verify w_id w_id w_id w_uuid4 w_settings (λ _, None) (λ _ _, TranslationFailed) empty_db
           "%PDF-1.7" None None None (Ok (w_meta, w_elements)) w_parsed None DEFAULT_TENANT_ID None None 738001
           w_now w_ingest w_circular eq_refl eq_refl).
  - vm_compute. reflexivity.
  - vm_compute. reflexivity.
  - reflexivity.
  - reflexivity.
  - exact Hin.
  - apply not_elem_of_nil.
Defined.
