(* ===== verification/OutputGuardFacts.v ===== *)
(** * What the guards guarantee

    The sanitizer keeps the text of a clause and only brackets what it finds;
    an audit that is approved after the output guard rests on the clause: each
    threshold's value, evidence and metric, each entity and each directive. *)
From S2P Require Import Prelude PyStr PyFloat PyRe PyText Json DocModels Facts Schemas Difflib.
From S2P Require Import OutputGuard.
From Stdlib Require Import SpecFloat.

Open Scope string_scope.

(** ** The sanitizer *)
Lemma redaction_keeps m : sublist (chars m) (chars (redaction m)).
Proof. unfold redaction. rewrite !chars_app. apply sublist_inserts_l, sublist_inserts_r. done. Qed.

Lemma redact_keeps rs t :
  sublist (chars t) (chars (fold_left (λ t r, re_sub r redaction t) rs t)).
Proof.
  revert t. induction rs as [|r rs IH]; intros t; cbn; [done|].
  etransitivity; [|apply IH]. apply re_sub_keeps, redaction_keeps.
Qed.

Lemma redact_clean rs t :
  List.flat_map (λ r, findall r t) rs = [] → fold_left (λ t r, re_sub r redaction t) rs t = t.
Proof.
  induction rs as [|r rs IH]; intros H; [done|]. cbn in H. apply app_eq_nil in H as [H1 H2].
  cbn. rewrite (re_sub_none r redaction t H1). by apply IH.
Qed.

(** The sanitizer flags and never discards: the visible text of a clause
    (normalized, without the invisible characters) survives in the cleaned text,
    character by character and in order; it is unchanged when no override phrase
    is found, and a phrase that is found is reported. *)
Theorem sanitizer_keeps_text nfkc text :
  let visible := re_sub _INVISIBLE_CHAR_RE (λ _, "") (nfkc text) in
  let r := sanitize_source_text nfkc text in
  sublist (chars visible) (chars (cleaned_text r))
  ∧ (detected_patterns r = [] → cleaned_text r = visible)
  ∧ (detected_patterns r ≠ [] → is_suspicious r = true).
Proof.
  cbv zeta. cbn [sanitize_source_text cleaned_text detected_patterns]. unfold redact_overrides. split_and!.
  - apply redact_keeps.
  - apply redact_clean.
  - intros H. unfold is_suspicious. cbn [detected_patterns sanitize_source_text].
    by destruct (detect_injection_patterns _).
Qed.

(** ** The output guard *)
Lemma str_or_idemp o : str_or (Some (str_or o "")) "" = str_or o "".
Proof. destruct o as [s|]; [|done]. cbn. by destruct (String.eqb_spec s "") as [->|Hne%String.eqb_neq]; cbn; rewrite ?Hne. Qed.

Lemma findings_from_none {A} (f : Z → A → option AuditFinding) i l :
  findings_from f i l = [] → ∀ x, x ∈ l → ∃ j, f j x = None.
Proof.
  revert i. induction l as [|y l IH]; intros i H x Hx; [by apply elem_of_nil in Hx|].
  cbn in H. apply app_eq_nil in H as [H1 H2]. apply elem_of_cons in Hx as [->|Hx].
  - exists i. by destruct (f i y).
  - by eapply IH.
Qed.

(** What a grounded claim has in the clause. *)
Definition supported (nfkc : string → string) (source quote : string) : Prop :=
  contains (_normalize_text nfkc quote) (_normalize_text nfkc source) = true
  ∨ ((∀ n, n ∈ numbers (_normalize_text nfkc quote) → n ∈ numbers (_normalize_text nfkc source))
     ∧ ∃ i j k, block (code_points (_normalize_text nfkc quote)) (code_points (_normalize_text nfkc source)) i j k
         ∧ flt_ltb (float_div (float_of_Z (Z.of_nat k))
                      (float_of_Z (Z.max (Z.of_nat (length (code_points (_normalize_text nfkc quote)))) 1)))
             (decimal 90 2) = false).

Definition grounded_threshold (nfkc : string → string) (source : string) (t : NumericalThreshold) : Prop :=
  _normalize_text nfkc (nt_evidence t) ≠ ""
  ∧ detect_injection_patterns (nt_evidence t) = [] ∧ detect_injection_patterns (metric t) = []
  ∧ supported nfkc source (nt_evidence t)
  ∧ (∃ n, (n = float_repr (value t) ∨ n = str_of_Z (int_of_float (value t))) ∧ n ∈ numbers source)
  ∧ (∃ n, (n = float_repr (value t) ∨ n = str_of_Z (int_of_float (value t))) ∧ n ∈ numbers (nt_evidence t)).

Definition grounded_quote (nfkc : string → string) (source quote : string) : Prop :=
  _normalize_text nfkc quote ≠ "" ∧ contains (_normalize_text nfkc quote) (_normalize_text nfkc source) = true.

Definition grounded (nfkc : string → string) (source : string) (r : ExtractedComplianceRule) : Prop :=
  (∀ t, t ∈ deterministic_logic r → grounded_threshold nfkc source t)
  ∧ (∀ e, e ∈ target_entities r → grounded_quote nfkc source (te_evidence e))
  ∧ (∀ d, d ∈ qualitative_directives r → grounded_quote nfkc source (qd_evidence d)).

Lemma str_in_spec x l : str_in x l = true ↔ x ∈ l.
Proof.
  unfold str_in. rewrite existsb_exists list_elem_of_In. split; [|by exists x; rewrite String.eqb_refl].
  by intros (y & Hy & ->%String.eqb_eq).
Qed.

Lemma unsupported_spec q s :
  unsupported_quote q s = false →
  (∀ n, n ∈ numbers q → n ∈ numbers s)
  ∧ ∃ i j k, block (code_points q) (code_points s) i j k
      ∧ flt_ltb (float_div (float_of_Z (Z.of_nat k)) (float_of_Z (Z.max (Z.of_nat (length (code_points q))) 1)))
          (decimal 90 2) = false.
Proof.
  unfold unsupported_quote. destruct (find_longest_match _ _ _) as [[i j] k] eqn:E. apply longest_match_block in E.
  intros [H1 H2]%orb_false_iff. split; [|by exists i, j, k].
  apply negb_false_iff in H1. rewrite forallb_forall in H1. intros n Hn.
  apply str_in_spec, H1. by apply list_elem_of_In.
Qed.

Lemma among_spec v tokens :
  str_in (value_strings v).1 tokens || str_in (value_strings v).2 tokens = true →
  ∃ n, (n = float_repr v ∨ n = str_of_Z (int_of_float v)) ∧ n ∈ tokens.
Proof.
  intros [H|H]%orb_prop; apply str_in_spec in H; [exists (float_repr v); auto|].
  cbn in H. destruct (float_is_integer v); eauto.
Qed.

Lemma threshold_grounded nfkc source i t :
  threshold_finding nfkc source i t = None → grounded_threshold nfkc source t.
Proof.
  unfold threshold_finding. destruct (String.eqb_spec (_normalize_text nfkc (nt_evidence t)) "") as [|Hne]; [done|].
  case_bool_decide as Einj; [|done]. apply app_eq_nil in Einj as [Ei1 Ei2]. cbn [negb orb].
  destruct (contains "[REDACTED-POSSIBLE-INJECTION" _); [done|].
  destruct (negb (contains _ _) && _) eqn:Equote; [done|].
  pose proof (among_spec (value t)) as Ham. destruct (value_strings (value t)) as [vs is_] eqn:Ev. cbn in Ham.
  destruct (negb (_ || _) || _) eqn:Eval; [done|]. intros _.
  apply orb_false_iff in Eval as [E1%negb_false_iff E2%negb_false_iff].
  split_and!; [done..| |by apply Ham|by apply Ham].
  apply andb_false_iff in Equote as [Eq%negb_false_iff|Eq]; [by left|right]. by apply unsupported_spec.
Qed.

Lemma entity_grounded nfkc source j e : entity_finding nfkc source j e = None → grounded_quote nfkc source (te_evidence e).
Proof.
  unfold entity_finding, grounded_quote. destruct (String.eqb_spec (_normalize_text nfkc (te_evidence e)) ""); [done|].
  by destruct (contains _ _).
Qed.

Lemma directive_grounded nfkc source k d :
  directive_finding nfkc source k d = None → grounded_quote nfkc source (qd_evidence d).
Proof.
  unfold directive_finding, grounded_quote. destruct (String.eqb_spec (_normalize_text nfkc (qd_evidence d)) ""); [done|].
  by destruct (contains _ _).
Qed.

Lemma no_findings_grounded nfkc r source : validate_source_grounding nfkc r source = [] → grounded nfkc source r.
Proof.
  unfold validate_source_grounding. intros [H1 [H2 H3]%app_eq_nil]%app_eq_nil. split_and!.
  - intros t Ht. destruct (findings_from_none _ _ _ H1 t Ht) as [i Hi]. by eapply threshold_grounded.
  - intros e He. destruct (findings_from_none _ _ _ H2 e He) as [i Hi]. by eapply entity_grounded.
  - intros d Hd. destruct (findings_from_none _ _ _ H3 d Hd) as [i Hi]. by eapply directive_grounded.
Qed.

Lemma findings_from_blockers {A} (f : Z → A → option AuditFinding) i l x :
  (∀ i x b, f i x = Some b → severity b = BLOCKER) → x ∈ findings_from f i l → severity x = BLOCKER.
Proof.
  intros Hf. revert i. induction l as [|y l IH]; intros i; cbn; [by intros ?%elem_of_nil|].
  intros [H|H]%elem_of_app; [|by eapply IH]. destruct (f i y) as [b|] eqn:E; [|by apply elem_of_nil in H].
  apply list_elem_of_singleton in H as ->. by eapply Hf.
Qed.

Lemma grounding_blocks nfkc r source x : x ∈ validate_source_grounding nfkc r source → severity x = BLOCKER.
Proof.
  unfold validate_source_grounding. rewrite !elem_of_app. intros [H|[H|H]]; eapply findings_from_blockers, H.
  - intros i t b. unfold threshold_finding. destruct (value_strings _). by repeat case_match; intros [= <-].
  - intros i t b. unfold entity_finding. by repeat case_match; intros [= <-].
  - intros i t b. unfold directive_finding. by repeat case_match; intros [= <-].
Qed.

Lemma add_findings_rejects a x fs n : severity x = BLOCKER → verdict (add_findings a (x :: fs) n) = REJECTED.
Proof. intros H. unfold add_findings. cbn. by rewrite H. Qed.

(** The guard either leaves rule and audit as they are, and then everything is
    grounded, or rejects. *)
Lemma guard_cases nfkc parse r a text d p r' a' p' :
  guard_and_validate_extraction nfkc parse r a text d p = Ok (r', a', p') →
  (r' = r ∧ a' = a ∧ grounded nfkc text r
   ∧ ∃ g p1, check_extraction_output parse (Some (str_or (extraction_notes r) "")) (ambiguous_spans r) d p = Ok (g, p1)
       ∧ gr_validation_passed g = true)
  ∨ verdict a' = REJECTED.
Proof.
  unfold guard_and_validate_extraction. intros ([g p1] & Hg & H)%res_bind_Ok.
  destruct (gr_validation_passed g) eqn:Eg.
  - injection H as <- Ha <-. destruct (validate_source_grounding nfkc r text) as [|x fs] eqn:E.
    + left. split_and!; [done|done|by apply no_findings_grounded|by exists g, p1].
    + right. subst a'. apply add_findings_rejects, (grounding_blocks nfkc r text). rewrite E. left.
  - injection H as _ Ha _. right. subst a'. destruct (validate_source_grounding _ _ _) as [|x fs] eqn:E.
    + by apply add_findings_rejects.
    + apply add_findings_rejects. assert (x ∈ x :: fs) as Hx by left. rewrite -E in Hx. by eapply grounding_blocks.
Qed.

(** A field without leakage, or one that is its own notice of redaction. *)
Definition leak_free (text : string) : Prop := detect_injection_patterns text = [] ∨ leakage_validate text = Some text.

Lemma fixing_clean notes spans d p g p' :
  check_extraction_output fixing notes spans d p = Ok (g, p') → gr_validation_passed g = true →
  leak_free (str_or notes "") ∧ leak_free (join " | " spans).
Proof.
  assert (∀ s, bool_decide (Some (default s (leakage_validate s)) = Some s) = true → leak_free s) as Hs.
  { intros s H%bool_decide_eq_true. unfold leak_free. destruct (leakage_validate s) as [x|] eqn:E.
    - right. cbn in H. congruence.
    - left. unfold leakage_validate in E. by destruct (detect_injection_patterns s). }
  unfold check_extraction_output. intros (p1 & _ & [= <- <-])%res_bind_Ok.
  cbn [gr_validation_passed forallb leak_finding lk_passed]. rewrite !andb_true_iff. intros (H1 & H2 & _).
  split; apply Hs; assumption.
Qed.

(** No rule is approved on words its clause does not contain: when the
    output guard lets an approval through, it has changed neither rule nor
    audit, the notes and ambiguous spans are free of override phrases, every
    threshold has evidence from the clause (verbatim, or nine tenths of it in
    one piece and no number of its own), free of override phrases, in which its
    value occurs as a number, as it does in the clause, and every entity and
    directive quotes the clause.  In every other case the verdict is a
    rejection or was no approval before. *)
Theorem approved_is_grounded nfkc r a text d p r' a' p' :
  guard_and_validate_extraction nfkc fixing r a text d p = Ok (r', a', p') →
  (verdict a' = APPROVED →
     r' = r ∧ a' = a ∧ grounded nfkc text r
     ∧ leak_free (str_or (extraction_notes r) "") ∧ leak_free (join " | " (ambiguous_spans r)))
  ∧ (verdict a' = REJECTED ∨ verdict a' = verdict a)
  ∧ deterministic_logic r' = deterministic_logic r.
Proof.
  intros H. split_and!.
  - intros Ha. destruct (guard_cases _ _ _ _ _ _ _ _ _ _ H) as [(-> & -> & Hg & g & p1 & Hc & Hp)|Hr]; [|congruence].
    destruct (fixing_clean _ _ _ _ _ _ Hc Hp) as [H1 H2]. rewrite str_or_idemp in H1. done.
  - destruct (guard_cases _ _ _ _ _ _ _ _ _ _ H) as [(-> & -> & _)|Hr]; auto.
  - unfold guard_and_validate_extraction in H. apply res_bind_Ok in H as ([g p1] & _ & H).
    destruct (gr_validation_passed g); by injection H as <- _ _.
Qed.
