(* ===== verification/Providers.v ===== *)
(** * Extraction and audit of a clause: [src/app/agents/providers.py] and [crew.py]

    An offline extractor by patterns, the revision loop of the two agents, and
    the external providers that run the loop and fall back to the offline one.
    The crew of agents (CrewAI and the model behind it) is a parameter; the
    state of the process that the output guard reads is threaded through, also
    when a computation raises. *)
From S2P Require Import Prelude PyStr PyFloat PyRe PyText Json Datetime Facts Taxonomy DocModels.
From S2P Require Import Schemas Compiler DbModels Orchestrator Difflib OutputGuard.
From Stdlib Require Import SpecFloat.

Open Scope string_scope.

(** ** Computations that may raise, with the state of the process *)
Definition io (A : Type) : Type := process → res exn A * process.
Definition io_ret {A} (x : A) : io A := λ p, (Ok x, p).
Definition io_raise {A} (e : exn) : io A := λ p, (Raise e, p).
Definition io_bind {A B} (m : io A) (k : A → io B) : io B := λ p,
  match m p with (Ok x, p') => k x p' | (Raise e, p') => (Raise e, p') end.
(** [try: m except Exception as exc: handler] *)
Definition io_catch {A} (m : io A) (handler : exn → io A) : io A := λ p,
  match m p with (Raise e, p') => handler e p' | x => x end.

Inductive LLMProviderType := OFFLINE | OPENAI | ANTHROPIC | HUGGINGFACE.
Definition provider_value (t : LLMProviderType) : string :=
  match t with OFFLINE => "offline" | OPENAI => "openai" | ANTHROPIC => "anthropic" | HUGGINGFACE => "huggingface" end.

Record AgentSettings := ASettings
  { llm_provider : option string
  ; openai_api_key : option string
  ; anthropic_api_key : option string
  ; hf_api_token : option string
  ; redteam_disable_output_guard_telemetry : bool }.

(** A rule as the constructor builds it from the given fields, the others at
    their defaults; the validator adds the digest of the thresholds. *)
Definition build_rule (validation_error : schema_error → string) (rule_id : string) (chunk : ClauseChunk)
    (circular clause domain : option string) (regulator : Regulator) (entities : list TargetEntity)
    (logic : list NumericalThreshold) (directives : list QualitativeDirective) (obligation : ObligationType)
    (confidence : spec_float) (notes : string) : io ExtractedComplianceRule :=
  match validate_rule
    {| rule_id := rule_id; source_chunk_id := ck_chunk_id chunk; source_sha256 := ck_sha256 chunk;
       source_document_sha256 := ck_source_document_sha256 chunk; extracted_text_sha256 := None;
       circular_number := circular; clause_number := clause; section_path := ck_section_path chunk;
       regulator := regulator; regulatory_domain := domain; target_entities := entities; trigger_conditions := [];
       deterministic_logic := logic; qualitative_directives := directives; obligation_type := obligation;
       extraction_confidence := confidence; ambiguous_spans := []; extraction_notes := Some notes;
       canonical_facts_digest := None |}
  with
  | Ok r => io_ret r
  | Raise e => io_raise (Exn "ValidationError" (validation_error e))
  end.

Definition excerpt_of (text : string) : option string := if String.eqb text "" then None else Some (utake 200 text).

Definition telemetry_message : string :=
  "'guardrails' was already imported elsewhere in this process WITHOUT OTEL_SDK_DISABLED=true set first -- "
  +:+ "its telemetry TracerProvider (see this module's docstring) is likely already active and cannot be "
  +:+ "retroactively disabled. Set OTEL_SDK_DISABLED=true before any 'import guardrails' in this process, or "
  +:+ "import app.redteam.output_guard before anything else that might import guardrails.".

(** ** Patterns of the offline extractor; the outermost group is the whole match *)
Definition pattern (pat : string) : list part := default [Plain (RChr (λ _, false))] (re_parts true pat).

Definition broker_pattern : regex := re_compile true "\b(stock\s*brokers?|brokers?)\b".
Definition margin_text : string :=
  "(?:minimum\s+|mandatory\s+|upfront\s+)?margin(?:\s+of\s+not\s+less\s+than|\s+requirement|\s+collection)?\s*(?:of\s+)?(?:at\s+least\s+)?(?P<2>\d+(?:\.\d+)?)\s*(?P<3>%|percent)".
Definition percent_text : string := "(?P<1>\d+(?:\.\d+)?)\s*(?P<2>%|percent)".
Definition collateral_text : string :=
  "(?:client\s+)?collateral(?:\s+requirement)?\s*(?:of\s+at\s+least|not\s+less\s+than|of)\s*(?P<2>\d+(?:\.\d+)?)\s*(?P<3>inr(?:\s+crore|\s+lakh)?|crore|lakh|rs\.?)".
Definition peak_text : string :=
  "peak\s+margin\s*(?:requirement)?\s*(?:of\s+at\s+least|not\s+less\s+than|of)\s*(?P<2>\d+(?:\.\d+)?)\s*(?P<3>%|percent)".
Definition deadline_text : string :=
  "(?:report|reporting|submission|filing)\s*(?:deadline|timeline)?\s*(?:within|is)\s*(?P<2>\d+)\s*(?P<3>days|hours|months|weeks)".

Example offline_patterns_supported :
  forallb (λ t, match re_parts true t with Some _ => true | None => false end)
    [margin_text; percent_text; collateral_text; peak_text; deadline_text]
  && re_supported "\b(stock\s*brokers?|brokers?)\b" = true.
Proof. vm_compute. reflexivity. Qed.

Definition group (k : string) (g : groups) : string := default "" (obj_get k g).

Definition threshold (metric fact : string) (op : ComparisonOperator) (val : string) (unit_ : string)
    (applies : option string) (evidence : string) : NumericalThreshold :=
  Threshold metric (Some fact) op (float_of_numeral val) None unit_ applies evidence.

(** One pattern with the number in group 2 and the unit in group 3. *)
Definition by_pattern (pat : string) (text : string) (build : string → string → string → NumericalThreshold)
  : list NumericalThreshold :=
  match search_groups (pattern pat) text with
  | Some (full_span, g, _) => [build full_span (group "2" g) (group "3" g)]
  | None => []
  end.

(** [re.split(r"[.\n]", text)] *)
Definition split_sentences (text : string) : list string := List.flat_map (split_on newline) (split_on "." text).

Definition margin_thresholds (text : string) (applies : option string) : list NumericalThreshold :=
  let lower_text := lower text in
  match search_groups (pattern margin_text) text with
  | Some (full_span, g, _) => [threshold "Upfront Margin" "upfront_margin_pct" GTE (group "2" g) "%" applies full_span]
  | None =>
      if contains "margin" lower_text && (contains "%" text || contains "percent" lower_text) then
        match search_groups (pattern percent_text) text with
        | Some (whole, g, _) =>
            let quote := match List.find (contains whole) (split_sentences text) with Some s => strip s | None => whole end in
            [threshold "Upfront Margin" "upfront_margin_pct" GTE (group "1" g) "%" applies quote]
        | None => []
        end
      else []
  end.

Definition offline_entities (text : string) : list TargetEntity :=
  if contains "broker" (lower text) then
    let entity_raw := match re_search broker_pattern text with Some m => m | None => "stock broker" end in
    [Target entity_raw (Some "Stockbroker") entity_raw]
  else [].

Definition offline_thresholds (text : string) (entities : list TargetEntity) : list NumericalThreshold :=
  let applies := match entities with [] => None | _ => Some "Stockbroker" end in
  (margin_thresholds text applies
   ++ by_pattern collateral_text text (λ span v u, threshold "Client Collateral" "client_collateral" GTE v u applies span)
   ++ by_pattern peak_text text (λ span v _, threshold "Peak Margin" "peak_margin" GTE v "%" applies span)
   ++ by_pattern deadline_text text (λ span v u, threshold "Reporting Deadline" "reporting_deadline" LTE v u None span))%list.

Section providers.
Context (nfkc : string → string) (parse : guard_parse) (validation_error : schema_error → string).

Definition guarded (settings : AgentSettings) (chunk : ClauseChunk) (r : ExtractedComplianceRule) (a : ComplianceRuleAudit)
  : io (ExtractedComplianceRule * ComplianceRuleAudit) := λ p,
  match guard_and_validate_extraction nfkc parse r a (ck_text chunk) (redteam_disable_output_guard_telemetry settings) p with
  | Ok (r', a', p') => (Ok (r', a'), p')
  | Raise OutputGuardTelemetryError => (Raise (Exn "OutputGuardTelemetryError" telemetry_message), p)
  end.

(** ** [OfflineLLMProvider.extract_and_audit] *)
Definition offline_extract_and_audit (settings : AgentSettings) (chunk : ClauseChunk) : io AuditedComplianceRule :=
  let text := cleaned_text (sanitize_source_text nfkc (ck_text chunk)) in
  let clean_circular := sanitize_metadata_field nfkc (ck_circular_number chunk) in
  let clean_clause := sanitize_metadata_field nfkc (ck_clause_number chunk) in
  let rule_id := ck_sha256 chunk +:+ ":" +:+ str_or clean_clause "unscoped" in
  let target_entities := offline_entities text in
  let thresholds := offline_thresholds text target_entities in
  match thresholds with
  | _ :: _ =>
      let primary := match target_entities with [] => None | e :: _ => normalized_entity e end in
      io_bind (build_rule validation_error rule_id chunk clean_circular clean_clause
                 (Some (resolve_domain (ck_regulator chunk) primary)) (ck_regulator chunk) target_entities thresholds []
                 MANDATORY (float_of_Z 1) "Deterministic rule extraction (offline demo mode, no external LLM used)") (λ r,
      let a := Audit rule_id APPROVED (float_of_Z 1) []
                 (Z.of_nat (length thresholds) + Z.of_nat (length target_entities)) 0 in
      io_bind (guarded settings chunk r a) (λ '(r, a), io_ret (Audited r a 0)))
  | [] =>
      io_bind (build_rule validation_error rule_id chunk clean_circular clean_clause
                 (Some (resolve_domain (ck_regulator chunk) None)) (ck_regulator chunk) [] []
                 (if String.eqb text "" then [] else [Directive (utake 200 text) (utake 200 text)])
                 RECOMMENDED (float_of_Z 0)
                 "Offline extraction: clause text contains no verifiable deterministic numeric threshold.") (λ r,
      let a := Audit rule_id REJECTED (float_of_Z 0)
                 [blocker UNSUPPORTED_CLAIM "deterministic_logic"
                    ("Unsupported rule: source clause text does not contain a verifiable numeric obligation "
                     +:+ "in offline mode. Human review required.") (excerpt_of text)] 0 1 in
      io_bind (guarded settings chunk r a) (λ '(r, a), io_ret (Audited r a 0)))
  end.

(** ** [crew.py] *)
Definition MAX_REVISION_ROUNDS : nat := 2.

(** The [pydantic] output of a task: of the schema, or of another class. *)
Inductive task_output (A : Type) := Conforming (x : A) | OtherClass (class_ : string).
Arguments Conforming {A} x.
Arguments OtherClass {A} class_.

Definition class_repr {A} (name : string) (o : task_output A) : string :=
  match o with Conforming _ => name | OtherClass c => c end.

(** [crew.kickoff()]: raises, or leaves the outputs of the two tasks.  The
    crew sees the clause, its siblings, the round and the findings so far. *)
Inductive kickoff_result :=
| KickoffRaised (text : string)
| KickoffDone (extracted : task_output ExtractedComplianceRule) (audit : task_output ComplianceRuleAudit).

Definition crew : Type := ClauseChunk → list sibling → nat → option (list AuditFinding) → kickoff_result.

(** The regulator and the domain are stamped, not taken from the model. *)
Definition stamped (chunk : ClauseChunk) (r : ExtractedComplianceRule) : ExtractedComplianceRule :=
  let primary_entity := match target_entities r with [] => None | e :: _ => normalized_entity e end in
  Rule (rule_id r) (source_chunk_id r) (source_sha256 r) (source_document_sha256 r) (extracted_text_sha256 r)
    (circular_number r) (clause_number r) (section_path r) (ck_regulator chunk)
    (Some (resolve_domain (ck_regulator chunk) primary_entity)) (target_entities r) (trigger_conditions r)
    (deterministic_logic r) (qualitative_directives r) (obligation_type r) (extraction_confidence r)
    (ambiguous_spans r) (extraction_notes r) (canonical_facts_digest r).

Definition _run_crew_once (kickoff : crew) (settings : AgentSettings) (chunk : ClauseChunk) (siblings : list sibling)
    (round : nat) (prior : option (list AuditFinding)) : io (ExtractedComplianceRule * ComplianceRuleAudit) :=
  match kickoff chunk siblings round prior with
  | KickoffRaised text =>
      if contains "timeout" (lower text) || contains "timed out" (lower text)
      then io_raise (Exn "ProviderTimeoutError" ("Crew execution timed out: " +:+ text))
      else io_raise (Exn "ProviderExecutionError" ("Crew execution failed: " +:+ text))
  | KickoffDone (Conforming r) (Conforming a) => guarded settings chunk (stamped chunk r) a
  | KickoffDone e a =>
      io_raise (Exn "MalformedOutputError"
        ("Crew did not return schema-conformant output (extracted="
         +:+ class_repr "<class 'app.agents.schemas.ExtractedComplianceRule'>" e
         +:+ ", audit=" +:+ class_repr "<class 'app.agents.schemas.ComplianceRuleAudit'>" a +:+ "); refusing to persist."))
  end.

(** The rounds from [round] on, [left] more after it. *)
Fixpoint crew_rounds (kickoff : crew) (settings : AgentSettings) (chunk : ClauseChunk) (siblings : list sibling)
    (left : nat) (round : nat) (prior : option (list AuditFinding)) : io AuditedComplianceRule :=
  io_bind (_run_crew_once kickoff settings chunk siblings round prior) (λ '(r, a),
  match verdict a, left with
  | NEEDS_REVISION, S left' => crew_rounds kickoff settings chunk siblings left' (S round) (Some (findings a))
  | _, _ => io_ret (Audited r a (Z.of_nat round))
  end).
Definition _run_crew_loop (kickoff : crew) (settings : AgentSettings) (chunk : ClauseChunk) (siblings : list sibling)
  : io AuditedComplianceRule := crew_rounds kickoff settings chunk siblings MAX_REVISION_ROUNDS 0 None.

(** ** [ExternalLLMProvider] *)
Definition _controlled_failure_rule (chunk : ClauseChunk) (t : LLMProviderType) (error : exn) : io AuditedComplianceRule :=
  let rule_id := ck_sha256 chunk +:+ ":" +:+ str_or (ck_clause_number chunk) "unscoped" in
  let what := "'" +:+ provider_value t +:+ "' failed (" +:+ exn_type error +:+ ": " +:+ exn_str error +:+ "). " in
  io_bind (build_rule validation_error rule_id chunk (ck_circular_number chunk) (ck_clause_number chunk) None SEBI [] [] []
             MANDATORY (float_of_Z 0)
             ("Provider " +:+ what +:+ "Deterministic proof was not possible from source text. Routed to human review.")) (λ r,
  io_ret (Audited r
    (Audit rule_id REJECTED (float_of_Z 0)
       [blocker UNSUPPORTED_CLAIM "deterministic_logic"
          ("LLM Provider " +:+ what +:+ "Cannot verify rule without human review.") (excerpt_of (ck_text chunk))] 0 1) 0)).

Definition blank_key (k : option string) : bool := negb (truthy k) || String.eqb (strip (str_or k "")) "".

Definition validate_api_key (t : LLMProviderType) (settings : AgentSettings) : io unit :=
  match t with
  | OFFLINE => io_ret tt
  | OPENAI =>
      if blank_key (openai_api_key settings)
      then io_raise (Exn "MissingAPIKeyError" "OpenAI API key is missing. Set OPENAI_API_KEY environment variable.")
      else io_ret tt
  | ANTHROPIC =>
      if blank_key (anthropic_api_key settings)
      then io_raise (Exn "MissingAPIKeyError" "Anthropic API key is missing. Set ANTHROPIC_API_KEY environment variable.")
      else io_ret tt
  | HUGGINGFACE =>
      if blank_key (hf_api_token settings)
      then io_raise (Exn "MissingAPIKeyError" "Hugging Face token is missing. Set HF_TOKEN environment variable.")
      else io_ret tt
  end.

Definition with_notes (a : AuditedComplianceRule) (notes : string) : AuditedComplianceRule :=
  Audited (with_free_text (au_rule a) notes (ambiguous_spans (au_rule a))) (au_audit a) (revision_round a).

Definition external_extract_and_audit (t : LLMProviderType) (kickoff : crew) (settings : AgentSettings)
    (chunk : ClauseChunk) (siblings : list sibling) (raise_on_failure : bool) : io AuditedComplianceRule :=
  io_catch
    (io_bind (validate_api_key t settings) (λ _, _run_crew_loop kickoff settings chunk siblings))
    (λ exc,
      if raise_on_failure then io_raise exc
      else
        io_bind (offline_extract_and_audit settings chunk) (λ candidate,
        if bool_decide (verdict (au_audit candidate) = APPROVED)
           && match deterministic_logic (au_rule candidate) with [] => false | _ => true end
        then io_ret (with_notes candidate
               ("Deterministic extraction following " +:+ provider_value t +:+ " failure (" +:+ exn_type exc +:+ ": "
                +:+ exn_str exc +:+ "). Rule verified directly against source text."))
        else _controlled_failure_rule chunk t exc)).

(** ** [get_provider] and [run_dual_validation] *)
Definition get_provider (settings : AgentSettings) : LLMProviderType :=
  let raw := lower (strip (str_or (llm_provider settings) "")) in
  if String.eqb raw "openai" then OPENAI
  else if String.eqb raw "anthropic" then ANTHROPIC
  else if String.eqb raw "huggingface" then HUGGINGFACE
  else if String.eqb raw "offline" then OFFLINE
  else if truthy (openai_api_key settings) then OPENAI
  else if truthy (anthropic_api_key settings) then ANTHROPIC
  else if truthy (hf_api_token settings) then HUGGINGFACE
  else OFFLINE.

Definition run_dual_validation (kickoff : crew) (settings : AgentSettings) (chunk : ClauseChunk) (siblings : list sibling)
  : io AuditedComplianceRule :=
  match get_provider settings with
  | OFFLINE => offline_extract_and_audit settings chunk
  | t => external_extract_and_audit t kickoff settings chunk siblings false
  end.
End providers.

#[global] Arguments Conforming {A} x.
#[global] Arguments OtherClass {A} class_.
