(* ===== verification/ProvidersFacts.v ===== *)
(** * No approval without the clause, whatever the model says

    The dual-agent extraction always ends with an audited rule; an approval is
    grounded in the clause, and a provider that fails yields a rejection or a
    rule that the patterns prove. *)
From S2P Require Import Prelude PyStr PyFloat PyRe PyText Json Datetime Facts Taxonomy DocModels.
From S2P Require Import Schemas Compiler CompilerFacts CompilerWitness DbModels Orchestrator Difflib OutputGuard OutputGuardFacts.
From S2P Require Import Providers.
From Stdlib Require Import SpecFloat.

Open Scope string_scope.

Lemma io_bind_Ok {A B} (m : io A) (k : A → io B) p y p'' :
  io_bind m k p = (Ok y, p'') → ∃ x p', m p = (Ok x, p') ∧ k x p' = (Ok y, p'').
Proof. unfold io_bind. destruct (m p) as [[x|e] p'] eqn:E; intros H; [by exists x, p'|done]. Qed.

(** ** The telemetry of the process *)
Definition telemetry_ok (d : bool) (p : process) : Prop :=
  d = false ∨ otel_sdk_disabled p = Some "true" ∨ (guardrails_imported p = false ∧ otel_sdk_disabled p = None).

Lemma build_guard_ok d p : telemetry_ok d p → ∃ p', build_guard d p = Ok p' ∧ telemetry_ok d p'.
Proof.
  intros [->|[H|[H1 H2]]]; unfold build_guard, _ensure_telemetry_disabled.
  - cbn. eexists. split; [done|]. by left.
  - destruct d; cbn; [|eexists; split; [done|by left]]. rewrite H bool_decide_eq_true_2 // andb_false_r. cbn.
    eexists. split; [done|]. by right; left.
  - destruct d; cbn; [|eexists; split; [done|by left]]. rewrite H1 H2. cbn. eexists. split; [done|]. by right; left.
Qed.

(** ** Safety of the parts *)
Section facts.
Context (nfkc : string → string) (parse : guard_parse) (validation_error : schema_error → string).
Context (kickoff : crew) (settings : AgentSettings) (chunk : ClauseChunk) (siblings : list sibling).

#[local] Abbreviation ok := (telemetry_ok (redteam_disable_output_guard_telemetry settings)).
#[local] Abbreviation guarded := (guarded nfkc parse settings chunk).
#[local] Abbreviation offline := (offline_extract_and_audit nfkc parse validation_error settings chunk).

(** An audited rule that may leave the component. *)
Definition sound (audited : AuditedComplianceRule) : Prop :=
  (verdict (au_audit audited) = APPROVED → grounded nfkc (ck_text chunk) (au_rule audited))
  ∧ (0 <= revision_round audited <= Z.of_nat MAX_REVISION_ROUNDS)%Z.

Lemma guarded_spec r a p :
  ok p → ∃ r' a' p', guarded r a p = (Ok (r', a'), p') ∧ ok p'
    ∧ (verdict a' = APPROVED → grounded nfkc (ck_text chunk) r')
    ∧ (verdict a' = REJECTED ∨ verdict a' = verdict a)
    ∧ deterministic_logic r' = deterministic_logic r.
Proof.
  intros Hp. unfold Providers.guarded.
  destruct (guard_and_validate_extraction nfkc parse r a (ck_text chunk) _ p) as [[[r' a'] p']|[]] eqn:E.
  - exists r', a', p'. split; [done|]. split_and!.
    + revert E. unfold guard_and_validate_extraction. intros ([g p1] & Hg & H)%res_bind_Ok.
      unfold check_extraction_output in Hg. apply res_bind_Ok in Hg as (p2 & Hb & [= _ <-]).
      destruct (build_guard_ok _ _ Hp) as (p3 & Hb' & Hok). rewrite Hb in Hb'. injection Hb' as <-.
      by destruct (gr_validation_passed g); injection H as _ _ <-.
    + destruct (guard_cases _ _ _ _ _ _ _ _ _ _ E) as [(-> & -> & Hg & _)|Hr]; [done|congruence].
    + destruct (guard_cases _ _ _ _ _ _ _ _ _ _ E) as [(-> & -> & _)|Hr]; auto.
    + unfold guard_and_validate_extraction in E. apply res_bind_Ok in E as ([g p1] & _ & H).
      by destruct (gr_validation_passed g); injection H as <- _ _.
  - exfalso. revert E. unfold guard_and_validate_extraction, check_extraction_output.
    destruct (build_guard_ok _ _ Hp) as (p' & -> & _). cbn [res_bind]. by destruct (gr_validation_passed _).
Qed.

Lemma build_rule_ok rid c cl dom reg es logic ds ob conf notes p :
  conf = float_of_Z 0 ∨ conf = float_of_Z 1 →
  ∃ r, build_rule validation_error rid chunk c cl dom reg es logic ds ob conf notes p = (Ok r, p)
    ∧ deterministic_logic r = logic.
Proof.
  intros Hc. unfold build_rule, validate_rule. cbn [extraction_confidence].
  replace (flt_leb (float_of_Z 0) conf && flt_leb conf (float_of_Z 1)) with true by by destruct Hc; subst.
  by eexists.
Qed.

(** A rule that is built and guarded. *)
Lemma finish_spec m r a p :
  m p = (Ok r, p) → ok p → verdict a = REJECTED ∨ verdict a = APPROVED ∧ deterministic_logic r ≠ [] →
  ∃ audited p',
    io_bind m (λ r, io_bind (guarded r a) (λ '(r, a), io_ret (Audited r a 0))) p = (Ok audited, p') ∧ ok p' ∧ sound audited
    ∧ (verdict (au_audit audited) = APPROVED ∧ deterministic_logic (au_rule audited) ≠ []
       ∨ verdict (au_audit audited) = REJECTED).
Proof.
  intros Hm Hp Ha. unfold io_bind. rewrite Hm.
  destruct (guarded_spec r a p Hp) as (r' & a' & p' & -> & Hp' & Hg & Hv & Hl).
  exists (Audited r' a' 0), p'. split_and!; [done|done|split; [done|cbn; lia]|]. cbn. rewrite Hl.
  destruct Hv as [->| ->]; [by right|]. destruct Ha as [->|[-> Hne]]; [by right|by left].
Qed.

(** The offline extractor always decides, and never for a revision. *)
Lemma offline_spec p :
  ok p → ∃ audited p', offline p = (Ok audited, p') ∧ ok p' ∧ sound audited
    ∧ (verdict (au_audit audited) = APPROVED ∧ deterministic_logic (au_rule audited) ≠ []
       ∨ verdict (au_audit audited) = REJECTED).
Proof.
  intros Hp. unfold Providers.offline_extract_and_audit. cbv zeta.
  destruct (offline_thresholds _ _) as [|t ts].
  - match goal with |- context [io_bind ?m _ p] =>
      assert (∃ r, m p = (Ok r, p) ∧ deterministic_logic r = []) as (r & Hr & _) by (apply build_rule_ok; by left) end.
    eapply finish_spec; [exact Hr|done|by left].
  - match goal with |- context [io_bind ?m _ p] =>
      assert (∃ r, m p = (Ok r, p) ∧ deterministic_logic r = t :: ts) as (r & Hr & Hd) by (apply build_rule_ok; by right) end.
    eapply finish_spec; [exact Hr|done|right; split; [done|by rewrite Hd]].
Qed.

Lemma crew_once_spec round prior p :
  ok p → ∃ x p', _run_crew_once nfkc parse kickoff settings chunk siblings round prior p = (x, p') ∧ ok p'
    ∧ ∀ r a, x = Ok (r, a) → verdict a = APPROVED → grounded nfkc (ck_text chunk) r.
Proof.
  intros Hp. unfold _run_crew_once. destruct (kickoff chunk siblings round prior) as [text|[r|c] [a|c']].
  - destruct (_ || _); by do 2 eexists.
  - destruct (guarded_spec (stamped chunk r) a p Hp) as (r' & a' & p' & -> & Hp' & Hg & _).
    do 2 eexists. split_and!; [done|done|]. by intros ? ? [= <- <-].
  - by do 2 eexists.
  - by do 2 eexists.
  - by do 2 eexists.
Qed.

(** Each round of the loop is guarded, and only the last may ask for more. *)
Lemma crew_rounds_spec left round prior p :
  ok p → (round + left = MAX_REVISION_ROUNDS)%nat →
  ∃ x p', crew_rounds nfkc parse kickoff settings chunk siblings left round prior p = (x, p') ∧ ok p'
    ∧ ∀ audited, x = Ok audited → sound audited
        ∧ (verdict (au_audit audited) = NEEDS_REVISION → revision_round audited = Z.of_nat MAX_REVISION_ROUNDS).
Proof.
  revert round prior p. induction left as [|left IH]; intros round prior p Hp Hr; cbn [crew_rounds]; unfold io_bind;
    destruct (crew_once_spec round prior p Hp) as ([[r a]|e] & p' & -> & Hp' & Hg);
    try (do 2 eexists; split; [done|by split]).
  - do 2 eexists. split; [by destruct (verdict a)|]. split; [done|]. intros audited [= <-].
    split; [split; [by apply (Hg r a)|cbn; lia]|]. cbn. intros _. lia.
  - destruct (verdict a) eqn:Ev; [|apply IH; [done|lia]|];
      (do 2 eexists; split; [done|]; split; [done|]; intros audited [= <-]; cbn;
       split; [split; [by apply (Hg r a)|cbn; lia]|by rewrite Ev]).
Qed.

Lemma controlled_failure_spec t e p :
  ∃ audited, _controlled_failure_rule validation_error chunk t e p = (Ok audited, p)
    ∧ verdict (au_audit audited) = REJECTED ∧ revision_round audited = 0%Z.
Proof.
  unfold _controlled_failure_rule. cbv zeta. match goal with |- context [io_bind ?m _ p] =>
    assert (∃ r, m p = (Ok r, p) ∧ deterministic_logic r = []) as (r & Hr & _) by (apply build_rule_ok; by left) end.
  unfold io_bind. rewrite Hr. by eexists.
Qed.

Lemma validate_key_pure t p : ∃ x, validate_api_key t settings p = (x, p).
Proof. unfold validate_api_key. destruct t; [by eexists|..]; destruct (blank_key _); by eexists. Qed.

(** The model's part of an external provider. *)
Definition attempt (t : LLMProviderType) : io AuditedComplianceRule :=
  io_bind (validate_api_key t settings) (λ _, _run_crew_loop nfkc parse kickoff settings chunk siblings).

Lemma attempt_spec t p :
  ok p → ∃ x p', attempt t p = (x, p') ∧ ok p' ∧ ∀ audited, x = Ok audited → sound audited.
Proof.
  intros Hp. unfold attempt, io_bind. destruct (validate_key_pure t p) as [[[]|e] ->]; [|by do 2 eexists].
  destruct (crew_rounds_spec MAX_REVISION_ROUNDS 0 None p Hp eq_refl) as (x & p' & Hx & Hp' & H). exists x, p'.
  split_and!; [done|done|]. intros audited ->. by apply H.
Qed.

Lemma external_spec t p :
  ok p → ∃ audited p',
    external_extract_and_audit nfkc parse validation_error t kickoff settings chunk siblings false p = (Ok audited, p')
    ∧ ok p' ∧ sound audited
    ∧ (∀ e p1, attempt t p = (Raise e, p1) →
         verdict (au_audit audited) = REJECTED
         ∨ verdict (au_audit audited) = APPROVED ∧ deterministic_logic (au_rule audited) ≠ []).
Proof.
  intros Hp. unfold external_extract_and_audit, io_catch. fold (attempt t).
  destruct (attempt_spec t p Hp) as ([audited|e] & p' & -> & Hp' & H); [exists audited, p'; split_and!; auto; done|].
  unfold io_bind. destruct (offline_spec p' Hp') as (c & p2 & -> & Hp2 & [Hg Hr] & Hv).
  destruct (bool_decide _ && _) eqn:E.
  - apply andb_prop in E as [E1%bool_decide_eq_true E2]. do 2 eexists. split_and!; [done|done| |].
    + split; [|done]. intros _. exact (Hg E1).
    + intros _ _ _. right. split; [done|]. cbn. by destruct (deterministic_logic (au_rule c)).
  - destruct (controlled_failure_spec t e p2) as (f & -> & Hf & Hr0). do 2 eexists. split_and!; [done|done| |by left].
    split; [by rewrite Hf|by rewrite Hr0].
Qed.

Lemma dual_spec p :
  ok p → ∃ audited p', run_dual_validation nfkc parse validation_error kickoff settings chunk siblings p = (Ok audited, p')
    ∧ ok p' ∧ sound audited.
Proof.
  intros Hp. unfold run_dual_validation. destruct (get_provider settings) eqn:Et.
  1: destruct (offline_spec p Hp) as (x & p' & H & Hp' & Hs & _).
  2-4: destruct (external_spec (get_provider settings) p Hp) as (x & p' & H & Hp' & Hs & _); rewrite Et in H.
  all: by exists x, p'.
Qed.
End facts.


(** A provider that fails never yields a rule that deploys on its word: when
    its key is missing or its crew raises, times out or returns something of
    another shape, the outcome is a rejection, or a rule with thresholds that
    the patterns found and the clause grounds. *)
Theorem failed_provider_is_safe nfkc parse verr t kickoff settings chunk siblings p e p1 :
  telemetry_ok (redteam_disable_output_guard_telemetry settings) p →
  attempt nfkc parse kickoff settings chunk siblings t p = (Raise e, p1) →
  ∃ audited p', external_extract_and_audit nfkc parse verr t kickoff settings chunk siblings false p = (Ok audited, p')
    ∧ (verdict (au_audit audited) = REJECTED
       ∨ verdict (au_audit audited) = APPROVED ∧ deterministic_logic (au_rule audited) ≠ []
         ∧ grounded nfkc (ck_text chunk) (au_rule audited)).
Proof.
  intros Hp He. destruct (external_spec nfkc parse verr kickoff settings chunk siblings t p Hp) as (x & p' & H & _ & [Hs _] & Hf).
  exists x, p'. split; [done|]. destruct (Hf _ _ He) as [|[H1 H2]]; [by left|right]. by split_and!; [| |apply Hs].
Qed.


(** ** Findings *)
Definition comma_threshold : NumericalThreshold :=
  Threshold "Net Worth" (Some "net_worth") GTE (float_of_Z 1000) None "crore" None "net worth of 1,000 crore".

(** A value written with a thousands separator is rejected although the clause
    states it: the number tokens of "1,000" are "1" and "000". *)
Example comma_value_rejected :
  numbers "net worth of 1,000 crore" = ["1"; "000"]
  ∧ finding_type <$> threshold_finding (λ s, s) "A broker shall maintain a net worth of 1,000 crore." 0 comma_threshold
    = Some HALLUCINATED_THRESHOLD.
Proof. vm_compute. done. Qed.

(** When the environment holds another value, the first call imports the library
    with its telemetry on and only the second call is refused. *)
Example telemetry_first_call_passes :
  build_guard true (Process false (Some "false")) = Ok (Process true (Some "false"))
  ∧ build_guard true (Process true (Some "false")) = Raise OutputGuardTelemetryError.
Proof. done. Qed.

(** ** Witnesses *)
Definition w_chunk : ClauseChunk :=
  Chunk "c1" "cafe" "Every stock broker shall collect a minimum upfront margin of 20% from its clients." (Some "4.1") []
    None None None [] false (Some "SEBI/HO/2024/1") None None None None None SEBI CIRCULAR [].
Definition w_settings (provider : string) : AgentSettings := ASettings (Some provider) (Some "key") None None true.
Definition w_process : process := Process false None.
(** A crew that raises, and one that approves a threshold the clause does not have. *)
Definition w_raising : crew := λ _ _ _ _, KickoffRaised "read timed out".
Definition w_verr : schema_error → string := λ _, "".

Lemma w_process_ok d : telemetry_ok d w_process.
Proof. by right; right. Qed.

Definition w_outcome : res exn AuditedComplianceRule * process :=
  Eval vm_compute in run_dual_validation (λ s, s) fixing w_verr w_raising (w_settings "offline") w_chunk [] w_process.
Definition w_audited : AuditedComplianceRule :=
  match w_outcome.1 with Ok a => a | Raise _ => Audited margin_rule (Audit "" REJECTED (float_of_Z 0) [] 0 0) 0 end.

Lemma w_run :
  run_dual_validation (λ s, s) fixing w_verr w_raising (w_settings "offline") w_chunk [] w_process
  = (Ok w_audited, Process true (Some "true")).
Proof. vm_compute. reflexivity. Qed.
Lemma w_guard :
  guard_and_validate_extraction (λ s, s) fixing (au_rule w_audited) (au_audit w_audited) (ck_text w_chunk) true w_process
  = Ok (au_rule w_audited, au_audit w_audited, Process true (Some "true")).
Proof. vm_compute. reflexivity. Qed.
Definition w_compiled : CompilationResult :=
  Eval vm_compute in match compile_audited_rule w_audited 1 some_time with Ok r => r | Raise _ => compile_of (approve margin_rule) end.
Lemma w_compiles : compile_audited_rule w_audited 1 some_time = Ok w_compiled.
Proof. vm_compute. reflexivity. Qed.

Lemma approved_is_grounded_witness :
  verdict (au_audit w_audited) = APPROVED ∧ grounded (λ s, s) (ck_text w_chunk) (au_rule w_audited).
Proof.
  split; [reflexivity|].
  exact (proj1 (proj2 (proj2 (proj1 (approved_is_grounded (λ s, s) _ _ _ _ _ _ _ _ w_guard) eq_refl)))).
Defined.


Lemma failed_provider_witness :
  ∃ audited p', external_extract_and_audit (λ s, s) fixing w_verr OPENAI w_raising (w_settings "openai") w_chunk [] false
                  w_process = (Ok audited, p')
    ∧ (verdict (au_audit audited) = REJECTED
       ∨ verdict (au_audit audited) = APPROVED ∧ deterministic_logic (au_rule audited) ≠ []
         ∧ grounded (λ s, s) (ck_text w_chunk) (au_rule audited)).
Proof.
  exact (failed_provider_is_safe (λ s, s) fixing w_verr OPENAI w_raising (w_settings "openai") w_chunk [] w_process
    (Exn "ProviderTimeoutError" "Crew execution timed out: read timed out") w_process (w_process_ok true) eq_refl).
Defined.

