(* ===== verification/AgentGraphFacts.v ===== *)
(** * The agent graph and its runs

    First the model of [src/app/agents/graph/], then its theorems.
    Every run ends: the fallback and revision budgets bound its length, below
    the limit of the graph engine for the budgets in use.  The audit that is
    returned is of the rule that is returned.  And what the graph does not do
    that the sequential crew does. *)
From S2P Require Import Prelude PyStr PyFloat PyRe PyText Json Datetime Facts Taxonomy DocModels Schemas Compiler.
From S2P Require Import CompilerFacts CompilerWitness DbModels Orchestrator Difflib OutputGuard OutputGuardFacts.
From S2P Require Import Providers ProvidersFacts.
From Stdlib Require Import SpecFloat.

(** * The graph of agents: [src/app/agents/graph/]

    [complexity_router.py] classifies a clause, [edges.py] routes, [nodes.py]
    runs the agents and updates the shared state, [graph.py] wires the nodes and
    runs them.  LangGraph executes one node per step, merges the keys the node
    returns into the state and gives up after a number of steps; the agents
    (CrewAI) are parameters.  The trace that [state_store.py] writes to Redis is
    never read back by a run and is not part of the model. *)

Open Scope string_scope.

(** ** [state.py] *)
Inductive ComplexityRoute := STANDARD | QUANTITATIVE | REFERENCE_RESOLUTION.

Record ComplexityFlags := Flags
  { has_math_formulas : bool; has_cross_references : bool
  ; math_signals : list string; cross_reference_signals : list string }.

Definition flags_route (f : ComplexityFlags) : ComplexityRoute :=
  if has_math_formulas f then QUANTITATIVE
  else if has_cross_references f then REFERENCE_RESOLUTION else STANDARD.

Record AgentGraphState := GState
  { gs_flags : option ComplexityFlags
  ; gs_route : option ComplexityRoute
  ; gs_extracted : option ExtractedComplianceRule
  ; gs_confidence : option spec_float
  ; gs_model : option string
  ; gs_fallback_count : Z
  ; gs_used_fallback : bool
  ; gs_audit : option ComplianceRuleAudit
  ; gs_prior_findings : option (list AuditFinding)
  ; gs_round : Z
  ; gs_input_tokens : Z
  ; gs_output_tokens : Z
  ; gs_history : list string }.

(** ** [complexity_router.py] *)
(** plus-minus, times, division, root, less or equal, greater or equal, sum,
    Sigma and integral, in UTF-8 *)
Definition math_symbols : list string :=
  [ String "194" (String "177" ""); String "195" (String "151" ""); String "195" (String "183" "");
    String "226" (String "136" (String "154" "")); String "226" (String "137" (String "164" ""));
    String "226" (String "137" (String "165" "")); String "226" (String "136" (String "145" ""));
    String "206" (String "163" ""); String "226" (String "136" (String "171" "")) ].
Definition _MATH_SYMBOL_RE : regex := foldr (λ s r, RAlt (lits s) r) (RChr (λ _, false)) math_symbols.
Definition math_phrases : string :=
  "\b(the formula|computed as|calculated as follows|shall be calculated using|weighted average of|"
  +:+ "standard deviation|variance of|value at risk|regression coefficient|square root of|"
  +:+ "summation of|shall be computed in accordance with the formula)\b".
Definition _MATH_PHRASE_RE : regex := re_compile true math_phrases.
Definition equation : string := "\b([A-Za-z][\w\s/]{0,40}?)\s*=\s*[\w\d(){}\[\]+\-*/.]+".
Definition _EQUATION_RE : regex := re_compile false equation.
Definition cross_reference_phrases : string :=
  "\b(read with|in terms of (clause|regulation|circular)|as specified in|pursuant to|"
  +:+ "subject to the (provisions|conditions) (of|in)|as defined in|in accordance with clause|"
  +:+ "annexure|schedule [ivx]+)\b".
Definition _CROSS_REFERENCE_PHRASE_RE : regex := re_compile true cross_reference_phrases.
Definition clause_number_token : string := "\b\d+\.\d+(?:\.[a-z\d]{1,3})?\b".
Definition CLAUSE_NUMBER_TOKEN_RE : regex := re_compile true clause_number_token.
Definition _MIN_OTHER_CLAUSE_REFERENCES : nat := 2.

Example router_patterns_supported :
  forallb re_supported [math_phrases; equation; cross_reference_phrases; clause_number_token] = true.
Proof. vm_compute. reflexivity. Qed.

Definition signal (label : string) (r : regex) (text : string) : list string :=
  match re_search r text with Some m => [label +:+ py_repr m] | None => [] end.

Definition detect_complexity (text : string) (own_clause_number : option string) : ComplexityFlags :=
  let maths :=
    (signal "math symbol: " _MATH_SYMBOL_RE text ++ signal "formula phrase: " _MATH_PHRASE_RE text
     ++ signal "equation pattern: " _EQUATION_RE text)%list in
  let others := remove_dups (List.filter (λ t, negb (String.eqb t (str_or own_clause_number "")))
                               (findall CLAUSE_NUMBER_TOKEN_RE text)) in
  let refs :=
    (signal "cross-reference phrase: " _CROSS_REFERENCE_PHRASE_RE text
     ++ (if Nat.leb _MIN_OTHER_CLAUSE_REFERENCES (length others)
         then [str_of_Z (Z.of_nat (length others)) +:+ " distinct other clause number(s) referenced: "
               +:+ repr_list (sorted_strs others)] else []))%list in
  Flags (match maths with [] => false | _ => true end) (match refs with [] => false | _ => true end) maths refs.

Example complexity_examples :
  map (λ t, flags_route (detect_complexity t (Some "3.2")))
    ["3.2 Brokers shall pay 5%."; "CRAR = (Tier1 + Tier2) / RWA"; "as defined in clause 4.1"; "3.2 see 4.1.a and 5.6";
     "value at risk, read with 4.1 and 5.2"]
  = [STANDARD; QUANTITATIVE; REFERENCE_RESOLUTION; REFERENCE_RESOLUTION; QUANTITATIVE].
Proof. vm_compute. reflexivity. Qed.

(** ** Nodes *)
Inductive node :=
| classify_complexity | standard_extraction | quantitative_parsing | reference_resolution
| fallback_extraction | audit_.

Definition node_name (n : node) : string :=
  match n with
  | classify_complexity => "classify_complexity" | standard_extraction => "standard_extraction"
  | quantitative_parsing => "quantitative_parsing" | reference_resolution => "reference_resolution"
  | fallback_extraction => "fallback_extraction" | audit_ => "audit"
  end.

Definition _ROUTE_TO_NODE (r : ComplexityRoute) : node :=
  match r with
  | STANDARD => standard_extraction | QUANTITATIVE => quantitative_parsing
  | REFERENCE_RESOLUTION => reference_resolution
  end.
Definition _ROUTE_TO_BUILDER_NAME (r : ComplexityRoute) : string :=
  match r with
  | STANDARD => "build_extraction_agent" | QUANTITATIVE => "build_quantitative_parsing_agent"
  | REFERENCE_RESOLUTION => "build_reference_resolution_agent"
  end.

(** One run of a crew with a single task: raises, or leaves the output of the
    task and the tokens it used. *)
Inductive crew_run (A : Type) := CrewRaised (e : exn) | CrewDone (out : task_output A) (tokens_in tokens_out : Z).
Arguments CrewRaised {A} e.
Arguments CrewDone {A} out tokens_in tokens_out.

Record GraphSettings := GSettings
  { agent_confidence_threshold : spec_float
  ; agent_max_fallback_attempts : Z
  ; agent_fallback_model : string }.

Inductive graph_error := NodeRaised (e : exn) | GraphRecursionError.

Definition GRAPH_MAX_REVISION_ROUNDS : Z := 2.

Section graph.
(** The agents see the clause and their task; a later call may answer
    differently, so they also see the nodes that ran before. *)
Context (extraction_agent : string → option string → ClauseChunk → option (list AuditFinding) → list string →
                            crew_run ExtractedComplianceRule).
Context (audit_agent : ClauseChunk → ExtractedComplianceRule → list sibling → list string → crew_run ComplianceRuleAudit).
Context (settings : GraphSettings) (chunk : ClauseChunk) (siblings : list sibling).

Definition visited (st : AgentGraphState) (n : node) : list string := (gs_history st ++ [node_name n])%list.

Definition classify_complexity_node (st : AgentGraphState) : AgentGraphState :=
  let flags := detect_complexity (ck_text chunk) (ck_clause_number chunk) in
  GState (Some flags) (Some (flags_route flags)) (gs_extracted st) (gs_confidence st) (gs_model st)
    (gs_fallback_count st) (gs_used_fallback st) (gs_audit st) (gs_prior_findings st) (gs_round st)
    (gs_input_tokens st) (gs_output_tokens st) (visited st classify_complexity).

Definition _run_extraction_node (st : AgentGraphState) (builder : string) (n : node) (model_override : option string)
  : res graph_error AgentGraphState :=
  match extraction_agent builder model_override chunk (gs_prior_findings st) (gs_history st) with
  | CrewRaised e => Raise (NodeRaised e)
  | CrewDone (OtherClass _) _ _ =>
      Raise (NodeRaised (Exn "ValueError"
        (node_name n +:+ ": crew did not return a schema-conformant ExtractedComplianceRule.")))
  | CrewDone (Conforming r) i o =>
      let r := stamped chunk r in
      Ok (GState (gs_flags st) (gs_route st) (Some r) (Some (extraction_confidence r))
            (Some (str_or model_override "primary")) (gs_fallback_count st) (gs_used_fallback st) (gs_audit st)
            (gs_prior_findings st) (gs_round st) (gs_input_tokens st + i) (gs_output_tokens st + o) (visited st n))
  end.

Definition fallback_extraction_node (st : AgentGraphState) : res graph_error AgentGraphState :=
  let builder := _ROUTE_TO_BUILDER_NAME (default STANDARD (gs_route st)) in
  res_bind (_run_extraction_node st builder fallback_extraction (Some (agent_fallback_model settings))) (λ s,
  Ok (GState (gs_flags s) (gs_route s) (gs_extracted s) (gs_confidence s) (gs_model s) (gs_fallback_count st + 1) true
        (gs_audit s) (gs_prior_findings s) (gs_round s) (gs_input_tokens s) (gs_output_tokens s) (gs_history s))).

Definition audit_node (st : AgentGraphState) : res graph_error AgentGraphState :=
  match gs_extracted st with
  | None => Raise (NodeRaised (Exn "KeyError" "'extracted_rule'"))
  | Some extracted =>
      match audit_agent chunk extracted siblings (gs_history st) with
      | CrewRaised e => Raise (NodeRaised e)
      | CrewDone (OtherClass _) _ _ =>
          Raise (NodeRaised (Exn "ValueError" "audit_node: crew did not return a schema-conformant ComplianceRuleAudit."))
      | CrewDone (Conforming a) i o =>
          let revise := bool_decide (verdict a = NEEDS_REVISION) in
          Ok (GState (gs_flags st) (gs_route st) (gs_extracted st) (gs_confidence st) (gs_model st)
                (gs_fallback_count st) (gs_used_fallback st) (Some a)
                (if revise then Some (findings a) else gs_prior_findings st)
                (if revise then gs_round st + 1 else gs_round st)%Z
                (gs_input_tokens st + i) (gs_output_tokens st + o) (visited st audit_))
      end
  end.

Definition run_node (n : node) (st : AgentGraphState) : res graph_error AgentGraphState :=
  match n with
  | classify_complexity => Ok (classify_complexity_node st)
  | standard_extraction => _run_extraction_node st "build_extraction_agent" standard_extraction None
  | quantitative_parsing => _run_extraction_node st "build_quantitative_parsing_agent" quantitative_parsing None
  | reference_resolution => _run_extraction_node st "build_reference_resolution_agent" reference_resolution None
  | fallback_extraction => fallback_extraction_node st
  | audit_ => audit_node st
  end.

(** ** [edges.py] *)
Definition route_by_complexity (st : AgentGraphState) : node := _ROUTE_TO_NODE (default STANDARD (gs_route st)).

Definition route_confidence_gate (st : AgentGraphState) : node :=
  match gs_confidence st with
  | Some confidence =>
      if flt_ltb confidence (agent_confidence_threshold settings)
         && (gs_fallback_count st <? agent_max_fallback_attempts settings)%Z
      then fallback_extraction else audit_
  | None => audit_
  end.

(** [None] is the end of the graph. *)
Definition route_after_audit (st : AgentGraphState) : option node :=
  match gs_audit st with
  | Some a =>
      if bool_decide (verdict a = NEEDS_REVISION) && (gs_round st <? GRAPH_MAX_REVISION_ROUNDS)%Z
      then Some (_ROUTE_TO_NODE (default STANDARD (gs_route st))) else None
  | None => None
  end.

(** ** [graph.py] *)
Definition next_node (n : node) (st : AgentGraphState) : option node :=
  match n with
  | classify_complexity => Some (route_by_complexity st)
  | audit_ => route_after_audit st
  | _ => Some (route_confidence_gate st)
  end.

(** [graph.ainvoke] with a limit on the number of steps *)
Fixpoint run_graph (steps : nat) (n : node) (st : AgentGraphState) : res graph_error AgentGraphState :=
  match steps with
  | O => Raise GraphRecursionError
  | S steps' =>
      res_bind (run_node n st) (λ st',
      match next_node n st' with Some n' => run_graph steps' n' st' | None => Ok st' end)
  end.

Definition initial_state : AgentGraphState := GState None None None None None 0 false None None 0 0 0 [].

Definition run_graph_pipeline (recursion_limit : nat) : res graph_error AuditedComplianceRule :=
  res_bind (run_graph recursion_limit classify_complexity initial_state) (λ st,
  match gs_extracted st, gs_audit st with
  | Some r, Some a => Ok (Audited r a (gs_round st))
  | _, _ => Raise (NodeRaised (Exn "KeyError" "'audit_result'"))
  end).
End graph.

Open Scope string_scope.
Open Scope Z_scope.

Section facts.
Context (ext : string → option string → ClauseChunk → option (list AuditFinding) → list string →
               crew_run ExtractedComplianceRule).
Context (aud : ClauseChunk → ExtractedComplianceRule → list sibling → list string → crew_run ComplianceRuleAudit).
Context (settings : GraphSettings) (chunk : ClauseChunk) (siblings : list sibling).

#[local] Abbreviation run_node := (run_node ext aud settings chunk siblings).
#[local] Abbreviation next_node := (next_node settings).
#[local] Abbreviation run_graph := (run_graph ext aud settings chunk siblings).

(** The fallbacks and audits a run may still do. *)
Definition fallbacks_left (st : AgentGraphState) : Z :=
  Z.max 0 (agent_max_fallback_attempts settings - gs_fallback_count st).
Definition audits_left (st : AgentGraphState) : Z := GRAPH_MAX_REVISION_ROUNDS - gs_round st.

(** A bound on the steps to come when a node is about to run. *)
Definition steps_left (n : node) (st : AgentGraphState) : Z :=
  fallbacks_left st + 2 * audits_left st
  + match n with classify_complexity => 1 | fallback_extraction | audit_ => -1 | _ => 0 end.

Definition ready (n : node) (st : AgentGraphState) : Prop :=
  0 <= gs_round st < GRAPH_MAX_REVISION_ROUNDS
  ∧ (n = fallback_extraction → gs_fallback_count st < agent_max_fallback_attempts settings).

Definition audits_in (st : AgentGraphState) : Z :=
  Z.of_nat (length (List.filter (String.eqb "audit") (gs_history st))).

(** What one extraction changes. *)
Lemma extraction_step st b n m st' :
  _run_extraction_node ext chunk st b n m = Ok st' → n ≠ audit_ →
  gs_round st' = gs_round st ∧ gs_fallback_count st' = gs_fallback_count st
  ∧ gs_history st' = (gs_history st ++ [node_name n])%list ∧ audits_in st' = audits_in st.
Proof.
  unfold _run_extraction_node. destruct (ext _ _ _ _ _) as [e|[r|c] i o]; intros [= <-] Hn; cbn.
  split_and!; try done. unfold audits_in. cbn. rewrite List.filter_app length_app. destruct n; cbn; lia || done.
Qed.

Lemma gate_ready st :
  0 <= gs_round st < GRAPH_MAX_REVISION_ROUNDS →
  ready (route_confidence_gate settings st) st
  ∧ steps_left (route_confidence_gate settings st) st = fallbacks_left st + 2 * audits_left st - 1.
Proof.
  intros Hr. unfold route_confidence_gate. destruct (gs_confidence st) as [c|]; [|by repeat split; try lia].
  destruct (flt_ltb c _ && _) eqn:E; [|by repeat split; try lia].
  apply andb_prop in E as [_ E]. repeat split; try lia.
Qed.

Lemma route_extracts (r : ComplexityRoute) st :
  0 <= gs_round st < GRAPH_MAX_REVISION_ROUNDS →
  ready (_ROUTE_TO_NODE r) st ∧ steps_left (_ROUTE_TO_NODE r) st = fallbacks_left st + 2 * audits_left st.
Proof. intros Hr. destruct r; repeat split; try done; unfold steps_left; cbn; lia. Qed.

(** An extraction with the primary model, up to the gate. *)
Lemma extraction_case n st b m st' :
  0 <= gs_round st < GRAPH_MAX_REVISION_ROUNDS → _run_extraction_node ext chunk st b n m = Ok st' → n ≠ audit_ →
  steps_left n st = fallbacks_left st + 2 * audits_left st →
  length (gs_history st') = S (length (gs_history st))
  ∧ ready (route_confidence_gate settings st') st'
  ∧ steps_left (route_confidence_gate settings st') st' < steps_left n st
  ∧ audits_in st' + audits_left st' <= audits_in st + audits_left st.
Proof.
  intros Hr H Hn Hs. apply extraction_step in H as (E1 & E2 & E3 & E4); [|done].
  destruct (gate_ready st') as [H1 H2]; [by rewrite E1|]. split_and!; try done.
  - rewrite E3 length_app /=. lia.
  - rewrite H2 Hs. unfold fallbacks_left, audits_left. rewrite E1 E2. lia.
  - unfold audits_left. rewrite E1 E4. lia.
Qed.

(** One step uses up one of the steps that were left. *)
Lemma node_step n st st' :
  ready n st → run_node n st = Ok st' →
  length (gs_history st') = S (length (gs_history st))
  ∧ match next_node n st' with
    | Some n' => ready n' st' ∧ steps_left n' st' < steps_left n st
                 ∧ audits_in st' + audits_left st' <= audits_in st + audits_left st
    | None => 1 <= steps_left n st ∧ audits_in st' <= audits_in st + audits_left st
    end.
Proof.
  intros [Hr Hf] H. destruct n; cbn [run_node] in H.
  - injection H as <-. split; [cbn; rewrite length_app /=; lia|]. cbn [next_node].
    unfold route_by_complexity. cbn [gs_route classify_complexity_node default].
    edestruct (route_extracts (flags_route (detect_complexity (ck_text chunk) (ck_clause_number chunk)))
                 (classify_complexity_node chunk st)) as [H1 H2]; [done|]. split; [done|]. rewrite H2.
    unfold steps_left, audits_in. cbn. unfold fallbacks_left, audits_left. cbn. rewrite List.filter_app length_app. cbn. lia.
  - eapply extraction_case; [done|exact H|done|unfold steps_left; lia].
  - eapply extraction_case; [done|exact H|done|unfold steps_left; lia].
  - eapply extraction_case; [done|exact H|done|unfold steps_left; lia].
  - unfold fallback_extraction_node in H. apply res_bind_Ok in H as (s & H & [= <-]).
    apply extraction_step in H as (E1 & E2 & E3 & E4); [|done]. split; [by cbn; rewrite E3 length_app /=; lia|].
    cbn [next_node]. edestruct (gate_ready (GState (gs_flags s) (gs_route s) (gs_extracted s) (gs_confidence s)
      (gs_model s) (gs_fallback_count st + 1) true (gs_audit s) (gs_prior_findings s) (gs_round s) (gs_input_tokens s)
      (gs_output_tokens s) (gs_history s))) as [H1 H2]; [cbn; by rewrite E1|]. split; [done|]. rewrite H2.
    specialize (Hf eq_refl). unfold audits_in in E4 |- *. unfold steps_left, fallbacks_left, audits_left. cbn [gs_history gs_round gs_fallback_count].
    rewrite E1 E4. lia.
  - unfold audit_node in H. destruct (gs_extracted st) as [r|]; [|done].
    destruct (aud chunk r siblings (gs_history st)) as [e|[a|c] i o]; try done. injection H as <-.
    split; [cbn; rewrite length_app /=; lia|]. cbn [next_node]. unfold route_after_audit. cbn [gs_audit gs_round].
    assert (∀ fl ro ex co mo fc uf au pf rn it ot,
      audits_in (GState fl ro ex co mo fc uf au pf rn it ot (visited st audit_)) = audits_in st + 1) as Ha.
    { intros. unfold audits_in, visited. cbn. rewrite List.filter_app length_app. cbn. lia. }
    case_bool_decide as Ev; cbn [andb].
    + destruct (gs_round st + 1 <? GRAPH_MAX_REVISION_ROUNDS) eqn:Er.
      * set (st' := GState _ _ _ _ _ _ _ _ _ _ _ _ _). destruct (route_extracts (default STANDARD (gs_route st')) st') as [H1 H2].
        { cbn. lia. }
        split; [done|]. rewrite H2. unfold st'. rewrite Ha. unfold steps_left, fallbacks_left, audits_left. cbn. lia.
      * rewrite Ha. unfold steps_left, fallbacks_left, audits_left. lia.
    + rewrite Ha. unfold steps_left, fallbacks_left, audits_left. lia.
Qed.

(** A result of the audit agent on the rule in the state. *)
Definition audited_pair (st : AgentGraphState) : Prop :=
  ∃ r a h i o, gs_extracted st = Some r ∧ gs_audit st = Some a ∧ aud chunk r siblings h = CrewDone (Conforming a) i o.

Lemma end_is_audited n st st' : run_node n st = Ok st' → next_node n st' = None → audited_pair st'.
Proof.
  intros H. destruct n; try done. intros _. cbn in H. unfold audit_node in H.
  destruct (gs_extracted st) as [r|] eqn:Er; [|done].
  destruct (aud chunk r siblings (gs_history st)) as [e|[a|c] i o] eqn:E; try done. injection H as <-.
  by exists r, a, (gs_history st), i, o.
Qed.

(** Runs within their budget: no recursion error, and bounds on what was done. *)
Lemma run_graph_spec steps n st :
  ready n st → steps_left n st <= Z.of_nat steps →
  match run_graph steps n st with
  | Ok st' => audited_pair st' ∧ Z.of_nat (length (gs_history st')) <= Z.of_nat (length (gs_history st)) + steps_left n st
              ∧ audits_in st' <= audits_in st + audits_left st
  | Raise e => e ≠ GraphRecursionError
  end.
Proof.
  revert n st. induction steps as [|steps IH]; intros n st Hr Hs.
  { exfalso. destruct Hr as [Hr Hf]. unfold steps_left, fallbacks_left, audits_left in Hs.
    destruct n; try specialize (Hf eq_refl); lia. }
  cbn [run_graph]. destruct (run_node n st) as [st'|e] eqn:E.
  - cbn [res_bind]. destruct (node_step n st st' Hr E) as [Hl H].
    destruct (next_node n st') as [n'|] eqn:En.
    + destruct H as (Hr' & Hlt & Ha). specialize (IH n' st' Hr' ltac:(lia)).
      destruct (run_graph steps n' st'); [|done]. destruct IH as (H1 & H2 & H3). split_and!; [done|lia|lia].
    + destruct H as [H1 H2]. split_and!; [by eapply end_is_audited|lia|lia].
  - cbn. intros ->. destruct n; cbn in E; try done; unfold fallback_extraction_node, _run_extraction_node, audit_node in E;
      repeat case_match; simplify_eq/=.
Qed.

(** Agents that always answer in shape. *)
Definition agents_answer : Prop :=
  (∀ b m c f h, ∃ r i o, ext b m c f h = CrewDone (Conforming r) i o)
  ∧ (∀ c r s h, ∃ a i o, aud c r s h = CrewDone (Conforming a) i o).

Lemma node_answers n st :
  agents_answer → (n = audit_ → gs_extracted st ≠ None) → ∃ st', run_node n st = Ok st' ∧ (n ≠ classify_complexity → gs_extracted st' ≠ None).
Proof.
  intros [He Ha] Hx. destruct n; cbn [run_node].
  - by eexists.
  - unfold _run_extraction_node. edestruct He as (r & i & o & ->). by eexists.
  - unfold _run_extraction_node. edestruct He as (r & i & o & ->). by eexists.
  - unfold _run_extraction_node. edestruct He as (r & i & o & ->). by eexists.
  - unfold fallback_extraction_node, _run_extraction_node. edestruct He as (r & i & o & ->). by eexists.
  - unfold audit_node. destruct (gs_extracted st) as [r|] eqn:E; [|by destruct Hx].
    edestruct Ha as (a & i & o & ->). eexists. split; [done|]. done.
Qed.

Lemma run_graph_answers steps n st :
  agents_answer → ready n st → steps_left n st <= Z.of_nat steps → (n = audit_ → gs_extracted st ≠ None) →
  ∃ st', run_graph steps n st = Ok st'.
Proof.
  intros Hag. revert n st. induction steps as [|steps IH]; intros n st Hr Hs Hx.
  { exfalso. destruct Hr as [Hr Hf]. unfold steps_left, fallbacks_left, audits_left in Hs.
    destruct n; try specialize (Hf eq_refl); lia. }
  cbn [run_graph]. destruct (node_answers n st Hag Hx) as (st' & E & Hx'). rewrite E. cbn [res_bind].
  destruct (node_step n st st' Hr E) as [_ H]. destruct (next_node n st') as [n'|] eqn:En; [|by eexists].
  destruct H as (Hr' & Hlt & _). apply IH; [done|lia|]. intros ->.
  destruct n; [|by apply Hx'..]. cbn in En. unfold route_by_complexity in En. by destruct (default STANDARD (gs_route st')).
Qed.
End facts.


(** ** Findings *)
Definition g_rule (v : spec_float) (evidence : string) : ExtractedComplianceRule :=
  Rule "cafe:4.1" "c1" "cafe" None None None (Some "4.1") [] SEBI None [] []
    [Threshold "Upfront Margin" (Some "upfront_margin_pct") GTE v None "%" None evidence] [] MANDATORY (float_of_Z 1) [] None
    (Some "d").
Definition g_settings : GraphSettings := GSettings (decimal 85 2) 2 "fallback".
Definition g_ext : string → option string → ClauseChunk → option (list AuditFinding) → list string →
                   crew_run ExtractedComplianceRule :=
  λ _ _ _ _ _, CrewDone (Conforming (g_rule (float_of_Z 0) "margin of 0%")) 10 5.
Definition g_aud (v : AuditVerdict) : ClauseChunk → ExtractedComplianceRule → list sibling → list string →
                                       crew_run ComplianceRuleAudit :=
  λ _ _ _ _, CrewDone (Conforming (Audit "cafe:4.1" v (float_of_Z 1) [] 1 0)) 10 5.
Definition g_crew (v : AuditVerdict) : crew :=
  λ _ _ _ _, KickoffDone (Conforming (g_rule (float_of_Z 0) "margin of 0%"))
                (Conforming (Audit "cafe:4.1" v (float_of_Z 1) [] 1 0)).

(** The graph has no output guard: a threshold that the clause does not contain
    comes out approved, which the sequential crew turns into a rejection. *)
Example graph_is_unguarded :
  (λ x, verdict (au_audit x)) <$> (match run_graph_pipeline g_ext (g_aud APPROVED) g_settings w_chunk [] 25 with
                                   | Ok x => Some x | Raise _ => None end) = Some APPROVED
  ∧ (λ x, verdict (au_audit x))
      <$> (match (_run_crew_loop (λ s, s) fixing (g_crew APPROVED) (w_settings "openai") w_chunk [] w_process).1 with
           | Ok x => Some x | Raise _ => None end) = Some REJECTED.
Proof. vm_compute. done. Qed.

(** The counter is raised before the bound is checked, so the graph revises once
    where the crew revises twice: a clause that the auditor approves at the third
    attempt is approved by the crew, and left unapproved by the graph. *)
Definition third_time (round : nat) : AuditVerdict := if Nat.eqb round 2 then APPROVED else NEEDS_REVISION.
Definition g_good : ExtractedComplianceRule := g_rule (float_of_Z 20) "minimum upfront margin of 20%".
Definition g_audit (round : nat) : ComplianceRuleAudit := Audit "cafe:4.1" (third_time round) (float_of_Z 1) [] 1 0.

Example graph_revises_once :
  (match run_graph (λ _ _ _ _ _, CrewDone (Conforming g_good) 10 5)
           (λ _ _ _ h, CrewDone (Conforming (g_audit (length (List.filter (String.eqb "audit") h)))) 10 5)
           g_settings w_chunk [] 25 classify_complexity initial_state with
   | Ok st => Some (gs_history st, verdict <$> gs_audit st) | Raise _ => None end)
  = Some (["classify_complexity"; "standard_extraction"; "audit"; "standard_extraction"; "audit"], Some NEEDS_REVISION)
  ∧ (λ x, (revision_round x, verdict (au_audit x)))
      <$> (match (_run_crew_loop (λ s, s) fixing (λ _ _ n _, KickoffDone (Conforming g_good) (Conforming (g_audit n)))
                    (w_settings "openai") w_chunk [] w_process).1 with
           | Ok x => Some x | Raise _ => None end) = Some (2, APPROVED).
Proof. vm_compute. done. Qed.

