(* ===== verification/Healing.v ===== *)
(** * Self-healing of policies: [src/app/healing/]

    [detectors.py] classifies a failure and runs a repair against test cases,
    [repair_agent.py] repairs by rule or by a model, [orchestrator.py] is the
    bounded loop, [tracking.py] the Redis record of the attempts and [tasks.py]
    the Celery task that sends what is not healed to the dead-letter queue.
    The model and the texts of some Python exceptions are parameters. *)
From S2P Require Import Prelude PyStr PyFloat PyRe PyText Sha256 Json Datetime ExecModels JsonLogic Facts.
From S2P Require Import Schemas Compiler Resilience.
From Stdlib Require Import SpecFloat.

Open Scope string_scope.
Open Scope Z_scope.

(** ** [models.py] *)
Inductive PolicyErrorType := SYNTAX_ERROR | COMPILE_ERROR | RUNTIME_CRASH | INVALID_JSON_LOGIC_TYPE.

#[export] Instance PolicyErrorType_eq_dec : EqDecision PolicyErrorType.
Proof. solve_decision. Defined.

Definition error_type_value (t : PolicyErrorType) : string :=
  match t with
  | SYNTAX_ERROR => "syntax_error" | COMPILE_ERROR => "compile_error" | RUNTIME_CRASH => "runtime_crash"
  | INVALID_JSON_LOGIC_TYPE => "invalid_json_logic_type"
  end.

Inductive RepairStrategy := DETERMINISTIC_FIX | LLM_REPAIR_AGENT | UNFIXABLE.
Definition strategy_value (s : RepairStrategy) : string :=
  match s with
  | DETERMINISTIC_FIX => "deterministic_fix" | LLM_REPAIR_AGENT => "llm_repair_agent" | UNFIXABLE => "unfixable"
  end.

Record TestCaseResult := TestCase { tc_description : string; tc_passed : bool; tc_detail : option string }.

Record PolicyFailure := Failure
  { pf_rule_id : string
  ; pf_circular_number : option string
  ; pf_clause_number : option string
  ; pf_source_clause_text : string
  ; pf_rego_code : option string
  ; pf_json_logic : option json
  ; pf_package : option string
  ; pf_data_schema : option (list (string * string))
  ; pf_violation_message_template : option string
  ; pf_thresholds_compiled : Z
  ; pf_error_type : PolicyErrorType
  ; pf_error_message : string
  ; pf_stack_trace : option string
  ; pf_attempt_number : Z }.

Record RepairAttempt := Attempt
  { ra_attempt_number : Z
  ; ra_strategy : RepairStrategy
  ; ra_repair_notes : string
  ; ra_repaired_rego : option string
  ; ra_repaired_json_logic : option json
  ; ra_test_results : list TestCaseResult
  ; ra_passed_tests : bool
  ; ra_resulting_failure : option PolicyFailure }.

Inductive HealingOutcome := HEALED | ESCALATED_MAX_RETRIES | ESCALATED_UNFIXABLE.
#[export] Instance HealingOutcome_eq_dec : EqDecision HealingOutcome.
Proof. solve_decision. Defined.
Definition healing_value (o : HealingOutcome) : string :=
  match o with
  | HEALED => "healed" | ESCALATED_MAX_RETRIES => "escalated_max_retries"
  | ESCALATED_UNFIXABLE => "escalated_unfixable"
  end.

(** The compilation of a healed policy: the module has version 1 and neither a
    policy digest nor a digest of canonical facts. *)
Record healed_rego := HealedRego
  { hg_rule_id : string; hg_package : string; hg_code : string; hg_thresholds : Z }.
Record healed_compilation := HealedCompilation
  { hc_rule_id : string; hc_compiled : bool; hc_rego : option healed_rego; hc_json_logic : option JsonLogicRule
  ; hc_flags : list HITLFlag }.

Record SelfHealingResult := HealingResult
  { sh_rule_id : string
  ; sh_outcome : HealingOutcome
  ; sh_attempts : list RepairAttempt
  ; sh_final_compilation : option healed_compilation
  ; sh_hitl_flag : option HITLFlag }.

(** ** [detectors.py] *)
Definition _OPA_ERROR_CODE_MAP : list (string * PolicyErrorType) :=
  [ ("rego_parse_error", SYNTAX_ERROR); ("rego_unsafe_var_error", COMPILE_ERROR); ("rego_type_error", COMPILE_ERROR);
    ("rego_recursion_error", COMPILE_ERROR); ("rego_compile_error", COMPILE_ERROR) ].

Definition classify_opa_error_message (message : string) : PolicyErrorType :=
  match List.find (λ '(code, _), contains code (lower message)) _OPA_ERROR_CODE_MAP with
  | Some (_, t) => t
  | None => COMPILE_ERROR
  end.

Definition closer_of (c : ascii) : option ascii :=
  if Ascii.eqb c "}" then Some "{"%char else if Ascii.eqb c ")" then Some "("%char
  else if Ascii.eqb c "]" then Some "["%char else None.
Definition is_opener (c : ascii) : bool := Ascii.eqb c "{" || Ascii.eqb c "(" || Ascii.eqb c "[".
Definition is_quote (c : ascii) : bool := Ascii.eqb c double_quote || Ascii.eqb c "`".
Definition one (c : ascii) : string := String c "".

Inductive bracket_scan :=
| ScanUnbalanced (c opener : ascii) (offset : Z) (stack : list ascii)
| ScanEnd (in_string : bool) (stack : list ascii).   (* the innermost opener first *)

(** The loop over the characters: [prev] is the one before, [offset] its index,
    [quote] the delimiter of the string it is in. *)
Fixpoint scan_brackets (s : string) (prev : option ascii) (offset : Z) (quote : option ascii) (stack : list ascii)
  : bracket_scan :=
  match s with
  | "" => ScanEnd (match quote with Some _ => true | None => false end) stack
  | String c s' =>
      let next := if is_lead c then offset + 1 else offset in
      match quote with
      | Some q =>
          let closes := Ascii.eqb c q && negb (bool_decide (prev = Some "\"%char)) in
          scan_brackets s' (Some c) next (if closes then None else quote) stack
      | None =>
          if is_quote c then scan_brackets s' (Some c) next (Some c) stack
          else if is_opener c then scan_brackets s' (Some c) next None (c :: stack)
          else
            match closer_of c with
            | Some o =>
                match stack with
                | x :: stack' =>
                    if Ascii.eqb x o then scan_brackets s' (Some c) next None stack' else ScanUnbalanced c o offset stack
                | [] => ScanUnbalanced c o offset stack
                end
            | None => scan_brackets s' (Some c) next None stack
            end
      end
  end.

(** What a scan reports; the stack that is left when it stopped early counts too. *)
Definition unclosed (stack : list ascii) : list string :=
  match stack with
  | [] => []
  | _ => ["Unclosed " +:+ repr_list (map one (rev stack)) +:+ " -- " +:+ str_of_Z (Z.of_nat (length stack))
          +:+ " bracket/brace/paren(s) never closed."]
  end.

Definition bracket_issues (rego_code : string) : list string :=
  match scan_brackets rego_code None 0 None [] with
  | ScanUnbalanced c o i stack =>
      ("Unbalanced '" +:+ one c +:+ "' at character offset " +:+ str_of_Z i +:+ " (no matching '" +:+ one o
       +:+ "' open on the stack).") :: unclosed stack
  | ScanEnd true _ => []
  | ScanEnd false stack => unclosed stack
  end.

Definition NO_ALLOW_ISSUE : string :=
  "No 'allow' rule found (neither a default nor a conditional one) -- OPA would evaluate this policy as always-undefined.".
Definition NO_DEFAULT_ISSUE : string :=
  "Missing 'default allow := false'. Without a default, `allow` is UNDEFINED (not false) whenever no "
  +:+ "conditional `allow` rule matches -- a materially different, less safe semantics than the rest of "
  +:+ "this codebase's compiled policies (see app.compiler.rego_compiler's module docstring: "
  +:+ "'safe-by-default: missing data denies, never silently permits').".

Definition check_rego_structure (rego_code : string) : list string :=
  (bracket_issues rego_code
   ++ (if contains "package " rego_code then [] else ["Missing 'package <name>' declaration."])
   ++ (if negb (contains "default allow" rego_code) && negb (contains "allow :=" rego_code)
          && negb (contains "allow if" rego_code)
       then [NO_ALLOW_ISSUE]
       else if negb (contains "default allow" rego_code) then [NO_DEFAULT_ISSUE] else []))%list.

(** [build_failure_from_opa_error]; [text] and [trace] are those of the exception. *)
Definition build_failure_from_opa_error (rule_id : string) (circular clause : option string) (source rego text trace : string)
    (attempt_number : Z) : PolicyFailure :=
  Failure rule_id circular clause source (Some rego) None None None None 0 (classify_opa_error_message text) text
    (Some trace) attempt_number.

(** [publish]: what OPA answers to a module, an error or nothing. *)
Definition attempt_publish_and_intercept (publish : CompiledRego → option (string * string)) (c : CompiledRego)
    (circular clause : option string) (source : string) (attempt_number : Z) : option PolicyFailure :=
  match publish c with
  | Some (text, trace) =>
      Some (build_failure_from_opa_error (rg_rule_id c) circular clause source (rego_code c) text trace attempt_number)
  | None => None
  end.

(** A fixture: its description, its input document and what is expected. *)
Record fixture := Fixture { fx_description : string; fx_input : json; fx_expect_allow : json }.

(** [repr] of a JSON value *)
Fixpoint repr_json (j : json) : string :=
  match j with
  | JNull => "None"
  | JBool b => if b then "True" else "False"
  | JInt z => str_of_Z z
  | JFloat f => float_repr f
  | JStr s => py_repr s
  | JList l => "[" +:+ join ", " (map repr_json l) +:+ "]"
  | JObj l => "{" +:+ join ", " (map (λ '(k, v), py_repr k +:+ ": " +:+ repr_json v) l) +:+ "}"
  end.
Definition repr_bool (b : bool) : string := if b then "True" else "False".

Section healing.
(** [str(exc)] for the exceptions of the evaluator other than a missing fact *)
Context (eval_text : eval_error → string).

Definition run_fixture (json_logic : json) (f : fixture) : TestCaseResult :=
  match evaluate_jsonlogic json_logic (fx_input f) with
  | Ok v =>
      let satisfied := py_truthy v in
      let expected := py_truthy (fx_expect_allow f) in
      if Bool.eqb satisfied expected then TestCase (fx_description f) true None
      else TestCase (fx_description f) false
             (Some ("Expected allow=" +:+ repr_bool expected +:+ ", evaluator returned allow=" +:+ repr_bool satisfied
                    +:+ " for input=" +:+ repr_json (fx_input f) +:+ "."))
  | Raise (MissingFactError path) =>
      TestCase (fx_description f) false (Some ("Runtime evaluation crash (MissingFactError): " +:+ py_repr path))
  | Raise UnsupportedJsonLogicNodeError =>
      TestCase (fx_description f) false
        (Some ("Runtime evaluation crash (UnsupportedJsonLogicNodeError): " +:+ eval_text UnsupportedJsonLogicNodeError))
  | Raise TypeError =>
      TestCase (fx_description f) false (Some ("Unexpected evaluation error (TypeError): " +:+ eval_text TypeError))
  end.

Definition compile_error_text (e : compile_error) : string :=
  match e with UndefinedFactError m | ValueError m | MalformedASTError m => m | AssertionError => "" end.

Definition run_isolated_test_cases (json_logic : json) (fixtures : list fixture) : list TestCaseResult :=
  match validate_json_logic_ast json_logic "$" with
  | Raise e =>
      map (λ f, TestCase (fx_description f) false
                  (Some ("AST failed structural validation: " +:+ compile_error_text e))) fixtures
  | Ok _ => map (run_fixture json_logic) fixtures
  end.

(** ** [repair_agent.py] *)
Record RepairSuggestion := Suggestion
  { rs_can_repair : bool; rs_repaired_rego : option string; rs_repaired_json_logic : option json; rs_repair_notes : string }.

Definition is_package_line (line : string) : bool := startswith "package " (strip line).
Definition is_skippable (line : string) : bool := String.eqb (strip line) "" || startswith "import " (strip line).

(** The lines after the package line, with the default inserted after the
    blank and import lines that follow it. *)
Fixpoint insert_default (lines : list string) : list string :=
  match lines with
  | l :: lines' => if is_skippable l then l :: insert_default lines' else (String newline "default allow := false") :: lines
  | [] => [String newline "default allow := false"]
  end.
Fixpoint inject_lines (lines : list string) : option (list string) :=
  match lines with
  | [] => None
  | l :: lines' => if is_package_line l then Some (l :: insert_default lines') else (λ r, l :: r) <$> inject_lines lines'
  end.
Definition _inject_default_allow (rego_code : string) : string :=
  match inject_lines (splitlines rego_code) with
  | Some lines => join (String newline "") lines
  | None => rego_code
  end.

Definition _NUMERIC_STRING_RE : regex := re_compile false "^-?\d+(\.\d+)?$".

Definition signed_digits (s : string) : Z :=
  if startswith "-" s then - digits_value 0 (sdrop 1 s) else digits_value 0 s.

Fixpoint _coerce_numeric_json_logic_types (node : json) : json :=
  match node with
  | JObj l => JObj (map (λ '(k, v), (k, _coerce_numeric_json_logic_types v)) l)
  | JList l => JList (map _coerce_numeric_json_logic_types l)
  | JStr s =>
      if re_match _NUMERIC_STRING_RE s
      then (if contains "." s then JFloat (float_of_numeral (strip s)) else JInt (signed_digits (strip s)))
      else node
  | _ => node
  end.

Definition INJECTED_NOTE : string :=
  "Injected missing 'default allow := false' immediately after the package declaration.".
Definition COERCED_NOTE : string :=
  "Coerced numeric-looking string operand(s) in the JSON-Logic AST to real JSON numbers.".

Definition apply_deterministic_fixes (f : PolicyFailure) : RepairSuggestion :=
  let inject :=
    match pf_rego_code f with
    | Some code =>
        bool_decide (pf_error_type f = SYNTAX_ERROR) && negb (String.eqb code "")
        && negb (contains "default allow" code) && contains "package " code
    | None => false
    end in
  let rego := if inject then _inject_default_allow <$> pf_rego_code f else pf_rego_code f in
  let coerced := _coerce_numeric_json_logic_types <$> pf_json_logic f in
  let coerce :=
    bool_decide (pf_error_type f = INVALID_JSON_LOGIC_TYPE)
    && match pf_json_logic f, coerced with Some j, Some j' => negb (py_eqb j' j) | _, _ => false end in
  let logic := if coerce then coerced else pf_json_logic f in
  if inject || coerce then
    Suggestion true rego logic
      (join " " ((if inject then [INJECTED_NOTE] else []) ++ (if coerce then [COERCED_NOTE] else []))%list)
  else
    Suggestion false None None
      ("No deterministic fix applies to error_type=" +:+ py_repr (error_type_value (pf_error_type f)) +:+ " (message: "
       +:+ py_repr (utake 200 (pf_error_message f)) +:+ "). Escalating to the LLM Policy Repair Agent.").

(** The crew of the repair agent: an exception, an output of another class, or
    a suggestion. *)
Context {exn : Type} (repair_crew : PolicyFailure → list RepairAttempt → res exn (option RepairSuggestion)).
Context (hf_api_token : option string) (max_retries : nat).

Definition run_llm_repair (f : PolicyFailure) (prior : list RepairAttempt) : res exn RepairSuggestion :=
  res_bind (repair_crew f prior) (λ out,
  Ok match out with
     | Some s => s
     | None => Suggestion false None None
                 "Repair agent did not return schema-conformant output; refusing to trust an unparsed response."
     end).

Definition repair_policy (f : PolicyFailure) (prior : list RepairAttempt) : res exn (RepairSuggestion * RepairStrategy) :=
  let deterministic := apply_deterministic_fixes f in
  if rs_can_repair deterministic then Ok (deterministic, DETERMINISTIC_FIX)
  else if negb (truthy hf_api_token) then
    Ok (Suggestion false None None
          (rs_repair_notes deterministic
           +:+ " No HUGGINGFACEHUB_API_TOKEN configured, so the LLM Policy Repair Agent could not be tried either."), UNFIXABLE)
  else res_bind (run_llm_repair f prior) (λ s, Ok (s, if rs_can_repair s then LLM_REPAIR_AGENT else UNFIXABLE)).

(** ** [tracking.py] *)
Record tracker := Tracker { tk_count : gmap string Z; tk_attempts : gmap string (list RepairAttempt) }.
Definition max_history : nat := 20.

Definition get_attempt_count (t : tracker) (rule_id : string) : Z := default 0 (tk_count t !! rule_id).
Definition record_attempt (t : tracker) (rule_id : string) (a : RepairAttempt) : tracker * Z :=
  let n := get_attempt_count t rule_id + 1 in
  (Tracker (<[rule_id := n]> (tk_count t))
     (<[rule_id := firstn max_history (a :: default [] (tk_attempts t !! rule_id))]> (tk_attempts t)), n).
Definition get_history (t : tracker) (rule_id : string) : list RepairAttempt := default [] (tk_attempts t !! rule_id).
Definition reset (t : tracker) (rule_id : string) : tracker :=
  Tracker (delete rule_id (tk_count t)) (delete rule_id (tk_attempts t)).

(** ** [orchestrator.py] *)
Definition nonempty_json (j : option json) : bool := match j with Some j => py_truthy j | None => false end.

Definition _validate_repair (rego : option string) (logic : option json) (fixtures : list fixture)
  : list TestCaseResult * list string :=
  (match logic, fixtures with
   | Some j, _ :: _ => if py_truthy j then run_isolated_test_cases j fixtures else []
   | _, _ => []
   end,
   match rego with Some code => if String.eqb code "" then [] else check_rego_structure code | None => [] end).

Definition passes (test_results : list TestCaseResult) (issues : list string) (fixtures : list fixture) : bool :=
  match issues with [] => true | _ => false end
  && (match fixtures with [] => true | _ => false end || forallb tc_passed test_results).

(** [a or b] *)
Definition or_rego (a b : option string) : option string := if truthy a then a else b.
Definition or_json (a b : option json) : option json := if nonempty_json a then a else b.

Definition next_failure (current : PolicyFailure) (s : RepairSuggestion) (tests : list TestCaseResult)
    (issues : list string) (attempt_number : Z) : PolicyFailure :=
  let from_issues := join "; " issues in
  let from_tests := join "; " (map (λ t, default "" (tc_detail t)) (List.filter (λ t, negb (tc_passed t)) tests)) in
  Failure (pf_rule_id current) (pf_circular_number current) (pf_clause_number current) (pf_source_clause_text current)
    (or_rego (rs_repaired_rego s) (pf_rego_code current)) (or_json (rs_repaired_json_logic s) (pf_json_logic current))
    (pf_package current) (pf_data_schema current) (pf_violation_message_template current) (pf_thresholds_compiled current)
    (match issues with [] => pf_error_type current | _ => SYNTAX_ERROR end)
    (str_or (Some (str_or (Some from_issues) from_tests)) "Repair did not pass isolated test cases.")
    None attempt_number.

Definition _build_healed_compilation (original : PolicyFailure) (healed : RepairAttempt) : healed_compilation * HITLFlag :=
  let rego :=
    if truthy (ra_repaired_rego healed) && truthy (pf_package original) then
      Some (HealedRego (pf_rule_id original) (str_or (pf_package original) "") (str_or (ra_repaired_rego healed) "")
              (pf_thresholds_compiled original))
    else None in
  let json_logic :=
    match ra_repaired_json_logic healed, pf_data_schema original with
    | Some j, Some schema =>
        if py_truthy j
        then Some (JLRule (pf_rule_id original) j schema (str_or (pf_violation_message_template original) "")
                     (pf_thresholds_compiled original))
        else None
    | _, _ => None
    end in
  let flag :=
    Flag (pf_rule_id original) SELF_HEALED_REQUIRES_REVIEW ADVISORY
      ("Automatically repaired by the self-healing policy loop after a " +:+ error_type_value (pf_error_type original)
       +:+ " failure (attempt " +:+ str_of_Z (ra_attempt_number healed) +:+ ", strategy="
       +:+ strategy_value (ra_strategy healed) +:+ "). Repair notes: " +:+ ra_repair_notes healed
       +:+ " A human must confirm this repair before it is trusted.") None None in
  (HealedCompilation (pf_rule_id original) true rego json_logic [flag], flag).

(** The rounds from [round] on: the attempts, the outcome and the tracker. *)
Fixpoint heal_rounds (rule_id : string) (fixtures : list fixture) (left : nat) (round : Z) (current : PolicyFailure)
    (attempts : list RepairAttempt) (t : tracker) : res exn (list RepairAttempt * HealingOutcome * tracker) :=
  match left with
  | O => Ok (attempts, ESCALATED_MAX_RETRIES, t)
  | S left' =>
      let n := round + 1 in
      res_bind (repair_policy current attempts) (λ '(s, strategy),
      if negb (rs_can_repair s) then
        let a := Attempt n UNFIXABLE (rs_repair_notes s) None None [] false None in
        Ok ((attempts ++ [a])%list, ESCALATED_UNFIXABLE, (record_attempt t rule_id a).1)
      else
        let '(tests, issues) := _validate_repair (rs_repaired_rego s) (rs_repaired_json_logic s) fixtures in
        let passed := passes tests issues fixtures in
        let attempt f := Attempt n strategy (rs_repair_notes s) (rs_repaired_rego s) (rs_repaired_json_logic s) tests passed f in
        if passed then Ok ((attempts ++ [attempt None])%list, HEALED, (record_attempt t rule_id (attempt None)).1)
        else
          let f' := next_failure current s tests issues n in
          heal_rounds rule_id fixtures left' n f' (attempts ++ [attempt (Some f')])%list
            (record_attempt t rule_id (attempt (Some f'))).1)
  end.

Definition heal (f : PolicyFailure) (fixtures : list fixture) (t : tracker) : res exn (SelfHealingResult * tracker) :=
  res_bind (heal_rounds (pf_rule_id f) fixtures max_retries 0 f [] t) (λ '(attempts, outcome, t'),
  match outcome, last attempts with
  | HEALED, Some a =>
      let '(compilation, flag) := _build_healed_compilation f a in
      Ok (HealingResult (pf_rule_id f) HEALED attempts (Some compilation) (Some flag), t')
  | _, _ => Ok (HealingResult (pf_rule_id f) outcome attempts None None, reset t' (pf_rule_id f))
  end).

(** ** [tasks.py] *)
(** [self_heal_policy_task] on the arguments [failure_dict] and [test_fixtures];
    [enabled] is the setting, [traceback] that of the error made for the queue. *)
Definition self_heal_policy_task (enabled : bool) (f : PolicyFailure) (fixtures : list fixture) (payload : json)
    (t : tracker) (q : DeadLetterQueue) (task_id : option string) (traceback new_id : string) (now : datetime)
  : res exn (SelfHealingResult * tracker * DeadLetterQueue) :=
  res_bind (if enabled then heal f fixtures t
            else Ok (HealingResult (pf_rule_id f) ESCALATED_MAX_RETRIES [] None None, t)) (λ '(r, t'),
  if bool_decide (sh_outcome r = HEALED) then Ok (r, t', q)
  else
    let n := Z.of_nat (length (sh_attempts r)) in
    let exc := {| exc_class := "RuntimeError";
                  exc_str := "Self-healing loop concluded with outcome=" +:+ healing_value (sh_outcome r) +:+ " after "
                             +:+ str_of_Z n +:+ " attempt(s).";
                  exc_traceback := traceback |} in
    Ok (r, t', (send q POLICY_SELF_HEAL_EXHAUSTED "app.healing.tasks.self_heal_policy_task" payload exc task_id
                  (if n =? 0 then 1 else n) new_id now).1)).
End healing.
