(* ===== verification/HealingFacts.v ===== *)
(** * The self-healing loop is bounded and tests what it trusts

    What an outcome of the loop says about its attempts, that the mechanical
    repairs do what their notes say, and what reaches the dead-letter queue. *)
From S2P Require Import Prelude PyStr PyFloat PyRe PyText Sha256 Json Datetime ExecModels JsonLogic Facts.
From S2P Require Import Schemas Compiler Resilience ResilienceFacts Healing.
From Stdlib Require Import SpecFloat.

Open Scope string_scope.
Open Scope Z_scope.

(** ** Test cases *)
Lemma fixtures_pass et j fixtures :
  forallb tc_passed (run_isolated_test_cases et j fixtures) = true →
  ∀ f, f ∈ fixtures → ∃ v, evaluate_jsonlogic j (fx_input f) = Ok v ∧ py_truthy v = py_truthy (fx_expect_allow f).
Proof.
  unfold run_isolated_test_cases. intros H f Hf. rewrite forallb_forall in H.
  assert (∀ g, g ∈ fixtures → tc_passed (match validate_json_logic_ast j "$" with
            | Raise e => TestCase (fx_description g) false (Some ("AST failed structural validation: " +:+ compile_error_text e))
            | Ok _ => run_fixture et j g end) = true) as Hall.
  { intros g Hg. apply H. destruct (validate_json_logic_ast j "$"); apply in_map_iff; exists g; by rewrite -list_elem_of_In. }
  specialize (Hall f Hf). destruct (validate_json_logic_ast j "$"); [|done]. unfold run_fixture in Hall.
  destruct (evaluate_jsonlogic j (fx_input f)) as [v|[]]; try done. exists v. split; [done|].
  destruct (Bool.eqb _ _) eqn:E; [|done]. by apply eqb_prop in E.
Qed.

(** ** The loop *)
Section loop.
Context (et : eval_error → string) {exn : Type} (crew : PolicyFailure → list RepairAttempt → res exn (option RepairSuggestion)).
Context (token : option string) (max_retries : nat).

Definition numbered (attempts : list RepairAttempt) : Prop :=
  ∀ i a, attempts !! i = Some a → ra_attempt_number a = Z.of_nat i + 1.

Lemma numbered_snoc attempts a :
  numbered attempts → ra_attempt_number a = Z.of_nat (length attempts) + 1 → numbered (attempts ++ [a])%list.
Proof.
  intros H Ha i b [Hb|[Hl Hb]]%lookup_app_Some; [by apply H|].
  apply list_lookup_singleton_Some in Hb as [Hi <-]. rewrite Ha. lia.
Qed.

(** A repair that may be trusted: its module has no structural issue and its
    logic decides every fixture as expected. *)
Definition trusted (fixtures : list fixture) (a : RepairAttempt) : Prop :=
  ra_passed_tests a = true
  ∧ (∀ code, ra_repaired_rego a = Some code → code ≠ "" → check_rego_structure code = [])
  ∧ (∀ j, ra_repaired_json_logic a = Some j → py_truthy j = true → ∀ f, f ∈ fixtures →
       ∃ v, evaluate_jsonlogic j (fx_input f) = Ok v ∧ py_truthy v = py_truthy (fx_expect_allow f)).

Lemma passes_trusted rego logic fixtures tests issues n strategy notes :
  _validate_repair et rego logic fixtures = (tests, issues) → passes tests issues fixtures = true →
  trusted fixtures (Attempt n strategy notes rego logic tests true None).
Proof.
  intros Hv Hp. unfold passes in Hp. apply andb_prop in Hp as [Hi Ht]. unfold _validate_repair in Hv.
  injection Hv as <- Hiss. split; [done|]. split; cbn.
  - intros code -> Hne. apply String.eqb_neq in Hne. rewrite Hne in Hiss. rewrite Hiss. by destruct issues.
  - intros j -> Hj f Hf. destruct fixtures as [|g gs]; [by apply elem_of_nil in Hf|]. rewrite Hj in Ht.
    by eapply fixtures_pass.
Qed.

Lemma heal_rounds_spec rule_id fixtures left current attempts t attempts' o t' :
  heal_rounds et crew token rule_id fixtures left (Z.of_nat (length attempts)) current attempts t = Ok (attempts', o, t') →
  numbered attempts →
  numbered attempts' ∧ (length attempts' <= length attempts + left)%nat
  ∧ (o = HEALED → ∃ pre a, attempts' = (pre ++ [a])%list ∧ trusted fixtures a)
  ∧ (o = ESCALATED_MAX_RETRIES → length attempts' = (length attempts + left)%nat).
Proof.
  revert current attempts t. induction left as [|left IH]; intros current attempts t H Hn; cbn [heal_rounds] in H.
  { injection H as <- <- <-. split_and!; [done|lia|done|lia]. }
  apply res_bind_Ok in H as ([s strategy] & _ & H). destruct (negb (rs_can_repair s)).
  { injection H as <- <- <-. rewrite length_app /=. split_and!; [by apply numbered_snoc|lia|done|done]. }
  destruct (_validate_repair et (rs_repaired_rego s) (rs_repaired_json_logic s) fixtures) as [tests issues] eqn:Ev.
  destruct (passes tests issues fixtures) eqn:Ep.
  { injection H as <- <- <-. rewrite length_app /=. split_and!; [by apply numbered_snoc|lia| |done].
    intros _. do 2 eexists. split; [done|]. by eapply passes_trusted. }
  set (a := Attempt _ _ _ _ _ _ _ _) in H.
  replace (Z.of_nat (length attempts) + 1) with (Z.of_nat (length (attempts ++ [a]))) in H
    by (rewrite length_app /=; lia).
  apply IH in H; [|by apply numbered_snoc]. rewrite ->length_app in H. cbn in H.
  destruct H as (H1 & H2 & H3 & H4). split_and!; [done|lia|done|]. intros Ho. specialize (H4 Ho). lia.
Qed.

(** A run without exceptions of the model returns. *)
Lemma heal_rounds_total rule_id fixtures left round current attempts t :
  (∀ f l, ∃ s, crew f l = Ok s) → ∃ x, heal_rounds et crew token rule_id fixtures left round current attempts t = Ok x.
Proof.
  intros Hc. revert round current attempts t. induction left as [|left IH]; intros round current attempts t; cbn [heal_rounds];
    [by eexists|].
  assert (∃ y, repair_policy crew token current attempts = Ok y) as [[s strategy] ->].
  { unfold repair_policy. destruct (rs_can_repair _); [by eexists|]. destruct (negb _); [by eexists|].
    unfold run_llm_repair. destruct (Hc current attempts) as [x ->]. by eexists. }
  cbn [res_bind]. destruct (negb _); [by eexists|]. destruct (_validate_repair _ _ _ _) as [tests issues].
  destruct (passes _ _ _); [by eexists|]. apply IH.
Qed.
End loop.


(** ** The mechanical repairs *)

(** No string of a tree looks like a number. *)
Fixpoint typed (j : json) : Prop :=
  match j with
  | JStr s => re_match _NUMERIC_STRING_RE s = false
  | JList l => fold_right (λ x P, typed x ∧ P) True l
  | JObj l => fold_right (λ kv P, typed kv.2 ∧ P) True l
  | _ => True
  end.

Lemma coerce_typed : ∀ j, typed (_coerce_numeric_json_logic_types j).
Proof.
  fix IH 1. intros [| | | |s|l|l]; try exact I.
  - cbn. destruct (re_match _ s) eqn:E; [by destruct (contains "." s)|exact E].
  - cbn. induction l as [|x l IHl]; cbn; [exact I|split; [apply IH|exact IHl]].
  - cbn. induction l as [|[k x] l IHl]; cbn; [exact I|split; [apply IH|exact IHl]].
Qed.

Lemma typed_coerce : ∀ j, typed j → _coerce_numeric_json_logic_types j = j.
Proof.
  fix IH 1. intros [| | | |s|l|l] H; try reflexivity.
  - cbn in *. by rewrite H.
  - cbn in *. f_equal. induction l as [|x l IHl]; cbn in *; [done|]. destruct H as [H1 H2]. by rewrite (IH x H1) (IHl H2).
  - cbn in *. f_equal. induction l as [|[k x] l IHl]; cbn in *; [done|]. destruct H as [H1 H2]. by rewrite (IH x H1) (IHl H2).
Qed.

Lemma contains_app_r w a b : contains w b = true → contains w (a +:+ b) = true.
Proof. intros H. induction a as [|c a IH]; [done|]. cbn. by rewrite IH orb_true_r. Qed.

Lemma prefix_app_l w a b : String.prefix w a = true → String.prefix w (a +:+ b) = true.
Proof.
  revert a. induction w as [|c w IH]; intros [|d a] H; try done; cbn in *; [by destruct b|].
  destruct (ascii_dec c d); [by apply IH|done].
Qed.

Lemma contains_app_l w a b : contains w a = true → contains w (a +:+ b) = true.
Proof.
  induction a as [|c a IH]; intros H.
  - cbn in H. rewrite orb_false_r in H. destruct w; [|done]. by destruct b.
  - cbn in H. apply orb_prop in H as [H|H].
    + apply (prefix_app_l w (String c a) b) in H. change (String c a +:+ b) with (String c (a +:+ b)) in *. cbn [contains].
      by rewrite H.
    + change (String c a +:+ b) with (String c (a +:+ b)). cbn [contains]. by rewrite (IH H) orb_true_r.
Qed.

Lemma contains_join w sep l x : x ∈ l → contains w x = true → contains w (join sep l) = true.
Proof.
  induction l as [|y l IH]; intros Hx Hw; [by apply elem_of_nil in Hx|]. apply elem_of_cons in Hx as [<-|Hx].
  - destruct l; [done|]. cbn [join]. by apply contains_app_l.
  - destruct l; [by apply elem_of_nil in Hx|]. cbn [join]. by apply contains_app_r, contains_app_r, IH.
Qed.

Definition DEFAULT_LINE : string := String newline "default allow := false".

Lemma insert_default_spec lines : ∃ pre post, insert_default lines = (pre ++ DEFAULT_LINE :: post)%list ∧ lines = (pre ++ post)%list.
Proof.
  induction lines as [|l lines (pre & post & E & H)]; cbn [insert_default]; [by exists [], []|].
  destruct (is_skippable l); [exists (l :: pre), post; by rewrite E H|by exists [], (l :: lines)].
Qed.

Lemma inject_lines_spec lines lines' :
  inject_lines lines = Some lines' → ∃ pre post, lines' = (pre ++ DEFAULT_LINE :: post)%list ∧ lines = (pre ++ post)%list.
Proof.
  revert lines'. induction lines as [|l lines IH]; intros lines' H; [done|]. cbn [inject_lines] in H.
  destruct (is_package_line l).
  - injection H as <-. destruct (insert_default_spec lines) as (pre & post & E & H). exists (l :: pre), post. by rewrite E H.
  - destruct (inject_lines lines) as [r|]; [|done]. injection H as <-. destruct (IH r eq_refl) as (pre & post & -> & ->).
    by exists (l :: pre), post.
Qed.

(** The mechanical repairs do what their notes say: coercing leaves no
    number in quotes and changes nothing the second time, so it is never tried
    twice on the same tree; and injecting the default into a module with a
    package line adds that one line and keeps all others in order, after which
    the default is no longer reported missing. *)
Theorem mechanical_repairs_work j code lines' :
  inject_lines (splitlines code) = Some lines' →
  typed (_coerce_numeric_json_logic_types j)
  ∧ _coerce_numeric_json_logic_types (_coerce_numeric_json_logic_types j) = _coerce_numeric_json_logic_types j
  ∧ (∃ pre post, _inject_default_allow code = join (String newline "") (pre ++ DEFAULT_LINE :: post)
       ∧ splitlines code = (pre ++ post)%list)
  ∧ (NO_DEFAULT_ISSUE ∉ check_rego_structure (_inject_default_allow code))
  ∧ (NO_ALLOW_ISSUE ∉ check_rego_structure (_inject_default_allow code)).
Proof.
  intros H. destruct (inject_lines_spec _ _ H) as (pre & post & -> & Hl).
  assert (_inject_default_allow code = join (String newline "") (pre ++ DEFAULT_LINE :: post)) as E
    by (unfold _inject_default_allow; rewrite H; reflexivity).
  assert (contains "default allow" (_inject_default_allow code) = true) as Hd.
  { rewrite E. apply (contains_join _ _ _ DEFAULT_LINE); [set_solver|reflexivity]. }
  split_and!; [apply coerce_typed|apply typed_coerce, coerce_typed|by exists pre, post|..];
    unfold check_rego_structure; rewrite Hd; cbn [negb andb]; rewrite app_nil_r;
    intros [Hin|Hin]%elem_of_app; try (destruct (contains "package " _); set_solver);
    unfold bracket_issues in Hin; destruct (scan_brackets _ _ _ _ _) as [c o i st|[] st];
    unfold unclosed in Hin; destruct st; set_solver.
Qed.

(** ** The task *)

(** What is not healed is not lost: the task leaves the dead-letter queue as
    it is when the policy was healed, and otherwise (also when healing is
    switched off) puts one pending entry there, under its category, with the
    arguments of the task and at least one attempt; the indexes of the queue
    stay consistent. *)
Theorem unhealed_goes_to_dlq et {exn} (crew : PolicyFailure → list RepairAttempt → res exn (option RepairSuggestion))
    token n enabled f fixtures payload t q task_id traceback new_id now r t' q' :
  dlq_consistent q → dlq_entries q !! new_id = None →
  self_heal_policy_task et crew token n enabled f fixtures payload t q task_id traceback new_id now = Ok (r, t', q') →
  dlq_consistent q'
  ∧ match sh_outcome r with
    | HEALED => q' = q
    | _ => ∃ e, dlq_entries q' = <[new_id := e]> (dlq_entries q)
             ∧ dlq_category e = POLICY_SELF_HEAL_EXHAUSTED ∧ dlq_status e = DLQ_PENDING ∧ dlq_payload e = payload
             ∧ 1 <= attempt_count e
    end
  ∧ (enabled = false → sh_outcome r = ESCALATED_MAX_RETRIES ∧ t' = t).
Proof.
  intros Hq Hid. unfold self_heal_policy_task. intros ([r0 t0] & H0 & H)%res_bind_Ok.
  case_bool_decide as E; [injection H as <- <- <-|].
  - split_and!; [done|by rewrite E|]. intros ->. by injection H0 as <- <-.
  - cbv zeta in H. match type of H with Ok (_, ?x) = _ => remember x as q0 eqn:Eq in H end. injection H as <- <- <-.
    split_and!; [subst q0; by apply send_consistent| |intros ->; by injection H0 as <- <-]. subst q0.
    assert (1 <= (if Z.of_nat (length (sh_attempts r0)) =? 0 then 1 else Z.of_nat (length (sh_attempts r0))))
      by (destruct (Z.eqb_spec (Z.of_nat (length (sh_attempts r0))) 0); lia).
    destruct (sh_outcome r0); [done|..]; by eexists.
Qed.

(** ** Findings *)
Definition h_failure (t : PolicyErrorType) (rego : option string) (j : option json) : PolicyFailure :=
  Failure "r1" None None "clause" rego j (Some "p") (Some []) None 1 t "error" None 0.
Definition h_fixture : fixture := Fixture "inside" (JObj [("facts", JObj [("margin", JInt 25)])]) (JBool true).
Definition no_model : PolicyFailure → list RepairAttempt → res unit (option RepairSuggestion) := λ _ _, Ok None.
Definition no_text : eval_error → string := λ _, "".
Definition no_tracker : tracker := Tracker ∅ ∅.
Definition h_rego : string := "package p" +:+ String newline "allow if { input.x }".

Definition outcome_of {E} (m : res E (SelfHealingResult * tracker)) : option (HealingOutcome * list RepairAttempt * Z) :=
  match m with Ok (r, t) => Some (sh_outcome r, sh_attempts r, get_attempt_count t "r1") | Raise _ => None end.

(** A repair of the module alone is healed without running a single test case,
    and the counter of a healed rule is not reset. *)
Example healed_without_tests :
  (λ x, (x.1.1, map ra_test_results x.1.2, x.2))
    <$> outcome_of (heal no_text no_model None 3 (h_failure SYNTAX_ERROR (Some h_rego) None) [h_fixture] no_tracker)
  = Some (HEALED, [[]], 1).
Proof. vm_compute. done. Qed.

(** The word "package " in a comment is enough for the fix to be reported as
    applied although nothing changes; the loop then repeats it to the end. *)
Example fix_reported_without_effect :
  let code := "# the package p" +:+ String newline "allow if { input.x }" in
  apply_deterministic_fixes (h_failure SYNTAX_ERROR (Some code) None) = Suggestion true (Some code) None INJECTED_NOTE
  ∧ (λ x, (x.1.1, length x.1.2))
      <$> outcome_of (heal no_text no_model None 3 (h_failure SYNTAX_ERROR (Some code) None) [h_fixture] no_tracker)
    = Some (ESCALATED_MAX_RETRIES, 3%nat).
Proof. vm_compute. done. Qed.

(** A string that ends in an escaped backslash hides the rest of the module. *)
Example escaped_backslash_hides_brackets :
  bracket_issues ("x := " +:+ dq "a\\" +:+ " }") = [] ∧ bracket_issues ("x := " +:+ dq "a" +:+ " }") ≠ [].
Proof. vm_compute. done. Qed.

(** ** Witnesses *)
Definition h_quoted : json := JObj [(">=", JList [JObj [("var", JStr "facts.margin")]; JStr "20"])].


Example quoted_number_heals :
  (λ x, (x.1.1, map ra_repaired_json_logic x.1.2))
    <$> outcome_of (heal no_text no_model None 3 (h_failure INVALID_JSON_LOGIC_TYPE None (Some h_quoted)) [h_fixture] no_tracker)
  = Some (HEALED, [Some (JObj [(">=", JList [JObj [("var", JStr "facts.margin")]; JInt 20])])]).
Proof. vm_compute. done. Qed.

Lemma mechanical_repairs_witness : contains "default allow" (_inject_default_allow h_rego) = true
  ∧ (NO_DEFAULT_ISSUE ∉ check_rego_structure (_inject_default_allow h_rego)).
Proof.
  split; [vm_compute; reflexivity|].
  apply (mechanical_repairs_work JNull h_rego ["package p"; DEFAULT_LINE; "allow if { input.x }"]). vm_compute. reflexivity.
Defined.

Definition h_task : res unit (SelfHealingResult * tracker * DeadLetterQueue) :=
  self_heal_policy_task no_text no_model None 3 false (h_failure COMPILE_ERROR None None) [] (JObj []) no_tracker empty_dlq
    None "" "e1" (Datetime 0 None).

Lemma unhealed_goes_to_dlq_witness :
  ∃ r t' q', h_task = Ok (r, t', q') ∧ dlq_consistent q' ∧ sh_outcome r = ESCALATED_MAX_RETRIES.
Proof.
  destruct h_task as [[[r t'] q']|] eqn:E; [|discriminate E]. exists r, t', q'. split; [done|].
  destruct (unhealed_goes_to_dlq no_text no_model None 3 false (h_failure COMPILE_ERROR None None) [] (JObj []) no_tracker
    empty_dlq None "" "e1" (Datetime 0 None) r t' q' empty_dlq_consistent eq_refl E) as (H & _ & Hd).
  split; [done|]. by apply Hd.
Defined.
