(* ===== verification/Incident.v ===== *)
(** * Breach events and their escalation

    [src/app/incident/models.py], [store.py], [trigger_matrix.py],
    [escalation_policy.py], [publisher.py] and [tasks.py], and the
    acknowledgment endpoint of [src/app/api/incident_routes.py]; and
    [_raise_breach_events] of [src/app/ledger/integration.py].

    The Redis keys of the store are a map of events, the sorted set of events
    that await acknowledgment (scored by creation time, in microseconds) and the
    capped list of recent ids.  Celery is a list of scheduled tasks with the
    instant before which each is not run; the messages that leave the system are
    a log with the instant of each. *)
From S2P Require Import Prelude PyStr Json JsonFacts Datetime ExecModels Resilience Ledger Integration.

Open Scope string_scope.
Open Scope Z_scope.

(** ** [models.py] *)
Inductive Severity := CRITICAL | WARNING | INFO.
Inductive BreachEventType :=
| CLAUSE_VIOLATION | AMBIGUOUS_HITL | POLICY_COMPILED | FILING_SUBMISSION_FAILED
| GRIEVANCE_FILED | GRIEVANCE_STATUS_UPDATE.
Inductive AckStatus := ACK_PENDING | ACKNOWLEDGED | ACK_RESOLVED.

#[export] Instance Severity_eq_dec : EqDecision Severity.
Proof. solve_decision. Defined.
#[export] Instance BreachEventType_eq_dec : EqDecision BreachEventType.
Proof. solve_decision. Defined.
#[export] Instance AckStatus_eq_dec : EqDecision AckStatus.
Proof. solve_decision. Defined.

Record BreachEvent := Breach
  { be_event_id : string
  ; be_severity : Severity
  ; be_event_type : BreachEventType
  ; be_title : string
  ; be_description : string
  ; be_tenant_id : option string
  ; be_transaction_id : option string
  ; be_rule_id : option string
  ; be_circular_number : option string
  ; be_clause_number : option string
  ; be_hitl_case_id : option string
  ; be_ack_status : AckStatus
  ; be_acknowledged_by : option string
  ; be_acknowledged_at : option datetime
  ; be_escalation_stage : Z
  ; be_created_at : datetime
  ; be_metadata : list (string * json) }.

Definition requires_acknowledgment (e : BreachEvent) : bool :=
  match be_severity e with CRITICAL | WARNING => true | INFO => false end.

(** A new event: what the builders leave to the defaults of the model. *)
Definition new_breach (id : string) (now : datetime) (sev : Severity) (ty : BreachEventType) (title description : string)
    (tenant transaction rule circular clause case : option string) (meta : list (string * json)) : BreachEvent :=
  Breach id sev ty title description tenant transaction rule circular clause case ACK_PENDING None None 0 now meta.

(** ** [trigger_matrix.py] *)
Definition clause_violation_event (id : string) (now : datetime) (t : TransactionPayload) (result : EvaluationResult)
    (o : PolicyOutcome) : BreachEvent :=
  new_breach id now CRITICAL CLAUSE_VIOLATION
    ("Clause violation: " +:+ str_or (po_circular_number o) "unknown circular" +:+ " clause "
     +:+ str_or (po_clause_number o) "unscoped")
    (match violations o with [] => "Policy violated with no detailed message." | vs => join "; " vs end)
    (tx_broker_id t) (Some (tx_transaction_id t)) (Some (po_rule_id o)) (po_circular_number o) (po_clause_number o) None
    [("package", JStr (po_package o)); ("decision", JStr (decision_value (decision result)))].

Definition ambiguous_hitl_event (id : string) (now : datetime) (t : option TransactionPayload) (reason : string)
    (case rule circular clause : option string) : BreachEvent :=
  new_breach id now WARNING AMBIGUOUS_HITL
    ("Ambiguous rule requires review: " +:+ str_or circular "unknown circular" +:+ " clause " +:+ str_or clause "unscoped")
    reason (t ≫= tx_broker_id) (tx_transaction_id <$> t) rule circular clause case [].

Definition policy_compiled_event (id : string) (now : datetime) (rule : string) (circular clause : option string)
    (package : string) : BreachEvent :=
  new_breach id now INFO POLICY_COMPILED
    ("Policy auto-compiled: " +:+ str_or circular "unknown circular" +:+ " clause " +:+ str_or clause "unscoped")
    ("Rule " +:+ rule +:+ " compiled successfully to OPA package '" +:+ package +:+ "'.")
    None None (Some rule) circular clause None [("package", JStr package)].

Definition filing_submission_failed_event (id : string) (now : datetime) (filing_id filing_type destination : string)
    (attempts : Z) (last_error : string) : BreachEvent :=
  new_breach id now CRITICAL FILING_SUBMISSION_FAILED
    ("Regulatory filing submission failed: " +:+ filing_type +:+ " to " +:+ destination)
    ("Filing " +:+ filing_id +:+ " (" +:+ filing_type +:+ ") failed to submit to " +:+ destination +:+ " after "
     +:+ str_of_Z attempts +:+ " attempt(s). Last error: " +:+ last_error)
    None None None None None None
    [("filing_id", JStr filing_id); ("filing_type", JStr filing_type); ("destination", JStr destination);
     ("attempt_count", JInt attempts)].

(** ** [store.py] *)
Record BreachEventStore := Store
  { st_events : gmap string BreachEvent
  ; st_pending_ack : gmap string Z
  ; st_recent : list string }.
Definition empty_store : BreachEventStore := Store ∅ ∅ [].
Definition recent_cap : nat := 500.

Definition awaits_ack (e : BreachEvent) : bool :=
  requires_acknowledgment e && bool_decide (be_ack_status e = ACK_PENDING).

Definition store_save (s : BreachEventStore) (e : BreachEvent) : BreachEventStore :=
  Store (<[be_event_id e := e]> (st_events s))
    (if awaits_ack e then <[be_event_id e := utc_us (be_created_at e)]> (st_pending_ack s) else st_pending_ack s)
    (take recent_cap (be_event_id e :: st_recent s)).

(** [LRANGE key 0 stop] *)
Definition lrange {A} (l : list A) (stop : Z) : list A :=
  take (Z.to_nat ((if stop <? 0 then stop + Z.of_nat (length l) else stop) + 1)) l.

Definition list_recent (s : BreachEventStore) (limit : Z) : list BreachEvent :=
  omap (λ id, st_events s !! id) (lrange (st_recent s) (limit - 1)).

(** [older] in seconds; [ZRANGE] and [ZRANGEBYSCORE] list by ascending score. *)
Definition list_pending_ack (s : BreachEventStore) (older : option Z) (now : datetime) : list BreachEvent :=
  let due id := match older with
                | None => true
                | Some secs => match st_pending_ack s !! id with
                               | Some score => score <=? utc_us now - secs * 1000000
                               | None => false end
                end in
  List.filter (λ e, bool_decide (be_ack_status e = ACK_PENDING))
    (omap (λ id, st_events s !! id) (List.filter due (reverse (zrevrange (st_pending_ack s))))).

Definition as_acknowledged (e : BreachEvent) (by_ : string) (now : datetime) : BreachEvent :=
  Breach (be_event_id e) (be_severity e) (be_event_type e) (be_title e) (be_description e) (be_tenant_id e)
    (be_transaction_id e) (be_rule_id e) (be_circular_number e) (be_clause_number e) (be_hitl_case_id e)
    ACKNOWLEDGED (Some by_) (Some now) (be_escalation_stage e) (be_created_at e) (be_metadata e).

Definition at_stage (e : BreachEvent) (stage : Z) : BreachEvent :=
  Breach (be_event_id e) (be_severity e) (be_event_type e) (be_title e) (be_description e) (be_tenant_id e)
    (be_transaction_id e) (be_rule_id e) (be_circular_number e) (be_clause_number e) (be_hitl_case_id e)
    (be_ack_status e) (be_acknowledged_by e) (be_acknowledged_at e) stage (be_created_at e) (be_metadata e).

Definition acknowledge (s : BreachEventStore) (id by_ : string) (now : datetime) : BreachEventStore * option BreachEvent :=
  match st_events s !! id with
  | None => (s, None)
  | Some e =>
      let e' := as_acknowledged e by_ now in
      (Store (<[be_event_id e := e']> (st_events s)) (delete id (st_pending_ack s)) (st_recent s), Some e')
  end.

Definition update_escalation_stage (s : BreachEventStore) (id : string) (stage : Z) : BreachEventStore :=
  match st_events s !! id with
  | None => s
  | Some e => Store (<[be_event_id e := at_stage e stage]> (st_events s)) (st_pending_ack s) (st_recent s)
  end.

(** ** [escalation_policy.py] *)
Inductive channel := Slack | Email | Sms | PagerDuty.
#[export] Instance channel_eq_dec : EqDecision channel.
Proof. solve_decision. Defined.

Record EscalationStage := Stage { stage_index : Z; delay_seconds : Z; channels : list channel }.

(** The settings the engine reads; [configured] says which channels have
    their addresses and credentials. *)
Record IncidentSettings := ISettings
  { critical_ack_deadline_seconds : Z
  ; critical_sms_stage_seconds : Z
  ; warning_ack_deadline_seconds : Z
  ; configured : channel → bool }.

Definition build_escalation_policies (c : IncidentSettings) (sev : Severity) : list EscalationStage :=
  match sev with
  | CRITICAL => [ Stage 0 0 [Slack; Email]; Stage 1 (critical_sms_stage_seconds c) [Sms];
                  Stage 2 (critical_ack_deadline_seconds c - critical_sms_stage_seconds c) [PagerDuty] ]
  | WARNING => [ Stage 0 0 [Slack]; Stage 1 (warning_ack_deadline_seconds c) [Email] ]
  | INFO => []
  end.

(** ** The engine *)
Record message := Message { ms_event : string; ms_channel : channel; ms_at : Z }.
Record task := Task { tk_event : string; tk_stage : nat; tk_eta : Z }.
Record incident_state := Incidents
  { is_store : BreachEventStore
  ; is_tasks : list task
  ; is_sent : list message
  ; is_dashboard : list BreachEvent }.
Definition no_incidents : incident_state := Incidents empty_store [] [] [].

Section engine.
Context (cfg : IncidentSettings) (sweeps : bool).

(** [raise_breach_event]; [reachable] says whether the publish goes through. *)
Definition raise_breach_event (s : incident_state) (e : BreachEvent) (reachable : bool) (now : datetime) : incident_state :=
  Incidents (store_save (is_store s) e)
    (if requires_acknowledgment e then is_tasks s ++ [Task (be_event_id e) 0 (utc_us now)] else is_tasks s)%list
    (is_sent s)
    (if reachable then is_dashboard s ++ [e] else is_dashboard s)%list.

(** [_raise_breach_events]: an event per violated or undecided outcome, before
    the ledger is written.  An exception is logged and the next outcome follows:
    [Down] when the store is out of reach, [NoBroker] when the event is saved and
    the task cannot be scheduled. *)
Inductive health := Up (published : bool) | NoBroker (published : bool) | Down.

Definition breach_of (t : TransactionPayload) (result : EvaluationResult) (id : string) (now : datetime) (o : PolicyOutcome)
  : option BreachEvent :=
  match _outcome_result o with
  | PASS => None
  | FAIL => Some (clause_violation_event id now t result o)
  | HITL_REVIEW =>
      Some (ambiguous_hitl_event id now (Some t)
              ("OPA returned an undefined result for rule_id=" +:+ po_rule_id o +:+ "; routed to HITL case "
               +:+ match hitl_case_id result with Some c => c | None => "None" end +:+ ".")
              (hitl_case_id result) (Some (po_rule_id o)) (po_circular_number o) (po_clause_number o))
  end.

Definition raise_with (h : health) (s : incident_state) (e : BreachEvent) (now : datetime) : incident_state :=
  match h with
  | Up up => raise_breach_event s e up now
  | NoBroker up => let s' := raise_breach_event s e up now in Incidents (is_store s') (is_tasks s) (is_sent s') (is_dashboard s')
  | Down => s
  end.

Fixpoint _raise_breach_events (s : incident_state) (t : TransactionPayload) (result : EvaluationResult) (now : datetime)
    (os : list (PolicyOutcome * string * health)) : incident_state :=
  match os with
  | [] => s
  | (o, id, h) :: os' =>
      _raise_breach_events
        (match breach_of t result id now o with Some e => raise_with h s e now | None => s end) t result now os'
  end.

(** The channels are tried in the order of the code; a failing client is logged
    and the next channel follows. *)
Definition _dispatch_channels (e : BreachEvent) (cs : list channel) (now : datetime) : list message :=
  map (λ c, Message (be_event_id e) c (utc_us now))
    (List.filter (λ c, bool_decide (c ∈ cs) && configured cfg c) [Slack; Email; Sms; PagerDuty]).

Definition _process_stage (s : incident_state) (id : string) (k : nat) (now : datetime) : incident_state :=
  match st_events (is_store s) !! id with
  | None => s
  | Some e =>
      if negb (bool_decide (be_ack_status e = ACK_PENDING)) then s
      else
        let stages := build_escalation_policies cfg (be_severity e) in
        match stages !! k with
        | None => s
        | Some stage =>
            Incidents (update_escalation_stage (is_store s) id (Z.of_nat k))
              (match stages !! S k with
               | Some next => is_tasks s ++ [Task id (S k) (utc_us now + delay_seconds next * 1000000)]
               | None => is_tasks s
               end)%list
              (is_sent s ++ _dispatch_channels e (channels stage) now)%list
              (is_dashboard s)
        end
  end.

Definition _sweep (s : incident_state) (now : datetime) : incident_state :=
  let min_deadline := Z.min (critical_sms_stage_seconds cfg) (warning_ack_deadline_seconds cfg) in
  Incidents (is_store s)
    (is_tasks s ++ map (λ e, Task (be_event_id e) (Z.to_nat (be_escalation_stage e + 1)) (utc_us now))
                     (list_pending_ack (is_store s) (Some min_deadline) now))%list
    (is_sent s) (is_dashboard s).

(** [acknowledge_incident]: the event, and whether the PagerDuty incident is
    resolved too. *)
Definition resolves_page (e : BreachEvent) : bool :=
  bool_decide (be_severity e = CRITICAL) && (2 <=? be_escalation_stage e) && configured cfg PagerDuty.

Definition acknowledge_incident (s : incident_state) (id by_ : string) (now : datetime)
  : incident_state * http_reply (BreachEvent * bool) :=
  let '(st, r) := acknowledge (is_store s) id by_ now in
  (Incidents st (is_tasks s) (is_sent s) (is_dashboard s),
   match r with Some e => Http200 (e, resolves_page e) | None => HttpError 404 end).

(** ** The engine as a transition system

    Time is the instant of the step.  A worker takes any task that is due; an
    event is raised under a fresh id, created at that instant; the periodic sweep
    may run at any time, if it runs at all. *)
Inductive incident_step (s : incident_state) : datetime → incident_state → Prop :=
| step_raise now e up :
    st_events (is_store s) !! be_event_id e = None → be_ack_status e = ACK_PENDING → be_escalation_stage e = 0 →
    be_created_at e = now → incident_step s now (raise_breach_event s e up now)
| step_task now before t after :
    is_tasks s = (before ++ t :: after)%list → tk_eta t <= utc_us now →
    incident_step s now
      (_process_stage (Incidents (is_store s) (before ++ after)%list (is_sent s) (is_dashboard s)) (tk_event t) (tk_stage t) now)
| step_ack now id by_ : incident_step s now (acknowledge_incident s id by_ now).1
| step_sweep now : sweeps = true → incident_step s now (_sweep s now).

Definition any_step (s s' : incident_state) : Prop := ∃ now, incident_step s now s'.
End engine.
