(* ===== verification/IncidentFacts.v ===== *)
(** * Correctness of breach escalation *)
From S2P Require Import Prelude PyStr Json JsonFacts Datetime ExecModels Resilience ResilienceFacts Ledger Integration Incident.
From stdpp Require Import fin_maps.

Open Scope string_scope.
Open Scope Z_scope.

(** A property kept by every step holds wherever the steps lead. *)
Lemma reach_invariant {A} (R : A → A → Prop) (P : A → Prop) x y :
  (∀ a b, P a → R a b → P b) → P x → rtc R x y → P y.
Proof. intros H Hx. induction 1; [done|]. eauto. Qed.

(** ** The store *)

(** Events under their own ids; the sorted set holds exactly the events that
    await acknowledgment, at their creation time. *)
Record store_ok (s : BreachEventStore) : Prop :=
  { so_id : ∀ id e, st_events s !! id = Some e → be_event_id e = id
  ; so_pending : ∀ id,
      st_pending_ack s !! id =
      st_events s !! id ≫= λ e, if awaits_ack e then Some (utc_us (be_created_at e)) else None }.

Lemma awaits_at_stage e k : awaits_ack (at_stage e k) = awaits_ack e.
Proof. done. Qed.
Lemma awaits_acknowledged e b now : awaits_ack (as_acknowledged e b now) = false.
Proof. unfold awaits_ack, as_acknowledged; simpl. by rewrite andb_comm. Qed.

Lemma empty_store_ok : store_ok empty_store.
Proof. split; intros id; simpl; by rewrite ?lookup_empty. Qed.

Lemma save_ok s e :
  store_ok s → st_events s !! be_event_id e = None → store_ok (store_save s e).
Proof.
  intros [Hid Hp] Hfresh. split; simpl.
  - intros id x. rewrite lookup_insert_Some. naive_solver.
  - intros id. destruct (decide (id = be_event_id e)) as [->|Hne].
    + rewrite lookup_insert_eq /=. destruct (awaits_ack e); [by rewrite lookup_insert_eq|]. by rewrite Hp Hfresh.
    + rewrite lookup_insert_ne; [|done]. destruct (awaits_ack e); rewrite -?Hp ?lookup_insert_ne; done.
Qed.

Lemma ack_ok s id b now : store_ok s → store_ok (acknowledge s id b now).1.
Proof.
  intros [Hid Hp]. unfold acknowledge. destruct (st_events s !! id) as [e|] eqn:He; [|done].
  pose proof (Hid _ _ He) as <-. split; simpl.
  - intros id' x. rewrite lookup_insert_Some. naive_solver.
  - intros id'. destruct (decide (id' = be_event_id e)) as [->|Hne].
    + by rewrite lookup_insert_eq lookup_delete_eq /= awaits_acknowledged.
    + by rewrite lookup_insert_ne ?lookup_delete_ne.
Qed.

Lemma stage_ok s id k : store_ok s → store_ok (update_escalation_stage s id k).
Proof.
  intros [Hid Hp]. unfold update_escalation_stage. destruct (st_events s !! id) as [e|] eqn:He; [|done].
  pose proof (Hid _ _ He) as <-. split; simpl.
  - intros id' x. rewrite lookup_insert_Some. naive_solver.
  - intros id'. rewrite Hp. destruct (decide (id' = be_event_id e)) as [->|Hne].
    + by rewrite lookup_insert_eq He /= awaits_at_stage.
    + by rewrite lookup_insert_ne.
Qed.

(** ** Sorted sets in ascending order *)
Lemma StronglySorted_reverse {A} (R : A → A → Prop) l :
  StronglySorted R l → StronglySorted (flip R) (reverse l).
Proof.
  induction 1 as [|x l _ IH Hx]; [constructor|]. rewrite reverse_cons. apply StronglySorted_app. split_and!.
  - intros a b Ha Hb. rewrite elem_of_reverse in Ha. apply list_elem_of_singleton in Hb as ->.
    rewrite Forall_forall in Hx. exact (Hx _ Ha).
  - done.
  - repeat constructor.
Qed.

Lemma zrange_spec (z : gmap string Z) :
  NoDup (reverse (zrevrange z))
  ∧ (∀ id, id ∈ reverse (zrevrange z) ↔ is_Some (z !! id))
  ∧ StronglySorted (λ a b, default 0 (z !! a) <= default 0 (z !! b)) (reverse (zrevrange z)).
Proof.
  assert (Hp : zrevrange z ≡ₚ (map_to_list z).*1) by apply fmap_Permutation, merge_sort_Permutation.
  split_and!.
  - rewrite reverse_Permutation Hp. apply NoDup_fst_map_to_list.
  - intros id. rewrite elem_of_reverse Hp list_elem_of_fmap. split.
    + intros ([k v] & -> & H%elem_of_map_to_list). by eexists.
    + intros [v Hv]. exists (id, v). by rewrite elem_of_map_to_list.
  - apply (StronglySorted_reverse (λ a b, default 0 (z !! b) <= default 0 (z !! a))).
    unfold zrevrange. assert (Hin : ∀ x, x ∈ merge_sort zrev_le (map_to_list z) → z !! x.1 = Some x.2).
    { intros [k v]. rewrite merge_sort_Permutation. by rewrite elem_of_map_to_list. }
    pose proof (StronglySorted_merge_sort zrev_le (map_to_list z)) as Hs.
    induction Hs as [|x l Hs IH Hx]; [constructor|]. simpl. constructor.
    + apply IH. intros y Hy. apply Hin. by right.
    + apply Forall_fmap. rewrite Forall_forall in Hx. apply Forall_forall. intros y Hy. simpl.
      rewrite (Hin x (list_elem_of_here _ _)) (Hin y (list_elem_of_further _ _ _ Hy)) /=.
      destruct (Hx _ Hy) as [?|[? _]]; lia.
Qed.

(** Looking up distinct ids in order. *)
Lemma lookup_listing {B} (m : gmap string B) (p : B → bool) (key : B → string) (score : B → Z) (z : gmap string Z) l :
  (∀ id e, m !! id = Some e → key e = id) →
  (∀ id e, m !! id = Some e → p e = true → id ∈ l → z !! id = Some (score e)) →
  NoDup l → StronglySorted (λ a b, default 0 (z !! a) <= default 0 (z !! b)) l →
  NoDup (List.filter p (omap (λ id, m !! id) l))
  ∧ StronglySorted (λ a b, score a <= score b) (List.filter p (omap (λ id, m !! id) l)).
Proof.
  intros Hk Hz. induction l as [|id l IH]; intros Hnd Hs; [split; constructor|].
  apply NoDup_cons in Hnd as [Hni Hnd]. apply StronglySorted_cons in Hs as [Hall Hs].
  destruct IH as [IH1 IH2]; [intros ?? H1 H2 H3; apply (Hz _ _ H1 H2); by right|done..|]. simpl.
  destruct (m !! id) as [e|] eqn:He; [|done]. simpl. destruct (p e) eqn:Hp; [|done].
  assert (Hin : ∀ x, x ∈ List.filter p (omap (λ id, m !! id) l) → ∃ id', id' ∈ l ∧ m !! id' = Some x ∧ p x = true).
  { intros x. rewrite list_elem_of_In filter_In -list_elem_of_In list_elem_of_omap. naive_solver. }
  split.
  - constructor; [|done]. intros (id' & Hl & He' & _)%Hin. apply Hni. by rewrite -(Hk _ _ He) (Hk _ _ He').
  - constructor; [done|]. apply Forall_forall. intros x (id' & Hl & He' & Hp')%Hin.
    rewrite Forall_forall in Hall. specialize (Hall _ Hl).
    rewrite (Hz _ _ He Hp (list_elem_of_here _ _)) (Hz _ _ He' Hp' (list_elem_of_further _ _ _ Hl)) in Hall. done.
Qed.

Section engine.
Context (cfg : IncidentSettings) (sweeps : bool).
Abbreviation stages sev := (build_escalation_policies cfg sev).
Abbreviation reached := (rtc (any_step cfg sweeps) no_incidents).

(** What a stage leaves in the store is the store with the event at that stage. *)
Lemma process_store s id k now :
  is_store (_process_stage cfg s id k now) = is_store s
  ∨ is_store (_process_stage cfg s id k now) = update_escalation_stage (is_store s) id (Z.of_nat k).
Proof. unfold _process_stage. repeat case_match; naive_solver. Qed.

Lemma step_store_ok s now s' : store_ok (is_store s) → incident_step cfg sweeps s now s' → store_ok (is_store s').
Proof.
  intros Hok [? e up Hf _ _ _| ? bf t af Ht _|now' id b|? _]; [by apply save_ok| | |done].
  - match goal with |- store_ok (is_store (_process_stage ?c ?s ?i ?k ?n)) => destruct (process_store s i k n) as [->| ->] end;
      [done|by apply stage_ok].
  - unfold acknowledge_incident. pose proof (ack_ok (is_store s) id b now' Hok) as H.
    by destruct (acknowledge (is_store s) id b now').
Qed.

Lemma reached_store_ok s : reached s → store_ok (is_store s).
Proof.
  apply (reach_invariant _ (λ s, store_ok (is_store s))); [|apply empty_store_ok].
  intros a b H [now Hs]. by eapply step_store_ok.
Qed.

(** In every state the engine can reach, listing the unacknowledged
    breaches gives each critical or warning event that nobody has acknowledged,
    once, oldest first, and nothing else: no alert drops out of the list that
    the safety-net sweep works from before a person has acknowledged it. *)
Theorem pending_breaches_exact s now :
  reached s →
  NoDup (list_pending_ack (is_store s) None now)
  ∧ (∀ e, e ∈ list_pending_ack (is_store s) None now
          ↔ st_events (is_store s) !! be_event_id e = Some e ∧ awaits_ack e = true)
  ∧ StronglySorted (λ a b, utc_us (be_created_at a) <= utc_us (be_created_at b)) (list_pending_ack (is_store s) None now).
Proof.
  intros [Hid Hp]%reached_store_ok. destruct (zrange_spec (st_pending_ack (is_store s))) as (Hnd & Hin & Hso).
  set (l := reverse (zrevrange (st_pending_ack (is_store s)))) in *.
  assert (Hl : List.filter (λ _, true) l = l) by (clear; induction l; simpl; congruence).
  unfold list_pending_ack. rewrite -/l Hl.
  assert (Hsc : ∀ id e, st_events (is_store s) !! id = Some e → id ∈ l →
                awaits_ack e = true ∧ st_pending_ack (is_store s) !! id = Some (utc_us (be_created_at e))).
  { intros id e He Hi%Hin. move: Hi. rewrite Hp He /=. destruct (awaits_ack e); [done|by intros []]. }
  split_and!; [|intros e|]; [| |].
  1,3: apply (lookup_listing _ _ be_event_id (λ e, utc_us (be_created_at e)) (st_pending_ack (is_store s)) _ Hid); [|done..]; intros id e He _ Hi; by apply Hsc.
  rewrite list_elem_of_In filter_In -list_elem_of_In list_elem_of_omap. split.
  - intros ((id & Hi & He) & _). rewrite (Hid _ _ He). split; [done|]. by eapply Hsc.
  - intros [He Ha]. split; [|by apply andb_prop in Ha as [_ ?]].
    exists (be_event_id e). split; [|done]. apply Hin. by rewrite Hp He /= Ha.
Qed.

(** ** Acknowledgment *)
Definition messages_of (id : string) (s : incident_state) : list message :=
  List.filter (λ m, String.eqb (ms_event m) id) (is_sent s).

Definition closed (id : string) (s : incident_state) : Prop :=
  ∃ e, st_events (is_store s) !! id = Some e ∧ be_ack_status e ≠ ACK_PENDING.

(** A task of a closed event does nothing; a task of another event leaves it
    alone. *)
Lemma process_other s id id' k now :
  store_ok (is_store s) → id' ≠ id →
  st_events (is_store (_process_stage cfg s id' k now)) !! id = st_events (is_store s) !! id
  ∧ messages_of id (_process_stage cfg s id' k now) = messages_of id s.
Proof.
  intros Hok Hne. unfold _process_stage. destruct (st_events (is_store s) !! id') as [e|] eqn:He; [|done].
  case_match; [done|]. case_match; [|done]. simpl. unfold update_escalation_stage. rewrite He /=.
  pose proof (so_id _ Hok _ _ He) as Hid. split; [by rewrite lookup_insert_ne ?Hid|].
  unfold messages_of; simpl. rewrite List.filter_app -[RHS]app_nil_r. f_equal.
  unfold _dispatch_channels. rewrite Hid.
  generalize (List.filter (λ c, bool_decide (c ∈ channels e0) && configured cfg c) [Slack; Email; Sms; PagerDuty]).
  intros cs. induction cs as [|c cs IH]; [done|]. simpl. destruct (String.eqb_spec id' id); [done|exact IH].
Qed.

Lemma closed_step id s now s' :
  store_ok (is_store s) → closed id s → incident_step cfg sweeps s now s' → closed id s' ∧ messages_of id s' = messages_of id s.
Proof.
  intros Hok (e & He & Ha) Hs. destruct Hs as [? e' up Hf _ _ _| now' bf t af Ht _|now' id' b|? _].
  - split; [|done]. exists e. simpl. by rewrite lookup_insert_ne; [|intros E; congruence].
  - destruct (decide (tk_event t = id)) as [Hi|Hne].
    + unfold _process_stage. rewrite Hi /= He bool_decide_false; [|done]. simpl. split; [by exists e|done].
    + match goal with |- closed id (_process_stage _ ?s0 _ _ _) ∧ _ =>
        destruct (process_other s0 id (tk_event t) (tk_stage t) now' Hok Hne) as [H1 H2] end.
      split; [exists e; by rewrite H1|by rewrite H2].
  - unfold acknowledge_incident, acknowledge. destruct (st_events (is_store s) !! id') as [x|] eqn:Hx; [|by split; [exists e|]].
    split; [|done]. simpl. pose proof (so_id _ Hok _ _ Hx) as <-.
    destruct (decide (be_event_id x = id)) as [<-|Hne].
    + eexists. rewrite /closed /= lookup_insert_eq. by split.
    + exists e. by rewrite /= lookup_insert_ne.
  - split; [by exists e|done].
Qed.

(** Once somebody has acknowledged a breach event, nothing more is sent
    about it: whatever tasks were already scheduled, whatever the sweep adds and
    however the workers are interleaved, no further Slack, e-mail, SMS or
    PagerDuty message for the event leaves the system, and the event never
    becomes unacknowledged again. *)
Theorem acknowledged_stops_escalation s id by_ at_ s' :
  reached s → is_Some (st_events (is_store s) !! id) →
  rtc (any_step cfg sweeps) (acknowledge_incident cfg s id by_ at_).1 s' →
  closed id s' ∧ messages_of id s' = messages_of id s.
Proof.
  intros Hr [e He] Hrun. pose proof (reached_store_ok _ Hr) as Hok.
  set (s0 := (acknowledge_incident cfg s id by_ at_).1) in *.
  assert (H0 : store_ok (is_store s0) ∧ closed id s0 ∧ messages_of id s0 = messages_of id s).
  { split; [by eapply step_store_ok, step_ack|]. unfold s0, acknowledge_incident, acknowledge. rewrite He /=.
    split; [|done]. rewrite -(so_id _ Hok _ _ He). eexists. by rewrite /= lookup_insert_eq. }
  apply (reach_invariant _ (λ x, store_ok (is_store x) ∧ closed id x ∧ messages_of id x = messages_of id s)) in Hrun;
    [by destruct Hrun as (_ & ? & ?)| |done].
  intros a b (Ha & Hc & Hm) [now Hs]. split; [by eapply step_store_ok|].
  destruct (closed_step _ _ _ _ Ha Hc Hs) as [? Hm']. by rewrite Hm' Hm.
Qed.

(** ** Escalation goes on *)

(** Every configured channel of stage [st] has had a message about the event. *)
Definition stage_sent (s : incident_state) (id : string) (st : EscalationStage) : Prop :=
  ∀ c, c ∈ channels st → configured cfg c = true → ∃ m, m ∈ is_sent s ∧ ms_event m = id ∧ ms_channel m = c.

(** The stages before [k] have been sent and stage [k] is scheduled, or there is
    no stage [k]. *)
Definition escalating (s : incident_state) (id : string) (sev : Severity) : Prop :=
  ∃ k : nat, (∀ j st, (j < k)%nat → stages sev !! j = Some st → stage_sent s id st)
    ∧ (stages sev !! k = None ∨ ∃ t, t ∈ is_tasks s ∧ tk_event t = id ∧ tk_stage t = k).

Lemma stage_sent_mono s s' id st :
  (∀ m, m ∈ is_sent s → m ∈ is_sent s') → stage_sent s id st → stage_sent s' id st.
Proof. intros H Hs c Hc Hf. destruct (Hs c Hc Hf) as (m & ? & ? & ?). eauto. Qed.

Lemma escalating_mono s s' id sev :
  (∀ m, m ∈ is_sent s → m ∈ is_sent s') → (∀ t, t ∈ is_tasks s → t ∈ is_tasks s') →
  escalating s id sev → escalating s' id sev.
Proof.
  intros Hm Ht (k & Hs & Hk). exists k. split; [intros; eapply stage_sent_mono; eauto|]. naive_solver.
Qed.

Lemma dispatch_sends s id e st now :
  be_event_id e = id → stage_sent (Incidents (is_store s) (is_tasks s) (is_sent s ++ _dispatch_channels cfg e (channels st) now)%list (is_dashboard s)) id st.
Proof.
  intros <- c Hc Hf. exists (Message (be_event_id e) c (utc_us now)). simpl. split; [|done].
  apply elem_of_app. right. unfold _dispatch_channels. apply list_elem_of_fmap. exists c. split; [done|].
  rewrite list_elem_of_In filter_In bool_decide_true ?Hf; [|done]. split; [|done]. destruct c; simpl; tauto.
Qed.

Lemma process_mono s id k now :
  (∀ m, m ∈ is_sent s → m ∈ is_sent (_process_stage cfg s id k now))
  ∧ (∀ t, t ∈ is_tasks s → t ∈ is_tasks (_process_stage cfg s id k now)).
Proof.
  unfold _process_stage. repeat case_match; try done; simpl; split; intros x Hx; try done; apply elem_of_app; by left.
Qed.

Lemma process_advances s id e k now :
  store_ok (is_store s) → st_events (is_store s) !! id = Some e → be_ack_status e = ACK_PENDING →
  (∀ j st, (j < k)%nat → stages (be_severity e) !! j = Some st → stage_sent s id st) →
  escalating (_process_stage cfg s id k now) id (be_severity e).
Proof.
  intros Hok He Ha Hs. pose proof (so_id _ Hok _ _ He) as Hid. unfold _process_stage. rewrite He bool_decide_true //=.
  destruct (stages (be_severity e) !! k) as [st|] eqn:Hst; [|exists k; eauto]. exists (S k). split.
  - intros j st' Hj Hst'. destruct (decide (j = k)) as [->|Hne].
    + replace st' with st by congruence.
      eapply stage_sent_mono; [|exact (dispatch_sends s id e st now Hid)]. done.
    + eapply stage_sent_mono, (Hs j st'); [|lia|done]. intros m Hm. apply elem_of_app. by left.
  - simpl. destruct (stages (be_severity e) !! S k) as [next|] eqn:Hn; [right|by left].
    eexists. split; [apply elem_of_app; right; by apply list_elem_of_singleton|done].
Qed.

(** What an event looks like after a step, when it still awaits acknowledgment. *)
Lemma step_event s now s' id e' :
  store_ok (is_store s) → incident_step cfg sweeps s now s' → st_events (is_store s') !! id = Some e' → awaits_ack e' = true →
  (∃ e, st_events (is_store s) !! id = Some e ∧ awaits_ack e = true ∧ be_severity e = be_severity e'
        ∧ be_created_at e = be_created_at e')
  ∨ (∃ up, s' = raise_breach_event s e' up now ∧ be_event_id e' = id ∧ be_created_at e' = now).
Proof.
  intros Hok Hs. destruct Hs as [now' x up Hf _ _ Hc| now' bf t af Ht _|now' id' b|now' _].
  - simpl. rewrite lookup_insert_Some. intros [[<- ->]|[Hne He]] Ha; [right; eauto|left; eauto].
  - intros He Ha. left.
    match type of He with st_events (is_store (_process_stage _ ?s0 ?i ?k ?n)) !! _ = _ =>
      destruct (process_store s0 i k n) as [Eq|Eq]; rewrite Eq in He end; [eauto|].
    unfold update_escalation_stage in He. destruct (st_events (is_store s) !! tk_event t) as [x|] eqn:Hx; simpl in He;
      rewrite Hx in He; [|eauto].
    simpl in He. rewrite (so_id _ Hok _ _ Hx) in He. apply lookup_insert_Some in He as [[<- <-]|[_ He]]; [|eauto].
    exists x. rewrite awaits_at_stage in Ha. eauto.
  - unfold acknowledge_incident, acknowledge. destruct (st_events (is_store s) !! id') as [x|] eqn:Hx; [|intros; left; by exists e'].
    simpl. rewrite lookup_insert_Some. intros [[_ <-]|[_ He]] Ha; [by rewrite awaits_acknowledged in Ha|left; by exists e'].
  - intros; left; by exists e'.
Qed.

Definition escalation_inv (s : incident_state) : Prop :=
  store_ok (is_store s)
  ∧ ∀ id e, st_events (is_store s) !! id = Some e → awaits_ack e = true → escalating s id (be_severity e).

Lemma step_escalation_inv s now s' : escalation_inv s → incident_step cfg sweeps s now s' → escalation_inv s'.
Proof.
  intros [Hok Hinv] Hs. split; [by eapply step_store_ok|]. intros id e' He' Ha'.
  destruct (step_event _ _ _ _ _ Hok Hs He' Ha') as [(e & He & Ha & <- & _)|(up & -> & <- & _)].
  2:{ exists 0%nat. split; [intros; lia|]. right. eexists. simpl.
      apply andb_prop in Ha' as [-> _]. split; [apply elem_of_app; right; by apply list_elem_of_singleton|done]. }
  specialize (Hinv _ _ He Ha).
  destruct Hs as [now' x up Hf _ _ Hc| now' bf t af Ht _|now' id' b|now' _].
  - eapply escalating_mono, Hinv; [done|]. simpl. intros t Ht. destruct (requires_acknowledgment x); [|done].
    apply elem_of_app. by left.
  - set (s0 := Incidents (is_store s) (bf ++ af)%list (is_sent s) (is_dashboard s)) in *.
    destruct Hinv as (k & Hk & Ht'). destruct (decide (tk_event t = id ∧ tk_stage t = k)) as [[Hi <-]|Hne].
    + rewrite Hi. apply process_advances; [done..| |done]. by apply andb_prop in Ha as [_ ?%bool_decide_eq_true].
    + eapply escalating_mono; [apply process_mono..|]. exists k. split; [done|].
      destruct Ht' as [?|(t' & Hin & Hi & Hsk)]; [by left|right]. exists t'. split; [|done]. simpl.
      rewrite Ht in Hin. apply elem_of_app. apply elem_of_app in Hin as [?|Hin]; [by left|].
      apply elem_of_cons in Hin as [-> |?]; [tauto|by right].
  - unfold acknowledge_incident. destruct (acknowledge _ _ _ _). eapply escalating_mono, Hinv; done.
  - eapply escalating_mono, Hinv; [done|]. simpl. intros t Ht. apply elem_of_app. by left.
Qed.


(** ** Timing *)

(** Seconds from the creation of an event to its stage [k]. *)
Definition due (sev : Severity) (k : nat) : Z := foldr Z.add 0 (delay_seconds <$> take (S k) (stages sev)).

Lemma due_next sev k st : stages sev !! S k = Some st → due sev (S k) = due sev k + delay_seconds st.
Proof. destruct sev, k as [|[|k]]; simpl; intros [= <-]; simpl; unfold due; simpl; lia. Qed.

Definition not_before (s : incident_state) (id : string) (k : nat) (at_ : Z) : Prop :=
  ∃ e, st_events (is_store s) !! id = Some e ∧ utc_us (be_created_at e) + 1000000 * due (be_severity e) k <= at_.

Lemma step_keeps_event s now s' id e :
  store_ok (is_store s) → incident_step cfg sweeps s now s' → st_events (is_store s) !! id = Some e →
  ∃ e', st_events (is_store s') !! id = Some e' ∧ be_severity e' = be_severity e ∧ be_created_at e' = be_created_at e.
Proof.
  intros Hok Hs He. destruct Hs as [now' x up Hf _ _ Hc| now' bf t af Ht _|now' id' b|now' _].
  - exists e. simpl. by rewrite lookup_insert_ne; [|intros E; congruence].
  - match goal with |- context [_process_stage _ ?s0 ?i ?k ?n] => destruct (process_store s0 i k n) as [Eq|Eq]; rewrite Eq end;
      [by exists e|]. unfold update_escalation_stage. simpl. destruct (st_events (is_store s) !! tk_event t) as [x|] eqn:Hx; [|by exists e].
    simpl. rewrite (so_id _ Hok _ _ Hx). destruct (decide (tk_event t = id)) as [<-|Hne].
    + rewrite lookup_insert_eq. eexists. split; [done|]. by simplify_eq.
    + rewrite lookup_insert_ne; [|done]. by exists e.
  - unfold acknowledge_incident, acknowledge. destruct (st_events (is_store s) !! id') as [x|] eqn:Hx; [|by exists e].
    simpl. rewrite (so_id _ Hok _ _ Hx). destruct (decide (id' = id)) as [<-|Hne].
    + rewrite lookup_insert_eq. eexists. split; [done|]. by simplify_eq.
    + rewrite lookup_insert_ne; [|done]. by exists e.
  - by exists e.
Qed.

Lemma step_not_before s now s' id k at_ :
  store_ok (is_store s) → incident_step cfg sweeps s now s' → not_before s id k at_ → not_before s' id k at_.
Proof.
  intros Hok Hs (e & He & Hb). destruct (step_keeps_event _ _ _ _ _ Hok Hs He) as (e' & He' & Hsv & Hc).
  exists e'. by rewrite Hsv Hc.
Qed.

Definition in_time (s : incident_state) (m : message) : Prop :=
  ∃ e k st, st_events (is_store s) !! ms_event m = Some e ∧ stages (be_severity e) !! k = Some st
    ∧ ms_channel m ∈ channels st ∧ not_before s (ms_event m) k (ms_at m).

Definition timing_inv (s : incident_state) : Prop :=
  store_ok (is_store s)
  ∧ (∀ t, t ∈ is_tasks s → not_before s (tk_event t) (tk_stage t) (tk_eta t))
  ∧ (∀ m, m ∈ is_sent s → in_time s m).

Lemma step_in_time s now s' m :
  store_ok (is_store s) → incident_step cfg sweeps s now s' → in_time s m → in_time s' m.
Proof.
  intros Hok Hs (e & k & st & He & Hst & Hc & Hb). destruct (step_keeps_event _ _ _ _ _ Hok Hs He) as (e' & He' & Hsv & _).
  exists e', k, st. rewrite Hsv. split_and!; [done..|]. by eapply step_not_before.
Qed.

(** What running a task adds: the messages of its stage and the next task. *)
Lemma process_adds s id k now :
  (∀ m, m ∈ is_sent (_process_stage cfg s id k now) → m ∈ is_sent s
     ∨ ∃ e st, st_events (is_store s) !! id = Some e ∧ stages (be_severity e) !! k = Some st
               ∧ ms_event m = be_event_id e ∧ ms_channel m ∈ channels st ∧ ms_at m = utc_us now)
  ∧ (∀ t, t ∈ is_tasks (_process_stage cfg s id k now) → t ∈ is_tasks s
     ∨ ∃ e st, st_events (is_store s) !! id = Some e ∧ stages (be_severity e) !! S k = Some st
               ∧ t = Task id (S k) (utc_us now + delay_seconds st * 1000000)).
Proof.
  unfold _process_stage. destruct (st_events (is_store s) !! id) as [e|]; [|by split; left].
  case_match; [by split; left|]. destruct (stages (be_severity e) !! k) as [st|] eqn:Hst; [|by split; left]. simpl. split.
  - intros m [?|Hm]%elem_of_app; [by left|right]. exists e, st.
    unfold _dispatch_channels in Hm. apply list_elem_of_fmap in Hm as (c & -> & Hc).
    apply list_elem_of_In, filter_In in Hc as [_ [Hc%bool_decide_eq_true _]%andb_prop]. done.
  - intros t. destruct (stages (be_severity e) !! S k) as [next|] eqn:Hn; [|by left].
    intros [?|Ht%list_elem_of_singleton]%elem_of_app; [by left|right]. by exists e, next.
Qed.

Lemma step_timing_inv s now s' :
  sweeps = false → timing_inv s → incident_step cfg sweeps s now s' → timing_inv s'.
Proof.
  intros Hsw (Hok & Ht & Hm) Hs. pose proof (step_store_ok _ _ _ Hok Hs) as Hok'.
  assert (Hkt : ∀ t, t ∈ is_tasks s → not_before s' (tk_event t) (tk_stage t) (tk_eta t)).
  { intros t Hin. exact (step_not_before _ _ _ _ _ _ Hok Hs (Ht t Hin)). }
  assert (Hkm : ∀ m, m ∈ is_sent s → in_time s' m) by (intros m Hin; exact (step_in_time _ _ _ _ Hok Hs (Hm m Hin))).
  split; [done|]. destruct Hs as [now' x up Hf _ _ Hc| now' bf t af Htk Hle|now' id' b|now' Hsw']; [| | |congruence].
  - split; [|done]. intros t. simpl. destruct (requires_acknowledgment x); [|apply Hkt].
    intros [?|Heq%list_elem_of_singleton]%elem_of_app; [by apply Hkt|]. subst t. exists x. simpl. rewrite lookup_insert_eq.
    split; [done|]. rewrite Hc. unfold due. destruct (be_severity x); simpl; lia.
  - set (s0 := Incidents (is_store s) (bf ++ af)%list (is_sent s) (is_dashboard s)) in *.
    destruct (process_adds s0 (tk_event t) (tk_stage t) now') as [Ham Hat].
    destruct (Ht t) as (e & He & Hb); [rewrite Htk; apply elem_of_app; right; left|].
    destruct (step_keeps_event s now' _ (tk_event t) e Hok (step_task cfg sweeps s now' bf t af Htk Hle) He) as (e' & He' & Hsv & Hcr).
    split.
    + intros t' Hin'. destruct (Hat _ Hin') as [Hin|(x & st & Hx & Hst & ->)].
      * apply Hkt. rewrite Htk. simpl in Hin. apply elem_of_app in Hin as [?|?]; apply elem_of_app; [by left|by right; right].
      * simpl in Hx. replace x with e in * by congruence. exists e'. split; [done|]. simpl.
        rewrite Hsv Hcr (due_next _ _ _ Hst). lia.
    + intros m Hin'. destruct (Ham _ Hin') as [Hin|(x & st & Hx & Hst & Hi & Hch & Hat')]; [by apply Hkm|].
      simpl in Hx. replace x with e in * by congruence. rewrite (so_id _ Hok _ _ He) in Hi.
      exists e', (tk_stage t), st. rewrite Hi Hsv. split_and!; [done..|]. exists e'. rewrite Hsv Hcr Hat'. split; [done|lia].
  - unfold acknowledge_incident in *. by destruct (acknowledge _ _ _ _).
Qed.
End engine.

(** While only the chain of tasks runs, nobody is alerted before the time:
    every message about an event goes through a channel of one of its stages,
    not before the delays up to that stage have passed since the event was
    raised; in particular a critical event does not reach PagerDuty before its
    acknowledgment deadline. *)
Theorem no_early_page cfg s m :
  rtc (any_step cfg false) no_incidents s → m ∈ is_sent s →
  in_time cfg s m
  ∧ ∀ e, st_events (is_store s) !! ms_event m = Some e → be_severity e = CRITICAL → ms_channel m = PagerDuty →
      utc_us (be_created_at e) + 1000000 * critical_ack_deadline_seconds cfg <= ms_at m.
Proof.
  intros Hr Hm. assert (H : timing_inv cfg s).
  { revert Hr. apply (reach_invariant _ (timing_inv cfg)).
    - intros a b H [now Hs]. by eapply step_timing_inv.
    - split_and!; [apply empty_store_ok|by intros ? ?%elem_of_nil..]. }
  destruct H as (_ & _ & H). specialize (H _ Hm). split; [done|]. intros e He Hsv Hc.
  destruct H as (e' & k & st & He' & Hst & Hch & (e'' & He'' & Hb)). simplify_eq. rewrite Hsv in Hst, Hb. rewrite Hc in Hch.
  destruct k as [|[|[|k]]]; simpl in Hst; simplify_eq; simpl in Hch; [set_solver..|]. unfold due in Hb. simpl in Hb. lia.
Qed.

(** ** From evaluations to alerts *)
Lemma raise_other s e up now id :
  id ≠ be_event_id e → st_events (is_store (raise_breach_event s e up now)) !! id = st_events (is_store s) !! id.
Proof. intros H. simpl. by rewrite lookup_insert_ne. Qed.

Lemma breach_of_shape t result id now o e :
  breach_of t result id now o = Some e →
  be_event_id e = id ∧ be_ack_status e = ACK_PENDING ∧ be_escalation_stage e = 0 ∧ be_created_at e = now
  ∧ requires_acknowledgment e = true.
Proof. unfold breach_of. destruct (_outcome_result o); [done|intros [= <-]; done..]. Qed.

(** The id drawn for an outcome. *)
Definition drawn (x : PolicyOutcome * string * health) : string := x.1.2.

Lemma raise_events_keep t result now os s id :
  id ∉ drawn <$> os →
  st_events (is_store (_raise_breach_events s t result now os)) !! id = st_events (is_store s) !! id
  ∧ (∀ x, x ∈ is_tasks s → x ∈ is_tasks (_raise_breach_events s t result now os)).
Proof.
  intros Hni. revert s. induction os as [|[[o i] h] os IH]; intros s; [done|]. simpl in *.
  apply not_elem_of_cons in Hni as [Hne Hni].
  destruct (breach_of t result i now o) as [b|] eqn:Hb; [|by apply IH].
  destruct (breach_of_shape _ _ _ _ _ _ Hb) as (Hi & _ & _ & _ & Hr).
  destruct (IH Hni (raise_with h s b now)) as [-> Ht]. split.
  - destruct h; simpl; rewrite ?lookup_insert_ne ?Hi; done.
  - intros x Hx. apply Ht. destruct h; simpl; [rewrite Hr; apply elem_of_app; by left|done..].
Qed.

(** Every evaluation alerts: when the services are up, the outcomes of an
    evaluation that are violated or undecided (and no others) have an event in
    the store under the id drawn for them, critical for a violation and a warning
    for an undecided policy, with its first escalation stage scheduled; the state
    so obtained is one the engine reaches by its own steps, so that what is shown
    of those states holds of it. *)
Theorem violations_alert cfg sweeps s t result now (os : list (PolicyOutcome * string * health)) :
  let s' := _raise_breach_events s t result now os in
  NoDup (drawn <$> os) → (∀ o id h, (o, id, h) ∈ os → st_events (is_store s) !! id = None ∧ ∃ up, h = Up up) →
  rtc (any_step cfg sweeps) s s'
  ∧ ∀ o id h, (o, id, h) ∈ os →
      st_events (is_store s') !! id = breach_of t result id now o
      ∧ (_outcome_result o ≠ PASS → Task id 0 (utc_us now) ∈ is_tasks s').
Proof.
  simpl. revert s. induction os as [|[[o i] h] os IH]; intros s Hnd Hall; [split; [done|by intros ??? ?%elem_of_nil]|].
  simpl in *. apply NoDup_cons in Hnd as [Hni Hnd].
  destruct (Hall o i h) as [Hfresh [up ->]]; [by left|].
  set (s1 := match breach_of t result i now o with Some e => raise_with (Up up) s e now | None => s end).
  assert (H1 : rtc (any_step cfg sweeps) s s1 ∧ st_events (is_store s1) !! i = breach_of t result i now o
               ∧ (_outcome_result o ≠ PASS → Task i 0 (utc_us now) ∈ is_tasks s1)
               ∧ ∀ j, j ≠ i → st_events (is_store s1) !! j = st_events (is_store s) !! j).
  { unfold s1. destruct (breach_of t result i now o) as [b|] eqn:Hb.
    - destruct (breach_of_shape _ _ _ _ _ _ Hb) as (Hi & Hst & Hz & Hc & Hr). simpl. split_and!.
      + apply rtc_once. exists now. apply step_raise; [by rewrite Hi|done..].
      + by rewrite Hi lookup_insert_eq.
      + intros _. rewrite Hr Hi. apply elem_of_app. right. by apply list_elem_of_singleton.
      + intros j Hj. by rewrite lookup_insert_ne ?Hi.
    - split_and!; [done..| |done]. unfold breach_of in Hb. by destruct (_outcome_result o). }
  destruct H1 as (Hr1 & Hg1 & Ht1 & Ho1).
  destruct (IH s1) as [Hr2 H2]; [done| |].
  { intros o' id' h' Hin. destruct (Hall o' id' h') as [Hf Hu]; [by right|]. split; [|done].
    rewrite Ho1; [done|]. intros ->. apply Hni. apply list_elem_of_fmap. by exists (o', i, h'). }
  split; [by etrans|]. intros o' id' h' [[= -> -> ->]|Hin]%elem_of_cons; [|by eapply H2].
  destruct (raise_events_keep t result now os s1 i Hni) as [-> Hk].
  split; [done|]. intros Hp. by apply Hk, Ht1.
Qed.

(** ** A run of the engine *)
Definition seconds (n : Z) : datetime := Datetime (n * 1000000) (Some 0).
Definition default_cfg : IncidentSettings := ISettings 900 300 1800 (λ _, true).

Definition i_event : BreachEvent :=
  new_breach "ev-1" (seconds 0) CRITICAL CLAUSE_VIOLATION "Clause violation" "margin" (Some "broker-1") (Some "tx-1")
    (Some "rule-1") None None None [].
Definition i_raised : incident_state := raise_breach_event no_incidents i_event true (seconds 0).
Definition drop_task (s : incident_state) (n : nat) : incident_state :=
  Incidents (is_store s) (take n (is_tasks s) ++ drop (S n) (is_tasks s))%list (is_sent s) (is_dashboard s).
(** Running the [n]-th task of the queue. *)
Definition run_task (s : incident_state) (n : nat) (now : datetime) : incident_state :=
  match is_tasks s !! n with
  | Some t => _process_stage default_cfg (drop_task s n) (tk_event t) (tk_stage t) now
  | None => s
  end.

Lemma run_task_step sweeps s n now t :
  is_tasks s !! n = Some t → tk_eta t <= utc_us now → any_step default_cfg sweeps s (run_task s n now).
Proof.
  intros Ht Hle. exists now. unfold run_task. rewrite Ht. apply step_task; [|done]. symmetry. by apply take_drop_middle.
Qed.

Lemma raised_step sweeps : any_step default_cfg sweeps no_incidents i_raised.
Proof. exists (seconds 0). by apply step_raise. Qed.

(** Raised, first stage at once, second after five minutes, third after fifteen. *)
Definition i_paged : incident_state :=
  run_task (run_task (run_task i_raised 0 (seconds 0)) 0 (seconds 300)) 0 (seconds 900).

Lemma paged_reached : rtc (any_step default_cfg false) no_incidents i_paged.
Proof.
  eapply rtc_l; [apply raised_step|].
  eapply rtc_l; [apply (run_task_step _ _ 0 (seconds 0) (Task "ev-1" 0 0)); [by vm_compute|done]|].
  eapply rtc_l; [apply (run_task_step _ _ 0 (seconds 300) (Task "ev-1" 1 300000000)); [by vm_compute|done]|].
  eapply rtc_l; [apply (run_task_step _ _ 0 (seconds 900) (Task "ev-1" 2 900000000)); [by vm_compute|done]|]. done.
Qed.

Lemma any_step_sweeps s s' : any_step default_cfg false s s' → any_step default_cfg true s s'.
Proof. intros [now H]. exists now. destruct H; by econstructor. Qed.

Lemma paged_reached' : rtc (any_step default_cfg true) no_incidents i_paged.
Proof. eapply rtc_subrel; [|apply paged_reached]. intros; by apply any_step_sweeps. Qed.

Lemma paged_event : st_events (is_store i_paged) !! "ev-1" = Some (at_stage i_event 2).
Proof. by vm_compute. Qed.

Lemma pending_breaches_witness :
  at_stage i_event 2 ∈ list_pending_ack (is_store i_paged) None (seconds 900).
Proof.
  destruct (pending_breaches_exact default_cfg true i_paged (seconds 900) paged_reached') as (_ & H & _).
  apply H. exact (conj paged_event eq_refl).
Defined.

Lemma acknowledged_stops_witness :
  messages_of "ev-1" (acknowledge_incident default_cfg i_paged "ev-1" "officer" (seconds 901)).1 = messages_of "ev-1" i_paged.
Proof.
  apply (acknowledged_stops_escalation default_cfg true i_paged "ev-1" "officer" (seconds 901) _ paged_reached').
  - rewrite paged_event. by eexists.
  - apply rtc_refl.
Defined.


Lemma paged_messages : Message "ev-1" PagerDuty 900000000 ∈ is_sent i_paged.
Proof. apply list_elem_of_In. vm_compute. tauto. Qed.

Lemma no_early_page_witness : in_time default_cfg i_paged (Message "ev-1" PagerDuty 900000000).
Proof. exact (proj1 (no_early_page default_cfg i_paged _ paged_reached paged_messages)). Defined.

Definition i_tx : TransactionPayload := Transaction "tx-9" "Stockbroker" [] REST_SYNC (Some "broker-1") None (seconds 0) [].
Definition i_outcome (b : option bool) : PolicyOutcome :=
  Outcome "rule-9" "pkg" b ["margin 10 below 20"] None None None None None None None None.
Definition i_result : EvaluationResult :=
  EvalResult "tx-9" DENY [i_outcome (Some false); i_outcome (Some true)] [] None (seconds 0).
Definition i_logged : incident_state :=
  _raise_breach_events no_incidents i_tx i_result (seconds 0)
    [(i_outcome (Some false), "a", Up true); (i_outcome (Some true), "b", Up false)].

Lemma violations_alert_witness :
  st_events (is_store i_logged) !! "a" = Some (clause_violation_event "a" (seconds 0) i_tx i_result (i_outcome (Some false)))
  ∧ st_events (is_store i_logged) !! "b" = None.
Proof.
  destruct (violations_alert default_cfg true no_incidents i_tx i_result (seconds 0)
              [(i_outcome (Some false), "a", Up true); (i_outcome (Some true), "b", Up false)]) as [_ H].
  - simpl. apply NoDup_cons. split; [rewrite list_elem_of_singleton; discriminate|apply NoDup_singleton].
  - intros o id h Hin. split; [apply lookup_empty|]. apply elem_of_cons in Hin as [[= -> -> ->]|Hin]; [by eexists|].
    apply list_elem_of_singleton in Hin as [= -> -> ->]. by eexists.
  - split; [exact (proj1 (H (i_outcome (Some false)) "a" (Up true) (list_elem_of_here _ _)))|].
    exact (proj1 (H (i_outcome (Some true)) "b" (Up false) (list_elem_of_further _ _ _ (list_elem_of_here _ _)))).
Defined.

(** ** What the sweep does *)
Definition i_swept : incident_state :=
  let s := run_task i_raised 0 (seconds 0) in
  let s := run_task (_sweep default_cfg s (seconds 300)) 0 (seconds 300) in
  run_task (_sweep default_cfg s (seconds 360)) 2 (seconds 360).

(** The sweep advances an unacknowledged event by one stage each time it runs,
    without looking at when that stage is due: with the default settings and one
    sweep a minute, PagerDuty is called six minutes after the breach, not
    fifteen. *)
Lemma sweep_pages_early :
  rtc (any_step default_cfg true) no_incidents i_swept ∧ Message "ev-1" PagerDuty 360000000 ∈ is_sent i_swept.
Proof.
  split; [|apply list_elem_of_In; vm_compute; tauto].
  eapply rtc_l; [apply raised_step|].
  eapply rtc_l; [apply (run_task_step _ _ 0 (seconds 0) (Task "ev-1" 0 0)); [by vm_compute|done]|].
  eapply rtc_l; [exists (seconds 300); by apply step_sweep|].
  eapply rtc_l; [apply (run_task_step _ _ 0 (seconds 300) (Task "ev-1" 1 300000000)); [by vm_compute|done]|].
  eapply rtc_l; [exists (seconds 360); by apply step_sweep|].
  eapply rtc_l; [apply (run_task_step _ _ 2 (seconds 360) (Task "ev-1" 2 360000000)); [by vm_compute|done]|]. done.
Qed.

(** When the broker loses the first task, the sweep resumes after stage 0 as if
    it had been sent: Slack and e-mail never hear of the breach. *)
Lemma lost_first_task_skipped :
  let s := run_task (_sweep default_cfg (drop_task i_raised 0) (seconds 300)) 0 (seconds 300) in
  let s := run_task s 0 (seconds 900) in
  map ms_channel (is_sent s) = [Sms; PagerDuty] ∧ is_tasks s = [].
Proof. by vm_compute. Qed.

(** Acknowledging again replaces the name of who acknowledged first. *)
Lemma second_acknowledgment_replaces s id e b b' now now' :
  st_events s !! id = Some e → be_event_id e = id →
  (λ e, be_acknowledged_by e) <$> (acknowledge (acknowledge s id b now).1 id b' now').2 = Some (Some b').
Proof. intros He Hid. unfold acknowledge at 2. rewrite He /=. unfold acknowledge. by rewrite /= Hid lookup_insert_eq. Qed.

(** A limit of zero lists every recent event. *)
Lemma limit_zero_lists_all s :
  list_recent s 0 = omap (λ id, st_events s !! id) (st_recent s).
Proof.
  unfold list_recent, lrange. f_equal. simpl. replace (Z.to_nat _) with (length (st_recent s)) by lia. apply firstn_all.
Qed.
