(* ===== verification/FilingReport.v ===== *)
(** * What is filed with the regulator

    [src/app/regulatory_filing/schemas.py] and [collateral_aggregator.py]: the
    compliance log and the daily collateral report, both read from the audit
    ledger.  A date is its day number in the calendar of [Datetime]. *)
From S2P Require Import Prelude PyStr PyFloat Sha256 Json JsonFacts Datetime Ledger ExecModels JsonLogic Backtest.

Open Scope string_scope.
Open Scope Z_scope.

(** ** [schemas.py] *)
Inductive FilingType := COMPLIANCE_LOG | DAILY_COLLATERAL.
Definition filing_type_value (t : FilingType) : string :=
  match t with COMPLIANCE_LOG => "compliance_log" | DAILY_COLLATERAL => "daily_collateral" end.

Inductive FilingTarget := SEBI | NSE | BSE | NSDL | CDSL.
Definition target_value (t : FilingTarget) : string :=
  match t with SEBI => "SEBI" | NSE => "NSE" | BSE => "BSE" | NSDL => "NSDL" | CDSL => "CDSL" end.

Record FilingHeader := Header
  { fh_filing_id : string
  ; fh_filing_type : FilingType
  ; fh_target : FilingTarget
  ; fh_reporting_entity_code : string
  ; fh_period_start : Z
  ; fh_period_end : Z
  ; fh_generated_at : datetime
  ; fh_record_count : Z
  ; fh_content_sha256 : string }.

Record ComplianceLogRecord := LogRecord
  { cl_sequence_num : Z
  ; cl_broker_id : string
  ; cl_transaction_id : string
  ; cl_evaluated_at : datetime
  ; cl_circular_id : string
  ; cl_clause_hash : string
  ; cl_section_reference : string
  ; cl_rule_id : string
  ; cl_evaluation_result : string
  ; cl_ledger_current_hash : string }.

Record ComplianceLogFiling := LogFiling { lf_header : FilingHeader; lf_records : list ComplianceLogRecord }.

Record CollateralMetricRecord := MetricRecord
  { cm_report_date : Z
  ; cm_broker_id : string
  ; cm_transactions_evaluated : Z
  ; cm_transactions_passed : Z
  ; cm_transactions_failed : Z
  ; cm_transactions_flagged_hitl : Z
  ; cm_avg_upfront_margin_pct : option spec_float
  ; cm_min_upfront_margin_pct : option spec_float
  ; cm_shortfall_count : Z }.

Record CollateralReportFiling := CollateralFiling { cf_header : FilingHeader; cf_records : list CollateralMetricRecord }.

(** ** [model_dump(mode="json")] *)
(** A moment: the wall clock and the offset, [Z] for UTC, nothing for a naive one. *)
Definition json_offset (o : option Z) : string :=
  match o with
  | None => ""
  | Some off =>
      if off =? 0 then "Z"
      else (if off <? 0 then "-" else "+") +:+ dig 2 (Z.abs off / 3600000000) +:+ ":" +:+ dig 2 (Z.abs off / 60000000 mod 60)
  end.

Definition json_datetime (d : datetime) : string :=
  let '(y, m, day) := civil (dt_wall d / us_per_day) in
  dig 4 y +:+ "-" +:+ dig 2 m +:+ "-" +:+ dig 2 day +:+ "T" +:+ iso_time (dt_wall d mod us_per_day) (json_offset (dt_offset d)).

Definition json_date (day : Z) : string :=
  let '(y, m, d) := civil day in dig 4 y +:+ "-" +:+ dig 2 m +:+ "-" +:+ dig 2 d.

Definition log_record_json (r : ComplianceLogRecord) : json :=
  JObj [ ("sequence_num", JInt (cl_sequence_num r)); ("broker_id", JStr (cl_broker_id r));
         ("transaction_id", JStr (cl_transaction_id r)); ("evaluated_at", JStr (json_datetime (cl_evaluated_at r)));
         ("circular_id", JStr (cl_circular_id r)); ("clause_hash", JStr (cl_clause_hash r));
         ("section_reference", JStr (cl_section_reference r)); ("rule_id", JStr (cl_rule_id r));
         ("evaluation_result", JStr (cl_evaluation_result r));
         ("ledger_current_hash", JStr (cl_ledger_current_hash r)) ].

(** A float that JSON cannot write is dumped as null. *)
Definition json_float_field (o : option spec_float) : json :=
  match o with Some (S754_nan | S754_infinity _) | None => JNull | Some f => JFloat f end.

Definition metric_record_json (r : CollateralMetricRecord) : json :=
  JObj [ ("report_date", JStr (json_date (cm_report_date r))); ("broker_id", JStr (cm_broker_id r));
         ("transactions_evaluated", JInt (cm_transactions_evaluated r));
         ("transactions_passed", JInt (cm_transactions_passed r));
         ("transactions_failed", JInt (cm_transactions_failed r));
         ("transactions_flagged_hitl", JInt (cm_transactions_flagged_hitl r));
         ("avg_upfront_margin_pct", json_float_field (cm_avg_upfront_margin_pct r));
         ("min_upfront_margin_pct", json_float_field (cm_min_upfront_margin_pct r));
         ("shortfall_count", JInt (cm_shortfall_count r)) ].

(** ** [collateral_aggregator.py] *)
Definition _MARGIN_VIOLATION_MARKER : string := "Margin".

Definition _content_sha256 (records : list json) : string := sha256_hex (dumps (JList records)).

(** [combine(start, time.min)] up to [combine(end, time.max)] *)
Definition in_period (period_start period_end : Z) (row : LedgerEntry) : bool :=
  let us := utc_us (evaluated_at (fields row)) in
  (period_start * us_per_day <=? us) && (us <=? period_end * us_per_day + (us_per_day - 1)).

Definition log_record_of (row : LedgerEntry) : ComplianceLogRecord :=
  let f := fields row in
  LogRecord (sequence_num row) (broker_id f) (transaction_id f) (evaluated_at f) (circular_id f) (clause_hash f)
    (section_reference f) (rule_id f) (evaluation_result f) (current_hash row).

Definition collect_compliance_log_filing (ledger : ledger_table) (period_start period_end : Z)
    (reporting_entity_code : string) (target : FilingTarget) (new_id : string) (now : datetime) : ComplianceLogFiling :=
  let records := map log_record_of (order_by_seq (List.filter (in_period period_start period_end) (rows ledger))) in
  LogFiling
    (Header new_id COMPLIANCE_LOG target reporting_entity_code period_start period_end now (Z.of_nat (length records))
       (_content_sha256 (map log_record_json records)))
    records.

(** [float(margin)] when it is a number *)
Definition margin_of (facts : list (string * json)) : res backtest_error (option spec_float) :=
  match obj_get "upfront_margin_pct" facts with
  | Some (JInt z) => float_of_int z
  | Some (JBool b) => Ok (Some (float_of_Z (if b then 1 else 0)))
  | Some (JFloat f) => Ok (Some f)
  | _ => Ok None
  end.

(** [_MARGIN_VIOLATION_MARKER in v] *)
Definition mentions_margin (v : json) : res backtest_error bool :=
  match v with
  | JStr s => Ok (contains _MARGIN_VIOLATION_MARKER s)
  | JList l => Ok (existsb (is_text _MARGIN_VIOLATION_MARKER) l)
  | JObj l => Ok (existsb (λ kv, String.eqb kv.1 _MARGIN_VIOLATION_MARKER) l)
  | _ => Raise BadRow
  end.

Fixpoint any_margin (vs : list json) : res backtest_error bool :=
  match vs with
  | [] => Ok false
  | v :: vs' => res_bind (mentions_margin v) (λ b, if b then Ok true else any_margin vs')
  end.

(** [details.get("violations") or []], iterated: a text gives its characters *)
Definition shortfall_of (details : list (string * json)) : res backtest_error bool :=
  match obj_get "violations" details with
  | Some (JList l) => any_margin l
  | Some (JObj l) => any_margin (map (λ kv, JStr kv.1) l)
  | Some (JStr _) | None => Ok false
  | Some j => if py_truthy j then Raise BadRow else Ok false
  end.

(** What one row adds to the bucket of its broker. *)
Record row_metric := Metric
  { rm_broker : string; rm_result : string; rm_margin : option spec_float; rm_shortfall : bool }.

Definition metric_of (row : LedgerEntry) : res backtest_error row_metric :=
  let f := fields row in
  res_bind (details_of (details f)) (λ d,
  res_bind (details_of (default JNull (obj_get "facts" d))) (λ facts,
  res_bind (margin_of facts) (λ margin,
  res_bind (if String.eqb (evaluation_result f) "FAIL" then shortfall_of d else Ok false) (λ shortfall,
  Ok (Metric (broker_id f) (evaluation_result f) margin shortfall))))).

(** [sum(floats)]: the compensated sum of CPython 3.12. *)
Fixpoint sum_from (total c : spec_float) (l : list spec_float) : spec_float :=
  match l with
  | [] => match c with
          | S754_zero _ | S754_infinity _ | S754_nan => total
          | _ => float_add total c
          end
  | x :: l' =>
      let t := float_add total x in
      let c' := if flt_leb (SFabs x) (SFabs total)
                then float_add c (float_add (float_sub total t) x)
                else float_add c (float_add (float_sub x t) total) in
      sum_from t c' l'
  end.
Definition py_sum (l : list spec_float) : spec_float :=
  match l with [] => float_of_Z 0 | x :: l' => sum_from (float_add (float_of_Z 0) x) (float_of_Z 0) l' end.

(** [min(l)]: the first of the smallest *)
Definition py_min (x : spec_float) (l : list spec_float) : spec_float :=
  fold_left (λ m y, if SFltb y m then y else m) l x.

Definition has_result (r : string) (m : row_metric) : bool := String.eqb (rm_result m) r.

Definition metric_record (report_date : Z) (ms : list row_metric) (broker : string) : CollateralMetricRecord :=
  let b := List.filter (λ m, String.eqb (rm_broker m) broker) ms in
  let margins := omap rm_margin b in
  MetricRecord report_date broker (Z.of_nat (length b)) (count_if (has_result "PASS") b) (count_if (has_result "FAIL") b)
    (count_if (has_result "HITL_REVIEW") b)
    (match margins with [] => None | _ => Some (float_div (py_sum margins) (float_of_Z (Z.of_nat (length margins)))) end)
    (match margins with [] => None | x :: l => Some (py_min x l) end)
    (count_if rm_shortfall b).

Definition metric_brokers (ms : list row_metric) : list string := sort_by String.leb (remove_dups (map rm_broker ms)).

(** Rows of one broker come in the order of the table. *)
Definition collect_daily_collateral_filing (ledger : ledger_table) (report_date : Z) (reporting_entity_code : string)
    (target : FilingTarget) (new_id : string) (now : datetime) : res backtest_error CollateralReportFiling :=
  res_bind (res_mapM metric_of (List.filter (in_period report_date report_date) (rows ledger))) (λ ms,
  let records := map (metric_record report_date ms) (metric_brokers ms) in
  Ok (CollateralFiling
        (Header new_id DAILY_COLLATERAL target reporting_entity_code report_date report_date now
           (Z.of_nat (length records)) (_content_sha256 (map metric_record_json records)))
        records)).

Example sum_examples :
  map float_repr [py_sum [decimal 1 1; decimal 1 1; decimal 1 1; decimal 1 1; decimal 1 1; decimal 1 1; decimal 1 1;
                          decimal 1 1; decimal 1 1; decimal 1 1];
                  py_sum [decimal 1 1; decimal 2 1; decimal 3 1]; py_sum [float_of_Z (10 ^ 16); float_of_Z 1; float_of_Z (- 10 ^ 16)]]
  = ["1.0"; "0.6"; "1.0"].
Proof. by vm_compute. Qed.

(** * What the filings say of the ledger *)
From S2P Require Import LedgerFacts LedgerWitness BacktestFacts.

(** ** The compliance log *)
Lemma filter_seq_sorted t p :
  chain_ok t → order_by_seq (List.filter p (rows t)) = List.filter p (rows t).
Proof.
  intros Hc. apply merge_sort_key_id. pose proof (chain_from_sorted _ _ _ Hc) as Hs.
  induction Hs as [|x l Hs IH Hx]; [constructor|]. simpl. destruct (p x); [|done]. constructor; [done|].
  apply Forall_forall. intros y Hy. apply list_elem_of_In, filter_In in Hy as [Hy _].
  rewrite Forall_forall in Hx. by apply Hx, list_elem_of_In.
Qed.

Lemma count_split {A} (p q r : A → bool) l :
  (∀ x, p x = q x || r x) → (∀ x, q x && r x = false) →
  List.filter p l ≡ₚ (List.filter q l ++ List.filter r l)%list.
Proof.
  intros H1 H2. induction l as [|x l IH]; [done|]. simpl. rewrite H1. specialize (H2 x).
  destruct (q x), (r x); simpl in *; try done; rewrite IH; [done|]. by rewrite Permutation_middle.
Qed.

Lemma period_split a b c row :
  a <= b < c →
  in_period a c row = in_period a b row || in_period (b + 1) c row ∧ in_period a b row && in_period (b + 1) c row = false.
Proof.
  intros H. unfold in_period, us_per_day. generalize (utc_us (evaluated_at (fields row))). intros us.
  destruct (Z.leb_spec (a * 86400000000) us), (Z.leb_spec us (c * 86400000000 + (86400000000 - 1))),
    (Z.leb_spec us (b * 86400000000 + (86400000000 - 1))), (Z.leb_spec ((b + 1) * 86400000000) us); simpl; split; try done; lia.
Qed.

(** The compliance log filed for a period is the ledger of that period: the
    records are the rows evaluated on its days, one each, in the order of the
    chain and with the block hash by which the regulator can check them, the
    header counts them, and filings of adjacent periods split the rows between
    them, so that no evaluation is filed twice or falls between two days. *)
Theorem log_filing_exact t a b c code target new_id now :
  chain_ok t → a <= b < c →
  let records x y := lf_records (collect_compliance_log_filing t x y code target new_id now) in
  records a c = map log_record_of (List.filter (in_period a c) (rows t))
  ∧ fh_record_count (lf_header (collect_compliance_log_filing t a c code target new_id now)) = Z.of_nat (length (records a c))
  ∧ StronglySorted (λ r r', cl_sequence_num r < cl_sequence_num r') (records a c)
  ∧ records a c ≡ₚ (records a b ++ records (b + 1) c)%list.
Proof.
  intros Hc Habc. simpl. rewrite !filter_seq_sorted; [|done..]. split_and!; [done..| |].
  - pose proof (chain_from_sorted _ _ _ Hc) as Hs. induction Hs as [|x l Hs IH Hx]; [constructor|]. simpl.
    destruct (in_period a c x); [|done]. simpl. constructor; [done|]. apply Forall_forall. intros r Hr.
    apply list_elem_of_fmap in Hr as (y & -> & Hy). apply list_elem_of_In, filter_In in Hy as [Hy _].
    rewrite Forall_forall in Hx. by apply Hx, list_elem_of_In.
  - rewrite -map_app. apply Permutation_map, count_split; intros x; by apply period_split.
Qed.

(** ** The digest in the header *)
(** Moments as the database returns them. *)
Definition utc_moment (d : datetime) : Prop := dt_offset d = Some 0 ∧ in_calendar (utc_us d).

Lemma json_datetime_inj d d' :
  utc_moment d → utc_moment d' → json_datetime d = json_datetime d' → utc_us d = utc_us d'.
Proof.
  intros [Ho H1] [Ho' H2] H. apply iso_utc_inj; [done..|]. revert H. unfold json_datetime, iso_utc.
  unfold utc_us. rewrite Ho Ho'. cbn [default]. change (json_offset (Some 0)) with "Z". rewrite !Z.sub_0_r.
  destruct (civil (dt_wall d / us_per_day)) as [[y m] dd], (civil (dt_wall d' / us_per_day)) as [[y' m'] dd'].
  intros [Ey H]%sapp_inj_len; [|by rewrite !dig_length]. cbn [String.append] in H. apply scons_inj in H.
  apply sapp_inj_len in H as [Em H]; [|by rewrite !dig_length]. cbn [String.append] in H. apply scons_inj in H.
  apply sapp_inj_len in H as [Ed H]; [|by rewrite !dig_length]. cbn [String.append] in H. apply scons_inj in H.
  apply iso_time_inj in H; [|unfold us_per_day; zlia..]. by rewrite Ey Em Ed H.
Qed.

(** Records that agree, the moment of evaluation as an instant. *)
Definition same_log_record (r r' : ComplianceLogRecord) : Prop :=
  r' = LogRecord (cl_sequence_num r) (cl_broker_id r) (cl_transaction_id r) (cl_evaluated_at r') (cl_circular_id r)
         (cl_clause_hash r) (cl_section_reference r) (cl_rule_id r) (cl_evaluation_result r) (cl_ledger_current_hash r)
  ∧ utc_us (cl_evaluated_at r) = utc_us (cl_evaluated_at r').

Definition record_in_calendar (r : ComplianceLogRecord) : Prop := utc_moment (cl_evaluated_at r).

Lemma log_record_json_inj r r' :
  record_in_calendar r → record_in_calendar r' → jeq (log_record_json r) (log_record_json r') → same_log_record r r'.
Proof.
  intros H1 H2 H. unfold jeq, log_record_json in H.
  destruct r as [sq br tx at_ ci ch sr ru re lh], r' as [sq' br' tx' at' ci' ch' sr' ru' re' lh'].
  pose proof (json_datetime_inj _ _ H1 H2) as Hd. simpl in Hd.
  cbn -[json_datetime str_of_Z] in H. revert H Hd. generalize (json_datetime at_) (json_datetime at').
  intros j j' H Hd. injection H. intros. subst. match goal with E : str_of_Z _ = str_of_Z _ |- _ => apply (inj pretty) in E; subst end.
  split; [done|]. by apply Hd.
Qed.

Lemma cons_parts {A} (x y : A) l l' : x :: l = y :: l' → x = y ∧ l = l'.
Proof. by intros [= -> ->]. Qed.

Lemma log_records_inj l l' :
  Forall record_in_calendar l → Forall record_in_calendar l' →
  map canon (map log_record_json l) = map canon (map log_record_json l') → Forall2 same_log_record l l'.
Proof.
  intros Hl. revert l'. induction Hl as [|r l Hr Hl IH]; intros [|r' l'] Hl' E; try done.
  apply Forall_cons in Hl' as [Hr' Hl']. cbn [map] in E. apply cons_parts in E as [E1 E2].
  constructor; [|by apply IH]. by apply log_record_json_inj.
Qed.

(** The digest in the header of a compliance log identifies its records:
    two filings with the same digest hold the same records in the same order
    (moments compared as instants, in UTC as the database has them), unless SHA-256 collides on their texts. *)
Theorem log_digest_binds t t' a b a' b' code target i n code' target' i' n' :
  let f := collect_compliance_log_filing t a b code target i n in
  let f' := collect_compliance_log_filing t' a' b' code' target' i' n' in
  NoCollision [dumps (JList (map log_record_json (lf_records f))); dumps (JList (map log_record_json (lf_records f')))] →
  Forall record_in_calendar (lf_records f) → Forall record_in_calendar (lf_records f') →
  fh_content_sha256 (lf_header f) = fh_content_sha256 (lf_header f') →
  Forall2 same_log_record (lf_records f) (lf_records f').
Proof.
  simpl. set (l := map log_record_of _). set (l' := map log_record_of _). intros Hnc Hl Hl' H.
  assert (E : dumps (JList (map log_record_json l)) = dumps (JList (map log_record_json l')))
    by (apply Hnc; [by left|by right; left|exact H]).
  apply dumps_inj in E. unfold jeq in E. cbn [canon] in E. injection E as E.
  by apply log_records_inj.
Qed.

(** ** The daily collateral report *)
Lemma metric_brokers_spec ms :
  NoDup (metric_brokers ms) ∧ (∀ m, m ∈ ms → rm_broker m ∈ metric_brokers ms)
  ∧ StronglySorted (λ a b, String.leb a b = true) (metric_brokers ms).
Proof.
  unfold metric_brokers. split_and!.
  - rewrite stable_sort_perm. apply NoDup_remove_dups.
  - intros o Ho. rewrite stable_sort_perm. apply elem_of_remove_dups, list_elem_of_fmap. by exists o.
  - apply Sorted_StronglySorted; [intros x y z; apply skey_leb_trans|]. apply sort_by_sorted, String.leb_total.
Qed.

(** What a row can have: one of the three results; a shortfall only if it failed. *)
Lemma metric_of_row row m :
  metric_of row = Ok m →
  rm_broker m = broker_id (fields row) ∧ rm_result m = evaluation_result (fields row)
  ∧ (rm_shortfall m = true → rm_result m = "FAIL").
Proof.
  unfold metric_of. intros (d & _ & (f & _ & (mg & _ & (sh & Hs & [= <-])%res_bind_Ok)%res_bind_Ok)%res_bind_Ok)%res_bind_Ok.
  simpl. split_and!; [done..|]. intros ->. destruct (String.eqb_spec (evaluation_result (fields row)) "FAIL"); [done|].
  by injection Hs.
Qed.

Lemma count_if_le {A} (p q : A → bool) l : (∀ x, x ∈ l → p x = true → q x = true) → count_if p l <= count_if q l.
Proof.
  induction l as [|x l IH]; intros H; [done|]. rewrite !count_if_cons.
  assert (Z.b2z (p x) <= Z.b2z (q x)).
  { specialize (H x (list_elem_of_here _ _)). destruct (p x), (q x); simpl; lia. }
  specialize (IH (λ y Hy, H y (list_elem_of_further _ _ _ Hy))). lia.
Qed.

Lemma results_add_up l :
  (∀ m, m ∈ l → rm_result m = "PASS" ∨ rm_result m = "FAIL" ∨ rm_result m = "HITL_REVIEW") →
  count_if (has_result "PASS") l + count_if (has_result "FAIL") l + count_if (has_result "HITL_REVIEW") l = Z.of_nat (length l).
Proof.
  induction l as [|m l IH]; intros H; [done|]. rewrite !count_if_cons. simpl length.
  specialize (IH (λ y Hy, H y (list_elem_of_further _ _ _ Hy))). unfold has_result at 1 3 5.
  destruct (H m (list_elem_of_here _ _)) as [-> |[-> | ->]]; simpl; lia.
Qed.

(** The daily collateral report accounts for every evaluation of the day:
    each broker with an evaluation has one record, in order of their ids; the
    records of all brokers together count exactly the day's rows, as evaluated,
    passed, failed and flagged; within a record passed, failed and flagged make
    up the evaluated, and the shortfalls are among the failed. *)
Theorem collateral_totals t day code target new_id now f :
  collect_daily_collateral_filing t day code target new_id now = Ok f →
  let l := List.filter (in_period day day) (rows t) in
  let counted r := count_if (λ row, String.eqb (evaluation_result (fields row)) r) l in
  NoDup (map cm_broker_id (cf_records f))
  ∧ (∀ row, row ∈ l → broker_id (fields row) ∈ map cm_broker_id (cf_records f))
  ∧ sum_of cm_transactions_evaluated (cf_records f) = Z.of_nat (length l)
  ∧ sum_of cm_transactions_passed (cf_records f) = counted "PASS"
  ∧ sum_of cm_transactions_failed (cf_records f) = counted "FAIL"
  ∧ sum_of cm_transactions_flagged_hitl (cf_records f) = counted "HITL_REVIEW"
  ∧ Forall (λ r, 0 <= cm_shortfall_count r <= cm_transactions_failed r) (cf_records f)
  ∧ ((∀ row, row ∈ l → ∃ o, evaluation_result (fields row) = outcome_value o) →
     Forall (λ r, cm_transactions_passed r + cm_transactions_failed r + cm_transactions_flagged_hitl r
                  = cm_transactions_evaluated r) (cf_records f)).
Proof.
  unfold collect_daily_collateral_filing. intros (ms & Hms & [= <-])%res_bind_Ok. cbn [cf_records].
  apply res_mapM_Ok in Hms. set (l := List.filter _ _) in *.
  destruct (metric_brokers_spec ms) as (Hnd & Hin & _).
  assert (Hb : map cm_broker_id (map (metric_record day ms) (metric_brokers ms)) = metric_brokers ms)
    by (rewrite map_map /=; apply map_id).
  assert (Hcount : ∀ r, count_if (has_result r) ms = count_if (λ row, String.eqb (evaluation_result (fields row)) r) l).
  { intros r. clear -Hms. induction Hms as [|row m l ms Hm _ IH]; [done|]. rewrite !count_if_cons IH. unfold has_result.
    by destruct (metric_of_row _ _ Hm) as (_ & -> & _). }
  assert (Hlen : length ms = length l) by (symmetry; by eapply Forall2_length).
  assert (Hrow : ∀ m, m ∈ ms → ∃ row, row ∈ l ∧ metric_of row = Ok m).
  { intros m Hm. apply list_elem_of_lookup in Hm as [i Hi]. destruct (Forall2_lookup_r _ _ _ _ _ Hms Hi) as (row & Hr & E).
    exists row. split; [by eapply list_elem_of_lookup_2|done]. }
  assert (Hsum : ∀ p, sum_of (λ b, count_if p (List.filter (λ m, String.eqb (rm_broker m) b) ms)) (metric_brokers ms) = count_if p ms)
    by (intros p; by apply (grouped_count rm_broker)).
  split_and!.
  - by rewrite Hb.
  - intros row Hr. rewrite Hb. apply list_elem_of_lookup in Hr as [i Hi].
    destruct (Forall2_lookup_l _ _ _ _ _ Hms Hi) as (m & Hm & E). destruct (metric_of_row _ _ E) as (<- & _).
    apply Hin. by eapply list_elem_of_lookup_2.
  - rewrite sum_of_map /= -Hlen -count_if_all -Hsum. unfold sum_of. clear. induction (metric_brokers ms) as [|b bs IH]; [done|].
    cbn. by rewrite IH count_if_all.
  - by rewrite sum_of_map /= Hsum.
  - by rewrite sum_of_map /= Hsum.
  - by rewrite sum_of_map /= Hsum.
  - apply Forall_map, Forall_forall. intros b _. simpl. split; [unfold count_if; lia|]. apply count_if_le.
    intros m Hm Hs. apply list_elem_of_In, filter_In in Hm as [Hm _]. apply list_elem_of_In in Hm.
    destruct (Hrow _ Hm) as (row & _ & E). destruct (metric_of_row _ _ E) as (_ & _ & Hf). unfold has_result. by rewrite Hf.
  - intros Ho. apply Forall_map, Forall_forall. intros b _. simpl. apply results_add_up. intros m Hm.
    apply list_elem_of_In, filter_In in Hm as [Hm _]. apply list_elem_of_In in Hm.
    destruct (Hrow _ Hm) as (row & Hr & E). destruct (metric_of_row _ _ E) as (_ & -> & _).
    destruct (Ho _ Hr) as [[] ->]; simpl; tauto.
Qed.

(** ** Concrete filings *)
Definition f_log (a b : Z) : ComplianceLogFiling := collect_compliance_log_filing led_ok a b "INZ1" SEBI "f-1" noon.

Lemma log_filing_exact_witness :
  lf_records (f_log 729166 729168) ≡ₚ (lf_records (f_log 729166 729166) ++ lf_records (f_log (729166 + 1) 729168))%list
  ∧ length (lf_records (f_log 729166 729168)) = 3%nat.
Proof.
  split; [|vm_compute; reflexivity].
  exact (proj2 (proj2 (proj2 (log_filing_exact led_ok 729166 729166 729168 "INZ1" SEBI "f-1" noon led_ok_chain
    (conj (Z.le_refl _) eq_refl))))).
Defined.

Lemma log_in_calendar : Forall record_in_calendar (lf_records (f_log 729166 729166)).
Proof. repeat constructor; by vm_compute. Qed.

Lemma log_digest_binds_witness :
  Forall2 same_log_record (lf_records (f_log 729166 729166)) (lf_records (f_log 729166 729166)).
Proof.
  apply (log_digest_binds led_ok led_ok 729166 729166 729166 729166 "INZ1" SEBI "f-1" noon "INZ1" SEBI "f-1" noon).
  - intros m m' Hm Hm' _. apply elem_of_cons in Hm, Hm'. rewrite !list_elem_of_singleton in Hm, Hm'.
    destruct Hm as [-> | ->], Hm' as [-> | ->]; reflexivity.
  - exact log_in_calendar.
  - exact log_in_calendar.
  - reflexivity.
Defined.

Definition margin_details (message : string) (pct : Z) : json :=
  JObj [("violations", JList [JStr message]); ("facts", JObj [("upfront_margin_pct", JInt pct)])].
Definition led_margins : ledger_table := Eval vm_compute in
  append_all empty_ledger
    [ sample_event 10 FAIL None (margin_details "Upfront Margin is 12 %, below the required minimum" 12);
      sample_event 20 PASS None (margin_details "" 30);
      sample_event 30 FAIL None (margin_details "upfront margin is 15 %, below the required minimum" 15) ].
Definition f_day : res backtest_error CollateralReportFiling :=
  collect_daily_collateral_filing led_margins 729166 "INZ1" SEBI "f-2" noon.

(** The report of that day: three evaluations, margins 12, 30 and 15, and two
    failures of which only the one whose message writes Margin with a capital is
    counted as a shortfall. *)
Lemma lowercase_margin_not_counted :
  (λ f, map (λ r, (cm_broker_id r, cm_transactions_evaluated r, cm_transactions_failed r, cm_shortfall_count r,
                   float_repr (default (float_of_Z 0) (cm_avg_upfront_margin_pct r)),
                   float_repr (default (float_of_Z 0) (cm_min_upfront_margin_pct r)))) (cf_records f))
    <$> (match f_day with Ok f => Some f | Raise _ => None end)
  = Some [("BRK-1", 3, 2, 1, "19.0", "12.0")].
Proof. vm_compute. reflexivity. Qed.

Definition f_day_filing : CollateralReportFiling := Eval vm_compute in
  match f_day with Ok f => f | Raise _ => CollateralFiling (lf_header (f_log 0 0)) [] end.
Lemma f_day_ok : f_day = Ok f_day_filing.
Proof. vm_compute. reflexivity. Qed.

Lemma collateral_totals_witness : sum_of cm_transactions_evaluated (cf_records f_day_filing) = 3.
Proof. exact (proj1 (proj2 (proj2 (collateral_totals led_margins 729166 "INZ1" SEBI "f-2" noon f_day_filing f_day_ok)))). Defined.
