(* ===== verification/Filing.v ===== *)
(** * Submitting a filing

    [src/app/regulatory_filing/submission.py] and [tasks.py]: the queue of signed
    filings, the two submission channels and the worker.

    The Redis keys of the queue are a map of records and the set of ids that wait
    for submission or retry.  What the network does is an argument: the reply of
    the portal, and what the polls for the receipt file see.  An exception is the
    chain of its causes, each with the classes it inherits from. *)
From S2P Require Import Prelude PyStr Json JsonFacts Datetime DocModels Resilience FilingReport Incident.
From stdpp Require Import gmap fin_maps.

Open Scope string_scope.
Open Scope Z_scope.

(** ** Data *)
Inductive SubmissionChannel := SFTP | PORTAL_API.
Definition channel_value (c : SubmissionChannel) : string := match c with SFTP => "sftp" | PORTAL_API => "portal_api" end.

Inductive FilingStatus := FS_PENDING | FS_SUBMITTING | FS_ACKNOWLEDGED | FS_FAILED.
#[export] Instance FilingStatus_eq_dec : EqDecision FilingStatus.
Proof. solve_decision. Defined.

Record FilingAcknowledgment := Acknowledgment
  { ak_reference : string; ak_acknowledged_at : datetime; ak_raw_detail : option string }.

(** The signature made by [signing.py] over the bytes of the payload. *)
Record SignedFiling := Signed
  { sg_filing_id : string; sg_payload_sha256 : string; sg_signature_der_b64 : string; sg_signer_certificate_pem : string }.

Record FilingSubmissionRecord := Filing
  { fr_filing_id : string
  ; fr_filing_type : FilingType
  ; fr_target : FilingTarget
  ; fr_channel : SubmissionChannel
  ; fr_filename : string
  ; fr_payload_b64 : string
  ; fr_content_type : string
  ; fr_signature : SignedFiling
  ; fr_status : FilingStatus
  ; fr_attempt_count : Z
  ; fr_max_retries : Z
  ; fr_last_error : option string
  ; fr_submitted_at : option datetime
  ; fr_acknowledgment : option FilingAcknowledgment
  ; fr_created_at : datetime }.

(** [record.model_copy(update=...)] of the fields the queue changes. *)
Definition filing_with (r : FilingSubmissionRecord) (st : FilingStatus) (attempts : Z) (err : option string)
    (submitted : option datetime) (ack : option FilingAcknowledgment) : FilingSubmissionRecord :=
  Filing (fr_filing_id r) (fr_filing_type r) (fr_target r) (fr_channel r) (fr_filename r) (fr_payload_b64 r)
    (fr_content_type r) (fr_signature r) st attempts (fr_max_retries r) err submitted ack (fr_created_at r).

(** ** [FilingQueue] *)
Record FilingQueue := FQueue { fq_filings : gmap string FilingSubmissionRecord; fq_pending : gset string }.
Definition empty_filings : FilingQueue := FQueue ∅ ∅.

Inductive queue_error := KeyError (id : string).

Definition filing_enqueue (q : FilingQueue) (r : FilingSubmissionRecord) : FilingQueue :=
  FQueue (<[fr_filing_id r := r]> (fq_filings q)) ({[fr_filing_id r]} ∪ fq_pending q).

Definition filing_list_pending (q : FilingQueue) : list FilingSubmissionRecord :=
  merge_sort (key_le (λ r, utc_us (fr_created_at r))) (omap (λ id, fq_filings q !! id) (elements (fq_pending q))).

(** The body the four [mark_] operations share: read, change, save. *)
Definition filing_update (q : FilingQueue) (id : string) (f : FilingSubmissionRecord → FilingSubmissionRecord)
  : res queue_error (FilingQueue * FilingSubmissionRecord) :=
  match fq_filings q !! id with
  | None => Raise (KeyError id)
  | Some r => Ok (FQueue (<[fr_filing_id r := f r]> (fq_filings q)) (fq_pending q), f r)
  end.
Definition filing_srem (q : FilingQueue) (id : string) : FilingQueue := FQueue (fq_filings q) (fq_pending q ∖ {[id]}).

Definition filing_mark_submitting (q : FilingQueue) (id : string) : res queue_error (FilingQueue * FilingSubmissionRecord) :=
  filing_update q id (λ r, filing_with r FS_SUBMITTING (fr_attempt_count r + 1) (fr_last_error r) (fr_submitted_at r) (fr_acknowledgment r)).

Definition mark_acknowledged (q : FilingQueue) (id : string) (ack : FilingAcknowledgment) (now : datetime)
  : res queue_error (FilingQueue * FilingSubmissionRecord) :=
  res_bind (filing_update q id (λ r, filing_with r FS_ACKNOWLEDGED (fr_attempt_count r) None (Some now) (Some ack)))
    (λ '(q', r), Ok (filing_srem q' id, r)).

Definition filing_mark_retry (q : FilingQueue) (id error : string) : res queue_error (FilingQueue * FilingSubmissionRecord) :=
  filing_update q id (λ r, filing_with r FS_PENDING (fr_attempt_count r) (Some error) (fr_submitted_at r) (fr_acknowledgment r)).

Definition mark_failed (q : FilingQueue) (id error : string) : res queue_error (FilingQueue * FilingSubmissionRecord) :=
  res_bind (filing_update q id
              (λ r, filing_with r FS_FAILED (fr_attempt_count r) (Some error) (fr_submitted_at r) (fr_acknowledgment r)))
    (λ '(q', r), Ok (filing_srem q' id, r)).

(** ** The channels *)

(** A raised exception: class name, text, and the classes of it and of its
    causes. *)
Record raised := Raised { ex_type : string; ex_text : string; ex_mro : list string; ex_causes : list (list string) }.

(** The chain as objects: each points to the next. *)
Fixpoint cause_heap (p : positive) (l : list (list string)) : gmap positive exc_object :=
  match l with
  | [] => ∅
  | c :: l' => <[p := ExcObject c (match l' with [] => None | _ => Some (Pos.succ p) end)]> (cause_heap (Pos.succ p) l')
  end.
Definition raised_is_transient (e : raised) : bool :=
  match is_transient (cause_heap 1 (ex_mro e :: ex_causes e)) 1 with Some b => b | None => false end.

Definition SubmissionError (text : string) (causes : list (list string)) : raised :=
  Raised "SubmissionError" text ["SubmissionError"; "RuntimeError"; "Exception"] causes.

Record FilingSettings := FSettings
  { sftp_host : option string
  ; sftp_username : option string
  ; sftp_known_host_key : option string
  ; sftp_has_private_key : bool
  ; sftp_has_password : bool
  ; sftp_remote_dir : string
  ; portal_api_base_url : option string }.

(** The checks of [_connect] before it opens the connection. *)
Definition _connect (c : FilingSettings) : option raised :=
  if negb (truthy (sftp_host c)) || negb (truthy (sftp_username c)) then
    Some (SubmissionError "regulatory_filing_sftp_host/username are not configured." [])
  else
    let bad_key :=
      if truthy (sftp_known_host_key c) then
        match split_ws (str_or (sftp_known_host_key c) "") with
        | _ :: key_type :: _ :: _ =>
            if existsb (String.eqb key_type) ["ssh-rsa"; "ssh-ed25519"; "ecdsa-sha2-nistp256"] then None
            else Some ("Unsupported host key type in regulatory_filing_sftp_known_host_key: '" +:+ key_type +:+ "'.")
        | _ => Some "regulatory_filing_sftp_known_host_key must be a full 'hostname key-type base64-key' known_hosts line."
        end
      else None in
    match bad_key with
    | Some text => Some (SubmissionError text [])
    | None =>
        if sftp_has_private_key c || sftp_has_password c then None
        else Some (SubmissionError "Neither regulatory_filing_sftp_private_key_pem nor regulatory_filing_sftp_password is configured." [])
    end.

(** What the server does: the connection or an upload fails, or the payload and
    its signature arrive and [polls] are the looks at the receipt file before the
    deadline, [None] when it is not there. *)
Inductive sftp_session := SftpRaised (e : raised) | Uploaded (polls : list (option string)).

Definition first_receipt (polls : list (option string)) : option string := head (omap (λ x, x) polls).

Definition rstrip_slash : string → string := rstrip_by (λ c, Ascii.eqb c "/").

Definition sftp_submit (c : FilingSettings) (r : FilingSubmissionRecord) (session : sftp_session) (now : datetime)
  : res raised FilingAcknowledgment :=
  match _connect c with
  | Some e => Raise e
  | None =>
      match session with
      | SftpRaised e => Raise e
      | Uploaded polls =>
          let ack_path := rstrip_slash (sftp_remote_dir c) +:+ "/" +:+ fr_filename r +:+ ".ack" in
          match first_receipt polls with
          | Some content =>
              let content := strip content in
              Ok (Acknowledgment (if String.eqb content "" then ack_path else content) now (Some ("receipt file " +:+ ack_path)))
          | None => Raise (SubmissionError ("No acknowledgment receipt (" +:+ ack_path +:+ ") appeared within 30.0s of upload.") [])
          end
      end
  end.

Section channels.
(** [datetime.fromisoformat] *)
Context (fromisoformat : string → option datetime).

(** The reply of the portal: the request fails, or a status with its text and
    its body, [None] when the body is not JSON. *)
Inductive portal_reply := HttpRaised (text : string) (classes : list string) | HttpResponse (status : Z) (text : string) (body : option json).

Definition bad_body (name text : string) : raised := Raised name text [name; "Exception"] [].

Definition portal_submit (c : FilingSettings) (r : FilingSubmissionRecord) (reply : portal_reply) (now : datetime)
  : res raised FilingAcknowledgment :=
  if negb (truthy (portal_api_base_url c)) then
    Raise (SubmissionError "regulatory_filing_portal_api_base_url is not configured." [])
  else
    match reply with
    | HttpRaised text classes => Raise (SubmissionError ("Portal API request failed: " +:+ text) [classes])
    | HttpResponse status text body =>
        if 300 <=? status then
          Raise (SubmissionError ("Portal API rejected filing " +:+ fr_filing_id r +:+ ": " +:+ str_of_Z status +:+ " " +:+ text) [])
        else
          match body with
          | Some (JObj b) =>
              match obj_get "acknowledgment_reference" b with
              | None => Raise (bad_body "KeyError" "'acknowledgment_reference'")
              | Some reference =>
                  res_bind (match obj_get "acknowledged_at" b with
                            | None => Ok now
                            | Some (JStr s) => match fromisoformat s with
                                               | Some d => Ok d
                                               | None => Raise (bad_body "ValueError" ("Invalid isoformat string: '" +:+ s +:+ "'"))
                                               end
                            | Some _ => Raise (bad_body "TypeError" "fromisoformat: argument must be str")
                            end) (λ at_,
                  match reference with
                  | JStr s => Ok (Acknowledgment s at_ (Some text))
                  | _ => Raise (bad_body "ValidationError" "acknowledgment_reference")
                  end)
              end
          | Some _ => Raise (bad_body "TypeError" "body")
          | None => Raise (bad_body "JSONDecodeError" "body")
          end
    end.

(** [get_submitter(record, settings).submit(record)] *)
Record world := World { wo_portal : portal_reply; wo_sftp : sftp_session }.
Definition submit (c : FilingSettings) (r : FilingSubmissionRecord) (w : world) (now : datetime) : res raised FilingAcknowledgment :=
  match fr_channel r with SFTP => sftp_submit c r (wo_sftp w) now | PORTAL_API => portal_submit c r (wo_portal w) now end.

(** ** The worker: [tasks.py] *)

(** [_submit_one] up to the submission: the record as marked, or nothing to do. *)
Definition begin_submission (q : FilingQueue) (id : string) : option (FilingQueue * FilingSubmissionRecord) :=
  match fq_filings q !! id with
  | None => None
  | Some r =>
      if bool_decide (fr_status r = FS_ACKNOWLEDGED) then None
      else match filing_mark_submitting q id with Ok x => Some x | Raise _ => None end
  end.

(** The rest, on the record read when the submission began: the queue, and the
    breach event of a filing that is given up. *)
Definition finish_submission (q : FilingQueue) (r : FilingSubmissionRecord) (reply : res raised FilingAcknowledgment)
    (event_id : string) (now : datetime) : res queue_error (FilingQueue * option BreachEvent) :=
  let id := fr_filing_id r in
  match reply with
  | Ok ack => res_bind (mark_acknowledged q id ack now) (λ '(q', _), Ok (q', None))
  | Raise e =>
      let error_text := ex_type e +:+ ": " +:+ ex_text e in
      if (fr_max_retries r <=? fr_attempt_count r) || negb (raised_is_transient e) then
        res_bind (mark_failed q id error_text) (λ '(q', _),
        Ok (q', Some (filing_submission_failed_event event_id now id (filing_type_value (fr_filing_type r))
                        (channel_value (fr_channel r) +:+ ":" +:+ target_value (fr_target r)) (fr_attempt_count r) error_text)))
      else res_bind (filing_mark_retry q id error_text) (λ '(q', _), Ok (q', None))
  end.

Definition _submit_one (c : FilingSettings) (q : FilingQueue) (id : string) (w : world) (event_id : string) (now : datetime)
  : res queue_error (FilingQueue * option BreachEvent) :=
  match begin_submission q id with
  | None => Ok (q, None)
  | Some (q1, r) => finish_submission q1 r (submit c r w now) event_id now
  end.

(** [submit_pending_filings_task]: the ids it dispatches. *)
Definition _sweep_pending (q : FilingQueue) : list string :=
  map fr_filing_id (List.filter (λ r, bool_decide (fr_status r = FS_PENDING)) (filing_list_pending q)).
Definition submit_pending_filings_task (enabled : bool) (q : FilingQueue) : list string :=
  if enabled then _sweep_pending q else [].

(** ** The queue as a transition system

    A worker begins a task and ends it later with the reply; in between others
    may work, and a worker may die.  [fs_sent] logs what was handed to the
    destination and whether it answered, [fs_events] the breach events.  With
    [stale] a task may begin that was dispatched before the filing left the state
    in which the sweep saw it. *)
Record filing_state := FState
  { fs_queue : FilingQueue
  ; fs_flight : list FilingSubmissionRecord
  ; fs_sent : list (string * bool)
  ; fs_events : list BreachEvent }.
Definition no_filings : filing_state := FState empty_filings [] [] [].

Definition new_filing (r : FilingSubmissionRecord) : Prop :=
  fr_status r = FS_PENDING ∧ fr_attempt_count r = 0 ∧ fr_acknowledgment r = None.

Inductive filing_step (stale : bool) (s : filing_state) : filing_state → Prop :=
| step_enqueue r :
    new_filing r → fq_filings (fs_queue s) !! fr_filing_id r = None →
    filing_step stale s (FState (filing_enqueue (fs_queue s) r) (fs_flight s) (fs_sent s) (fs_events s))
| step_begin id q r :
    (stale = false → id ∈ _sweep_pending (fs_queue s)) →
    begin_submission (fs_queue s) id = Some (q, r) →
    filing_step stale s (FState q (fs_flight s ++ [r])%list (fs_sent s) (fs_events s))
| step_finish before r after reply event_id now q ev :
    fs_flight s = (before ++ r :: after)%list →
    finish_submission (fs_queue s) r reply event_id now = Ok (q, ev) →
    filing_step stale s (FState q (before ++ after)%list (fs_sent s ++ [(fr_filing_id r, is_ok reply)])%list
                           (fs_events s ++ option_list ev)%list)
| step_crash before r after :
    fs_flight s = (before ++ r :: after)%list →
    filing_step stale s (FState (fs_queue s) (before ++ after)%list (fs_sent s) (fs_events s)).
End channels.
