(* ===== verification/FilingFacts.v ===== *)
(** * The life of a filing *)
From S2P Require Import Prelude PyStr Json JsonFacts Datetime DocModels Resilience Backtest BacktestFacts FilingReport Incident IncidentFacts Filing.
From stdpp Require Import gmap fin_maps.

Open Scope string_scope.
Open Scope Z_scope.

(** ** Counting what was sent *)
Lemma count_if_app {A} (p : A → bool) l l' : count_if p (l ++ l')%list = count_if p l + count_if p l'.
Proof. induction l as [|x l IH]; [done|]. cbn [app]. rewrite !count_if_cons IH. lia. Qed.

Definition tries (s : filing_state) (id : string) : Z := count_if (λ x, String.eqb x.1 id) (fs_sent s).
Definition successes (s : filing_state) (id : string) : Z := count_if (λ x, String.eqb x.1 id && x.2) (fs_sent s).
(** The breach event tells of the filing. *)
Definition tells_of (id : string) (e : BreachEvent) : bool :=
  match obj_get "filing_id" (be_metadata e) with Some (JStr x) => String.eqb x id | _ => false end.
Definition alarms (s : filing_state) (id : string) : Z := count_if (tells_of id) (fs_events s).

Definition is_waiting (r : FilingSubmissionRecord) : bool :=
  match fr_status r with FS_PENDING | FS_SUBMITTING => true | _ => false end.
Definition has_status (st : FilingStatus) (r : FilingSubmissionRecord) : bool := bool_decide (fr_status r = st).

(** What holds of one filing, given whether it is in the pending set and how
    often it was handed over, accepted and raised as a breach. *)
Record filing_ok (pending : bool) (n succ fails : Z) (id : string) (r : FilingSubmissionRecord) : Prop :=
  { fo_id : fr_filing_id r = id
  ; fo_pending : pending = is_waiting r
  ; fo_attempts : 0 <= n <= fr_attempt_count r ∧ fr_attempt_count r <= Z.max 1 (fr_max_retries r)
  ; fo_budget : fr_status r = FS_PENDING → fr_attempt_count r = 0 ∨ fr_attempt_count r < fr_max_retries r
  ; fo_ack : fr_status r = FS_ACKNOWLEDGED ↔ is_Some (fr_acknowledgment r)
  ; fo_succ : succ = Z.b2z (has_status FS_ACKNOWLEDGED r)
  ; fo_fails : fails = Z.b2z (has_status FS_FAILED r) }.

Definition in_pending (s : filing_state) (id : string) : bool := bool_decide (id ∈ fq_pending (fs_queue s)).

Record filing_inv (s : filing_state) : Prop :=
  { fi_known : ∀ id r, fq_filings (fs_queue s) !! id = Some r →
      filing_ok (in_pending s id) (tries s id) (successes s id) (alarms s id) id r
  ; fi_unknown : ∀ id, fq_filings (fs_queue s) !! id = None →
      in_pending s id = false ∧ tries s id = 0 ∧ successes s id = 0 ∧ alarms s id = 0
  ; fi_nodup : NoDup (fr_filing_id <$> fs_flight s)
  ; fi_flight : ∀ r, r ∈ fs_flight s →
      fq_filings (fs_queue s) !! fr_filing_id r = Some r ∧ fr_status r = FS_SUBMITTING
      ∧ tries s (fr_filing_id r) < fr_attempt_count r }.

Lemma no_filings_inv : filing_inv no_filings.
Proof.
  split; simpl; [intros id r; by rewrite lookup_empty| |constructor|by intros r ?%elem_of_nil].
  intros id _. split; [|done]. apply bool_decide_eq_false. set_solver.
Qed.

Lemma filing_update_Ok q id f x :
  filing_update q id f = Ok x →
  ∃ r, fq_filings q !! id = Some r ∧ x = (FQueue (<[fr_filing_id r := f r]> (fq_filings q)) (fq_pending q), f r).
Proof. unfold filing_update. destruct (fq_filings q !! id) as [r|]; [|done]. intros [= <-]. eauto. Qed.

(** What the sweep dispatches. *)
Lemma sweep_spec s id :
  filing_inv s →
  id ∈ _sweep_pending (fs_queue s) ↔ ∃ r, fq_filings (fs_queue s) !! id = Some r ∧ fr_status r = FS_PENDING.
Proof.
  intros [Hk Hu _ _]. unfold _sweep_pending. rewrite list_elem_of_In in_map_iff. setoid_rewrite filter_In. unfold filing_list_pending. split.
  - intros (r & <- & Hin & Hst%bool_decide_eq_true). apply list_elem_of_In in Hin. rewrite merge_sort_Permutation in Hin.
    apply list_elem_of_omap in Hin as (id & _ & Hr). exists r. by rewrite (fo_id _ _ _ _ _ _ (Hk _ _ Hr)).
  - intros (r & Hr & Hst). pose proof (Hk _ _ Hr) as Ho. exists r. split; [by rewrite (fo_id _ _ _ _ _ _ Ho)|].
    split; [|by apply bool_decide_eq_true]. apply list_elem_of_In. rewrite merge_sort_Permutation. apply list_elem_of_omap.
    exists id. split; [|done]. apply elem_of_elements. pose proof (fo_pending _ _ _ _ _ _ Ho) as Hp.
    unfold is_waiting in Hp. rewrite Hst in Hp. by apply bool_decide_eq_true in Hp.
Qed.

(** ** Steps *)

(** A step that leaves the other filings alone and is right about its own. *)
Lemma inv_focus s s' id r' :
  filing_inv s →
  fq_filings (fs_queue s') !! id = Some r' →
  filing_ok (in_pending s' id) (tries s' id) (successes s' id) (alarms s' id) id r' →
  (∀ i, i ≠ id → fq_filings (fs_queue s') !! i = fq_filings (fs_queue s) !! i ∧ in_pending s' i = in_pending s i
     ∧ tries s' i = tries s i ∧ successes s' i = successes s i ∧ alarms s' i = alarms s i) →
  NoDup (fr_filing_id <$> fs_flight s') →
  (∀ r, r ∈ fs_flight s' → (r ∈ fs_flight s ∧ fr_filing_id r ≠ id)
     ∨ (r = r' ∧ fr_filing_id r = id ∧ fr_status r = FS_SUBMITTING ∧ tries s' id < fr_attempt_count r)) →
  filing_inv s'.
Proof.
  intros [Hk Hu Hn Hf] Hid Hok Hoth Hnd Hfl. split.
  - intros i r Hr. destruct (decide (i = id)) as [->|Hne]; [by simplify_eq|].
    destruct (Hoth i Hne) as (E & -> & -> & -> & ->). apply Hk. by rewrite -E.
  - intros i Hr. destruct (decide (i = id)) as [->|Hne]; [congruence|].
    destruct (Hoth i Hne) as (E & -> & -> & -> & ->). apply Hu. by rewrite -E.
  - done.
  - intros r Hr. destruct (Hfl r Hr) as [[Hin Hne]|(-> & Hi & Hst & Ht)].
    + destruct (Hoth _ Hne) as (-> & _ & -> & _ & _). by apply Hf.
    + by rewrite Hi.
Qed.

Lemma filing_enqueue_inv s r :
  filing_inv s → new_filing r → fq_filings (fs_queue s) !! fr_filing_id r = None →
  filing_inv (FState (filing_enqueue (fs_queue s) r) (fs_flight s) (fs_sent s) (fs_events s)).
Proof.
  intros Hinv (Hst & Hat & Hack) Hnew. destruct (fi_unknown _ Hinv _ Hnew) as (_ & Ht & Hsu & Hal).
  eapply (inv_focus s _ (fr_filing_id r) r Hinv).
  - simpl. by rewrite lookup_insert_eq.
  - unfold tries, successes, alarms, in_pending in *; simpl. rewrite Ht Hsu Hal. split; unfold is_waiting, has_status; rewrite ?Hst ?Hat ?Hack; try done.
    + apply bool_decide_eq_true. set_solver.
    + lia.
    + intros _. by left.
  - intros i Hne. simpl. rewrite lookup_insert_ne; [|done]. split_and!; [done| |done..].
    unfold in_pending; simpl. apply bool_decide_ext. set_solver.
  - apply (fi_nodup _ Hinv).
  - intros x Hx. left. split; [done|]. intros E. destruct (fi_flight _ Hinv _ Hx) as (Hl & _). congruence.
Qed.

Lemma begin_inv s id q r :
  filing_inv s → id ∈ _sweep_pending (fs_queue s) → begin_submission (fs_queue s) id = Some (q, r) →
  filing_inv (FState q (fs_flight s ++ [r])%list (fs_sent s) (fs_events s)).
Proof.
  intros Hinv (r0 & Hr0 & Hst)%sweep_spec; [|done]. unfold begin_submission. rewrite Hr0 bool_decide_false ?Hst; [|done].
  destruct (filing_mark_submitting _ _) as [x|] eqn:Hm; [|done]. intros [= ->].
  apply filing_update_Ok in Hm as (r1 & Hr1 & [= -> ->]). simplify_eq.
  pose proof (fi_known _ Hinv _ _ Hr0) as [Hid Hp [Hn Hb] Hbud Hack Hsu Hfa]. subst id.
  eapply (inv_focus s _ (fr_filing_id r0) _ Hinv).
  - simpl. by rewrite lookup_insert_eq.
  - unfold tries, successes, alarms, in_pending in *; simpl. rewrite Hp Hsu Hfa. unfold is_waiting, has_status. rewrite Hst.
    split; simpl; try done; [|by rewrite -Hack Hst]. specialize (Hbud Hst). lia.
  - intros i Hne. simpl. by rewrite lookup_insert_ne.
  - rewrite fmap_app. apply NoDup_app. split_and!; [apply (fi_nodup _ Hinv)| |apply NoDup_singleton].
    intros i (x & -> & Hx)%list_elem_of_fmap Hi%list_elem_of_singleton. destruct (fi_flight _ Hinv _ Hx) as (Hl & Hs & _).
    rewrite Hi in Hl. simpl in Hl. congruence.
  - simpl. intros x [Hx|Hx%list_elem_of_singleton]%elem_of_app.
    + left. split; [done|]. intros E. destruct (fi_flight _ Hinv _ Hx) as (Hl & Hs & _). congruence.
    + right. subst x. split_and!; [done..|]. unfold tries in *. simpl. lia.
Qed.

(** Ending a submission: the record read at its beginning is the one stored. *)
Lemma finish_cases q r reply ev now q' x :
  fq_filings q !! fr_filing_id r = Some r →
  finish_submission q r reply ev now = Ok (q', x) →
  ∃ r', fq_filings q' = <[fr_filing_id r := r']> (fq_filings q)
    ∧ fr_filing_id r' = fr_filing_id r ∧ fr_attempt_count r' = fr_attempt_count r ∧ fr_max_retries r' = fr_max_retries r
    ∧ ((∃ ack, reply = Ok ack ∧ fr_status r' = FS_ACKNOWLEDGED ∧ fr_acknowledgment r' = Some ack
               ∧ fq_pending q' = fq_pending q ∖ {[fr_filing_id r]} ∧ x = None)
       ∨ (∃ e, reply = Raise e ∧ fr_acknowledgment r' = fr_acknowledgment r
               ∧ ((fr_status r' = FS_FAILED ∧ fq_pending q' = fq_pending q ∖ {[fr_filing_id r]}
                   ∧ ∃ b, x = Some b ∧ ∀ i, tells_of i b = String.eqb (fr_filing_id r) i)
                  ∨ (fr_status r' = FS_PENDING ∧ fq_pending q' = fq_pending q ∧ x = None
                     ∧ fr_attempt_count r < fr_max_retries r)))).
Proof.
  intros Hr. unfold finish_submission. destruct reply as [ack|e].
  - intros ([q1 r1] & ([q2 r2] & Hu & [= <- <-])%res_bind_Ok & [= <- <-])%res_bind_Ok.
    apply filing_update_Ok in Hu as (r0 & Hr0 & [= -> ->]). simplify_eq. eexists. split; [done|]. split_and!; [done..|].
    left. by exists ack.
  - destruct ((fr_max_retries r <=? fr_attempt_count r) || negb (raised_is_transient e)) eqn:Hb.
    + intros ([q1 r1] & ([q2 r2] & Hu & [= <- <-])%res_bind_Ok & [= <- <-])%res_bind_Ok.
      apply filing_update_Ok in Hu as (r0 & Hr0 & [= -> ->]). simplify_eq. eexists. split; [done|]. split_and!; [done..|].
      right. exists e. split_and!; [done..|]. left. split_and!; [done..|]. eexists. by split.
    + intros ([q1 r1] & Hu & [= <- <-])%res_bind_Ok. apply filing_update_Ok in Hu as (r0 & Hr0 & [= -> ->]). simplify_eq.
      eexists. split; [done|]. split_and!; [done..|]. right. exists e. split_and!; [done..|]. right. split_and!; [done..|].
      apply orb_false_elim in Hb as [Hb _]. apply Z.leb_gt in Hb. done.
Qed.

Lemma finish_inv s before r after reply ev now q x :
  filing_inv s → fs_flight s = (before ++ r :: after)%list → finish_submission (fs_queue s) r reply ev now = Ok (q, x) →
  filing_inv (FState q (before ++ after)%list (fs_sent s ++ [(fr_filing_id r, is_ok reply)])%list (fs_events s ++ option_list x)%list).
Proof.
  intros Hinv Hfl Hfin. destruct (fi_flight _ Hinv r) as (Hl & Hst & Hlt); [rewrite Hfl; set_solver|].
  pose proof (fi_known _ Hinv _ _ Hl) as [_ Hp [Hn Hb] _ Hack Hsu Hfa].
  destruct (finish_cases _ _ _ _ _ _ _ Hl Hfin) as (r' & Hq & Hid & Hat & Hmx & Hcase).
  pose proof (fi_nodup _ Hinv) as Hnd. rewrite Hfl fmap_app fmap_cons in Hnd.
  assert (Hcnt : ∀ i, count_if (λ y : string * bool, String.eqb y.1 i) [(fr_filing_id r, is_ok reply)] = Z.b2z (String.eqb (fr_filing_id r) i))
    by (intros i; unfold count_if; simpl; by destruct (String.eqb _ _)).
  assert (Hsuc : ∀ i, count_if (λ y : string * bool, String.eqb y.1 i && y.2) [(fr_filing_id r, is_ok reply)]
                      = Z.b2z (String.eqb (fr_filing_id r) i && is_ok reply))
    by (intros i; unfold count_if; simpl; by destruct (String.eqb _ _), (is_ok reply)).
  assert (Hwait : in_pending s (fr_filing_id r) = true) by (rewrite Hp; unfold is_waiting; by rewrite Hst).
  eapply (inv_focus s _ (fr_filing_id r) r' Hinv).
  - simpl. by rewrite Hq lookup_insert_eq.
  - unfold tries, successes, alarms, in_pending in *; simpl. rewrite !count_if_app Hcnt Hsuc String.eqb_refl Hsu Hfa.
    assert (Hno : has_status FS_ACKNOWLEDGED r = false ∧ has_status FS_FAILED r = false) by (unfold has_status; by rewrite Hst).
    destruct Hno as [-> ->]. cbn [Z.b2z].
    destruct Hcase as [(ack & -> & Hs & Ha & Hpd & ->)|(e & -> & Ha & [(Hs & Hpd & b & -> & Hb')|(Hs & Hpd & -> & Hlt')])];
      unfold is_waiting, has_status; split; unfold is_waiting, has_status; rewrite ?Hs ?Hat ?Hmx ?Ha ?Hpd; simpl; try done; try lia.
    + apply bool_decide_eq_false. set_solver.
    + apply bool_decide_eq_false. set_solver.
    + rewrite -Hack Hst. by split.
    + unfold count_if. simpl. by rewrite Hb' String.eqb_refl.
    + rewrite -Hack Hst. by split.
  - intros i Hne. simpl. rewrite Hq lookup_insert_ne; [|done]. split; [done|].
    unfold tries, successes, alarms, in_pending; simpl. rewrite !count_if_app Hcnt Hsuc.
    destruct (String.eqb_spec (fr_filing_id r) i) as [E|_]; [congruence|]. simpl. rewrite !Z.add_0_r. split_and!; [|done..|].
    + apply bool_decide_ext. destruct Hcase as [(ack & -> & Hs & Ha & -> & ->)|(e & -> & Ha & [(Hs & -> & _)|(Hs & -> & _)])]; set_solver.
    + destruct Hcase as [(ack & -> & Hs & Ha & Hpd & ->)|(e & -> & Ha & [(Hs & Hpd & b & -> & Hb')|(Hs & Hpd & -> & Hlt')])];
        simpl; unfold count_if; simpl; [lia| |lia]. rewrite Hb'. destruct (String.eqb_spec (fr_filing_id r) i); [congruence|simpl; lia].
  - simpl. rewrite fmap_app. apply NoDup_app in Hnd as (Hn1 & Hn2 & Hn3%NoDup_cons). apply NoDup_app. split_and!; [done| |by destruct Hn3].
    intros i Hi Hi'. apply (Hn2 i Hi). by right.
  - simpl. intros y Hy. left. apply NoDup_app in Hnd as (_ & Hn2 & Hn3%NoDup_cons). split.
    + rewrite Hfl. apply elem_of_app in Hy as [?|?]; set_solver.
    + intros E. apply elem_of_app in Hy as [Hy|Hy].
      * apply (Hn2 (fr_filing_id y)); [apply list_elem_of_fmap; by exists y|]. rewrite E. left.
      * destruct Hn3 as [Hn3 _]. apply Hn3. apply list_elem_of_fmap. by exists y.
Qed.

Lemma crash_inv s before r after :
  filing_inv s → fs_flight s = (before ++ r :: after)%list →
  filing_inv (FState (fs_queue s) (before ++ after)%list (fs_sent s) (fs_events s)).
Proof.
  intros [Hk Hu Hn Hf] Hfl. split; [done..| |].
  - simpl. rewrite Hfl fmap_app fmap_cons in Hn. rewrite fmap_app. apply NoDup_app in Hn as (H1 & H2 & H3%NoDup_cons).
    apply NoDup_app. split_and!; [done| |by destruct H3]. intros i Hi Hi'. apply (H2 i Hi). by right.
  - intros x Hx. apply Hf. rewrite Hfl. simpl in Hx. apply elem_of_app in Hx as [?|?]; set_solver.
Qed.

Lemma filing_step_inv s s' : filing_inv s → filing_step false s s' → filing_inv s'.
Proof.
  intros H []; [by apply filing_enqueue_inv|eapply begin_inv; eauto|by eapply finish_inv|by eapply crash_inv].
Qed.


(** ** A run, and two that go wrong *)
Definition c_filing : FilingSubmissionRecord :=
  Filing "f-1" COMPLIANCE_LOG SEBI PORTAL_API "log.json" "e30=" "application/json" (Signed "f-1" "" "" "") FS_PENDING 0 5
    None None None (Datetime 0 (Some 0)).
Definition c_queued : filing_state := FState (filing_enqueue empty_filings c_filing) [] [] [].
Definition c_timeout : raised := SubmissionError "Portal API request failed: timed out" [["httpx.ReadTimeout"; "httpx.TimeoutException"]].
Definition c_rejected : raised := SubmissionError "Portal API rejected filing f-1: 422" [].
Definition c_ack : FilingAcknowledgment := Acknowledgment "ACK-1" (Datetime 0 (Some 0)) None.

(** Begin the task of the filing; end the [n]-th one in flight. *)
Definition begin_task (s : filing_state) : filing_state :=
  match begin_submission (fs_queue s) "f-1" with
  | Some (q, r) => FState q (fs_flight s ++ [r])%list (fs_sent s) (fs_events s)
  | None => s
  end.
Definition end_task (n : nat) (reply : res raised FilingAcknowledgment) (s : filing_state) : filing_state :=
  match fs_flight s !! n with
  | Some r =>
      match finish_submission (fs_queue s) r reply "ev" (Datetime 0 (Some 0)) with
      | Ok (q, ev) => FState q (take n (fs_flight s) ++ drop (S n) (fs_flight s))%list
                        (fs_sent s ++ [(fr_filing_id r, is_ok reply)])%list (fs_events s ++ option_list ev)%list
      | Raise _ => s
      end
  | None => s
  end.

Lemma begin_task_step stale s q r :
  begin_submission (fs_queue s) "f-1" = Some (q, r) → (stale = false → "f-1" ∈ _sweep_pending (fs_queue s)) →
  filing_step stale s (begin_task s).
Proof. intros H Hs. unfold begin_task. rewrite H. by eapply step_begin. Qed.

Lemma end_task_step stale n reply s r q ev :
  fs_flight s !! n = Some r → finish_submission (fs_queue s) r reply "ev" (Datetime 0 (Some 0)) = Ok (q, ev) →
  filing_step stale s (end_task n reply s).
Proof.
  intros Hr Hf. unfold end_task. rewrite Hr Hf. eapply step_finish; [symmetry; by apply take_drop_middle|exact Hf].
Qed.

Lemma queued_step stale : filing_step stale no_filings c_queued.
Proof. by apply (step_enqueue _ no_filings c_filing). Qed.

(** One attempt that times out, one that is acknowledged. *)
Definition c_done : filing_state := end_task 0 (Ok c_ack) (begin_task (end_task 0 (Raise c_timeout) (begin_task c_queued))).

Lemma done_reached : rtc (filing_step false) no_filings c_done.
Proof.
  eapply rtc_l; [apply queued_step|].
  eapply rtc_l; [eapply begin_task_step; [vm_compute; reflexivity|intros _; apply list_elem_of_In; vm_compute; tauto]|].
  eapply rtc_l; [eapply (end_task_step false 0 (Raise c_timeout)); vm_compute; reflexivity|].
  eapply rtc_l; [eapply begin_task_step; [vm_compute; reflexivity|intros _; apply list_elem_of_In; vm_compute; tauto]|].
  eapply rtc_l; [eapply (end_task_step false 0 (Ok c_ack)); vm_compute; reflexivity|]. apply rtc_refl.
Qed.

Definition c_final : FilingSubmissionRecord :=
  filing_with c_filing FS_ACKNOWLEDGED 2 None (Some (Datetime 0 (Some 0))) (Some c_ack).
Lemma done_record : fq_filings (fs_queue c_done) !! "f-1" = Some c_final.
Proof. vm_compute. reflexivity. Qed.


(** Two sweeps may dispatch the same filing before a worker takes it.  When two
    workers then submit it at once, the one that fails overwrites the
    acknowledgment of the other: the regulator has the filing, the record says it
    failed, and a breach is raised. *)
Definition c_race : filing_state :=
  end_task 0 (Raise c_rejected) (end_task 0 (Ok c_ack) (begin_task (begin_task c_queued))).
Lemma racing_workers_undo_acknowledgment :
  rtc (filing_step true) no_filings c_race
  ∧ successes c_race "f-1" = 1 ∧ alarms c_race "f-1" = 1
  ∧ fr_status <$> (fq_filings (fs_queue c_race) !! "f-1") = Some FS_FAILED.
Proof.
  split; [|by vm_compute].
  eapply rtc_l; [apply queued_step|].
  eapply rtc_l; [eapply begin_task_step; [vm_compute; reflexivity|done]|].
  eapply rtc_l; [eapply begin_task_step; [vm_compute; reflexivity|done]|].
  eapply rtc_l; [eapply (end_task_step true 0 (Ok c_ack)); vm_compute; reflexivity|].
  eapply rtc_l; [eapply (end_task_step true 0 (Raise c_rejected)); vm_compute; reflexivity|]. apply rtc_refl.
Qed.

(** A worker that dies leaves the filing marked as being submitted, and no sweep
    dispatches it again. *)
Lemma crashed_filing_never_swept : fr_status <$> (fq_filings (fs_queue (begin_task c_queued)) !! "f-1") = Some FS_SUBMITTING
  ∧ _sweep_pending (fs_queue (begin_task c_queued)) = [].
Proof. by vm_compute. Qed.

(** A receipt that does not appear in half a minute is not a transient error: the
    filing fails on its first attempt, whatever its retry budget. *)
Lemma missing_receipt_is_final c r polls now :
  _connect c = None → first_receipt polls = None →
  ∃ e, sftp_submit c r (Uploaded polls) now = Raise e ∧ raised_is_transient e = false.
Proof.
  intros Hc Hp. unfold sftp_submit. rewrite Hc Hp. eexists. split; [reflexivity|]. vm_compute. reflexivity.
Qed.
