(* ===== verification/Grievance.v ===== *)
(** * Grievances to the regulator

    [src/app/grievance_escalation/]: [schemas.py], [systemic_detector.py],
    [ledger_evidence.py], [evidence.py], [escalation.py], [queue.py],
    [scores_client.py], [tasks.py] and [dashboard.py]; and the hook
    [_trigger_grievance_escalation] in [log_evaluation] of
    [src/app/ledger/integration.py].

    A rule that a broker fails often enough in a rolling window makes a grievance,
    with the ledger row of the last failure and a proof that the row is linked into
    the chain; an officer (or a setting) confirms it, workers submit it to SCORES,
    and a poll follows its status until it is closed.  The replies of SCORES are
    arguments; the Redis keys of the queue are a map of records and two sets. *)
From S2P Require Import Prelude PyStr Json JsonFacts Datetime Sha256 DocModels Ledger Resilience ExecModels Integration.
From S2P Require Import Incident FilingReport Filing.
From stdpp Require Import gmap fin_maps.

Open Scope string_scope.
Open Scope Z_scope.

(** ** [schemas.py] *)
Inductive GrievanceCategory := BROKER_SYSTEMIC_NON_COMPLIANCE | DELAYED_COLLATERAL_REPORTING | REPEATED_CLAUSE_VIOLATION.
Definition category_value (c : GrievanceCategory) : string :=
  match c with
  | BROKER_SYSTEMIC_NON_COMPLIANCE => "broker_systemic_non_compliance"
  | DELAYED_COLLATERAL_REPORTING => "delayed_collateral_reporting"
  | REPEATED_CLAUSE_VIOLATION => "repeated_clause_violation"
  end.

Record GrievanceRespondent := Respondent
  { rs_sebi_registration_number : string; rs_broker_id : string; rs_entity_name : option string }.
Record GrievanceComplainant := Complainant
  { cp_entity_name : string; cp_contact_email : string; cp_tenant_id : option string }.
Record GrievanceEvidenceDocument := Document
  { gd_label : string; gd_content_type : string; gd_content : string; gd_sha256 : string }.

Record GrievanceSubmissionRequest := Request
  { rq_reference_id : string
  ; rq_category : GrievanceCategory
  ; rq_respondent : GrievanceRespondent
  ; rq_complainant : GrievanceComplainant
  ; rq_description : string
  ; rq_evidence : list GrievanceEvidenceDocument
  ; rq_filed_at : datetime }.

Inductive ScoresGrievanceStatus :=
| SC_SUBMITTED | SC_UNDER_REVIEW | SC_PENDING_WITH_RESPONDENT | SC_RESOLVED | SC_REJECTED | SC_UNKNOWN.
#[export] Instance ScoresGrievanceStatus_eq_dec : EqDecision ScoresGrievanceStatus.
Proof. solve_decision. Defined.
Definition scores_value (s : ScoresGrievanceStatus) : string :=
  match s with
  | SC_SUBMITTED => "submitted" | SC_UNDER_REVIEW => "under_review"
  | SC_PENDING_WITH_RESPONDENT => "pending_with_respondent" | SC_RESOLVED => "resolved"
  | SC_REJECTED => "rejected" | SC_UNKNOWN => "unknown"
  end.
Definition all_scores_statuses : list ScoresGrievanceStatus :=
  [SC_SUBMITTED; SC_UNDER_REVIEW; SC_PENDING_WITH_RESPONDENT; SC_RESOLVED; SC_REJECTED; SC_UNKNOWN].

Record GrievanceSubmissionResponse := SubmissionResponse
  { sr_scores_reference_number : string; sr_status : ScoresGrievanceStatus; sr_acknowledged_at : datetime
  ; sr_raw_response : option string }.
Record GrievanceStatusResponse := StatusResponse
  { ss_scores_reference_number : string; ss_status : ScoresGrievanceStatus; ss_last_updated_at : datetime
  ; ss_resolution_summary : option string; ss_raw_response : option string }.

(** ** [queue.py] *)
Inductive GrievanceStatus :=
| DRAFTED | PENDING_SUBMISSION | SUBMITTING | SUBMITTED | GR_RESOLVED | GR_REJECTED | SUBMISSION_FAILED.
#[export] Instance GrievanceStatus_eq_dec : EqDecision GrievanceStatus.
Proof. solve_decision. Defined.
Definition grievance_value (s : GrievanceStatus) : string :=
  match s with
  | DRAFTED => "drafted" | PENDING_SUBMISSION => "pending_submission" | SUBMITTING => "submitting"
  | SUBMITTED => "submitted" | GR_RESOLVED => "resolved" | GR_REJECTED => "rejected"
  | SUBMISSION_FAILED => "submission_failed"
  end.

Record GrievanceRecord := Grievance
  { gr_grievance_id : string
  ; gr_request : GrievanceSubmissionRequest
  ; gr_status : GrievanceStatus
  ; gr_attempt_count : Z
  ; gr_max_retries : Z
  ; gr_last_error : option string
  ; gr_scores_reference_number : option string
  ; gr_scores_status : option ScoresGrievanceStatus
  ; gr_resolution_summary : option string
  ; gr_filed_at : datetime
  ; gr_response_due_at : datetime
  ; gr_submitted_at : option datetime
  ; gr_last_polled_at : option datetime
  ; gr_resolved_at : option datetime }.

Definition respondent (r : GrievanceRecord) : GrievanceRespondent := rq_respondent (gr_request r).
Definition is_open (r : GrievanceRecord) : bool := bool_decide (gr_status r = SUBMITTED).
Definition is_overdue (r : GrievanceRecord) (now : datetime) : bool :=
  is_open r && (utc_us (gr_response_due_at r) <? utc_us now).

Record GrievanceQueue := GQueue
  { gq_records : gmap string GrievanceRecord; gq_pending : gset string; gq_open : gset string }.
Definition no_grievances : GrievanceQueue := GQueue ∅ ∅ ∅.

Inductive grievance_error :=
| NoGrievance (id : string)                          (* KeyError of _require *)
| NotDrafted (id : string) (status : GrievanceStatus) (* ValueError of confirm_for_submission *)
| NoLedgerEntry (transaction : string)               (* ValueError of build_evidence_package *)
| MultipleResultsFound                               (* scalar_one_or_none *)
| BadViolations.                                     (* TypeError: not a list of texts *)

Definition grievance_save (q : GrievanceQueue) (r : GrievanceRecord) : GrievanceQueue :=
  GQueue (<[gr_grievance_id r := r]> (gq_records q)) (gq_pending q) (gq_open q).
Definition create_draft : GrievanceQueue → GrievanceRecord → GrievanceQueue := grievance_save.

Definition _list_from_set (q : GrievanceQueue) (ids : gset string) : list GrievanceRecord :=
  merge_sort (key_le (λ r, utc_us (gr_filed_at r))) (omap (λ id, gq_records q !! id) (elements ids)).
Definition list_pending_submission (q : GrievanceQueue) : list GrievanceRecord := _list_from_set q (gq_pending q).
Definition list_open (q : GrievanceQueue) : list GrievanceRecord := _list_from_set q (gq_open q).

Definition _require (q : GrievanceQueue) (id : string) : res grievance_error GrievanceRecord :=
  match gq_records q !! id with None => Raise (NoGrievance id) | Some r => Ok r end.

(** [record.model_copy(update={"status": ..., "attempt_count": ..., "last_error": ...})] *)
Definition grievance_with (r : GrievanceRecord) (st : GrievanceStatus) (attempts : Z) (err : option string) : GrievanceRecord :=
  Grievance (gr_grievance_id r) (gr_request r) st attempts (gr_max_retries r) err (gr_scores_reference_number r)
    (gr_scores_status r) (gr_resolution_summary r) (gr_filed_at r) (gr_response_due_at r) (gr_submitted_at r)
    (gr_last_polled_at r) (gr_resolved_at r).

Definition confirm_for_submission (q : GrievanceQueue) (id : string) : res grievance_error (GrievanceQueue * GrievanceRecord) :=
  res_bind (_require q id) (λ r,
  if bool_decide (gr_status r = DRAFTED) then
    let updated := grievance_with r PENDING_SUBMISSION (gr_attempt_count r) (gr_last_error r) in
    let q' := grievance_save q updated in
    Ok (GQueue (gq_records q') ({[id]} ∪ gq_pending q') (gq_open q'), updated)
  else Raise (NotDrafted id (gr_status r))).

Definition mark_submitting (q : GrievanceQueue) (id : string) : res grievance_error (GrievanceQueue * GrievanceRecord) :=
  res_bind (_require q id) (λ r,
  let updated := grievance_with r SUBMITTING (gr_attempt_count r + 1) (gr_last_error r) in
  Ok (grievance_save q updated, updated)).

Definition as_submitted (r : GrievanceRecord) (reference : string) (now : datetime) : GrievanceRecord :=
  Grievance (gr_grievance_id r) (gr_request r) SUBMITTED (gr_attempt_count r) (gr_max_retries r) None (Some reference)
    (Some SC_SUBMITTED) (gr_resolution_summary r) (gr_filed_at r) (gr_response_due_at r) (Some now)
    (gr_last_polled_at r) (gr_resolved_at r).

Definition mark_submitted (q : GrievanceQueue) (id reference : string) (now : datetime)
  : res grievance_error (GrievanceQueue * GrievanceRecord) :=
  res_bind (_require q id) (λ r,
  let updated := as_submitted r reference now in
  let q' := grievance_save q updated in
  Ok (GQueue (gq_records q') (gq_pending q' ∖ {[id]}) ({[id]} ∪ gq_open q'), updated)).

Definition grievance_mark_retry (q : GrievanceQueue) (id error : string) : res grievance_error (GrievanceQueue * GrievanceRecord) :=
  res_bind (_require q id) (λ r,
  let updated := grievance_with r PENDING_SUBMISSION (gr_attempt_count r) (Some error) in
  Ok (grievance_save q updated, updated)).

Definition mark_submission_failed (q : GrievanceQueue) (id error : string)
  : res grievance_error (GrievanceQueue * GrievanceRecord) :=
  res_bind (_require q id) (λ r,
  let updated := grievance_with r SUBMISSION_FAILED (gr_attempt_count r) (Some error) in
  let q' := grievance_save q updated in
  Ok (GQueue (gq_records q') (gq_pending q' ∖ {[id]}) (gq_open q'), updated)).

Definition as_polled (r : GrievanceRecord) (status : ScoresGrievanceStatus) (summary : option string) (now : datetime)
  : GrievanceRecord :=
  Grievance (gr_grievance_id r) (gr_request r)
    (match status with SC_RESOLVED => GR_RESOLVED | SC_REJECTED => GR_REJECTED | _ => gr_status r end)
    (gr_attempt_count r) (gr_max_retries r) (gr_last_error r) (gr_scores_reference_number r) (Some status) summary
    (gr_filed_at r) (gr_response_due_at r) (gr_submitted_at r) (Some now)
    (match status with SC_RESOLVED | SC_REJECTED => Some now | _ => gr_resolved_at r end).

Definition is_closed (r : GrievanceRecord) : bool := bool_decide (gr_status r = GR_RESOLVED ∨ gr_status r = GR_REJECTED).

Definition update_status (q : GrievanceQueue) (id : string) (status : ScoresGrievanceStatus) (summary : option string)
    (now : datetime) : res grievance_error (GrievanceQueue * GrievanceRecord) :=
  res_bind (_require q id) (λ r,
  let updated := as_polled r status summary now in
  let q' := grievance_save q updated in
  Ok (if is_closed updated then GQueue (gq_records q') (gq_pending q') (gq_open q' ∖ {[id]}) else q', updated)).

(** ** [systemic_detector.py] *)
Record SystemicFailureCheck := Systemic
  { sf_broker_id : string; sf_rule_id : string; sf_window_days : Z; sf_threshold_count : Z; sf_failure_count : Z }.
Definition is_systemic (c : SystemicFailureCheck) : bool := sf_threshold_count c <=? sf_failure_count c.

Definition failed_in_window (broker rule : string) (window_days : Z) (as_of : datetime) (row : LedgerEntry) : bool :=
  let f := fields row in
  String.eqb (broker_id f) broker && String.eqb (rule_id f) rule && String.eqb (evaluation_result f) (outcome_value FAIL)
  && (utc_us as_of - window_days * us_per_day <=? utc_us (evaluated_at f)) && (utc_us (evaluated_at f) <=? utc_us as_of).

Definition check_systemic_failure (ledger : ledger_table) (broker rule : string) (window_days threshold : Z) (as_of : datetime)
  : SystemicFailureCheck :=
  Systemic broker rule window_days threshold
    (Z.of_nat (length (List.filter (failed_in_window broker rule window_days as_of) (rows ledger)))).

(** ** [ledger_evidence.py] *)
Record SingleEntryLedgerProof := EntryProof
  { lp_entry : LedgerEntry
  ; lp_previous_hash_used : option string
  ; lp_recomputed_current_hash : option string
  ; lp_chain_linkage_verifiable : bool
  ; lp_current_hash_matches : option bool }.

Definition of_transaction (id : string) (row : LedgerEntry) : bool := String.eqb (transaction_id (fields row)) id.

(** [.first()] of a query without an order: where it is used, several rows are an
    error later on, so that the choice does not matter. *)
Definition get_ledger_entry_by_transaction_id (ledger : ledger_table) (id : string) : option LedgerEntry :=
  List.find (of_transaction id) (rows ledger).
Definition get_ledger_entry_by_sequence_num (ledger : ledger_table) (n : Z) : option LedgerEntry := row_at ledger n.

Definition build_single_entry_proof (ledger : ledger_table) (entry : LedgerEntry) : SingleEntryLedgerProof :=
  let previous_hash_used :=
    if sequence_num entry =? 0 then Some GENESIS_HASH
    else current_hash <$> get_ledger_entry_by_sequence_num ledger (sequence_num entry - 1) in
  match previous_hash_used with
  | None => EntryProof entry None None false None
  | Some h =>
      let recomputed := compute_block_hash h (payload_digest entry) (sequence_num entry) (evaluated_at (fields entry)) in
      EntryProof entry (Some h) (Some recomputed) true (Some (String.eqb recomputed (current_hash entry)))
  end.

(** ** [evidence.py] *)
Definition source_channel_value (c : SourceChannel) : string :=
  match c with
  | REST_SYNC => "rest_sync" | SFTP_BATCH => "sftp_batch" | DB_CDC => "db_cdc" | HITL_RESOLUTION => "hitl_resolution"
  end.

(** [transaction.model_dump(mode="json")], [entry.model_dump(mode="json")] *)
Definition transaction_json (t : TransactionPayload) : json :=
  JObj [ ("transaction_id", JStr (tx_transaction_id t)); ("entity_type", JStr (entity_type t)); ("facts", JObj (facts t));
         ("source_channel", JStr (source_channel_value (source_channel t))); ("broker_id", opt_str (tx_broker_id t));
         ("callback_url", opt_str (callback_url t)); ("received_at", JStr (json_datetime (received_at t)));
         ("metadata", JObj (metadata t)) ].

Definition entry_json (r : LedgerEntry) : json :=
  let f := fields r in
  JObj [ ("id", JInt (id r)); ("sequence_num", JInt (sequence_num r)); ("broker_id", JStr (broker_id f));
         ("transaction_id", JStr (transaction_id f)); ("evaluated_at", JStr (json_datetime (evaluated_at f)));
         ("circular_id", JStr (circular_id f)); ("clause_hash", JStr (clause_hash f));
         ("section_reference", JStr (section_reference f)); ("rule_id", JStr (rule_id f));
         ("evaluation_result", JStr (evaluation_result f)); ("hitl_review_id", opt_str (hitl_review_id f));
         ("details", details f); ("payload_digest", JStr (payload_digest r)); ("previous_hash", JStr (previous_hash r));
         ("current_hash", JStr (current_hash r)); ("created_at", JStr (json_datetime (created_at r))) ].

Record GrievanceEvidencePackage := Evidence
  { ep_transaction : TransactionPayload
  ; ep_ledger_entry : LedgerEntry
  ; ep_ledger_proof : SingleEntryLedgerProof
  ; ep_ledger_clause_hash : string
  ; ep_canonical_clause_hash : option string
  ; ep_circular_number : option string
  ; ep_clause_number : string }.

Definition _document (label : string) (payload : json) : GrievanceEvidenceDocument :=
  let content := dumps payload in Document label "application/json" content (sha256_hex content).

Definition proof_json (e : GrievanceEvidencePackage) : json :=
  let p := ep_ledger_proof e in
  JObj [ ("previous_hash_used", opt_str (lp_previous_hash_used p));
         ("stated_current_hash", JStr (current_hash (ep_ledger_entry e)));
         ("recomputed_current_hash", opt_str (lp_recomputed_current_hash p));
         ("chain_linkage_verifiable", JBool (lp_chain_linkage_verifiable p));
         ("current_hash_matches", match lp_current_hash_matches p with Some b => JBool b | None => JNull end) ].

Definition clause_hash_json (e : GrievanceEvidencePackage) : json :=
  JObj [ ("ledger_clause_hash", JStr (ep_ledger_clause_hash e));
         ("canonical_clause_hash", opt_str (ep_canonical_clause_hash e));
         ("circular_number", opt_str (ep_circular_number e)); ("clause_number", JStr (ep_clause_number e)) ].

Definition to_evidence_documents (e : GrievanceEvidencePackage) : list GrievanceEvidenceDocument :=
  [ _document "transaction_payload" (transaction_json (ep_transaction e));
    _document "ledger_entry" (entry_json (ep_ledger_entry e));
    _document "ledger_chain_proof" (proof_json e);
    _document "clause_hash" (clause_hash_json e) ].

(** [clause_ref] is the column of that name, which the rows of [Ledger] leave out;
    [db] is the main schema, when the caller has a session: the digest of a clause
    and the number of its circular. *)
Definition build_evidence_package (clause_ref : LedgerEntry → option Z) (db : option (Z → option (string * option string)))
    (ledger : ledger_table) (t : TransactionPayload) : res grievance_error GrievanceEvidencePackage :=
  match get_ledger_entry_by_transaction_id ledger (tx_transaction_id t) with
  | None => Raise (NoLedgerEntry (tx_transaction_id t))
  | Some entry =>
      let proof := build_single_entry_proof ledger entry in
      match List.filter (of_transaction (tx_transaction_id t)) (rows ledger) with
      | _ :: _ :: _ => Raise MultipleResultsFound
      | found =>
          let clause := match db, (head found ≫= clause_ref) with Some lookup_clause, Some ref => lookup_clause ref | _, _ => None end in
          Ok (Evidence t entry proof (clause_hash (fields entry)) (fst <$> clause) (clause ≫= snd)
                (section_reference (fields entry)))
      end
  end.

(** ** [escalation.py] *)
Definition _CATEGORY_KEYWORDS : list (string * GrievanceCategory) :=
  [("collateral", DELAYED_COLLATERAL_REPORTING); ("margin", BROKER_SYSTEMIC_NON_COMPLIANCE)].

Definition _categorize (rule : string) (vs : list string) : GrievanceCategory :=
  let haystack := lower (rule +:+ " " +:+ PyStr.join " " vs) in
  match List.find (λ kc, contains kc.1 haystack) _CATEGORY_KEYWORDS with
  | Some kc => kc.2
  | None => REPEATED_CLAUSE_VIOLATION
  end.

(** [list(details.get("violations", []))], which is then joined: every member has
    to be a text.  A text gives its characters, an object its keys. *)
Definition as_text (j : json) : res grievance_error string := match j with JStr s => Ok s | _ => Raise BadViolations end.
Fixpoint characters (s : string) : list string :=
  match s with EmptyString => [] | String c s' => String c EmptyString :: characters s' end.
Definition violations_of (d : json) : res grievance_error (list string) :=
  match d with
  | JObj kvs =>
      match obj_get "violations" kvs with
      | None => Ok []
      | Some (JList l) => res_mapM as_text l
      | Some (JStr s) => Ok (characters s)
      | Some (JObj l) => Ok (map fst l)
      | Some _ => Raise BadViolations
      end
  | _ => Raise BadViolations
  end.

Record GrievanceSettings := GSettings
  { grievance_escalation_enabled : bool
  ; systemic_failure_window_days : Z
  ; systemic_failure_threshold_count : Z
  ; max_submit_retries : Z
  ; sla_response_days : Z
  ; auto_submit_enabled : bool
  ; scores_api_base_url : option string }.

Definition shift_days (d : datetime) (n : Z) : datetime := Datetime (dt_wall d + n * us_per_day) (dt_offset d).

Definition grievance_description (t : TransactionPayload) (entry : LedgerEntry) (check : SystemicFailureCheck)
    (e : GrievanceEvidencePackage) (vs : list string) : string :=
  "Automated escalation: broker " +:+ broker_id (fields entry) +:+ " breached rule " +:+ rule_id (fields entry) +:+ " "
  +:+ str_of_Z (sf_failure_count check) +:+ " time(s) in the trailing " +:+ str_of_Z (sf_window_days check)
  +:+ " day(s), exceeding the systemic-failure threshold of " +:+ str_of_Z (sf_threshold_count check)
  +:+ ". Most recent breach: transaction " +:+ tx_transaction_id t +:+ ", Circular "
  +:+ str_or (ep_circular_number e) "unknown" +:+ ", Clause " +:+ ep_clause_number e +:+ ". "
  +:+ match vs with [] => "No detailed violation message recorded." | _ => PyStr.join "; " vs end.

Definition grievance_of (c : GrievanceSettings) (t : TransactionPayload) (entry : LedgerEntry) (check : SystemicFailureCheck)
    (e : GrievanceEvidencePackage) (vs : list string) (grievance_id : string) (now : datetime) : GrievanceRecord :=
  let broker := broker_id (fields entry) in
  Grievance grievance_id
    (Request grievance_id (_categorize (rule_id (fields entry)) vs) (Respondent broker broker None)
       (Complainant "RegEngine AI Compliance Monitoring" "compliance-automation@regengine.internal" None)
       (grievance_description t entry check e vs) (to_evidence_documents e) now)
    DRAFTED 0 (max_submit_retries c) None None None None now (shift_days now (sla_response_days c)) None None None.

(** The queue, the record drafted and the ids handed to the worker at once. *)
Definition evaluate_and_trigger_grievance_escalation (c : GrievanceSettings) (clause_ref : LedgerEntry → option Z)
    (db : option (Z → option (string * option string))) (ledger : ledger_table) (q : GrievanceQueue)
    (entry : LedgerEntry) (t : TransactionPayload) (new_id : string) (now : datetime)
  : res grievance_error (GrievanceQueue * option GrievanceRecord * list string) :=
  if negb (grievance_escalation_enabled c) then Ok (q, None, [])
  else
    let check := check_systemic_failure ledger (broker_id (fields entry)) (rule_id (fields entry))
                   (systemic_failure_window_days c) (systemic_failure_threshold_count c) now in
    if negb (is_systemic check) then Ok (q, None, [])
    else
      res_bind (build_evidence_package clause_ref db ledger t) (λ e,
      res_bind (violations_of (details (fields (ep_ledger_entry e)))) (λ vs,
      let record := grievance_of c t entry check e vs new_id now in
      let q' := create_draft q record in
      if auto_submit_enabled c then
        res_bind (confirm_for_submission q' new_id) (λ '(q'', r), Ok (q'', Some r, [new_id]))
      else Ok (q', Some record, []))).

(** ** [log_evaluation] with the hook

    After every row that was appended for a failure the trigger runs, without a
    session of the main schema; what it raises is logged.  [ids] are the ids the
    drafts get. *)
Definition _trigger_grievance_escalation (c : GrievanceSettings) (clause_ref : LedgerEntry → option Z) (ledger : ledger_table)
    (q : GrievanceQueue) (entry : LedgerEntry) (t : TransactionPayload) (new_id : string) (now : datetime)
  : GrievanceQueue * list string :=
  match evaluate_and_trigger_grievance_escalation c clause_ref None ledger q entry t new_id now with
  | Ok (q', _, sent) => (q', sent)
  | Raise _ => (q, [])
  end.

Fixpoint append_and_escalate (c : GrievanceSettings) (clause_ref : LedgerEntry → option Z) (ledger : ledger_table)
    (q : GrievanceQueue) (t : TransactionPayload) (es : list ComplianceEvaluationEvent) (now : datetime) (up : list bool)
    (ids : list string) : ledger_table * GrievanceQueue * list string :=
  match es with
  | [] => (ledger, q, [])
  | e :: es' =>
      let '(ledger1, q1, sent1) :=
        if nth 0 up true then
          match append_entry ledger e now with
          | Ok (l, entry) =>
              match ev_evaluation_result e with
              | FAIL => let '(q', sent) := _trigger_grievance_escalation c clause_ref l q entry t (nth 0 ids "") now in (l, q', sent)
              | _ => (l, q, [])
              end
          | Raise _ => (ledger, q, [])
          end
        else (ledger, q, []) in
      let '(ledger2, q2, sent2) := append_and_escalate c clause_ref ledger1 q1 t es' now (tl up) (tl ids) in
      (ledger2, q2, sent1 ++ sent2)%list
  end.

Definition log_and_escalate (c : GrievanceSettings) (clause_ref : LedgerEntry → option Z) (ledger : ledger_table)
    (q : GrievanceQueue) (t : TransactionPayload) (result : EvaluationResult) (now : datetime) (up : list bool)
    (ids : list string) : res event_error (ledger_table * GrievanceQueue * list string) :=
  res_bind (build_ledger_events t result) (λ es, Ok (append_and_escalate c clause_ref ledger q t es now up ids)).

(** ** [scores_client.py] *)
Definition ScoresApiError (text : string) (causes : list (list string)) : raised :=
  Raised "ScoresApiError" text ["ScoresApiError"; "RuntimeError"; "Exception"] causes.
Definition ScoresApiNotConfiguredError : raised :=
  Raised "ScoresApiNotConfiguredError" "settings.scores_api_base_url is not set; refusing to guess a SCORES endpoint URL."
    ["ScoresApiNotConfiguredError"; "ScoresApiError"; "RuntimeError"; "Exception"] [].

Definition _map_scores_status (raw : string) : ScoresGrievanceStatus :=
  default SC_UNKNOWN
    (List.find (λ s, String.eqb (scores_value s) (replace_char " " "_" (lower (strip raw)))) all_scores_statuses).

(** [_map_scores_status(body.get("status", default))] *)
Definition status_of_body (b : list (string * json)) (dflt : string) : res raised ScoresGrievanceStatus :=
  match obj_get "status" b with
  | None => Ok (_map_scores_status dflt)
  | Some (JStr s) => Ok (_map_scores_status s)
  | Some _ => Raise (bad_body "AttributeError" "strip")
  end.

(** The part both calls share: the body of an accepted response. *)
Definition scores_call (c : GrievanceSettings) (failed refused : string) (reply : portal_reply)
  : res raised (string * list (string * json)) :=
  if negb (truthy (scores_api_base_url c)) then Raise ScoresApiNotConfiguredError
  else
    match reply with
    | HttpRaised text classes => Raise (ScoresApiError (failed +:+ ": " +:+ text) [classes])
    | HttpResponse status text body =>
        if 300 <=? status then Raise (ScoresApiError (refused +:+ ": " +:+ str_of_Z status +:+ " " +:+ text) [])
        else
          match body with
          | Some (JObj b) => Ok (text, b)
          | Some _ => Raise (bad_body "TypeError" "body")
          | None => Raise (bad_body "JSONDecodeError" "body")
          end
    end.

Definition submit_grievance (c : GrievanceSettings) (request : GrievanceSubmissionRequest) (reply : portal_reply) (now : datetime)
  : res raised GrievanceSubmissionResponse :=
  res_bind (scores_call c "SCORES grievance submission request failed"
              ("SCORES rejected grievance submission (reference_id=" +:+ rq_reference_id request +:+ ")") reply) (λ '(text, b),
  match obj_get "scores_reference_number" b with
  | None => Raise (bad_body "KeyError" "'scores_reference_number'")
  | Some reference =>
      res_bind (status_of_body b "submitted") (λ st,
      match reference with
      | JStr s => Ok (SubmissionResponse s st now (Some text))
      | _ => Raise (bad_body "ValidationError" "scores_reference_number")
      end)
  end).

(** [parse_datetime] is what pydantic makes of the value of a datetime field. *)
Definition get_grievance_status (parse_datetime : json → option datetime) (c : GrievanceSettings) (reference : string)
    (reply : portal_reply) : res raised GrievanceStatusResponse :=
  res_bind (scores_call c ("SCORES status poll request failed for " +:+ reference)
              ("SCORES rejected status poll for " +:+ reference) reply) (λ '(text, b),
  res_bind (status_of_body b "") (λ st,
  match obj_get "last_updated_at" b with
  | None => Raise (bad_body "KeyError" "'last_updated_at'")
  | Some d =>
      match parse_datetime d, default JNull (obj_get "resolution_summary" b) with
      | Some at_, JStr s => Ok (StatusResponse reference st at_ (Some s) (Some text))
      | Some at_, JNull => Ok (StatusResponse reference st at_ None (Some text))
      | _, _ => Raise (bad_body "ValidationError" "GrievanceStatusResponse")
      end
  end)).

(** ** [dashboard.py] *)
Definition grievance_filed_event (event_id : string) (r : GrievanceRecord) (now : datetime) : BreachEvent :=
  new_breach event_id now WARNING GRIEVANCE_FILED ("SCORES grievance drafted: " +:+ rs_broker_id (respondent r))
    (rq_description (gr_request r)) (Some (rs_broker_id (respondent r))) None None None None None
    [ ("grievance_id", JStr (gr_grievance_id r)); ("category", JStr (category_value (rq_category (gr_request r))));
      ("response_due_at", JStr (iso_utc (utc_us (gr_response_due_at r)))) ].

Definition grievance_status_event (event_id : string) (r : GrievanceRecord) (now : datetime) : BreachEvent :=
  new_breach event_id now INFO GRIEVANCE_STATUS_UPDATE
    ("SCORES grievance " +:+ str_or (gr_scores_reference_number r) (gr_grievance_id r) +:+ ": "
     +:+ match gr_scores_status r with Some s => scores_value s | None => "unknown" end)
    (str_or (gr_resolution_summary r) "No resolution summary provided by SCORES.")
    (Some (rs_broker_id (respondent r))) None None None None None
    [ ("grievance_id", JStr (gr_grievance_id r)); ("scores_reference_number", opt_str (gr_scores_reference_number r));
      ("status", JStr (grievance_value (gr_status r))); ("is_overdue", JBool (is_overdue r now));
      ("response_due_at", JStr (iso_utc (utc_us (gr_response_due_at r)))) ].

(** ** [tasks.py] *)

(** [_submit_one] up to the call, and from its reply on. *)
Definition begin_grievance (q : GrievanceQueue) (id : string) : option (GrievanceQueue * GrievanceRecord) :=
  match gq_records q !! id with
  | None => None
  | Some _ => match mark_submitting q id with Ok x => Some x | Raise _ => None end
  end.

Definition finish_grievance (q : GrievanceQueue) (r : GrievanceRecord) (reply : res raised GrievanceSubmissionResponse)
    (event_id : string) (now : datetime) : res grievance_error (GrievanceQueue * option BreachEvent) :=
  let id := gr_grievance_id r in
  match reply with
  | Ok response =>
      res_bind (mark_submitted q id (sr_scores_reference_number response) now) (λ '(q', r'),
      Ok (q', Some (grievance_filed_event event_id r' now)))
  | Raise e =>
      if raised_is_transient e && (gr_attempt_count r <? gr_max_retries r) then
        res_bind (grievance_mark_retry q id (ex_text e)) (λ '(q', _), Ok (q', None))
      else res_bind (mark_submission_failed q id (ex_text e)) (λ '(q', _), Ok (q', None))
  end.

Definition submit_one_grievance (c : GrievanceSettings) (q : GrievanceQueue) (id : string) (reply : portal_reply)
    (event_id : string) (now : datetime) : res grievance_error (GrievanceQueue * option BreachEvent) :=
  match begin_grievance q id with
  | None => Ok (q, None)
  | Some (q1, r) => finish_grievance q1 r (submit_grievance c (gr_request r) reply now) event_id now
  end.

(** The ids the sweeps dispatch. *)
Definition _submit_pending (q : GrievanceQueue) : list string := map gr_grievance_id (list_pending_submission q).
Definition _poll_pending (q : GrievanceQueue) : list string := map gr_grievance_id (list_open q).

(** [poll_grievance_status_now]: [status] is the result of [get_grievance_status],
    [Raise] an exception: a [ScoresApiError] is logged, another one ends the task,
    and neither changes the queue. *)
Definition poll_grievance_status_now (q : GrievanceQueue) (id : string) (status : res raised GrievanceStatusResponse)
    (event_id : string) (now : datetime) : GrievanceQueue * option BreachEvent :=
  match gq_records q !! id with
  | None => (q, None)
  | Some r =>
      match gr_scores_reference_number r, status with
      | Some _, Ok s =>
          if bool_decide (Some (ss_status s) = gr_scores_status r ∧ ss_resolution_summary s = gr_resolution_summary r) then (q, None)
          else match update_status q id (ss_status s) (ss_resolution_summary s) now with
               | Ok (q', r') => (q', Some (grievance_status_event event_id r' now))
               | Raise _ => (q, None)
               end
      | _, _ => (q, None)
      end
  end.

(** ** The queue as a transition system

    As for filings: a worker begins a submission and ends it with the reply, or
    dies.  [gs_confirmed] logs the confirmations, [gs_sent] the submissions and
    whether SCORES accepted them, [gs_reports] the statuses SCORES reported.  With
    [stale] a task may begin for a grievance that is not waiting. *)
Record grievance_state := GState
  { gs_queue : GrievanceQueue
  ; gs_flight : list GrievanceRecord
  ; gs_confirmed : list string
  ; gs_sent : list (string * bool)
  ; gs_reports : list (string * ScoresGrievanceStatus)
  ; gs_events : list BreachEvent }.
Definition initial_grievances : grievance_state := GState no_grievances [] [] [] [] [].

Definition new_grievance (r : GrievanceRecord) : Prop :=
  gr_status r = DRAFTED ∧ gr_attempt_count r = 0 ∧ gr_scores_reference_number r = None.
Definition waiting (q : GrievanceQueue) (id : string) : Prop :=
  id ∈ _submit_pending q ∧ gr_status <$> gq_records q !! id = Some PENDING_SUBMISSION.

Inductive grievance_step (stale : bool) (s : grievance_state) : grievance_state → Prop :=
| gstep_draft r :
    new_grievance r → gq_records (gs_queue s) !! gr_grievance_id r = None →
    grievance_step stale s
      (GState (create_draft (gs_queue s) r) (gs_flight s) (gs_confirmed s) (gs_sent s) (gs_reports s) (gs_events s))
| gstep_confirm id q r :
    confirm_for_submission (gs_queue s) id = Ok (q, r) →
    grievance_step stale s
      (GState q (gs_flight s) (gs_confirmed s ++ [id])%list (gs_sent s) (gs_reports s) (gs_events s))
| gstep_begin id q r :
    (stale = false → waiting (gs_queue s) id) →
    begin_grievance (gs_queue s) id = Some (q, r) →
    grievance_step stale s
      (GState q (gs_flight s ++ [r])%list (gs_confirmed s) (gs_sent s) (gs_reports s) (gs_events s))
| gstep_finish before r after reply event_id now q ev :
    gs_flight s = (before ++ r :: after)%list →
    finish_grievance (gs_queue s) r reply event_id now = Ok (q, ev) →
    grievance_step stale s
      (GState q (before ++ after)%list (gs_confirmed s) (gs_sent s ++ [(gr_grievance_id r, is_ok reply)])%list (gs_reports s)
         (gs_events s ++ option_list ev)%list)
| gstep_crash before r after :
    gs_flight s = (before ++ r :: after)%list →
    grievance_step stale s
      (GState (gs_queue s) (before ++ after)%list (gs_confirmed s) (gs_sent s) (gs_reports s) (gs_events s))
| gstep_poll id status event_id now q ev :
    poll_grievance_status_now (gs_queue s) id (Ok status) event_id now = (q, ev) →
    grievance_step stale s
      (GState q (gs_flight s) (gs_confirmed s) (gs_sent s) (gs_reports s ++ [(id, ss_status status)])%list
         (gs_events s ++ option_list ev)%list).

Example statuses_read :
  map _map_scores_status ["Resolved"; " under review"; "PENDING WITH RESPONDENT"; "closed"; ""]
  = [SC_RESOLVED; SC_UNDER_REVIEW; SC_PENDING_WITH_RESPONDENT; SC_UNKNOWN; SC_UNKNOWN].
Proof. by vm_compute. Qed.
