(* ===== verification/GrievanceFacts.v ===== *)
(** * Grievances: when one is drafted, and its life *)
From S2P Require Import Prelude PyStr Json JsonFacts Datetime Sha256 DocModels Ledger LedgerFacts Resilience ExecModels.
From S2P Require Import Integration Backtest BacktestFacts Incident IncidentFacts FilingReport Filing FilingFacts LedgerWitness Grievance.
From stdpp Require Import gmap fin_maps.

Open Scope string_scope.
Open Scope Z_scope.

(** ** The proof of one row *)

(** Every row of a chain is linked to the row before it. *)
Lemma chain_from_link h n l r :
  chain_from h n l → r ∈ l →
  current_hash r = compute_block_hash (previous_hash r) (payload_digest r) (sequence_num r) (evaluated_at (fields r))
  ∧ (sequence_num r = n + 1 ∧ previous_hash r = h
     ∨ ∃ p, p ∈ l ∧ sequence_num p = sequence_num r - 1 ∧ current_hash p = previous_hash r).
Proof.
  revert h n. induction l as [|x l IH]; intros h n; [by intros _ ?%not_elem_of_nil|].
  intros (Hs & Hp & _ & Hc & Hl) [->|Hin]%elem_of_cons; [rewrite Hs Hp; split; [done|by left]|].
  destruct (IH _ _ Hl Hin) as [Hh [[Hs' Hp']|(p & Hpl & Hps & Hpc)]]; split; [done| |done|]; right.
  - exists x. split_and!; [left|lia|done].
  - exists p. split_and!; [by right|done..].
Qed.

Lemma single_entry_proof_matches ledger r :
  chain_ok ledger → r ∈ rows ledger →
  build_single_entry_proof ledger r = EntryProof r (Some (previous_hash r)) (Some (current_hash r)) true (Some true).
Proof.
  intros Hc Hr. destruct (chain_from_link _ _ _ _ Hc Hr) as [Hh Hlink]. pose proof (chain_from_seq _ _ _ _ Hc Hr) as Hseq.
  assert (Hprev : (if sequence_num r =? 0 then Some GENESIS_HASH
                   else current_hash <$> get_ledger_entry_by_sequence_num ledger (sequence_num r - 1)) = Some (previous_hash r)).
  { destruct (Z.eqb_spec (sequence_num r) 0) as [E|Hne]; destruct Hlink as [[Hs Hp]|(p & Hpl & Hps & Hpc)].
    - by rewrite Hp.
    - pose proof (chain_from_seq _ _ _ _ Hc Hpl). lia.
    - lia.
    - unfold get_ledger_entry_by_sequence_num, row_at. rewrite -Hps (row_at_chain _ _ _ _ Hc Hpl). simpl. by rewrite Hpc. }
  unfold build_single_entry_proof. rewrite Hprev. cbv zeta. by rewrite -Hh String.eqb_refl.
Qed.

(** ** The trigger *)
Section trigger.
Context (c : GrievanceSettings) (clause_ref : LedgerEntry → option Z).

(** What the hook does never reaches the ledger. *)
Lemma escalation_keeps_ledger ledger q t es now up ids :
  (append_and_escalate c clause_ref ledger q t es now up ids).1.1 = append_events ledger es now up.
Proof.
  revert ledger q up ids. induction es as [|e es IH]; intros ledger q up ids; [done|]. cbn [append_and_escalate append_events].
  set (first := if nth 0 up true then _ else _).
  assert (E : first.1.1 = if nth 0 up true then match append_entry ledger e now with Ok (l, _) => l | Raise _ => ledger end else ledger).
  { subst first. destruct (nth 0 up true); [|done]. destruct (append_entry ledger e now) as [[l entry]|]; [|done].
    destruct (ev_evaluation_result e); [done| |done]. by destruct (_trigger_grievance_escalation _ _ _ _ _ _ _ _). }
  destruct first as [[l1 q1] s1]. simpl in E. rewrite -E -(IH l1 q1 (tl up) (tl ids)).
  by destruct (append_and_escalate _ _ _ _ _ _ _ _ _) as [[l2 q2] s2].
Qed.

(** A transaction that already has a row is judged again: the trigger raises, and
    no grievance is drafted whatever the number of failures. *)
Lemma second_row_never_escalates ledger q t r0 r next new_id now :
  r0 ∈ rows ledger → transaction_id (fields r0) = tx_transaction_id t → transaction_id (fields r) = tx_transaction_id t →
  _trigger_grievance_escalation c clause_ref (Table (rows ledger ++ [r]) next) q r t new_id now = (q, []).
Proof.
  intros Hin H0 Hr. unfold _trigger_grievance_escalation, evaluate_and_trigger_grievance_escalation.
  destruct (negb (grievance_escalation_enabled c)); [done|]. cbv zeta. destruct (negb (is_systemic _)); [done|].
  unfold build_evidence_package. destruct (get_ledger_entry_by_transaction_id _ _) as [entry|]; [|done]. cbv zeta.
  assert (Hlen : (2 <= length (List.filter (of_transaction (tx_transaction_id t)) (rows (Table (rows ledger ++ [r]) next))))%nat).
  { simpl. rewrite List.filter_app length_app. simpl. unfold of_transaction at 2. rewrite Hr String.eqb_refl. simpl.
    assert (In r0 (List.filter (of_transaction (tx_transaction_id t)) (rows ledger))) as Hf.
    { apply filter_In. split; [by apply list_elem_of_In|]. unfold of_transaction. by rewrite H0 String.eqb_refl. }
    destruct (List.filter _ (rows ledger)); [done|]. simpl. lia. }
  destruct (List.filter _ _) as [|a [|b l]]; simpl in Hlen; [lia..|]. done.
Qed.

Lemma res_mapM_texts (vs : list string) : res_mapM as_text (map JStr vs) = Ok vs.
Proof. induction vs as [|v vs IH]; [done|]. cbn [map res_mapM]. simpl. by rewrite IH. Qed.

Lemma find_last {A} (p : A → bool) l x :
  Forall (λ y, p y = false) l → p x = true → List.find p (l ++ [x])%list = Some x ∧ List.filter p (l ++ [x])%list = [x].
Proof.
  intros Hl Hx. induction Hl as [|y l Hy Hl [IH1 IH2]]; cbn [app List.find List.filter]; [by rewrite Hx|]. by rewrite Hy.
Qed.

(** The failures the detector counts once the row [r] of the transaction is in. *)
Definition failures_with (ledger : ledger_table) (r : LedgerEntry) (now : datetime) : Z :=
  1 + Z.of_nat (length (List.filter (failed_in_window (broker_id (fields r)) (rule_id (fields r))
                                       (systemic_failure_window_days c) now) (rows ledger))).

(** The record is the draft of the last row, with a proof of that row that checks. *)
Definition evidence_of_row (t : TransactionPayload) (r : LedgerEntry) : GrievanceEvidencePackage :=
  Evidence t r (EntryProof r (Some (previous_hash r)) (Some (current_hash r)) true (Some true))
    (clause_hash (fields r)) None None (section_reference (fields r)).

Definition drafted_for (r : LedgerEntry) (t : TransactionPayload) (o : PolicyOutcome) (n : Z) (gid : string) (now : datetime)
    (g : GrievanceRecord) : Prop :=
  gr_grievance_id g = gid ∧ rq_reference_id (gr_request g) = gid
  ∧ rs_broker_id (respondent g) = broker_id (fields r)
  ∧ rq_category (gr_request g) = _categorize (po_rule_id o) (violations o)
  ∧ gr_max_retries g = max_submit_retries c
  ∧ utc_us (gr_response_due_at g) = utc_us now + sla_response_days c * us_per_day
  ∧ rq_evidence (gr_request g) = to_evidence_documents (evidence_of_row t r)
  ∧ rq_description (gr_request g)
    = grievance_description t r
        (Systemic (broker_id (fields r)) (rule_id (fields r)) (systemic_failure_window_days c) (systemic_failure_threshold_count c) n)
        (evidence_of_row t r) (violations o)
  ∧ gr_status g = (if auto_submit_enabled c then PENDING_SUBMISSION else DRAFTED).

Lemma trigger_on_new_row ledger q t o r next gid now :
  chain_ok (Table (rows ledger ++ [r]) next) →
  Forall (λ x, transaction_id (fields x) ≠ tx_transaction_id t) (rows ledger) →
  transaction_id (fields r) = tx_transaction_id t → rule_id (fields r) = po_rule_id o →
  failed_in_window (broker_id (fields r)) (rule_id (fields r)) (systemic_failure_window_days c) now r = true →
  violations_of (details (fields r)) = Ok (violations o) →
  let n := failures_with ledger r now in
  let res := _trigger_grievance_escalation c clause_ref (Table (rows ledger ++ [r]) next) q r t gid now in
  if grievance_escalation_enabled c && (systemic_failure_threshold_count c <=? n)
  then ∃ g, drafted_for r t o n gid now g
       ∧ res = (GQueue (<[gid := g]> (gq_records q)) (if auto_submit_enabled c then {[gid]} ∪ gq_pending q else gq_pending q) (gq_open q),
                if auto_submit_enabled c then [gid] else [])
  else res = (q, []).
Proof.
  intros Hc Hnew Htx Hrule Hwin Hvs n res. subst res. unfold _trigger_grievance_escalation, evaluate_and_trigger_grievance_escalation.
  destruct (grievance_escalation_enabled c); [|done]. cbn [negb andb]. cbv zeta.
  set (check := check_systemic_failure _ _ _ _ _ _).
  assert (Hsys : check = Systemic (broker_id (fields r)) (rule_id (fields r)) (systemic_failure_window_days c)
                           (systemic_failure_threshold_count c) n).
  { subst check n. unfold check_systemic_failure, failures_with. cbn [rows]. f_equal.
    rewrite List.filter_app length_app. cbn [List.filter]. rewrite Hwin. cbn [length]. lia. }
  rewrite Hsys. unfold is_systemic. cbn [sf_threshold_count sf_failure_count]. destruct (systemic_failure_threshold_count c <=? n); [|done]. cbn [negb].
  assert (Hfind := find_last (of_transaction (tx_transaction_id t)) (rows ledger) r).
  destruct Hfind as [Hf1 Hf2].
  { eapply Forall_impl; [exact Hnew|]. intros x Hx. by apply String.eqb_neq. }
  { unfold of_transaction. by rewrite Htx String.eqb_refl. }
  unfold build_evidence_package, get_ledger_entry_by_transaction_id. cbn [rows]. rewrite Hf1 Hf2. cbv zeta. cbn [res_bind].
  rewrite (single_entry_proof_matches _ r Hc); [|cbn [rows]; set_solver]. cbn [ep_ledger_entry]. rewrite Hvs. cbn [res_bind].
  destruct (auto_submit_enabled c) eqn:Hauto.
  - unfold confirm_for_submission, _require, create_draft, grievance_save. cbn [gq_records gr_grievance_id grievance_of].
    rewrite lookup_insert_eq. cbn [res_bind gr_status]. rewrite bool_decide_true; [|done]. cbn [res_bind].
    eexists. split; [|by rewrite insert_insert_eq].
    unfold drafted_for, utc_us. rewrite Hauto. split_and!; try done; [by rewrite -Hrule|simpl; lia].
  - eexists. split; [|done]. unfold drafted_for, utc_us. rewrite Hauto. split_and!; try done; [by rewrite -Hrule|simpl; lia].
Qed.
End trigger.

Lemma one_event t result o :
  matched_policies result = [o] → _outcome_result o = FAIL →
  ∃ e, build_ledger_events t result = Ok [e] ∧ ev_evaluation_result e = FAIL
     ∧ model_dump e = EventFields (str_or (tx_broker_id t) "unknown") (tx_transaction_id t) (er_evaluated_at result)
                        (str_or (po_circular_number o) "unknown") (clause_hash_of o) (str_or (po_clause_number o) "unscoped")
                        (po_rule_id o) (outcome_value FAIL) None (outcome_details t result o).
Proof.
  intros Hm Hf. unfold build_ledger_events. rewrite Hm. unfold res_mapM, outcome_event. rewrite Hf. eexists.
  split; [reflexivity|]. by split.
Qed.

(** C39. Repeated failures reach the regulator with evidence that checks.  A
    transaction that was not judged before is denied by the one policy that
    applies to it, and is logged: the ledger grows by its row as if there were no
    escalation, and stays a chain.  When escalation is enabled and this failure is
    at least the threshold-th of the broker under the rule in the window, one
    grievance is drafted for the broker (queued at once if the setting says so):
    its evidence is the new row with a proof that is verifiable and matches, its
    text gives the number of failures, its deadline is the agreed one.  Otherwise
    the queue does not change. *)
Theorem repeated_failures_escalate c clause_ref ledger q t result o now gid :
  chain_ok ledger →
  Forall (λ r, transaction_id (fields r) ≠ tx_transaction_id t) (rows ledger) →
  matched_policies result = [o] → _outcome_result o = FAIL →
  utc_us now - systemic_failure_window_days c * us_per_day <= utc_us (er_evaluated_at result) <= utc_us now →
  ∃ r q' sent,
    let ledger' := Table (rows ledger ++ [r]) (next_id ledger + 1) in
    let n := failures_with c ledger r now in
    log_and_escalate c clause_ref ledger q t result now [] [gid] = Ok (ledger', q', sent)
    ∧ log_evaluation ledger t result now [] = Ok ledger' ∧ chain_ok ledger'
    ∧ transaction_id (fields r) = tx_transaction_id t
    ∧ broker_id (fields r) = str_or (tx_broker_id t) "unknown" ∧ rule_id (fields r) = po_rule_id o
    ∧ if grievance_escalation_enabled c && (systemic_failure_threshold_count c <=? n)
      then ∃ g, drafted_for c r t o n gid now g ∧ gq_records q' = <[gid := g]> (gq_records q) ∧ gq_open q' = gq_open q
           ∧ if auto_submit_enabled c then gq_pending q' = {[gid]} ∪ gq_pending q ∧ sent = [gid]
             else gq_pending q' = gq_pending q ∧ sent = []
      else q' = q ∧ sent = [].
Proof.
  intros Hc Hnew Hm Hf [Hw1 Hw2]. destruct (one_event t result o Hm Hf) as (e & He & Hef & Hd).
  destruct (append_ok ledger e now Hc) as (r & Ha & Hc' & Hr & _). rewrite Hd in Hr.
  pose proof (trigger_on_new_row c clause_ref ledger q t o r (next_id ledger + 1) gid now Hc' Hnew) as Htr.
  rewrite Hr in Htr. cbn [fields transaction_id rule_id broker_id evaluated_at details] in Htr.
  assert (Hwin : failed_in_window (str_or (tx_broker_id t) "unknown") (po_rule_id o) (systemic_failure_window_days c) now r = true).
  { unfold failed_in_window. rewrite Hr. cbn [transaction_id rule_id broker_id evaluated_at evaluation_result].
    rewrite !String.eqb_refl. cbn [andb]. apply andb_true_intro. split; by apply Z.leb_le. }
  specialize (Htr eq_refl eq_refl Hwin (res_mapM_texts _)).
  cbv zeta in Htr. unfold log_and_escalate, log_evaluation. rewrite He. cbn [res_bind append_and_escalate append_events nth].
  rewrite Ha Hef.
  destruct (_trigger_grievance_escalation _ _ _ _ _ _ _ _) as [q' sent].
  exists r, q', sent. rewrite app_nil_r Hr. cbn [transaction_id broker_id rule_id]. split_and!; [done..|].
  destruct (_ && _).
  - destruct Htr as (g & Hg & [= -> ->]). exists g. split_and!; [done..|]. by destruct (auto_submit_enabled c).
  - by injection Htr.
Qed.

(** ** A broker that fails a rule for the second time *)
Definition e_settings (auto : bool) : GrievanceSettings := GSettings true 30 2 3 30 auto (Some "https://scores").
Definition e_tx (n : Z) : TransactionPayload :=
  Transaction ("TXN-new-" +:+ str_of_Z n) "Stockbroker" [] REST_SYNC (Some "BRK-1") None (at_minute 45) [].
Definition e_outcome (rule : string) (ok : bool) : PolicyOutcome :=
  Outcome rule "sebi" (Some ok) (if ok then [] else ["Upfront Margin is short"]) (Some "SEBI/HO/2024/1") (Some "4.1") (Some 1)
    None None None None (Some "a3f1").
Definition e_result (n : Z) (os : list PolicyOutcome) : EvaluationResult :=
  EvalResult ("TXN-new-" +:+ str_of_Z n) DENY os [] None (at_minute 45).

Lemma repeated_failures_witness :
  ∃ ledger' q' sent g,
    log_and_escalate (e_settings true) (λ _, None) led_ok no_grievances (e_tx 1) (e_result 1 [e_outcome "rule-7" false])
      (at_minute 50) [] ["g-1"] = Ok (ledger', q', sent)
    ∧ gq_records q' !! "g-1" = Some g ∧ gq_pending q' = {["g-1"]} ∪ ∅
    ∧ rq_category (gr_request g) = BROKER_SYSTEMIC_NON_COMPLIANCE ∧ gr_status g = PENDING_SUBMISSION.
Proof.
  destruct (repeated_failures_escalate (e_settings true) (λ _, None) led_ok no_grievances (e_tx 1) (e_result 1 [e_outcome "rule-7" false])
              (e_outcome "rule-7" false) (at_minute 50) "g-1") as (r & q' & sent & Hlog & _ & _ & _ & Hb & Hrule & Hg).
  - exact led_ok_chain.
  - repeat constructor; vm_compute; discriminate.
  - reflexivity.
  - reflexivity.
  - by vm_compute.
  - assert (Hn : failures_with (e_settings true) led_ok r (at_minute 50) = 2)
      by (unfold failures_with; rewrite Hb Hrule; vm_compute; reflexivity).
    cbv zeta in Hg. rewrite Hn in Hg. destruct Hg as (g & (_ & _ & _ & Hcat & _ & _ & _ & _ & Hst) & Hq & _ & Hp & _).
    exists (Table (rows led_ok ++ [r]) (next_id led_ok + 1)), q', sent, g.
    split; [exact Hlog|]. split; [rewrite Hq; apply lookup_insert_eq|]. split; [exact Hp|].
    split; [rewrite Hcat; vm_compute; reflexivity|exact Hst].
Defined.

(** When two policies apply to a transaction and the second one denies it, the
    broker is never reported: here for the second time in the window. *)
Lemma two_policies_no_grievance :
  (λ x, elements (dom (gq_records x.1.2))) <$>
    match log_and_escalate (e_settings false) (λ _, None) led_ok no_grievances (e_tx 1)
            (e_result 1 [e_outcome "rule-8" true; e_outcome "rule-7" false]) (at_minute 50) [] ["g-1"; "g-2"] with
    | Ok x => Some x | Raise _ => None end
  = Some [].
Proof. by vm_compute. Qed.

(** Every further failure drafts one more grievance about the same pattern. *)
Lemma one_grievance_per_failure :
  match log_and_escalate (e_settings false) (λ _, None) led_ok no_grievances (e_tx 1) (e_result 1 [e_outcome "rule-7" false])
          (at_minute 50) [] ["g-1"] with
  | Ok (l, q, _) =>
      match log_and_escalate (e_settings false) (λ _, None) l q (e_tx 2) (e_result 2 [e_outcome "rule-7" false]) (at_minute 50) [] ["g-2"] with
      | Ok (_, q', _) => Some (size (gq_records q'))
      | Raise _ => None
      end
  | Raise _ => None
  end = Some 2%nat.
Proof. by vm_compute. Qed.

(** * The life of a grievance

    The transition system of [Grievance] seen from one grievance: every step leaves
    the others alone, so that an invariant of one is an invariant of all. *)

(** ** The view of one grievance *)
Definition is_filed (r : GrievanceRecord) : bool :=
  match gr_status r with SUBMITTED | GR_RESOLVED | GR_REJECTED => true | _ => false end.
Definition is_queued (r : GrievanceRecord) : bool :=
  match gr_status r with PENDING_SUBMISSION | SUBMITTING => true | _ => false end.

Definition submissions (sent : list (string * bool)) (id : string) : Z := count_if (λ x, String.eqb x.1 id) sent.
Definition acceptances (sent : list (string * bool)) (id : string) : Z := count_if (λ x, String.eqb x.1 id && x.2) sent.
Definition of_grievance (id : string) (r : GrievanceRecord) : bool := String.eqb (gr_grievance_id r) id.

Record gview := View
  { vw_record : option GrievanceRecord
  ; vw_pending : bool
  ; vw_open : bool
  ; vw_flight : list GrievanceRecord
  ; vw_confirmed : bool
  ; vw_submissions : Z
  ; vw_acceptances : Z
  ; vw_reports : list (string * ScoresGrievanceStatus) }.

Definition view (s : grievance_state) (id : string) : gview :=
  View (gq_records (gs_queue s) !! id) (bool_decide (id ∈ gq_pending (gs_queue s))) (bool_decide (id ∈ gq_open (gs_queue s)))
    (List.filter (of_grievance id) (gs_flight s)) (bool_decide (id ∈ gs_confirmed s)) (submissions (gs_sent s) id) (acceptances (gs_sent s) id)
    (List.filter (λ x, String.eqb x.1 id) (gs_reports s)).

(** What holds of a grievance that has a record. *)
Record life_ok (id : string) (v : gview) (r : GrievanceRecord) : Prop :=
  { lo_id : gr_grievance_id r = id
  ; lo_pending : vw_pending v = is_queued r
  ; lo_open : vw_open v = is_open r
  ; lo_attempts : 0 <= vw_submissions v <= gr_attempt_count r
  ; lo_budget : gr_attempt_count r <= Z.max 1 (gr_max_retries r)
  ; lo_room : gr_status r = DRAFTED ∨ gr_status r = PENDING_SUBMISSION → gr_attempt_count r = 0 ∨ gr_attempt_count r < gr_max_retries r
  ; lo_confirmed : vw_confirmed v = negb (bool_decide (gr_status r = DRAFTED))
  ; lo_draft : gr_status r = DRAFTED → vw_submissions v = 0
  ; lo_accepted : vw_acceptances v = Z.b2z (is_filed r)
  ; lo_reference : is_Some (gr_scores_reference_number r) ↔ is_filed r = true
  ; lo_resolved : gr_status r = GR_RESOLVED → (id, SC_RESOLVED) ∈ vw_reports v
  ; lo_rejected : gr_status r = GR_REJECTED → (id, SC_REJECTED) ∈ vw_reports v
  ; lo_flight : vw_flight v = [] ∨ (vw_flight v = [r] ∧ gr_status r = SUBMITTING ∧ vw_submissions v < gr_attempt_count r) }.

Definition view_ok (id : string) (v : gview) : Prop :=
  match vw_record v with
  | None => vw_pending v = false ∧ vw_open v = false ∧ vw_flight v = [] ∧ vw_confirmed v = false
            ∧ vw_submissions v = 0 ∧ vw_acceptances v = 0
  | Some r => life_ok id v r
  end.
Definition lives_ok (s : grievance_state) : Prop := ∀ id, view_ok id (view s id).

Lemma initial_ok : lives_ok initial_grievances.
Proof.
  intros id. unfold view_ok, view, initial_grievances, no_grievances. cbn [vw_record gs_queue gq_records]. rewrite lookup_empty.
  cbn. split_and!; try done; apply bool_decide_eq_false; set_solver.
Qed.

(** ** A step and the other grievances *)
Lemma require_Ok q id r : _require q id = Ok r ↔ gq_records q !! id = Some r.
Proof. unfold _require. destruct (gq_records q !! id); naive_solver. Qed.

Lemma filter_single id r : gr_grievance_id r ≠ id → List.filter (of_grievance id) [r] = [].
Proof. intros H. simpl. unfold of_grievance. by rewrite (proj2 (String.eqb_neq _ _) H). Qed.

(** The queue changed at [id] only. *)
Definition same_queue_but (id : string) (q q' : GrievanceQueue) : Prop :=
  ∀ i, i ≠ id → gq_records q' !! i = gq_records q !! i ∧ (i ∈ gq_pending q' ↔ i ∈ gq_pending q) ∧ (i ∈ gq_open q' ↔ i ∈ gq_open q).

Lemma other_view s s' id i :
  i ≠ id → same_queue_but id (gs_queue s) (gs_queue s') →
  List.filter (of_grievance i) (gs_flight s') = List.filter (of_grievance i) (gs_flight s) →
  (i ∈ gs_confirmed s' ↔ i ∈ gs_confirmed s) →
  submissions (gs_sent s') i = submissions (gs_sent s) i → acceptances (gs_sent s') i = acceptances (gs_sent s) i →
  List.filter (λ x, String.eqb x.1 i) (gs_reports s') = List.filter (λ x, String.eqb x.1 i) (gs_reports s) →
  view s' i = view s i.
Proof.
  intros Hne Hq Hf Hc Hs Ha Hr. destruct (Hq i Hne) as (E1 & E2 & E3). unfold view. rewrite Hf Hs Ha Hr E1. f_equal; by apply bool_decide_ext.
Qed.

Lemma save_same_but q r id : gr_grievance_id r = id → same_queue_but id q (grievance_save q r).
Proof. intros <- i Hi. simpl. by rewrite lookup_insert_ne. Qed.

(** The step is about [id]: the others keep their view, and [id]'s is right. *)
Lemma lives_focus s s' id :
  lives_ok s → (∀ i, i ≠ id → view s' i = view s i) → view_ok id (view s' id) → lives_ok s'.
Proof. intros H Ho Hid i. destruct (decide (i = id)) as [->|Hne]; [done|]. rewrite Ho; [apply H|done]. Qed.

Lemma known_life s id r : lives_ok s → gq_records (gs_queue s) !! id = Some r → life_ok id (view s id) r.
Proof. intros H Hr. specialize (H id). unfold view_ok in H. simpl in H. by rewrite Hr in H. Qed.

Lemma view_known s id r : gq_records (gs_queue s) !! id = Some r → life_ok id (view s id) r → view_ok id (view s id).
Proof. intros Hr H. unfold view_ok. simpl. by rewrite Hr. Qed.

(** ** The steps *)
Lemma draft_ok s r :
  lives_ok s → new_grievance r → gq_records (gs_queue s) !! gr_grievance_id r = None →
  lives_ok (GState (create_draft (gs_queue s) r) (gs_flight s) (gs_confirmed s) (gs_sent s) (gs_reports s) (gs_events s)).
Proof.
  intros H (Hst & Hat & Href) Hnew. pose proof (H (gr_grievance_id r)) as Hv. unfold view_ok in Hv. simpl in Hv. rewrite Hnew in Hv.
  destruct Hv as (Hp & Ho & Hf & Hc & Hs & Ha). apply (lives_focus s _ (gr_grievance_id r)); [done| |].
  - intros i Hi. apply (other_view _ _ (gr_grievance_id r)); try done. by apply save_same_but.
  - eapply view_known; [simpl; by rewrite lookup_insert_eq|]. simpl in *.
    split; unfold is_queued, is_open, is_filed; simpl; rewrite ?Hst ?Hat ?Href ?Hs ?Ha ?Hf; try done; try lia; [by left..].
Qed.

Lemma confirm_ok s id q r :
  lives_ok s → confirm_for_submission (gs_queue s) id = Ok (q, r) →
  lives_ok (GState q (gs_flight s) (gs_confirmed s ++ [id])%list (gs_sent s) (gs_reports s) (gs_events s)).
Proof.
  intros H (r0 & Hr0%require_Ok & Hq)%res_bind_Ok. destruct (bool_decide_reflect (gr_status r0 = DRAFTED)) as [Hst|]; [|done].
  injection Hq as <- <-. destruct (known_life _ _ _ H Hr0) as [Hid Hp Ho Hat Hbu Hroom Hc Hdr Hac Href Hres Hrej Hfl].
  apply (lives_focus s _ id); [done| |].
  - intros i Hi. apply (other_view _ _ id); try done; [|simpl; set_solver]. intros j Hj. simpl. rewrite lookup_insert_ne; [set_solver|congruence].
  - eapply view_known; [simpl; by rewrite Hid lookup_insert_eq|]. simpl in *.
    split; unfold is_queued, is_open, is_filed in *; simpl in *; rewrite ?Hst in Hp, Ho, Hac, Href, Hroom, Hfl |- *; try done; try lia.
    + apply bool_decide_eq_true. set_solver.
    + intros _. apply Hroom. by left.
    + apply bool_decide_eq_true. set_solver.
    + destruct Hfl as [?|(_ & ? & _)]; [by left|done].
Qed.

Lemma begin_ok s id q r :
  lives_ok s → waiting (gs_queue s) id → begin_grievance (gs_queue s) id = Some (q, r) →
  lives_ok (GState q (gs_flight s ++ [r])%list (gs_confirmed s) (gs_sent s) (gs_reports s) (gs_events s)).
Proof.
  intros H [_ Hw]. unfold begin_grievance. destruct (gq_records (gs_queue s) !! id) as [r0|] eqn:Hr0; [|done].
  injection Hw as Hst. unfold mark_submitting. rewrite (proj2 (require_Ok _ _ _) Hr0). cbn [res_bind]. intros [= <- <-].
  destruct (known_life _ _ _ H Hr0) as [Hid Hp Ho Hat Hbu Hroom Hc Hdr Hac Href Hres Hrej Hfl].
  apply (lives_focus s _ id); [done| |].
  - intros i Hi. apply (other_view _ _ id); try done.
    + by apply save_same_but.
    + simpl. rewrite List.filter_app filter_single; [by rewrite app_nil_r|simpl; congruence].
  - eapply view_known; [simpl; by rewrite Hid lookup_insert_eq|]. simpl in *.
    split; unfold is_queued, is_open, is_filed in *; simpl in *; rewrite ?Hst in Hp, Ho, Hac, Href, Hroom, Hc, Hfl |- *; try done; try lia.
    + destruct Hroom as [->|?]; [by right|lia..].
    + intros [?|?]; done.
    + right. split_and!; [|done|lia]. rewrite List.filter_app. destruct Hfl as [->|(_ & ? & _)]; [|done].
      simpl. unfold of_grievance. simpl. by rewrite Hid String.eqb_refl.
Qed.

(** A record in flight is the one stored, and is the only one of its grievance. *)
Lemma in_flight s before r after :
  lives_ok s → gs_flight s = (before ++ r :: after)%list →
  gq_records (gs_queue s) !! gr_grievance_id r = Some r ∧ gr_status r = SUBMITTING
  ∧ submissions (gs_sent s) (gr_grievance_id r) < gr_attempt_count r
  ∧ List.filter (of_grievance (gr_grievance_id r)) (before ++ after)%list = [].
Proof.
  intros H Hfl. pose proof (H (gr_grievance_id r)) as Hv. unfold view_ok in Hv. simpl in Hv.
  assert (Hf : List.filter (of_grievance (gr_grievance_id r)) (gs_flight s)
               = (List.filter (of_grievance (gr_grievance_id r)) before ++ r :: List.filter (of_grievance (gr_grievance_id r)) after)%list).
  { rewrite Hfl List.filter_app. simpl. unfold of_grievance at 2. by rewrite String.eqb_refl. }
  rewrite List.filter_app.
  destruct (gq_records (gs_queue s) !! gr_grievance_id r) as [r0|].
  - pose proof (lo_flight _ _ _ Hv) as Hl. simpl in Hl. rewrite Hf in Hl. destruct Hl as [Hl|(Hl & Hst & Hlt)]; [by destruct (List.filter _ before)|].
    destruct (List.filter _ before) as [|x l]; [|by destruct l]. injection Hl as <- ->. done.
  - destruct Hv as (_ & _ & Hv & _). rewrite Hf in Hv. by destruct (List.filter _ before).
Qed.

Lemma flight_other i before r after :
  gr_grievance_id r ≠ i →
  List.filter (of_grievance i) (before ++ after)%list = List.filter (of_grievance i) (before ++ r :: after)%list.
Proof. intros Hne. rewrite !List.filter_app. simpl. unfold of_grievance at 4. by rewrite (proj2 (String.eqb_neq _ _) Hne). Qed.

Lemma sent_snoc l id b i :
  submissions (l ++ [(id, b)])%list i = submissions l i + Z.b2z (String.eqb id i)
  ∧ acceptances (l ++ [(id, b)])%list i = acceptances l i + Z.b2z (String.eqb id i && b).
Proof.
  unfold submissions, acceptances. rewrite !count_if_app. unfold count_if. simpl. by destruct (String.eqb id i), b.
Qed.

(** The three ends of a submission. *)
Lemma finish_grievance_cases q r reply ev now q' x :
  gq_records q !! gr_grievance_id r = Some r → finish_grievance q r reply ev now = Ok (q', x) →
  let id := gr_grievance_id r in
  ∃ r', gq_records q' = <[id := r']> (gq_records q) ∧ gr_grievance_id r' = id
    ∧ gr_attempt_count r' = gr_attempt_count r ∧ gr_max_retries r' = gr_max_retries r
    ∧ ((is_ok reply = true ∧ gr_status r' = SUBMITTED ∧ is_Some (gr_scores_reference_number r')
        ∧ gq_pending q' = gq_pending q ∖ {[id]} ∧ gq_open q' = {[id]} ∪ gq_open q)
       ∨ (is_ok reply = false ∧ gr_scores_reference_number r' = gr_scores_reference_number r ∧ gq_open q' = gq_open q
          ∧ ((gr_status r' = PENDING_SUBMISSION ∧ gr_attempt_count r < gr_max_retries r ∧ gq_pending q' = gq_pending q)
             ∨ (gr_status r' = SUBMISSION_FAILED ∧ gq_pending q' = gq_pending q ∖ {[id]})))).
Proof.
  intros Hr. unfold finish_grievance, mark_submitted, grievance_mark_retry, mark_submission_failed.
  rewrite (proj2 (require_Ok _ _ _) Hr). cbn [res_bind]. destruct reply as [resp|e]; [|destruct (raised_is_transient e && _) eqn:Hb];
    intros [= <- <-]; eexists; (split; [reflexivity|]); split_and!; try done.
  - left. simpl. split_and!; done.
  - right. split_and!; [done..|]. left. apply andb_true_iff in Hb as [_ Hb%Z.ltb_lt]. done.
  - right. split_and!; [done..|]. by right.
Qed.

Lemma finish_ok s before r after reply ev now q x :
  lives_ok s → gs_flight s = (before ++ r :: after)%list → finish_grievance (gs_queue s) r reply ev now = Ok (q, x) →
  lives_ok (GState q (before ++ after)%list (gs_confirmed s) (gs_sent s ++ [(gr_grievance_id r, is_ok reply)])%list (gs_reports s)
              (gs_events s ++ option_list x)%list).
Proof.
  intros H Hfl Hfin. destruct (in_flight _ _ _ _ H Hfl) as (Hr & Hst & Hlt & Hnone).
  destruct (known_life _ _ _ H Hr) as [Hid Hp Ho Hat Hbu Hroom Hc Hdr Hac Href Hres Hrej _].
  destruct (finish_grievance_cases _ _ _ _ _ _ _ Hr Hfin) as (r' & Hq & Hid' & Hat' & Hmx & Hcase).
  apply (lives_focus s _ (gr_grievance_id r)); [done| |].
  - intros i Hi. destruct (sent_snoc (gs_sent s) (gr_grievance_id r) (is_ok reply) i) as [E1 E2].
    rewrite (proj2 (String.eqb_neq (gr_grievance_id r) i)) in E1, E2; [|done..].
    apply (other_view _ _ (gr_grievance_id r)); try done; simpl; [|by rewrite Hfl -flight_other|rewrite E1; simpl; lia|rewrite E2; simpl; lia].
    intros j Hj. rewrite Hq lookup_insert_ne; [|done]. split; [done|].
    destruct Hcase as [(_ & _ & _ & -> & ->)|(_ & _ & -> & [(_ & _ & ->)|(_ & ->)])]; set_solver.
  - destruct (sent_snoc (gs_sent s) (gr_grievance_id r) (is_ok reply) (gr_grievance_id r)) as [E1 E2]. rewrite String.eqb_refl in E1, E2.
    eapply view_known; [simpl; by rewrite Hq lookup_insert_eq|]. simpl in *.
    unfold is_queued, is_open, is_filed in *. rewrite Hst in Hp, Ho, Hac, Href, Hc, Hdr.
    destruct Hcase as [(Hok & Hs & Hn & Hpd & Hop)|(Hok & Hn & Hop & [(Hs & Hb & Hpd)|(Hs & Hpd)])];
      split; unfold is_queued, is_open, is_filed; simpl; rewrite ?Hs ?Hat' ?Hmx ?Hn ?E1 ?E2 ?Hok ?Hpd ?Hop ?Hac ?Hnone; simpl; try done; try lia; try (by left); try (by intros [?|?]); try (by intros _; right).
    all: try (apply bool_decide_eq_true; set_solver). all: try (apply bool_decide_eq_false; set_solver).
Qed.

Lemma crash_ok s before r after :
  lives_ok s → gs_flight s = (before ++ r :: after)%list →
  lives_ok (GState (gs_queue s) (before ++ after)%list (gs_confirmed s) (gs_sent s) (gs_reports s) (gs_events s)).
Proof.
  intros H Hfl. destruct (in_flight _ _ _ _ H Hfl) as (Hr & _ & _ & Hnone). pose proof (known_life _ _ _ H Hr) as [].
  apply (lives_focus s _ (gr_grievance_id r)); [done| |].
  - intros i Hi. apply (other_view _ _ (gr_grievance_id r)); try done. simpl. by rewrite Hfl -flight_other.
  - eapply view_known; [exact Hr|]. split; try done. left. exact Hnone.
Qed.

Lemma reports_snoc l id st i :
  List.filter (λ x : string * ScoresGrievanceStatus, String.eqb x.1 i) (l ++ [(id, st)])%list
  = (List.filter (λ x, String.eqb x.1 i) l ++ (if String.eqb id i then [(id, st)] else []))%list.
Proof. by rewrite List.filter_app. Qed.

(** A poll changes the grievance it is about, and that one only if it was filed. *)
Lemma poll_cases q id status ev now q' x :
  poll_grievance_status_now q id (Ok status) ev now = (q', x) →
  q' = q ∨ ∃ r, gq_records q !! id = Some r ∧ is_Some (gr_scores_reference_number r)
    ∧ let r' := as_polled r (ss_status status) (ss_resolution_summary status) now in
      gq_records q' = <[gr_grievance_id r := r']> (gq_records q) ∧ gq_pending q' = gq_pending q
      ∧ gq_open q' = (if is_closed r' then gq_open q ∖ {[id]} else gq_open q).
Proof.
  unfold poll_grievance_status_now. destruct (gq_records q !! id) as [r|] eqn:Hr; [|intros [= <- _]; by left].
  destruct (gr_scores_reference_number r) eqn:Hn; [|intros [= <- _]; by left].
  destruct (bool_decide _); [intros [= <- _]; by left|]. unfold update_status. rewrite (proj2 (require_Ok _ _ _) Hr). cbn [res_bind].
  intros [= <- _]. right. exists r. rewrite Hn. split_and!; [done..|by destruct (is_closed _)|by destruct (is_closed _)|by destruct (is_closed _)].
Qed.

(** A poll moves a filed grievance between the three filed states. *)
Lemma filed_facts r : is_filed r = true →
  is_queued r = false ∧ gr_status r ≠ DRAFTED ∧ gr_status r ≠ PENDING_SUBMISSION ∧ gr_status r ≠ SUBMITTING.
Proof. unfold is_filed, is_queued. by destruct (gr_status r). Qed.

Lemma polled_facts r st summary now : is_filed r = true →
  let r' := as_polled r st summary now in
  is_filed r' = true ∧ is_open r' = is_open r && negb (is_closed r')
  ∧ (gr_status r' = GR_RESOLVED → st = SC_RESOLVED ∨ gr_status r = GR_RESOLVED)
  ∧ (gr_status r' = GR_REJECTED → st = SC_REJECTED ∨ gr_status r = GR_REJECTED).
Proof.
  unfold is_filed, is_open, is_closed. simpl. intros H. destruct st; simpl; (destruct (gr_status r); [done..| | | |done]);
    (split_and!; [done|by vm_compute|intros; simplify_eq; tauto|intros; simplify_eq; tauto]).
Qed.

Lemma poll_ok s id status ev now q x :
  lives_ok s → poll_grievance_status_now (gs_queue s) id (Ok status) ev now = (q, x) →
  lives_ok (GState q (gs_flight s) (gs_confirmed s) (gs_sent s) (gs_reports s ++ [(id, ss_status status)])%list
              (gs_events s ++ option_list x)%list).
Proof.
  intros H Hp. apply poll_cases in Hp. apply (lives_focus s _ id); [done| |].
  - intros i Hi. apply (other_view _ _ id); try done; [|simpl; rewrite reports_snoc (proj2 (String.eqb_neq _ _)); [by rewrite app_nil_r|done]].
    intros j Hj. simpl. destruct Hp as [->|(r & Hr & _ & -> & -> & ->)]; [done|].
    rewrite lookup_insert_ne; [|by rewrite (lo_id _ _ _ (known_life _ _ _ H Hr))]. split_and!; [done..|]. case_match; set_solver.
  - pose proof (H id) as Hv. unfold view_ok in *. simpl in *.
    destruct Hp as [->|(r & Hr & Hn & Hq1 & Hq2 & Hq3)].
    + destruct (gq_records (gs_queue s) !! id) as [r|]; [|done]. destruct Hv. split; try done; simpl in *; rewrite reports_snoc; intros; apply elem_of_app; left; auto.
    + rewrite Hr in Hv. destruct Hv as [Hid Hpe Ho Hat Hbu Hroom Hc Hdr Hac Href Hres Hrej Hfl]. simpl in *. subst id.
      rewrite Hq1 lookup_insert_eq. pose proof (proj1 Href Hn) as Hfiled. destruct (filed_facts r Hfiled) as (Hq & Hd & _ & Hsub).
      destruct (polled_facts r (ss_status status) (ss_resolution_summary status) now Hfiled) as (Hf' & Ho' & Hr1 & Hr2).
      destruct (filed_facts _ Hf') as (Hq' & Hd' & Hp' & Hs'). set (r' := as_polled _ _ _ _) in *.
      split; cbn [vw_pending vw_open vw_flight vw_confirmed vw_submissions vw_acceptances vw_reports view gs_queue gq_pending gq_open gs_flight
                  gs_confirmed gs_sent gs_reports]; rewrite ?reports_snoc ?String.eqb_refl ?Hq2 ?Hq3; try done.
      * by rewrite Hq' Hpe.
      * rewrite Ho' -Ho. destruct (is_closed r'); [|by rewrite andb_true_r]. rewrite andb_false_r. apply bool_decide_eq_false. set_solver.
      * by intros [?|?].
      * rewrite Hc. by rewrite !bool_decide_false.
      * by rewrite Hf' Hac Hfiled.
      * intros [E|E]%Hr1; apply elem_of_app; [right; rewrite E; by apply list_elem_of_singleton|left; auto].
      * intros [E|E]%Hr2; apply elem_of_app; [right; rewrite E; by apply list_elem_of_singleton|left; auto].
      * left. by destruct Hfl as [?|(_ & ? & _)].
Qed.

Lemma grievance_step_ok s s' : lives_ok s → grievance_step false s s' → lives_ok s'.
Proof.
  intros H []; [by apply draft_ok|by eapply confirm_ok|eapply begin_ok; eauto|by eapply finish_ok|by eapply crash_ok|by eapply poll_ok].
Qed.

(** A grievance is filed once, and not without a confirmation.  When a
    submission begins only for a grievance that waits for one, then in every state
    that the officer, the workers and the polls can reach, in any interleaving and
    with any worker dying: a grievance was confirmed exactly when it has left the
    draft state, and was handed to SCORES only then, at most [max(1, max_retries)]
    times; SCORES accepted it exactly when the record says submitted, resolved or
    rejected, which it did once, and then there is a reference number; it is in the
    set the sweep submits exactly when it waits or is being submitted, in the set
    the poll follows exactly when it is submitted; and it is closed only with the
    status that SCORES reported. *)
Theorem grievance_lifecycle s id r :
  rtc (grievance_step false) initial_grievances s → gq_records (gs_queue s) !! id = Some r →
  (id ∈ gs_confirmed s ↔ gr_status r ≠ DRAFTED)
  ∧ (0 < submissions (gs_sent s) id → id ∈ gs_confirmed s)
  ∧ submissions (gs_sent s) id <= gr_attempt_count r <= Z.max 1 (gr_max_retries r)
  ∧ acceptances (gs_sent s) id = Z.b2z (is_filed r)
  ∧ (is_Some (gr_scores_reference_number r) ↔ is_filed r = true)
  ∧ (id ∈ gq_pending (gs_queue s) ↔ gr_status r = PENDING_SUBMISSION ∨ gr_status r = SUBMITTING)
  ∧ (id ∈ gq_open (gs_queue s) ↔ gr_status r = SUBMITTED)
  ∧ (gr_status r = GR_RESOLVED → (id, SC_RESOLVED) ∈ gs_reports s)
  ∧ (gr_status r = GR_REJECTED → (id, SC_REJECTED) ∈ gs_reports s).
Proof.
  intros Hrun Hr. pose proof (reach_invariant _ lives_ok _ _ grievance_step_ok initial_ok Hrun) as H.
  destruct (known_life _ _ _ H Hr) as [Hid Hp Ho Hat Hbu Hroom Hc Hdr Hac Href Hres Hrej Hfl]. simpl in *.
  assert (Hconf : id ∈ gs_confirmed s ↔ gr_status r ≠ DRAFTED).
  { rewrite -(bool_decide_eq_true (id ∈ gs_confirmed s)) Hc. destruct (bool_decide_reflect (gr_status r = DRAFTED)); naive_solver. }
  split_and!; [done| |lia|lia|done|done| | | |].
  - intros Hs. apply Hconf. intros E. apply Hdr in E. lia.
  - rewrite -(bool_decide_eq_true (id ∈ gq_pending _)) Hp. unfold is_queued. destruct (gr_status r); naive_solver.
  - rewrite -(bool_decide_eq_true (id ∈ gq_open _)) Ho. unfold is_open. by rewrite bool_decide_eq_true.
  - intros [E _]%Hres%list_elem_of_In%filter_In. by apply list_elem_of_In.
  - intros [E _]%Hrej%list_elem_of_In%filter_In. by apply list_elem_of_In.
Qed.

(** ** A run, and one that goes wrong *)
Definition g_request : GrievanceSubmissionRequest :=
  Request "g-1" REPEATED_CLAUSE_VIOLATION (Respondent "BRK-1" "BRK-1" None) (Complainant "RegEngine" "c@x" None) "text" [] (Datetime 0 (Some 0)).
Definition g_draft : GrievanceRecord :=
  Grievance "g-1" g_request DRAFTED 0 3 None None None None (Datetime 0 (Some 0)) (Datetime 0 (Some 0)) None None None.
Definition g_time : datetime := Datetime 0 (Some 0).
Definition g_accepted : res raised GrievanceSubmissionResponse := Ok (SubmissionResponse "SC-9" SC_SUBMITTED g_time None).
Definition g_timeout : res raised GrievanceSubmissionResponse := Raise (ScoresApiError "timed out" [["httpx.ReadTimeout"; "httpx.TimeoutException"]]).
Definition g_resolved : GrievanceStatusResponse := StatusResponse "SC-9" SC_RESOLVED g_time (Some "paid") None.

Definition g_start : grievance_state := GState (create_draft no_grievances g_draft) [] [] [] [] [].
Definition g_confirm (s : grievance_state) : grievance_state :=
  match confirm_for_submission (gs_queue s) "g-1" with
  | Ok (q, _) => GState q (gs_flight s) (gs_confirmed s ++ ["g-1"])%list (gs_sent s) (gs_reports s) (gs_events s)
  | Raise _ => s
  end.
Definition g_begin (s : grievance_state) : grievance_state :=
  match begin_grievance (gs_queue s) "g-1" with
  | Some (q, r) => GState q (gs_flight s ++ [r])%list (gs_confirmed s) (gs_sent s) (gs_reports s) (gs_events s)
  | None => s
  end.
Definition g_finish (reply : res raised GrievanceSubmissionResponse) (s : grievance_state) : grievance_state :=
  match gs_flight s with
  | r :: after =>
      match finish_grievance (gs_queue s) r reply "ev" g_time with
      | Ok (q, ev) => GState q after (gs_confirmed s) (gs_sent s ++ [(gr_grievance_id r, is_ok reply)])%list (gs_reports s)
                        (gs_events s ++ option_list ev)%list
      | Raise _ => s
      end
  | [] => s
  end.
Definition g_poll (s : grievance_state) : grievance_state :=
  let '(q, ev) := poll_grievance_status_now (gs_queue s) "g-1" (Ok g_resolved) "ev" g_time in
  GState q (gs_flight s) (gs_confirmed s) (gs_sent s) (gs_reports s ++ [("g-1", ss_status g_resolved)])%list
    (gs_events s ++ option_list ev)%list.

Lemma g_start_step stale : grievance_step stale initial_grievances g_start.
Proof. by apply (gstep_draft stale initial_grievances g_draft). Qed.
Lemma g_confirm_step stale s q r : confirm_for_submission (gs_queue s) "g-1" = Ok (q, r) → grievance_step stale s (g_confirm s).
Proof. intros H. unfold g_confirm. rewrite H. by eapply gstep_confirm. Qed.
Lemma g_begin_step stale s q r :
  begin_grievance (gs_queue s) "g-1" = Some (q, r) → (stale = false → waiting (gs_queue s) "g-1") → grievance_step stale s (g_begin s).
Proof. intros H Hw. unfold g_begin. rewrite H. by eapply gstep_begin. Qed.
Lemma g_finish_step stale reply s r after q ev :
  gs_flight s = r :: after → finish_grievance (gs_queue s) r reply "ev" g_time = Ok (q, ev) →
  grievance_step stale s (g_finish reply s).
Proof. intros Hf H. unfold g_finish. rewrite Hf H. by eapply (gstep_finish _ _ [] r after). Qed.
Lemma g_poll_step stale s : grievance_step stale s (g_poll s).
Proof. unfold g_poll. destruct (poll_grievance_status_now _ _ _ _ _) as [q ev] eqn:E. by eapply gstep_poll. Qed.

(** Confirmed; one attempt times out, one is accepted; the poll finds it resolved. *)
Definition g_done : grievance_state := g_poll (g_finish g_accepted (g_begin (g_finish g_timeout (g_begin (g_confirm g_start))))).

Ltac g_waiting := intros _; split; [apply list_elem_of_In; vm_compute; tauto|vm_compute; reflexivity].

Lemma g_done_reached : rtc (grievance_step false) initial_grievances g_done.
Proof.
  eapply rtc_l; [apply g_start_step|]. eapply rtc_l; [eapply g_confirm_step; vm_compute; reflexivity|].
  eapply rtc_l; [eapply g_begin_step; [vm_compute; reflexivity|g_waiting]|].
  eapply rtc_l; [eapply (g_finish_step false g_timeout); [vm_compute; reflexivity|vm_compute; reflexivity]|].
  eapply rtc_l; [eapply g_begin_step; [vm_compute; reflexivity|g_waiting]|].
  eapply rtc_l; [eapply (g_finish_step false g_accepted); [vm_compute; reflexivity|vm_compute; reflexivity]|].
  eapply rtc_l; [apply g_poll_step|]. apply rtc_refl.
Qed.

Definition g_final : GrievanceRecord :=
  Eval vm_compute in match gq_records (gs_queue g_done) !! "g-1" with Some r => r | None => g_draft end.
Lemma g_done_record : gq_records (gs_queue g_done) !! "g-1" = Some g_final.
Proof. vm_compute. reflexivity. Qed.

Lemma grievance_lifecycle_witness :
  gr_status g_final = GR_RESOLVED ∧ acceptances (gs_sent g_done) "g-1" = 1 ∧ ("g-1", SC_RESOLVED) ∈ gs_reports g_done.
Proof.
  destruct (grievance_lifecycle g_done "g-1" g_final g_done_reached g_done_record) as (_ & _ & _ & Ha & _ & _ & _ & Hr & _).
  split; [reflexivity|]. split; [exact Ha|]. apply Hr. reflexivity.
Defined.

(** The sweep also dispatches a grievance that a worker is submitting, and a task
    does not look at the status: SCORES gets the same grievance twice.  When the
    second attempt times out, the record says that it waits, but it is no longer
    in the set the sweep reads. *)
Lemma sweep_dispatches_submitting : _submit_pending (gs_queue (g_begin (g_confirm g_start))) = ["g-1"].
Proof. by vm_compute. Qed.

Definition g_twice : grievance_state := g_finish g_accepted (g_finish g_accepted (g_begin (g_begin (g_confirm g_start)))).
Definition g_stranded : grievance_state := g_finish g_timeout (g_finish g_accepted (g_begin (g_begin (g_confirm g_start)))).

Lemma g_race_begun : rtc (grievance_step true) initial_grievances (g_begin (g_begin (g_confirm g_start))).
Proof.
  eapply rtc_l; [apply g_start_step|]. eapply rtc_l; [eapply g_confirm_step; vm_compute; reflexivity|].
  eapply rtc_l; [eapply g_begin_step; [vm_compute; reflexivity|done]|].
  eapply rtc_l; [eapply g_begin_step; [vm_compute; reflexivity|done]|]. apply rtc_refl.
Qed.

Lemma grievance_filed_twice : rtc (grievance_step true) initial_grievances g_twice ∧ acceptances (gs_sent g_twice) "g-1" = 2.
Proof.
  split; [|by vm_compute]. etrans; [apply g_race_begun|].
  eapply rtc_l; [eapply (g_finish_step true g_accepted); [vm_compute; reflexivity|vm_compute; reflexivity]|].
  eapply rtc_l; [eapply (g_finish_step true g_accepted); [vm_compute; reflexivity|vm_compute; reflexivity]|]. apply rtc_refl.
Qed.

Lemma grievance_stranded :
  rtc (grievance_step true) initial_grievances g_stranded
  ∧ gr_status <$> gq_records (gs_queue g_stranded) !! "g-1" = Some PENDING_SUBMISSION
  ∧ _submit_pending (gs_queue g_stranded) = [].
Proof.
  split; [|by vm_compute]. etrans; [apply g_race_begun|].
  eapply rtc_l; [eapply (g_finish_step true g_accepted); [vm_compute; reflexivity|vm_compute; reflexivity]|].
  eapply rtc_l; [eapply (g_finish_step true g_timeout); [vm_compute; reflexivity|vm_compute; reflexivity]|]. apply rtc_refl.
Qed.

(** A server that is out of service for a moment ends the submission for good. *)
Lemma server_error_is_final c request text body now :
  truthy (scores_api_base_url c) = true →
  ∃ e, submit_grievance c request (HttpResponse 503 text body) now = Raise e ∧ raised_is_transient e = false.
Proof.
  intros Hc. unfold submit_grievance, scores_call. rewrite Hc. cbn [negb]. change (300 <=? 503) with true. cbv iota.
  eexists. split; [reflexivity|]. vm_compute. reflexivity.
Qed.
