(* ===== verification/Security.v ===== *)
(** * Authentication and authorization

    [src/app/security/models.py], [directory_sync.py], [sso_providers.py],
    [jwt.py], [auth.py], [dependencies.py], [step_up.py],
    [session_manager.py], [middleware.py], [tenant_store.py],
    [local_user_store.py], [src/app/db/tenant_session.py], and the handlers of
    [src/app/api/auth_routes.py] and [saml_routes.py].

    PyJWT, bcrypt and pydantic's reading of a timestamp are parameters of the
    sections that use them.  Claims are JSON objects, as a decoded token gives
    them.  Redis keys with a time to live keep the instant at which they
    expire; an expired key is not found.  Instants are microseconds on the UTC
    clock.  An exception that no handler catches is [Unhandled]. *)
From S2P Require Import Prelude PyStr PyFloat Sha256 Json Datetime PyText JsonLogic DocModels Governance Policies DbModels HitlService.

Open Scope string_scope.
Open Scope Z_scope.
Open Scope py_scope.

Definition second : Z := 1000000.

Inductive http_error :=
| HTTPException (status_code : Z) (detail : string)
| Unhandled (exc : string).

(** ** [str] of a JSON value *)
Fixpoint repr_json (j : json) : string :=
  match j with
  | JNull => "None"
  | JBool b => if b then "True" else "False"
  | JInt z => str_of_Z z
  | JFloat f => float_repr f
  | JStr s => py_repr s
  | JList l => "[" +:+ join ", " (map repr_json l) +:+ "]"
  | JObj l => "{" +:+ join ", " (map (λ '(k, v), py_repr k +:+ ": " +:+ repr_json v) l) +:+ "}"
  end.
Definition str_json (j : json) : string := match j with JStr s => s | _ => repr_json j end.

(** ** [models.py] *)
Inductive Role := COMPLIANCE_OFFICER | BROKER_API_CLIENT | SYSTEM_ADMIN.
#[export] Instance Role_eq_dec : EqDecision Role.
Proof. solve_decision. Defined.

Definition role_value (r : Role) : string :=
  match r with
  | COMPLIANCE_OFFICER => "Compliance_Officer"
  | BROKER_API_CLIENT => "Broker_API_Client"
  | SYSTEM_ADMIN => "System_Admin"
  end.

(** [Role(v)] *)
Definition role_of (v : string) : option Role :=
  find (λ r, String.eqb (role_value r) v) [COMPLIANCE_OFFICER; BROKER_API_CLIENT; SYSTEM_ADMIN].

Record TokenPayload := Payload
  { tp_sub : string
  ; tp_roles : list Role
  ; tp_tenant_id : option string
  ; tp_scope : list string
  ; tp_iss : string
  ; tp_aud : string
  ; tp_iat : datetime
  ; tp_exp : datetime
  ; tp_jti : string
  ; tp_auth_time : option datetime
  ; tp_amr : list string }.

Record Principal := MkPrincipal
  { pr_subject : string
  ; pr_roles : list Role
  ; pr_tenant_id : option string
  ; pr_token_id : string
  ; pr_auth_time : option datetime
  ; pr_amr : list string }.

Definition in_roles (r : Role) (l : list Role) : bool := bool_decide (r ∈ l).
Definition has_role (p : Principal) (roles : list Role) : bool := existsb (λ r, in_roles r (pr_roles p)) roles.
Definition is_admin (p : Principal) : bool := in_roles SYSTEM_ADMIN (pr_roles p).
Definition is_officer (p : Principal) : bool := in_roles COMPLIANCE_OFFICER (pr_roles p).

(** [_tenant_id_required_for_broker] *)
Definition tenant_check (roles : list Role) (tenant_id : option string) : bool :=
  negb (in_roles BROKER_API_CLIENT roles && negb (truthy tenant_id)).

(** ** [directory_sync.py] *)

(** [sorted(resolved, key=lambda r: r.value)] of a set *)
Definition sorted_roles (l : list Role) : list Role :=
  List.filter (λ r, in_roles r l) [BROKER_API_CLIENT; COMPLIANCE_OFFICER; SYSTEM_ADMIN].

Definition resolve_roles_from_groups (groups : list string) (group_role_map : gmap string string) : list Role :=
  sorted_roles (omap (λ g, group_role_map !! g ≫= role_of) groups).

(** ** Settings that the package reads *)
Record sso_block := SSOBlock
  { sso_issuer : option string; sso_jwks_url : option string; sso_audience : option string; sso_group_claim : string }.

Record SecuritySettings := SecSettings
  { st_environment : string
  ; st_demo_mode : bool
  ; st_jwt_algorithm : string
  ; st_jwt_issuer : string
  ; st_jwt_audience : string
  ; st_jwt_access_token_ttl_seconds : Z
  ; st_jwt_external_issuer : option string
  ; st_jwt_jwks_url : option string
  ; st_jwt_external_algorithms : list string
  ; st_okta : sso_block
  ; st_azure_ad : sso_block
  ; st_pingidentity : sso_block
  ; st_sso_external_algorithms : list string
  ; st_sso_directory_group_role_map : gmap string string
  ; st_session_idle_timeout_seconds : Z
  ; st_session_absolute_timeout_seconds : Z
  ; st_step_up_mfa_max_age_seconds : Z
  ; st_step_up_required_amr_values : list string
  ; st_kill_switch_require_step_up_mfa : bool
  ; st_enforce_https : bool
  ; st_rate_limit_window_seconds : Z
  ; st_rate_limit_requests_per_window : Z
  ; st_rate_limit_exempt_paths : list string
  ; st_saml_enabled : bool
  ; st_saml_group_attribute_name : string }.

(** The validator of [app/config.py] on the environment and the demo mode;
    the result is the normalised environment. *)
Definition _validate_environment_and_demo_mode (environment : string) (demo_mode step_up_mfa_enforce_in_dev : bool)
  : option string :=
  let env := lower (strip environment) in
  if negb (existsb (String.eqb env) ["development"; "staging"; "production"]) then None
  else if demo_mode && existsb (String.eqb env) ["staging"; "production"] then None
  else if demo_mode && step_up_mfa_enforce_in_dev then None
  else Some env.

(** ** [sso_providers.py] *)
Record SSOProviderConfig := SSOProvider
  { sp_name : string
  ; sp_issuer : string
  ; sp_jwks_url : string
  ; sp_audience : option string
  ; sp_algorithms : list string
  ; sp_group_claim : string }.

Definition add_provider (name : string) (algorithms : list string) (b : sso_block)
    (registry : gmap string SSOProviderConfig) : gmap string SSOProviderConfig :=
  match sso_issuer b, sso_jwks_url b with
  | Some issuer, Some url =>
      if negb (String.eqb issuer "") && negb (String.eqb url "")
      then <[issuer := SSOProvider name issuer url (sso_audience b) algorithms (sso_group_claim b)]> registry
      else registry
  | _, _ => registry
  end.

Definition build_sso_provider_registry (s : SecuritySettings) : gmap string SSOProviderConfig :=
  let algorithms := st_sso_external_algorithms s in
  let registry :=
    add_provider "pingidentity" algorithms (st_pingidentity s)
      (add_provider "azure_ad" algorithms (st_azure_ad s)
         (add_provider "okta" algorithms (st_okta s) ∅)) in
  match st_jwt_external_issuer s with
  | Some issuer =>
      if bool_decide (registry !! issuer = None) then
        add_provider "generic" (st_jwt_external_algorithms s)
          (SSOBlock (Some issuer) (st_jwt_jwks_url s) (Some (st_jwt_audience s)) "groups") registry
      else registry
  | None => registry
  end.

(** ** [jwt.py] *)
Definition claims : Type := list (string * json).

Inductive token_error :=
| TokenExpiredError
| TokenInvalidError (why : string).

(** What [jwt.decode] with verification raises. *)
Inductive jwt_error := ExpiredSignatureError | InvalidTokenError.

(** A value Python can hash *)
Definition hashable (j : json) : bool := match j with JList _ | JObj _ => false | _ => true end.

(** [claims.get(provider.group_claim, []) or []], as the list iterated over;
    [None] when it cannot be iterated. *)
Definition claimed_groups (c : option json) : option (list json) :=
  match c with
  | Some j =>
      if py_truthy j then
        match j with
        | JStr s => Some [JStr s]
        | JList l => Some l
        | JObj l => Some (map (λ kv, JStr kv.1) l)
        | _ => None
        end
      else Some []
  | None => Some []
  end.

Definition text_of (j : json) : option string := match j with JStr s => Some s | _ => None end.
Definition get_json (k : string) (c : claims) : json := default JNull (obj_get k c).

Definition _normalize_external_claims (c : claims) (p : SSOProviderConfig) (s : SecuritySettings)
  : option claims :=
  match claimed_groups (obj_get (sp_group_claim p) c) with
  | None => None
  | Some groups =>
      if negb (forallb hashable groups) then None else
      let roles := resolve_roles_from_groups (omap text_of groups) (st_sso_directory_group_role_map s) in
      let aud := match get_json "aud" c with JList [] => JNull | JList (x :: _) => x | a => a end in
      let jti :=
        if py_truthy (get_json "jti" c) then get_json "jti" c
        else JStr (sha256_hex (str_json (get_json "iss" c) +:+ "|" +:+ str_json (get_json "sub" c)
                               +:+ "|" +:+ str_json (get_json "iat" c))) in
      let scope :=
        match get_json "scope" c with
        | JStr t => JList (map JStr (split_ws t))
        | j => if py_truthy j then j else JList []
        end in
      Some [("sub", get_json "sub" c); ("roles", JList (map (λ r, JStr (role_value r)) roles));
            ("tenant_id", JNull); ("scope", scope); ("iss", get_json "iss" c); ("aud", aud);
            ("iat", get_json "iat" c); ("exp", get_json "exp" c); ("jti", jti);
            ("auth_time", get_json "auth_time" c);
            ("amr", match get_json "amr" c with JList l => JList l | _ => JList [] end)]
  end.

Fixpoint texts (l : list json) : option (list string) :=
  match l with
  | [] => Some []
  | JStr s :: l' => cons s <$> texts l'
  | _ => None
  end.

Definition str_list (o : option json) : option (list string) :=
  match o with None => Some [] | Some (JList l) => texts l | Some _ => None end.

Section tokens.
(** How pydantic reads a timestamp. *)
Context (parse_datetime : json → option datetime).

(** [TokenPayload.model_validate]: a validator is not run on a default, so a
    missing [tenant_id] is not checked. *)
Definition model_validate (c : claims) : option TokenPayload :=
  sub ← obj_get "sub" c ≫= text_of;
  names ← (match obj_get "roles" c with Some (JList l) => texts l | _ => None end);
  roles ← mapM role_of names;
  tenant_id ← (match obj_get "tenant_id" c with
               | None => Some None
               | Some JNull => if tenant_check roles None then Some None else None
               | Some (JStr t) => if tenant_check roles (Some t) then Some (Some t) else None
               | Some _ => None
               end);
  scope ← str_list (obj_get "scope" c);
  iss ← obj_get "iss" c ≫= text_of;
  aud ← obj_get "aud" c ≫= text_of;
  iat ← obj_get "iat" c ≫= parse_datetime;
  exp ← obj_get "exp" c ≫= parse_datetime;
  jti ← obj_get "jti" c ≫= text_of;
  auth_time ← (match obj_get "auth_time" c with
               | None | Some JNull => Some None
               | Some j => Some <$> parse_datetime j
               end);
  amr ← str_list (obj_get "amr" c);
  if bool_decide (roles = []) then None
  else Some (Payload sub roles tenant_id scope iss aud iat exp jti auth_time amr).

(** [create_access_token]: the claims that are signed, and the payload;
    [None] when the payload is not valid.  PyJWT turns the two datetimes into
    seconds. *)
Definition seconds (d : datetime) : Z := utc_us d / second - 62135596800.
Definition create_access_token (s : SecuritySettings) (subject : string) (roles : list Role) (tenant_id : option string)
    (scope : option (list string)) (ttl_seconds : option Z) (auth_time : option datetime) (amr : option (list string))
    (now : datetime) (jti : string) : option (claims * TokenPayload) :=
  let ttl := match ttl_seconds with Some t => if t =? 0 then st_jwt_access_token_ttl_seconds s else t
             | None => st_jwt_access_token_ttl_seconds s end in
  let exp := Datetime (dt_wall now + ttl * second) (dt_offset now) in
  let amr := default [] amr in
  let scope := default [] scope in
  if bool_decide (roles = []) || negb (tenant_check roles tenant_id) then None else
  Some ([("sub", JStr subject); ("roles", JList (map (λ r, JStr (role_value r)) roles));
         ("tenant_id", opt_str tenant_id); ("scope", JList (map JStr scope));
         ("iss", JStr (st_jwt_issuer s)); ("aud", JStr (st_jwt_audience s));
         ("iat", JInt (seconds now)); ("exp", JInt (seconds exp)); ("jti", JStr jti)]
        ++ (match auth_time with Some t => [("auth_time", JInt (seconds t))] | None => [] end)
        ++ (match amr with [] => [] | _ => [("amr", JList (map JStr amr))] end),
        Payload subject roles tenant_id scope (st_jwt_issuer s) (st_jwt_audience s) now exp jti auth_time amr)%list.

(** [jwt.decode] without verification ([None]: malformed), [jwt.decode] with
    the key, the algorithms, the issuer and the audience to verify. *)
Context (jwt_peek : string → option claims).
Context (jwt_decode : datetime → string → string → list string → string → option string → res jwt_error claims).

(** [decode_access_token]; [jwks] is the key that the identity provider serves
    for the token.  [Unhandled] stands for a TypeError. *)
Definition caught (r : res jwt_error claims) : res (token_error + http_error) claims :=
  match r with
  | Ok c => Ok c
  | Raise ExpiredSignatureError => Raise (inl TokenExpiredError)
  | Raise InvalidTokenError => Raise (inl (TokenInvalidError "Invalid token"))
  end.

Definition decode_access_token (token : string) (s : SecuritySettings) (local_verification_key : string)
    (jwks : string → string → option string) (now : datetime) : res (token_error + http_error) TokenPayload :=
  match jwt_peek token with
  | None => Raise (inl (TokenInvalidError "Malformed token."))
  | Some unverified =>
      let issuer := get_json "iss" unverified in
      let* c :=
        (if bool_decide (text_of issuer = Some (st_jwt_issuer s)) then
           caught (jwt_decode now token local_verification_key [st_jwt_algorithm s] (st_jwt_issuer s)
                     (Some (st_jwt_audience s)))
         else if negb (hashable issuer) then Raise (inr (Unhandled "TypeError"))
         else
           match text_of issuer ≫= λ i, build_sso_provider_registry s !! i with
           | None => Raise (inl (TokenInvalidError "Unrecognized token issuer"))
           | Some p =>
               match jwks (sp_jwks_url p) token with
               | None => Raise (inl (TokenInvalidError "Unable to verify token signature."))
               | Some key =>
                   let* raw := caught (jwt_decode now token key (sp_algorithms p) (sp_issuer p)
                                         (if truthy (sp_audience p) then sp_audience p else None)) in
                   match _normalize_external_claims raw p s with
                   | Some c => Ok c
                   | None => Raise (inr (Unhandled "TypeError"))
                   end
               end
           end) in
      match model_validate c with
      | Some p => Ok p
      | None => Raise (inl (TokenInvalidError "Token claims failed validation"))
      end
  end.

(** ** [auth.py] *)

(** What one authentication meets outside the process: the verification key
    ([None]: the secrets backend raises), the keys of the identity providers,
    the clock, and the Redis lookup of the override ([None]: it fails). *)
Record auth_world := AuthWorld
  { aw_key : option string
  ; aw_jwks : string → string → option string
  ; aw_now : datetime
  ; aw_override : string → option (option string) }.

Definition _directory_sync_override (w : auth_world) (subject : string) : option (list Role) :=
  match aw_override w subject with
  | None => None
  | Some None => None
  | Some (Some raw) => mapM role_of (List.filter (λ v, negb (String.eqb v "")) (split_on "," raw))
  end.

Definition payload_principal (p : TokenPayload) (roles : list Role) : Principal :=
  MkPrincipal (tp_sub p) roles (tp_tenant_id p) (tp_jti p) (tp_auth_time p) (tp_amr p).

Definition authenticate_token (token : string) (s : SecuritySettings) (w : auth_world)
  : res http_error (option Principal) :=
  if String.eqb token "" then Ok None else
  match aw_key w with
  | None => Raise (Unhandled "SecretNotFoundError")
  | Some key =>
      match decode_access_token token s key (aw_jwks w) (aw_now w) with
      | Raise (inl _) => Ok None
      | Raise (inr e) => Raise e
      | Ok payload =>
          match tp_tenant_id payload with
          | Some _ => Ok (Some (payload_principal payload (tp_roles payload)))
          | None =>
              match _directory_sync_override w (tp_sub payload) with
              | None => Ok (Some (payload_principal payload (tp_roles payload)))
              | Some [] => Ok None
              | Some roles => Ok (Some (payload_principal payload roles))
              end
          end
      end
  end.

(** ** [middleware.py]: [JWTAuthenticationMiddleware] *)
Definition bearer_token (authorization : string) : option string :=
  if startswith "bearer " (lower authorization) then Some (strip (sdrop 7 authorization)) else None.

Definition jwt_middleware (authorization : string) (s : SecuritySettings) (w : auth_world)
  : res http_error (option Principal) :=
  match bearer_token authorization with
  | Some token => authenticate_token token s w
  | None => Ok None
  end.

(** ** [dependencies.py] *)

(** [get_current_principal]: [existing] is [request.state.principal], the
    credentials are those that FastAPI's bearer scheme reads. *)
Definition get_current_principal (existing : option Principal) (credentials : option string) (s : SecuritySettings)
    (w : auth_world) : res http_error Principal :=
  match existing with
  | Some p => Ok p
  | None =>
      match credentials with
      | None => Raise (HTTPException 401 "Not authenticated.")
      | Some token =>
          let* p := authenticate_token token s w in
          match p with
          | Some p => Ok p
          | None => Raise (HTTPException 401 "Invalid or expired token.")
          end
      end
  end.
End tokens.

Definition require_roles (allowed_roles : list Role) (p : Principal) : res http_error Principal :=
  if has_role p allowed_roles then Ok p
  else Raise (HTTPException 403 ("Requires one of roles: " +:+ repr_list (map role_value allowed_roles) +:+ ".")).

Definition require_tenant_scope (tenant_id : string) (p : Principal) : res http_error Principal :=
  if is_admin p || is_officer p then Ok p
  else if bool_decide (pr_tenant_id p = Some tenant_id) then Ok p
  else Raise (HTTPException 403 "Token tenant_id does not match the requested resource's tenant.").

(** ** [step_up.py] *)
Definition _step_up_challenge (reason : string) : http_error := HTTPException 401 reason.

Definition demo_bypass (s : SecuritySettings) : bool := st_demo_mode s && String.eqb (st_environment s) "development".

Definition require_step_up_mfa (s : SecuritySettings) (p : Principal) (now : datetime) : res http_error Principal :=
  match pr_tenant_id p with
  | Some _ => Raise (HTTPException 403 "Step-up MFA is not applicable to machine credentials.")
  | None =>
      if demo_bypass s then Ok p
      else
        match pr_auth_time p with
        | None => Raise (_step_up_challenge "no_auth_time_claim")
        | Some auth_time =>
            match dt_offset auth_time with
            | None => Raise (Unhandled "TypeError")
            | Some _ =>
                if st_step_up_mfa_max_age_seconds s * second <? utc_us now - utc_us auth_time
                then Raise (_step_up_challenge "auth_event_too_old")
                else if existsb (λ m, existsb (String.eqb m) (st_step_up_required_amr_values s)) (pr_amr p)
                then Ok p
                else Raise (_step_up_challenge "mfa_not_satisfied")
            end
        end
  end.

(** [_require_kill_switch_authority] of [api/governance_routes.py] *)
Definition _require_kill_switch_authority (s : SecuritySettings) (p : Principal) (now : datetime)
  : res http_error Principal :=
  let* p := require_roles [SYSTEM_ADMIN; COMPLIANCE_OFFICER] p in
  if st_kill_switch_require_step_up_mfa s then require_step_up_mfa s p now else Ok p.

(** ** [session_manager.py] *)
Inductive session_expired := SessionExpiredError (reason : string).

Record session := Session
  { ss_subject : string; ss_created_at : Z; ss_last_activity_at : Z; ss_expires : Z }.

(** The hashes of Redis, by token id. *)
Definition sessions : Type := gmap string session.

(** [hgetall]: an expired key is not there. *)
Definition hgetall (db : sessions) (token_id : string) (now : Z) : option session :=
  match db !! token_id with
  | Some x => if now <? ss_expires x then Some x else None
  | None => None
  end.

Definition touch_or_create (s : SecuritySettings) (db : sessions) (p : Principal) (now : Z)
  : sessions * res session_expired () :=
  let absolute := st_session_absolute_timeout_seconds s in
  match hgetall db (pr_token_id p) now with
  | None => (<[pr_token_id p := Session (pr_subject p) now now (now + absolute * second)]> db, Ok ())
  | Some raw =>
      if absolute * second <? now - ss_created_at raw
      then (delete (pr_token_id p) db, Raise (SessionExpiredError "absolute_timeout"))
      else if st_session_idle_timeout_seconds s * second <? now - ss_last_activity_at raw
      then (delete (pr_token_id p) db, Raise (SessionExpiredError "idle_timeout"))
      else
        let remaining := absolute - Z.quot (now - ss_created_at raw) second in
        (<[pr_token_id p := Session (ss_subject raw) (ss_created_at raw) now (now + Z.max 1 remaining * second)]> db,
         Ok ())
  end.

Definition revoke (db : sessions) (token_id : string) : sessions := delete token_id db.

(** [SessionManagementMiddleware]: [Ok] passes the request on. *)
Definition session_middleware (s : SecuritySettings) (db : sessions) (p : option Principal) (now : Z)
  : sessions * res session_expired () :=
  match p with
  | Some p => if bool_decide (pr_tenant_id p = None) then touch_or_create s db p now else (db, Ok ())
  | None => (db, Ok ())
  end.

(** ** [TenantRateLimitMiddleware] *)
Record window := Window { wn_count : Z; wn_expires : Z }.
Definition windows : Type := gmap string window.

Definition _rate_limit_key (p : option Principal) (client_host : option string) : string :=
  match p with
  | Some p =>
      if truthy (pr_tenant_id p) then "tenant:" +:+ default "" (pr_tenant_id p)
      else "user:" +:+ pr_subject p
  | None => "ip:" +:+ default "unknown" client_host
  end.

(** [INCR], then [EXPIRE NX]. *)
Definition incr (db : windows) (key : string) (ttl now : Z) : windows * Z :=
  match db !! key with
  | Some x =>
      if now <? wn_expires x then (<[key := Window (wn_count x + 1) (wn_expires x)]> db, wn_count x + 1)
      else (<[key := Window 1 (now + ttl)]> db, 1)
  | None => (<[key := Window 1 (now + ttl)]> db, 1)
  end.

(** The request is passed on, or refused with 429. *)
Definition rate_limit (s : SecuritySettings) (db : windows) (path key : string) (now : Z) : windows * bool :=
  if existsb (String.eqb path) (st_rate_limit_exempt_paths s) then (db, true)
  else
    let '(db', count) := incr db key (st_rate_limit_window_seconds s * second) now in
    (db', count <=? st_rate_limit_requests_per_window s).

(** ** [SecurityHeadersMiddleware]: [false] when the request is refused *)
Definition https_ok (s : SecuritySettings) (path : string) (x_forwarded_proto : option string) (scheme : string) : bool :=
  if st_enforce_https s && negb (existsb (String.eqb path) (st_rate_limit_exempt_paths s))
  then String.eqb (default scheme x_forwarded_proto) "https" else true.

(** ** [db/tenant_session.py] *)
Definition _ADMIN_SENTINEL : string := "__admin__".

(** The value that [SET LOCAL app.current_tenant_id] gets. *)
Definition _set_tenant_context (tenant_id : string) : res http_error string :=
  if contains "'" tenant_id then Raise (Unhandled "ValueError") else Ok tenant_id.

Definition get_tenant_db_session (p : option Principal) : res http_error string :=
  match p with
  | None => Raise (HTTPException 401 "Authentication required.")
  | Some p =>
      if is_admin p || is_officer p then _set_tenant_context _ADMIN_SENTINEL
      else if truthy (pr_tenant_id p) then _set_tenant_context (default "" (pr_tenant_id p))
      else Raise (HTTPException 403 "Broker_API_Client token is missing tenant_id claim.")
  end.

Definition get_admin_db_session : res http_error string := _set_tenant_context _ADMIN_SENTINEL.

(** ** Credential stores

    [bcrypt.hashpw] with a salt and [bcrypt.checkpw] are parameters. *)
Record TenantClient := Client
  { tc_client_id : string; tc_tenant_id : string; tc_secret_hash : string; tc_roles : list Role; tc_disabled : bool }.
Record User := UserRow
  { us_user_id : string; us_email : string; us_password_hash : string; us_roles : list string; us_disabled : bool }.
Record LocalUser := LUser { lu_email : string; lu_roles : list Role }.

Inductive register_error := EmailAlreadyRegisteredError (email : string).

Section credentials.
Context (hashpw : string → string → string) (checkpw : string → string → bool).

(** [tenant_store.py]; [roles or [...]]: an empty list is the default. *)
Definition client_register (db : gmap string TenantClient) (client_id client_secret tenant_id : string)
    (roles : option (list Role)) (salt : string) : gmap string TenantClient :=
  let roles := match roles with Some (r :: l) => r :: l | _ => [BROKER_API_CLIENT] end in
  <[client_id := Client client_id tenant_id (hashpw client_secret salt) roles false]> db.

Definition client_authenticate (db : gmap string TenantClient) (client_id client_secret : string) : option TenantClient :=
  match db !! client_id with
  | None => None
  | Some c => if tc_disabled c || negb (checkpw client_secret (tc_secret_hash c)) then None else Some c
  end.

Definition client_disable (db : gmap string TenantClient) (client_id : string) : gmap string TenantClient :=
  match db !! client_id with
  | None => db
  | Some c => <[client_id := Client (tc_client_id c) (tc_tenant_id c) (tc_secret_hash c) (tc_roles c) true]> db
  end.

(** [local_user_store.py]; the table [users]. *)
Definition normalized_email (email : string) : string := lower (strip email).
Definition _get_row (db : list User) (email : string) : option User :=
  find (λ u, String.eqb (us_email u) (normalized_email email)) db.

Definition user_register (db : list User) (email password : string) (roles : option (list Role)) (user_id salt : string)
  : res register_error (list User * string) :=
  let e := normalized_email email in
  match _get_row db e with
  | Some _ => Raise (EmailAlreadyRegisteredError e)
  | None =>
      let roles := match roles with Some (r :: l) => r :: l | _ => [COMPLIANCE_OFFICER] end in
      Ok (db ++ [UserRow user_id e (hashpw password salt) (map role_value roles) false], user_id)%list
  end.

(** [_to_local_user]: [None] when the row holds an unknown role. *)
Definition _to_local_user (u : User) : option LocalUser := LUser (us_email u) <$> mapM role_of (us_roles u).

Definition user_authenticate (db : list User) (email password : string) : res http_error (option LocalUser) :=
  match _get_row db email with
  | None => Ok None
  | Some u =>
      if us_disabled u || negb (checkpw password (us_password_hash u)) then Ok None
      else match _to_local_user u with Some l => Ok (Some l) | None => Raise (Unhandled "ValueError") end
  end.

Definition user_disable (db : list User) (email : string) : list User :=
  match _get_row db email with
  | None => db
  | Some u =>
      map (λ v, if String.eqb (us_email v) (us_email u)
                then UserRow (us_user_id v) (us_email v) (us_password_hash v) (us_roles v) true else v) db
  end.

(** ** [api/auth_routes.py] and [saml_routes.py]

    A handler that mints a token returns the claims it signs. *)
Definition minted (m : option (claims * TokenPayload)) : res http_error (claims * TokenPayload) :=
  match m with Some x => Ok x | None => Raise (Unhandled "ValidationError") end.

Definition issue_token (s : SecuritySettings) (db : gmap string TenantClient) (client_id client_secret : string)
    (now : datetime) (jti : string) : res http_error (claims * TokenPayload) :=
  match client_authenticate db client_id client_secret with
  | None => Raise (HTTPException 401 "Invalid client credentials.")
  | Some c =>
      minted (create_access_token s (tc_client_id c) (tc_roles c) (Some (tc_tenant_id c))
                (Some ["execution:read"; "execution:write"]) None None None now jti)
  end.

Definition registered (r : res register_error (list User * string)) : res http_error (list User * string) :=
  match r with
  | Ok x => Ok x
  | Raise (EmailAlreadyRegisteredError e) => Raise (HTTPException 400 ("Email already registered: " +:+ e))
  end.

Definition signup (db : list User) (email password user_id salt : string) : res http_error (list User * string) :=
  registered (user_register db email password (Some [COMPLIANCE_OFFICER]) user_id salt).

Definition create_local_user (db : list User) (p : Principal) (email password user_id salt : string)
  : res http_error (list User * string) :=
  let* _ := require_roles [SYSTEM_ADMIN] p in
  registered (user_register db email password (Some [COMPLIANCE_OFFICER]) user_id salt).

Definition login (s : SecuritySettings) (db : list User) (email password : string) (now : datetime) (jti : string)
  : res http_error (claims * TokenPayload) :=
  let* u := user_authenticate db email password in
  match u with
  | None => Raise (HTTPException 401 "Invalid email or password.")
  | Some u =>
      let amr := if demo_bypass s then ["pwd"; "mfa"] else ["pwd"] in
      minted (create_access_token s (lu_email u) (lu_roles u) None None None (Some now) (Some amr) now jti)
  end.
End credentials.

(** The SAML library's verdict on a response: errors, whether the subject is
    authenticated, its name and its attributes. *)
Record saml_auth := SamlAuth
  { sa_errors : list string; sa_authenticated : bool; sa_nameid : string; sa_attributes : gmap string (list string) }.

Definition _require_saml_enabled (s : SecuritySettings) : res http_error () :=
  if st_saml_enabled s then Ok () else Raise (HTTPException 404 "SAML SSO is not enabled on this deployment.").

Definition saml_acs (s : SecuritySettings) (auth : saml_auth) (now : datetime) (jti : string)
  : res http_error (claims * TokenPayload) :=
  let* _ := _require_saml_enabled s in
  if negb (bool_decide (sa_errors auth = [])) then Raise (HTTPException 401 "SAML assertion validation failed.")
  else if negb (sa_authenticated auth) then Raise (HTTPException 401 "SAML authentication was not completed.")
  else
    let groups := default [] (sa_attributes auth !! st_saml_group_attribute_name s) in
    match resolve_roles_from_groups groups (st_sso_directory_group_role_map s) with
    | [] => Raise (HTTPException 403 "No RegEngine role is mapped for this account's directory groups.")
    | roles => minted (create_access_token s (sa_nameid auth) roles None None None None None now jti)
    end.

(** ** [directory_sync_job.py]

    The override of a subject after one poll: the groups that Okta and
    Microsoft Graph report, [None] when they cannot be asked.  [or] takes the
    second answer also when the first is the empty list. *)
Definition polled_groups (okta azure : option (list string)) : option (list string) :=
  match okta with Some (g :: l) => Some (g :: l) | _ => azure end.

Definition sync_subject (s : SecuritySettings) (okta azure : option (list string)) : option string :=
  (λ groups, join "," (map role_value (resolve_roles_from_groups groups (st_sso_directory_group_role_map s))))
  <$> polled_groups okta azure.

(** The overrides in Redis after [sync_active_sessions]: those of the subjects
    with a session are written, the others stay. *)
Definition sync_active_sessions (s : SecuritySettings) (subjects : list string)
    (okta azure : string → option (list string)) (overrides : gmap string string) : gmap string string :=
  foldl (λ o subject, match sync_subject s (okta subject) (azure subject) with
                      | Some v => <[subject := v]> o
                      | None => o
                      end) overrides subjects.

(** ** A request through the middleware of [app/main.py] to a route

    [SecurityHeaders -> JWTAuthentication -> KillSwitch -> SessionManagement
    -> TenantRateLimit -> route].  The token is verified by the middleware in
    the world [wj], and again, when that gave no principal, by the dependency
    of the route in the world [wd], with the credentials of FastAPI's
    [HTTPBearer], which is a parameter. *)
Record http_request := Request
  { rq_path : string
  ; rq_forwarded_proto : option string
  ; rq_scheme : string
  ; rq_authorization : string
  ; rq_client_host : option string }.

Record server := Server
  { sv_kill_switch : KillSwitchStore
  ; sv_sessions : sessions
  ; sv_windows : windows
  ; sv_db : database
  ; sv_publisher : option process }.

Definition with_sessions (sv : server) (ss : sessions) : server :=
  Server (sv_kill_switch sv) ss (sv_windows sv) (sv_db sv) (sv_publisher sv).
Definition with_windows (sv : server) (ws : windows) : server :=
  Server (sv_kill_switch sv) (sv_sessions sv) ws (sv_db sv) (sv_publisher sv).
Definition with_db (sv : server) (d : database) (p : option process) : server :=
  Server (sv_kill_switch sv) (sv_sessions sv) (sv_windows sv) d p.

Section gateway.
Context (parse_datetime : json → option datetime).
Context (jwt_peek : string → option claims).
Context (jwt_decode : datetime → string → string → list string → string → option string → res jwt_error claims).
Context (bearer_scheme : string → option string).
Context (s : SecuritySettings).

Definition through_middleware (sv : server) (rq : http_request) (wj : auth_world) (now : datetime)
  : server * res http_error (option Principal) :=
  if negb (https_ok s (rq_path rq) (rq_forwarded_proto rq) (rq_scheme rq))
  then (sv, Raise (HTTPException 400 "HTTPS required. This endpoint does not accept plaintext HTTP."))
  else
    match jwt_middleware parse_datetime jwt_peek jwt_decode (rq_authorization rq) s wj with
    | Raise e => (sv, Raise e)
    | Ok p =>
        if negb (Governance.dispatch (sv_kill_switch sv) (st_rate_limit_exempt_paths s) (rq_path rq) (p ≫= pr_tenant_id))
        then (sv, Raise (HTTPException 503 "This system's automated execution is currently halted"))
        else
          match session_middleware s (sv_sessions sv) p (utc_us now) with
          | (ss, Raise (SessionExpiredError reason)) => (with_sessions sv ss, Raise (HTTPException 401 reason))
          | (ss, Ok _) =>
              let '(ws, ok) := rate_limit s (sv_windows sv) (rq_path rq)
                                 (_rate_limit_key p (rq_client_host rq)) (utc_us now) in
              let sv' := with_windows (with_sessions sv ss) ws in
              if ok then (sv', Ok p) else (sv', Raise (HTTPException 429 "Rate limit exceeded."))
          end
    end.

(** A handler with [Depends(require_roles(...))] and, when [step_up],
    [Depends(require_step_up_mfa)]. *)
Definition guarded {E A} (step_up : bool) (roles : list Role) (handler : server → Principal → server * res E A)
    (sv : server) (rq : http_request) (wj wd : auth_world) (now : datetime) : server * res (http_error + E) A :=
  let '(sv', p) := through_middleware sv rq wj now in
  let checked :=
    let* p := p in
    let* p := get_current_principal parse_datetime jwt_peek jwt_decode p (bearer_scheme (rq_authorization rq)) s wd in
    let* p := require_roles roles p in
    if step_up then require_step_up_mfa s p now else Ok p in
  match checked with
  | Raise e => (sv', Raise (inl e))
  | Ok p =>
      match handler sv' p with
      | (sv'', Ok a) => (sv'', Ok a)
      | (sv'', Raise e) => (sv'', Raise (inr e))
      end
  end.

(** [POST /v1/hitl-reviews/{review_id}/approve] and [/reject] of
    [api/hitl_review_routes.py] *)
Definition approve_handler (review_id : string) (notes : option string) (now : datetime) (opa_ok : bool)
    (sv : server) (p : Principal) : server * res service_error HITLReview :=
  match HitlService.approve_review (sv_db sv) (sv_publisher sv) review_id (pr_subject p) notes now opa_ok with
  | Ok (d, published, review, _) => (with_db sv d published, Ok review)
  | Raise e => (sv, Raise e)
  end.
Definition reject_handler (review_id : string) (notes : option string) (now : datetime)
    (sv : server) (p : Principal) : server * res service_error HITLReview :=
  match HitlService.reject_review (sv_db sv) review_id (pr_subject p) notes now with
  | Ok (d, review) => (with_db sv d (sv_publisher sv), Ok review)
  | Raise e => (sv, Raise e)
  end.

Definition approve_route (review_id : string) (notes : option string) (opa_ok : bool)
    (sv : server) (rq : http_request) (wj wd : auth_world) (now : datetime) :=
  guarded true [COMPLIANCE_OFFICER] (approve_handler review_id notes now opa_ok) sv rq wj wd now.
Definition reject_route (review_id : string) (notes : option string)
    (sv : server) (rq : http_request) (wj wd : auth_world) (now : datetime) :=
  guarded false [COMPLIANCE_OFFICER] (reject_handler review_id notes now) sv rq wj wd now.
End gateway.
