(* ===== verification/SecurityFacts.v ===== *)
(** * Theorems about authentication and authorization

    Where a principal can come from, what a route that asks for a role and a
    second factor has checked, that an issued token authenticates its client,
    how sessions end, what the rate limiter admits, and when a change in the
    directory takes effect. *)
From S2P Require Import Prelude PyStr PyFloat Sha256 Json Datetime PyText JsonLogic DocModels Governance Policies DbModels HitlService Security.

Open Scope string_scope.
Open Scope Z_scope.

(** ** Roles *)
Lemma role_of_value r : role_of (role_value r) = Some r.
Proof. by destruct r. Qed.

Lemma role_of_Some v r : role_of v = Some r → v = role_value r.
Proof.
  unfold role_of. intros H%find_some. destruct H as [_ H]. by apply String.eqb_eq in H.
Qed.

Lemma mapM_role_of l : mapM role_of (map role_value l) = Some l.
Proof. induction l as [|r l IH]; [done|]. simpl. rewrite role_of_value /=. by rewrite IH. Qed.

Lemma has_role_spec p roles : has_role p roles = true ↔ ∃ r, r ∈ roles ∧ r ∈ pr_roles p.
Proof.
  unfold has_role. rewrite existsb_true_elem. unfold in_roles.
  split; intros (r & Hr & H); exists r; split; auto; by apply bool_decide_eq_true in H || apply bool_decide_eq_true.
Qed.

Lemma sorted_roles_elem r l : r ∈ sorted_roles l ↔ r ∈ l.
Proof.
  unfold sorted_roles. rewrite list_elem_of_In filter_In -list_elem_of_In. unfold in_roles.
  rewrite bool_decide_eq_true. split; [by intros [_ ?]|]. intros H. split; [|done].
  destruct r; set_solver.
Qed.

Lemma resolve_roles_spec groups m r :
  r ∈ resolve_roles_from_groups groups m ↔ ∃ g, g ∈ groups ∧ m !! g = Some (role_value r).
Proof.
  unfold resolve_roles_from_groups. rewrite sorted_roles_elem list_elem_of_omap.
  split.
  - intros (g & Hg & H). apply bind_Some in H as (v & Hv & H). apply role_of_Some in H as ->. eauto.
  - intros (g & Hg & H). exists g. split; [done|]. rewrite H /=. apply role_of_value.
Qed.

(** ** The directory *)

(** Reading an override back gives the roles that were written. *)
Lemma override_roundtrip l :
  mapM role_of (List.filter (λ v, negb (String.eqb v "")) (split_on "," (join "," (map role_value (sorted_roles l)))))
  = Some (sorted_roles l).
Proof.
  unfold sorted_roles; simpl.
  destruct (in_roles BROKER_API_CLIENT l), (in_roles COMPLIANCE_OFFICER l), (in_roles SYSTEM_ADMIN l); reflexivity.
Qed.

Lemma sync_lookup s subjects okta azure o subject :
  sync_active_sessions s subjects okta azure o !! subject =
  if bool_decide (subject ∈ subjects)
  then match sync_subject s (okta subject) (azure subject) with Some v => Some v | None => o !! subject end
  else o !! subject.
Proof.
  unfold sync_active_sessions. revert o. induction subjects as [|x l IH]; intros o; [done|].
  simpl. rewrite IH. clear IH.
  destruct (decide (subject = x)) as [->|Hne].
  - rewrite (bool_decide_eq_true_2 (x ∈ x :: l)); [|by left].
    destruct (sync_subject s (okta x) (azure x)) as [v|]; [|by case_bool_decide].
    rewrite lookup_insert_eq. by case_bool_decide.
  - replace (bool_decide (subject ∈ x :: l)) with (bool_decide (subject ∈ l))
      by (apply bool_decide_ext; set_solver).
    destruct (sync_subject s (okta x) (azure x)); [|done]. by rewrite lookup_insert_ne.
Qed.

Section tokens.
Context (parse_datetime : json → option datetime).
Context (jwt_peek : string → option claims).
Context (jwt_decode : datetime → string → string → list string → string → option string → res jwt_error claims).
Abbreviation authenticate := (authenticate_token parse_datetime jwt_peek jwt_decode).
Abbreviation validate := (model_validate parse_datetime).

(** ** Where a payload comes from *)
Lemma caught_Ok r c : caught r = Ok c → r = Ok c.
Proof. destruct r as [|[]]; simpl; congruence. Qed.

(** The claims of a token that this service issued and verified. *)
Definition self_verified (s : SecuritySettings) (w : auth_world) (token : string) (c : claims) : Prop :=
  ∃ key, aw_key w = Some key
    ∧ jwt_decode (aw_now w) token key [st_jwt_algorithm s] (st_jwt_issuer s) (Some (st_jwt_audience s)) = Ok c.

(** The claims of a token of a configured identity provider, verified with the
    key that the provider serves. *)
Definition provider_verified (s : SecuritySettings) (w : auth_world) (token : string) (p : SSOProviderConfig)
    (raw : claims) : Prop :=
  ∃ issuer key, build_sso_provider_registry s !! issuer = Some p ∧ aw_jwks w (sp_jwks_url p) token = Some key
    ∧ jwt_decode (aw_now w) token key (sp_algorithms p) (sp_issuer p)
        (if truthy (sp_audience p) then sp_audience p else None) = Ok raw.

Lemma decode_sound s w token key payload :
  aw_key w = Some key →
  decode_access_token parse_datetime jwt_peek jwt_decode token s key (aw_jwks w) (aw_now w) = Ok payload →
  (∃ c, self_verified s w token c ∧ validate c = Some payload)
  ∨ (∃ p raw c, provider_verified s w token p raw ∧ _normalize_external_claims raw p s = Some c
       ∧ validate c = Some payload).
Proof.
  intros Hk. unfold decode_access_token. destruct (jwt_peek token) as [u|]; [|done].
  intros (c & Hc & Hv)%res_bind_Ok. destruct (validate c) as [q|] eqn:Eq; simplify_eq.
  case_bool_decide as Hi.
  - left. exists c. apply caught_Ok in Hc. split; [|done]. by exists key.
  - right. destruct (hashable _); [|done]. simpl in Hc.
    destruct (text_of _ ≫= _) as [p|] eqn:Ep; [|done]. apply bind_Some in Ep as (i & _ & Hp).
    destruct (aw_jwks w (sp_jwks_url p) token) as [k|] eqn:Ek; [|done].
    apply res_bind_Ok in Hc as (raw & Hr & Hn). apply caught_Ok in Hr.
    destruct (_normalize_external_claims raw p s) as [c'|] eqn:En; simplify_eq.
    exists p, raw, c. split; [|done]. by exists i, k.
Qed.

Lemma texts_map l : texts (map JStr l) = Some l.
Proof. induction l as [|x l IH]; [done|]. simpl. by rewrite IH. Qed.

(** What a valid claim set says. *)
Lemma validate_inv c payload :
  validate c = Some payload →
  obj_get "sub" c = Some (JStr (tp_sub payload))
  ∧ tp_roles payload ≠ []
  ∧ (∃ l, obj_get "roles" c = Some (JList l) ∧ (texts l ≫= mapM role_of) = Some (tp_roles payload))
  ∧ match obj_get "tenant_id" c with
    | None => tp_tenant_id payload = None
    | Some j => j = opt_str (tp_tenant_id payload) ∧ tenant_check (tp_roles payload) (tp_tenant_id payload) = true
    end.
Proof.
  unfold model_validate. intros H.
  repeat match type of H with
  | (match _ with _ => _ end) = Some _ => case_bool_decide; [done|]; simplify_eq/=
  | _ = Some _ => apply bind_Some in H as (? & ? & H)
  end.
  repeat match goal with K : (_ ≫= text_of) = Some _ |- _ => apply bind_Some in K as (? & ? & K) end.
  repeat match goal with K : text_of ?j = Some _ |- _ => destruct j; simplify_eq/= end.
  split; [done|]. split; [done|]. split.
  - destruct (obj_get "roles" c) as [[]|]; simplify_eq. eexists. split; [done|].
    match goal with K : texts _ = _ |- _ => rewrite K end. done.
  - destruct (obj_get "tenant_id" c) as [[]|]; simplify_eq; [| |done];
      match goal with K : context [tenant_check ?r ?t] |- _ => destruct (tenant_check r t) eqn:? end; by simplify_eq.
Qed.

Lemma normalize_inv raw p s c :
  _normalize_external_claims raw p s = Some c →
  ∃ groups, claimed_groups (obj_get (sp_group_claim p) raw) = Some groups
    ∧ obj_get "sub" c = Some (get_json "sub" raw) ∧ obj_get "tenant_id" c = Some JNull
    ∧ obj_get "roles" c
      = Some (JList (map (λ r, JStr (role_value r))
                       (resolve_roles_from_groups (omap text_of groups) (st_sso_directory_group_role_map s)))).
Proof.
  unfold _normalize_external_claims. destruct (claimed_groups _) as [groups|]; [|done].
  destruct (forallb hashable groups); [|done]. intros [= <-]. by exists groups.
Qed.

(** The roles of a provider's token are those of the groups it claims. *)
Lemma provider_payload raw p s c payload :
  _normalize_external_claims raw p s = Some c → validate c = Some payload →
  obj_get "sub" raw = Some (JStr (tp_sub payload)) ∧ tp_tenant_id payload = None
  ∧ ∃ groups, claimed_groups (obj_get (sp_group_claim p) raw) = Some groups
      ∧ tp_roles payload = resolve_roles_from_groups (omap text_of groups) (st_sso_directory_group_role_map s).
Proof.
  intros (groups & Hg & Hsub & Ht & Hr)%normalize_inv (Hsub' & _ & (l & Hl & Hm) & Ht')%validate_inv.
  rewrite Hsub in Hsub'. rewrite Ht in Ht'. destruct Ht' as [Ht' _]. split; [|split].
  - unfold get_json in Hsub'. destruct (obj_get "sub" raw); simplify_eq/=; done.
  - by destruct (tp_tenant_id payload).
  - exists groups. split; [done|]. rewrite Hr in Hl. injection Hl as <-.
    rewrite -map_map texts_map /= mapM_role_of in Hm. by simplify_eq.
Qed.

(** The roles of a principal are the payload's, or an override's. *)
Lemma authenticate_inv s w token p :
  authenticate token s w = Ok (Some p) →
  ∃ key payload,
    aw_key w = Some key
    ∧ decode_access_token parse_datetime jwt_peek jwt_decode token s key (aw_jwks w) (aw_now w) = Ok payload
    ∧ p = payload_principal payload (pr_roles p)
    ∧ (pr_roles p = tp_roles payload
       ∨ tp_tenant_id payload = None ∧ pr_roles p ≠ [] ∧ _directory_sync_override w (tp_sub payload) = Some (pr_roles p)).
Proof.
  unfold authenticate_token. destruct (String.eqb token ""); [done|].
  destruct (aw_key w) as [key|] eqn:Ek; [|done].
  destruct (decode_access_token _ _ _ _ _ _ _ _) as [payload|[|]] eqn:Ed; [|done..].
  intros H. exists key, payload. split; [done|]. split; [done|].
  destruct (tp_tenant_id payload) eqn:Et; [simplify_eq/=; eauto|].
  destruct (_directory_sync_override w (tp_sub payload)) as [[|r l]|] eqn:Eo; simplify_eq/=; eauto.
Qed.

(** The override of a human subject replaces the roles of the token. *)
Lemma authenticate_override s w token p roles :
  authenticate token s w = Ok (Some p) → pr_tenant_id p = None →
  _directory_sync_override w (pr_subject p) = Some roles → pr_roles p = roles ∧ roles ≠ [].
Proof.
  unfold authenticate_token. destruct (String.eqb token ""); [done|]. destruct (aw_key w); [|done].
  destruct (decode_access_token _ _ _ _ _ _ _ _) as [payload|[|]]; [|done..].
  destruct (tp_tenant_id payload) eqn:Et; [by intros [= <-]; rewrite /= Et|].
  destruct (_directory_sync_override w (tp_sub payload)) as [[|r l]|] eqn:Eo; [done|..]; intros [= <-] _; simpl.
  - rewrite Eo. by intros [= <-].
  - by rewrite Eo.
Qed.

(** C11. A principal exists only for a token whose signature, issuer and
    audience were verified: with this service's own key, or with a key of a
    configured identity provider.  A provider's principal has no tenant; its
    roles are those that the configured map gives to the groups of the verified
    token, or those of the directory override of its subject.  A principal with
    a tenant comes from a token of this service, with the roles it carries. *)
Theorem principal_is_verified s w token p :
  authenticate token s w = Ok (Some p) →
  pr_roles p ≠ []
  ∧ ((∃ c payload, self_verified s w token c ∧ validate c = Some payload
        ∧ obj_get "sub" c = Some (JStr (pr_subject p)) ∧ pr_tenant_id p = tp_tenant_id payload
        ∧ (pr_roles p = tp_roles payload
           ∨ pr_tenant_id p = None ∧ _directory_sync_override w (pr_subject p) = Some (pr_roles p)))
     ∨ (∃ prov raw groups, provider_verified s w token prov raw
          ∧ obj_get "sub" raw = Some (JStr (pr_subject p)) ∧ pr_tenant_id p = None
          ∧ claimed_groups (obj_get (sp_group_claim prov) raw) = Some groups
          ∧ ((∀ r, r ∈ pr_roles p ↔ ∃ g, JStr g ∈ groups
                                      ∧ st_sso_directory_group_role_map s !! g = Some (role_value r))
             ∨ _directory_sync_override w (pr_subject p) = Some (pr_roles p)))).
Proof.
  intros (key & payload & Hk & Hd & Hp & Hr)%authenticate_inv.
  apply (decode_sound s w) in Hd; [|done]. rewrite Hp /=.
  destruct Hd as [(c & Hv & Hc)|(prov & raw & c & Hv & Hn & Hc)].
  - destruct (validate_inv _ _ Hc) as (Hsub & Hne & _ & _).
    split; [destruct Hr as [->|(_ & ? & _)]; done|].
    left. exists c, payload. repeat split; try done. destruct Hr as [?|(? & _ & ?)]; [by left|by right].
  - destruct (validate_inv _ _ Hc) as (_ & Hne & _).
    destruct (provider_payload _ _ _ _ _ Hn Hc) as (Hsub & Ht & groups & Hg & Hroles).
    split; [destruct Hr as [->|(_ & ? & _)]; done|].
    right. exists prov, raw, groups. repeat split; try done.
    destruct Hr as [->|(_ & _ & ?)]; [left|by right].
    intros r. rewrite Hroles resolve_roles_spec.
    split; intros (g & Hg' & Hm); exists g; split; auto.
    + apply list_elem_of_omap in Hg' as (j & Hj & Ej). by destruct j; simplify_eq/=.
    + apply list_elem_of_omap. by exists (JStr g).
Qed.

(** ** An issued token authenticates its subject

    What PyJWT documents: a token that encodes some claims decodes to them with
    the key that belongs to the signing key, and the issuer and the audience it
    carries, as long as it is not expired and not issued in the future; and
    pydantic reads an integer as seconds since 1970. *)
Section issued.
Definition encodes (token : string) (c : claims) (verifying alg : string) : Prop :=
  token ≠ "" ∧ jwt_peek token = Some c
  ∧ ∀ now iss aud iat exp,
      obj_get "iss" c = Some (JStr iss) → obj_get "aud" c = Some (JStr aud) →
      obj_get "iat" c = Some (JInt iat) → obj_get "exp" c = Some (JInt exp) →
      iat <= seconds now < exp → jwt_decode now token verifying [alg] iss (Some aud) = Ok c.
Context (parse_seconds : ∀ n, 0 <= n < 20000000000 →
  parse_datetime (JInt n) = Some (Datetime ((n + 62135596800) * second) (Some 0))).

(** A datetime after the token carried it: whole seconds, in UTC. *)
Definition truncated (d : datetime) : datetime := Datetime ((seconds d + 62135596800) * second) (Some 0).

Definition in_epoch (d : datetime) : Prop := 0 <= seconds d < 20000000000.

Lemma parse_truncated d : in_epoch d → parse_datetime (JInt (seconds d)) = Some (truncated d).
Proof. apply parse_seconds. Qed.

Lemma texts_role_values roles : texts (map (λ r, JStr (role_value r)) roles) = Some (map role_value roles).
Proof. by rewrite -(map_map role_value JStr) texts_map. Qed.

Lemma minted_validates s subject roles tenant scope ttl auth_time amr now jti c payload :
  create_access_token s subject roles tenant scope ttl auth_time amr now jti = Some (c, payload) →
  in_epoch now → in_epoch (tp_exp payload) → (∀ t, auth_time = Some t → in_epoch t) →
  validate c = Some (Payload subject roles tenant (default [] scope) (st_jwt_issuer s) (st_jwt_audience s)
                       (truncated now) (truncated (tp_exp payload)) jti (truncated <$> auth_time) (default [] amr)).
Proof.
  unfold create_access_token. case_bool_decide as Hne; [done|]. simpl.
  destruct (tenant_check roles tenant) eqn:Et; [|done]. simpl.
  intros [= <- <-] Hnow Hexp Hauth. unfold model_validate. simpl.
  rewrite texts_role_values /= mapM_role_of /=.
  replace (match opt_str tenant with JNull => _ | JStr _ => _ | _ => None end) with (Some tenant)
    by (destruct tenant; simpl; by rewrite Et). simpl.
  rewrite texts_map /=. rewrite (parse_truncated now) // /=. simpl in Hexp. rewrite (parse_truncated _ Hexp) /=.
  rewrite (bool_decide_eq_false_2 (roles = [])) //.
  destruct auth_time as [t|]; simpl.
  - rewrite (parse_truncated t) /=; [|by apply Hauth].
    destruct amr as [[|m l]|]; simpl; rewrite ?texts_map; done.
  - destruct amr as [[|m l]|]; simpl; rewrite ?texts_map; done.
Qed.

(** A minted token, presented while it is valid. *)
Lemma minted_decodes s subject roles tenant scope ttl auth_time amr now jti c payload token verifying w :
  create_access_token s subject roles tenant scope ttl auth_time amr now jti = Some (c, payload) →
  in_epoch now → in_epoch (tp_exp payload) → (∀ t, auth_time = Some t → in_epoch t) →
  encodes token c verifying (st_jwt_algorithm s) →
  seconds now <= seconds (aw_now w) < seconds (tp_exp payload) →
  decode_access_token parse_datetime jwt_peek jwt_decode token s verifying (aw_jwks w) (aw_now w)
  = Ok (Payload subject roles tenant (default [] scope) (st_jwt_issuer s) (st_jwt_audience s)
          (truncated now) (truncated (tp_exp payload)) jti (truncated <$> auth_time) (default [] amr)).
Proof.
  intros Hc Hnow Hexp Hauth (_ & Hpeek & Hdec) Hwin. unfold decode_access_token. rewrite Hpeek.
  assert (Hf : obj_get "iss" c = Some (JStr (st_jwt_issuer s)) ∧ obj_get "aud" c = Some (JStr (st_jwt_audience s))
               ∧ obj_get "iat" c = Some (JInt (seconds now)) ∧ obj_get "exp" c = Some (JInt (seconds (tp_exp payload)))).
  { move: Hc. unfold create_access_token. case_match; [done|]. by intros [= <- <-]. }
  destruct Hf as (Hiss & Haud & Hiat & Hx). unfold get_json. rewrite Hiss /=.
  rewrite (bool_decide_eq_true_2 (Some _ = Some _)) //.
  rewrite (Hdec _ (st_jwt_issuer s) (st_jwt_audience s) _ _ Hiss Haud Hiat Hx Hwin) /=.
  by rewrite (minted_validates _ _ _ _ _ _ _ _ _ _ _ _ Hc Hnow Hexp Hauth).
Qed.

Context (hashpw : string → string → string) (checkpw : string → string → bool).

(** C25. Client credentials round trip: a token that [POST /v1/auth/token]
    issues authenticates, until it expires, exactly the client that asked for
    it: its id as the subject, its registered roles, and its own tenant. *)
Theorem issued_token_authenticates s db client_id secret c payload now jti token verifying w client :
  issue_token checkpw s db client_id secret now jti = Ok (c, payload) →
  db !! client_id = Some client →
  in_epoch now → in_epoch (tp_exp payload) →
  encodes token c verifying (st_jwt_algorithm s) → aw_key w = Some verifying →
  seconds now <= seconds (aw_now w) < seconds (tp_exp payload) →
  authenticate token s w
  = Ok (Some (MkPrincipal (tc_client_id client) (tc_roles client) (Some (tc_tenant_id client)) jti None []))
  ∧ tc_disabled client = false ∧ checkpw secret (tc_secret_hash client) = true
  ∧ (BROKER_API_CLIENT ∈ tc_roles client → tc_tenant_id client ≠ "").
Proof.
  unfold issue_token, client_authenticate. intros H Hdb. rewrite Hdb in H. intros Hnow Hexp Hkey Hw Hwin.
  destruct (tc_disabled client) eqn:Ed; [done|]. destruct (checkpw secret (tc_secret_hash client)) eqn:Ec; [|done].
  simpl in H. unfold minted in H.
  destruct (create_access_token _ _ _ _ _ _ _ _ _ _) as [[c' q]|] eqn:Em; simplify_eq.
  split; [|split; [done|split; [done|]]].
  - unfold authenticate_token.
    destruct (String.eqb_spec token "") as [E|_]; [by destruct Hkey as [? _]|].
    rewrite Hw. by rewrite (minted_decodes _ _ _ _ _ _ _ _ _ _ _ _ _ _ w Em Hnow Hexp _ Hkey).
  - intros Hb Ht. move: Em. unfold create_access_token. case_bool_decide; [done|].
    unfold tenant_check, in_roles. rewrite (bool_decide_eq_true_2 (BROKER_API_CLIENT ∈ _)) // Ht. done.
Qed.

Lemma login_authenticates s db email password c payload now jti token verifying w :
  login checkpw s db email password now jti = Ok (c, payload) →
  in_epoch now → in_epoch (tp_exp payload) →
  encodes token c verifying (st_jwt_algorithm s) → aw_key w = Some verifying →
  seconds now <= seconds (aw_now w) < seconds (tp_exp payload) →
  _directory_sync_override w (tp_sub payload) = None →
  ∃ u roles, _get_row db email = Some u ∧ us_disabled u = false ∧ checkpw password (us_password_hash u) = true
    ∧ us_roles u = map role_value roles
    ∧ authenticate token s w
      = Ok (Some (MkPrincipal (us_email u) roles None jti (Some (truncated now))
                    (if demo_bypass s then ["pwd"; "mfa"] else ["pwd"]))).
Proof.
  unfold login. intros (o & Ho & H)%res_bind_Ok Hnow Hexp Hkey Hw Hwin Hov.
  unfold user_authenticate in Ho. destruct (_get_row db email) as [u|] eqn:Eu; [|by injection Ho as <-].
  destruct (us_disabled u) eqn:Ed; [by injection Ho as <-|]. destruct (checkpw password (us_password_hash u)) eqn:Ec; [|by injection Ho as <-].
  simpl in Ho. destruct (_to_local_user u) as [lu|] eqn:El; simplify_eq. unfold _to_local_user in El.
  apply fmap_Some in El as (roles & Hroles & ->). unfold minted in H.
  destruct (create_access_token _ _ _ _ _ _ _ _ _ _) as [[c' q]|] eqn:Em; simplify_eq.
  exists u, roles. repeat split; auto.
  - clear -Hroles. revert roles Hroles. induction (us_roles u) as [|v l IH]; intros roles; simpl; [by intros [= <-]|].
    intros (r & Hr & H)%bind_Some. apply bind_Some in H as (l' & Hl & [= <-]).
    rewrite (role_of_Some _ _ Hr) /=. f_equal. apply IH, Hl.
  - unfold authenticate_token.
    destruct (String.eqb_spec token "") as [E|_]; [by destruct Hkey as [? _]|].
    rewrite Hw. rewrite (minted_decodes _ _ _ _ _ _ _ _ _ _ _ _ _ _ w Em Hnow Hexp) //=; [|by intros t [= <-]].
    assert (tp_sub payload = us_email u) as Hsub.
    { move: Em. unfold create_access_token. case_match; [done|]. by intros [= _ <-]. }
    simpl. rewrite -Hsub Hov. unfold payload_principal; simpl. by destruct (demo_bypass s).
Qed.
End issued.
End tokens.

(** ** A change in the directory *)
Section directory.
Context (parse_datetime : json → option datetime).
Context (jwt_peek : string → option claims).
Context (jwt_decode : datetime → string → string → list string → string → option string → res jwt_error claims).

(** Directory sync: once a poll has written its overrides, a token of a
    human subject with a session gives exactly the roles of the groups that the
    directory reports now, whatever groups the token claims; a subject whose
    groups map to no role is refused. *)
Theorem directory_change_takes_effect s w token p subjects okta azure overrides groups :
  (∀ subject, aw_override w subject = Some (sync_active_sessions s subjects okta azure overrides !! subject)) →
  authenticate_token parse_datetime jwt_peek jwt_decode token s w = Ok (Some p) →
  pr_tenant_id p = None → pr_subject p ∈ subjects →
  polled_groups (okta (pr_subject p)) (azure (pr_subject p)) = Some groups →
  pr_roles p = resolve_roles_from_groups groups (st_sso_directory_group_role_map s)
  ∧ ∃ g r, g ∈ groups ∧ st_sso_directory_group_role_map s !! g = Some (role_value r).
Proof.
  intros Hw Ha Ht Hs Hg.
  assert (Ho : _directory_sync_override w (pr_subject p)
               = Some (resolve_roles_from_groups groups (st_sso_directory_group_role_map s))).
  { unfold _directory_sync_override. rewrite Hw sync_lookup bool_decide_eq_true_2 //.
    unfold sync_subject. rewrite Hg /=. apply override_roundtrip. }
  destruct (authenticate_override _ _ _ _ _ _ _ _ Ha Ht Ho) as [Hr Hne]. split; [done|].
  destruct (resolve_roles_from_groups _ _) as [|r l] eqn:E; [done|].
  assert (r ∈ r :: l) as Hin by (by left). rewrite -E in Hin. apply resolve_roles_spec in Hin as (g & ? & ?). eauto.
Qed.

(** A subject that Okta reports in no group at all keeps the roles of its token
    when Microsoft Graph is not configured: no override is written. *)
Theorem emptied_subject_not_revoked s subjects okta azure overrides subject :
  okta subject = Some [] → azure subject = None →
  sync_active_sessions s subjects okta azure overrides !! subject = overrides !! subject.
Proof.
  intros Ho Ha. rewrite sync_lookup. unfold sync_subject. rewrite Ho Ha /=. by case_bool_decide.
Qed.
End directory.

(** ** Step-up *)

(** A second factor was used, not longer ago than the limit. *)
Definition fresh_mfa (s : SecuritySettings) (p : Principal) (now : datetime) : Prop :=
  ∃ t m, pr_auth_time p = Some t ∧ utc_us now - utc_us t <= st_step_up_mfa_max_age_seconds s * second
    ∧ m ∈ pr_amr p ∧ m ∈ st_step_up_required_amr_values s.

Lemma require_step_up_mfa_inv s p now q :
  require_step_up_mfa s p now = Ok q →
  q = p ∧ pr_tenant_id p = None ∧ (demo_bypass s = true ∨ fresh_mfa s p now).
Proof.
  unfold require_step_up_mfa. destruct (pr_tenant_id p); [done|].
  destruct (demo_bypass s); [intros [= <-]; auto|].
  destruct (pr_auth_time p) as [t|] eqn:Et; [|done]. destruct (dt_offset t); [|done].
  destruct (_ <? _) eqn:El; [done|]. destruct (existsb _ _) eqn:Em; [|done]. intros [= <-]. breflect.
  apply existsb_true_elem in Em as (m & Hm & Hr). apply existsb_true_elem in Hr as (m' & Hm' & E). breflect. subst m'.
  split; [done|]. split; [done|]. right. by exists t, m.
Qed.

(** ** Sessions *)
Inductive session_step (s : SecuritySettings) (db : sessions) : sessions → Prop :=
| step_touch p now : session_step s db (touch_or_create s db p now).1
| step_revoke token_id : session_step s db (revoke db token_id).

(** The key of a session outlives the absolute timeout by at most a second. *)
Definition session_ok (s : SecuritySettings) (x : session) : Prop :=
  ss_expires x <= ss_created_at x + (st_session_absolute_timeout_seconds s + 1) * second.

Lemma touch_keeps_ok s db p now :
  map_Forall (λ _ x, session_ok s x) db → map_Forall (λ _ x, session_ok s x) (touch_or_create s db p now).1.
Proof.
  intros Hdb. unfold touch_or_create, hgetall.
  destruct (db !! pr_token_id p) as [x|] eqn:E; [destruct (now <? ss_expires x) eqn:El|];
    [|apply map_Forall_insert_2; [unfold session_ok, second; simpl; lia|done]..].
  destruct (_ <? now - ss_created_at x) eqn:Ea; [by apply map_Forall_delete|].
  destruct (_ <? now - ss_last_activity_at x); [by apply map_Forall_delete|].
  apply map_Forall_insert_2; [|done]. unfold session_ok; simpl. breflect.
  unfold second in *. Z.quot_rem_to_equations. lia.
Qed.

Lemma sessions_reach_ok s db : rtc (session_step s) ∅ db → map_Forall (λ _ x, session_ok s x) db.
Proof.
  intros H. assert (map_Forall (λ _ x, session_ok s x) (∅ : sessions)) as H0 by done.
  revert H0. generalize (∅ : sessions) as db0, H. clear H. intros db0 H.
  induction H as [|a b c [p now|t] _ IH]; intros H0; [done|..]; apply IH.
  - by apply touch_keeps_ok.
  - by apply map_Forall_delete.
Qed.

(** Sessions end.  In every reachable store a request is admitted exactly
    when its token has no live session record, or when the record was created
    no longer ago than the absolute timeout and last used no longer ago than
    the idle timeout; a record that is not admitted is gone afterwards, and an
    admitted one keeps its creation time and is marked as used now. *)
Theorem session_admission s db p now :
  rtc (session_step s) ∅ db →
  let '(db', r) := touch_or_create s db p now in
  (r = Ok () ↔
     match hgetall db (pr_token_id p) now with
     | None => True
     | Some x => now - ss_created_at x <= st_session_absolute_timeout_seconds s * second
                 ∧ now - ss_last_activity_at x <= st_session_idle_timeout_seconds s * second
     end)
  ∧ match r with
    | Raise _ => db' !! pr_token_id p = None
    | Ok _ => ∃ y, db' !! pr_token_id p = Some y ∧ ss_last_activity_at y = now
                ∧ ss_created_at y = match hgetall db (pr_token_id p) now with Some x => ss_created_at x | None => now end
                ∧ ss_expires y <= ss_created_at y + (st_session_absolute_timeout_seconds s + 1) * second
    end
  ∧ (∀ t, t ≠ pr_token_id p → db' !! t = db !! t).
Proof.
  intros Hr%sessions_reach_ok. pose proof (touch_keeps_ok s db p now Hr) as Hok. revert Hok.
  unfold touch_or_create. destruct (hgetall db (pr_token_id p) now) as [x|]; simpl; intros Hok.
  - destruct (_ <? now - ss_created_at x) eqn:Ea; simpl in *; breflect.
    { split; [split; [done|lia]|]. split; [apply lookup_delete_eq|]. intros. by rewrite lookup_delete_ne. }
    destruct (_ <? now - ss_last_activity_at x) eqn:Ei; simpl in *; breflect.
    { split; [split; [done|lia]|]. split; [apply lookup_delete_eq|]. intros. by rewrite lookup_delete_ne. }
    split; [done|]. split; [|intros; by rewrite lookup_insert_ne].
    eexists. split; [apply lookup_insert_eq|]. split; [done|]. split; [done|].
    eapply (Hok (pr_token_id p)). apply lookup_insert_eq.
  - split; [done|]. split; [|intros; by rewrite lookup_insert_ne].
    eexists. split; [apply lookup_insert_eq|]. split; [done|]. split; [done|].
    eapply (Hok (pr_token_id p)). apply lookup_insert_eq.
Qed.

(** A request that is refused for a timeout is admitted when it is sent again:
    the record is gone, and a new session starts. *)
Theorem expired_session_restarts s db p now later reason :
  (touch_or_create s db p now).2 = Raise reason →
  (touch_or_create s (touch_or_create s db p now).1 p later).2 = Ok ().
Proof.
  unfold touch_or_create at 1 3. destruct (hgetall db (pr_token_id p) now) as [x|]; [|done]. simpl.
  destruct (_ <? now - ss_created_at x); [|destruct (_ <? now - ss_last_activity_at x); [|done]];
    intros _; simpl; unfold touch_or_create, hgetall; by rewrite lookup_delete_eq.
Qed.

(** More than a second after the absolute timeout the key has expired, and the
    request starts a new session instead of ending one. *)
Theorem absolute_timeout_not_enforced s db p now x :
  rtc (session_step s) ∅ db → db !! pr_token_id p = Some x →
  ss_created_at x + (st_session_absolute_timeout_seconds s + 1) * second <= now →
  (touch_or_create s db p now).2 = Ok ().
Proof.
  intros Hr%sessions_reach_ok Hx Hn. pose proof (Hr _ _ Hx) as Hok. unfold session_ok in Hok.
  unfold touch_or_create, hgetall. rewrite Hx. destruct (now <? ss_expires x) eqn:E; breflect; [lia|done].
Qed.
(** ** The rate limiter *)

(** The instants at which a sequence of requests [(path, key, now)] is passed
    on for one key, the exempt paths apart. *)
Fixpoint served (s : SecuritySettings) (db : windows) (key : string) (l : list (string * string * Z)) : list Z :=
  match l with
  | [] => []
  | (path, k, now) :: l' =>
      let '(db', ok) := rate_limit s db path k now in
      let counted := ok && String.eqb k key && negb (existsb (String.eqb path) (st_rate_limit_exempt_paths s)) in
      ((if counted then [now] else []) ++ served s db' key l')%list
  end.

Definition num (f : Z → bool) (l : list Z) : Z := Z.of_nat (length (List.filter f l)).
Definition within (a b t : Z) : bool := (a <=? t) && (t <? b).

Lemma num_snoc f l t : num f (l ++ [t]) = num f l + (if f t then 1 else 0).
Proof. unfold num. rewrite List.filter_app length_app /=. destruct (f t); simpl; lia. Qed.

Lemma num_le f g l : (∀ t, t ∈ l → f t = true → g t = true) → num f l <= num g l.
Proof.
  unfold num. induction l as [|t l IH]; intros H; simpl; [done|].
  assert (∀ t, t ∈ l → f t = true → g t = true) as H' by (intros; apply H; [by right|done]).
  specialize (IH H'). destruct (f t) eqn:E; [rewrite (H t) //; [simpl; lia|by left]|].
  destruct (g t); simpl; lia.
Qed.

Lemma num_zero f l : (∀ t, t ∈ l → f t = false) → num f l = 0.
Proof.
  unfold num. induction l as [|t l IH]; intros H; simpl; [done|]. rewrite (H t); [|by left].
  apply IH. intros. apply H. by right.
Qed.

Lemma num_nonneg f l : 0 <= num f l.
Proof. unfold num. lia. Qed.

Section rate.
Context (s : SecuritySettings) (key : string).
Abbreviation N := (st_rate_limit_requests_per_window s).
Abbreviation ttl := (st_rate_limit_window_seconds s * second).
Context (Hw : 0 < st_rate_limit_window_seconds s) (HN : 1 <= N).

(** Between the requests: what the window of the key says about the instants
    [log] at which requests for it were passed on. *)
Definition window_ok (w : window) (log : list Z) (last : Z) : Prop :=
  let start := wn_expires w - ttl in
  let served := Z.min (wn_count w) N in
  1 <= wn_count w ∧ start <= last
  ∧ (∀ t, t ∈ log → t < wn_expires w)
  ∧ num (λ t, start <=? t) log <= served
  ∧ (∀ a, start < a → num (λ t, a <=? t) log <= served - 1)
  ∧ (∀ a, start - ttl < a → num (λ t, a <=? t) log <= N - 1 + served).

Definition limiter_ok (db : windows) (log : list Z) (last : Z) : Prop :=
  (∀ t, t ∈ log → t <= last)
  ∧ (∀ a, num (within a (a + ttl)) log <= 2 * N - 1)
  ∧ match db !! key with None => log = [] | Some w => window_ok w log last end.

Lemma window_ok_later w log last now : window_ok w log last → last <= now → window_ok w log now.
Proof. intros (? & ? & ?) ?. split; [done|]. split; [lia|done]. Qed.

Lemma in_window_le a b log : num (within a b) log <= num (λ t, a <=? t) log.
Proof. apply num_le. intros t _. unfold within. intros [H _]%andb_prop. done. Qed.

(** A served request opens a window. *)
Lemma opened db log last now :
  limiter_ok db log last → last <= now →
  match db !! key with Some w => wn_expires w <= now | None => True end →
  window_ok (Window 1 (now + ttl)) (log ++ [now]) now
  ∧ (∀ a, num (within a (a + ttl)) (log ++ [now]) <= 2 * N - 1).
Proof.
  intros (Hle & Hb & Hkey) Hn Hexp. unfold second in *.
  assert (Hnew : ∀ t, t ∈ log → t < now).
  { destruct (db !! key) as [w|]; [|subst; set_solver]. destruct Hkey as (_ & _ & Hlt & _). intros t Ht%Hlt. lia. }
  assert (H0 : ∀ a, now <= a → num (λ t, a <=? t) log = 0).
  { intros a Ha. apply num_zero. intros t Ht%Hnew. lia. }
  assert (H1 : ∀ a, now - ttl < a → num (λ t, a <=? t) log <= N - 1).
  { intros a Ha. destruct (db !! key) as [w|]; [|subst; unfold num; simpl; lia].
    destruct Hkey as (_ & _ & _ & _ & Hk & _). unfold second in *. pose proof (Hk a). lia. }
  split.
  - unfold window_ok, second; simpl. replace (now + _ - _) with now by lia.
    split; [lia|]. split; [lia|]. split; [|split; [|split]].
    + intros t [Ht%Hnew|Ht%list_elem_of_singleton]%elem_of_app; lia.
    + rewrite num_snoc H0; [|lia]. destruct (now <=? now); lia.
    + intros a Ha. rewrite num_snoc H0; [|lia]. destruct (a <=? now) eqn:E; lia.
    + intros a Ha. rewrite num_snoc. pose proof (H1 a). unfold second in *. destruct (a <=? now); lia.
  - intros a. rewrite num_snoc. destruct (within a (a + _) now) eqn:E; [|pose proof (Hb a); unfold second in *; lia].
    unfold within, second in *. breflect. pose proof (in_window_le a (a + st_rate_limit_window_seconds s * 1000000) log).
    pose proof (H1 a). unfold within in *. lia.
Qed.

(** A request in a live window. *)
Lemma counted w log last now (ok : bool) :
  (∀ t, t ∈ log → t <= last) → (∀ a, num (within a (a + ttl)) log <= 2 * N - 1) → window_ok w log last →
  last <= now < wn_expires w → ok = (wn_count w + 1 <=? N) →
  let log' := if ok then (log ++ [now])%list else log in
  window_ok (Window (wn_count w + 1) (wn_expires w)) log' now
  ∧ (∀ a, num (within a (a + ttl)) log' <= 2 * N - 1).
Proof.
  intros Hle Hb (Hc & Hs & Hlt & Hk0 & Hk1 & Hk2) Hn ->. cbv zeta. unfold second in *.
  destruct (wn_count w + 1 <=? N) eqn:E; breflect; unfold window_ok, second; simpl.
  - split.
    + split; [lia|]. split; [lia|]. split; [|split; [|split]].
      * intros t [Ht%Hlt|Ht%list_elem_of_singleton]%elem_of_app; lia.
      * rewrite num_snoc. case_match; lia.
      * intros a Ha. rewrite num_snoc. pose proof (Hk1 a). case_match; lia.
      * intros a Ha. rewrite num_snoc. pose proof (Hk2 a). case_match; lia.
    + intros a. rewrite num_snoc. pose proof (Hb a). destruct (within a _ now) eqn:E'; [|lia].
      unfold within in E'. breflect. pose proof (Hk2 a).
      pose proof (in_window_le a (a + st_rate_limit_window_seconds s * 1000000) log). lia.
  - split; [|done]. split; [lia|]. split; [lia|]. split; [done|]. split; [lia|]. split.
    + intros a Ha. pose proof (Hk1 a). lia.
    + intros a Ha. pose proof (Hk2 a). lia.
Qed.

Lemma limiter_step db log last path k now db' ok :
  limiter_ok db log last → last <= now → rate_limit s db path k now = (db', ok) →
  let counted := ok && String.eqb k key && negb (existsb (String.eqb path) (st_rate_limit_exempt_paths s)) in
  limiter_ok db' (log ++ if counted then [now] else []) now.
Proof.
  intros Hok Hn. unfold rate_limit. destruct (existsb _ _).
  { intros [= <- <-]. rewrite andb_false_r app_nil_r. destruct Hok as (Hle & Hb & Hk). split; [|split; [done|]].
    - intros t Ht%Hle. lia.
    - destruct (db !! key); [by eapply window_ok_later|done]. }
  destruct (incr db k ttl now) as [db1 count] eqn:Ei. intros [= <- <-]. rewrite andb_true_r.
  destruct (String.eqb_spec k key) as [->|Hne]; last first.
  { rewrite andb_false_r app_nil_r. destruct Hok as (Hle & Hb & Hk). split; [|split; [done|]].
    - intros t Ht%Hle. lia.
    - assert (db1 !! key = db !! key) as ->.
      { unfold incr in Ei. by repeat case_match; simplify_eq; rewrite lookup_insert_ne. }
      destruct (db !! key); [by eapply window_ok_later|done]. }
  rewrite andb_true_r. pose proof Hok as (Hle & Hb & Hk).
  assert (Hsnoc : ∀ t b, t ∈ (log ++ if b : bool then [now] else [])%list → t <= now).
  { intros t b [Ht%Hle|Ht]%elem_of_app; [lia|]. destruct b; set_solver. }
  assert (Hopen : match db !! key with Some w => wn_expires w <= now | None => True end →
                  limiter_ok (<[key := Window 1 (now + ttl)]> db) (log ++ if 1 <=? N then [now] else []) now).
  { intros Hexp. destruct (opened db log last now Hok Hn Hexp) as [H1 H2].
    destruct (1 <=? N) eqn:E; breflect; [|lia]. split; [intros t; apply (Hsnoc t true)|]. split; [done|]. by rewrite lookup_insert_eq. }
  unfold incr in Ei. destruct (db !! key) as [w|] eqn:Ew; [destruct (now <? wn_expires w) eqn:El|];
    simplify_eq; breflect; [|by apply Hopen..].
  destruct (counted w log last now _ Hle Hb Hk ltac:(lia) eq_refl) as [H1 H2].
  split; [intros t; apply Hsnoc|]. rewrite lookup_insert_eq. destruct (wn_count w + 1 <=? N); rewrite ?app_nil_r; done.
Qed.

Lemma served_bound l : ∀ db log last,
  limiter_ok db log last → Forall (λ r, last <= r.2) l → StronglySorted (λ x y, x.2 <= y.2) l →
  ∀ a, num (within a (a + ttl)) (log ++ served s db key l) <= 2 * N - 1.
Proof.
  induction l as [|[[path k] now] l IH]; intros db log last Hok Hl Hs a; simpl.
  { rewrite app_nil_r. apply Hok. }
  apply StronglySorted_inv in Hs as [Hs Hnow]. apply Forall_cons in Hl as [Hn _]. simpl in Hn.
  destruct (rate_limit s db path k now) as [db' ok] eqn:E. rewrite assoc.
  eapply IH; [by eapply limiter_step|done|done].
Qed.
End rate.

(** C31. Rate limiting: over any sequence of requests in time order, no interval
    of the length of the window sees more than [2 * limit - 1] requests of one
    caller passed on (the windows are fixed, so two can overlap the interval);
    the requests to the exempt paths apart. *)
Theorem rate_limit_bound s key l a :
  0 < st_rate_limit_window_seconds s → 1 <= st_rate_limit_requests_per_window s →
  StronglySorted (λ x y : string * string * Z, x.2 <= y.2) l →
  num (within a (a + st_rate_limit_window_seconds s * second)) (served s ∅ key l)
  <= 2 * st_rate_limit_requests_per_window s - 1.
Proof.
  intros Hw HN Hs. destruct l as [|[[path k] now] l]; [unfold num; simpl; lia|].
  apply (served_bound s key Hw HN ((path, k, now) :: l) ∅ [] now); [|constructor; [done|]|done].
  - split; [set_solver|]. split; [unfold num; simpl; lia|]. by rewrite lookup_empty.
  - apply StronglySorted_inv in Hs as [_ Hs]. done.
Qed.

(** ** The gate of a route *)
Section gate.
Context (parse_datetime : json → option datetime).
Context (jwt_peek : string → option claims).
Context (jwt_decode : datetime → string → string → list string → string → option string → res jwt_error claims).
Context (bearer_scheme : string → option string).
Context (s : SecuritySettings).
Abbreviation authenticate := (authenticate_token parse_datetime jwt_peek jwt_decode).
Abbreviation through := (through_middleware parse_datetime jwt_peek jwt_decode s).

Lemma through_frame sv rq wj now sv' r :
  through sv rq wj now = (sv', r) → sv_db sv' = sv_db sv ∧ sv_publisher sv' = sv_publisher sv.
Proof. unfold through_middleware. intros H. by repeat case_match; simplify_eq/=. Qed.

Lemma through_Ok sv rq wj now sv' p :
  through sv rq wj now = (sv', Ok p) →
  https_ok s (rq_path rq) (rq_forwarded_proto rq) (rq_scheme rq) = true
  ∧ jwt_middleware parse_datetime jwt_peek jwt_decode (rq_authorization rq) s wj = Ok p
  ∧ Governance.dispatch (sv_kill_switch sv) (st_rate_limit_exempt_paths s) (rq_path rq) (p ≫= pr_tenant_id) = true
  ∧ (session_middleware s (sv_sessions sv) p (utc_us now)).2 = Ok ().
Proof.
  unfold through_middleware. intros H.
  destruct (https_ok _ _ _ _); [|done]. simpl in H.
  destruct (jwt_middleware _ _ _ _ _ _) as [q|]; [|done].
  destruct (Governance.dispatch _ _ _ _) eqn:Ed; [|done]. simpl in H.
  destruct (session_middleware _ _ _ _) as [ss [[]|[]]] eqn:Es; [|done].
  destruct (rate_limit _ _ _ _ _) as [ws []]; simplify_eq. by rewrite Ed Es.
Qed.

(** What the checks of a route establish about the caller. *)
Lemma guarded_Ok {E A} step_up roles (handler : server → Principal → server * res E A) sv rq wj wd now sv' a :
  guarded parse_datetime jwt_peek jwt_decode bearer_scheme s step_up roles handler sv rq wj wd now = (sv', Ok a) →
  ∃ sv1 q p, through sv rq wj now = (sv1, Ok q)
    ∧ get_current_principal parse_datetime jwt_peek jwt_decode q (bearer_scheme (rq_authorization rq)) s wd = Ok p
    ∧ has_role p roles = true
    ∧ (step_up = true → pr_tenant_id p = None ∧ (demo_bypass s = true ∨ fresh_mfa s p now))
    ∧ handler sv1 p = (sv', Ok a).
Proof.
  unfold guarded. destruct (through sv rq wj now) as [sv1 [q|e]] eqn:Et; [|done]. simpl.
  destruct (get_current_principal _ _ _ _ _ _ _) as [p|] eqn:Eg; [|done]. simpl.
  unfold require_roles. destruct (has_role p roles) eqn:Eh; [|done]. simpl. intros H. exists sv1, q, p.
  destruct step_up.
  - destruct (require_step_up_mfa s p now) as [p'|] eqn:Eu; [|done].
    destruct (require_step_up_mfa_inv _ _ _ _ Eu) as (-> & Ht & Hm).
    destruct (handler sv1 p) as [sv2 []]; simplify_eq. done.
  - destruct (handler sv1 p) as [sv2 []]; simplify_eq. done.
Qed.

(** C6. No approval without authority.  When [POST
    /v1/hitl-reviews/{id}/approve] succeeds, the bearer token of the request
    authenticates a principal who holds the role [Compliance_Officer], is not a
    machine client, and used a second factor within the configured age (the
    demo mode of a development environment apart); the kill switch was off for
    the request; a live session of the token was within both timeouts; and the
    database changed exactly as the review service's approval by that subject
    does.  Any other outcome leaves the database and the published policies as
    they were.  The token is verified in the same world by the middleware and
    by the dependency, and both read the header alike. *)
Theorem approval_needs_authority sv rq w now review_id notes opa_ok :
  bearer_scheme (rq_authorization rq) = bearer_token (rq_authorization rq) →
  match approve_route parse_datetime jwt_peek jwt_decode bearer_scheme s review_id notes opa_ok sv rq w w now with
  | (sv', Ok review) =>
      ∃ token p activated, bearer_token (rq_authorization rq) = Some token
        ∧ authenticate token s w = Ok (Some p)
        ∧ COMPLIANCE_OFFICER ∈ pr_roles p ∧ pr_tenant_id p = None
        ∧ (demo_bypass s = true ∨ fresh_mfa s p now)
        ∧ Governance.dispatch (sv_kill_switch sv) (st_rate_limit_exempt_paths s) (rq_path rq) None = true
        ∧ match hgetall (sv_sessions sv) (pr_token_id p) (utc_us now) with
          | None => True
          | Some x => utc_us now - ss_created_at x <= st_session_absolute_timeout_seconds s * second
                      ∧ utc_us now - ss_last_activity_at x <= st_session_idle_timeout_seconds s * second
          end
        ∧ HitlService.approve_review (sv_db sv) (sv_publisher sv) review_id (pr_subject p) notes now opa_ok
          = Ok (sv_db sv', sv_publisher sv', review, activated)
  | (sv', Raise _) => sv_db sv' = sv_db sv ∧ sv_publisher sv' = sv_publisher sv
  end.
Proof.
  intros Hscheme. destruct (approve_route _ _ _ _ _ _ _ _ _ _ _ _ _) as [sv' [review|e]] eqn:E.
  - apply guarded_Ok in E as (sv1 & q & p & Ht & Hg & Hr & Hu & Hh).
    apply has_role_spec in Hr as (r & ->%list_elem_of_singleton & Hr).
    destruct (Hu eq_refl) as [Hten Hmfa]. destruct (through_frame _ _ _ _ _ _ Ht) as [Hd Hp].
    destruct (through_Ok _ _ _ _ _ _ Ht) as (_ & Hj & Hk & Hs).
    assert (Hq : ∃ token, bearer_token (rq_authorization rq) = Some token ∧ authenticate token s w = Ok (Some p) ∧ q = Some p).
    { unfold jwt_middleware in Hj. unfold get_current_principal in Hg. rewrite Hscheme in Hg.
      destruct (bearer_token (rq_authorization rq)) as [token|]; [|by simplify_eq].
      rewrite Hj in Hg. destruct q as [q|]; simplify_eq/=. by exists token. }
    destruct Hq as (token & Hb & Ha & ->). simpl in Hk, Hs. rewrite Hten in Hk.
    unfold approve_handler in Hh. rewrite Hd Hp in Hh.
    destruct (HitlService.approve_review _ _ _ _ _ _ _) as [[[[d pub] rv] act]|] eqn:Ea; simplify_eq/=.
    exists token, p, act. repeat (split; [done|]). split; [|done].
    rewrite bool_decide_eq_true_2 // in Hs. unfold touch_or_create in Hs.
    destruct (hgetall _ _ _) as [x|]; [|done].
    destruct (_ <? utc_us now - ss_created_at x) eqn:E1; [done|].
    destruct (_ <? utc_us now - ss_last_activity_at x) eqn:E2; [done|]. by breflect.
  - unfold approve_route, guarded in E.
    destruct (through sv rq w now) as [sv1 r] eqn:Et. destruct (through_frame _ _ _ _ _ _ Et) as [Hd Hp].
    destruct (res_bind r _) as [p|]; [|by simplify_eq].
    unfold approve_handler in E.
    destruct (HitlService.approve_review _ _ _ _ _ _ _) as [[[[]]]|]; by simplify_eq.
Qed.
End gate.

(** ** At concrete inputs *)
Definition w_block : sso_block := SSOBlock (Some "https://okta") (Some "https://okta/keys") (Some "api") "groups".
Definition no_block : sso_block := SSOBlock None None None "groups".
Definition w_settings : SecuritySettings :=
  SecSettings "production" false "HS256" "regengine-ai" "regengine-ai-api" 3600 None None ["RS256"] w_block no_block no_block
    ["RS256"] {[ "SEBI_Compliance_Team" := "Compliance_Officer"; "Infra" := "System_Admin" ]} 900 28800 300 ["mfa"; "otp"]
    true true 60 300 ["/healthz"] false "groups".

(** Some seconds after the start of 2024, and the claims of an officer's token. *)
Definition w_at (n : Z) : datetime := Datetime ((62135596800 + 1704067200 + n) * second) (Some 0).
Definition w_claims : claims :=
  [("iss", JStr "https://okta"); ("sub", JStr "asha@example.com"); ("aud", JStr "api");
   ("groups", JList [JStr "SEBI_Compliance_Team"; JStr "Everyone"]);
   ("iat", JInt 1704067200); ("exp", JInt 1704153600); ("jti", JStr "jti-1");
   ("auth_time", JInt 1704067200); ("amr", JList [JStr "pwd"; JStr "mfa"])].

Definition w_parse (j : json) : option datetime :=
  match j with JInt n => Some (Datetime ((n + 62135596800) * second) (Some 0)) | _ => None end.
Definition w_peek (c : claims) (token : string) : option claims := if String.eqb token "tok" then Some c else None.
#[export] Instance json_text_eq_dec (j : json) (s : string) : Decision (j = JStr s).
Proof. destruct j; try (right; discriminate). destruct (decide (s0 = s)) as [->|]; [by left|right; congruence]. Defined.
Definition w_decode (c : claims) (now : datetime) (token key : string) (algs : list string) (iss : string) (aud : option string)
  : res jwt_error claims :=
  if String.eqb token "tok" && String.eqb key "k" && bool_decide (get_json "iss" c = JStr iss)
  then match obj_get "exp" c with
       | Some (JInt exp) => if seconds now <? exp then Ok c else Raise ExpiredSignatureError
       | _ => Raise InvalidTokenError
       end
  else Raise InvalidTokenError.
Definition w_world (now : datetime) (jwks : option string) (overrides : gmap string string) : auth_world :=
  AuthWorld (Some "k") (λ _ _, jwks) now (λ subject, Some (overrides !! subject)).
Definition w_officer : Principal :=
  MkPrincipal "asha@example.com" [COMPLIANCE_OFFICER] None "jti-1" (Some (w_at 0)) ["pwd"; "mfa"].

Lemma principal_is_verified_witness :
  pr_roles w_officer ≠ []
  ∧ ∃ prov raw, provider_verified (w_decode w_claims) w_settings (w_world (w_at 10) (Some "k") ∅) "tok" prov raw.
Proof.
  destruct (principal_is_verified w_parse (w_peek w_claims) (w_decode w_claims) w_settings
              (w_world (w_at 10) (Some "k") ∅) "tok" w_officer) as [H [H'|H']]; [vm_compute; reflexivity|..].
  - exfalso. destruct H' as (c & payload & (key & Hk & Hd) & _). vm_compute in Hk. injection Hk as <-. vm_compute in Hd. done.
  - split; [exact H|]. destruct H' as (prov & raw & _ & Hv & _). by exists prov, raw.
Defined.

(** A registered client, and the claims of its token. *)
Definition w_checkpw (password hash : string) : bool := String.eqb ("h:" +:+ password) hash.
Definition w_clients : gmap string TenantClient :=
  client_register (λ p _, "h:" +:+ p) ∅ "client-a" "secret" "broker_a" None "salt".
Definition w_issued : claims * TokenPayload := Eval vm_compute in
  match issue_token w_checkpw w_settings w_clients "client-a" "secret" (w_at 0) "jti-2" with
  | Ok x => x | Raise _ => ([], Payload "" [] None [] "" "" (w_at 0) (w_at 0) "" None []) end.

Lemma issued_token_authenticates_witness :
  authenticate_token w_parse (w_peek w_issued.1) (w_decode w_issued.1) "tok" w_settings (w_world (w_at 60) None ∅)
  = Ok (Some (MkPrincipal "client-a" [BROKER_API_CLIENT] (Some "broker_a") "jti-2" None [])).
Proof.
  apply (issued_token_authenticates w_parse (w_peek w_issued.1) (w_decode w_issued.1) ltac:(intros n _; reflexivity)
           w_checkpw w_settings w_clients "client-a" "secret" w_issued.1 w_issued.2 (w_at 0) "jti-2" "tok" "k"
           (w_world (w_at 60) None ∅) (Client "client-a" "broker_a" "h:secret" [BROKER_API_CLIENT] false)).
  - vm_compute. reflexivity.
  - vm_compute. reflexivity.
  - vm_compute. split; [discriminate|reflexivity].
  - vm_compute. split; [discriminate|reflexivity].
  - split; [discriminate|]. split; [reflexivity|]. intros now iss aud iat exp Hiss Haud Hiat Hexp Hnow.
    injection Hiss as <-. injection Hexp as <-.
    transitivity (if seconds now <? 1704070800 then Ok (E := jwt_error) w_issued.1 else Raise ExpiredSignatureError);
      [reflexivity|]. destruct Hnow as [_ Hnow%Z.ltb_lt]. by rewrite Hnow.
  - reflexivity.
  - vm_compute. split; [discriminate|reflexivity].
Defined.

Lemma directory_change_takes_effect_witness :
  pr_roles (MkPrincipal "asha@example.com" [SYSTEM_ADMIN] None "jti-1" (Some (w_at 0)) ["pwd"; "mfa"]) = [SYSTEM_ADMIN].
Proof.
  pose (okta := λ _ : string, Some ["Infra"]). pose (azure := λ _ : string, @None (list string)).
  apply (directory_change_takes_effect w_parse (w_peek w_claims) (w_decode w_claims) w_settings
           (w_world (w_at 10) (Some "k") (sync_active_sessions w_settings ["asha@example.com"] okta azure ∅)) "tok" _
           ["asha@example.com"] okta azure ∅ ["Infra"]).
  - reflexivity.
  - vm_compute. reflexivity.
  - reflexivity.
  - by left.
  - reflexivity.
Defined.

Definition w_session : sessions := (touch_or_create w_settings ∅ w_officer (utc_us (w_at 0))).1.

Lemma session_admission_witness :
  (touch_or_create w_settings w_session w_officer (utc_us (w_at 901))).2 = Raise (SessionExpiredError "idle_timeout")
  ∧ ¬ (utc_us (w_at 901) - utc_us (w_at 0) <= st_session_idle_timeout_seconds w_settings * second).
Proof.
  split; [vm_compute; reflexivity|].
  pose proof (session_admission w_settings w_session w_officer (utc_us (w_at 901))
                ltac:(apply rtc_once; apply step_touch)) as H.
  destruct (touch_or_create _ _ _ _) as [db' r] eqn:E. destruct H as [[_ H] _]. intros Hle.
  assert (r = Raise (SessionExpiredError "idle_timeout")) as -> by (vm_compute in E; by injection E as _ <-).
  discriminate H. vm_compute. split; [discriminate|]. vm_compute in Hle. done.
Defined.

(** Three requests of one caller against a limit of two: the third is refused,
    and the next window admits again. *)
Definition w_limit : SecuritySettings :=
  SecSettings "production" false "HS256" "regengine-ai" "regengine-ai-api" 3600 None None ["RS256"] w_block no_block no_block
    ["RS256"] ∅ 900 28800 300 ["mfa"] true true 60 2 ["/healthz"] false "groups".
Definition w_requests : list (string * string * Z) :=
  [("/v1/a", "ip:x", 0); ("/v1/a", "ip:x", 50 * second); ("/v1/a", "ip:x", 55 * second);
   ("/v1/a", "ip:x", 60 * second); ("/v1/a", "ip:x", 61 * second); ("/v1/a", "ip:x", 62 * second)].

Lemma rate_limit_bound_witness :
  num (within (50 * second) (50 * second + 60 * second)) (served w_limit ∅ "ip:x" w_requests) <= 3
  ∧ served w_limit ∅ "ip:x" w_requests = [0; 50 * second; 60 * second; 61 * second].
Proof.
  split; [|vm_compute; reflexivity].
  apply (rate_limit_bound w_limit "ip:x" w_requests (50 * second)); [vm_compute; reflexivity|vm_compute; discriminate|].
  repeat constructor; vm_compute; discriminate.
Defined.

(** A review that waits for approval, and the request of the officer. *)
Definition w_review : HITLReview :=
  ReviewRow 1 "rev-1" 0 None "broker_a" "LOW_CONFIDENCE" "blocking" "?" None None "PENDING" None None None None None.
Definition w_server : server :=
  Server (KSStore None ∅ ∅) ∅ ∅ (Db ["broker_a"] [] [] [] [w_review] [] 2) None.
Definition w_request : http_request :=
  Request "/v1/hitl-reviews/rev-1/approve" (Some "https") "http" "Bearer tok" (Some "10.0.0.1").
Definition w_approve (sv : server) (wj wd : auth_world) (now : datetime) :=
  approve_route w_parse (w_peek w_claims) (w_decode w_claims) bearer_token w_settings "rev-1" None true sv w_request wj wd now.

Lemma approval_needs_authority_witness :
  match w_approve w_server (w_world (w_at 10) (Some "k") ∅) (w_world (w_at 10) (Some "k") ∅) (w_at 10) with
  | (sv', Ok review) => rv_status review = "RESOLVED" ∧ sv_db sv' ≠ sv_db w_server
                        ∧ ∃ p, COMPLIANCE_OFFICER ∈ pr_roles p
                            ∧ (demo_bypass w_settings = true ∨ fresh_mfa w_settings p (w_at 10))
  | _ => False
  end.
Proof.
  pose proof (approval_needs_authority w_parse (w_peek w_claims) (w_decode w_claims) bearer_token w_settings w_server
                w_request (w_world (w_at 10) (Some "k") ∅) (w_at 10) "rev-1" None true eq_refl) as H.
  fold (w_approve w_server (w_world (w_at 10) (Some "k") ∅) (w_world (w_at 10) (Some "k") ∅) (w_at 10)) in H.
  destruct (w_approve _ _ _ _) as [sv' [review|]] eqn:E.
  - destruct H as (token & p & act & _ & _ & Hr & _ & Hm & _). vm_compute in E. injection E as <- <-.
    split; [reflexivity|]. split; [discriminate|]. by exists p.
  - vm_compute in E. discriminate E.
Defined.

(** The role is not enough: six minutes after the second factor the approval is
    refused, and the database is as before. *)
Example stale_mfa_refused :
  w_approve w_server (w_world (w_at 360) (Some "k") ∅) (w_world (w_at 360) (Some "k") ∅) (w_at 360)
  = (with_windows (with_sessions w_server (touch_or_create w_settings ∅ w_officer (utc_us (w_at 360))).1)
       {[ "user:asha@example.com" := Window 1 (utc_us (w_at 420)) ]},
     Raise (inl (HTTPException 401 "auth_event_too_old"))).
Proof. vm_compute. reflexivity. Qed.

(** When the key lookup of the middleware fails and the one of the dependency
    succeeds, the request is served although its session has ended. *)
Theorem session_check_skipped :
  let idle := Server (KSStore None ∅ ∅) {[ "jti-1" := Session "asha@example.com" 0 0 (utc_us (w_at 20)) ]} ∅ (sv_db w_server) None in
  (w_approve idle (w_world (w_at 10) (Some "k") ∅) (w_world (w_at 10) (Some "k") ∅) (w_at 10)).2
  = Raise (inl (HTTPException 401 "absolute_timeout"))
  ∧ is_ok (w_approve idle (w_world (w_at 10) None ∅) (w_world (w_at 10) (Some "k") ∅) (w_at 10)).2 = true.
Proof. vm_compute. split; reflexivity. Qed.
