(* ===== verification/Mna.v ===== *)
(** * M&A due diligence: comparing the compliance posture of two entities

    [src/app/mna_due_diligence/models.py], [comparison_engine.py],
    [prompts.py], [snapshot.py], [audit.py], [auth.py] and [tasks.py], and the
    handlers of [src/app/api/mna_routes.py].

    The language model is a function of the prompt that answers with the JSON
    value of its reply or raises.  Random ids are left out of findings and
    reports.  The iteration order of a Python set of strings is a parameter
    where the code iterates over one. *)
From S2P Require Import Prelude PyStr PyFloat Sha256 Json Datetime PyRe PyText JsonLogic FilingReport Ledger DbModels Backtest Security.

Open Scope string_scope.
Open Scope Z_scope.
Open Scope py_scope.

(** ** [models.py] *)
Inductive MNADifferenceType :=
| EXACT_DIFFERENCE | SEMANTIC_DIFFERENCE | POTENTIAL_CONFLICT | UNRESOLVED_AMBIGUITY | MISSING_POLICY.
Inductive MNAFindingSeverity := INFO | LOW | MEDIUM | HIGH | CRITICAL.
#[export] Instance MNADifferenceType_eq_dec : EqDecision MNADifferenceType.
Proof. solve_decision. Defined.
#[export] Instance MNAFindingSeverity_eq_dec : EqDecision MNAFindingSeverity.
Proof. solve_decision. Defined.

Definition difference_value (t : MNADifferenceType) : string :=
  match t with
  | EXACT_DIFFERENCE => "exact_difference" | SEMANTIC_DIFFERENCE => "semantic_difference"
  | POTENTIAL_CONFLICT => "potential_conflict" | UNRESOLVED_AMBIGUITY => "unresolved_ambiguity"
  | MISSING_POLICY => "missing_policy"
  end.
Definition severity_value (v : MNAFindingSeverity) : string :=
  match v with INFO => "INFO" | LOW => "LOW" | MEDIUM => "MEDIUM" | HIGH => "HIGH" | CRITICAL => "CRITICAL" end.

Record MNAFindingProvenance := MProvenance
  { mp_entity_a_artifact_ref : option string
  ; mp_entity_b_artifact_ref : option string
  ; mp_entity_a_hash : option string
  ; mp_entity_b_hash : option string
  ; mp_metric_field : option string
  ; mp_evidence_notes : string }.

Record MNAFinding := MFinding
  { mf_difference_type : MNADifferenceType
  ; mf_severity : MNAFindingSeverity
  ; mf_title : string
  ; mf_description : string
  ; mf_is_advisory : bool
  ; mf_provenance : MNAFindingProvenance
  ; mf_entity_a_value : json
  ; mf_entity_b_value : json
  ; mf_recommendation : option string }.

Record EntityRuleSnapshot := RuleSnap
  { er_rule_id : string
  ; er_rule_version : Z
  ; er_policy_sha256 : option string
  ; er_rego_policy : option string
  ; er_jsonlogic_ast : option (list (string * json))
  ; er_opa_package_name : option string
  ; er_is_active : bool
  ; er_hitl_status : string
  ; er_clause_id : option Z
  ; er_clause_sha256 : option string
  ; er_clause_number : option string
  ; er_section_reference : option string }.

Record EntityClauseSnapshot := ClauseSnap
  { ec_clause_number : option string
  ; ec_text : string
  ; ec_sha256 : string
  ; ec_section_path : list string
  ; ec_circular_number : option string }.

Record EntityHITLReviewSnapshot := ReviewSnap
  { eh_review_id : string
  ; eh_reason_code : string
  ; eh_severity : string
  ; eh_description : string
  ; eh_source_excerpt : option string
  ; eh_status : string
  ; eh_clause_id : option Z
  ; eh_compiled_rule_id : option Z
  ; eh_flagged_at : option datetime }.

Record EntityHistoricalViolationsSummary := Violations
  { hv_total_evaluations : Z
  ; hv_total_fails : Z
  ; hv_total_hitl_reviews : Z
  ; hv_failed_rule_ids : list string
  ; hv_top_violation_metrics : list (string * Z)
  ; hv_has_transaction_level_data : bool }.

Record EntityGraphObligationSnapshot := GraphSnap
  { eg_obligation_id : string
  ; eg_metric : string
  ; eg_operator : string
  ; eg_value : spec_float
  ; eg_unit : string
  ; eg_domain : option string }.

Record EntityComplianceSnapshot := Snapshot
  { es_entity_id : string
  ; es_display_name : string
  ; es_tenant_type : string
  ; es_is_active : bool
  ; es_snapshot_hash : string
  ; es_rules : list EntityRuleSnapshot
  ; es_risk_overlay : list (string * json)
  ; es_clauses : list EntityClauseSnapshot
  ; es_unresolved_hitl : list EntityHITLReviewSnapshot
  ; es_historical_violations_summary : EntityHistoricalViolationsSummary
  ; es_graph_obligations : list EntityGraphObligationSnapshot }.

Record MNAComparisonRequest := MRequest
  { mr_entity_a_id : string
  ; mr_entity_b_id : string
  ; mr_comparison_scope : list string
  ; mr_run_in_background : bool
  ; mr_advisory_mode : bool }.

Record MNADueDiligenceReport := MReport
  { mo_job_id : string
  ; mo_entity_a_id : string
  ; mo_entity_b_id : string
  ; mo_initiator_subject : string
  ; mo_entity_a_snapshot_hash : string
  ; mo_entity_b_snapshot_hash : string
  ; mo_findings : list MNAFinding
  ; mo_summary_counts : list (string * Z)
  ; mo_overall_risk_score : spec_float
  ; mo_executive_summary : string }.

(** ** [prompts.py] *)
Definition build_semantic_comparison_prompt (item_title entity_a_text entity_b_text context_notes : string) : string :=
  let nl := String newline "" in
  join nl
    ["Compare the following compliance policies/clauses from Entity A and Entity B:"; "";
     "Subject: " +:+ item_title; "";
     "[Entity A Policy / Clause]:"; (if String.eqb entity_a_text "" then "[ABSENT / NONE]" else entity_a_text); "";
     "[Entity B Policy / Clause]:"; (if String.eqb entity_b_text "" then "[ABSENT / NONE]" else entity_b_text); "";
     "Additional Context:"; (if String.eqb context_notes "" then "None provided" else context_notes); "";
     "Analyze the comparison and return a JSON object with the following fields:";
     "{";
     "  " +:+ dq "difference_type" +:+ ": "
       +:+ join " | " (map (λ t, dq (difference_value t))
             [EXACT_DIFFERENCE; SEMANTIC_DIFFERENCE; POTENTIAL_CONFLICT; UNRESOLVED_AMBIGUITY; MISSING_POLICY]) +:+ ",";
     "  " +:+ dq "severity" +:+ ": "
       +:+ join " | " (map (λ v, dq (severity_value v)) [INFO; LOW; MEDIUM; HIGH; CRITICAL]) +:+ ",";
     "  " +:+ dq "is_equivalent" +:+ ": true | false,";
     "  " +:+ dq "confidence" +:+ ": <float between 0.0 and 1.0>,";
     "  " +:+ dq "evidence_quote" +:+ ": "
       +:+ dq "<verbatim quote from Entity A or Entity B providing the primary proof>" +:+ ",";
     "  " +:+ dq "reasoning" +:+ ": " +:+ dq "<concise explanation of the difference and legal/operational risk>" +:+ ",";
     "  " +:+ dq "recommendation" +:+ ": " +:+ dq "<advisory recommendation for human compliance officer>";
     "}"; ""].

(** ** [comparison_engine.py] *)
Inductive mna_error :=
| OverflowError                   (* int too large to convert to float *)
| TypeError                       (* a digest that is None is sliced *)
| ValidationError                 (* a recommendation that is not text *)
| MissingEntity (entity : string) (* ValueError: entity not found in registry *)
| BadAst.                         (* ValidationError: an AST that is not an object *)

(** [float(v)] when [isinstance(v, (int, float))] *)
Definition numeric (j : json) : res mna_error (option spec_float) :=
  match j with
  | JBool b => Ok (Some (float_of_Z (if b then 1 else 0)))
  | JInt z => match float_of_Z z with S754_infinity _ => Raise OverflowError | f => Ok (Some f) end
  | JFloat f => Ok (Some f)
  | _ => Ok None
  end.

Fixpoint ast_threshold (ops : list string) (ast : list (string * json)) : res mna_error (option string * option spec_float) :=
  match ops with
  | [] => Ok (None, None)
  | op :: ops' =>
      match obj_get op ast with
      | Some (JList (left_ :: right_ :: _)) =>
          let* r := numeric right_ in
          match r with
          | Some v => Ok (Some op, Some v)
          | None => let* l := numeric left_ in Ok (Some op, l)
          end
      | _ => ast_threshold ops' ast
      end
  end.
Definition _extract_ast_thresholds (ast : option (list (string * json))) : res mna_error (option string * option spec_float) :=
  match ast with
  | None => Ok (None, None)
  | Some ast => ast_threshold [">="; ">"; "<="; "<"; "=="; "!="] ast
  end.

Definition captured (k : string) (g : groups) : string := default "" (obj_get k g).
Definition rego_comparison : list part :=
  default [Plain (RChr (λ _, false))]
    (re_parts false "(?P<1>>=|<=|>|<|==|!=)\s*(?P<2>[0-9]+(?:\.[0-9]+)?)").
Definition _extract_rego_thresholds (rego : option string) : option string * option spec_float :=
  if truthy rego then
    match search_groups rego_comparison (default "" rego) with
    | Some (_, g, _) => (Some (captured "1" g), Some (float_of_numeral (captured "2" g)))
    | None => (None, None)
    end
  else (None, None).

(** The operator and the threshold of a rule, from the AST or else the Rego. *)
Definition thresholds (r : EntityRuleSnapshot) : res mna_error (option string * option spec_float) :=
  let* '(op, val) := _extract_ast_thresholds (er_jsonlogic_ast r) in
  match op with
  | Some _ => Ok (op, val)
  | None => Ok (_extract_rego_thresholds (er_rego_policy r))
  end.

(** The model's reply: [json.loads] of its content, or the text of whatever
    was raised on the way. *)
Inductive llm_reply := LlmRaised (text : string) | LlmData (data : json).

Record advisory := Advisory
  { ad_diff_type : MNADifferenceType
  ; ad_severity : MNAFindingSeverity
  ; ad_evidence_quote : string
  ; ad_reasoning : string
  ; ad_recommendation : json
  ; ad_is_equivalent : bool }.

Definition python_type (j : json) : string :=
  match j with
  | JNull => "NoneType" | JBool _ => "bool" | JInt _ => "int" | JFloat _ => "float" | JStr _ => "str"
  | JList _ => "list" | JObj _ => "dict"
  end.

Definition advisory_failed (exc : string) : advisory :=
  Advisory UNRESOLVED_AMBIGUITY MEDIUM ""
    ("Advisory semantic evaluation encountered error (" +:+ exc +:+ "); human compliance review required.")
    (JStr "Manually inspect policy wording differences across both entities.") false.

Definition difference_of (j : json) : option MNADifferenceType :=
  List.find (λ t, is_text (difference_value t) j)
    [EXACT_DIFFERENCE; SEMANTIC_DIFFERENCE; POTENTIAL_CONFLICT; UNRESOLVED_AMBIGUITY; MISSING_POLICY].
Definition severity_of (j : json) : option MNAFindingSeverity :=
  List.find (λ v, is_text (severity_value v) j) [INFO; LOW; MEDIUM; HIGH; CRITICAL].

Definition read_advisory (data : json) : advisory :=
  match data with
  | JObj d =>
      let get k dflt := default dflt (obj_get k d) in
      let diff_type := default UNRESOLVED_AMBIGUITY (difference_of (get "difference_type" (JStr "unresolved_ambiguity"))) in
      let severity := default MEDIUM (severity_of (get "severity" (JStr "MEDIUM"))) in
      let evidence_quote := strip (str_json (get "evidence_quote" (JStr ""))) in
      let reasoning := strip (str_json (get "reasoning" (JStr ""))) in
      let recommendation := get "recommendation" JNull in
      let is_equivalent := py_truthy (get "is_equivalent" (JBool false)) in
      if is_equivalent && (String.eqb evidence_quote "" || (py_len evidence_quote <? 10)) then
        Advisory UNRESOLVED_AMBIGUITY MEDIUM evidence_quote
          ("[SAFETY OVERRULE] LLM claimed equivalence without sufficient quoted evidence. Original reasoning: " +:+ reasoning)
          recommendation false
      else Advisory diff_type severity evidence_quote reasoning recommendation is_equivalent
  | _ => advisory_failed ("'" +:+ python_type data +:+ "' object has no attribute 'get'")
  end.

Section engine.
Context (llm : string → llm_reply) (llm_enabled : bool).

Definition call_advisory_llm_comparison (title text_a text_b context : string) : advisory :=
  if negb llm_enabled then
    Advisory UNRESOLVED_AMBIGUITY MEDIUM "" "LLM advisory evaluation disabled by configuration; manual review required."
      (JStr "Conduct human compliance review of differing qualitative policies.") false
  else
    match llm (build_semantic_comparison_prompt title text_a text_b context) with
    | LlmRaised exc => advisory_failed exc
    | LlmData data => read_advisory data
    end.

Definition opt_text (o : option string) : string := default "None" o.
Definition rule_ref (r : EntityRuleSnapshot) : string := "rule:" +:+ er_rule_id r +:+ ":v" +:+ str_of_Z (er_rule_version r).

(** The provenance of a finding on a rule that both entities have. *)
Definition both_rules (a b : EntityRuleSnapshot) (notes : string) : MNAFindingProvenance :=
  MProvenance (Some (rule_ref a)) (Some (rule_ref b)) (er_policy_sha256 a) (er_policy_sha256 b) (er_section_reference a) notes.

Definition rule_value (r : EntityRuleSnapshot) : json :=
  JObj [("is_active", JBool (er_is_active r)); ("version", JInt (er_rule_version r))].

Definition missing_in_b (rule_id : string) (a : EntityRuleSnapshot) : MNAFinding :=
  MFinding MISSING_POLICY (if er_is_active a then HIGH else MEDIUM) ("Policy Missing in Entity B: " +:+ rule_id)
    ("Entity A has an active compiled rule '" +:+ rule_id +:+ "' (version " +:+ str_of_Z (er_rule_version a)
     +:+ ") which is completely absent from Entity B's compliance configuration.")
    false
    (MProvenance (Some (rule_ref a)) None (er_policy_sha256 a) None (er_section_reference a)
       ("Entity A compiled policy hash: " +:+ opt_text (er_policy_sha256 a) +:+ "; Entity B has no rule registered."))
    (rule_value a) JNull
    (Some "Evaluate whether Entity B requires adoption of this compliance rule prior to consolidation.").

Definition missing_in_a (rule_id : string) (b : EntityRuleSnapshot) : MNAFinding :=
  MFinding MISSING_POLICY (if er_is_active b then HIGH else MEDIUM) ("Policy Missing in Entity A: " +:+ rule_id)
    ("Entity B enforces compliance rule '" +:+ rule_id +:+ "' (version " +:+ str_of_Z (er_rule_version b)
     +:+ ") which does not exist in Entity A's posture.")
    false
    (MProvenance None (Some (rule_ref b)) None (er_policy_sha256 b) (er_section_reference b)
       ("Entity B compiled policy hash: " +:+ opt_text (er_policy_sha256 b) +:+ "; Entity A has no rule registered."))
    JNull (rule_value b)
    (Some "Assess whether Entity A should implement this target policy or if it is redundant.").

Definition condition (op : option string) (val : spec_float) : string := opt_text op +:+ " " +:+ float_repr val.

Definition operator_conflict (rule_id : string) (a b : EntityRuleSnapshot) (op_a : option string) (val_a : spec_float)
    (op_b : option string) (val_b : spec_float) : MNAFinding :=
  MFinding POTENTIAL_CONFLICT CRITICAL ("Contradictory Operator on Rule: " +:+ rule_id)
    ("Entity A enforces '" +:+ condition op_a val_a +:+ "' while Entity B enforces opposing condition '"
     +:+ condition op_b val_b +:+ "' on rule " +:+ rule_id +:+ ".")
    false
    (both_rules a b ("Operator conflict: Entity A(" +:+ opt_text op_a +:+ ") vs Entity B(" +:+ opt_text op_b +:+ ")"))
    (JStr (condition op_a val_a)) (JStr (condition op_b val_b))
    (Some "Resolve contradictory rule logic before consolidating execution engines.").

(** [(delta / val_a * 100.0) if val_a != 0 else None] *)
Definition delta_percent (delta val_a : spec_float) : option spec_float :=
  if flt_eqb val_a (float_of_Z 0) then None else Some (float_mul (float_div delta val_a) (float_of_Z 100)).

Definition threshold_difference (rule_id : string) (a b : EntityRuleSnapshot) (op_a : option string) (val_a : spec_float)
    (op_b : option string) (val_b : spec_float) : MNAFinding :=
  let delta := SFabs (float_sub val_a val_b) in
  let delta_pct := delta_percent delta val_a in
  let large := match delta_pct with
               | Some d => negb (flt_eqb d (float_of_Z 0)) && flt_ltb (float_of_Z 15) d
               | None => false
               end in
  MFinding SEMANTIC_DIFFERENCE (if large then HIGH else MEDIUM) ("Threshold Discrepancy on Rule: " +:+ rule_id)
    ("Rule " +:+ rule_id +:+ " has differing thresholds: Entity A requires " +:+ condition op_a val_a
     +:+ ", whereas Entity B requires " +:+ condition op_b val_b +:+ " (delta: " +:+ fmt_fixed 2 delta +:+ ").")
    false
    (both_rules a b ("Threshold delta: A=" +:+ float_repr val_a +:+ ", B=" +:+ float_repr val_b +:+ ", delta_pct="
                     +:+ match delta_pct with Some d => float_repr d | None => "None" end))
    (JFloat val_a) (JFloat val_b)
    (Some "Harmonize numerical compliance threshold to the more restrictive standard.").

(** The f-string slices both digests. *)
Definition same_threshold (rule_id : string) (a b : EntityRuleSnapshot) : res mna_error MNAFinding :=
  match er_policy_sha256 a, er_policy_sha256 b with
  | Some ha, Some hb =>
      Ok (MFinding EXACT_DIFFERENCE LOW ("Policy Code / Hash Variation: " +:+ rule_id)
            ("Rule " +:+ rule_id +:+ " shares identical thresholds but differing AST structure or policy hashes.")
            false
            (both_rules a b ("Hash mismatch: A=" +:+ utake 12 ha +:+ "... vs B=" +:+ utake 12 hb +:+ "..."))
            (JStr ha) (JStr hb)
            (Some "Recompile rule on standard compiler version to align ASTs."))
  | _, _ => Raise TypeError
  end.

Definition hash_variation (rule_id : string) (a b : EntityRuleSnapshot) : MNAFinding :=
  MFinding EXACT_DIFFERENCE LOW ("Policy Code / Hash Variation: " +:+ rule_id)
    ("Rule " +:+ rule_id +:+ " has differing policy hashes without detectable numeric divergence.")
    false (both_rules a b "Deterministic hash mismatch.")
    (opt_str (er_policy_sha256 a)) (opt_str (er_policy_sha256 b)) None.

(** [str(rule.jsonlogic_ast)] *)
Definition ast_text (ast : option (list (string * json))) : string := match ast with Some l => repr_json (JObj l) | None => "None" end.

Definition qualitative (rule_id : string) (a b : EntityRuleSnapshot) : res mna_error (list MNAFinding) :=
  let v := call_advisory_llm_comparison ("Rule Logic: " +:+ rule_id)
             (str_or (er_rego_policy a) (ast_text (er_jsonlogic_ast a)))
             (str_or (er_rego_policy b) (ast_text (er_jsonlogic_ast b)))
             ("Clause reference: " +:+ opt_text (er_section_reference a)) in
  if ad_is_equivalent v then Ok []
  else
    let notes := if String.eqb (ad_evidence_quote v) "" then "Advisory LLM evaluation: " +:+ utake 200 (ad_reasoning v)
                 else ad_evidence_quote v in
    let found rec :=
      Ok [MFinding (ad_diff_type v) (ad_severity v) ("Qualitative Policy Difference: " +:+ rule_id) (ad_reasoning v) true
            (both_rules a b notes) (opt_str (er_policy_sha256 a)) (opt_str (er_policy_sha256 b)) (Some rec)] in
    if py_truthy (ad_recommendation v)
    then match ad_recommendation v with JStr rec => found rec | _ => Raise ValidationError end
    else found "Review qualitative policy variation with legal counsel.".

(** Both digests are there and equal. *)
Definition same_policy (a b : EntityRuleSnapshot) : bool :=
  truthy (er_policy_sha256 a) && truthy (er_policy_sha256 b) && bool_decide (er_policy_sha256 a = er_policy_sha256 b).

Definition compare_rules (advisory_mode : bool) (rule_id : string) (a b : EntityRuleSnapshot) : res mna_error (list MNAFinding) :=
  if same_policy a b then Ok []
  else
    let* '(op_a, val_a) := thresholds a in
    let* '(op_b, val_b) := thresholds b in
    match val_a, val_b with
    | Some va, Some vb =>
        if negb (bool_decide (op_a = op_b)) then Ok [operator_conflict rule_id a b op_a va op_b vb]
        else if flt_ltb (decimal 1 4) (SFabs (float_sub va vb)) then Ok [threshold_difference rule_id a b op_a va op_b vb]
        else let* f := same_threshold rule_id a b in Ok [f]
    | _, _ => if advisory_mode then qualitative rule_id a b else Ok [hash_variation rule_id a b]
    end.

(** [{r.rule_id: r for r in rules}.get(rule_id)]: the last one wins. *)
Definition rule_by_id (rules : list EntityRuleSnapshot) (rule_id : string) : option EntityRuleSnapshot :=
  List.find (λ r, String.eqb (er_rule_id r) rule_id) (rev rules).

Definition compare_rule (advisory_mode : bool) (rules_a rules_b : list EntityRuleSnapshot) (rule_id : string)
  : res mna_error (list MNAFinding) :=
  match rule_by_id rules_a rule_id, rule_by_id rules_b rule_id with
  | Some a, None => Ok [missing_in_b rule_id a]
  | None, Some b => Ok [missing_in_a rule_id b]
  | Some a, Some b => compare_rules advisory_mode rule_id a b
  | None, None => Ok []
  end.

(** [sorted(set(a) | set(b))] *)
Definition sorted_union (a b : list string) : list string := sort_by String.leb (remove_dups (a ++ b)).

Definition pass_rules (advisory_mode : bool) (a b : EntityComplianceSnapshot) : res mna_error (list MNAFinding) :=
  let* l := res_mapM (compare_rule advisory_mode (es_rules a) (es_rules b))
              (sorted_union (map er_rule_id (es_rules a)) (map er_rule_id (es_rules b))) in
  Ok (concat l).

(** *** Risk overlays *)
Definition overlay_get (key : string) (l : list (string * json)) : json := default JNull (obj_get key l).
Definition is_none (j : json) : bool := match j with JNull => true | _ => false end.

Definition compare_overlay (overlay_a overlay_b : list (string * json)) (key : string) : list MNAFinding :=
  let val_a := overlay_get key overlay_a in
  let val_b := overlay_get key overlay_b in
  let ref := Some ("risk_overlay:" +:+ key) in
  if negb (is_none val_a) && is_none val_b then
    [MFinding MISSING_POLICY MEDIUM ("Risk Overlay Key Missing in Entity B: " +:+ key)
       ("Entity A specifies custom risk overlay '" +:+ key +:+ " = " +:+ str_json val_a
        +:+ "', but Entity B has no override configured.") false
       (MProvenance ref None None None (Some key) ("Entity A risk_overlay[" +:+ key +:+ "] = " +:+ str_json val_a))
       val_a JNull (Some "Confirm whether Entity B should adopt Entity A's risk overlay parameter.")]
  else if negb (is_none val_b) && is_none val_a then
    [MFinding MISSING_POLICY MEDIUM ("Risk Overlay Key Missing in Entity A: " +:+ key)
       ("Entity B specifies risk overlay '" +:+ key +:+ " = " +:+ str_json val_b +:+ "', which is absent from Entity A.") false
       (MProvenance None ref None None (Some key) ("Entity B risk_overlay[" +:+ key +:+ "] = " +:+ str_json val_b))
       JNull val_b (Some "Evaluate if Entity B's risk parameter represents a required prudential safeguard.")]
  else if negb (py_eqb val_a val_b) then
    [MFinding SEMANTIC_DIFFERENCE
       (if contains "margin" (lower key) || contains "exposure" (lower key) then HIGH else MEDIUM)
       ("Risk Overlay Discrepancy: " +:+ key)
       ("Entity A sets '" +:+ key +:+ "' to " +:+ str_json val_a +:+ ", whereas Entity B sets it to " +:+ str_json val_b +:+ ".")
       false
       (MProvenance ref ref None None (Some key)
          ("Risk overlay comparison: Entity A(" +:+ str_json val_a +:+ ") vs Entity B(" +:+ str_json val_b +:+ ")"))
       val_a val_b (Some "Align risk parameters to prevent margin or exposure arbitrage upon merger.")]
  else [].

Definition pass_overlays (a b : EntityComplianceSnapshot) : list MNAFinding :=
  List.flat_map (compare_overlay (es_risk_overlay a) (es_risk_overlay b))
    (sorted_union (map fst (es_risk_overlay a)) (map fst (es_risk_overlay b))).

(** *** Unresolved reviews *)
Definition review_value (h : EntityHITLReviewSnapshot) : json :=
  JObj [("review_id", JStr (eh_review_id h)); ("status", JStr (eh_status h))].
Definition review_severity (h : EntityHITLReviewSnapshot) : MNAFindingSeverity :=
  if String.eqb (eh_severity h) "blocking" then HIGH else MEDIUM.

Definition review_in_a (h : EntityHITLReviewSnapshot) : MNAFinding :=
  MFinding UNRESOLVED_AMBIGUITY (review_severity h) ("Unresolved HITL Review in Entity A: " +:+ eh_reason_code h)
    ("Entity A has an open/unresolved HITL review (" +:+ eh_review_id h +:+ ") with severity '" +:+ eh_severity h +:+ "': "
     +:+ eh_description h) false
    (MProvenance (Some ("hitl:" +:+ eh_review_id h)) None (Some (eh_reason_code h)) None None
       (str_or (eh_source_excerpt h) (eh_description h)))
    (review_value h) JNull
    (Some "Require compliance officer sign-off to resolve pending HITL item prior to merger.").
Definition review_in_b (h : EntityHITLReviewSnapshot) : MNAFinding :=
  MFinding UNRESOLVED_AMBIGUITY (review_severity h) ("Unresolved HITL Review in Entity B: " +:+ eh_reason_code h)
    ("Target Entity B carries an open HITL review (" +:+ eh_review_id h +:+ ") with severity '" +:+ eh_severity h +:+ "': "
     +:+ eh_description h) false
    (MProvenance None (Some ("hitl:" +:+ eh_review_id h)) None (Some (eh_reason_code h)) None
       (str_or (eh_source_excerpt h) (eh_description h)))
    JNull (review_value h)
    (Some "Remediate open compliance flag in target entity before closing transaction.").

Definition pass_reviews (a b : EntityComplianceSnapshot) : list MNAFinding :=
  (map review_in_a (es_unresolved_hitl a) ++ map review_in_b (es_unresolved_hitl b))%list.

(** *** Graph obligations *)

(** The order in which Python iterates over a set of strings. *)
Context (set_order : list string → list string).

Definition obligation_by_metric (l : list EntityGraphObligationSnapshot) (metric : string)
  : option EntityGraphObligationSnapshot := List.find (λ g, String.eqb (eg_metric g) metric) (rev l).

Definition common_metrics (a b : list EntityGraphObligationSnapshot) : list string :=
  set_order (List.filter (λ m, existsb (String.eqb m) (map eg_metric b)) (remove_dups (map eg_metric a))).

Definition compare_obligations (l_a l_b : list EntityGraphObligationSnapshot) (metric : string) : list MNAFinding :=
  match obligation_by_metric l_a metric, obligation_by_metric l_b metric with
  | Some g_a, Some g_b =>
      if String.eqb (eg_operator g_a) (eg_operator g_b) then []
      else
        let show g := eg_operator g +:+ " " +:+ float_repr (eg_value g) in
        [MFinding POTENTIAL_CONFLICT HIGH ("Graph Obligation Conflict on Metric: " +:+ metric)
           ("Entity A graph obligation specifies '" +:+ show g_a +:+ " " +:+ eg_unit g_a
            +:+ "', while Entity B graph obligation specifies '" +:+ show g_b +:+ " " +:+ eg_unit g_b +:+ "'.") false
           (MProvenance (Some ("graph:" +:+ eg_obligation_id g_a)) (Some ("graph:" +:+ eg_obligation_id g_b)) None None
              (Some metric) ("Graph conflict on domain: " +:+ opt_text (opt_or (eg_domain g_a) (eg_domain g_b))))
           (JStr (show g_a)) (JStr (show g_b)) (Some "Harmonize graph-derived regulatory obligations.")]
  | _, _ => []
  end.

Definition pass_graph (a b : EntityComplianceSnapshot) : list MNAFinding :=
  List.flat_map (compare_obligations (es_graph_obligations a) (es_graph_obligations b))
    (common_metrics (es_graph_obligations a) (es_graph_obligations b)).

(** *** Historical violations *)
Definition history_value (v : EntityHistoricalViolationsSummary) : json :=
  JObj [("fails", JInt (hv_total_fails v)); ("hitl", JInt (hv_total_hitl_reviews v))].

Definition pass_violations (a b : EntityComplianceSnapshot) : list MNAFinding :=
  let v_a := es_historical_violations_summary a in
  let v_b := es_historical_violations_summary b in
  if 0 <? hv_total_fails v_b then
    [MFinding POTENTIAL_CONFLICT (if 10 <? hv_total_fails v_b then HIGH else MEDIUM)
       ("Historical Non-Compliance History in Target Entity: " +:+ es_entity_id b)
       ("Target Entity B has logged " +:+ str_of_Z (hv_total_fails v_b) +:+ " historical evaluation failures and "
        +:+ str_of_Z (hv_total_hitl_reviews v_b) +:+ " HITL escalation events in the audit ledger. Frequently failed rules: "
        +:+ join ", " (firstn 5 (hv_failed_rule_ids v_b)) +:+ ".") false
       (MProvenance None (Some ("ledger:broker:" +:+ es_entity_id b)) None None None
          ("Target ledger violations: " +:+ str_of_Z (hv_total_fails v_b) +:+ " fails across "
           +:+ str_of_Z (hv_total_evaluations v_b) +:+ " evaluations."))
       (history_value v_a) (history_value v_b)
       (Some "Review historical failure root causes to identify latent regulatory exposure.")]
  else [].

(** *** Counts, score, report *)
Definition of_type (t : MNADifferenceType) (f : MNAFinding) : bool := bool_decide (mf_difference_type f = t).
Definition of_severity (v : MNAFindingSeverity) (f : MNAFinding) : bool := bool_decide (mf_severity f = v).

Definition summary_counts (findings : list MNAFinding) : list (string * Z) :=
  [("total_findings", Z.of_nat (length findings))]
  ++ map (λ t, (difference_value t, count_if (of_type t) findings))
       [EXACT_DIFFERENCE; SEMANTIC_DIFFERENCE; POTENTIAL_CONFLICT; UNRESOLVED_AMBIGUITY; MISSING_POLICY]
  ++ map (λ v, (severity_value v, count_if (of_severity v) findings)) [CRITICAL; HIGH; MEDIUM; LOW; INFO].

Definition weight (n w : Z) : spec_float := float_mul (float_of_Z n) (float_of_Z w).

(** [min(100.0, round(raw_score, 2))] *)
Definition overall_risk_score (findings : list MNAFinding) : spec_float :=
  let n v := count_if (of_severity v) findings in
  let raw_score :=
    float_add (float_add (float_add (weight (n CRITICAL) 25) (weight (n HIGH) 10)) (weight (n MEDIUM) 4)) (weight (n LOW) 1) in
  let r := round2 raw_score in
  if flt_ltb r (float_of_Z 100) then r else float_of_Z 100.

Definition default_scope : list string := ["rules"; "thresholds"; "risk_overlay"; "hitl"; "violations"; "graph"].

Definition run_due_diligence_comparison (a b : EntityComplianceSnapshot) (job_id initiator : string) (scope : list string)
    (advisory_mode : bool) : res mna_error MNADueDiligenceReport :=
  let effective := match scope with [] => default_scope | _ => scope end in
  let on k := existsb (String.eqb k) effective in
  let* pass1 := (if on "rules" || on "thresholds" then pass_rules advisory_mode a b else Ok []) in
  let findings :=
    (pass1 ++ (if on "risk_overlay" then pass_overlays a b else [])
     ++ (if on "hitl" then pass_reviews a b else [])
     ++ (if on "graph" then pass_graph a b else [])
     ++ (if on "violations" then pass_violations a b else []))%list in
  let count t := str_of_Z (count_if (of_type t) findings) in
  let score := overall_risk_score findings in
  Ok (MReport job_id (es_entity_id a) (es_entity_id b) initiator (es_snapshot_hash a) (es_snapshot_hash b) findings
        (summary_counts findings) score
        ("M&A Due-Diligence comparison between '" +:+ es_display_name a +:+ "' (" +:+ es_entity_id a +:+ ") and '"
         +:+ es_display_name b +:+ "' (" +:+ es_entity_id b +:+ ") identified " +:+ str_of_Z (Z.of_nat (length findings))
         +:+ " total findings resulting in an overall regulatory risk score of " +:+ float_repr score +:+ "/100.0. Found "
         +:+ count POTENTIAL_CONFLICT +:+ " potential conflicts, " +:+ count SEMANTIC_DIFFERENCE
         +:+ " semantic threshold differences, " +:+ count MISSING_POLICY +:+ " missing policies, and "
         +:+ count UNRESOLVED_AMBIGUITY +:+ " unresolved ambiguities.")).
End engine.

(** ** [snapshot.py] *)
Record Tenant := TenantRow
  { tn_tenant_id : string
  ; tn_display_name : string
  ; tn_tenant_type : string
  ; tn_is_active : bool
  ; tn_risk_overlay : list (string * json) }.

(** The tables that a snapshot reads; a review comes with its [flagged_at]; the
    ledger is [None] when its query fails.  Rows that tie in an ORDER BY keep
    the order of insertion. *)
Record mna_tables := MTables
  { mt_tenants : list Tenant
  ; mt_rules : list CompiledRule
  ; mt_clauses : list Clause
  ; mt_circulars : list Circular
  ; mt_reviews : list (HITLReview * datetime)
  ; mt_ledger : option (list LedgerEntry) }.

Definition of_tenant (e : string) (rows : list Tenant) : option Tenant :=
  List.find (λ t, String.eqb (tn_tenant_id t) e) rows.

(** [CompiledRule] left-joined with its [Clause]. *)
Definition clause_by_id (rows : list Clause) (i : Z) : option Clause := List.find (λ c, cl_id c =? i) rows.

Definition rule_leb (x y : CompiledRule) : bool :=
  if String.eqb (ru_rule_id x) (ru_rule_id y) then ru_rule_version x <=? ru_rule_version y
  else String.leb (ru_rule_id x) (ru_rule_id y).

Definition section_reference_of (rule_id : string) (clause : option Clause) : string :=
  match clause with
  | Some c => match cl_section_path c with
              | [] => str_or (cl_clause_number c) rule_id
              | path => join "." path
              end
  | None => rule_id
  end.

Definition rule_snapshot (clauses : list Clause) (r : CompiledRule) : res mna_error EntityRuleSnapshot :=
  let clause := clause_by_id clauses (ru_clause_id r) in
  let* ast := match ru_jsonlogic_ast r with
              | None | Some JNull => Ok None
              | Some (JObj l) => Ok (Some l)
              | Some _ => Raise BadAst
              end in
  Ok (RuleSnap (ru_rule_id r) (ru_rule_version r) (ru_policy_sha256 r) (ru_rego_policy r) ast (ru_opa_package_name r)
        (ru_is_active r) (ru_hitl_status r) (Some (ru_clause_id r)) (cl_sha256 <$> clause)
        (clause ≫= cl_clause_number) (Some (section_reference_of (ru_rule_id r) clause))).

(** NULL sorts last. *)
Definition clause_leb (x y : Clause) : bool :=
  match cl_clause_number x, cl_clause_number y with
  | Some a, Some b => String.leb a b
  | None, Some _ => false
  | _, None => true
  end.

Definition clause_snapshot (circulars : list Circular) (c : Clause) : EntityClauseSnapshot :=
  ClauseSnap (cl_clause_number c) (cl_text c) (cl_sha256 c) (cl_section_path c)
    (ci_circular_number <$> List.find (λ x, ci_id x =? cl_circular_id c) circulars).

Definition unresolved (e : string) (x : HITLReview * datetime) : bool :=
  String.eqb (rv_tenant_id x.1) e && existsb (String.eqb (rv_status x.1)) ["PENDING"; "IN_REVIEW"].

Definition review_snapshot (x : HITLReview * datetime) : EntityHITLReviewSnapshot :=
  let '(h, flagged_at) := x in
  ReviewSnap (rv_review_id h) (rv_reason_code h) (rv_severity h) (rv_description h) (rv_source_excerpt h) (rv_status h)
    (Some (rv_clause_id h)) (rv_compiled_rule_id h) (Some flagged_at).

Definition result_in (values : list string) (r : LedgerEntry) : bool :=
  existsb (String.eqb (evaluation_result (fields r))) values.

Definition violations_summary (e : string) (ledger : option (list LedgerEntry)) : EntityHistoricalViolationsSummary :=
  match ledger with
  | None => Violations 0 0 0 [] [] false
  | Some rows =>
      let own := List.filter (λ r, String.eqb (broker_id (fields r)) e) rows in
      let failed := map (λ r, rule_id (fields r)) (List.filter (result_in ["FAIL"; "HITL_REVIEW"]) own) in
      let grouped := map (λ k, (k, count_if (String.eqb k) failed)) (remove_dups failed) in
      let top := firstn 20 (sort_by (λ x y, y.2 <=? x.2) grouped) in
      Violations (Z.of_nat (length own)) (count_if (result_in ["FAIL"]) own) (count_if (result_in ["HITL_REVIEW"]) own)
        (map fst top) top false
  end.

Definition opt_int (o : option Z) : json := match o with Some z => JInt z | None => JNull end.

Definition rule_json (r : EntityRuleSnapshot) : json :=
  JObj [("rule_id", JStr (er_rule_id r)); ("rule_version", JInt (er_rule_version r));
        ("policy_sha256", opt_str (er_policy_sha256 r)); ("rego_policy", opt_str (er_rego_policy r));
        ("jsonlogic_ast", match er_jsonlogic_ast r with Some l => JObj l | None => JNull end);
        ("opa_package_name", opt_str (er_opa_package_name r)); ("is_active", JBool (er_is_active r));
        ("hitl_status", JStr (er_hitl_status r)); ("clause_id", opt_int (er_clause_id r));
        ("clause_sha256", opt_str (er_clause_sha256 r)); ("clause_number", opt_str (er_clause_number r));
        ("section_reference", opt_str (er_section_reference r))].
Definition clause_json (c : EntityClauseSnapshot) : json :=
  JObj [("clause_number", opt_str (ec_clause_number c)); ("text", JStr (ec_text c)); ("sha256", JStr (ec_sha256 c));
        ("section_path", JList (map JStr (ec_section_path c))); ("circular_number", opt_str (ec_circular_number c))].
Definition review_json (h : EntityHITLReviewSnapshot) : json :=
  JObj [("review_id", JStr (eh_review_id h)); ("reason_code", JStr (eh_reason_code h)); ("severity", JStr (eh_severity h));
        ("description", JStr (eh_description h)); ("source_excerpt", opt_str (eh_source_excerpt h));
        ("status", JStr (eh_status h)); ("clause_id", opt_int (eh_clause_id h));
        ("compiled_rule_id", opt_int (eh_compiled_rule_id h));
        ("flagged_at", match eh_flagged_at h with Some d => JStr (json_datetime d) | None => JNull end)].
Definition violations_json (v : EntityHistoricalViolationsSummary) : json :=
  JObj [("total_evaluations", JInt (hv_total_evaluations v)); ("total_fails", JInt (hv_total_fails v));
        ("total_hitl_reviews", JInt (hv_total_hitl_reviews v)); ("failed_rule_ids", JList (map JStr (hv_failed_rule_ids v)));
        ("top_violation_metrics", JObj (map (λ '(k, n), (k, JInt n)) (hv_top_violation_metrics v)));
        ("has_transaction_level_data", JBool (hv_has_transaction_level_data v))].
Definition obligation_json (g : EntityGraphObligationSnapshot) : json :=
  JObj [("obligation_id", JStr (eg_obligation_id g)); ("metric", JStr (eg_metric g)); ("operator", JStr (eg_operator g));
        ("value", JFloat (eg_value g)); ("unit", JStr (eg_unit g)); ("domain", opt_str (eg_domain g))].

(** [json.dumps(payload, sort_keys=True, default=str)], hashed *)
Definition compute_snapshot_hash (payload : json) : string := sha256_hex (print_spaced (canon payload)).

(** [graph] is what was appended from the graph database: nothing when no
    session is passed or its query fails at once. *)
Definition build_entity_snapshot (db : mna_tables) (e : string) (graph : list EntityGraphObligationSnapshot)
  : res mna_error EntityComplianceSnapshot :=
  match of_tenant e (mt_tenants db) with
  | None => Raise (MissingEntity e)
  | Some t =>
      let rows := sort_by rule_leb (List.filter (λ r, String.eqb (ru_tenant_id r) e) (mt_rules db)) in
      let* rules := res_mapM (rule_snapshot (mt_clauses db)) rows in
      let seen := omap (λ r, cl_id <$> clause_by_id (mt_clauses db) (ru_clause_id r)) rows in
      let clauses :=
        map (clause_snapshot (mt_circulars db))
          (sort_by clause_leb
             (List.filter (λ c, String.eqb (cl_tenant_id c) e || existsb (Z.eqb (cl_id c)) seen) (mt_clauses db))) in
      let reviews :=
        map review_snapshot
          (sort_by (λ x y, utc_us y.2 <=? utc_us x.2) (List.filter (unresolved e) (mt_reviews db))) in
      let violations := violations_summary e (mt_ledger db) in
      let payload :=
        JObj [("entity_id", JStr e); ("tenant_type", JStr (tn_tenant_type t)); ("risk_overlay", JObj (tn_risk_overlay t));
              ("rules", JList (map rule_json rules)); ("clauses", JList (map clause_json clauses));
              ("unresolved_hitl", JList (map review_json reviews)); ("violations", violations_json violations);
              ("graph", JList (map obligation_json graph))] in
      Ok (Snapshot e (tn_display_name t) (tn_tenant_type t) (tn_is_active t) (compute_snapshot_hash payload) rules
            (tn_risk_overlay t) clauses reviews violations graph)
  end.

(** ** [audit.py] *)
Definition mna_event (r : MNADueDiligenceReport) (now : datetime) : ComplianceEvaluationEvent :=
  Event (mo_entity_a_id r) ("mna_job_" +:+ mo_job_id r) now "MNA_DUE_DILIGENCE"
    (utake 32 (mo_entity_a_snapshot_hash r) +:+ ":" +:+ utake 32 (mo_entity_b_snapshot_hash r))
    (mo_entity_a_id r +:+ "_VS_" +:+ mo_entity_b_id r) "MNA_DUE_DILIGENCE_AUDIT" PASS None
    (JObj [("job_id", JStr (mo_job_id r)); ("initiator_subject", JStr (mo_initiator_subject r));
           ("entity_a_id", JStr (mo_entity_a_id r)); ("entity_b_id", JStr (mo_entity_b_id r));
           ("entity_a_snapshot_hash", JStr (mo_entity_a_snapshot_hash r));
           ("entity_b_snapshot_hash", JStr (mo_entity_b_snapshot_hash r));
           ("findings_count", JInt (Z.of_nat (length (mo_findings r))));
           ("overall_risk_score", JFloat (mo_overall_risk_score r));
           ("summary_counts", JObj (map (λ '(k, n), (k, JInt n)) (mo_summary_counts r)))]).

Definition log_mna_due_diligence_audit_event (t : ledger_table) (r : MNADueDiligenceReport) (now : datetime)
  : res ledger_error ledger_table :=
  let* '(t', _) := append_entry t (mna_event r now) now in Ok t'.

(** ** [auth.py] *)
Definition authorized_set (explicit : list string) (p : Principal) : list string :=
  match pr_tenant_id p with
  | Some t => if String.eqb t "" then explicit else t :: explicit
  | None => explicit
  end.

Definition verify_dual_entity_authorization (p : Principal) (entity_a_id entity_b_id : string) (tenants : list Tenant)
    (explicit_authorized_entities : list string) : res http_error () :=
  if String.eqb entity_a_id "" || String.eqb entity_b_id ""
  then Raise (HTTPException 400 "Both entity_a_id and entity_b_id must be specified.")
  else
    let* _ :=
      (if is_admin p || is_officer p then Ok ()
       else if in_roles BROKER_API_CLIENT (pr_roles p) then
         let allowed := authorized_set explicit_authorized_entities p in
         if existsb (String.eqb entity_a_id) allowed && existsb (String.eqb entity_b_id) allowed then Ok ()
         else Raise (HTTPException 403 "Cross-entity authorization failed.")
       else Raise (HTTPException 403 "Principal lacks required role for M&A due-diligence comparison.")) in
    let found := List.filter (λ t, existsb (String.eqb (tn_tenant_id t)) [entity_a_id; entity_b_id]) tenants in
    match of_tenant entity_a_id found, of_tenant entity_b_id found with
    | None, _ => Raise (HTTPException 404 ("Regulated entity '" +:+ entity_a_id +:+ "' not found in registry."))
    | _, None => Raise (HTTPException 404 ("Regulated entity '" +:+ entity_b_id +:+ "' not found in registry."))
    | Some _, Some _ =>
        match List.find (λ t, negb (tn_is_active t)) found with
        | Some t => Raise (HTTPException 400 ("Regulated entity '" +:+ tn_tenant_id t
                                              +:+ "' is deactivated; cannot perform due-diligence."))
        | None => Ok ()
        end
    end.

(** ** [tasks.py] *)
Inductive MNAJobStatus :=
| QUEUED | SNAPSHOT_ACQUISITION | DETERMINISTIC_DIFFING | SEMANTIC_ANALYSIS | COMPLETED | FAILED | CANCELLED.
#[export] Instance MNAJobStatus_eq_dec : EqDecision MNAJobStatus.
Proof. solve_decision. Defined.

(** The time stamps [started_at] and [updated_at] are left out. *)
Record MNAJobProgress := Job
  { mj_job_id : string
  ; mj_entity_a_id : string
  ; mj_entity_b_id : string
  ; mj_initiator_subject : string
  ; mj_status : MNAJobStatus
  ; mj_progress_pct : Z
  ; mj_current_step : string
  ; mj_completed : bool                      (* completed_at is set *)
  ; mj_error_message : option string
  ; mj_report : option MNADueDiligenceReport
  ; mj_cancelled : bool }.

Definition new_job (job_id entity_a entity_b initiator step : string) : MNAJobProgress :=
  Job job_id entity_a entity_b initiator QUEUED 0 step false None None false.

(** Assignments to the attributes of a job. *)
Definition set_progress (j : MNAJobProgress) (st : MNAJobStatus) (pct : Z) (step : string) : MNAJobProgress :=
  Job (mj_job_id j) (mj_entity_a_id j) (mj_entity_b_id j) (mj_initiator_subject j) st pct step (mj_completed j)
    (mj_error_message j) (mj_report j) (mj_cancelled j).
Definition set_cancelled (j : MNAJobProgress) : MNAJobProgress :=
  Job (mj_job_id j) (mj_entity_a_id j) (mj_entity_b_id j) (mj_initiator_subject j) CANCELLED (mj_progress_pct j)
    "Job cancelled by user" true (mj_error_message j) (mj_report j) true.
Definition set_ended (j : MNAJobProgress) (st : MNAJobStatus) (step : string) (err : option string) : MNAJobProgress :=
  Job (mj_job_id j) (mj_entity_a_id j) (mj_entity_b_id j) (mj_initiator_subject j) st (mj_progress_pct j) step true err
    (mj_report j) (mj_cancelled j).
Definition set_report (j : MNAJobProgress) (r : MNADueDiligenceReport) : MNAJobProgress :=
  Job (mj_job_id j) (mj_entity_a_id j) (mj_entity_b_id j) (mj_initiator_subject j) COMPLETED 100
    "Due-diligence report ready for review" true (mj_error_message j) (Some r) (mj_cancelled j).

(** Job objects of the process, the dict [_IN_MEMORY_JOBS] of references to
    them, and the copies in Redis ([None]: Redis was not reachable when it was
    first tried).  A Redis that is reachable answers. *)
Record job_store := Jobs
  { js_heap : gmap positive MNAJobProgress
  ; js_memory : gmap string positive
  ; js_redis : option (gmap string MNAJobProgress) }.

Definition deref (s : job_store) (l : positive) : MNAJobProgress :=
  default (new_job "" "" "" "" "") (js_heap s !! l).
Definition assign (s : job_store) (l : positive) (f : MNAJobProgress → MNAJobProgress) : job_store :=
  Jobs (<[l := f (deref s l)]> (js_heap s)) (js_memory s) (js_redis s).

Definition alloc_job (s : job_store) (j : MNAJobProgress) : job_store * positive :=
  let l := fresh (dom (js_heap s)) in
  (Jobs (<[l := j]> (js_heap s)) (js_memory s) (js_redis s), l).

Definition save_job (s : job_store) (l : positive) : job_store :=
  let j := deref s l in
  Jobs (js_heap s) (<[mj_job_id j := l]> (js_memory s)) ((λ m, <[mj_job_id j := j]> m) <$> js_redis s).

(** [get_job]: a new object from Redis, or the one of the dict. *)
Definition get_job (s : job_store) (job_id : string) : job_store * option positive :=
  match js_redis s ≫= lookup job_id with
  | Some j => let '(s', l) := alloc_job s j in (s', Some l)
  | None => (s, js_memory s !! job_id)
  end.

Definition terminal (st : MNAJobStatus) : bool :=
  match st with COMPLETED | FAILED | CANCELLED => true | _ => false end.

Definition cancel_job (s : job_store) (job_id : string) : job_store * bool :=
  let '(s1, o) := get_job s job_id in
  match o with
  | None => (s1, false)
  | Some l =>
      if terminal (mj_status (deref s1 l)) then (s1, false)
      else (save_job (assign s1 l set_cancelled) l, true)
  end.

(** *** The pipeline, cut where it awaits *)
Inductive pipeline_point := AwaitSnapshotA | AwaitSnapshotB | AwaitComparison | AwaitLedger | AwaitCommit | Ended.
#[export] Instance pipeline_point_eq_dec : EqDecision pipeline_point.
Proof. solve_decision. Defined.

Inductive job_exception := CancelledError | TimeoutError (text : string) | OtherError (text : string).

(** [_check_cancellation_and_timeout] *)
Definition check_cancellation (s : job_store) (job_id : string) (late : bool) : job_store * option job_exception :=
  let '(s1, o) := get_job s job_id in
  (s1, if match o with Some l => mj_cancelled (deref s1 l) | None => false end then Some CancelledError
       else if late then Some (TimeoutError ("Job " +:+ job_id +:+ " exceeded timeout limit")) else None).

(** The exception handlers. *)
Definition job_failed (s : job_store) (l : positive) (e : job_exception) : job_store * pipeline_point :=
  let end_with j :=
    match e with
    | CancelledError => set_ended j CANCELLED "Job cancelled" (mj_error_message j)
    | TimeoutError text | OtherError text => set_ended j FAILED (mj_current_step j) (Some text)
    end in
  (save_job (assign s l end_with) l, Ended).

(** A check, and what follows when it passes. *)
Definition checked (s : job_store) (l : positive) (job_id : string) (late : bool)
    (k : job_store → job_store * pipeline_point) : job_store * pipeline_point :=
  match check_cancellation s job_id late with
  | (s1, Some e) => job_failed s1 l e
  | (s1, None) => k s1
  end.

Definition report_progress (s : job_store) (l : positive) (st : MNAJobStatus) (pct : Z) (step : string) : job_store :=
  save_job (assign s l (λ j, set_progress j st pct step)) l.

(** What an await gives: the value, or the text of the exception. *)
Record awaited := Awaited { aw_error : option string; aw_report : MNADueDiligenceReport; aw_late : bool; aw_later : bool }.

(** From the start of the pipeline to its first await. *)
Definition pipeline_start (s : job_store) (job_id entity_a entity_b initiator : string) (late : bool)
  : job_store * positive * pipeline_point :=
  let '(s1, o) := get_job s job_id in
  let '(s2, l) := match o with
                  | Some l => (s1, l)
                  | None => alloc_job s1 (new_job job_id entity_a entity_b initiator "Initialized")
                  end in
  let '(s3, pt) :=
    checked (save_job s2 l) l job_id late (λ s,
      (report_progress s l SNAPSHOT_ACQUISITION 15 "Extracting isolated snapshots for Entity A and Entity B", AwaitSnapshotA)) in
  (s3, l, pt).

(** From one await to the next. *)
Definition pipeline_resume (s : job_store) (l : positive) (job_id : string) (pt : pipeline_point) (x : awaited)
  : job_store * pipeline_point :=
  let keep := mj_status (deref s l) in
  match pt, aw_error x with
  | Ended, _ => (s, Ended)
  | AwaitCommit, _ =>     (* a commit that fails is rolled back and logged *)
      (save_job (assign s l (λ j, set_report j (aw_report x))) l, Ended)
  | _, Some text => job_failed s l (OtherError text)
  | AwaitSnapshotA, None => checked s l job_id (aw_late x) (λ s, (s, AwaitSnapshotB))
  | AwaitSnapshotB, None =>
      let s := report_progress s l keep 35 "Snapshots generated and cryptographically hashed" in
      checked s l job_id (aw_late x) (λ s,
        let s := report_progress s l DETERMINISTIC_DIFFING 50 "Evaluating deterministic rule and threshold differences" in
        checked s l job_id (aw_later x) (λ s,
          (report_progress s l SEMANTIC_ANALYSIS 75 "Conducting advisory semantic and risk overlay comparison",
           AwaitComparison)))
  | AwaitComparison, None =>
      checked s l job_id (aw_late x) (λ s,
        (report_progress s l (mj_status (deref s l)) 90 "Logging comparison audit event to tamper-evident ledger", AwaitLedger))
  | AwaitLedger, None => (s, AwaitCommit)
  end.

(** Other requests run while the pipeline awaits. *)
Record job_run := JRun { jr_store : job_store; jr_loc : positive; jr_point : pipeline_point }.

Inductive job_step (job_id : string) (r : job_run) : job_run → Prop :=
| job_resumes x s' pt' :
    pipeline_resume (jr_store r) (jr_loc r) job_id (jr_point r) x = (s', pt') →
    job_step job_id r (JRun s' (jr_loc r) pt')
| job_cancel s' b :
    cancel_job (jr_store r) job_id = (s', b) →
    job_step job_id r (JRun s' (jr_loc r) (jr_point r))
| job_polled s' o :
    get_job (jr_store r) job_id = (s', o) →
    job_step job_id r (JRun s' (jr_loc r) (jr_point r)).

(** ** [api/mna_routes.py] *)
Definition _ALLOWED : list Role := [COMPLIANCE_OFFICER; SYSTEM_ADMIN; BROKER_API_CLIENT].

(** [initiate_mna_comparison] up to the start of the pipeline. *)
Definition initiate_mna_comparison (enabled : bool) (s : job_store) (tenants : list Tenant) (p : Principal)
    (rq : MNAComparisonRequest) (job_id : string) : job_store * res http_error positive :=
  match (let* p := require_roles _ALLOWED p in
         let* _ := (if enabled then Ok ()
                    else Raise (HTTPException 503 "M&A Compliance Due-Diligence Agent is disabled.")) in
         verify_dual_entity_authorization p (mr_entity_a_id rq) (mr_entity_b_id rq) tenants []) with
  | Raise e => (s, Raise e)
  | Ok _ =>
      let '(s1, l) := alloc_job s (new_job job_id (mr_entity_a_id rq) (mr_entity_b_id rq) (pr_subject p)
                                     "Queued for execution") in
      (save_job s1 l, Ok l)
  end.

Definition get_mna_job (s : job_store) (p : Principal) (job_id : string) : job_store * res http_error MNAJobProgress :=
  match require_roles _ALLOWED p with
  | Raise e => (s, Raise e)
  | Ok _ =>
      match get_job s job_id with
      | (s1, None) => (s1, Raise (HTTPException 404 ("M&A Due-Diligence job '" +:+ job_id +:+ "' not found.")))
      | (s1, Some l) =>
          let j := deref s1 l in
          if negb (is_admin p) && negb (is_officer p) && negb (String.eqb (mj_initiator_subject j) (pr_subject p))
          then (s1, Raise (HTTPException 403 "Not authorized to inspect this comparison job."))
          else (s1, Ok j)
      end
  end.

Definition cancel_mna_job (s : job_store) (p : Principal) (job_id : string) : job_store * res http_error () :=
  match require_roles _ALLOWED p with
  | Raise e => (s, Raise e)
  | Ok _ =>
      match cancel_job s job_id with
      | (s1, true) => (s1, Ok ())
      | (s1, false) => (s1, Raise (HTTPException 400 ("Job '" +:+ job_id +:+ "' cannot be cancelled")))
      end
  end.
