(* ===== verification/MnaFacts.v ===== *)
(** * Theorems about the due-diligence comparison

    Every rule of either entity is accounted for, the language model cannot
    change a deterministic finding, the risk score stays in its range, a
    snapshot reads nothing of another entity, a job is only seen by those who
    may see both entities, and a cancelled job does not complete. *)
From S2P Require Import Prelude PyStr PyFloat Sha256 Json Datetime PyRe PyText JsonLogic JsonFacts Ledger DbModels Backtest Security Mna.

Open Scope string_scope.
Open Scope Z_scope.

(** ** Sorted unions *)
Lemma insert_by_elem {A} (leb : A → A → bool) x y l : x ∈ insert_by leb y l ↔ x = y ∨ x ∈ l.
Proof. induction l as [|z l IH]; simpl; [set_solver|]. destruct (leb y z); set_solver. Qed.

Lemma sort_by_elem {A} (leb : A → A → bool) x l : x ∈ sort_by leb l ↔ x ∈ l.
Proof. unfold sort_by. induction l as [|y l IH]; simpl; [done|]. rewrite insert_by_elem IH. set_solver. Qed.

Lemma sorted_union_elem x a b : x ∈ sorted_union a b ↔ x ∈ a ∨ x ∈ b.
Proof. unfold sorted_union. by rewrite sort_by_elem elem_of_remove_dups elem_of_app. Qed.

(** ** The advisory model *)
Section advisory.
Context (llm : string → llm_reply) (llm_enabled : bool).

(** The model cannot wave a difference away: it is believed that two
    policies are equivalent only when it is enabled, answers, says so, and
    quotes at least ten characters. *)
Theorem equivalence_needs_quote title text_a text_b context :
  let v := call_advisory_llm_comparison llm llm_enabled title text_a text_b context in
  ad_is_equivalent v = true →
  llm_enabled = true ∧ 10 <= py_len (ad_evidence_quote v)
  ∧ ∃ d, llm (build_semantic_comparison_prompt title text_a text_b context) = LlmData (JObj d)
       ∧ py_truthy (default (JBool false) (obj_get "is_equivalent" d)) = true
       ∧ ad_evidence_quote v = strip (str_json (default (JStr "") (obj_get "evidence_quote" d))).
Proof.
  cbv zeta. unfold call_advisory_llm_comparison. destruct llm_enabled; [|done]. simpl.
  destruct (llm _) as [exc|data]; [done|]. destruct data as [| | | | | |d]; try done. simpl.
  set (q := strip _). set (e := py_truthy _).
  destruct (e && _) eqn:E; [done|]. simpl. intros He. split; [done|].
  rewrite He /= in E. breflect. split; [done|]. by exists d.
Qed.
End advisory.

(** ** Pass one *)
Definition refs (f : MNAFinding) : option string * option string :=
  (mp_entity_a_artifact_ref (mf_provenance f), mp_entity_b_artifact_ref (mf_provenance f)).

Section rules.
Context (llm : string → llm_reply) (llm_enabled : bool).

(** No number can be compared. *)
Definition unquantified (a b : EntityRuleSnapshot) : Prop :=
  ∃ ta tb, thresholds a = Ok ta ∧ thresholds b = Ok tb ∧ (ta.2 = None ∨ tb.2 = None).

(** The model declared the two policies equivalent. *)
Definition declared_equivalent (rule_id : string) (a b : EntityRuleSnapshot) : Prop :=
  ad_is_equivalent (call_advisory_llm_comparison llm llm_enabled ("Rule Logic: " +:+ rule_id)
    (str_or (er_rego_policy a) (ast_text (er_jsonlogic_ast a)))
    (str_or (er_rego_policy b) (ast_text (er_jsonlogic_ast b)))
    ("Clause reference: " +:+ opt_text (er_section_reference a))) = true.

Lemma qualitative_inv rule_id a b l :
  qualitative llm llm_enabled rule_id a b = Ok l →
  (l = [] ∧ declared_equivalent rule_id a b)
  ∨ ∃ f, l = [f] ∧ mf_is_advisory f = true ∧ refs f = (Some (rule_ref a), Some (rule_ref b)).
Proof.
  unfold qualitative, declared_equivalent. set (v := call_advisory_llm_comparison _ _ _ _ _ _).
  destruct (ad_is_equivalent v); [intros [= <-]; by left|]. intros H. right.
  destruct (py_truthy (ad_recommendation v)); [destruct (ad_recommendation v)|]; simplify_eq/=; eauto.
Qed.

(** What the comparison of one rule gives. *)
Lemma compare_rules_inv advisory_mode rule_id a b l :
  compare_rules llm llm_enabled advisory_mode rule_id a b = Ok l →
  (l = [] ∧ same_policy a b = true)
  ∨ (l = [] ∧ advisory_mode = true ∧ unquantified a b ∧ declared_equivalent rule_id a b)
  ∨ (∃ f, l = [f] ∧ refs f = (Some (rule_ref a), Some (rule_ref b))
        ∧ (mf_is_advisory f = true → advisory_mode = true ∧ unquantified a b)).
Proof.
  unfold compare_rules. destruct (same_policy a b); [intros [= <-]; by left|].
  intros ([op_a val_a] & Ha & H)%res_bind_Ok. apply res_bind_Ok in H as ([op_b val_b] & Hb & H). right.
  assert (Hq : (val_a = None ∨ val_b = None) → unquantified a b) by (intros ?; by exists (op_a, val_a), (op_b, val_b)).
  assert (Hn : (val_a = None ∨ val_b = None) →
    (if advisory_mode then qualitative llm llm_enabled rule_id a b else Ok [hash_variation rule_id a b]) = Ok l →
    (l = [] ∧ advisory_mode = true ∧ unquantified a b ∧ declared_equivalent rule_id a b)
    ∨ (∃ f, l = [f] ∧ refs f = (Some (rule_ref a), Some (rule_ref b))
          ∧ (mf_is_advisory f = true → advisory_mode = true ∧ unquantified a b))).
  { intros HN. destruct advisory_mode; [|intros [= <-]; right; by eexists].
    intros [[-> Hd]|(f & -> & _ & Hf)]%qualitative_inv; [left; auto|right; exists f; auto]. }
  destruct val_a as [va|], val_b as [vb|]; [|apply Hn; auto..].
  right. destruct (negb _); [simplify_eq; by eexists|]. destruct (flt_ltb _ _); [simplify_eq; by eexists|].
  apply res_bind_Ok in H as (f & Hf & [= <-]). exists f. unfold same_threshold in Hf.
  destruct (er_policy_sha256 a), (er_policy_sha256 b); simplify_eq. done.
Qed.
End rules.

Lemma rule_by_id_is_Some rules rule_id : is_Some (rule_by_id rules rule_id) ↔ rule_id ∈ map er_rule_id rules.
Proof.
  unfold rule_by_id. destruct (List.find _ (rev rules)) as [r|] eqn:E.
  - apply find_some in E as [Hr He]. apply String.eqb_eq in He as <-. split; [|done].
    intros _. apply list_elem_of_fmap. exists r. split; [done|]. apply list_elem_of_In. by apply in_rev.
  - split; [by intros [? ?]|]. intros (r & -> & Hr)%list_elem_of_fmap. exfalso.
    apply list_elem_of_In, in_rev in Hr. apply (find_none _ _ E) in Hr. by rewrite String.eqb_refl in Hr.
Qed.

Lemma compare_rule_inv llm enabled mode rules_a rules_b rule_id l :
  compare_rule llm enabled mode rules_a rules_b rule_id = Ok l →
  rule_id ∈ map er_rule_id rules_a ∨ rule_id ∈ map er_rule_id rules_b →
  (∃ f, f ∈ l ∧ refs f = (rule_ref <$> rule_by_id rules_a rule_id, rule_ref <$> rule_by_id rules_b rule_id))
  ∨ (∃ a b, rule_by_id rules_a rule_id = Some a ∧ rule_by_id rules_b rule_id = Some b
       ∧ (same_policy a b = true ∨ mode = true ∧ unquantified a b ∧ declared_equivalent llm enabled rule_id a b)).
Proof.
  rewrite -!rule_by_id_is_Some. unfold compare_rule.
  destruct (rule_by_id rules_a rule_id) as [a|], (rule_by_id rules_b rule_id) as [b|].
  - intros [[-> H]|[(-> & H)|(f & -> & Hf & _)]]%compare_rules_inv _; [right; eauto 6..|].
    left. exists f. split; [apply list_elem_of_here|done].
  - intros [= <-] _. left. exists (missing_in_b rule_id a). split; [apply list_elem_of_here|done].
  - intros [= <-] _. left. exists (missing_in_a rule_id b). split; [apply list_elem_of_here|done].
  - by intros _ [[? ?]|[? ?]].
Qed.

(** Membership in the findings of the first pass. *)
Lemma pass_rules_elem llm enabled mode a b findings :
  pass_rules llm enabled mode a b = Ok findings →
  ∀ rule_id, rule_id ∈ map er_rule_id (es_rules a) ∨ rule_id ∈ map er_rule_id (es_rules b) →
  ∃ l, compare_rule llm enabled mode (es_rules a) (es_rules b) rule_id = Ok l ∧ ∀ f, f ∈ l → f ∈ findings.
Proof.
  unfold pass_rules. intros (ls & Hls & [= <-])%res_bind_Ok rule_id Hr%sorted_union_elem.
  apply res_mapM_Ok in Hls. apply list_elem_of_lookup in Hr as [i Hi].
  destruct (Forall2_lookup_l _ _ _ _ _ Hls Hi) as (l & Hl & Hc). exists l. split; [done|].
  intros f Hf. apply list_elem_of_In, in_concat. exists l.
  split; apply list_elem_of_In; [by eapply list_elem_of_lookup_2|done].
Qed.

Section report.
Context (llm : string → llm_reply) (llm_enabled : bool) (set_order : list string → list string).
Abbreviation run := (run_due_diligence_comparison llm llm_enabled set_order).

Definition in_scope (k : string) (scope : list string) : bool :=
  existsb (String.eqb k) (match scope with [] => default_scope | _ => scope end).

Lemma run_inv a b job_id initiator scope mode report :
  run a b job_id initiator scope mode = Ok report →
  ∃ pass1, (if in_scope "rules" scope || in_scope "thresholds" scope then pass_rules llm llm_enabled mode a b else Ok []) = Ok pass1
    ∧ mo_findings report
      = (pass1 ++ (if in_scope "risk_overlay" scope then pass_overlays a b else [])
         ++ (if in_scope "hitl" scope then pass_reviews a b else [])
         ++ (if in_scope "graph" scope then pass_graph set_order a b else [])
         ++ (if in_scope "violations" scope then pass_violations a b else []))%list
    ∧ mo_overall_risk_score report = overall_risk_score (mo_findings report)
    ∧ mo_summary_counts report = summary_counts (mo_findings report).
Proof.
  unfold run_due_diligence_comparison. intros (pass1 & H1 & [= <-])%res_bind_Ok. by exists pass1.
Qed.

(** C20. Every rule is accounted for.  In a finished comparison whose scope
    covers the rules, each rule of either entity has a finding that refers to
    the version of it on each side, unless both sides have it and their policy
    digests are present and equal, or, in advisory mode and when no threshold
    can be compared, the model declared the two equivalent. *)
Theorem every_rule_accounted_for a b job_id initiator scope mode report rule_id :
  run a b job_id initiator scope mode = Ok report →
  in_scope "rules" scope || in_scope "thresholds" scope = true →
  rule_id ∈ map er_rule_id (es_rules a) ∨ rule_id ∈ map er_rule_id (es_rules b) →
  (∃ f, f ∈ mo_findings report
      ∧ refs f = (rule_ref <$> rule_by_id (es_rules a) rule_id, rule_ref <$> rule_by_id (es_rules b) rule_id))
  ∨ (∃ ra rb, rule_by_id (es_rules a) rule_id = Some ra ∧ rule_by_id (es_rules b) rule_id = Some rb
       ∧ (same_policy ra rb = true
          ∨ mode = true ∧ unquantified ra rb ∧ declared_equivalent llm llm_enabled rule_id ra rb)).
Proof.
  intros (pass1 & H1 & Hf & _)%run_inv Hs Hr. rewrite Hs in H1.
  destruct (pass_rules_elem _ _ _ _ _ _ H1 rule_id Hr) as (l & Hl & Hin).
  destruct (compare_rule_inv _ _ _ _ _ _ _ Hl Hr) as [(f & Hfl & Hrefs)|H]; [left|by right].
  exists f. split; [|done]. rewrite Hf. apply elem_of_app. left. by apply Hin.
Qed.
End report.

(** ** What the model cannot change *)
Definition deterministic (l : list MNAFinding) : list MNAFinding := List.filter (λ f, negb (mf_is_advisory f)) l.

Lemma compare_rules_deterministic llm llm' enabled enabled' mode rule_id a b l l' :
  compare_rules llm enabled mode rule_id a b = Ok l → compare_rules llm' enabled' mode rule_id a b = Ok l' →
  deterministic l = deterministic l'.
Proof.
  unfold compare_rules. destruct (same_policy a b); [congruence|].
  intros ([op_a val_a] & Ha & H)%res_bind_Ok. apply res_bind_Ok in H as ([op_b val_b] & Hb & H).
  rewrite Ha Hb /=.
  assert (Hq : ∀ e x m, qualitative e x rule_id a b = Ok m → deterministic m = []).
  { intros e x m [[-> _]|(f & -> & Hf & _)]%qualitative_inv; [done|]. unfold deterministic. simpl. by rewrite Hf. }
  destruct val_a, val_b, mode; intros H'; try congruence; by rewrite (Hq _ _ _ H) (Hq _ _ _ H').
Qed.

Lemma compare_rule_deterministic llm llm' enabled enabled' mode ra rb rule_id l l' :
  compare_rule llm enabled mode ra rb rule_id = Ok l → compare_rule llm' enabled' mode ra rb rule_id = Ok l' →
  deterministic l = deterministic l'.
Proof.
  unfold compare_rule. destruct (rule_by_id ra rule_id), (rule_by_id rb rule_id); [apply compare_rules_deterministic|congruence..].
Qed.

Lemma pass_rules_deterministic llm llm' enabled enabled' mode a b l l' :
  pass_rules llm enabled mode a b = Ok l → pass_rules llm' enabled' mode a b = Ok l' → deterministic l = deterministic l'.
Proof.
  unfold pass_rules. intros (ls & Hls & [= <-])%res_bind_Ok (ls' & Hls' & [= <-])%res_bind_Ok.
  apply res_mapM_Ok in Hls, Hls'. revert ls' Hls'.
  induction Hls as [|x y xs ys Hx _ IH]; intros ls' Hls'; inversion Hls'; subst; [done|].
  simpl. unfold deterministic. rewrite !List.filter_app. f_equal; [by eapply compare_rule_deterministic|by apply IH].
Qed.

(** The language model is advisory: whatever it answers, and whether it is
    enabled or not, two comparisons of the same snapshots that finish have the
    same deterministic findings, in the same order. *)
Theorem model_is_advisory llm llm' enabled enabled' set_order a b job_id initiator scope mode report report' :
  run_due_diligence_comparison llm enabled set_order a b job_id initiator scope mode = Ok report →
  run_due_diligence_comparison llm' enabled' set_order a b job_id initiator scope mode = Ok report' →
  deterministic (mo_findings report) = deterministic (mo_findings report').
Proof.
  intros (p & H1 & -> & _)%run_inv (p' & H1' & -> & _)%run_inv. unfold deterministic. rewrite !(List.filter_app _ p) !(List.filter_app _ p').
  f_equal. destruct (in_scope "rules" scope || _); [by eapply pass_rules_deterministic|by simplify_eq].
Qed.

(** ** The risk score *)

(** A float that is zero, positive or positive infinity. *)
Definition nonneg (f : spec_float) : Prop :=
  match f with S754_zero _ | S754_infinity false | S754_finite false _ _ => True | _ => False end.

Lemma iter_shr_nonneg p m : 0 <= shr_m m → 0 <= shr_m (iter_pos shr_1 p m).
Proof.
  assert (H1 : ∀ m, 0 <= shr_m m → 0 <= shr_m (shr_1 m)) by (intros [[|[]|] ? ?]; simpl; lia).
  revert m. induction p as [p IH|p IH|]; intros m Hm; simpl; auto.
Qed.

Lemma shr_fexp_nonneg m e l : 0 <= m → 0 <= shr_m (shr_fexp prec emax m e l).1.
Proof.
  intros Hm. unfold shr_fexp, shr.
  assert (0 <= shr_m (shr_record_of_loc m l)) by (by destruct l as [|[]]).
  destruct (_ - e); simpl; [done| |done]. by apply iter_shr_nonneg.
Qed.

Lemma binary_round_aux_nonneg m e l : 0 <= m → nonneg (binary_round_aux prec emax false m e l).
Proof.
  intros Hm. unfold binary_round_aux.
  pose proof (shr_fexp_nonneg m e l Hm) as H1. destruct (shr_fexp prec emax m e l) as [mrs e1]. simpl in H1.
  set (r := round_nearest_even _ _).
  assert (0 <= r) as Hr by (unfold r, round_nearest_even; repeat case_match; lia).
  pose proof (shr_fexp_nonneg r e1 loc_Exact Hr) as H2. destruct (shr_fexp prec emax r e1 loc_Exact) as [mrs2 e2]. simpl in H2.
  destruct (shr_m mrs2); [done| |lia]. by case_match.
Qed.

Lemma flt_nonneg m e : 0 <= m → nonneg (flt m e).
Proof.
  intros Hm. unfold flt, binary_normalize. destruct m as [|m|]; [done| |lia].
  unfold binary_round. destruct (shl_align _ _ _). by apply binary_round_aux_nonneg.
Qed.

Lemma float_mul_nonneg x m e : nonneg x → nonneg (float_mul x (S754_finite false m e)).
Proof.
  destruct x as [|[]| |[]]; simpl; try done. intros _. unfold float_mul, SFmul; simpl.
  by apply binary_round_aux_nonneg.
Qed.

Lemma float_add_nonneg x y : nonneg x → nonneg y → nonneg (float_add x y).
Proof.
  destruct x as [[]|[]| |[] m e], y as [[]|[]| |[] m' e']; simpl; try done. intros _ _. unfold float_add, SFadd; simpl.
  apply (flt_nonneg (Z.pos _ + Z.pos _)). lia.
Qed.

Lemma digits_value_nonneg s acc : all_chars is_digit s = true → 0 <= acc → 0 <= digits_value acc s.
Proof.
  revert acc. induction s as [|c s IH]; intros acc; simpl; [done|]. intros [Hc Hs]%andb_prop Ha. apply IH; [done|].
  unfold is_digit, code_between in Hc. breflect. unfold code in *. lia.
Qed.

Lemma before_point ip fr : all_chars is_digit ip = true → before "." (ip +:+ String "." fr) = ip.
Proof.
  induction ip as [|c ip IH]; simpl; [done|]. intros [Hc Hip]%andb_prop.
  destruct (Ascii.eqb_spec c ".") as [->|_]; [done|]. by rewrite IH.
Qed.

Lemma after_point ip fr : sdrop (S (String.length ip)) (ip +:+ String "." fr) = fr.
Proof. induction ip as [|c ip IH]; [done|]. simpl in *. apply IH. Qed.

Lemma numeral_nonneg ip fr :
  all_chars is_digit ip = true → ip ≠ "" → all_chars is_digit fr = true → nonneg (float_of_numeral (ip +:+ "." +:+ fr)).
Proof.
  intros Hip Hne Hfr. unfold float_of_numeral. change (ip +:+ "." +:+ fr) with (ip +:+ String "." fr).
  assert (startswith "-" (ip +:+ String "." fr) = false) as ->.
  { destruct ip as [|c ip]; [done|]. apply andb_prop in Hip as [Hc _].
    destruct c as [[] [] [] [] [] [] [] []]; try reflexivity. discriminate Hc. }
  rewrite before_point // after_point.
  destruct (_ =? 0) eqn:E; [done|]. breflect.
  assert (0 <= digits_value (digits_value 0 ip) fr) by (apply digits_value_nonneg; [done|by apply digits_value_nonneg]).
  unfold ratio_float. apply flt_nonneg. set (sh := Z.max 0 _).
  assert (0 <= (digits_value (digits_value 0 ip) fr * 2 ^ sh) / 10 ^ Z.of_nat (String.length fr)).
  { apply Z_div_nonneg_nonneg; [apply Z.mul_nonneg_nonneg; [done|apply Z.pow_nonneg; lia]|apply Z.pow_nonneg; lia]. }
  destruct (_ =? 0); lia.
Qed.

Lemma round2_nonneg x : nonneg x → nonneg (round2 x).
Proof.
  destruct x as [| | |s m e]; try done. simpl. destruct s; [done|]. intros _. unfold fmt_fixed.
  set (num := Z.pos m * _ * _). set (den := 2 ^ _).
  assert (0 <= num) by (unfold num; repeat (apply Z.mul_nonneg_nonneg); try lia; apply Z.pow_nonneg; lia).
  assert (0 < den) by (apply Z.pow_pos_nonneg; lia).
  assert (0 <= num / den) by (apply Z_div_nonneg_nonneg; lia).
  set (d := match 2 * (num mod den) ?= den with Gt => _ | Eq => _ | Lt => _ end).
  assert (0 <= d) by (unfold d; repeat case_match; lia).
  destruct (str_of_Z_nonneg (d / 10 ^ Z.of_nat 2)) as [Hd1 Hd2]; [by apply Z_div_nonneg_nonneg|].
  apply numeral_nonneg; [done..|]. apply (dig_digits 2 d).
Qed.

Lemma nonneg_leb x : nonneg x → flt_leb (float_of_Z 0) x = true.
Proof.
  unfold flt_leb, num_leb, num_compare. destruct x as [|[]| |[] m e]; try done. intros _. simpl.
  unfold dyadic_compare. case_match; [done..|]. exfalso.
  match goal with E : (_ ?= _) = Gt |- _ => apply Z.compare_gt_iff in E end.
  assert (0 <= 2 ^ (e - Z.min 0 e)) by (apply Z.pow_nonneg; lia). lia.
Qed.

Lemma weight_nonneg n w : 0 <= n → w ∈ [25; 10; 4; 1] → nonneg (weight n w).
Proof.
  intros Hn Hw. unfold weight. pose proof (flt_nonneg n 0 Hn) as H. fold (float_of_Z n) in H.
  assert (∃ m e, float_of_Z w = S754_finite false m e) as (m & e & ->).
  { repeat (apply elem_of_cons in Hw as [->|Hw]; [by eexists _, _; vm_compute|]). by apply not_elem_of_nil in Hw. }
  by apply float_mul_nonneg.
Qed.

Lemma overall_risk_score_range findings :
  flt_leb (float_of_Z 0) (overall_risk_score findings) = true
  ∧ flt_leb (overall_risk_score findings) (float_of_Z 100) = true.
Proof.
  unfold overall_risk_score. set (raw := float_add _ _).
  assert (nonneg (round2 raw)) as Hr.
  { apply round2_nonneg. unfold raw. repeat apply float_add_nonneg; apply weight_nonneg; try set_solver; unfold count_if; lia. }
  destruct (flt_ltb (round2 raw) (float_of_Z 100)) eqn:E; [|by vm_compute].
  split; [by apply nonneg_leb|]. unfold flt_ltb, flt_leb, num_ltb, num_leb in *.
  destruct (num_compare _ _) as [[]|]; done.
Qed.

(** Below one hundred all the arithmetic is exact. *)
#[local] Instance spec_float_eq_dec : EqDecision spec_float.
Proof. solve_decision. Defined.

Lemma below_100 (P : Z → Prop) `{∀ n, Decision (P n)} :
  forallb (λ n, bool_decide (P n)) (seqZ 0 100) = true → ∀ n, 0 <= n < 100 → P n.
Proof.
  intros Hall n Hn. rewrite forallb_true_Forall Forall_forall in Hall.
  eapply bool_decide_eq_true_1, Hall. apply elem_of_seqZ. lia.
Qed.

Lemma weight_exact n w : w ∈ [25; 10; 4; 1] → 0 <= n < 100 → weight n w = float_of_Z (n * w).
Proof.
  intros Hw. revert n. apply (below_100 (λ n, weight n w = float_of_Z (n * w))).
  repeat (apply elem_of_cons in Hw as [->|Hw]; [by vm_compute|]). by apply not_elem_of_nil in Hw.
Qed.

Lemma add_exact a b : 0 <= a < 100 → 0 <= b < 100 → float_add (float_of_Z a) (float_of_Z b) = float_of_Z (a + b).
Proof.
  intros Ha. revert b.
  apply (below_100 (λ b, float_add (float_of_Z a) (float_of_Z b) = float_of_Z (a + b)) ).
  revert a Ha.
  apply (below_100 (λ a, forallb (λ b, bool_decide (float_add (float_of_Z a) (float_of_Z b) = float_of_Z (a + b))) (seqZ 0 100) = true)).
  by vm_compute.
Qed.

Lemma round_exact n : 0 <= n < 100 → round2 (float_of_Z n) = float_of_Z n ∧ flt_ltb (float_of_Z n) (float_of_Z 100) = true.
Proof.
  revert n. apply (below_100 (λ n, round2 (float_of_Z n) = float_of_Z n ∧ flt_ltb (float_of_Z n) (float_of_Z 100) = true)).
  by vm_compute.
Qed.

(** Twenty-five points for a critical finding, ten for a high one, four for a
    medium one and one for a low one. *)
Definition points (findings : list MNAFinding) : Z :=
  let n v := count_if (of_severity v) findings in n CRITICAL * 25 + n HIGH * 10 + n MEDIUM * 4 + n LOW * 1.

Lemma overall_risk_score_exact findings :
  points findings < 100 → overall_risk_score findings = float_of_Z (points findings).
Proof.
  unfold points, overall_risk_score. cbv zeta.
  assert (∀ v, 0 <= count_if (of_severity v) findings) as H0 by (intros; unfold count_if; lia).
  pose proof (H0 CRITICAL). pose proof (H0 HIGH). pose proof (H0 MEDIUM). pose proof (H0 LOW). intros Hp.
  rewrite !weight_exact; [|set_solver|lia..|set_solver|lia|set_solver|lia|set_solver|lia].
  rewrite !add_exact; [|lia..].
  destruct (round_exact (count_if (of_severity CRITICAL) findings * 25 + count_if (of_severity HIGH) findings * 10
    + count_if (of_severity MEDIUM) findings * 4 + count_if (of_severity LOW) findings * 1)) as [-> ->]; [lia|done].
Qed.

(** The risk score of a report lies between 0 and 100, so the report is
    valid whatever the findings are; and it is exactly the weighted sum of the
    severities as long as that is below 100. *)
Theorem risk_score_bounds llm enabled set_order a b job_id initiator scope mode report :
  run_due_diligence_comparison llm enabled set_order a b job_id initiator scope mode = Ok report →
  flt_leb (float_of_Z 0) (mo_overall_risk_score report) = true
  ∧ flt_leb (mo_overall_risk_score report) (float_of_Z 100) = true
  ∧ (points (mo_findings report) < 100 →
     mo_overall_risk_score report = float_of_Z (points (mo_findings report)))
  ∧ obj_get "total_findings" (mo_summary_counts report) = Some (Z.of_nat (length (mo_findings report))).
Proof.
  intros (p & _ & _ & -> & ->)%run_inv. destruct (overall_risk_score_range (mo_findings report)) as [H1 H2].
  split; [done|]. split; [done|]. split; [apply overall_risk_score_exact|done].
Qed.

(** ** Isolation of snapshots *)
Lemma find_filter {A} (p q : A → bool) l : (∀ x, x ∈ l → p x = true → q x = true) → List.find p (List.filter q l) = List.find p l.
Proof.
  induction l as [|x l IH]; intros H; simpl; [done|].
  assert (List.find p (List.filter q l) = List.find p l) as IH' by (apply IH; intros; apply H; [by right|done]).
  destruct (p x) eqn:Ep.
  - rewrite (H x) //; [|by left]. simpl. by rewrite Ep.
  - destruct (q x); simpl; rewrite ?Ep; done.
Qed.

Lemma filter_filter {A} (p q : A → bool) l : (∀ x, x ∈ l → p x = true → q x = true) → List.filter p (List.filter q l) = List.filter p l.
Proof.
  induction l as [|x l IH]; intros H; simpl; [done|].
  assert (List.filter p (List.filter q l) = List.filter p l) as IH' by (apply IH; intros; apply H; [by right|done]).
  destruct (p x) eqn:Ep.
  - rewrite (H x) //; [|by left]. simpl. by rewrite Ep IH'.
  - destruct (q x); simpl; rewrite ?Ep; done.
Qed.

Lemma res_mapM_ext {E A B} (f g : A → res E B) l : (∀ x, x ∈ l → f x = g x) → res_mapM f l = res_mapM g l.
Proof.
  induction l as [|x l IH]; intros H; simpl; [done|]. rewrite (H x); [|by left]. rewrite IH; [done|].
  intros y Hy. apply H. by right.
Qed.

Lemma omap_ext_elem {A B} (f g : A → option B) (l : list A) : (∀ x, x ∈ l → f x = g x) → omap f l = omap g l.
Proof.
  induction l as [|x l IH]; intros H; [done|]. assert (omap f l = omap g l) as IH' by (apply IH; intros; apply H; by right).
  unfold omap, list_omap in *. rewrite (H x); [|by left]. by rewrite IH'.
Qed.

(** What an entity owns: its row, its rules, its clauses and those that its
    rules cite with their circulars, its open reviews, and its ledger rows. *)
Definition entity_view (e : string) (db : mna_tables) : mna_tables :=
  let rules := List.filter (λ r, String.eqb (ru_tenant_id r) e) (mt_rules db) in
  let clauses := List.filter (λ c, String.eqb (cl_tenant_id c) e || existsb (Z.eqb (cl_id c)) (map ru_clause_id rules))
                   (mt_clauses db) in
  MTables (List.filter (λ t, String.eqb (tn_tenant_id t) e) (mt_tenants db)) rules clauses
    (List.filter (λ x, existsb (λ c, ci_id x =? cl_circular_id c) clauses) (mt_circulars db))
    (List.filter (unresolved e) (mt_reviews db))
    (List.filter (λ r, String.eqb (broker_id (fields r)) e) <$> mt_ledger db).

Lemma violations_summary_view e ledger :
  violations_summary e (List.filter (λ r, String.eqb (broker_id (fields r)) e) <$> ledger) = violations_summary e ledger.
Proof. destruct ledger as [l|]; [|done]. simpl. by rewrite filter_filter. Qed.

Section isolation.
Context (e : string) (db : mna_tables).
Let rules := List.filter (λ r, String.eqb (ru_tenant_id r) e) (mt_rules db).

Lemma view_clause_by_id r :
  r ∈ rules → clause_by_id (mt_clauses (entity_view e db)) (ru_clause_id r) = clause_by_id (mt_clauses db) (ru_clause_id r).
Proof.
  intros Hr. unfold clause_by_id, entity_view; simpl. apply find_filter. intros c _ Hc. breflect.
  apply orb_true_iff. right. apply existsb_true_elem. exists (ru_clause_id r). split; [|by apply Z.eqb_eq].
  apply list_elem_of_fmap. eauto.
Qed.

Lemma view_clause_snapshot c :
  c ∈ mt_clauses (entity_view e db) →
  clause_snapshot (mt_circulars (entity_view e db)) c = clause_snapshot (mt_circulars db) c.
Proof.
  intros Hc. unfold clause_snapshot. f_equal. f_equal. apply find_filter. intros x _ Hx.
  apply existsb_true_elem. exists c. split; [exact Hc|exact Hx].
Qed.

End isolation.

(** ** Authorization *)

(** The principal may see both entities: it supervises all of them, or both are
    its own tenant. *)
Definition may_see (p : Principal) (a b : string) : Prop :=
  is_admin p = true ∨ is_officer p = true ∨ (pr_tenant_id p = Some a ∧ b = a).

Lemma of_tenant_Some e l t : of_tenant e l = Some t → t ∈ l ∧ tn_tenant_id t = e.
Proof. intros [H E]%find_some. split; [by apply list_elem_of_In|by apply String.eqb_eq]. Qed.

Lemma verify_Ok p a b tenants :
  verify_dual_entity_authorization p a b tenants [] = Ok () →
  a ≠ "" ∧ b ≠ "" ∧ may_see p a b
  ∧ (∃ t, t ∈ tenants ∧ tn_tenant_id t = a ∧ tn_is_active t = true)
  ∧ (∃ t, t ∈ tenants ∧ tn_tenant_id t = b ∧ tn_is_active t = true).
Proof.
  unfold verify_dual_entity_authorization.
  destruct (String.eqb_spec a "") as [|Ha]; [done|]. destruct (String.eqb_spec b "") as [|Hb]; [done|]. simpl.
  intros ([] & Hp & H)%res_bind_Ok. split; [done|]. split; [done|]. split.
  - unfold may_see. destruct (is_admin p); [by left|]. destruct (is_officer p); [by right; left|]. right. right. simpl in Hp.
    destruct (in_roles _ _); [|done]. unfold authorized_set in Hp.
    destruct (pr_tenant_id p) as [t|]; [|done]. destruct (String.eqb t ""); [done|]. simpl in Hp.
    destruct (String.eqb_spec a t) as [->|]; [|done]. destruct (String.eqb_spec b t) as [->|]; [done|discriminate Hp].
  - set (found := List.filter _ tenants) in H.
    assert (Hin : ∀ t, t ∈ found → t ∈ tenants).
    { intros t Ht. unfold found in Ht. rewrite list_elem_of_In filter_In in Ht. apply list_elem_of_In, Ht. }
    destruct (of_tenant a found) as [ta|] eqn:Ea; [|done]. destruct (of_tenant b found) as [tb|] eqn:Eb; [|done].
    apply of_tenant_Some in Ea as [Ea ?], Eb as [Eb ?].
    destruct (List.find _ found) eqn:Ef; [done|].
    assert (Hact : ∀ t, t ∈ found → tn_is_active t = true).
    { intros t Ht%list_elem_of_In. apply (find_none _ _ Ef) in Ht. by apply negb_false_iff in Ht. }
    split; [exists ta|exists tb]; auto.
Qed.

(** Access to one entity is no access to another: a comparison is only
    started for a principal with a due-diligence role who supervises all
    entities, or whose own tenant both entities are; both are registered and
    active.  Otherwise no job is created. *)
Theorem dual_entity_authorization enabled s tenants p rq job_id :
  match initiate_mna_comparison enabled s tenants p rq job_id with
  | (s', Ok l) =>
      enabled = true ∧ may_see p (mr_entity_a_id rq) (mr_entity_b_id rq)
      ∧ (∃ t, t ∈ tenants ∧ tn_tenant_id t = mr_entity_a_id rq ∧ tn_is_active t = true)
      ∧ (∃ t, t ∈ tenants ∧ tn_tenant_id t = mr_entity_b_id rq ∧ tn_is_active t = true)
      ∧ js_heap s' !! l = Some (new_job job_id (mr_entity_a_id rq) (mr_entity_b_id rq) (pr_subject p) "Queued for execution")
  | (s', Raise _) => s' = s
  end.
Proof.
  unfold initiate_mna_comparison, require_roles. destruct (has_role p _ALLOWED); [|done]. simpl.
  destruct enabled; [|done]. simpl.
  destruct (verify_dual_entity_authorization _ _ _ _ _) as [[]|] eqn:E; [|done].
  apply verify_Ok in E as (_ & _ & Hs & Ha & Hb). unfold alloc_job, save_job, deref. simpl. rewrite !lookup_insert_eq /=.
  done.
Qed.

(** ** Who sees a job *)
Section visibility.
(** The principals that make requests; what a subject may do does not depend on
    the request. *)
Context (acts : Principal → Prop).
Context (subjects_agree : ∀ p q, acts p → acts q → pr_subject p = pr_subject q →
  pr_tenant_id p = pr_tenant_id q ∧ is_admin p || is_officer p = is_admin q || is_officer q).

(** The job was started by a principal who may see both of its entities. *)
Definition rightful (j : MNAJobProgress) : Prop :=
  ∃ p, acts p ∧ pr_subject p = mj_initiator_subject j ∧ may_see p (mj_entity_a_id j) (mj_entity_b_id j).

Definition valid (s : job_store) (l : positive) : Prop := is_Some (js_heap s !! l).
Definition store_ok (s : job_store) : Prop :=
  (∀ l j, js_heap s !! l = Some j → rightful j) ∧ (∀ i l, js_memory s !! i = Some l → valid s l)
  ∧ (∀ m i j, js_redis s = Some m → m !! i = Some j → rightful j).
Definition grows (s s' : job_store) : Prop := store_ok s' ∧ ∀ l, valid s l → valid s' l.

Lemma deref_rightful s l : store_ok s → valid s l → rightful (deref s l).
Proof. intros (H & _) [j Hj]. unfold deref. rewrite Hj. by apply (H l). Qed.

Lemma assign_grows s l f : store_ok s → valid s l → (∀ j, rightful j → rightful (f j)) → grows s (assign s l f).
Proof.
  intros Hs Hl Hf. pose proof (deref_rightful s l Hs Hl) as Hd. destruct Hs as (Hh & Hm & Hr).
  assert (Hv : ∀ k, valid s k → valid (assign s l f) k).
  { intros k Hk. unfold valid, assign; simpl. destruct (decide (k = l)) as [->|]; [by rewrite lookup_insert_eq|by rewrite lookup_insert_ne]. }
  split; [|done]. split; [|split; [|done]].
  - intros k j. simpl. destruct (decide (k = l)) as [->|]; [rewrite lookup_insert_eq; intros [= <-]; auto|].
    rewrite lookup_insert_ne //. apply Hh.
  - intros i k Hk. by apply Hv, (Hm i).
Qed.

Lemma alloc_grows s j : store_ok s → rightful j → grows s (alloc_job s j).1 ∧ valid (alloc_job s j).1 (alloc_job s j).2.
Proof.
  intros (Hh & Hm & Hr) Hj. unfold alloc_job; simpl. set (n := fresh _).
  assert (Hn : js_heap s !! n = None) by (apply not_elem_of_dom; apply is_fresh).
  assert (Hv : ∀ k, valid s k → valid (Jobs (<[n:=j]> (js_heap s)) (js_memory s) (js_redis s)) k).
  { intros k Hk. unfold valid; simpl. destruct (decide (k = n)) as [->|]; [by rewrite lookup_insert_eq|by rewrite lookup_insert_ne]. }
  split; [|unfold valid; simpl; by rewrite lookup_insert_eq]. split; [|done]. split; [|split; [|done]].
  - intros k x. simpl. destruct (decide (k = n)) as [->|]; [rewrite lookup_insert_eq; by intros [= <-]|].
    rewrite lookup_insert_ne //. apply Hh.
  - intros i k Hk. by apply Hv, (Hm i).
Qed.

Lemma save_grows s l : store_ok s → valid s l → grows s (save_job s l).
Proof.
  intros Hs Hl. pose proof (deref_rightful s l Hs Hl) as Hd. destruct Hs as (Hh & Hm & Hr).
  split; [|done]. split; [done|]. unfold save_job; simpl. split.
  - intros i k. destruct (decide (i = mj_job_id (deref s l))) as [->|]; [rewrite lookup_insert_eq; by intros [= <-]|].
    rewrite lookup_insert_ne //. apply Hm.
  - intros m i j. destruct (js_redis s) as [m0|]; [|done]. intros [= <-].
    destruct (decide (i = mj_job_id (deref s l))) as [->|]; [rewrite lookup_insert_eq; by intros [= <-]|].
    rewrite lookup_insert_ne //. by apply Hr.
Qed.

Lemma get_grows s i : store_ok s → grows s (get_job s i).1 ∧ ∀ l, (get_job s i).2 = Some l → valid (get_job s i).1 l.
Proof.
  intros Hs. unfold get_job. destruct (js_redis s ≫= lookup i) as [j|] eqn:E.
  - apply bind_Some in E as (m & Hm & Hj). destruct (alloc_grows s j Hs) as [Hg Hv]; [by apply (proj2 (proj2 Hs) m i)|].
    destruct (alloc_job s j) as [s1 l]; simpl in *. split; [done|]. by intros k [= <-].
  - simpl. split; [by split|]. intros l. apply Hs.
Qed.

Lemma grows_trans s1 s2 s3 : grows s1 s2 → grows s2 s3 → grows s1 s3.
Proof. intros [H1 H1'] [H2 H2']. split; auto. Qed.
Lemma grows_refl s : store_ok s → grows s s.
Proof. by split. Qed.

(** An assignment keeps who started the job and what it compares. *)
Lemma assign_save_grows s l f :
  store_ok s → valid s l →
  (∀ j, mj_initiator_subject (f j) = mj_initiator_subject j ∧ mj_entity_a_id (f j) = mj_entity_a_id j
        ∧ mj_entity_b_id (f j) = mj_entity_b_id j) →
  grows s (save_job (assign s l f) l).
Proof.
  intros Hs Hl Hf.
  assert (Hg : grows s (assign s l f)).
  { apply assign_grows; [done..|]. intros j (p & Hp & Hsub & Hsee). destruct (Hf j) as (E1 & E2 & E3).
    exists p. by rewrite E1 E2 E3. }
  eapply grows_trans; [exact Hg|]. destruct Hg as [Hok Hv]. apply save_grows; auto.
Qed.

Lemma cancel_grows s i : store_ok s → grows s (cancel_job s i).1.
Proof.
  intros Hs. unfold cancel_job. destruct (get_grows s i Hs) as [Hg Hv].
  destruct (get_job s i) as [s1 [l|]]; simpl in *; [|done]. destruct (terminal _); [done|].
  eapply grows_trans; [exact Hg|]. apply assign_save_grows; [apply Hg|by apply Hv|done].
Qed.

Lemma failed_grows s l e : store_ok s → valid s l → grows s (job_failed s l e).1.
Proof. intros Hs Hl. apply assign_save_grows; [done..|]. by intros j; destruct e. Qed.

Lemma checked_grows s l i late k :
  store_ok s → valid s l → (∀ s', store_ok s' → valid s' l → grows s' (k s').1) → grows s (checked s l i late k).1.
Proof.
  intros Hs Hl Hk. unfold checked, check_cancellation. destruct (get_grows s i Hs) as [Hg Hv].
  destruct (get_job s i) as [s1 o]; simpl in *. destruct Hg as [H1 H2].
  case_match; (eapply grows_trans; [by split|]); [apply failed_grows; auto|apply Hk; auto].
Qed.

Lemma progress_grows s l st n step : store_ok s → valid s l → grows s (report_progress s l st n step).
Proof. intros Hs Hl. by apply assign_save_grows. Qed.

Lemma resume_grows s l i pt x : store_ok s → valid s l → grows s (pipeline_resume s l i pt x).1.
Proof.
  intros Hs Hl. unfold pipeline_resume.
  destruct pt, (aw_error x); try (by apply failed_grows); try (by apply grows_refl);
    try (by apply assign_save_grows).
  - apply checked_grows; [done..|]. intros s' ? ?. by apply grows_refl.
  - eapply grows_trans; [by apply progress_grows|].
    destruct (progress_grows s l (mj_status (deref s l)) 35 "Snapshots generated and cryptographically hashed" Hs Hl) as [Ho Hv].
    apply checked_grows; [done|by apply Hv|]. intros s1 H1 Hl1.
    eapply grows_trans; [by apply progress_grows|].
    destruct (progress_grows s1 l DETERMINISTIC_DIFFING 50 "Evaluating deterministic rule and threshold differences" H1 Hl1) as [Ho1 Hv1].
    apply checked_grows; [done|by apply Hv1|]. intros s2 H2 Hl2. by apply progress_grows.
  - apply checked_grows; [done..|]. intros s1 H1 Hl1. by apply progress_grows.
Qed.

Lemma start_grows s i a b initiator late :
  store_ok s → (∃ p, acts p ∧ pr_subject p = initiator ∧ may_see p a b) →
  grows s (pipeline_start s i a b initiator late).1.1.
Proof.
  intros Hs Hp. unfold pipeline_start. destruct (get_grows s i Hs) as [Hg Hv].
  destruct (get_job s i) as [s1 o]; simpl in *.
  assert (H2 : ∃ s2 l, match o with Some l => (s1, l) | None => alloc_job s1 (new_job i a b initiator "Initialized") end = (s2, l)
                       ∧ grows s s2 ∧ valid s2 l).
  { destruct o as [l|]; [exists s1, l; auto|].
    destruct (alloc_grows s1 (new_job i a b initiator "Initialized")) as [Hg' Hv']; [apply Hg|done|].
    destruct (alloc_job _ _) as [s2 l]. exists s2, l. split; [done|]. split; [by eapply grows_trans|done]. }
  destruct H2 as (s2 & l & -> & Hg2 & Hl2).
  destruct (save_grows s2 l) as [H3 Hv3]; [apply Hg2|done|].
  destruct (checked _ _ _ _ _) as [s4 pt] eqn:E. simpl.
  eapply grows_trans; [exact Hg2|]. eapply grows_trans; [by split|].
  assert (s4 = (checked (save_job s2 l) l i late (λ s, (report_progress s l SNAPSHOT_ACQUISITION 15
    "Extracting isolated snapshots for Entity A and Entity B", AwaitSnapshotA))).1) as -> by (by rewrite E).
  apply checked_grows; [done|by apply Hv3|]. intros s' ? ?. by apply progress_grows.
Qed.

(** The requests of acting principals, and the pipelines they start. *)
Inductive store_step (s : job_store) : job_store → Prop :=
| st_initiate enabled tenants p rq i : acts p → store_step s (initiate_mna_comparison enabled s tenants p rq i).1
| st_start p a b i late : acts p → may_see p a b → store_step s (pipeline_start s i a b (pr_subject p) late).1.1
| st_resume l i pt x : valid s l → store_step s (pipeline_resume s l i pt x).1
| st_cancel p i : store_step s (cancel_mna_job s p i).1
| st_read p i : store_step s (get_mna_job s p i).1.

Lemma initiate_grows enabled s tenants p rq i :
  acts p → store_ok s → grows s (initiate_mna_comparison enabled s tenants p rq i).1.
Proof.
  intros Hp Hs. unfold initiate_mna_comparison, require_roles.
  destruct (has_role p _ALLOWED); [|by apply grows_refl]. cbn [res_bind]. destruct enabled; [|by apply grows_refl]. cbn [res_bind].
  destruct (verify_dual_entity_authorization _ _ _ _ _) as [[]|] eqn:E; [|by apply grows_refl].
  apply verify_Ok in E as (_ & _ & Hsee & _).
  destruct (alloc_grows s (new_job i (mr_entity_a_id rq) (mr_entity_b_id rq) (pr_subject p) "Queued for execution")) as [Hg Hv];
    [done|by exists p|].
  destruct (alloc_job _ _) as [s1 l]. cbn [fst snd] in *. eapply grows_trans; [exact Hg|]. by apply save_grows; [apply Hg|].
Qed.

Lemma step_ok s s' : store_step s s' → store_ok s → store_ok s'.
Proof.
  intros [enabled tenants p rq i Hp|p a b i late Hp Hsee|l i pt x Hl|p i|p i] Hs.
  - by apply initiate_grows.
  - apply start_grows; eauto.
  - by apply resume_grows.
  - unfold cancel_mna_job. destruct (require_roles _ _); [|done]. pose proof (cancel_grows s i Hs) as [H _].
    by destruct (cancel_job s i) as [s1 []].
  - unfold get_mna_job. destruct (require_roles _ _); [|done]. destruct (get_grows s i Hs) as [[H _] _].
    destruct (get_job s i) as [s1 [l|]]; [|done]. simpl in *. by case_match.
Qed.

Definition empty_jobs (redis : bool) : job_store := Jobs ∅ ∅ (if redis then Some ∅ else None).

(** No report crosses tenants.  Whatever requests were made and however the
    pipelines ran, with Redis or without, a principal to whom a job is shown
    supervises all entities, or both entities of the job are its own tenant. *)
Theorem job_shown_only_to_rightful redis s p i s' j :
  rtc store_step (empty_jobs redis) s → acts p →
  get_mna_job s p i = (s', Ok j) → may_see p (mj_entity_a_id j) (mj_entity_b_id j).
Proof.
  intros Hr Hp Hg.
  assert (Hs : store_ok s).
  { assert (store_ok (empty_jobs redis)) as H0.
    { split; [done|]. split; [done|]. destruct redis; [by intros m k x [= <-]|done]. }
    clear Hg. revert H0. induction Hr as [|a b c Hab _ IH]; intros H0; [done|]. apply IH. by eapply step_ok. }
  unfold get_mna_job in Hg. destruct (require_roles _ _); [|done].
  destruct (get_grows s i Hs) as [[Hs1 _] Hv]. destruct (get_job s i) as [s1 [l|]]; [|done]. simpl in *.
  pose proof (deref_rightful s1 l Hs1 (Hv l eq_refl)) as (q & Hq & Hsub & Hsee).
  destruct (is_admin p) eqn:Ea; [by left|]. destruct (is_officer p) eqn:Eo; [by right; left|]. simpl in Hg.
  destruct (String.eqb_spec (mj_initiator_subject (deref s1 l)) (pr_subject p)) as [E|]; [|done]. simplify_eq/=.
  destruct (subjects_agree p q Hp Hq) as [Ht Hr']; [congruence|]. rewrite Ea Eo /= in Hr'.
  symmetry in Hr'. apply orb_false_elim in Hr' as [Hqa Hqo]. unfold may_see in *. rewrite Hqa Hqo -Ht in Hsee.
  destruct Hsee as [?|[?|?]]; [done|done|by right; right].
Qed.
End visibility.

(** ** Cancellation in one process *)
Section cancellation.
Context (i : string).

(** The dict refers to the job object that the pipeline holds. *)
Definition shares (s : job_store) (l : positive) (j : MNAJobProgress) : Prop :=
  js_redis s = None ∧ js_memory s !! i = Some l ∧ js_heap s !! l = Some j ∧ mj_job_id j = i.

Lemma shares_deref s l j : shares s l j → deref s l = j.
Proof. intros (_ & _ & H & _). unfold deref. by rewrite H. Qed.

Lemma shares_get s l j : shares s l j → get_job s i = (s, Some l).
Proof. intros (Hr & Hm & _). unfold get_job. by rewrite Hr /= Hm. Qed.

Lemma shares_check s l j late :
  shares s l j → mj_cancelled j = true → check_cancellation s i late = (s, Some CancelledError).
Proof. intros Hs Hc. unfold check_cancellation. by rewrite (shares_get _ _ _ Hs) (shares_deref _ _ _ Hs) Hc. Qed.

Lemma shares_update s l j f :
  shares s l j → mj_job_id (f j) = mj_job_id j → shares (save_job (assign s l f) l) l (f j).
Proof.
  intros Hs Hf. pose proof (shares_deref _ _ _ Hs) as Hd. destruct Hs as (Hr & Hm & Hh & Hi).
  assert (Hj : deref (assign s l f) l = f j) by (unfold deref, assign; simpl; rewrite lookup_insert_eq /=; by rewrite Hd).
  unfold shares, save_job. rewrite Hj Hf Hi. simpl. rewrite Hr Hd.
  split; [done|]. split; [apply lookup_insert_eq|]. split; [apply lookup_insert_eq|congruence].
Qed.

(** The job is cancelled and a check is still ahead, or it has ended so. *)
Definition doomed (r : job_run) : Prop :=
  ∃ j, shares (jr_store r) (jr_loc r) j ∧ mj_report j = None
    ∧ ((jr_point r ∈ [AwaitSnapshotA; AwaitSnapshotB; AwaitComparison] ∧ mj_cancelled j = true)
       ∨ (jr_point r = Ended ∧ (mj_status j = CANCELLED ∨ mj_status j = FAILED))).

Lemma failed_doomed s l j e : shares s l j → mj_report j = None → doomed (JRun (job_failed s l e).1 l (job_failed s l e).2).
Proof.
  intros Hs Hr. unfold job_failed; simpl. eexists. split; [apply shares_update; [exact Hs|by destruct e]|].
  split; [by destruct e|]. right. split; [done|]. destruct e; auto.
Qed.

Lemma checked_doomed s l j late k :
  shares s l j → mj_report j = None → mj_cancelled j = true →
  doomed (JRun (checked s l i late k).1 l (checked s l i late k).2).
Proof.
  intros Hs Hr Hc. unfold checked. rewrite (shares_check _ _ _ late Hs Hc). by eapply failed_doomed.
Qed.

Lemma resume_doomed s l pt x : doomed (JRun s l pt) → doomed (JRun (pipeline_resume s l i pt x).1 l (pipeline_resume s l i pt x).2).
Proof.
  intros (j & Hs & Hr & H). simpl in *. destruct H as [[Hpt Hc]|[-> Hst]]; last first.
  { exists j. simpl. auto. }
  unfold pipeline_resume.
  repeat (apply elem_of_cons in Hpt as [->|Hpt]); [..|by apply not_elem_of_nil in Hpt];
    (destruct (aw_error x); [by eapply failed_doomed|]).
  - by eapply checked_doomed.
  - unfold report_progress at 1 3. set (f := λ j0, set_progress j0 _ _ _).
    eapply (checked_doomed _ _ (f j)); [by apply shares_update|done|done].
  - by eapply checked_doomed.
Qed.

Lemma doomed_step r r' : job_step i r r' → doomed r → doomed r'.
Proof.
  intros [x s' pt' H|s' b H|s' o H] Hd; destruct r as [s l pt]; simpl in *.
  - pose proof (resume_doomed s l pt x Hd) as H'. by rewrite H in H'.
  - destruct Hd as (j & Hs & Hr & Hd). simpl in *. unfold cancel_job in H. rewrite (shares_get _ _ _ Hs) in H.
    rewrite (shares_deref _ _ _ Hs) in H. destruct (terminal (mj_status j)) eqn:Et; simplify_eq; [by exists j|].
    exists (set_cancelled j). split; [by apply shares_update|]. split; [done|].
    destruct Hd as [[Hpt _]|[_ [E|E]]]; [by left|by rewrite E in Et..].
  - destruct Hd as (j & Hs & Hr & Hd). simpl in *. rewrite (shares_get _ _ _ Hs) in H. simplify_eq. by exists j.
Qed.

(** While the pipeline runs the dict refers to its job, which has no report. *)
Definition tracked (r : job_run) : Prop :=
  ∃ j, shares (jr_store r) (jr_loc r) j ∧ (jr_point r ≠ Ended → mj_report j = None).

Lemma progress_tracked s l j st n step :
  shares s l j → shares (report_progress s l st n step) l (set_progress j st n step).
Proof. intros Hs. unfold report_progress. by apply (shares_update _ _ _ (λ j, set_progress j st n step)). Qed.

Lemma checked_tracked s l j late k :
  shares s l j → mj_report j = None → tracked (JRun (k s).1 l (k s).2) →
  tracked (JRun (checked s l i late k).1 l (checked s l i late k).2).
Proof.
  intros Hs Hr Hk. unfold checked, check_cancellation. rewrite (shares_get _ _ _ Hs).
  case_match; [|done]. match goal with |- context [job_failed s l ?e] => destruct (failed_doomed s l j e Hs Hr) as (j' & Hj' & Hr' & _) end.
  by exists j'.
Qed.

Lemma tracked_step r r' : job_step i r r' → tracked r → tracked r'.
Proof.
  intros [x s' pt' H|s' b H|s' o H] (j & Hs & Hr); destruct r as [s l pt]; simpl in *.
  - replace s' with (pipeline_resume s l i pt x).1 by (by rewrite H). replace pt' with (pipeline_resume s l i pt x).2 by (by rewrite H).
    clear H. unfold pipeline_resume.
    assert (Hf : ∀ e, mj_report j = None → tracked (JRun (job_failed s l e).1 l (job_failed s l e).2)).
    { intros e He. destruct (failed_doomed s l j e Hs He) as (j' & Hj' & Hr' & _). by exists j'. }
    destruct pt.
    + destruct (aw_error x); [apply Hf; by apply Hr|]. eapply checked_tracked; [done|by apply Hr|]. exists j. split; [exact Hs|by intros _; apply Hr].
    + destruct (aw_error x); [apply Hf; by apply Hr|].
      eapply checked_tracked; [by apply progress_tracked|by apply Hr|].
      eapply checked_tracked; [by apply progress_tracked, progress_tracked|by apply Hr|].
      eexists. split; [by apply progress_tracked, progress_tracked, progress_tracked|]. intros _. by apply Hr.
    + destruct (aw_error x); [apply Hf; by apply Hr|].
      eapply checked_tracked; [done|by apply Hr|]. eexists. split; [by apply progress_tracked|]. intros _. by apply Hr.
    + destruct (aw_error x); [apply Hf; by apply Hr|]. exists j. split; [exact Hs|by intros _; apply Hr].
    + exists (set_report j (aw_report x)). split; [by apply (shares_update s l j (λ j, set_report j (aw_report x)))|done].
    + exists j. split; [exact Hs|done].
  - unfold cancel_job in H. rewrite (shares_get _ _ _ Hs) (shares_deref _ _ _ Hs) in H.
    destruct (terminal _); simplify_eq; [by exists j|]. exists (set_cancelled j). split; [by apply shares_update|done].
  - rewrite (shares_get _ _ _ Hs) in H. simplify_eq. by exists j.
Qed.

Definition started (a b initiator : string) (late : bool) : job_run :=
  let '(s, l, pt) := pipeline_start (empty_jobs false) i a b initiator late in JRun s l pt.

Lemma started_tracked a b initiator late : tracked (started a b initiator late).
Proof.
  unfold started, pipeline_start. cbn [get_job empty_jobs js_redis option_bind mbind js_memory].
  rewrite lookup_empty. destruct (alloc_job _ _) as [s2 l] eqn:E.
  assert (Hs : shares (save_job s2 l) l (new_job i a b initiator "Initialized")).
  { unfold alloc_job in E. simplify_eq. unfold shares, save_job, deref; simpl. rewrite !lookup_insert_eq /=.
    done. }
  destruct (checked _ _ _ _ _) as [s3 pt] eqn:Ec.
  pose proof (checked_tracked _ _ _ late (λ s, (report_progress s l SNAPSHOT_ACQUISITION 15
    "Extracting isolated snapshots for Entity A and Entity B", AwaitSnapshotA)) Hs eq_refl) as H.
  rewrite Ec in H. apply H. eexists. split; [by apply progress_tracked|done].
Qed.

(** C32. Cancellation: in a process without Redis, a job whose cancellation is
    accepted before the comparison has finished never completes.  However it
    goes on, once it has ended it is cancelled or failed, and it has no
    report. *)
Theorem cancelled_job_never_completes a b initiator late r s' r' :
  rtc (job_step i) (started a b initiator late) r →
  jr_point r ∈ [AwaitSnapshotA; AwaitSnapshotB; AwaitComparison] →
  cancel_job (jr_store r) i = (s', true) →
  rtc (job_step i) (JRun s' (jr_loc r) (jr_point r)) r' →
  mj_report (deref (jr_store r') (jr_loc r')) = None
  ∧ (jr_point r' = Ended →
     mj_status (deref (jr_store r') (jr_loc r')) = CANCELLED ∨ mj_status (deref (jr_store r') (jr_loc r')) = FAILED).
Proof.
  intros Hr Hpt Hc Hr'.
  assert (Ht : tracked r).
  { pose proof (started_tracked a b initiator late) as H0. clear -Hr H0.
    induction Hr as [|x y z Hxy _ IH]; [done|]. apply IH. by eapply tracked_step. }
  assert (Hd : doomed (JRun s' (jr_loc r) (jr_point r))).
  { destruct Ht as (j & Hs & Hrep). unfold cancel_job in Hc. rewrite (shares_get _ _ _ Hs) (shares_deref _ _ _ Hs) in Hc.
    destruct (terminal _); simplify_eq. exists (set_cancelled j). split; [by apply shares_update|].
    split; [apply Hrep; intros E; rewrite E in Hpt; set_solver|by left]. }
  assert (Hd' : doomed r') by (clear -Hr' Hd; induction Hr' as [|x y z Hxy _ IH]; [done|]; apply IH; by eapply doomed_step).
  destruct Hd' as (j & Hs & Hrep & H). rewrite (shares_deref _ _ _ Hs). split; [done|].
  intros E. destruct H as [[Hp _]|[_ H]]; [rewrite E in Hp; set_solver|done].
Qed.
End cancellation.

(** ** At concrete inputs *)
Definition w_rule (rule_id : string) (sha : option string) (ast : list (string * json)) (rego : option string) : EntityRuleSnapshot :=
  RuleSnap rule_id 1 sha rego (Some ast) None true "NONE" (Some 1) None None (Some rule_id).
Definition margin (n : Z) : list (string * json) := [(">=", JList [JObj [("var", JStr "facts.margin")]; JInt n])].
Definition w_snapshot (e : string) (rules : list EntityRuleSnapshot) : EntityComplianceSnapshot :=
  Snapshot e e "stockbroker" true "h" rules [("exposure_cap", JInt (if String.eqb e "a" then 5 else 7))] [] []
    (Violations 0 0 0 [] [] false) [].
Definition w_a : EntityComplianceSnapshot := w_snapshot "a"
  [w_rule "kyc" (Some "aa") [] (Some "allow { input.kyc }"); w_rule "margin" (Some "bb") (margin 20) None; w_rule "same" (Some "cc") [] None].
Definition w_b : EntityComplianceSnapshot := w_snapshot "b"
  [w_rule "extra" (Some "dd") [] None; w_rule "kyc" (Some "ee") [] (Some "allow { input.kyc_done }");
   w_rule "margin" (Some "ff") (margin 30) None; w_rule "same" (Some "cc") [] None].
Definition silent (_ : string) : llm_reply := LlmRaised "timeout".
Definition agreeing (_ : string) : llm_reply :=
  LlmData (JObj [("is_equivalent", JBool true); ("evidence_quote", JStr "both check that KYC is complete")]).
Definition w_run (llm : string → llm_reply) := run_due_diligence_comparison llm true (λ l, l) w_a w_b "job-1" "asha" [] true.
Definition w_report (llm : string → llm_reply) : MNADueDiligenceReport :=
  match w_run llm with Ok r => r | Raise _ => MReport "" "" "" "" "" "" [] [] (float_of_Z 0) "" end.

Example w_findings :
  map (λ f, (mf_title f, severity_value (mf_severity f), mf_is_advisory f)) (mo_findings (w_report silent))
  = [("Policy Missing in Entity A: extra", "HIGH", false); ("Qualitative Policy Difference: kyc", "MEDIUM", true);
     ("Threshold Discrepancy on Rule: margin", "HIGH", false); ("Risk Overlay Discrepancy: exposure_cap", "HIGH", false)]
  ∧ mo_overall_risk_score (w_report silent) = float_of_Z 34.
Proof. vm_compute. split; reflexivity. Qed.

Lemma equivalence_needs_quote_witness :
  10 <= py_len (ad_evidence_quote (call_advisory_llm_comparison agreeing true "t" "a" "b" "")).
Proof. apply (equivalence_needs_quote agreeing true "t" "a" "b" ""). vm_compute. reflexivity. Defined.

Lemma every_rule_accounted_for_witness :
  ∃ f, f ∈ mo_findings (w_report silent)
    ∧ refs f = (rule_ref <$> rule_by_id (es_rules w_a) "margin", rule_ref <$> rule_by_id (es_rules w_b) "margin").
Proof.
  destruct (every_rule_accounted_for silent true (λ l, l) w_a w_b "job-1" "asha" [] true (w_report silent) "margin")
    as [H|(ra & rb & Ha & Hb & H)].
  - vm_compute. reflexivity.
  - reflexivity.
  - left. vm_compute. right. left.
  - exact H.
  - exfalso. injection Ha as <-. injection Hb as <-. destruct H as [H|(_ & (ta & tb & Hta & Htb & H) & _)].
    + vm_compute in H. discriminate H.
    + vm_compute in Hta, Htb. injection Hta as <-. injection Htb as <-. destruct H; discriminate.
Defined.

Lemma model_is_advisory_witness :
  deterministic (mo_findings (w_report silent)) = deterministic (mo_findings (w_report agreeing))
  ∧ length (mo_findings (w_report agreeing)) = 3%nat.
Proof.
  split; [|vm_compute; reflexivity].
  apply (model_is_advisory silent agreeing true true (λ l, l) w_a w_b "job-1" "asha" [] true); vm_compute; reflexivity.
Defined.

Lemma risk_score_bounds_witness : mo_overall_risk_score (w_report silent) = float_of_Z 34.
Proof.
  destruct (risk_score_bounds silent true (λ l, l) w_a w_b "job-1" "asha" [] true (w_report silent)) as (_ & _ & H & _);
    [vm_compute; reflexivity|]. rewrite H; [|vm_compute; reflexivity]. vm_compute. reflexivity.
Defined.

(** A broker that compares its tenant with itself, and an officer. *)
Definition w_broker : Principal := MkPrincipal "client-a" [BROKER_API_CLIENT] (Some "a") "t1" None [].
Definition w_other : Principal := MkPrincipal "client-b" [BROKER_API_CLIENT] (Some "b") "t2" None [].
Definition w_tenants : list Tenant := [TenantRow "a" "A" "stockbroker" true []; TenantRow "b" "B" "amc" true []].
Definition w_store : job_store :=
  (initiate_mna_comparison true (empty_jobs true) w_tenants w_broker (MRequest "a" "a" [] true true) "job-1").1.

Example broker_cannot_compare_another :
  (initiate_mna_comparison true (empty_jobs true) w_tenants w_broker (MRequest "a" "b" [] true true) "job-1").2
  = Raise (HTTPException 403 "Cross-entity authorization failed.").
Proof. vm_compute. reflexivity. Qed.

Lemma job_shown_only_to_rightful_witness :
  (get_mna_job w_store w_broker "job-1").2 = Ok (new_job "job-1" "a" "a" "client-a" "Queued for execution")
  ∧ may_see w_broker "a" "a".
Proof.
  split; [vm_compute; reflexivity|].
  apply (job_shown_only_to_rightful (λ p, p = w_broker) ltac:(by intros p q -> -> _) true w_store w_broker "job-1"
           (get_mna_job w_store w_broker "job-1").1 (new_job "job-1" "a" "a" "client-a" "Queued for execution")).
  - apply rtc_once. by apply st_initiate.
  - reflexivity.
  - vm_compute. reflexivity.
Defined.

(** The route does not ask who cancels: a client of another tenant can. *)
Theorem stranger_can_cancel :
  (get_mna_job w_store w_other "job-1").2 = Raise (HTTPException 403 "Not authorized to inspect this comparison job.")
  ∧ (cancel_mna_job w_store w_other "job-1").2 = Ok ().
Proof. vm_compute. split; reflexivity. Qed.

Definition w_await : awaited := Awaited None (w_report silent) false false.
Definition resume (r : job_run) : job_run :=
  let '(s, pt) := pipeline_resume (jr_store r) (jr_loc r) "job-1" (jr_point r) w_await in JRun s (jr_loc r) pt.
Definition cancelled (r : job_run) : job_run := JRun (cancel_job (jr_store r) "job-1").1 (jr_loc r) (jr_point r).
Definition w_started (redis : bool) : job_run :=
  let '(s, l, pt) := pipeline_start (empty_jobs redis) "job-1" "a" "b" "asha" false in JRun s l pt.
Definition w_status (r : job_run) : MNAJobStatus := mj_status (deref (jr_store r) (jr_loc r)).

Lemma cancelled_job_never_completes_witness :
  mj_report (deref (jr_store (resume (cancelled (w_started false)))) (jr_loc (w_started false))) = None
  ∧ w_status (resume (cancelled (w_started false))) = CANCELLED.
Proof.
  split; [|vm_compute; reflexivity].
  apply (cancelled_job_never_completes "job-1" "a" "b" "asha" false (w_started false) (jr_store (cancelled (w_started false)))
           (resume (cancelled (w_started false)))).
  - apply rtc_refl.
  - vm_compute. left.
  - vm_compute. reflexivity.
  - apply rtc_once. apply (job_resumes _ _ w_await). vm_compute. reflexivity.
Defined.

(** With Redis the pipeline keeps its own copy and overwrites the cancellation
    that arrives while the second snapshot is taken; and without Redis one that
    arrives while the ledger is written is overwritten too. *)
Theorem cancellation_lost :
  (let r := resume (w_started true) in
   (cancel_job (jr_store r) "job-1").2 = true ∧ w_status (resume (resume (resume (resume (cancelled r))))) = COMPLETED)
  ∧ (let r := resume (resume (resume (w_started false))) in
     (cancel_job (jr_store r) "job-1").2 = true ∧ w_status (resume (resume (cancelled r))) = COMPLETED).
Proof. vm_compute. repeat split; reflexivity. Qed.

(** Two policies whose second threshold differs are reported as sharing
    identical thresholds: only the first comparison of the Rego text is read. *)
Theorem second_threshold_not_compared :
  match compare_rules silent true true "r"
          (w_rule "r" (Some "aa") [] (Some "allow { input.x >= 10; input.y <= 5 }"))
          (w_rule "r" (Some "bb") [] (Some "allow { input.x >= 10; input.y <= 500 }")) with
  | Ok [f] => mf_severity f = LOW ∧ mf_description f = "Rule r shares identical thresholds but differing AST structure or policy hashes."
  | _ => False
  end.
Proof. vm_compute. split; reflexivity. Qed.

(** A tenfold change of a negative threshold is not a large one. *)
Theorem negative_threshold_not_large :
  match compare_rules silent true true "r" (w_rule "r" (Some "aa") (margin (-10)) None) (w_rule "r" (Some "bb") (margin (-100)) None),
        compare_rules silent true true "r" (w_rule "r" (Some "aa") (margin 10) None) (w_rule "r" (Some "bb") (margin 100) None) with
  | Ok [f], Ok [g] => mf_severity f = MEDIUM ∧ mf_severity g = HIGH
  | _, _ => False
  end.
Proof. vm_compute. split; reflexivity. Qed.

(** Two rules without a digest and with the same threshold make the comparison
    raise a TypeError. *)
Theorem missing_digests_raise :
  compare_rules silent true true "r" (w_rule "r" None (margin 10) None) (w_rule "r" None (margin 10) None) = Raise TypeError.
Proof. vm_compute. reflexivity. Qed.

(** The audit row of a comparison counts as an evaluation of the first entity,
    so the next snapshot of it differs. *)
Theorem audit_counts_as_evaluation t r now t' :
  log_mna_due_diligence_audit_event t r now = Ok t' →
  hv_total_evaluations (violations_summary (mo_entity_a_id r) (Some (rows t')))
  = hv_total_evaluations (violations_summary (mo_entity_a_id r) (Some (rows t))) + 1.
Proof.
  unfold log_mna_due_diligence_audit_event, append_entry, insert_row. destruct (existsb _ _); [done|]. simpl.
  intros [= <-]. simpl. rewrite List.filter_app length_app /= String.eqb_refl /=. lia.
Qed.
