(* ===== verification/Sandbox.v ===== *)
(** * The sandbox and row-level security

    [src/app/api/sandbox_routes.py], [SandboxSessionContext] of
    [src/app/db/tenant_session.py], and the policies of
    [src/sql/rls_tenant_partitioning.sql] on the tables that the sandbox reads.

    A session sees the rows that the policies admit for the value of
    [app.current_tenant_id].  The sandbox only reads; its session is rolled
    back, so its operations have no state of their own. *)
From S2P Require Import Prelude PyStr PyFloat Sha256 Json Datetime JsonLogic ExecModels Governance Policies Execution ExecutionFacts DbModels Security.

Open Scope string_scope.
Open Scope Z_scope.
Open Scope py_scope.

(** ** Row-level security *)

(** [is_admin_context()]: the setting is unset, empty or the sentinel. *)
Definition is_admin_context (guc : option string) : bool :=
  existsb (String.eqb (default "" guc)) [""; _ADMIN_SENTINEL].
Definition own_row (guc : option string) (tenant_id : string) : bool := bool_decide (guc = Some tenant_id).

Definition rls_circulars_select (guc : option string) (c : Circular) : bool :=
  is_admin_context guc || ci_is_shared c || own_row guc (ci_tenant_id c).
Definition rls_clauses_select (guc : option string) (d : database) (c : Clause) : bool :=
  is_admin_context guc || own_row guc (cl_tenant_id c)
  || existsb (λ x, (ci_id x =? cl_circular_id c) && ci_is_shared x) (d_circulars d).
Definition rls_compiled_rules_select (guc : option string) (r : CompiledRule) : bool :=
  is_admin_context guc || own_row guc (ru_tenant_id r).
Definition rls_hitl_reviews_select (guc : option string) (v : HITLReview) : bool :=
  is_admin_context guc || own_row guc (rv_tenant_id v).

(** The database as a session with this setting sees it. *)
Definition session_view (guc : option string) (d : database) : database :=
  Db (d_tenants d) (List.filter (rls_circulars_select guc) (d_circulars d))
    (List.filter (rls_clauses_select guc d) (d_clauses d))
    (List.filter (rls_compiled_rules_select guc) (d_rules d))
    (List.filter (rls_hitl_reviews_select guc) (d_reviews d)) (d_transitions d) (d_next d).

(** ** [sandbox_routes.py] *)
Record SandboxPolicyOutcome := SOutcome
  { so_rule_id : string
  ; so_package : string
  ; so_allow : option bool
  ; so_violations : list string
  ; so_circular_number : option string
  ; so_clause_number : option string
  ; so_overlay_applied : bool }.

Record SandboxEvaluationResult := SResult
  { sr_transaction_id : string
  ; sr_decision : Decision
  ; sr_matched_policies : list SandboxPolicyOutcome
  ; sr_reasons : list string
  ; sr_would_trigger_hitl : bool }.

Record SandboxBatchResult := SBatch
  { sb_tenant_id : string
  ; sb_total : Z
  ; sb_allowed : Z
  ; sb_denied : Z
  ; sb_flagged : Z
  ; sb_results : list SandboxEvaluationResult }.

Record SandboxSettings := SSettings { sx_enabled : bool; sx_max_transactions : Z; sx_max_circulars : Z }.

Definition _sandbox_guard (c : SandboxSettings) : res http_error () :=
  if sx_enabled c then Ok ()
  else Raise (HTTPException 503 ("The sandbox environment is currently disabled by the system administrator. "
         +:+ "Contact your compliance team for assistance.")).

Definition _resolve_tenant_id (p : Principal) : res http_error string :=
  if truthy (pr_tenant_id p) then Ok (default "" (pr_tenant_id p))
  else if is_admin p || is_officer p then Ok _ADMIN_SENTINEL
  else Raise (HTTPException 403 "Broker_API_Client token is missing tenant_id claim.").

Definition _reduce_outcomes (outcomes : list SandboxPolicyOutcome) : Decision * list string :=
  match flat_map so_violations outcomes with
  | (_ :: _) as vs => (DENY, vs)
  | [] =>
      match map so_rule_id (List.filter (λ o, match so_allow o with None => true | _ => false end) outcomes) with
      | (_ :: _) as undefined =>
          (FLAGGED, ["Policy(ies) " +:+ ids_repr undefined
                     +:+ " returned an undefined result — insufficient or malformed facts."])
      | [] => (ALLOW, [])
      end
  end.

(** [_fetch_active_rules]: no filter but [is_active]; the session's view does
    the rest. *)
Definition _fetch_active_rules (d : database) : list CompiledRule := List.filter ru_is_active (d_rules d).

Section evaluate.
Context (opa : string → json → opa_reply).

Definition sandbox_input (t : TransactionPayload) (overlay : option (list (string * json))) : json :=
  JObj ([("entity_type", JStr (entity_type t)); ("facts", JObj (facts t))]
        ++ match overlay with Some (x :: l) => [("overlay", JObj (x :: l))] | _ => [] end).

Definition sandbox_outcome (t : TransactionPayload) (overlay : option (list (string * json))) (r : CompiledRule)
  : SandboxPolicyOutcome :=
  let package := default "" (ru_opa_package_name r) in
  let applied := bool_decide (is_Some overlay) in
  match opa package (sandbox_input t overlay) with
  | OpaFailure | OpaUndefined => SOutcome (ru_rule_id r) package None [] None None applied
  | OpaResult d =>
      SOutcome (ru_rule_id r) package (Some (od_allow d)) (od_violations d) (od_circular_number d) (od_clause_number d) applied
  end.

Definition _evaluate_one (t : TransactionPayload) (rules : list CompiledRule) (overlay : option (list (string * json)))
  : SandboxEvaluationResult :=
  let applicable := List.filter (λ r, truthy (ru_opa_package_name r)) rules in
  let outcomes := map (sandbox_outcome t overlay) applicable in
  let '(decision, reasons) :=
    match applicable with
    | [] => (ALLOW, ["No active compiled rules apply to this entity_type in the sandbox."])
    | _ => _reduce_outcomes outcomes
    end in
  SResult (tx_transaction_id t) decision outcomes reasons (bool_decide (decision = FLAGGED)).

Definition count_results (d : Decision) (l : list SandboxEvaluationResult) : Z :=
  Z.of_nat (length (List.filter (λ r, bool_decide (sr_decision r = d)) l)).

Definition batch_of (tenant_id : string) (results : list SandboxEvaluationResult) : SandboxBatchResult :=
  SBatch tenant_id (Z.of_nat (length results)) (count_results ALLOW results) (count_results DENY results)
    (count_results FLAGGED results) results.

Definition sandbox_roles : list Role := [BROKER_API_CLIENT; COMPLIANCE_OFFICER; SYSTEM_ADMIN].

(** The checks that every route makes, up to the effective tenant. *)
Definition sandbox_access (c : SandboxSettings) (p : Principal) : res http_error string :=
  let* p := require_roles sandbox_roles p in
  let* _ := _sandbox_guard c in
  _resolve_tenant_id p.

(** Request validation: a field outside its bounds is refused. *)
Definition validated (ok : bool) : res http_error () :=
  if ok then Ok () else Raise (HTTPException 422 "request validation").

(** [async with SandboxSessionContext(tenant_id)]: the rows in view. *)
Definition SandboxSessionContext (tenant_id : string) (d : database) : res http_error database :=
  let* guc := _set_tenant_context tenant_id in Ok (session_view (Some guc) d).

Definition too_many (c : SandboxSettings) (transactions : list TransactionPayload) : bool :=
  sx_max_transactions c <? Z.of_nat (length transactions).
Definition limit_exceeded (c : SandboxSettings) : http_error :=
  HTTPException 422 ("Exceeded sandbox_max_transactions limit (" +:+ str_of_Z (sx_max_transactions c) +:+ ").").

Definition sandbox_evaluate (c : SandboxSettings) (p : Principal) (d : database) (transactions : list TransactionPayload)
  : res http_error SandboxBatchResult :=
  let* p := require_roles sandbox_roles p in
  let* _ := validated (negb (bool_decide (transactions = []))) in
  let* tenant_id := sandbox_access c p in
  if too_many c transactions then Raise (limit_exceeded c) else
  let* view := SandboxSessionContext tenant_id d in
  Ok (batch_of tenant_id (map (λ t, _evaluate_one t (_fetch_active_rules view) None) transactions)).

(** [{**base, **candidate}] *)
Definition merge_overlay (base candidate : list (string * json)) : list (string * json) :=
  (map (λ '(k, v), (k, default v (obj_get k candidate))) base
   ++ List.filter (λ '(k, _), negb (existsb (String.eqb k) (map fst base))) candidate)%list.

(** [risk_overlay] is the stored overlay of a tenant, [None] when the row is
    not in view. *)
Definition sandbox_evaluate_with_overlay (c : SandboxSettings) (p : Principal) (d : database)
    (risk_overlay : string → option (list (string * json))) (transactions : list TransactionPayload)
    (candidate_overlay : list (string * json)) : res http_error SandboxBatchResult :=
  let* p := require_roles sandbox_roles p in
  let* _ := validated (negb (bool_decide (transactions = []))) in
  let* tenant_id := sandbox_access c p in
  if too_many c transactions then Raise (limit_exceeded c)
  else if bool_decide (candidate_overlay = [])
  then Raise (HTTPException 422 "candidate_overlay must not be empty; use /evaluate for a plain dry-run.")
  else
    let* view := SandboxSessionContext tenant_id d in
    let merged := merge_overlay (default [] (risk_overlay tenant_id)) candidate_overlay in
    Ok (batch_of tenant_id (map (λ t, _evaluate_one t (_fetch_active_rules view) (Some merged)) transactions)).
End evaluate.

(** *** Browsing *)
Record CompiledRuleSummary := RuleSummary
  { rs_id : Z
  ; rs_rule_id : string
  ; rs_rule_version : Z
  ; rs_opa_package_name : option string
  ; rs_has_rego : bool
  ; rs_has_jsonlogic : bool
  ; rs_hitl_status : string
  ; rs_circular_number : option string
  ; rs_clause_number : option string }.

(** The clause and the circular of a rule, as far as they are in view. *)
Definition rule_clause (d : database) (r : CompiledRule) : option Clause := clause_of d (ru_clause_id r).
Definition rule_circular (d : database) (r : CompiledRule) : option Circular :=
  rule_clause d r ≫= λ c, circular_of d (cl_circular_id c).

Definition rule_summary (d : database) (r : CompiledRule) : CompiledRuleSummary :=
  RuleSummary (ru_id r) (ru_rule_id r) (ru_rule_version r) (ru_opa_package_name r) (bool_decide (is_Some (ru_rego_policy r)))
    (bool_decide (is_Some (ru_jsonlogic_ast r))) (ru_hitl_status r) (ci_circular_number <$> rule_circular d r)
    (rule_clause d r ≫= cl_clause_number).

(** [.offset(offset).limit(limit)] *)
Definition page {A} (offset limit : Z) (l : list A) : list A := firstn (Z.to_nat limit) (skipn (Z.to_nat offset) l).

(** [ORDER BY created_at DESC] is the reverse of insertion.  The circular
    number filters the page after it was cut. *)
Definition sandbox_list_rules (c : SandboxSettings) (p : Principal) (d : database) (entity_type circular_number : option string)
    (limit offset : Z) : res http_error (list CompiledRuleSummary) :=
  let* p := require_roles sandbox_roles p in
  let* _ := validated ((1 <=? limit) && (limit <=? 500) && (0 <=? offset)) in
  let* tenant_id := sandbox_access c p in
  let* view := SandboxSessionContext tenant_id d in
  let rules := page offset limit (rev (_fetch_active_rules view)) in
  let kept := List.filter (λ r,
    match circular_number with
    | Some n => if String.eqb n "" then true
                else bool_decide (ci_circular_number <$> rule_circular view r = Some n)
    | None => true
    end) rules in
  Ok (map (rule_summary view) kept).

Definition sandbox_get_rule (c : SandboxSettings) (p : Principal) (d : database) (rule_id : string)
  : res http_error CompiledRuleSummary :=
  let* tenant_id := sandbox_access c p in
  let* view := SandboxSessionContext tenant_id d in
  match List.find (λ r, String.eqb (ru_rule_id r) rule_id) (_fetch_active_rules view) with
  | Some r => Ok (rule_summary view r)
  | None => Raise (HTTPException 404 ("No active compiled rule with rule_id='" +:+ rule_id +:+ "' found for this tenant."))
  end.

Record CircularSummary := CSummary { cs_circular : Circular; cs_clause_count : Z }.

(** The text and date filters of the query: [ilike] is the operator of the
    database; a filter that is absent or empty is not applied. *)
Record circular_filter := CFilter
  { cf_keyword : option string; cf_date_from : option Z; cf_date_to : option Z; cf_department : option string }.

Section circulars.
Context (ilike : string → string → bool).

Definition circular_matches (f : circular_filter) (c : Circular) : bool :=
  (if truthy (cf_keyword f) then
     let kw := "%" +:+ default "" (cf_keyword f) +:+ "%" in
     ilike (ci_circular_number c) kw || match ci_title c with Some t => ilike t kw | None => false end
   else true)
  && match cf_date_from f with Some d => match ci_issue_date c with Some i => d <=? i | None => false end | None => true end
  && match cf_date_to f with Some d => match ci_issue_date c with Some i => i <=? d | None => false end | None => true end
  && (if truthy (cf_department f) then
        match ci_department c with Some t => ilike t ("%" +:+ default "" (cf_department f) +:+ "%") | None => false end
      else true).

(** [issue_date DESC NULLS LAST] *)
Definition newer (x y : Circular) : bool :=
  match ci_issue_date x, ci_issue_date y with
  | Some a, Some b => b <=? a
  | Some _, None => true
  | None, None => true
  | None, Some _ => false
  end.
Fixpoint insert_circular (x : Circular) (l : list Circular) : list Circular :=
  match l with [] => [x] | y :: l' => if newer x y then x :: l else y :: insert_circular x l' end.
Definition by_issue_date (l : list Circular) : list Circular := foldr insert_circular [] l.

Definition sandbox_list_circulars (c : SandboxSettings) (p : Principal) (d : database) (f : circular_filter) (limit offset : Z)
  : res http_error (list CircularSummary) :=
  let* p := require_roles sandbox_roles p in
  let* _ := validated ((1 <=? limit) && (limit <=? 200) && (0 <=? offset)) in
  let* tenant_id := sandbox_access c p in
  let* view := SandboxSessionContext tenant_id d in
  let rows := page offset (Z.min limit (sx_max_circulars c)) (by_issue_date (List.filter (circular_matches f) (d_circulars view))) in
  Ok (map (λ x, CSummary x (Z.of_nat (length (List.filter (λ k, cl_circular_id k =? ci_id x) (d_clauses view))))) rows).
End circulars.

(** ** What a tenant sees *)

Section isolation.
Context (t : string) (Hempty : t ≠ "") (Hsentinel : t ≠ _ADMIN_SENTINEL).

Lemma not_admin_context : is_admin_context (Some t) = false.
Proof.
  unfold is_admin_context. cbn [existsb default]. rewrite (proj2 (String.eqb_neq t "") Hempty).
  by rewrite (proj2 (String.eqb_neq t _ADMIN_SENTINEL) Hsentinel).
Qed.

Lemma own_row_spec x : own_row (Some t) x = true ↔ x = t.
Proof. unfold own_row. rewrite bool_decide_eq_true. naive_solver. Qed.

Lemma view_rules d r : r ∈ d_rules (session_view (Some t) d) ↔ r ∈ d_rules d ∧ ru_tenant_id r = t.
Proof.
  cbn [session_view d_rules]. rewrite filter_elem. unfold rls_compiled_rules_select.
  rewrite not_admin_context orb_false_l own_row_spec. tauto.
Qed.

Lemma view_reviews d v : v ∈ d_reviews (session_view (Some t) d) ↔ v ∈ d_reviews d ∧ rv_tenant_id v = t.
Proof.
  cbn [session_view d_reviews]. rewrite filter_elem. unfold rls_hitl_reviews_select.
  rewrite not_admin_context orb_false_l own_row_spec. tauto.
Qed.

Lemma view_circulars d c :
  c ∈ d_circulars (session_view (Some t) d) ↔ c ∈ d_circulars d ∧ (ci_is_shared c = true ∨ ci_tenant_id c = t).
Proof.
  cbn [session_view d_circulars]. rewrite filter_elem. unfold rls_circulars_select.
  rewrite not_admin_context orb_false_l orb_true_iff own_row_spec. tauto.
Qed.

Lemma view_clauses d c :
  c ∈ d_clauses (session_view (Some t) d) ↔
  c ∈ d_clauses d
  ∧ (cl_tenant_id c = t ∨ ∃ x, x ∈ d_circulars d ∧ ci_id x = cl_circular_id c ∧ ci_is_shared x = true).
Proof.
  cbn [session_view d_clauses]. rewrite filter_elem. unfold rls_clauses_select.
  rewrite not_admin_context orb_false_l orb_true_iff own_row_spec existsb_true_elem.
  setoid_rewrite andb_true_iff. setoid_rewrite Z.eqb_eq. tauto.
Qed.
End isolation.

Lemma context_view t d view : SandboxSessionContext t d = Ok view → view = session_view (Some t) d.
Proof.
  unfold SandboxSessionContext, _set_tenant_context. by destruct (contains "'" t) => //= - [= <-].
Qed.

Lemma access_tenant c p t t' :
  pr_tenant_id p = Some t → t ≠ "" → sandbox_access c p = Ok t' →
  t' = t ∧ sx_enabled c = true ∧ has_role p sandbox_roles = true.
Proof.
  intros Ht Hne. unfold sandbox_access, require_roles, _sandbox_guard, _resolve_tenant_id.
  destruct (has_role p sandbox_roles) eqn:Hr; [|done]. cbn [res_bind]. destruct (sx_enabled c); [|done]. cbn [res_bind].
  rewrite Ht. unfold truthy. destruct (String.eqb_spec t ""); [done|]. by intros [= <-].
Qed.

(** A dry run gives one result per transaction, in order. *)
Lemma evaluate_inv opa c p d ts b :
  sandbox_evaluate opa c p d ts = Ok b →
  ∃ t, sandbox_access c p = Ok t ∧ Z.of_nat (length ts) ≤ sx_max_transactions c ∧ ts ≠ [] ∧
    b = batch_of t (map (λ x, _evaluate_one opa x (_fetch_active_rules (session_view (Some t) d)) None) ts).
Proof.
  unfold sandbox_evaluate, require_roles. destruct (has_role p sandbox_roles); [|done]. cbn [res_bind].
  unfold validated. destruct (decide (ts = [])) as [->|Hts]; [done|]. rewrite bool_decide_eq_false_2 //. cbn [negb res_bind].
  intros (t & Ht & H)%res_bind_Ok. exists t. unfold too_many in H.
  destruct (Z.ltb_spec (sx_max_transactions c) (Z.of_nat (length ts))); [done|].
  apply res_bind_Ok in H as (view & ->%context_view & [= <-]). auto with lia.
Qed.

Lemma counts_total l :
  count_results ALLOW l + count_results DENY l + count_results FLAGGED l = Z.of_nat (length l).
Proof.
  unfold count_results. induction l as [|r l IH]; [done|]. cbn [List.filter length].
  destruct (sr_decision r) eqn:E; rewrite ?E; repeat (case_bool_decide; try done); cbn [length]; lia.
Qed.


(** ** The dry run and production *)

(** The rules of a dry run and the entries of production stand for the same
    policies. *)
Definition same_policies (rules : list CompiledRule) (entries : list policy_entry) : Prop :=
  map (λ r, (ru_rule_id r, default "" (ru_opa_package_name r))) (List.filter (λ r, truthy (ru_opa_package_name r)) rules)
  = map (λ e, (pe_rule_id e, pe_package e)) entries.

(** The decision, the reasons and the outcomes agree on what the two outcome
    types share. *)
Definition shared_outcome (o : SandboxPolicyOutcome) (x : PolicyOutcome) : Prop :=
  so_rule_id o = po_rule_id x ∧ so_package o = po_package x ∧ so_allow o = allow x ∧ so_violations o = violations x
  ∧ so_circular_number o = po_circular_number x ∧ so_clause_number o = po_clause_number x.

Lemma reduce_agree os xs : Forall2 shared_outcome os xs → _reduce_outcomes os = _reduce xs.
Proof.
  intros H. unfold _reduce_outcomes, _reduce.
  assert (flat_map so_violations os = flat_map violations xs) as ->.
  { induction H as [|o x os xs (_ & _ & _ & E & _) _ IH]; [done|]. cbn [flat_map]. by rewrite E IH. }
  assert (map so_rule_id (List.filter (λ o, match so_allow o with None => true | _ => false end) os)
          = map po_rule_id (List.filter (λ x, match allow x with None => true | _ => false end) xs)) as ->; [|done].
  induction H as [|o x os xs (E & _ & Ea & _) _ IH]; [done|]. cbn [List.filter]. rewrite Ea.
  destruct (allow x); [done|]. cbn [map]. by rewrite E IH.
Qed.

Lemma outcomes_agree opa t rules entries :
  map (λ r, (ru_rule_id r, default "" (ru_opa_package_name r))) rules = map (λ e, (pe_rule_id e, pe_package e)) entries →
  Forall2 shared_outcome (map (sandbox_outcome opa t None) rules) (outcomes_for opa t entries).
Proof.
  revert entries. induction rules as [|r rules IH]; intros [|e entries] H; try done.
  injection H as Hi Hp Hr. cbn [map outcomes_for]. constructor; [|by apply IH].
  unfold sandbox_outcome, outcome_of, sandbox_input, input_document, shared_outcome. rewrite Hp app_nil_r.
  by destruct (opa (pe_package e) _); cbn.
Qed.

Section production.
Context {S : Type} `{PolicyLookup S}.

(** C12. A dry run predicts production: when the lookup of the evaluator
    returns the policies that the sandbox reads, and at least one, the sandbox
    and an evaluation with the kill switch off give the same decision for the
    same reasons, with the same outcome per policy; the sandbox announces a
    review exactly when the evaluation opens one. *)
Theorem sandbox_predicts_production opa ks (lookup : S) q t clock now new_id rules :
  match ks with Some k => is_active_for k (tx_broker_id t) | None => false end = false →
  same_policies rules (policies_for clock (entity_type t) lookup).2 →
  (policies_for clock (entity_type t) lookup).2 ≠ [] →
  let '(_, _, r) := evaluate_transaction opa ks lookup q t clock now new_id in
  let s := _evaluate_one opa t rules None in
  sr_decision s = decision r ∧ sr_reasons s = reasons r ∧ sr_transaction_id s = er_transaction_id r
  ∧ Forall2 shared_outcome (sr_matched_policies s) (matched_policies r)
  ∧ (sr_would_trigger_hitl s = true ↔ is_Some (hitl_case_id r)).
Proof.
  intros Hk Hsame Hne. apply (outcomes_agree opa t) in Hsame as Hout. pose proof (reduce_agree _ _ Hout) as Hred.
  unfold evaluate_transaction. rewrite Hk.
  destruct (policies_for clock (entity_type t) lookup) as [lookup' ps]. cbn [snd] in *.
  destruct ps as [|e ps]; [done|]. fold (outcomes_for opa t (e :: ps)). rewrite -Hred.
  unfold _evaluate_one. destruct (List.filter _ rules) as [|r0 rs0] eqn:E; [by inversion Hout|].
  destruct (_reduce_outcomes _) as [dec rs].
  by destruct dec; cbn [enqueue sr_decision sr_reasons sr_transaction_id sr_matched_policies sr_would_trigger_hitl decision
    reasons er_transaction_id matched_policies hitl_case_id bool_decide]; split_and!; try done; vm_compute; split; try done; intros [].
Qed.
End production.

(** ** Instances *)

(** Two tenants with a rule each; [broker_a] has one more that has no package. *)
Definition w_rule (pk : Z) (tenant rule_id : string) (package : option string) : CompiledRule :=
  RuleRow pk 1 tenant rule_id 1 (Some "package x") package None true true "approved" None None None.
Definition w_rules : list CompiledRule :=
  [w_rule 1 "broker_a" "R1" (Some "p1"); w_rule 2 "broker_b" "R9" (Some "p9"); w_rule 3 "broker_a" "R2" (Some "p2");
   w_rule 4 "broker_a" "R3" None].
Definition w_db : database := Db [] [] [] w_rules [] [] 5.
Definition w_client : Principal := MkPrincipal "client-a" [BROKER_API_CLIENT] (Some "broker_a") "jti" None [].
Definition w_sandbox : SandboxSettings := SSettings true 100 50.
Definition w_batch : SandboxBatchResult :=
  match sandbox_evaluate (opa_says (verdict_of true []) OpaUndefined) w_sandbox w_client w_db [sample_tx] with
  | Ok b => b | Raise _ => SBatch "" 0 0 0 0 [] end.


Definition w_two_rules : list CompiledRule := [w_rule 1 "broker_a" "r1" (Some "p1"); w_rule 3 "broker_a" "r2" (Some "p2")].

Lemma sandbox_predicts_production_witness :
  let '(_, _, r) := run_eval (verdict_of true []) OpaUndefined in
  let s := _evaluate_one (opa_says (verdict_of true []) OpaUndefined) sample_tx w_two_rules None in
  sr_decision s = decision r ∧ sr_reasons s = reasons r ∧ sr_transaction_id s = er_transaction_id r
  ∧ Forall2 shared_outcome (sr_matched_policies s) (matched_policies r)
  ∧ (sr_would_trigger_hitl s = true ↔ is_Some (hitl_case_id r)).
Proof.
  refine (sandbox_predicts_production (opa_says (verdict_of true []) OpaUndefined) None two_policies (Queue ∅ ∅) sample_tx
    0 noon_utc "case-1" w_two_rules eq_refl _ _); vm_compute; [reflexivity|discriminate].
Defined.

Lemma filter_all {A} (p : A → bool) l : (∀ x, p x = true) → List.filter p l = l.
Proof. intros H. induction l as [|x l IH]; [done|]. simpl. by rewrite H IH. Qed.

(** The value "__admin__" as the tenant of a broker's token opens the session
    of an administrator: every tenant's rules are in view. *)
Theorem sentinel_tenant_sees_all c d p :
  pr_roles p = [BROKER_API_CLIENT] → pr_tenant_id p = Some _ADMIN_SENTINEL → sx_enabled c = true →
  sandbox_access c p = Ok _ADMIN_SENTINEL
  ∧ ∃ view, SandboxSessionContext _ADMIN_SENTINEL d = Ok view ∧ d_rules view = d_rules d ∧ d_reviews view = d_reviews d.
Proof.
  intros Hr Ht He. split.
  - unfold sandbox_access, require_roles, _sandbox_guard. replace (has_role p sandbox_roles) with true.
    + cbn [res_bind]. rewrite He. cbn [res_bind]. unfold _resolve_tenant_id. by rewrite Ht.
    + symmetry. unfold has_role, in_roles. by rewrite Hr.
  - eexists. split; [done|]. cbn [session_view d_rules d_reviews].
    split; [apply (filter_all _ (d_rules d))|apply (filter_all _ (d_reviews d))]; reflexivity.
Qed.

(** The shared baseline is not evaluated: a rule of the shared tenant is not
    in the view of a broker. *)
Theorem baseline_rule_not_evaluated :
  _fetch_active_rules (session_view (Some "broker_a") (Db [] [] [] [w_rule 1 "sebi_baseline" "R0" (Some "p0")] [] [] 2)) = [].
Proof. reflexivity. Qed.

(** The circular number filters the page, not the query: a page of one rule
    hides the only rule of the wanted circular, which the next page shows. *)
Definition w_circular (pk : Z) (number : string) : Circular :=
  CircularRow pk "broker_a" false number None None None None None None None "" "APPROVED" None noon_utc.
Definition w_clause (pk circular : Z) : Clause :=
  ClauseRow pk circular "broker_a" (Some "1") None [] "text" "" "" None None false "ok" None.
Definition w_rule_of (pk clause : Z) : CompiledRule :=
  RuleRow pk clause "broker_a" "R" 1 None None None true true "approved" None None None.
Definition w_two_circulars : database :=
  Db [] [w_circular 1 "SEBI/1"; w_circular 2 "SEBI/2"] [w_clause 1 1; w_clause 2 2] [w_rule_of 1 1; w_rule_of 2 2] [] [] 3.

Theorem filter_after_page :
  sandbox_list_rules w_sandbox w_client w_two_circulars None (Some "SEBI/1") 1 0 = Ok []
  ∧ (∃ r, sandbox_list_rules w_sandbox w_client w_two_circulars None (Some "SEBI/1") 1 1 = Ok [r]).
Proof. split; [|eexists]; vm_compute; reflexivity. Qed.
