(* ===== verification/Diffing.v ===== *)
(** * The impact of a new circular

    [src/app/diffing/]: for every approved rule of a circular, the historical
    clause that it amends, the thresholds that the compiled policy of that
    clause enforced, what changed, how severe the change is and which services
    read the facts concerned; and the report over all of them.

    The vector index, the language model and pydantic's reading of a number
    are parameters.  The service map is the parsed [service_map.yaml]. *)
From S2P Require Import Prelude PyStr PyFloat Sha256 Json JsonFacts Datetime PyText PyRe Facts FactsFacts Taxonomy Schemas Compiler CompilerWitness DocModels DbModels.

Open Scope string_scope.
Open Scope Z_scope.
Open Scope py_scope.

(** ** [models.py] *)
Inductive MatchConfidence := IDENTICAL | NEAR_DUPLICATE | LIKELY_AMENDMENT | WEAK_MATCH | NO_MATCH.
#[export] Instance MatchConfidence_eq_dec : EqDecision MatchConfidence.
Proof. solve_decision. Defined.

Inductive ChangeType :=
| THRESHOLD_SHIFT | DEADLINE_AMENDMENT | NEW_OBLIGATION | OBLIGATION_REMOVED | ENTITY_SCOPE_CHANGE | WORDING_ONLY | UNCHANGED.
#[export] Instance ChangeType_eq_dec : EqDecision ChangeType.
Proof. solve_decision. Defined.

Definition change_value (c : ChangeType) : string :=
  match c with
  | THRESHOLD_SHIFT => "threshold_shift"
  | DEADLINE_AMENDMENT => "deadline_amendment"
  | NEW_OBLIGATION => "new_obligation"
  | OBLIGATION_REMOVED => "obligation_removed"
  | ENTITY_SCOPE_CHANGE => "entity_scope_change"
  | WORDING_ONLY => "wording_only"
  | UNCHANGED => "unchanged"
  end.

Inductive ImpactSeverity := IMPACT_LOW | IMPACT_MEDIUM | IMPACT_HIGH | IMPACT_CRITICAL.
#[export] Instance ImpactSeverity_eq_dec : EqDecision ImpactSeverity.
Proof. solve_decision. Defined.

Definition impact_value (v : ImpactSeverity) : string :=
  match v with IMPACT_LOW => "low" | IMPACT_MEDIUM => "medium" | IMPACT_HIGH => "high" | IMPACT_CRITICAL => "critical" end.

Record ThresholdDelta := Delta
  { td_field : string
  ; td_metric : string
  ; td_unit : string
  ; td_old_operator : string
  ; td_old_value : spec_float
  ; td_new_operator : string
  ; td_new_value : spec_float
  ; td_delta_absolute : option spec_float
  ; td_delta_pct : option spec_float
  ; td_tightened : option bool }.

Record ServiceImpact := Impact
  { si_service_name : string; si_endpoints : list string; si_reason : string; si_confidence : spec_float }.

Record ClauseDiffResult := DiffResult
  { cd_new_rule_id : string
  ; cd_new_clause_number : option string
  ; cd_new_circular_number : option string
  ; cd_matched_chunk_id : option string
  ; cd_matched_clause_number : option string
  ; cd_matched_circular_number : option string
  ; cd_similarity_score : option spec_float
  ; cd_match_confidence : MatchConfidence
  ; cd_change_type : ChangeType
  ; cd_severity : ImpactSeverity
  ; cd_classification_method : string
  ; cd_classification_confidence : spec_float
  ; cd_threshold_deltas : list ThresholdDelta
  ; cd_narrative_summary : string
  ; cd_service_impacts : list ServiceImpact
  ; cd_requires_hitl_review : bool }.

Record CircularImpactReport := ImpactReport
  { ir_circular_number : option string
  ; ir_regulator : string
  ; ir_total_new_clauses : Z
  ; ir_change_type_counts : list (string * Z)
  ; ir_severity_counts : list (string * Z)
  ; ir_overall_risk_level : ImpactSeverity
  ; ir_clause_diffs : list ClauseDiffResult
  ; ir_affected_services : list string
  ; ir_obligations_removed : list string }.

(** What the analysis can raise. *)
Inductive diff_error :=
| OverflowError                     (* a JSON integer too large for a float *)
| Undefined (e : compile_error)     (* a metric without a canonical fact *)
| CompletionFailed                  (* the call of the model raised *)
| NoContent.                        (* the model's content is [None] *)

(** ** [threshold_extraction.py] *)
Definition _COMPARISON_OPERATORS : list string := [">="; ">"; "<="; "<"; "=="].

Record ExtractedThreshold := Extracted
  { et_field : string; et_operator : string; et_value : spec_float; et_value_upper : option spec_float }.

Definition _var_path (node : json) : option string :=
  match node with
  | JObj kvs => match obj_get "var" kvs with Some (JStr v) => Some v | _ => None end
  | _ => None
  end.

Fixpoint _flatten_and_leaves (node : json) : list json :=
  match node with
  | JObj kvs =>
      (fix scan (l : list (string * json)) : list json :=
         match l with
         | [] => [node]
         | (k, v) :: l' =>
             if String.eqb k "and"
             then match v with JList cs => flat_map _flatten_and_leaves cs | _ => [node] end
             else scan l'
         end) kvs
  | _ => []
  end.

Definition _single_comparisons (node : json) : list (string * json) :=
  match node with
  | JObj [(op, operands)] => if existsb (String.eqb op) _COMPARISON_OPERATORS then [(op, operands)] else []
  | _ => []
  end.

(** [float(value)] when [isinstance(value, (int, float))] *)
Definition number_of (v : json) : res diff_error (option spec_float) :=
  match v with
  | JBool b => Ok (Some (float_of_Z (if b then 1 else 0)))
  | JInt z => match float_of_Z z with S754_infinity _ => Raise OverflowError | f => Ok (Some f) end
  | JFloat f => Ok (Some f)
  | _ => Ok None
  end.

(** One comparison of a leaf: its field, operator and value, if recognized. *)
Definition read_comparison (c : string * json) : res diff_error (option (string * (string * spec_float))) :=
  match c.2 with
  | JList [x; v] =>
      match _var_path x with
      | None => Ok None
      | Some field =>
          if String.eqb field "entity_type" then Ok None
          else let* n := number_of v in Ok (match n with Some f => Some (field, (c.1, f)) | None => None end)
      end
  | _ => Ok None
  end.

(** [by_field.setdefault(field, []).append(pair)] for each. *)
Definition group_by_field (cs : list (string * (string * spec_float))) : list (string * list (string * spec_float)) :=
  fold_left (λ d c, dict_append c.1 c.2 d) cs [].

Definition first_value (op : string) (pairs : list (string * spec_float)) : option spec_float :=
  snd <$> List.find (λ p, String.eqb op p.1) pairs.

(** The thresholds of one field: a pair of bounds is a range. *)
Definition field_thresholds (g : string * list (string * spec_float)) : list ExtractedThreshold :=
  let '(field, pairs) := g in
  match first_value ">=" pairs, first_value "<=" pairs with
  | Some lo, Some hi =>
      if forallb (λ p, String.eqb p.1 ">=" || String.eqb p.1 "<=") pairs && Nat.eqb (length pairs) 2
      then [Extracted field "range" lo (Some hi)]
      else map (λ p, Extracted field p.1 p.2 None) pairs
  | _, _ => map (λ p, Extracted field p.1 p.2 None) pairs
  end.

Definition extract_thresholds_from_jsonlogic (ast : json) : res diff_error (list ExtractedThreshold) :=
  let* cs := res_mapM read_comparison (flat_map _single_comparisons (_flatten_and_leaves ast)) in
  Ok (flat_map field_thresholds (group_by_field (omap id cs))).

(** ** [semantic_diff.py] *)
Definition _CONFIDENCE_BANDS : list (spec_float * MatchConfidence) :=
  [(decimal 995 3, IDENTICAL); (decimal 92 2, NEAR_DUPLICATE); (decimal 75 2, LIKELY_AMENDMENT); (decimal 55 2, WEAK_MATCH)].

Definition classify_match_confidence (similarity : spec_float) : MatchConfidence :=
  match List.find (λ b, flt_leb b.1 similarity) _CONFIDENCE_BANDS with Some b => b.2 | None => NO_MATCH end.

Record HistoricalMatch := Historical
  { hm_chunk_id : string
  ; hm_sha256 : option string
  ; hm_circular_number : option string
  ; hm_clause_number : option string
  ; hm_text : string
  ; hm_similarity : spec_float
  ; hm_confidence : MatchConfidence }.

(** A point of the index: its id, score and the keys of its payload. *)
Record point := Point
  { pt_id : string
  ; pt_score : spec_float
  ; pt_chunk_id : option string
  ; pt_sha256 : option string
  ; pt_circular_number : option string
  ; pt_clause_number : option string
  ; pt_text : option string }.

(** What the embedding and the index answer to a text: an exception, no
    collection, or the nearest points. *)
Inductive search_reply := SearchRaised | NoCollection | Points (l : list point).

Definition find_best_historical_match (search : string → search_reply) (new_clause_text : string) : option HistoricalMatch :=
  match search new_clause_text with
  | SearchRaised | NoCollection | Points [] => None
  | Points (top :: _) =>
      Some (Historical (default (pt_id top) (pt_chunk_id top)) (pt_sha256 top) (pt_circular_number top) (pt_clause_number top)
              (default "" (pt_text top)) (pt_score top) (classify_match_confidence (pt_score top)))
  end.

Definition removeprefix_facts (s : string) : string := if startswith "facts." s then sdrop 6 s else s.

(** The comprehensions [{key(t): t for t in thresholds}]. *)
Definition dict_of {A} (l : list (string * A)) : list (string * A) := fold_left (λ d kv, dict_set kv.1 kv.2 d) l [].

Definition _is_tightened (old_t : ExtractedThreshold) (new_t : NumericalThreshold) : option bool :=
  let op := op_value (operator new_t) in
  if negb (String.eqb (et_operator old_t) op) then None
  else match operator new_t with
       | GTE | GT => Some (flt_ltb (et_value old_t) (value new_t))
       | LTE | LT => Some (flt_ltb (value new_t) (et_value old_t))
       | _ => None
       end.

(** [bool(f)] *)
Definition float_truthy (f : spec_float) : bool := match f with S754_zero _ => false | _ => true end.

Definition delta_of (field : string) (old_t : ExtractedThreshold) (new_t : NumericalThreshold) : ThresholdDelta :=
  let delta_abs := if float_truthy (et_value old_t) then Some (float_sub (value new_t) (et_value old_t)) else None in
  Delta ("facts." +:+ field) (metric new_t) (unit_ new_t) (et_operator old_t) (et_value old_t)
    (op_value (operator new_t)) (value new_t) delta_abs
    ((λ d, float_mul (float_div d (et_value old_t)) (float_of_Z 100)) <$> delta_abs) (_is_tightened old_t new_t).

Definition field_of (t : NumericalThreshold) : res diff_error string :=
  match metric_field_name (metric t) (unit_ t) false with Ok f => Ok f | Raise e => Raise (Undefined e) end.

Definition diff_thresholds (new_thresholds : list NumericalThreshold) (old_thresholds : list ExtractedThreshold)
  : res diff_error (list ThresholdDelta * list string * list string) :=
  let* keyed := res_mapM (λ t, let* f := field_of t in Ok (f, t)) new_thresholds in
  let new_by_field := dict_of keyed in
  let old_by_field := dict_of (map (λ t, (removeprefix_facts (et_field t), t)) old_thresholds) in
  Ok (omap (λ '(f, t), (λ o, delta_of f o t) <$> obj_get f old_by_field) new_by_field,
      List.filter (λ f, negb (existsb (String.eqb f) (map fst old_by_field))) (map fst new_by_field),
      List.filter (λ f, negb (existsb (String.eqb f) (map fst new_by_field))) (map fst old_by_field)).

Definition _DEADLINE_UNIT_HINTS : list string := ["days"; "day"; "hours"; "hour"; "months"; "month"; "years"; "year"].
Definition _DEADLINE_METRIC_HINTS : list string :=
  ["settlement"; "deadline"; "window"; "timeline"; "notice period"; "cure period"; "reporting"].

Definition looks_like_deadline (metric unit_ : string) : bool :=
  existsb (String.eqb (lower (strip unit_))) _DEADLINE_UNIT_HINTS
  || existsb (λ hint, contains hint (lower metric)) _DEADLINE_METRIC_HINTS.

(** ** [service_mapping.py] *)
Record service_entry := ServiceEntry { se_services : list (string * list string); se_reason : string }.
Record service_map := ServiceMap { sm_by_field : list (string * service_entry); sm_by_domain : list (string * service_entry) }.

Definition sorted_set (l : list string) : list string := sorted_strs (remove_dups l).

Definition add_service (reason : string) (d : list (string * ServiceImpact)) (svc : string * list string)
  : list (string * ServiceImpact) :=
  match obj_get svc.1 d with
  | Some i => dict_set svc.1 (Impact (si_service_name i) (sorted_set (si_endpoints i ++ svc.2)) (si_reason i) (si_confidence i)) d
  | None => dict_set svc.1 (Impact svc.1 svc.2 reason (float_of_Z 1)) d
  end.

Definition resolve_service_impacts (config : service_map) (fields : list string) (domain : option string)
  : list ServiceImpact :=
  let entries := omap (λ f, obj_get (removeprefix_facts f) (sm_by_field config)) fields in
  let by_service := fold_left (λ d e, fold_left (add_service (se_reason e)) (se_services e) d) entries [] in
  let all :=
    match entries with
    | _ :: _ => by_service
    | [] =>
        if truthy domain then
          match obj_get (default "" domain) (sm_by_domain config) with
          | Some e => fold_left (λ d svc, dict_set svc.1 (Impact svc.1 svc.2 (se_reason e) (decimal 4 1)) d) (se_services e) by_service
          | None => by_service
          end
        else by_service
    end in
  map snd all.

(** ** [prompts.py] *)
Definition nl : string := String newline "".

(** [json.dumps([t.__dict__ for t in thresholds], indent=2)] *)
Definition threshold_dump (t : ExtractedThreshold) : string :=
  let item k v := "    " +:+ quote k +:+ ": " +:+ v in
  "  {" +:+ nl
  +:+ join ("," +:+ nl)
        [item "field" (quote (et_field t)); item "operator" (quote (et_operator t)); item "value" (json_float (et_value t));
         item "value_upper" (match et_value_upper t with Some f => json_float f | None => "null" end)]
  +:+ nl +:+ "  }".
Definition thresholds_dump (ts : list ExtractedThreshold) : string :=
  "[" +:+ nl +:+ join ("," +:+ nl) (map threshold_dump ts) +:+ nl +:+ "]".

Definition quoted_block (s : string) : string :=
  let q := String double_quote (String double_quote (String double_quote "")) in q +:+ nl +:+ s +:+ nl +:+ q.

(** [old_clause_text] is absent or empty when there is no match; a score is
    only formatted next to a text. *)
Definition build_classification_prompt (new_clause_text old_clause_text : string)
    (new_thresholds old_thresholds : list ExtractedThreshold) (similarity_score : spec_float) : string :=
  join (nl +:+ nl)
    (["NEW CLAUSE TEXT:" +:+ nl +:+ quoted_block new_clause_text]
     ++ [if String.eqb old_clause_text ""
         then "HISTORICAL CLAUSE TEXT: none found -- no confident semantic match in the existing Master Circular index."
         else "HISTORICAL CLAUSE TEXT (semantic match, similarity=" +:+ fmt_fixed 3 similarity_score +:+ "):" +:+ nl
              +:+ quoted_block old_clause_text]
     ++ match new_thresholds with [] => [] | ts => ["NEW extracted numeric thresholds:" +:+ nl +:+ thresholds_dump ts] end
     ++ match old_thresholds with
        | [] => []
        | ts => ["OLD (previously compiled) numeric thresholds for the matched clause:" +:+ nl +:+ thresholds_dump ts]
        end
     ++ ["Classify this change per the taxonomy in your system prompt. Output ONLY the JSON object."])%list.

(** ** [llm_classifier.py] *)
Record LLMClassificationResult := LLMResult
  { lr_change_type : ChangeType; lr_confidence : spec_float; lr_evidence_quote : string; lr_reasoning : string }.

(** The answer of the completion call: an exception, no content, or a content
    with what [json.loads] makes of it. *)
Inductive completion := Completion_raised | Completion_empty | Completion_text (parsed : option json).

Definition change_of (s : string) : option ChangeType :=
  List.find (λ c, String.eqb (change_value c) s)
    [THRESHOLD_SHIFT; DEADLINE_AMENDMENT; NEW_OBLIGATION; OBLIGATION_REMOVED; ENTITY_SCOPE_CHANGE; WORDING_ONLY; UNCHANGED].

Definition failed_classification : LLMClassificationResult :=
  LLMResult NEW_OBLIGATION (float_of_Z 0) ""
    "LLM classification call failed or returned unparseable output; defaulting to the most severe category pending human review.".

Section report.
Context (search : string → search_reply) (complete : string → completion) (as_float : json → option spec_float).
Context (config : service_map).

Definition validate_classification (data : json) : option LLMClassificationResult :=
  match data with
  | JObj kvs =>
      match obj_get "change_type" kvs ≫= (λ j, match j with JStr s => change_of s | _ => None end),
            obj_get "confidence" kvs ≫= as_float, obj_get "evidence_quote" kvs, obj_get "reasoning" kvs with
      | Some c, Some f, Some (JStr q), Some (JStr r) =>
          if flt_leb (float_of_Z 0) f && flt_leb f (float_of_Z 1) then Some (LLMResult c f q r) else None
      | _, _, _, _ => None
      end
  | _ => None
  end.

Definition classify_change_with_llm (prompt : string) : res diff_error LLMClassificationResult :=
  match complete prompt with
  | Completion_raised => Raise CompletionFailed
  | Completion_empty => Raise NoContent
  | Completion_text parsed => Ok (default failed_classification (parsed ≫= validate_classification))
  end.

(** ** [report_builder.py] *)
Definition _SEVERITY_ORDER (v : ImpactSeverity) : Z :=
  match v with IMPACT_LOW => 0 | IMPACT_MEDIUM => 1 | IMPACT_HIGH => 2 | IMPACT_CRITICAL => 3 end.
Definition _LARGE_DELTA_PCT_THRESHOLD : spec_float := float_of_Z 15.

Definition _lookup_historical_compiled_rule (db : database) (sha256 : option string) : option CompiledRule :=
  if truthy sha256 then
    List.find (λ r, ru_is_active r && bool_decide (cl_sha256 <$> clause_of db (ru_clause_id r) = sha256)) (d_rules db)
  else None.

Definition _max_severity (current candidate : ImpactSeverity) : ImpactSeverity :=
  if _SEVERITY_ORDER current <? _SEVERITY_ORDER candidate then candidate else current.

Definition large_delta (d : ThresholdDelta) : bool :=
  match td_delta_pct d with Some p => flt_leb _LARGE_DELTA_PCT_THRESHOLD (SFabs p) | None => false end.

Definition _severity_for (change_type : ChangeType) (deltas : list ThresholdDelta) : ImpactSeverity :=
  match change_type with
  | NEW_OBLIGATION | OBLIGATION_REMOVED => IMPACT_CRITICAL
  | DEADLINE_AMENDMENT => IMPACT_HIGH
  | THRESHOLD_SHIFT => if existsb large_delta deltas then IMPACT_HIGH else IMPACT_MEDIUM
  | ENTITY_SCOPE_CHANGE => IMPACT_MEDIUM
  | _ => IMPACT_LOW
  end.

Definition severe (v : ImpactSeverity) : bool := match v with IMPACT_HIGH | IMPACT_CRITICAL => true | _ => false end.

(** [f"{x:+.1f}"] *)
Definition fmt_signed1 (x : spec_float) : string :=
  match x with
  | S754_zero true | S754_infinity true | S754_finite true _ _ => ""
  | _ => "+"
  end +:+ fmt_fixed 1 x.

Definition summary_bit (d : ThresholdDelta) : string :=
  td_metric d +:+ " changed from " +:+ td_old_operator d +:+ " " +:+ float_repr (td_old_value d) +:+ td_unit d +:+ " to "
  +:+ td_new_operator d +:+ " " +:+ float_repr (td_new_value d) +:+ td_unit d
  +:+ match td_delta_pct d with Some p => " (" +:+ fmt_signed1 p +:+ "%)" | None => "" end.

(** The verdict of a structural comparison: the type of the change, what is
    told about it, its severity and whether a person reviews it. *)
Definition structural_verdict (deltas : list ThresholdDelta) (new_only removed : list string) (m : HistoricalMatch)
  : ChangeType * string * ImpactSeverity * bool :=
  match deltas, new_only, removed with
  | _ :: _, _, _ =>
      let change_type :=
        if existsb (λ d, looks_like_deadline (td_metric d) (td_unit d)) deltas then DEADLINE_AMENDMENT else THRESHOLD_SHIFT in
      let severity := _severity_for change_type deltas in
      (change_type, join "; " (map summary_bit deltas), severity, severe severity)
  | [], _ :: _, _ =>
      (NEW_OBLIGATION,
       "Matched clause " +:+ str_or (hm_clause_number m) "unscoped" +:+ " in "
       +:+ str_or (hm_circular_number m) "a prior circular"
       +:+ ", but this version adds new deterministic condition(s): " +:+ join ", " new_only +:+ ".", IMPACT_CRITICAL, true)
  | [], [], _ :: _ =>
      (OBLIGATION_REMOVED,
       "Matched clause " +:+ str_or (hm_clause_number m) "unscoped"
       +:+ ", but previously-compiled condition(s) are absent from the new text: " +:+ join ", " removed +:+ ".",
       IMPACT_CRITICAL, true)
  | [], [], [] =>
      match hm_confidence m with
      | IDENTICAL | NEAR_DUPLICATE =>
          (UNCHANGED, "No numeric threshold changes detected; matched historical clause is a near-verbatim restatement.",
           IMPACT_LOW, false)
      | _ =>
          (WORDING_ONLY, "Text differs from the matched historical clause but all numeric thresholds are unchanged.",
           IMPACT_LOW, false)
      end
  end.

(** A result for a rule with a match. *)
Definition matched_result (rule : ExtractedComplianceRule) (m : HistoricalMatch) (change_type : ChangeType)
    (severity : ImpactSeverity) (method : string) (confidence : spec_float) (deltas : list ThresholdDelta) (narrative : string)
    (impacts : list ServiceImpact) (hitl : bool) : ClauseDiffResult :=
  DiffResult (rule_id rule) (clause_number rule) (circular_number rule) (Some (hm_chunk_id m)) (hm_clause_number m)
    (hm_circular_number m) (Some (hm_similarity m)) (hm_confidence m) change_type severity method confidence deltas narrative
    impacts hitl.

Definition _classify_structurally (deltas : list ThresholdDelta) (new_only removed : list string)
    (rule : ExtractedComplianceRule) (m : HistoricalMatch) : ClauseDiffResult :=
  let fields_to_map := (map td_field deltas ++ map (λ f, "facts." +:+ f) new_only)%list in
  let '(change_type, narrative, severity, requires_hitl) := structural_verdict deltas new_only removed m in
  matched_result rule m change_type severity "structural" (decimal 95 2) deltas narrative
    (resolve_service_impacts config fields_to_map (regulatory_domain rule)) requires_hitl.

Definition trusted_match (c : MatchConfidence) : bool :=
  match c with IDENTICAL | NEAR_DUPLICATE | LIKELY_AMENDMENT => true | _ => false end.

(** [extract_thresholds_from_jsonlogic] gives nothing on an empty AST, so the
    AST that is present is read whether or not it is empty. *)
Definition historical_thresholds (r : option CompiledRule) : res diff_error (list ExtractedThreshold) :=
  match r ≫= ru_jsonlogic_ast with Some ast => extract_thresholds_from_jsonlogic ast | None => Ok [] end.

Definition new_obligation_result (rule : ExtractedComplianceRule) : res diff_error ClauseDiffResult :=
  let* fields := res_mapM field_of (deterministic_logic rule) in
  Ok (DiffResult (rule_id rule) (clause_number rule) (circular_number rule) None None None None NO_MATCH
        NEW_OBLIGATION IMPACT_CRITICAL "structural" (float_of_Z 1) []
        "No historical clause found with sufficient semantic similarity; treated as a wholly new compliance obligation."
        (resolve_service_impacts config (map (λ f, "facts." +:+ f) fields) (regulatory_domain rule)) true).

Definition llm_result (rule : ExtractedComplianceRule) (m : HistoricalMatch) (r : LLMClassificationResult) : ClauseDiffResult :=
  let severity := _severity_for (lr_change_type r) [] in
  matched_result rule m (lr_change_type r) severity "llm" (lr_confidence r) [] (lr_reasoning r)
    (resolve_service_impacts config [] (regulatory_domain rule))
    (flt_ltb (lr_confidence r) (decimal 7 1) || severe severity).

Definition _diff_one_clause (chunk : ClauseChunk) (audited : AuditedComplianceRule) (db : database)
  : res diff_error (ClauseDiffResult * option string) :=
  let rule := au_rule audited in
  match find_best_historical_match search (ck_text chunk) with
  | None => let* r := new_obligation_result rule in Ok (r, None)
  | Some m =>
      if bool_decide (hm_confidence m = NO_MATCH) then let* r := new_obligation_result rule in Ok (r, None)
      else
        let historical_sha256 := if trusted_match (hm_confidence m) then hm_sha256 m else None in
        let historical_compiled :=
          if trusted_match (hm_confidence m) then _lookup_historical_compiled_rule db historical_sha256 else None in
        let* old_thresholds := historical_thresholds historical_compiled in
        match old_thresholds, deterministic_logic rule with
        | [], [] =>
            let* r := classify_change_with_llm
                        (build_classification_prompt (ck_text chunk) (hm_text m) [] old_thresholds (hm_similarity m)) in
            Ok (llm_result rule m r, historical_sha256)
        | _, _ =>
            let* '(deltas, new_only, removed) := diff_thresholds (deterministic_logic rule) old_thresholds in
            Ok (_classify_structurally deltas new_only removed rule m, historical_sha256)
        end
  end.

(** [text[:120]] and an ellipsis *)
Definition unmatched_line (c : Clause) : string :=
  str_or (cl_clause_number c) "unscoped" +:+ ": " +:+ utake 120 (cl_text c) +:+ if 120 <? py_len (cl_text c) then "..." else "".

Definition _find_unmatched_prior_clauses (db : database) (supersedes : string) (matched : list string) : list string :=
  map unmatched_line
    (List.filter (λ c, bool_decide (ci_circular_number <$> circular_of db (cl_circular_id c) = Some supersedes)
                       && negb (existsb (String.eqb (cl_sha256 c)) matched)) (d_clauses db)).

Definition count_in {A} (key : A → string) (l : list A) : list (string * Z) :=
  fold_left (λ d x, dict_set (key x) (default 0 (obj_get (key x) d) + 1) d) l [].

Definition approved_pairs (l : list (ClauseChunk * AuditedComplianceRule)) : list (ClauseChunk * AuditedComplianceRule) :=
  List.filter (λ p, bool_decide (verdict (au_audit p.2) = APPROVED)) l.

Definition analyze_circular_impact (clauses_and_rules : list (ClauseChunk * AuditedComplianceRule)) (db : database)
    (supersedes_circular_number : option string) : res diff_error CircularImpactReport :=
  match clauses_and_rules with
  | [] => Ok (ImpactReport None "sebi" 0 [] [] IMPACT_LOW [] [] [])
  | (chunk0, audited0) :: _ =>
      let* results := res_mapM (λ p, _diff_one_clause p.1 p.2 db) (approved_pairs clauses_and_rules) in
      let diffs := map fst results in
      let matched_sha256s := List.filter (λ s, negb (String.eqb s "")) (omap snd results) in
      let obligations_removed :=
        if truthy supersedes_circular_number
        then _find_unmatched_prior_clauses db (default "" supersedes_circular_number) matched_sha256s else [] in
      let risk := fold_left (λ r d, _max_severity r (cd_severity d)) diffs IMPACT_LOW in
      Ok (ImpactReport (circular_number (au_rule audited0)) (regulator_value (ck_regulator chunk0)) (Z.of_nat (length diffs))
            (count_in (λ d, change_value (cd_change_type d)) diffs) (count_in (λ d, impact_value (cd_severity d)) diffs)
            (match obligations_removed with [] => risk | _ => _max_severity risk IMPACT_CRITICAL end) diffs
            (sorted_set (flat_map (λ d, map si_service_name (cd_service_impacts d)) diffs)) obligations_removed)
  end.
End report.

(** ** Reading a compiled policy back *)

(** The comparisons that a threshold compiles to, and what is read from them. *)
Definition threshold_comparisons (path : string) (t : NumericalThreshold) : list (string * (string * spec_float)) :=
  match operator t with
  | RANGE => [(path, (">=", value t)); (path, ("<=", default (value t) (value_upper t)))]
  | op => [(path, (op_value op, value t))]
  end.
Definition threshold_read (path : string) (t : NumericalThreshold) : ExtractedThreshold :=
  Extracted path (op_value (operator t)) (value t) (match operator t with RANGE => value_upper t | _ => None end).

(** The comparisons of an AST, in order. *)
Definition comparisons (ast : json) : res diff_error (list (option (string * (string * spec_float)))) :=
  res_mapM read_comparison (flat_map _single_comparisons (_flatten_and_leaves ast)).

Lemma res_mapM_app {E A B} (f : A → res E B) l1 l2 :
  res_mapM f (l1 ++ l2) = (let* a := res_mapM f l1 in let* b := res_mapM f l2 in Ok (a ++ b)%list).
Proof.
  induction l1 as [|x l1 IH]; simpl; [by destruct (res_mapM f l2)|].
  destruct (f x); [|done]. simpl. rewrite IH. destruct (res_mapM f l1); [|done]. simpl. by destruct (res_mapM f l2).
Qed.

Lemma comparisons_and cs oss :
  Forall2 (λ c os, comparisons c = Ok os) cs oss → comparisons (JObj [("and", JList cs)]) = Ok (concat oss).
Proof.
  unfold comparisons. cbn [_flatten_and_leaves]. change (String.eqb "and" "and") with true. cbn iota.
  induction 1 as [|c os cs oss Hc _ IH]; [done|]. cbn [flat_map]. rewrite flat_map_app res_mapM_app Hc. cbn [res_bind].
  rewrite IH. done.
Qed.

Lemma comparisons_single op path v :
  op ∈ _COMPARISON_OPERATORS → path ≠ "entity_type" →
  comparisons (JObj [(op, JList [_var path; JFloat v])]) = Ok [Some (path, (op, v))].
Proof.
  intros Hop Hne%String.eqb_neq. unfold comparisons.
  assert (read_comparison (op, JList [_var path; JFloat v]) = Ok (Some (path, (op, v)))) as E.
  { unfold read_comparison, _var_path, _var. cbn [snd fst obj_get]. change (String.eqb "var" "var") with true. cbn iota.
    by rewrite Hne. }
  assert (flat_map _single_comparisons (_flatten_and_leaves (JObj [(op, JList [_var path; JFloat v])]))
          = [(op, JList [_var path; JFloat v])]) as ->.
  { unfold _COMPARISON_OPERATORS in Hop. set_unfold in Hop. by destruct Hop as [->|[->|[->|[->|[->|[]]]]]]. }
  cbn [res_mapM]. by rewrite E.
Qed.

Lemma comparisons_threshold t c path :
  _threshold_var_path t = Ok path → path ≠ "entity_type" → _threshold_to_logic t = Ok c →
  comparisons c = Ok (map Some (threshold_comparisons path t)) ∧ (operator t = RANGE → is_Some (value_upper t)).
Proof.
  intros Hp Hne. unfold _threshold_to_logic, threshold_comparisons. rewrite Hp. cbn [res_bind].
  destruct (operator t) eqn:Eo; [intros [= <-]; split; [by apply comparisons_single; [unfold _COMPARISON_OPERATORS; set_solver|]|done]..|].
  destruct (value_upper t) as [u|]; [|done]. intros [= <-]. split; [|by eexists].
  apply (comparisons_and _ [[Some (path, (">=", value t))]; [Some (path, ("<=", u))]]).
  repeat constructor; by apply comparisons_single; [unfold _COMPARISON_OPERATORS; set_solver|].
Qed.

Lemma threshold_path_not_entity t path : _threshold_var_path t = Ok path → path ≠ "entity_type".
Proof.
  unfold _threshold_var_path. destruct (truthy _); [by intros [= <-]|]. by intros (f & _ & [= <-])%res_bind_Ok.
Qed.

Lemma comparisons_entity rule c : _entity_logic rule = Some c → ∃ os, comparisons c = Ok os ∧ omap id os = [].
Proof.
  unfold _entity_logic. destruct (rule_entities rule) as [|e [|e' es]]; [done|..]; intros [= <-].
  - by exists [None].
  - by exists [].
Qed.

Lemma omap_id_map {A} (l : list A) : omap id (map Some l) = l.
Proof. induction l as [|x l IH]; [done|]. cbn. by rewrite IH. Qed.

Lemma omap_concat {A} (ls : list (list (option A))) : omap id (concat ls) = concat (map (omap id) ls).
Proof. induction ls as [|l ls IH]; [done|]. cbn [concat map]. by rewrite omap_app IH. Qed.

(** The comparisons of a compiled rule are those of its thresholds. *)
Lemma comparisons_compiled rule r paths :
  compile_rule_to_jsonlogic rule = Ok r → res_mapM _threshold_var_path (deterministic_logic rule) = Ok paths →
  (∃ os, comparisons (logic r) = Ok os
    ∧ omap id os = concat (zip_with threshold_comparisons paths (deterministic_logic rule)))
  ∧ Forall (λ t, operator t = RANGE → is_Some (value_upper t)) (deterministic_logic rule).
Proof.
  intros Hc Hp%res_mapM_Ok. unfold compile_rule_to_jsonlogic in Hc. destruct (deterministic_logic rule) as [|t0 ts0] eqn:E; [done|].
  rewrite -E in Hc Hp |- *. apply res_bind_Ok in Hc as (cs & Hcs%res_mapM_Ok & Hc).
  apply res_bind_Ok in Hc as (schema & _ & Hc). apply res_bind_Ok in Hc as (tmpl & _ & [= <-]). cbn [logic].
  assert (∃ oss, Forall2 (λ c os, comparisons c = Ok os) cs oss
    ∧ concat (map (omap id) oss) = concat (zip_with threshold_comparisons paths (deterministic_logic rule))
    ∧ Forall (λ t, operator t = RANGE → is_Some (value_upper t)) (deterministic_logic rule)) as (oss & Ho & Hmap & Hup).
  { clear E. revert cs Hcs. induction Hp as [|t p ts ps Hp _ IH]; intros cs Hcs; inversion Hcs as [|? c ? cs' Hc Hcs']; subst.
    - exists []. split_and!; [constructor|done|constructor].
    - destruct (IH _ Hcs') as (oss & Ho & Hm & Hf).
      destruct (comparisons_threshold _ _ _ Hp (threshold_path_not_entity _ _ Hp) Hc) as [Hc1 Hc2].
      exists (map Some (threshold_comparisons p t) :: oss). split_and!; [by constructor| |by constructor].
      cbn [map concat zip_with]. by rewrite omap_id_map Hm. }
  split; [|done].
  assert (∃ oss', Forall2 (λ c os, comparisons c = Ok os) (match _entity_logic rule with Some c => [c] | None => [] end ++ cs) oss'
    ∧ concat (map (omap id) oss') = concat (map (omap id) oss)) as (oss' & Ho' & Hm').
  { destruct (_entity_logic rule) as [c|] eqn:Ee; [|by exists oss].
    destruct (comparisons_entity _ _ Ee) as (os & H1 & H2). exists (os :: oss).
    split; [by constructor|]. cbn [map concat]. by rewrite H2. }
  rewrite -Hmap -Hm'. destruct (_ ++ cs)%list as [|c [|c' l]].
  - inversion Ho'; subst. by exists [].
  - inversion Ho' as [|? os ? ? H1 H2]; subst. inversion H2; subst. exists os. split; [done|].
    cbn [map concat]. by rewrite app_nil_r.
  - exists (concat oss'). split; [by apply comparisons_and|apply omap_concat].
Qed.

(** *** Grouping by field *)
Lemma dict_append_new {A} k (v : A) d : k ∉ map fst d → dict_append k v d = (d ++ [(k, [v])])%list.
Proof.
  induction d as [|[k' vs] d IH]; [done|]. cbn [map fst dict_append app]. intros [Hk Hd]%not_elem_of_cons.
  rewrite (proj2 (String.eqb_neq k k') Hk). by rewrite IH.
Qed.

Lemma dict_append_last {A} k (v : A) vs d : k ∉ map fst d → dict_append k v (d ++ [(k, vs)]) = (d ++ [(k, vs ++ [v])])%list.
Proof.
  induction d as [|[k' vs'] d IH]; cbn [map fst dict_append app].
  - by rewrite String.eqb_refl.
  - intros [Hk Hd]%not_elem_of_cons. rewrite (proj2 (String.eqb_neq k k') Hk). by rewrite IH.
Qed.

Definition append_comparison (d : list (string * list (string * spec_float))) (c : string * (string * spec_float)) :=
  dict_append c.1 c.2 d.

Lemma group_threshold p t d :
  p ∉ map fst d → fold_left append_comparison (threshold_comparisons p t) d = (d ++ [(p, map snd (threshold_comparisons p t))])%list.
Proof.
  intros Hp. unfold threshold_comparisons, append_comparison.
  destruct (operator t); cbn [fold_left map fst snd]; rewrite (dict_append_new _ _ d) //.
  by rewrite (dict_append_last p).
Qed.

Lemma group_thresholds paths ts d :
  NoDup paths → (∀ p, p ∈ paths → p ∉ map fst d) → length paths = length ts →
  fold_left append_comparison (concat (zip_with threshold_comparisons paths ts)) d
  = (d ++ zip_with (λ p t, (p, map snd (threshold_comparisons p t))) paths ts)%list.
Proof.
  intros Hnd. revert ts d. induction Hnd as [|p paths Hp _ IH]; intros [|t ts] d Hd Hl; try done; cbn [zip_with concat].
  - by rewrite app_nil_r.
  - rewrite fold_left_app group_threshold; [|apply Hd; left]. rewrite IH; [by rewrite -app_assoc| |by injection Hl].
    intros q Hq. rewrite map_app not_elem_of_app. split; [apply Hd; by right|]. cbn. rewrite list_elem_of_singleton. by intros ->.
Qed.

Lemma field_thresholds_read p t :
  (operator t = RANGE → is_Some (value_upper t)) →
  field_thresholds (p, map snd (threshold_comparisons p t)) = [threshold_read p t].
Proof.
  intros Hup. unfold threshold_comparisons, threshold_read. destruct (operator t); try reflexivity.
  destruct Hup as [u Hu]; [done|]. by rewrite Hu.
Qed.

(** C15. A compiled policy can be read back: when the thresholds of a rule are
    about distinct facts, the extraction from the compiled AST returns exactly
    those thresholds, in order, each with its field, operator and bounds; the
    entity guard adds nothing and a range comes back as one range. *)
Theorem extract_compiled_roundtrip rule r paths :
  compile_rule_to_jsonlogic rule = Ok r → res_mapM _threshold_var_path (deterministic_logic rule) = Ok paths → NoDup paths →
  extract_thresholds_from_jsonlogic (logic r) = Ok (zip_with threshold_read paths (deterministic_logic rule)).
Proof.
  intros Hc Hp Hnd. destruct (comparisons_compiled _ _ _ Hc Hp) as [(os & Ho & Hm) Hup].
  unfold extract_thresholds_from_jsonlogic. fold (comparisons (logic r)). rewrite Ho. cbn [res_bind]. f_equal.
  rewrite Hm. unfold group_by_field. change (λ d c, dict_append c.1 c.2 d) with append_comparison.
  apply res_mapM_Ok, Forall2_length in Hp.
  rewrite (group_thresholds paths (deterministic_logic rule) [] Hnd); [|set_solver|done]. cbn [app].
  clear Hc Hm Ho Hnd. revert paths Hp. induction Hup as [|t ts Ht _ IH]; intros [|p paths] Hp; try done.
  cbn [zip_with flat_map]. rewrite field_thresholds_read // IH //. by injection Hp.
Qed.

(** ** Comparing thresholds *)
Lemma dict_of_fold_keys {A} (l : list (string * A)) d x :
  x ∈ map fst (fold_left (λ d kv, dict_set kv.1 kv.2 d) l d) ↔ x ∈ map fst l ∨ x ∈ map fst d.
Proof.
  revert d. induction l as [|[k v] l IH]; intros d; cbn [fold_left map fst snd]; [set_solver|].
  rewrite IH dict_set_keys. set_solver.
Qed.

Lemma dict_of_keys {A} (l : list (string * A)) x : x ∈ map fst (dict_of l) ↔ x ∈ map fst l.
Proof. unfold dict_of. rewrite dict_of_fold_keys. set_solver. Qed.

Lemma dict_of_elem {A} (l : list (string * A)) x : x ∈ dict_of l → x ∈ l.
Proof.
  assert (∀ d, x ∈ fold_left (λ d kv, dict_set kv.1 kv.2 d) l d → x ∈ l ∨ x ∈ d) as H; [|unfold dict_of; intros Hx; destruct (H [] Hx); set_solver].
  induction l as [|[k v] l IH]; intros d; cbn [fold_left fst snd]; [tauto|]. intros [H|H%dict_set_elem]%IH; set_solver.
Qed.

Lemma obj_get_keys {A} k (d : list (string * A)) : is_Some (obj_get k d) ↔ k ∈ map fst d.
Proof.
  induction d as [|[k' v] d IH]; cbn [obj_get map fst]; [split; [by intros []|set_solver]|].
  destruct (String.eqb_spec k k') as [->|]; [split; [set_solver|eauto]|]. rewrite IH. set_solver.
Qed.

Lemma facts_prefix_inj f g : "facts." +:+ f = "facts." +:+ g → f = g.
Proof. cbn. by intros [= ->]. Qed.

(** The old field that a threshold is compared under. *)
Definition old_field (o : ExtractedThreshold) : string := removeprefix_facts (et_field o).

Section partition.
Context (new : list NumericalThreshold) (old : list ExtractedThreshold).
Context (ds : list ThresholdDelta) (no rm : list string) (Hdiff : diff_thresholds new old = Ok (ds, no, rm)).

Lemma diff_fields :
  ∃ fs, res_mapM field_of new = Ok fs
    ∧ (∀ f, f ∈ no ↔ f ∈ fs ∧ f ∉ map old_field old)
    ∧ (∀ f, f ∈ rm ↔ f ∈ map old_field old ∧ f ∉ fs)
    ∧ (∀ f, ("facts." +:+ f) ∈ map td_field ds ↔ f ∈ fs ∧ f ∈ map old_field old).
Proof.
  unfold diff_thresholds in Hdiff. apply res_bind_Ok in Hdiff as (keyed & Hk & Hd).
  assert (res_mapM field_of new = Ok (map fst keyed)) as Hfs.
  { clear Hd. revert keyed Hk. induction new as [|t ts IH]; intros keyed Hk; cbn [res_mapM] in *; [by injection Hk as <-|].
    destruct (field_of t) as [f|]; [|done]. cbn [res_bind] in Hk. apply res_bind_Ok in Hk as (ks & Hks & [= <-]).
    by rewrite (IH _ Hks). }
  set (oldd := dict_of _) in Hd. injection Hd as <- <- <-.
  assert (Ho : ∀ f, f ∈ map fst oldd ↔ f ∈ map old_field old).
  { intros f. unfold oldd. rewrite dict_of_keys map_map. done. }
  exists (map fst keyed). split; [done|]. split_and!; intros f.
  - rewrite filter_elem negb_true_iff -not_true_iff_false existsb_eqb_elem Ho. by rewrite dict_of_keys.
  - rewrite filter_elem negb_true_iff -not_true_iff_false existsb_eqb_elem Ho. by rewrite dict_of_keys.
  - rewrite -Ho -(dict_of_keys keyed). split.
    + intros (d & Hd & (kt & Hin & Hsome)%list_elem_of_omap)%list_elem_of_fmap. destruct kt as [g t].
      apply fmap_Some in Hsome as (o & Ho' & ->). apply facts_prefix_inj in Hd as ->.
      split; [apply list_elem_of_fmap; by exists (g, t)|]. apply obj_get_keys. eauto.
    + intros [([g t] & -> & Hin)%list_elem_of_fmap [o Ho']%obj_get_keys]. cbn [fst] in *.
      apply list_elem_of_fmap. exists (delta_of g o t). split; [done|]. apply list_elem_of_omap. exists (g, t). by rewrite Ho'.
Qed.
End partition.

(** The comparison [x op v] of a policy with the threshold [v]. *)
Definition satisfies (op : ComparisonOperator) (v x : spec_float) : bool :=
  match op with
  | GTE => flt_leb v x | GT => flt_ltb v x | LTE => flt_leb x v | LT => flt_ltb x v | EQ => flt_eqb x v | RANGE => false
  end.

Lemma flt_lt_trans a b c : flt_ltb a b = true → flt_ltb b c = true → flt_ltb a c = true.
Proof.
  unfold flt_ltb, num_ltb, num_compare. intros H1 H2.
  destruct (xcompare (num_val (PFlt a)) (num_val (PFlt b))) as [[]|] eqn:E1; try done.
  destruct (xcompare (num_val (PFlt b)) (num_val (PFlt c))) as [[]|] eqn:E2; try done.
  by rewrite (xcompare_lt_trans _ _ _ E1 E2).
Qed.

Lemma flt_lt_le a b : flt_ltb a b = true → flt_leb a b = true.
Proof.
  unfold flt_ltb, flt_leb, num_ltb, num_leb. by destruct (num_compare _ _) as [[]|].
Qed.

Lemma flt_le_trans a b c : flt_leb a b = true → flt_leb b c = true → flt_leb a c = true.
Proof. apply num_leb_le_trans. Qed.

(** A threshold reported as tightened is one: it has the old operator, and
    whatever satisfies the new threshold satisfies the old one. *)
Lemma tightened_is_stricter o t x :
  _is_tightened o t = Some true →
  et_operator o = op_value (operator t)
  ∧ (satisfies (operator t) (value t) x = true → satisfies (operator t) (et_value o) x = true).
Proof.
  unfold _is_tightened. destruct (String.eqb_spec (et_operator o) (op_value (operator t))) as [E|]; [|done]. cbn [negb].
  intros H. split; [done|]. revert H. destruct (operator t); cbn [satisfies]; try done; intros [= H] Hx;
    eauto using flt_lt_trans, flt_le_trans, flt_lt_le.
Qed.

Lemma diff_accounts_nil new old ds no rm :
  diff_thresholds new old = Ok (ds, no, rm) → ds ≠ [] ∨ no ≠ [] ∨ rm ≠ [] ∨ (old = [] ∧ new = []).
Proof.
  intros Hd. destruct (diff_fields _ _ _ _ _ Hd) as (fs & Hfs & Hno & Hrm & Hds).
  destruct ds; [|by left]. destruct no; [|by right; left]. destruct rm; [|by right; right; left]. right; right; right.
  assert (Hall : ∀ f, (f ∈ fs → f ∉ map old_field old → False) ∧ (f ∈ map old_field old → f ∉ fs → False)
                      ∧ (f ∈ fs → f ∈ map old_field old → False)).
  { intros f. split_and!; intros H1 H2.
    - by assert (f ∈ []) as ?%elem_of_nil by (apply Hno; auto).
    - by assert (f ∈ []) as ?%elem_of_nil by (apply Hrm; auto).
    - by assert (("facts." +:+ f) ∈ map td_field []) as ?%elem_of_nil by (apply Hds; auto). }
  apply res_mapM_Ok in Hfs. destruct old as [|o old]; [destruct new as [|t new]; [done|]|].
  - inversion Hfs as [|? f ? fs' _ _]; subst. exfalso. apply (Hall f); set_solver.
  - exfalso. destruct (Hall (old_field o)) as (_ & H2 & H3).
    destruct (decide (old_field o ∈ fs)); [apply H3|apply H2]; set_solver.
Qed.

(** The comparison of a rule with a compiled policy accounts for every
    field once: a field of the new rule is either compared or reported as new,
    a field of the old policy is either compared or reported as removed; only
    two empty sides have nothing to report; and a change reported as
    tightening is one, whatever satisfies the new threshold satisfied the old. *)
Theorem diff_accounts_for_fields new old ds no rm :
  diff_thresholds new old = Ok (ds, no, rm) →
  (∀ t, t ∈ new → ∃ f, field_of t = Ok f
     ∧ ((("facts." +:+ f) ∈ map td_field ds ∧ f ∉ no) ∨ (f ∈ no ∧ ("facts." +:+ f) ∉ map td_field ds)))
  ∧ (∀ o, o ∈ old →
       (("facts." +:+ old_field o) ∈ map td_field ds ∧ old_field o ∉ rm)
       ∨ (old_field o ∈ rm ∧ ("facts." +:+ old_field o) ∉ map td_field ds))
  ∧ (ds = [] → no = [] → rm = [] → new = [] ∧ old = [])
  ∧ (∀ d, d ∈ ds → td_tightened d = Some true →
       ∃ t o, t ∈ new ∧ o ∈ old ∧ td_new_value d = value t ∧ td_old_value d = et_value o
         ∧ et_operator o = op_value (operator t)
         ∧ ∀ x, satisfies (operator t) (value t) x = true → satisfies (operator t) (et_value o) x = true).
Proof.
  intros Hd. destruct (diff_fields _ _ _ _ _ Hd) as (fs & Hfs & Hno & Hrm & Hds).
  assert (Hnew : ∀ t, t ∈ new → ∃ f, field_of t = Ok f ∧ f ∈ fs).
  { intros t (i & Hi)%list_elem_of_lookup. apply res_mapM_Ok in Hfs.
    destruct (Forall2_lookup_l _ _ _ _ _ Hfs Hi) as (f & Hf & E). eauto using list_elem_of_lookup_2. }
  split_and!.
  - intros t Ht. destruct (Hnew t Ht) as (f & Ef & Hf). exists f. split; [done|]. rewrite Hno Hds.
    destruct (decide (f ∈ map old_field old)); naive_solver.
  - intros o Ho. assert (old_field o ∈ map old_field old) by (apply list_elem_of_fmap; eauto). rewrite Hrm Hds.
    destruct (decide (old_field o ∈ fs)); naive_solver.
  - intros -> -> ->. destruct (diff_accounts_nil _ _ _ _ _ Hd) as [|[|[|[-> ->]]]]; done.
  - intros d Hin Ht. unfold diff_thresholds in Hd. apply res_bind_Ok in Hd as (keyed & Hk & Hd). injection Hd as <- _ _.
    apply list_elem_of_omap in Hin as ([f t] & Hft & (o & Ho & ->)%fmap_Some). cbn [delta_of td_tightened] in Ht.
    exists t, o. apply obj_get_in, dict_of_elem in Ho. apply dict_of_elem in Hft.
    split_and!; try done.
    + apply res_mapM_Ok in Hk. apply list_elem_of_lookup in Hft as (i & Hi).
      destruct (Forall2_lookup_r _ _ _ _ _ Hk Hi) as (t' & Ht' & E). apply res_bind_Ok in E as (g & _ & [= _ <-]).
      eauto using list_elem_of_lookup_2.
    + apply list_elem_of_fmap in Ho as (o' & [= _ ->] & Ho). done.
    + by apply (tightened_is_stricter o t (value t)).
    + intros x. by apply tightened_is_stricter.
Qed.

(** ** The report *)
Lemma max_severity_le a b c :
  _SEVERITY_ORDER (_max_severity a b) ≤ c ↔ _SEVERITY_ORDER a ≤ c ∧ _SEVERITY_ORDER b ≤ c.
Proof. unfold _max_severity. destruct (Z.ltb_spec (_SEVERITY_ORDER a) (_SEVERITY_ORDER b)); lia. Qed.

Lemma max_severity_either a b : _max_severity a b = a ∨ _max_severity a b = b.
Proof. unfold _max_severity. destruct (_ <? _); auto. Qed.

Lemma max_severity_critical a : _max_severity a IMPACT_CRITICAL = IMPACT_CRITICAL.
Proof. by destruct a. Qed.

Lemma fold_severity_bound l r d :
  d ∈ l → _SEVERITY_ORDER (cd_severity d) ≤ _SEVERITY_ORDER (fold_left (λ r d, _max_severity r (cd_severity d)) l r).
Proof.
  assert (∀ l r, _SEVERITY_ORDER r ≤ _SEVERITY_ORDER (fold_left (λ r d, _max_severity r (cd_severity d)) l r)) as Hmono.
  { clear. induction l as [|d l IH]; intros r; cbn [fold_left]; [lia|]. etrans; [|apply IH].
    by apply (proj1 (max_severity_le r (cd_severity d) _)). }
  revert r. induction l as [|x l IH]; intros r; [set_solver|]. cbn [fold_left]. intros [->|H]%elem_of_cons; [|by apply IH].
  etrans; [|apply Hmono]. by apply (proj1 (max_severity_le r (cd_severity x) _)).
Qed.

Lemma fold_severity_source l r :
  let m := fold_left (λ r d, _max_severity r (cd_severity d)) l r in m = r ∨ ∃ d, d ∈ l ∧ cd_severity d = m.
Proof.
  revert r. induction l as [|x l IH]; intros r; cbn [fold_left]; [by left|].
  destruct (IH (_max_severity r (cd_severity x))) as [->|(d & Hd & E)]; [|right; exists d; split; [by right|done]].
  destruct (max_severity_either r (cd_severity x)) as [->|E]; [by left|]. right. exists x. split; [left|by rewrite E].
Qed.

Lemma sorted_set_elem x l : x ∈ sorted_set l ↔ x ∈ l.
Proof.
  unfold sorted_set, sorted_strs. rewrite -(elem_of_remove_dups l). rewrite !list_elem_of_fmap. split.
  - intros ([y u] & -> & H). rewrite sort_items_perm in H. apply list_elem_of_fmap in H as (z & [= <- _] & H). done.
  - intros H. exists (x, tt). split; [done|]. rewrite sort_items_perm. apply list_elem_of_fmap. eauto.
Qed.

Section impact.
Context (search : string → search_reply) (complete : string → completion) (as_float : json → option spec_float).
Context (config : service_map) (db : database).

(** What every verdict about a clause satisfies: it is about the rule; what is
    severe goes to a person, and so does a model's verdict without confidence;
    an obligation that appears or disappears is critical. *)
Definition verdict_ok (rule : ExtractedComplianceRule) (r : ClauseDiffResult) : Prop :=
  cd_new_rule_id r = rule_id rule
  ∧ (severe (cd_severity r) = true → cd_requires_hitl_review r = true)
  ∧ (cd_classification_method r = "llm" → flt_ltb (cd_classification_confidence r) (decimal 7 1) = true →
     cd_requires_hitl_review r = true)
  ∧ (cd_change_type r = NEW_OBLIGATION ∨ cd_change_type r = OBLIGATION_REMOVED → cd_severity r = IMPACT_CRITICAL).

Lemma structural_ok ds no rm rule m : verdict_ok rule (_classify_structurally config ds no rm rule m).
Proof.
  unfold _classify_structurally, structural_verdict, verdict_ok, matched_result.
  destruct ds as [|d ds]; [destruct no as [|n no]; [destruct rm as [|n rm]; [destruct (hm_confidence m)|]|]|];
    cbn [cd_new_rule_id cd_severity cd_requires_hitl_review cd_classification_method cd_change_type]; try by split_and!; try naive_solver.
  destruct (existsb _ (d :: ds)); split_and!; try done; naive_solver.
Qed.

Lemma llm_ok rule m l : verdict_ok rule (llm_result config rule m l).
Proof.
  unfold llm_result, verdict_ok, matched_result.
  cbn [cd_new_rule_id cd_severity cd_requires_hitl_review cd_classification_method cd_classification_confidence cd_change_type].
  split_and!; [done|by intros ->; rewrite orb_true_r|by intros _ ->|]. by intros [->| ->].
Qed.

Lemma diff_one_ok chunk audited r s :
  _diff_one_clause search complete as_float config chunk audited db = Ok (r, s) → verdict_ok (au_rule audited) r.
Proof.
  assert (∀ r, new_obligation_result config (au_rule audited) = Ok r → verdict_ok (au_rule audited) r) as Hnew.
  { intros r' (fs & _ & [= <-])%res_bind_Ok. unfold verdict_ok. by cbn. }
  unfold _diff_one_clause. destruct (find_best_historical_match _ _) as [m|].
  2: { intros (r' & Hr & [= <- <-])%res_bind_Ok. by apply Hnew. }
  destruct (bool_decide _). { intros (r' & Hr & [= <- <-])%res_bind_Ok. by apply Hnew. }
  intros (old & _ & H)%res_bind_Ok.
  assert (∀ X, (X = let* '(ds, no, rm) := diff_thresholds (deterministic_logic (au_rule audited)) old in
      Ok (_classify_structurally config ds no rm (au_rule audited) m,
          if trusted_match (hm_confidence m) then hm_sha256 m else None)) → X = Ok (r, s) → verdict_ok (au_rule audited) r) as Hs.
  { intros X -> ([[ds no] rm] & _ & [= <- _])%res_bind_Ok. apply structural_ok. }
  destruct old, (deterministic_logic (au_rule audited)); try (eapply Hs; [reflexivity|exact H]).
  apply res_bind_Ok in H as (l & _ & [= <- _]). apply llm_ok.
Qed.

(** The results of the approved rules, in order. *)
Lemma analyze_inv l sup rep :
  analyze_circular_impact search complete as_float config l db sup = Ok rep → l ≠ [] →
  ∃ results, res_mapM (λ p, _diff_one_clause search complete as_float config p.1 p.2 db) (approved_pairs l) = Ok results
    ∧ ir_clause_diffs rep = map fst results
    ∧ ir_total_new_clauses rep = Z.of_nat (length results)
    ∧ ir_obligations_removed rep
      = (if truthy sup
         then _find_unmatched_prior_clauses db (default "" sup) (List.filter (λ s, negb (String.eqb s "")) (omap snd results))
         else [])
    ∧ ir_overall_risk_level rep
      = (let risk := fold_left (λ r d, _max_severity r (cd_severity d)) (map fst results) IMPACT_LOW in
         match ir_obligations_removed rep with [] => risk | _ => _max_severity risk IMPACT_CRITICAL end)
    ∧ ir_affected_services rep = sorted_set (flat_map (λ d, map si_service_name (cd_service_impacts d)) (map fst results)).
Proof.
  unfold analyze_circular_impact. destruct l as [|[chunk0 audited0] l']; [done|].
  intros (results & Hr & [= <-])%res_bind_Ok _. exists results. split; [done|].
  by cbn [ir_clause_diffs ir_total_new_clauses ir_obligations_removed ir_overall_risk_level ir_affected_services]; rewrite length_map.
Qed.


Lemma structural_changed ds no rm rule m :
  ds ≠ [] ∨ no ≠ [] ∨ rm ≠ [] →
  cd_change_type (_classify_structurally config ds no rm rule m) ≠ UNCHANGED
  ∧ cd_change_type (_classify_structurally config ds no rm rule m) ≠ WORDING_ONLY.
Proof.
  unfold _classify_structurally, structural_verdict. intros H.
  destruct ds as [|d ds]; [destruct no; [destruct rm|]|]; try done; [naive_solver|].
  by destruct (existsb (λ d, looks_like_deadline (td_metric d) (td_unit d)) (d :: ds)).
Qed.

(** A structural comparison never finds a clause unchanged: fields on both
    sides are reported as changed whatever their values are, so a verbatim
    reprint of a rule with thresholds is a threshold shift or a deadline
    amendment. *)
Theorem structural_never_unchanged chunk audited r s :
  _diff_one_clause search complete as_float config chunk audited db = Ok (r, s) →
  cd_classification_method r = "structural" → cd_change_type r ≠ UNCHANGED ∧ cd_change_type r ≠ WORDING_ONLY.
Proof.
  assert (∀ r, new_obligation_result config (au_rule audited) = Ok r → cd_change_type r = NEW_OBLIGATION) as Hnew.
  { by intros r' (fs & _ & [= <-])%res_bind_Ok. }
  unfold _diff_one_clause. destruct (find_best_historical_match _ _) as [m|].
  2: { intros (r' & Hr & [= <- <-])%res_bind_Ok _. by rewrite (Hnew _ Hr). }
  destruct (bool_decide _). { intros (r' & Hr & [= <- <-])%res_bind_Ok _. by rewrite (Hnew _ Hr). }
  intros (old & _ & H)%res_bind_Ok.
  destruct (decide (old = [] ∧ deterministic_logic (au_rule audited) = [])) as [[-> E]|Hne].
  { rewrite E in H. apply res_bind_Ok in H as (l & _ & [= <- _]). done. }
  assert ((let* '(ds, no, rm) := diff_thresholds (deterministic_logic (au_rule audited)) old in
      Ok (_classify_structurally config ds no rm (au_rule audited) m,
          if trusted_match (hm_confidence m) then hm_sha256 m else None)) = Ok (r, s)) as H'.
  { destruct old, (deterministic_logic (au_rule audited)); try done. exfalso; auto. }
  apply res_bind_Ok in H' as ([[ds no] rm] & Hd & [= <- _]). intros _.
  apply structural_changed. destruct (diff_accounts_nil _ _ _ _ _ Hd) as [|[|[|]]]; tauto.
Qed.
End impact.

(** ** Instances *)

(** A clause of an old circular with an active rule; the new circular prints
    the rule again, and the old one has a clause that it drops. *)
Definition w_logic : json :=
  match compile_rule_to_jsonlogic margin_rule with Ok r => logic r | Raise _ => JNull end.
Definition w_old_circular : Circular :=
  CircularRow 1 "sebi_baseline" true "SEBI/OLD" None None None None None None None "" "APPROVED" None some_time.
Definition w_old_clause (pk : Z) (sha256 : string) : Clause :=
  ClauseRow pk 1 "sebi_baseline" (Some "4.1") None [] "text" "Old text" sha256 None None false "ok" None.
Definition w_history : database :=
  Db [] [w_old_circular] [w_old_clause 1 "aa"; w_old_clause 2 "bb"]
    [RuleRow 1 1 "sebi_baseline" "R1" 1 None None (Some w_logic) true true "approved" None None None] [] [] 2.
Definition w_search (_ : string) : search_reply :=
  Points [Point "1" (float_of_Z 1) (Some "c1") (Some "aa") (Some "SEBI/OLD") (Some "4.1") (Some "Old text")].
Definition w_chunk : ClauseChunk :=
  Chunk "c1" "cafe" "Old text" (Some "4.1") [] None None None [] false None None None None None None SEBI CIRCULAR [].
Definition w_services : service_map :=
  ServiceMap [("upfront_margin_pct", ServiceEntry [("margin-engine-service", ["POST /v1/margin/calculate"])] "margin")] [].
Definition w_report : CircularImpactReport :=
  match analyze_circular_impact w_search (λ _, Completion_raised) (λ _, None) w_services [(w_chunk, approve margin_rule)]
          w_history (Some "SEBI/OLD") with
  | Ok r => r | Raise _ => ImpactReport None "" 0 [] [] IMPACT_LOW [] [] [] end.

Lemma extract_compiled_roundtrip_witness :
  extract_thresholds_from_jsonlogic w_logic
  = Ok [Extracted "facts.upfront_margin_pct" ">=" (float_of_Z 20) None;
        Extracted "facts.peak_margin" "range" (float_of_Z 10) (Some (float_of_Z 50))].
Proof.
  destruct (compile_rule_to_jsonlogic margin_rule) as [r|] eqn:E; [|vm_compute in E; discriminate].
  replace w_logic with (logic r) by (unfold w_logic; by rewrite E).
  apply (extract_compiled_roundtrip margin_rule r ["facts.upfront_margin_pct"; "facts.peak_margin"] E);
    [vm_compute; reflexivity|]. apply (bool_decide_eq_true_1 _). vm_compute. reflexivity.
Defined.

(** The diff of the rule against its own compiled form. *)
Definition w_read : list ExtractedThreshold :=
  match extract_thresholds_from_jsonlogic w_logic with Ok l => l | Raise _ => [] end.
Definition w_diff : list ThresholdDelta * list string * list string :=
  match diff_thresholds (deterministic_logic margin_rule) w_read with Ok d => d | Raise _ => ([], [], []) end.

Lemma diff_accounts_for_fields_witness :
  map td_field w_diff.1.1 = ["facts.upfront_margin_pct"; "facts.peak_margin"]
  ∧ (w_diff.1.1 = [] → w_diff.1.2 = [] → w_diff.2 = [] → deterministic_logic margin_rule = [] ∧ w_read = []).
Proof.
  split; [vm_compute; reflexivity|].
  apply (diff_accounts_for_fields (deterministic_logic margin_rule) w_read w_diff.1.1 w_diff.1.2 w_diff.2).
  vm_compute. reflexivity.
Defined.


(** The reprint is reported as a shift although nothing moved. *)
Theorem reprint_reported_as_shift :
  map (λ d, (cd_match_confidence d, cd_change_type d)) (ir_clause_diffs w_report) = [(IDENTICAL, THRESHOLD_SHIFT)]
  ∧ map td_delta_absolute w_diff.1.1 = [Some (float_of_Z 0); Some (float_of_Z 0)].
Proof. split; vm_compute; reflexivity. Qed.

(** A weak match of a rule with thresholds is not read by the model: it is a
    new obligation, whatever the model would say. *)
Theorem weak_match_not_read_by_model complete as_float r s :
  _diff_one_clause (λ _, Points [Point "1" (decimal 6 1) None None None None None]) complete as_float w_services w_chunk
    (approve margin_rule) w_history = Ok (r, s) → cd_match_confidence r = WEAK_MATCH ∧ cd_change_type r = NEW_OBLIGATION.
Proof. intros H. vm_compute in H. by injection H as <- <-. Qed.

(** A clause without thresholds whose match has none either makes the report
    fail when the call of the model raises. *)
Theorem failed_call_fails_report as_float :
  analyze_circular_impact (λ _, Points [Point "1" (decimal 6 1) None None None None None]) (λ _, Completion_raised) as_float
    w_services [(w_chunk, approve (mk_rule [] []))] w_history None = Raise CompletionFailed.
Proof. vm_compute. reflexivity. Qed.
