(* ===== verification/Cdc.v ===== *)
(** * The change-data-capture stream

    [src/cdc/normalizer.py], [consumer.py] and [dlq_handler.py]: rows of a
    broker's legacy database arrive as Debezium events, are turned into
    transactions and posted for evaluation; what cannot be turned or posted is
    dead-lettered.  Kafka, the evaluation endpoint and the alert endpoint are
    the environment of a step; [datetime.fromisoformat] and [strptime] on the
    SQL format are parameters, and so is [hash] of a string, which Python
    salts per process. *)
From S2P Require Import Prelude PyStr PyFloat Sha256 Json Datetime JsonLogic ExecModels Governance Policies DbModels Security JsonFacts.

Open Scope string_scope.
Open Scope Z_scope.
Open Scope py_scope.

(** ** Numbers from text: [float(s)] and [int(s)] *)

(** A run of digits, with single underscores between them left out. *)
Fixpoint digit_run (s : string) : string * string :=
  match s with
  | String c s' =>
      if is_digit c then let (d, r) := digit_run s' in (String c d, r)
      else if Ascii.eqb c "_" then
        match s' with
        | String c' _ => if is_digit c' then digit_run s' else ("", s)
        | "" => ("", s)
        end
      else ("", s)
  | "" => ("", "")
  end.
Definition digits (s : string) : string * string := if startswith "_" s then ("", s) else digit_run s.

Definition sign_of (s : string) : bool * string :=
  if startswith "-" s then (true, sdrop 1 s) else if startswith "+" s then (false, sdrop 1 s) else (false, s).

Definition int_of_text (s : string) : option Z :=
  let '(neg, body) := sign_of (strip s) in
  match digits body with
  | (String c d, "") => let n := digits_value 0 (String c d) in Some (if neg then - n else n)
  | _ => None
  end.

(** [n * 10^k], rounded once. *)
Definition float_of_decimal (neg : bool) (n k : Z) : spec_float :=
  let abs := if n =? 0 then S754_zero false else if 0 <=? k then flt (n * 10 ^ k) 0 else ratio_float n (10 ^ (- k)) in
  if neg then SFopp abs else abs.

Definition exponent_of (s : string) : option Z :=
  match s with
  | "" => Some 0
  | String c s' =>
      if Ascii.eqb (lower_char c) "e" then
        let '(neg, body) := sign_of s' in
        match digits body with
        | (String c d, "") => let n := digits_value 0 (String c d) in Some (if neg then - n else n)
        | _ => None
        end
      else None
  end.

Definition float_of_text (s : string) : option spec_float :=
  let '(neg, body) := sign_of (strip s) in
  if existsb (String.eqb (lower body)) ["inf"; "infinity"] then Some (S754_infinity neg)
  else if String.eqb (lower body) "nan" then Some S754_nan
  else
    let '(i, r) := digits body in
    let '(f, r') := if startswith "." r then digits (sdrop 1 r) else ("", r) in
    if String.eqb i "" && String.eqb f "" then None
    else (λ e, float_of_decimal neg (digits_value (digits_value 0 i) f) (e - Z.of_nat (String.length f))) <$> exponent_of r'.

(** ** [normalizer.py] *)

(** What normalizing can raise: the [LegacyNormalizerError]s by their reason,
    and the exceptions of Python itself. *)
Inductive cdc_error :=
| NotAnObject
| NoRowImage (table : json)
| MissingKey (table : string) (column : string)
| MissingTimestamp
| InvalidTimestamp (s : string)
| UnrecognizedTimestamp (s : string)
| PyTypeError | PyValueError | PyOverflowError | PyAttributeError.

Definition row : Type := list (string * json).

(** [row.get(k, d)], [a or b] *)
Definition get (k : string) (d : json) (r : row) : json := default d (obj_get k r).
Definition py_or (a b : json) : json := if py_truthy a then a else b.

Definition is_none (j : json) : bool := match j with JNull => true | _ => false end.
Definition is_delete (ev : row) : bool :=
  match get "op" (get "operation" JNull ev) ev with JStr s => String.eqb s "d" | _ => false end.

(** [float(v)] and [int(v)] *)
Definition to_float (v : json) : res cdc_error spec_float :=
  match v with
  | JBool b => Ok (float_of_Z (if b then 1 else 0))
  | JInt z => match float_of_Z z with S754_infinity _ => Raise PyOverflowError | f => Ok f end
  | JFloat f => Ok f
  | JStr s => match float_of_text s with Some f => Ok f | None => Raise PyValueError end
  | _ => Raise PyTypeError
  end.

Definition to_int (v : json) : res cdc_error Z :=
  match v with
  | JBool b => Ok (if b then 1 else 0)
  | JInt z => Ok z
  | JFloat f =>
      match f with S754_nan => Raise PyValueError | S754_infinity _ => Raise PyOverflowError | _ => Ok (int_of_float f) end
  | JStr s => match int_of_text s with Some z => Ok z | None => Raise PyValueError end
  | _ => Raise PyTypeError
  end.

(** [CLIENT_CATEGORY_MAP.get(code, "RETAIL")]: a number is found by its value,
    a list or an object cannot be a key. *)
Definition CLIENT_CATEGORY_MAP (code : json) : res cdc_error string :=
  let by_number n :=
    if num_eqb n (PInt 1) then "RETAIL" else if num_eqb n (PInt 2) then "HNI"
    else if num_eqb n (PInt 3) then "INSTITUTIONAL" else "RETAIL" in
  match code with
  | JBool b => Ok (by_number (PInt (if b then 1 else 0)))
  | JInt z => Ok (by_number (PInt z))
  | JFloat f => Ok (by_number (PFlt f))
  | JNull | JStr _ => Ok "RETAIL"
  | JList _ | JObj _ => Raise PyTypeError
  end.

(** *** Timestamps *)
Definition epoch_us : Z := 719162 * us_per_day.

(** A UTC datetime, if it lies in Python's calendar. *)
Definition utc_datetime (us : Z) : option datetime :=
  if (0 <=? us) && (us <? 3652059 * us_per_day) then Some (Datetime us (Some 0)) else None.

(** The integer nearest to [m * 2^e], ties to even. *)
Definition round_even (m e : Z) : Z :=
  if 0 <=? e then m * 2 ^ e
  else
    let den := 2 ^ (- e) in
    match 2 * (m mod den) ?= den with
    | Lt => m / den
    | Gt => m / den + 1
    | Eq => if Z.even (m / den) then m / den else m / den + 1
    end.

(** [datetime.fromtimestamp(f, utc)]: the fraction is scaled to microseconds
    and rounded. *)
Definition fromtimestamp (f : spec_float) : res cdc_error datetime :=
  match f with
  | S754_nan => Raise PyValueError
  | S754_infinity _ => Raise PyOverflowError
  | _ =>
      let seconds := int_of_float f in
      let us :=
        match float_val (float_mul (float_sub f (float_of_Z seconds)) (float_of_Z 1000000)) with
        | XFin m e => round_even m e | _ => 0 end in
      match utc_datetime (epoch_us + seconds * 1000000 + us) with Some d => Ok d | None => Raise PyValueError end
  end.

Definition fromtimestamp_int (z : Z) : res cdc_error datetime :=
  match utc_datetime (epoch_us + z * 1000000) with Some d => Ok d | None => Raise PyValueError end.

(** The day of a date, the first being 0001-01-01. *)
Definition days_of (y m d : Z) : Z :=
  let y' := if m <=? 2 then y - 1 else y in
  let mp := if m <=? 2 then m + 9 else m - 3 in
  (y' / 400) * days_per_era + doe_of (y' mod 400) mp d - 306.

(** [strptime(s, "%Y%m%d%H%M%S")] on fourteen digits: the fields take all
    their digits, and each is checked. *)
Definition strptime14 (s : string) : option datetime :=
  let field i n := digits_value 0 (stake n (sdrop i s)) in
  let y := field 0%nat 4%nat in let m := field 4%nat 2%nat in let d := field 6%nat 2%nat in
  let hh := field 8%nat 2%nat in let mm := field 10%nat 2%nat in let ss := field 12%nat 2%nat in
  if (1 <=? y) && bool_decide (civil (days_of y m d) = (y, m, d)) && (hh <? 24) && (mm <? 60) && (ss <? 60)
  then Some (Datetime (days_of y m d * us_per_day + ((hh * 60 + mm) * 60 + ss) * 1000000) (Some 0)) else None.

Section normalizer.
Context (fromisoformat : string → option datetime) (strptime_sql : string → option datetime) (py_hash : string → Z).

Definition parse_legacy_timestamp (val : json) : res cdc_error datetime :=
  match val with
  | JBool b => fromtimestamp_int (if b then 1 else 0)
  | JInt z =>
      if 1000000000000 <? z then
        let* f := to_float (JInt z) in fromtimestamp (float_div f (float_of_Z 1000))
      else fromtimestamp_int z
  | JFloat f => fromtimestamp (if flt_ltb (float_of_Z 1000000000000) f then float_div f (float_of_Z 1000) else f)
  | JStr t =>
      let s := strip t in
      if String.eqb s "" then Raise MissingTimestamp
      else if Nat.eqb (String.length s) 14 && all_chars is_digit s then
        match strptime14 s with Some d => Ok d | None => Raise (InvalidTimestamp s) end
      else
        match fromisoformat (str_replace "Z" "+00:00" s) with
        | Some d => Ok (match dt_offset d with None => replace_utc d | Some _ => d end)
        | None =>
            match strptime_sql s with Some d => Ok (replace_utc d) | None => Raise (UnrecognizedTimestamp s) end
        end
  | _ => Raise MissingTimestamp
  end.

Definition hundred : spec_float := float_of_Z 100.
Definition default_time : json := JStr "20260828230000".
Definition legacy_metadata (r : row) (table : string) : list (string * json) :=
  [("source_table", JStr table); ("legacy_client_code", JStr (str_json (get "VC_CLIENT_CODE" (JStr "") r)))].

Definition _normalize_trade_transaction (r : row) (table : string) : res cdc_error TransactionPayload :=
  let trans_id_raw := py_or (get "N_TRANS_ID" JNull r) (py_or (get "transaction_id" JNull r) (get "id" JNull r)) in
  if is_none trans_id_raw then Raise (MissingKey table "N_TRANS_ID") else
  let broker_code := str_json (py_or (get "VC_BROKER_CODE" JNull r) (py_or (get "broker_id" JNull r) (JStr "UNKNOWN_BROKER"))) in
  let* client_category := CLIENT_CATEGORY_MAP (get "N_CLIENT_CAT" (JInt 1) r) in
  let* margin_bp := to_float (get "N_UPFRONT_MARGIN_BP" (JInt 2000) r) in
  let* peak_flag := to_int (get "N_PEAK_MARGIN_FLAG" (JInt 1) r) in
  let* price_paisa := to_float (get "N_ORDER_PRICE_Paisa" (JInt 0) r) in
  let* qty := to_int (get "N_ORDER_QTY" (JInt 1) r) in
  let* qty_float := to_float (JInt qty) in
  let* received_at := parse_legacy_timestamp (py_or (get "DT_TRADE_TIME" JNull r) (py_or (get "created_at" JNull r) default_time)) in
  Ok (Transaction ("CDC-TRADE-" +:+ str_json trans_id_raw) "Stockbroker"
        [("upfront_margin_pct", JFloat (float_div margin_bp hundred));
         ("peak_margin_collected", JBool (peak_flag =? 1));
         ("client_category", JStr client_category);
         ("order_value_inr", JFloat (float_div (float_mul price_paisa qty_float) hundred));
         ("collateral_haircut_applied", JBool true);
         ("symbol", JStr (str_json (get "VC_SYMBOL" (JStr "NIFTY") r)));
         ("segment_type", JStr (str_json (get "VC_SEGMENT_TYPE" (JStr "CASH") r)))]
        DB_CDC (Some broker_code) None received_at (legacy_metadata r table)).

(** [max(15.0, x)] *)
Definition at_least_15 (x : spec_float) : spec_float := if flt_ltb (float_of_Z 15) x then x else float_of_Z 15.

Definition _normalize_client_collateral (r : row) (table : string) : res cdc_error TransactionPayload :=
  let alloc_id_raw := py_or (get "N_ALLOC_ID" JNull r) (get "id" JNull r) in
  if is_none alloc_id_raw then Raise (MissingKey table "N_ALLOC_ID") else
  let broker_code := str_json (py_or (get "VC_BROKER_CODE" JNull r) (JStr "UNKNOWN_BROKER")) in
  let* cash_paisa := to_float (get "N_CASH_COLLATERAL" (JInt 0) r) in
  let* noncash_paisa := to_float (get "N_NONCASH_COLLATVAL" (JInt 0) r) in
  let* haircut_bp := to_float (get "N_HAIRCUT_PCT_BP" (JInt 2000) r) in
  let haircut_pct := float_div haircut_bp hundred in
  let* received_at := parse_legacy_timestamp (py_or (get "DT_ALLOCATION_TIME" JNull r) default_time) in
  Ok (Transaction ("CDC-COLLATERAL-" +:+ str_json alloc_id_raw) "Stockbroker"
        [("upfront_margin_pct", JFloat (at_least_15 (float_sub hundred haircut_pct)));
         ("peak_margin_collected", JBool true);
         ("client_category", JStr "RETAIL");
         ("order_value_inr", JFloat (float_div (float_add cash_paisa noncash_paisa) hundred));
         ("collateral_haircut_applied", JBool (flt_ltb (float_of_Z 0) haircut_pct));
         ("haircut_pct", JFloat haircut_pct)]
        DB_CDC (Some broker_code) None received_at (legacy_metadata r table)).

(** [if k not in facts: facts[k] = v] *)
Definition setdefault (k : string) (v : json) (l : list (string * json)) : list (string * json) :=
  match obj_get k l with Some _ => l | None => (l ++ [(k, v)])%list end.

Definition _normalize_generic_row (r : row) (table : string) (now : datetime) : TransactionPayload :=
  let trans_id :=
    str_json (get "transaction_id" (get "id" (JStr ("GENERIC-" +:+ str_of_Z (py_hash (repr_json (JObj r))))) r) r) in
  let broker_id := str_json (get "broker_id" (get "VC_BROKER_CODE" (JStr "DEFAULT_BROKER") r) r) in
  let facts := List.filter (λ kv, negb (existsb (String.eqb kv.1) ["transaction_id"; "id"; "broker_id"; "entity_type"])) r in
  Transaction ("CDC-ROW-" +:+ trans_id) (str_json (get "entity_type" (JStr "Stockbroker") r))
    (setdefault "peak_margin_collected" (JBool true) (setdefault "upfront_margin_pct" (JFloat (float_of_Z 20)) facts))
    DB_CDC (Some broker_id) None now [("source_table", JStr table)].

(** [normalize_event]: [None] for a delete. *)
Definition normalize_event (raw_event : json) (now : datetime) : res cdc_error (option TransactionPayload) :=
  match raw_event with
  | JObj ev =>
      if is_delete ev then Ok None else
      let the_row := py_or (get "after" JNull ev) (py_or (get "payload" JNull ev) raw_event) in
      match get "source" (JObj []) ev with
      | JObj source_info =>
          let source_table := get "table" (get "source_table" (JStr "TBL_TRADE_TRANSACTIONS") ev) source_info in
          match the_row with
          | JObj ((_ :: _) as r) =>
              match source_table with
              | JStr table =>
                  let table_upper := upper table in
                  if contains "TRADE_TRANSACTIONS" table_upper || contains "TBL_TRADE" table_upper
                  then let* t := _normalize_trade_transaction r table in Ok (Some t)
                  else if contains "CLIENT_COLLATERAL" table_upper || contains "COLLATERAL" table_upper
                  then let* t := _normalize_client_collateral r table in Ok (Some t)
                  else Ok (Some (_normalize_generic_row r table now))
              | _ => Raise PyAttributeError
              end
          | _ => Raise (NoRowImage source_table)
          end
      | _ => Raise PyAttributeError
      end
  | _ => Raise NotAnObject
  end.

(** ** [dlq_handler.py] and [consumer.py] *)

(** The value of a message: bytes or text with what [json.loads] makes of
    them, a dict, or something else. *)
Inductive raw_value := RawText (text : string) (parsed : option json) | RawDict (l : row) | RawOther.

Record message := Message { mg_topic : string; mg_partition : Z; mg_offset : Z; mg_value : raw_value }.

Inductive failure := Corrupted | NotNormalized (e : cdc_error) | NotEvaluated.
Definition context (f : failure) : string :=
  match f with
  | Corrupted => "corrupted_json_parsing"
  | NotNormalized _ => "legacy_normalization_failure"
  | NotEvaluated => "api_evaluation_exhausted"
  end.

Record dlq_record := DlqRecord { dr_topic : string; dr_partition : Z; dr_offset : Z; dr_context : string }.

(** What the evaluation endpoint answers to an attempt: an exception, or a
    status with a body that is, or is not, a JSON object. *)
Inductive post_reply := PostRaised | Replied (status : Z) (body_is_object : bool).

(** The environment of one message: the answers to the attempts, whether a
    producer exists and its send succeeds, whether the alert gets through. *)
Record environment := Env { ev_post : Z → post_reply; ev_publish : bool; ev_alert : bool; ev_now : datetime }.

Record service := Service
  { processed_count : Z
  ; evaluated_count : Z
  ; dlq_count : Z
  ; published : list dlq_record
  ; alerted : list dlq_record }.

(** [handle_failed_record]: a failure of the producer or of the alert is
    logged and nothing else. *)
Definition handle_failed_record (env : environment) (s : service) (m : message) (f : failure) : service :=
  let r := DlqRecord (mg_topic m) (mg_partition m) (mg_offset m) (context f) in
  Service (processed_count s) (evaluated_count s) (dlq_count s)
    (if ev_publish env then (published s ++ [r])%list else published s)
    (if ev_alert env then (alerted s ++ [r])%list else alerted s).

(** The attempts of [_send_for_evaluation] from a given one on: whether the
    transaction was evaluated and how many posts were made. *)
Fixpoint attempts (post : Z → post_reply) (left : nat) (attempt : Z) : bool * Z :=
  match left with
  | O => (false, 0)
  | S left' =>
      let retry := let '(ok, n) := attempts post left' (attempt + 1) in (ok, n + 1) in
      match post attempt with
      | PostRaised => retry
      | Replied status body =>
          if status =? 200 then if body then (true, 1) else retry
          else if existsb (Z.eqb status) [500; 502; 503; 504] then retry
          else (false, 1)
      end
  end.
Definition _send_for_evaluation (dry_run : bool) (max_retries : Z) (post : Z → post_reply) : bool * Z :=
  if dry_run then (true, 0) else attempts post (Z.to_nat max_retries) 1.

Inductive outcome := Evaluated (t : TransactionPayload) | Ignored | DeadLettered (f : failure).

Context (dry_run : bool) (max_retries : Z).

Definition parsed_value (v : raw_value) : option json :=
  match v with RawText _ p => p | RawDict l => Some (JObj l) | RawOther => None end.

(** What becomes of a message. *)
Definition outcome_of (env : environment) (m : message) : outcome :=
  match parsed_value (mg_value m) with
  | None => DeadLettered Corrupted
  | Some raw_json =>
      match normalize_event raw_json (ev_now env) with
      | Raise e => DeadLettered (NotNormalized e)
      | Ok None => Ignored
      | Ok (Some t) =>
          if (_send_for_evaluation dry_run max_retries (ev_post env)).1 then Evaluated t else DeadLettered NotEvaluated
      end
  end.

Definition process_single_message (env : environment) (s : service) (m : message) : service :=
  let s := Service (processed_count s + 1) (evaluated_count s) (dlq_count s) (published s) (alerted s) in
  match outcome_of env m with
  | Evaluated _ => Service (processed_count s) (evaluated_count s + 1) (dlq_count s) (published s) (alerted s)
  | Ignored => s
  | DeadLettered f =>
      handle_failed_record env
        (Service (processed_count s) (evaluated_count s) (dlq_count s + 1) (published s) (alerted s)) m f
  end.

(** *** The loop of [run]

    A partition is the list of its messages; [committed] is the offset that
    was last committed for it.  A poll returns the next messages; they are
    processed in order and then the offset after the last is committed.  A
    cancellation or a crash can come between two messages; the consumer then
    starts again from the committed offset. *)
Record partition := Partition { pa_log : list message; pa_committed : Z }.
Record cdc_state := CdcState
  { cs_partitions : gmap string partition
  ; cs_service : service
  ; cs_handled : list (string * message * outcome) }.

Fixpoint process_messages (envs : list environment) (tp : string) (st : service * list (string * message * outcome))
    (ms : list message) : service * list (string * message * outcome) :=
  match envs, ms with
  | env :: envs', m :: ms' =>
      process_messages envs' tp (process_single_message env st.1 m, (st.2 ++ [(tp, m, outcome_of env m)])%list) ms'
  | _, _ => st
  end.

Definition uncommitted (p : partition) : list message := List.filter (λ m, pa_committed p <=? mg_offset m) (pa_log p).
Definition next_offset (p : partition) (ms : list message) : Z :=
  match last ms with Some m => mg_offset m + 1 | None => pa_committed p end.

(** A new process counts from zero. *)
Definition restarted (s : service) : service := Service 0 0 0 (published s) (alerted s).

Inductive cdc_step : cdc_state → cdc_state → Prop :=
| Produced st tp p m :
    cs_partitions st !! tp = Some p → pa_committed p ≤ mg_offset m → (∀ x, x ∈ pa_log p → mg_offset x < mg_offset m) →
    cdc_step st (CdcState (<[tp := Partition (pa_log p ++ [m]) (pa_committed p)]> (cs_partitions st)) (cs_service st) (cs_handled st))
| Consumed st tp p n envs s' h' :
    cs_partitions st !! tp = Some p → (n ≤ 50)%nat → length envs = length (firstn n (uncommitted p)) →
    process_messages envs tp (cs_service st, cs_handled st) (firstn n (uncommitted p)) = (s', h') →
    cdc_step st (CdcState (<[tp := Partition (pa_log p) (next_offset p (firstn n (uncommitted p)))]> (cs_partitions st)) s' h')
| Interrupted st tp p n k envs s' h' :
    cs_partitions st !! tp = Some p → (n ≤ 50)%nat → length envs = length (firstn k (firstn n (uncommitted p))) →
    process_messages envs tp (cs_service st, cs_handled st) (firstn k (firstn n (uncommitted p))) = (s', h') →
    cdc_step st (CdcState (cs_partitions st) (restarted s') h').
End normalizer.

(** ** Timestamps *)

(** The fourteen digits of a UTC second. *)
Definition stamp14 (us : Z) : string :=
  let '(y, m, d) := civil (us / us_per_day) in
  let s := us mod us_per_day / 1000000 in
  dig 4 y +:+ dig 2 m +:+ dig 2 d +:+ dig 2 (s / 3600) +:+ dig 2 (s / 60 mod 60) +:+ dig 2 (s mod 60).

Lemma days_of_civil n : 0 ≤ n → let '(y, m, d) := civil n in days_of y m d = n.
Proof.
  intros Hn. unfold civil. cbv zeta.
  pose proof (Z.mod_pos_bound (n + 306) days_per_era ltac:(done)) as Hb.
  pose proof (calendar_spec _ Hb) as (Hy & Hm & Hd & E).
  pose proof (Z.div_mod (n + 306) days_per_era ltac:(done)) as Hdm.
  remember ((n + 306) mod days_per_era) as doe eqn:Hdoe. clear Hdoe.
  remember ((n + 306) / days_per_era) as era eqn:He. clear He.
  assert (Hdiv : (era * 400 + year_of_era doe) / 400 = era ∧ (era * 400 + year_of_era doe) mod 400 = year_of_era doe).
  { split; [rewrite Z.div_add_l // Z.div_small //; lia|]. rewrite Z.add_comm Z.mod_add // Z.mod_small //. }
  unfold days_of. destruct (Z.ltb_spec (month_index doe) 10) as [H|H].
  - assert ((month_index doe + 3 <=? 2) = false) as -> by (apply Z.leb_gt; lia).
    replace (year_of_era doe + era * 400 + 0) with (era * 400 + year_of_era doe) by lia.
    replace (month_index doe + 3 - 3) with (month_index doe) by lia. destruct Hdiv as [-> ->]. rewrite E. lia.
  - assert ((month_index doe - 9 <=? 2) = true) as -> by (apply Z.leb_le; lia).
    replace (year_of_era doe + era * 400 + 1 - 1) with (era * 400 + year_of_era doe) by lia.
    replace (month_index doe - 9 + 9) with (month_index doe) by lia. destruct Hdiv as [-> ->]. rewrite E. lia.
Qed.

Lemma digits_value_app a b acc : digits_value acc (a +:+ b) = digits_value (digits_value acc a) b.
Proof. revert acc. induction a as [|c a IH]; intros acc; [done|]. apply IH. Qed.

Lemma digits_value_dig w n : 0 ≤ n < 10 ^ Z.of_nat w → digits_value 0 (dig w n) = n.
Proof.
  revert n. induction w as [|w IH]; intros n Hn; [cbn in *; lia|]. cbn [dig]. rewrite digits_value_app IH.
  - cbn [digits_value]. rewrite code_chr; [|pose proof (Z.mod_pos_bound n 10); lia].
    pose proof (Z.div_mod n 10). lia.
  - rewrite Nat2Z.inj_succ Z.pow_succ_r in Hn; [|lia]. split; [apply Z.div_pos; lia|apply Z.div_lt_upper_bound; lia].
Qed.

Lemma stake_app a b : stake (String.length a) (a +:+ b) = a.
Proof. induction a as [|c a IH]; [by destruct b|]. cbn. by rewrite IH. Qed.
Lemma sdrop_app a b : sdrop (String.length a) (a +:+ b) = b.
Proof. induction a as [|c a IH]; [by destruct b|]. cbn. by rewrite IH. Qed.
Lemma sdrop_sdrop n k s : sdrop k (sdrop n s) = sdrop (n + k) s.
Proof. revert s. induction n as [|n IH]; intros s; [by destruct s|]. destruct s as [|c s]; [by destruct k|]. apply IH. Qed.

Lemma stake_dig w n r : stake w (dig w n +:+ r) = dig w n.
Proof. rewrite -{1}(dig_length w n). apply stake_app. Qed.
Lemma sdrop_dig w k n r : sdrop (w + k) (dig w n +:+ r) = sdrop k r.
Proof. rewrite -sdrop_sdrop. f_equal. rewrite -{1}(dig_length w n). apply sdrop_app. Qed.

Section stamps.
Context (y m d hh mm ss : Z).
Context (Hy : 0 ≤ y < 10000) (Hm : 0 ≤ m < 100) (Hd : 0 ≤ d < 100) (Hh : 0 ≤ hh < 24) (Hmm : 0 ≤ mm < 60) (Hss : 0 ≤ ss < 60).

(** The fields of a printed stamp are read back. *)
Lemma strptime14_fields :
  strptime14 (dig 4 y +:+ dig 2 m +:+ dig 2 d +:+ dig 2 hh +:+ dig 2 mm +:+ dig 2 ss)
  = if (1 <=? y) && bool_decide (civil (days_of y m d) = (y, m, d))
    then Some (Datetime (days_of y m d * us_per_day + ((hh * 60 + mm) * 60 + ss) * 1000000) (Some 0)) else None.
Proof.
  rewrite -{1}(sapp_nil_r (dig 2 ss)). unfold strptime14.
  assert (∀ s, sdrop 0 s = s) as H0 by done.

  assert (∀ k n r, sdrop (S (S (S (S k)))) (dig 4 n +:+ r) = sdrop k r) as E4 by (intros; apply (sdrop_dig 4)).
  assert (∀ k n r, sdrop (S (S k)) (dig 2 n +:+ r) = sdrop k r) as E2 by (intros; apply (sdrop_dig 2)).
  rewrite !E4 !E2 !H0 !stake_dig.
  rewrite !digits_value_dig; [|cbn; lia..].
  assert ((hh <? 24) = true) as -> by (apply Z.ltb_lt; lia). assert ((mm <? 60) = true) as -> by (apply Z.ltb_lt; lia).
  assert ((ss <? 60) = true) as -> by (apply Z.ltb_lt; lia). by rewrite !andb_true_r.
Qed.
End stamps.

Lemma civil_first n : 0 ≤ n < 3652059 → 1 ≤ (civil n).1.1.
Proof.
  intros Hn. unfold civil. cbv zeta. cbn [fst].
  pose proof (Z.mod_pos_bound (n + 306) days_per_era ltac:(done)) as Hb.
  pose proof (calendar_spec _ Hb) as (Hy & Hm & Hd & E).
  pose proof (Z.div_mod (n + 306) days_per_era ltac:(done)) as Hdm.
  assert (0 ≤ (n + 306) / days_per_era) by (apply Z.div_pos; [lia|done]).
  remember ((n + 306) mod days_per_era) as doe eqn:Hdoe. clear Hdoe.
  remember ((n + 306) / days_per_era) as era eqn:He. clear He.
  destruct (decide (era = 0)) as [->|]; [|repeat case_match; lia].
  unfold doe_of, days_per_era in *. destruct (Z.ltb_spec (month_index doe) 10) as [H10|H10].
  - assert ((month_index doe + 3 <=? 2) = false) as -> by (apply Z.leb_gt; lia).
    destruct (decide (year_of_era doe = 0)) as [Ey|]; [|lia]. rewrite Ey in E. zlia.
  - assert ((month_index doe - 9 <=? 2) = true) as -> by (apply Z.leb_le; lia). lia.
Qed.

Lemma strip_digits s : all_chars is_digit s = true → strip s = s.
Proof.
  intros H. assert (∀ c, is_digit c = true → is_space c = false) as Hds.
  { intros c. unfold is_digit, is_space, code_between. intros [H1 H2]%andb_prop. breflect.
    repeat (apply orb_false_iff; split); try (apply andb_false_iff; lia); apply Z.eqb_neq; lia. }
  assert (lstrip_by is_space s = s) as E.
  { destruct s as [|c s]; [done|]. apply andb_prop in H as [Hc _]. cbn. by rewrite Hds. }
  unfold strip, strip_by. rewrite E. clear E. induction s as [|c s IH]; [done|].
  apply andb_prop in H as [Hc Hs]. cbn. rewrite IH //. rewrite Hds //. by destruct s.
Qed.

(** The timestamps of the legacy format are read without loss: the
    fourteen digits of every UTC second of the calendar are parsed back to
    that second. *)
Theorem legacy_timestamp_roundtrip iso sql us :
  in_calendar us → us mod 1000000 = 0 →
  parse_legacy_timestamp iso sql (JStr (stamp14 us)) = Ok (Datetime us (Some 0)).
Proof.
  intros Hc Hus. unfold in_calendar in Hc. unfold stamp14.
  assert (Hday : 0 ≤ us / us_per_day < 3652059).
  { split; [apply Z.div_pos; [lia|done]|apply Z.div_lt_upper_bound; [done|lia]]. }
  pose proof (days_of_civil (us / us_per_day) ltac:(lia)) as Hdays. pose proof (civil_md (us / us_per_day)) as Hmd.
  pose proof (civil_year (us / us_per_day) Hday) as Hyear. pose proof (civil_first (us / us_per_day) Hday) as Hfirst.
  destruct (civil (us / us_per_day)) as [[y m] d] eqn:Ecivil. cbn [fst snd] in *.
  set (s := us mod us_per_day / 1000000).
  assert (Hs : 0 ≤ s < 86400).
  { pose proof (Z.mod_pos_bound us us_per_day ltac:(done)). unfold us_per_day in *.
    split; [apply Z.div_pos; lia|apply Z.div_lt_upper_bound; lia]. }
  set (text := dig 4 y +:+ _).
  assert (Hdig : all_chars is_digit text = true) 
    by (unfold text; do 5 (rewrite all_chars_app dig_digits; cbn [andb]); apply dig_digits).
  assert (Hlen : String.length text = 14%nat) by (unfold text; do 5 rewrite slength_app dig_length; by rewrite dig_length).
  unfold parse_legacy_timestamp. rewrite strip_digits // Hlen Hdig.
  destruct (String.eqb_spec text "") as [->|_]; [done|]. cbn [Nat.eqb andb]. unfold text. rewrite strptime14_fields; [|zlia..].
  rewrite Hdays Ecivil bool_decide_eq_true_2 // (proj2 (Z.leb_le 1 y)) //. cbn [andb]. do 2 f_equal.
  transitivity (us / us_per_day * us_per_day + s * 1000000).
  { f_equal. f_equal. pose proof (Z.div_mod s 60 ltac:(done)). pose proof (Z.div_mod (s / 60) 60 ltac:(done)) as Hhour.
    rewrite Z.div_div // in Hhour. change (60 * 60) with 3600 in *. lia. }
  unfold s. pose proof (Z.div_mod us us_per_day ltac:(done)).
  pose proof (Z.div_mod (us mod us_per_day) 1000000 ltac:(done)).
  assert (us mod us_per_day mod 1000000 = 0); [|lia].
  rewrite Z.mod_mod_divide //. by exists 86400.
Qed.

(** ** Normalized transactions *)
Section wf.
Context (iso sql : string → option datetime) (py_hash : string → Z).

(** What every transaction of the stream has: the channel, a broker, and the
    two facts that the margin rules read. *)
Definition cdc_transaction (t : TransactionPayload) : Prop :=
  source_channel t = DB_CDC ∧ is_Some (tx_broker_id t)
  ∧ is_Some (obj_get "upfront_margin_pct" (facts t)) ∧ is_Some (obj_get "peak_margin_collected" (facts t))
  ∧ is_Some (obj_get "source_table" (metadata t)).

Lemma obj_get_app_some {A} k (l l' : list (string * A)) : is_Some (obj_get k l) → obj_get k (l ++ l') = obj_get k l.
Proof.
  induction l as [|[k' v] l IH]; [by intros []|]. cbn [obj_get app]. destruct (String.eqb k k'); [done|]. apply IH.
Qed.
Lemma setdefault_some k v l : is_Some (obj_get k (setdefault k v l)).
Proof.
  unfold setdefault. destruct (obj_get k l) as [x|] eqn:E; [by rewrite E|].
  induction l as [|[k' v'] l IH]; cbn [obj_get app] in *; [rewrite String.eqb_refl; eauto|].
  destruct (String.eqb k k'); [done|]. by apply IH.
Qed.
Lemma setdefault_keeps k k' v l : is_Some (obj_get k l) → is_Some (obj_get k (setdefault k' v l)).
Proof. intros H. unfold setdefault. destruct (obj_get k' l); [done|]. by rewrite obj_get_app_some. Qed.

Lemma trade_wf r table t : _normalize_trade_transaction iso sql r table = Ok t → cdc_transaction t.
Proof.
  unfold _normalize_trade_transaction. destruct (is_none _); [done|].
  do 7 (intros (? & _ & H)%res_bind_Ok; revert H). intros [= <-]. unfold cdc_transaction. by cbn.
Qed.
Lemma collateral_wf r table t : _normalize_client_collateral iso sql r table = Ok t → cdc_transaction t.
Proof.
  unfold _normalize_client_collateral. destruct (is_none _); [done|].
  do 4 (intros (? & _ & H)%res_bind_Ok; revert H). intros [= <-]. unfold cdc_transaction. by cbn.
Qed.
Lemma generic_wf r table now : cdc_transaction (_normalize_generic_row py_hash r table now).
Proof.
  unfold cdc_transaction, _normalize_generic_row. cbn [source_channel tx_broker_id facts metadata obj_get].
  split_and!; [done|eauto|apply setdefault_keeps, setdefault_some|apply setdefault_some|by eexists].
Qed.

(** An event is ignored exactly when it is a delete; any other event is either
    refused or becomes a transaction that has what an evaluation needs. *)
Lemma normalize_event_spec raw now :
  match normalize_event iso sql py_hash raw now with
  | Ok None => ∃ ev, raw = JObj ev ∧ is_delete ev = true
  | Ok (Some t) => cdc_transaction t
  | Raise _ => ¬ ∃ ev, raw = JObj ev ∧ is_delete ev = true
  end.
Proof.
  unfold normalize_event. destruct raw as [| | | | | |ev]; try naive_solver.
  destruct (is_delete ev) eqn:E; [eauto|].
  assert (Hno : ¬ ∃ ev', JObj ev = JObj ev' ∧ is_delete ev' = true) by (intros (ev' & [= <-] & ?); congruence).
  cbv zeta. destruct (get "source" _ ev) as [| | | | | |src]; try done.
  destruct (py_or _ _) as [| | | | | |[|x r]]; try done.
  destruct (get "table" _ src) as [| | | |table| |]; try done.
  destruct (_ || _); [|destruct (_ || _)]; cbn [res_bind].
  - destruct (_normalize_trade_transaction _ _ _ _) eqn:Et; [by eapply trade_wf|done].
  - destruct (_normalize_client_collateral _ _ _ _) eqn:Et; [by eapply collateral_wf|done].
  - apply generic_wf.
Qed.
End wf.

(** ** Posting *)

(** The answers after which the consumer tries again. *)
Definition transient (r : post_reply) : bool :=
  match r with
  | PostRaised => true
  | Replied status body => if status =? 200 then negb body else existsb (Z.eqb status) [500; 502; 503; 504]
  end.
Definition accepted (r : post_reply) : bool := match r with Replied status body => (status =? 200) && body | PostRaised => false end.

Lemma attempts_spec post left first :
  let '(ok, n) := attempts post left first in
  0 ≤ n ≤ Z.of_nat left
  ∧ (∀ i, first ≤ i < first + n - 1 → transient (post i) = true)
  ∧ (ok = true ↔ 0 < n ∧ accepted (post (first + n - 1)) = true)
  ∧ (ok = false → n = Z.of_nat left ∨ (0 < n ∧ transient (post (first + n - 1)) = false)).
Proof.
  revert first. induction left as [|left IH]; intros first; cbn [attempts]; [split_and!; naive_solver lia|].
  assert (Hretry : transient (post first) = true →
    let '(ok, n) := (let '(ok, n) := attempts post left (first + 1) in (ok, n + 1)) in
    0 ≤ n ≤ Z.of_nat (S left) ∧ (∀ i, first ≤ i < first + n - 1 → transient (post i) = true)
    ∧ (ok = true ↔ 0 < n ∧ accepted (post (first + n - 1)) = true)
    ∧ (ok = false → n = Z.of_nat (S left) ∨ (0 < n ∧ transient (post (first + n - 1)) = false))).
  { intros Ht. specialize (IH (first + 1)). destruct (attempts post left (first + 1)) as [ok n].
    destruct IH as (Hn & Hall & Hok & Hfail). split_and!; [lia|lia|..].
    - intros i Hi. destruct (decide (i = first)) as [->|]; [done|]. apply Hall. lia.
    - rewrite Hok. replace (first + (n + 1) - 1) with (first + 1 + n - 1) by lia. split; [intros [? ?]; split; [lia|done]|].
      intros [? Ha]. destruct (decide (n = 0)) as [->|]; [|split; [lia|done]]. exfalso.
      replace (first + 1 + 0 - 1) with first in Ha by lia. destruct (post first) as [|status body]; [done|].
      cbn in Ht, Ha. destruct (status =? 200); [|done]. by destruct body.
    - intros H. destruct (Hfail H) as [->|[? ?]]; [left; lia|right]. split; [lia|].
      by replace (first + (n + 1) - 1) with (first + 1 + n - 1) by lia. }
  destruct (post first) as [|status body] eqn:E; [by apply Hretry|]. cbn [transient] in Hretry.
  destruct (status =? 200) eqn:E200; [destruct body; [|by apply Hretry]|destruct (existsb _ _) eqn:E5; [by apply Hretry|]].
  - split_and!; try lia; try done. replace (first + 1 - 1) with first by lia. rewrite E. cbn. rewrite E200. split; [split; [lia|done]|done].
  - split_and!; try lia.
    + replace (first + 1 - 1) with first by lia. rewrite E. cbn. rewrite E200. naive_solver.
    + intros _. right. split; [lia|]. replace (first + 1 - 1) with first by lia. rewrite E. cbn [transient]. by rewrite E200.
Qed.

(** ** Delivery *)
Section delivery.
Context (iso sql : string → option datetime) (py_hash : string → Z) (dry_run : bool) (max_retries : Z).
#[local] Abbreviation outcome_of := (outcome_of iso sql py_hash dry_run max_retries).
#[local] Abbreviation process := (process_single_message iso sql py_hash dry_run max_retries).
#[local] Abbreviation process_all := (process_messages iso sql py_hash dry_run max_retries).
#[local] Abbreviation step := (cdc_step iso sql py_hash dry_run max_retries).

(** A list of messages in the order of their offsets. *)
Definition ordered (l : list message) : Prop := StronglySorted (λ x y, mg_offset x < mg_offset y) l.

Lemma process_messages_handled envs tp st ms s' h' :
  length envs = length ms → process_all envs tp st ms = (s', h') →
  ∃ os, length os = length ms ∧ h' = (st.2 ++ zip_with (λ m o, (tp, m, o)) ms os)%list.
Proof.
  revert envs st. induction ms as [|m ms IH]; intros [|env envs] st Hl H; try done; cbn [process_messages] in H.
  - exists []. subst. split; [done|]. by rewrite app_nil_r.
  - destruct (IH _ _ ltac:(by injection Hl) H) as (os & Ho & ->). exists (outcome_of env m :: os).
    split; [cbn; by rewrite Ho|]. cbn [snd zip_with]. by rewrite -app_assoc.
Qed.

Lemma zip_elem {A B C} (f : A → B → C) l k x : length k = length l → x ∈ l → ∃ o, f x o ∈ zip_with f l k.
Proof.
  revert k. induction l as [|y l IH]; intros [|o k] Hl Hx; try done; [by apply elem_of_nil in Hx|].
  apply elem_of_cons in Hx as [->|Hx]; [exists o; left|]. destruct (IH k ltac:(by injection Hl) Hx) as [o' Ho]. exists o'. by right.
Qed.

(** A message up to the end of a batch is in the batch. *)
Lemma batch_covers l n x y :
  ordered l → x ∈ l → last (firstn n l) = Some y → mg_offset x ≤ mg_offset y → x ∈ firstn n l.
Proof.
  intros Hs Hx Hy Hle. rewrite -(take_drop n l) in Hx, Hs. apply elem_of_app in Hx as [Hx|Hx]; [done|]. exfalso.
  unfold ordered in Hs. apply StronglySorted_app in Hs as (Hrel & _ & _).
  apply last_Some_elem_of in Hy. specialize (Hrel y x Hy Hx). lia.
Qed.

(** The record of a failure. *)
Definition record_of (m : message) (f : failure) : dlq_record :=
  DlqRecord (mg_topic m) (mg_partition m) (mg_offset m) (context f).

(** A handled message has the outcome that its environment gave it, and a
    failure is on the dead-letter topic and with the operators if they could
    be reached. *)
Definition traced (s : service) (x : string * message * outcome) : Prop :=
  ∃ env, x.2 = outcome_of env x.1.2
    ∧ ∀ f, x.2 = DeadLettered f →
        (ev_publish env = true → record_of x.1.2 f ∈ published s) ∧ (ev_alert env = true → record_of x.1.2 f ∈ alerted s).

(** The records of a service are a part of those of another. *)
Definition grown (s s' : service) : Prop :=
  (∀ r, r ∈ published s → r ∈ published s') ∧ (∀ r, r ∈ alerted s → r ∈ alerted s').

Lemma process_grown env s m : grown s (process env s m).
Proof.
  unfold grown, process_single_message. destruct (outcome_of env m); cbn; try naive_solver.
  destruct (ev_publish env), (ev_alert env); set_solver.
Qed.

Lemma process_traced env s tp m : traced (process env s m) (tp, m, outcome_of env m).
Proof.
  exists env. split; [done|]. cbn [fst snd]. intros f Hf. unfold process_single_message, record_of. rewrite Hf. cbn.
  split; intros ->; set_solver.
Qed.

Lemma traced_grown s s' x : grown s s' → traced s x → traced s' x.
Proof. intros [H1 H2] (env & E & H). exists env. split; [done|]. intros f Hf. specialize (H f Hf). naive_solver. Qed.

Lemma process_messages_traced envs tp st ms s' h' :
  Forall (traced st.1) st.2 → process_all envs tp st ms = (s', h') → Forall (traced s') h'.
Proof.
  revert envs st. induction ms as [|m ms IH]; intros [|env envs] [s h] Ht H; cbn [process_messages] in H;
    try (injection H as <- <-; done).
  apply (IH envs (process env s m, (h ++ [(tp, m, outcome_of env m)])%list)); [|done].
  cbn [fst snd]. apply Forall_app. split; [|constructor; [apply process_traced|constructor]].
  eapply Forall_impl; [exact Ht|]. intros x. apply traced_grown, process_grown.
Qed.

Lemma process_messages_counts envs tp st ms s' h' :
  process_all envs tp st ms = (s', h') → evaluated_count st.1 + dlq_count st.1 ≤ processed_count st.1 →
  evaluated_count s' + dlq_count s' ≤ processed_count s'.
Proof.
  revert envs st. induction ms as [|m ms IH]; intros [|env envs] [s h] H Hc; cbn [process_messages] in H;
    try (injection H as <- <-; done).
  apply (IH _ _ H). cbn [fst] in *. unfold process_single_message. destruct (outcome_of env m); cbn; lia.
Qed.

(** What holds in every state of the consumer. *)
Definition delivery_inv (st : cdc_state) : Prop :=
  (∀ tp p, cs_partitions st !! tp = Some p →
    ordered (pa_log p) ∧ ∀ m, m ∈ pa_log p → mg_offset m < pa_committed p → ∃ o, (tp, m, o) ∈ cs_handled st)
  ∧ Forall (traced (cs_service st)) (cs_handled st)
  ∧ evaluated_count (cs_service st) + dlq_count (cs_service st) ≤ processed_count (cs_service st).

(** A consumer that starts: nothing of the partitions is behind the committed
    offsets. *)
Definition cdc_start (st : cdc_state) : Prop :=
  (∀ tp p, cs_partitions st !! tp = Some p → ordered (pa_log p) ∧ ∀ m, m ∈ pa_log p → pa_committed p ≤ mg_offset m)
  ∧ cs_handled st = [] ∧ cs_service st = Service 0 0 0 [] [].

Lemma cdc_start_inv st : cdc_start st → delivery_inv st.
Proof.
  intros (Hp & Hh & Hs). unfold delivery_inv. rewrite Hh Hs. split_and!; [|constructor|done].
  intros tp p Htp. destruct (Hp tp p Htp) as [Ho Hall]. split; [done|]. intros m Hm Hlt. specialize (Hall m Hm). lia.
Qed.

Lemma ordered_filter (q : message → bool) l : ordered l → ordered (List.filter q l).
Proof.
  unfold ordered. induction 1 as [|x l Hs IH Hx]; cbn [List.filter]; [constructor|]. destruct (q x); [|done].
  constructor; [done|]. rewrite Forall_forall in Hx. apply Forall_forall. intros y [Hy _]%filter_elem. by apply Hx.
Qed.

Lemma cdc_step_inv st st' : step st st' → delivery_inv st → delivery_inv st'.
Proof.
  intros Hstep (Hp & Ht & Hc). destruct Hstep as [st tp p m Htp Hge Hlast|st tp p n envs s' h' Htp Hn Hl Hrun|st tp p n k envs s' h' Htp Hn Hl Hrun].
  - split_and!; cbn [cs_partitions cs_handled cs_service]; [|done|done]. intros tp' p' H.
    apply lookup_insert_Some in H as [[<- <-]|[_ H]]; [|by apply Hp]. destruct (Hp tp p Htp) as [Ho Hall]. cbn [pa_log pa_committed].
    split.
    + unfold ordered. apply StronglySorted_app. split_and!; [|done|repeat constructor]. intros x y Hx ->%list_elem_of_singleton. auto.
    + intros x [Hx|Hx]%elem_of_app Hlt; [by apply Hall|]. apply list_elem_of_singleton in Hx as ->. lia.
  - pose proof (process_messages_traced envs tp (cs_service st, cs_handled st) _ _ _ Ht Hrun) as Ht'.
    pose proof (process_messages_counts envs tp (cs_service st, cs_handled st) _ _ _ Hrun Hc) as Hc'.
    destruct (process_messages_handled _ _ _ _ _ _ Hl Hrun) as (os & Hos & ->). cbn [snd] in *.
    split_and!; cbn [cs_partitions cs_handled cs_service]; [|done|done]. intros tp' p' H.
    apply lookup_insert_Some in H as [[<- <-]|[_ H]]; cbn [pa_log pa_committed].
    2: { destruct (Hp tp' p' H) as [Ho Hall]. split; [done|]. intros x Hx Hlt. destruct (Hall x Hx Hlt) as [o Hin]. exists o. set_solver. }
    destruct (Hp tp p Htp) as [Ho Hall]. split; [done|]. intros x Hx Hlt.
    destruct (decide (mg_offset x < pa_committed p)) as [Hold|Hnew].
    + destruct (Hall x Hx Hold) as [o Hin]. exists o. set_solver.
    + assert (x ∈ uncommitted p) as Hu by (apply filter_elem; split; [done|]; apply Z.leb_le; lia).
      unfold next_offset in Hlt. destruct (last (firstn n (uncommitted p))) as [y|] eqn:Ey; [|lia].
      destruct (zip_elem (λ m o, (tp, m, o)) _ os x Hos (batch_covers _ n x y (ordered_filter _ _ Ho) Hu Ey ltac:(lia))) as [o Hin].
      exists o. apply elem_of_app. by right.
  - pose proof (process_messages_traced envs tp (cs_service st, cs_handled st) _ _ _ Ht Hrun) as Ht'.
    destruct (process_messages_handled _ _ _ _ _ _ Hl Hrun) as (os & Hos & ->). cbn [snd] in *.
    split_and!; cbn [cs_partitions cs_handled cs_service]; [| |cbn; lia].
    + intros tp' p' H. destruct (Hp tp' p' H) as [Ho Hall]. split; [done|]. intros x Hx Hlt.
      destruct (Hall x Hx Hlt) as [o Hin]. exists o. set_solver.
    + eapply Forall_impl; [exact Ht'|]. intros x. by apply traced_grown.
Qed.

End delivery.

(** ** Instances *)
Lemma legacy_timestamp_roundtrip_witness :
  parse_legacy_timestamp (λ _, None) (λ _, None) (JStr "20260828233500") = Ok (Datetime 63923556900000000 (Some 0)).
Proof.
  change "20260828233500" with (stamp14 63923556900000000).
  apply legacy_timestamp_roundtrip; vm_compute; [split; [discriminate|reflexivity]|reflexivity].
Defined.

(** A trade, a delete and a row without a key; the endpoint is down for the
    first attempt. *)
Definition w_event (op : string) (after : row) : raw_value :=
  RawDict [("op", JStr op); ("source", JObj [("table", JStr "TBL_TRADE_TRANSACTIONS")]); ("after", JObj after)].
Definition w_trade : row :=
  [("N_TRANS_ID", JInt 99001); ("VC_BROKER_CODE", JStr "BROKER_001"); ("N_ORDER_QTY", JInt 100);
   ("N_ORDER_PRICE_Paisa", JInt 250000); ("N_UPFRONT_MARGIN_BP", JInt 1500); ("DT_TRADE_TIME", JStr "20260828233500")].
Definition w_messages : list message :=
  [Message "t" 0 7 (w_event "c" w_trade); Message "t" 0 8 (w_event "d" []); Message "t" 0 10 (w_event "c" [("INVALID_FIELD", JStr "NO_PK")])].
Definition w_env : environment :=
  Env (λ i, if i =? 1 then Replied 503 false else Replied 200 true) true false (Datetime 0 None).
Definition w_process (ms : list message) : service * list (string * message * outcome) :=
  process_messages (λ _, None) (λ _, None) (λ _, 0) false 3 (map (λ _, w_env) ms) "t-0" (Service 0 0 0 [] [], []) ms.
Definition w_start : cdc_state := CdcState {["t-0" := Partition w_messages 7]} (Service 0 0 0 [] []) [].
Definition w_end : cdc_state :=
  CdcState (<["t-0" := Partition w_messages 11]> (cs_partitions w_start)) (w_process w_messages).1 (w_process w_messages).2.


(** A trade without margin columns is presented as one with an upfront margin
    of 20 percent and a collected peak margin. *)
Theorem missing_margin_reported_collected iso sql r table t :
  _normalize_trade_transaction iso sql r table = Ok t →
  obj_get "N_UPFRONT_MARGIN_BP" r = None → obj_get "N_PEAK_MARGIN_FLAG" r = None →
  obj_get "upfront_margin_pct" (facts t) = Some (JFloat (float_of_Z 20))
  ∧ obj_get "peak_margin_collected" (facts t) = Some (JBool true).
Proof.
  unfold _normalize_trade_transaction. destruct (is_none _); [done|]. intros H E1 E2.
  replace (get "N_UPFRONT_MARGIN_BP" (JInt 2000) r) with (JInt 2000) in H by (unfold get; by rewrite E1).
  replace (get "N_PEAK_MARGIN_FLAG" (JInt 1) r) with (JInt 1) in H by (unfold get; by rewrite E2).
  apply res_bind_Ok in H as (c & _ & H).
  apply res_bind_Ok in H as (bp & Hbp & H). apply res_bind_Ok in H as (pk & Hpk & H). vm_compute in Hbp, Hpk.
  injection Hbp as <-. injection Hpk as <-. do 4 (apply res_bind_Ok in H as (? & _ & H)). injection H as <-. by split.
Qed.

(** When neither the topic nor the endpoint can be reached, the failed message
    is recorded nowhere and its offset is committed like any other. *)
Theorem failed_event_vanishes iso sql py_hash dry_run max_retries env s m f :
  ev_publish env = false → ev_alert env = false →
  Cdc.outcome_of iso sql py_hash dry_run max_retries env m = DeadLettered f →
  published (process_single_message iso sql py_hash dry_run max_retries env s m) = published s
  ∧ alerted (process_single_message iso sql py_hash dry_run max_retries env s m) = alerted s.
Proof. intros Hp Ha Ho. unfold process_single_message. rewrite Ho. cbn. by rewrite Hp Ha. Qed.

(** An evaluation whose answer cannot be read is requested again. *)
Theorem unread_answer_posted_again :
  attempts (λ i, Replied 200 (i =? 2)) 3 1 = (true, 2).
Proof. reflexivity. Qed.

(** A key of zero counts as missing, and a delete inside the payload of an
    envelope is not recognized. *)
Theorem zero_key_refused :
  normalize_event (λ _, None) (λ _, None) (λ _, 0) (JObj [("op", JStr "c"); ("after", JObj [("N_TRANS_ID", JInt 0)])]) (Datetime 0 None)
  = Raise (MissingKey "TBL_TRADE_TRANSACTIONS" "N_TRANS_ID").
Proof. reflexivity. Qed.
Theorem enveloped_delete_refused :
  normalize_event (λ _, None) (λ _, None) (λ _, 0)
    (JObj [("schema", JObj []); ("payload", JObj [("op", JStr "d"); ("before", JObj w_trade); ("after", JNull)])]) (Datetime 0 None)
  = Raise (MissingKey "TBL_TRADE_TRANSACTIONS" "N_TRANS_ID").
Proof. reflexivity. Qed.

Example float_texts : map float_of_text ["15.5"; " -2e3 "; "1_000"; "inf"; "1__0"; "abc"; "."]
  = [Some (decimal 155 1); Some (float_of_Z (-2000)); Some (float_of_Z 1000); Some (S754_infinity false); None; None; None].
Proof. vm_compute. reflexivity. Qed.
